(* ===== verification/_CoqProject ===== *)
-Q . S2P
Prelude.v
PyStr.v
Json.v
PyFloat.v
PyVal.v
Bands.v
WeakCrypto.v
Scoring.v
ScoringTheory.v
ScoringProps.v
Model.v
Hardware.v
HwDrift.v
HwDriftProps.v
FindingText.v
Catalog.v
Compliance.v
Evidence.v
EvidenceTheory.v
EvidenceProps.v
Findings.v
FindingsTheory.v
FindingsProps.v
Confidence.v
Remediation.v
Roadmap.v
ScoreLift.v
ScopeSignature.v
PortSpec.v
Closure.v
ClosureTheory.v
ClosureProps.v
Snapshot.v
SnapshotTheory.v
SnapshotProps.v
Pipeline.v
RateLimit.v
RateLimitProps.v
TokenBucket.v
Siem.v
Deadlines.v
Burndown.v
KeyReuse.v
Bridge.v
ExposureMap.v
Trends.v
Sensors.v
SensorsProps.v
Merge.v
MergeProps.v
Jobs.v
JobConfig.v
JobConfigProps.v
Qramm.v
QrammProps.v
QrammBridge.v
IpAddr.v
UrlGuard.v
UrlGuardProps.v
Targets.v
TargetsProps.v
Server.v
ServerProps.v
Scheduler.v
SchedulerProps.v
Dashboard.v
DashboardProps.v
ScanView.v
ScanPage.v
Compare.v
ScanViewProps.v
Notify.v
NotifyProps.v
