(* ===== verification/Prelude.v ===== *)
(** A verification library for QU.I.R.K.

    QU.I.R.K. scans an estate for cryptography that a quantum computer, or
    today's attacks, would break.  Its scanners write endpoint rows to a
    database; the findings evaluator ([src/quirk/engine]) turns the rows into
    findings; the intelligence layer ([src/quirk/intelligence]) turns rows and
    findings into a readiness score, a confidence figure, a remediation roadmap,
    projected scores, trends, an exposure map and, across scans, machine-observed
    closures of findings.  That core decides what a client is told, and it is
    what this library models and verifies, with what stands around it: the remote
    sensors and the merge of their results, the hardware inventory and its drift,
    the dashboard's findings, scan pages, comparisons, jobs and their configuration,
    the scheduler of recurring scans, the QRAMM self-assessment, notifications,
    tickets and the export to a SIEM, and the guards in front: the server's doors,
    outbound URLs, targets, ports and the limiters.

    * How the parts interact

<<
    endpoint rows (Model) ---- Findings ----> report findings
        |                   (+ FindingText, Catalog, Compliance)
        |                                        |
        +-----------------> Evidence <-----------+
                               |                 |
               +---------------+----------+      |
               v               v          v      |
            Scoring       Confidence   Roadmap --+--> ScoreLift (uses Scoring)
            (+ Bands)                  (+ Remediation)
                                          |      |
                                          v      v
                                         Snapshot ----> remediation tables
                                                             |
    endpoint rows, config --- ScopeSignature --> signatures  |
                                                     v       v
                                                     Closure ----> states, events
                                                             |
             Pipeline = Snapshot ; ScopeSignature ; Closure  v
                                                          Burndown (+ Deadlines)

    two sessions of rows ---- Trends (uses Evidence, Scoring)
    rows, hardware inventory ---- KeyReuse, Bridge ----> ExposureMap
    requests ---- RateLimit;  probes ---- TokenBucket;  port text ---- PortSpec

    pushes, files ---- Sensors ----> endpoint rows ---- Merge (uses Findings, Scoring)
    hardware rows ---- Hardware, HwDrift ----> tiers, CVEs, drift events, forecast
    submissions ---- JobConfig ----> configuration, environment;  Jobs: their rows
    answers ---- Qramm ----> maturity, compliance map;  rows ---- QrammBridge
    findings ---- Siem ----> CEF lines ---- Notify ----> deliveries, tickets

    one run's rows ---- Dashboard ----> findings, score
                        ---- ScanView, ScanPage ----> sessions, page of a scan
    two runs' rows ---- Compare ----> comparison, drift, coverage
    schedules ---- Scheduler ----> runs, configurations (uses Targets, Server)
    requests ---- Server ----> token, CSRF;  URLs ---- UrlGuard (uses IpAddr)
    target text ---- Targets (uses IpAddr, UrlGuard) ----> hosts, networks
>>

    * Files

    [Prelude]        exceptions as results, strings as Python's [str], stable
                     sorting with its uniqueness, the order on strings,
                     automation ([split_ifs], [bool_to_prop], hint base [quirk]).
    [PyStr]          slices, [replace], [split], [join] and their inversion.
    [Json]           [json.dumps] with sorted keys on the payloads the program
                     hashes; the serialisation is injective.
    [PyFloat]        binary64 arithmetic: rounding to nearest even on rationals,
                     [sum] from left to right, [round], [int], monotonicity,
                     exact differences on a grid, relative error.
    [PyVal]          dynamic values, dictionaries in insertion order, the
                     tolerant coercions [_as_int] and [_as_float].
    [Bands]          [severity_bands.py]: bands, the severity cap.
    [WeakCrypto]     [util/weak_crypto.py]: weak-cipher and legacy-TLS tests.
    [Scoring]        [intelligence/scoring.py]: all of [compute_readiness_score].
    [ScoringTheory], [ScoringProps]  bounds, monotone impacts; the properties.
    [Model]          [models.py] endpoint rows, findings, instants, and the
                     title bridge [dashboard/api/finding_title_bridge.py].
    [FindingText]    the text of every finding of [engine/findings_evaluator.py].
    [Catalog]        [reports/content_model.py]: classes, advice, quantum risk.
    [Compliance]     [compliance/__init__.py]: controls of a title, the two title
                     policies, and the fingerprint of [ticketing/base.py].
    [Evidence]       [intelligence/evidence.py]: [build_evidence_summary] as a
                     fold of [step] over the rows, then [summarize].
    [EvidenceTheory], [EvidenceProps]  the ticks of a row, the census, links to
                     the score.
    [Findings]       [engine/findings_evaluator.py]: the row loop and its
                     post-processing and deduplication, the protocol evaluators,
                     [derive_report_findings].
    [FindingsTheory], [FindingsProps]  what is reported, and what that does to
                     the score.
    [Confidence]     [intelligence/confidence.py].
    [Remediation]    [intelligence/remediation.py]: slugs, constituency, states.
    [Roadmap]        [intelligence/roadmap.py]: [build_phased_roadmap].
    [ScoreLift]      [intelligence/score_lift.py]: mutators, lifts, projection.
    [ScopeSignature] [intelligence/scope_signature.py]: target and signature
                     digests, probe families and their health, the upsert.
    [PortSpec]       [util/port_spec.py]: [parse_port_spec], and its grammar.
    [Closure]        [intelligence/closure.py]: the tables, the comparability
                     ladder, [judge] (the verdict on one prior row),
                     [compute_closure] with its three passes, [closure_counts].
    [ClosureTheory], [ClosureProps]  the invariants of the three passes; the
                     properties of closure.
    [Snapshot]       [intelligence/remediation_persist.py] on these tables.
    [SnapshotTheory], [SnapshotProps]  what one snapshot adds.
    [Pipeline]       the post-scan phases of [run_scan.py], composed.
    [RateLimit]      [dashboard/api/middleware/rate_limit.py], and the abstract
                     limiter; [RateLimitProps] the refinement.
    [TokenBucket]    [engine/rate_limiter.py]: the waiting loop of [acquire].
    [Deadlines]      [cbom/classifier.py], [scanner/pqc_deadlines.py].
    [Burndown]       [intelligence/burndown.py] on the tables of [Closure].
    [KeyReuse]       [intelligence/key_reuse.py] and the edges drawn from it.
    [Bridge]         [cbom/bridge.py]: subnet pairs and ARP evidence.
    [ExposureMap]    [intelligence/exposure_map.py], [models_util.py].
    [Trends]         [intelligence/trends.py].
    [Hardware]       [scanner/hardware_tier.py], [hardware_eol.py], [hw_cve.py]
                     and the inventory queries of [models_util.py].
    [HwDrift]        [scanner/hardware_drift.py], [hardware_forecast.py]: the
                     candidates, the event history, retention, the forecast;
                     [HwDriftProps] their properties.
    [Sensors]        [cli/console_cmd.py], [cli/sensor_auth.py],
                     [dashboard/api/routes/sensor.py] on the console's tables;
                     [SensorsProps] its steps and their invariant.
    [Merge]          [merge/scan.py] and the automatic merge of the sensor route;
                     [MergeProps].
    [Jobs]           [dashboard/api/routes/jobs.py], [cli/job_progress.py], the
                     sweep of [dashboard/api/app.py]: server and scan processes
                     as one step relation.
    [JobConfig]      the overlays of [dashboard/api/schemas.py] and the building
                     of a job's configuration; [JobConfigProps].
    [Siem]           [siem/formatter.py], and a reader of the format.
    [Qramm]          [qramm/scoring.py], [assessment_state.py], [compliance_map.py]
                     and the routes [dashboard/api/routes/qramm.py];
                     [QrammProps]; [QrammBridge] [qramm/evidence_bridge.py] and
                     [assessment/migration_advisor.py].
    [IpAddr]         the addresses and networks of the standard library's
                     [ipaddress], as CPython 3.11 reads and classifies them.
    [UrlGuard]       [util/url_allowlist.py] with [urlparse]; [UrlGuardProps].
    [Targets]        [util/targets.py], [target_trust.py], [hosts.py],
                     [subprocess_input.py]; [TargetsProps].
    [Server]         [util/server_config.py], [dashboard/server.py], the token,
                     CSRF and header middleware, [deps.py]; [ServerProps].
    [Scheduler]      [cli/scheduler_cmd.py], [otics_cadence.py], the schedule
                     routes and commands; [SchedulerProps].
    [Dashboard]      the findings [dashboard/api/routes/scan.py] derives from rows
                     (TLS, identity, motion, data at rest); [DashboardProps].
    [ScanView], [ScanPage]  the sessions, the rows of a scan and the page of one
                     scan, from the same file and [schemas.py].
    [Compare]        the comparison of two scans, [hardware_drift.py],
                     [reports/coverage.py]; [ScanViewProps] properties of the three.
    [Notify]         [notify/], [siem/dispatcher.py], [ticketing/base.py]: tickets
                     over the interface [TicketingChannel]; [NotifyProps].

    A Python function keeps its name; a leading underscore is dropped.  A loop
    over a dictionary or list is a fold, its body a definition of its own; an
    object mutated in place is the state of that fold.  A raised exception is
    [Raise], so a definition whose type is not [pyres] never raises.

    * What the theorems show

    Score ([ScoringProps]): the function is total and bounded; it is monotone
    in every weakness under every profile; critical findings and missing
    post-quantum key exchange bound it absolutely; it ignores the population
    size; rating and drivers are those of the score.

    Evidence ([EvidenceProps]): each counter counts exactly the rows that tick
    it; coverage counters are ordered; unanswered mail probes, coverage-gap
    findings, row order and repeated SAML certificates do not move the score.

    Findings ([FindingsProps]): when the evaluator raises; deduplication keeps
    the first worst finding of each key and nothing else; nothing drafted is
    lost; which rows are CRITICAL, and that they hold the score at POOR; every
    report is well formed.

    Roadmap, lifts, confidence: the roadmap tracks the penalties the scorer
    charges and is well formed; lifts are positive and the projection never
    lower; confidence is monotone and its overrides raise as documented.

    Closure ([ClosureProps]): no closure without both sides of the condition
    ([two_sided]); every state change has its event, events are only appended
    and the unique keys survive, so no insert can fail; no finding of the prior
    scan disappears; resurfacing is exactly a detection after a closure; items
    close only with their constituents; the report counts the events; scans of
    two estates are refused.  [ScopeSignature] supplies the digests and the
    positive evidence these rest on.

    Snapshot and pipeline: a snapshot only adds rows, records exactly the
    constituents, and repeating it changes nothing; after a whole scan a
    detected finding is open, closure ran or named its reason, and a critical
    cause is tracked.

    Views: the burndown is a census that loses no row; key-reuse edges are
    exactly the shared keys; every edge of the exposure map is backed by the rows
    it cites; the delta of two sessions is exact.

    Sensors and merge: every push attempt leaves one audit row; an accepted push
    is authentic, inside the replay window and new; the tables stay consistent
    and a revoked sensor stays out; a merge takes exactly the last push of each
    sensor and its score is the score of the union; the automatic merge settles.

    Hardware: the drift candidates are exactly the confirmed changes, each is
    recorded once, retention deletes exactly the stale rows in scope, a firmware
    upgrade never adds a CVE, the forecast is a census.

    Jobs: rows are well formed under every interleaving, a poll reports a dead
    process, sweeps keep verdicts; the configuration file of a job is independent
    of the submitted secrets, and overlays change neither targets nor policy.

    QRAMM: a score is the weakest link and monotone in the answers, requests
    never fail on the server's side, a score is stale exactly when the counts of
    its answers changed, relevance stays within the weights, the evidence bridge
    only suggests.  SIEM: a reader gets back exactly the fields of the finding.

    Dashboard ([DashboardProps], [ScanViewProps]): its findings are those of the
    report on every TLS row; a finding shown is found again; an expired certificate
    rates POOR; a page shows the rows of one run; the list, the page and the
    comparison give a run one score; a comparison reads the same from both sides;
    the bill of materials names exactly the rows' algorithms.

    Guards ([UrlGuardProps], [TargetsProps], [ServerProps]): an accepted URL reaches
    no forbidden address under any embedding of IPv4 in IPv6; a running server's own
    endpoint is never fetched; a server on the network keeps asking for its token
    whatever becomes of its configuration file; a target list is read exactly, and
    the gate passes exactly what the allowlist covers.

    Scheduler ([SchedulerProps]): a generated configuration is safe and holds its
    target; an iteration appends one ended run per due schedule, which then waits for
    its next firing.  Tickets ([NotifyProps]): on any tracker that keeps the lookup
    contract, one issue per finding identity whatever fails.

    In front: the port parser implements its grammar and reads back what the
    signature records; the API limiter refines one that remembers everything,
    serves a client that waited, and accounts for refused pushes in bounded
    memory; the token bucket returns within three turns.

    * Bounds, parameters, termination

    Every definition is structurally recursive: no fuel is used, and every
    function is total.  The one loop that waits, [TokenBucket.acquire_loop], runs
    over the list of its clock readings, and its theorem says how many are
    enough.  SHA-256 is a parameter; theorems about digests assume that it does
    not collide on the two payloads compared.  [now] and [clock] (the values of
    successive clock calls), [set_order] (the iteration order of a Python set),
    [loads] ([json.loads], [None] where it raises), [fromisoformat], [repr],
    [decompress], [parse_envelope], [log_path], [log10], [to_int], [stored_profile],
    [resolve] ([getaddrinfo]), [env], the file system of [Targets], [next_fire] and
    [cron_valid] ([croniter]), the YAML documents and the transports are parameters
    over which the theorems quantify.  ([Sensors] takes addresses as a
    parameter; the guards use [IpAddr].)

    * Abstractions

    Strings are sequences of code points 0..255, and case mapping is ASCII; a
    literal of the program beyond them is kept as its UTF-8 bytes.  Floats are
    finite: NaN, infinities and overflow do not arise from the inputs modelled
    and are not represented, nor are subnormals.  The text of an exception is
    descriptive only.  The database is the list of rows of each table with its
    unique columns ([ClosureTheory.wf]), in the order queries without ORDER BY
    return them; connection failures are not modelled.  In Closure, queries read
    the tables as last flushed and rows are the session's objects, because the
    session has [autoflush=False].  A request of the API limiter is one step,
    because its lock is held throughout; the token bucket has one caller.

    * Not modelled

    The scanners ([scanner/], [discovery/]), the orchestration of [run_scan.py]
    beyond the post-scan phases, argument parsing and prompts, the loading of the
    configuration file and the migrations of the database are input and output
    around this core; so are the renderers of [reports/], the CycloneDX builder of
    [cbom/] and the Slack, SMTP, webhook, Jira and ServiceNow clients, which build
    the objects of third-party libraries.  Of the dashboard, the storyline, the
    configuration previews and the downloads are left out: they read what is
    modelled here and keep no state. *)
From Stdlib Require Import ZArith QArith Lia Lqa.
From stdpp Require Import base tactics strings list gmap pretty.

(** * Notations *)

Declare Scope quirk_scope.
Delimit Scope quirk_scope with quirk.

(** ** Python exceptions

    A Python call returns a value or raises; [pyres] is that sum, with the
    exception classes the modelled code raises. *)
Inductive pyexn :=
| ValueError (msg : string)
| TypeError (msg : string)
| KeyError (key : string)
| OverflowError (msg : string)
| AttributeError (msg : string).

Inductive pyres (A : Type) :=
| Ok (a : A)
| Raise (e : pyexn).
Arguments Ok {A} a.
Arguments Raise {A} e.

Definition pbind {A B} (c : pyres A) (k : A -> pyres B) : pyres B :=
  match c with
  | Ok a => k a
  | Raise e => Raise e
  end.

Notation "'let!' x := c 'in' k" := (pbind c (fun x => k))
  (at level 10, x binder, c at level 100, k at level 200) : quirk_scope.

Definition is_ok {A} (c : pyres A) : bool :=
  match c with Ok _ => true | Raise _ => false end.

(** The result of a loop that may raise, over a list. *)
Fixpoint pfold {A S} (f : S -> A -> pyres S) (s : S) (l : list A) : pyres S :=
  match l with
  | [] => Ok s
  | a :: l' => pbind (f s a) (fun s' => pfold f s' l')
  end.

(** A comprehension whose body may raise: the first exception wins. *)
Fixpoint ptraverse {A B} (f : A -> pyres B) (l : list A) : pyres (list B) :=
  match l with
  | [] => Ok []
  | a :: l' => pbind (f a) (fun b => pbind (ptraverse f l') (fun bs => Ok (b :: bs)))
  end.

Lemma pbind_ok {A B} (c : pyres A) (k : A -> pyres B) b :
  pbind c k = Ok b <-> exists a, c = Ok a /\ k a = Ok b.
Proof.
  destruct c as [a|e]; simpl; split; [eauto|by intros (x & [= ->] & H)|done|by intros (x & H & _)].
Qed.

Lemma ptraverse_ok {A B} (f : A -> pyres B) l bs :
  ptraverse f l = Ok bs <-> Forall2 (fun a b => f a = Ok b) l bs.
Proof.
  revert bs. induction l as [|a l IH]; intros bs; simpl.
  - split; [intros [= <-]; constructor|by inversion 1].
  - rewrite pbind_ok. setoid_rewrite pbind_ok. split.
    + intros (b & Hb & bs' & Hbs & [= <-]). constructor; [done|by apply IH].
    + inversion 1 as [|? b ? bs' Hb Hbs]; subst. exists b. split; [done|].
      exists bs'. by rewrite IH.
Qed.

Lemma ptraverse_raise {A B} (f : A -> pyres B) l e :
  ptraverse f l = Raise e <->
  exists l1 a l2 bs, l = l1 ++ a :: l2 /\ ptraverse f l1 = Ok bs /\ f a = Raise e.
Proof.
  split.
  - induction l as [|a l IH]; simpl; [done|]. destruct (f a) as [b|e'] eqn:Ha; simpl.
    + destruct (ptraverse f l) as [bs|e'']; simpl; [done|]. intros [= ->].
      destruct (IH eq_refl) as (l1 & x & l2 & bs & -> & H1 & H2).
      exists (a :: l1), x, l2, (b :: bs). split_and!; [done| |done]. simpl. by rewrite Ha, H1.
    + intros [= ->]. by exists [], a, l, [].
  - intros (l1 & a & l2 & bs & -> & H1 & H2). revert bs H1.
    induction l1 as [|x l1 IH]; intros bs; simpl; [by rewrite H2|].
    rewrite pbind_ok. setoid_rewrite pbind_ok. intros (b & -> & bs' & Hbs & _).
    simpl. by rewrite (IH bs' Hbs).
Qed.

Lemma elem_of_filter_bool {A} (p : A -> bool) (l : list A) x :
  x ∈ List.filter p l <-> x ∈ l /\ p x = true.
Proof. by rewrite !list_elem_of_In, filter_In. Qed.

Lemma elem_of_concat {A} (x : A) (ls : list (list A)) : x ∈ concat ls <-> exists l, x ∈ l /\ l ∈ ls.
Proof. rewrite list_elem_of_In, in_concat. setoid_rewrite list_elem_of_In. naive_solver. Qed.

Lemma nodup_map_filter {A B} (f : A -> B) p l : NoDup (map f l) -> NoDup (map f (List.filter p l)).
Proof.
  induction l as [|a l IH]; simpl; [done|]. intros [Ha Hl]%NoDup_cons. destruct (p a); [|auto]. simpl. constructor; [|auto].
  intros (x & Hx & Hin)%list_elem_of_fmap. apply Ha, list_elem_of_fmap. exists x. by apply elem_of_filter_bool in Hin as [? _].
Qed.

Lemma nodup_filter {A} (p : A -> bool) (l : list A) : NoDup l -> NoDup (List.filter p l).
Proof. intros H. rewrite <- (map_id (List.filter p l)). apply nodup_map_filter. by rewrite map_id. Qed.

(** The identifier SQLite gives the next row of a table without [AUTOINCREMENT]. *)
Definition next_id (ids : list Z) : Z := (1 + foldr Z.max 0 ids)%Z.

Lemma next_id_above ids i : i ∈ ids -> (i < next_id ids)%Z.
Proof.
  unfold next_id. induction ids as [|j ids IH]; intros H; [by apply elem_of_nil in H|]. simpl.
  apply elem_of_cons in H as [->|H]; [lia|]. specialize (IH H). lia.
Qed.

Lemma next_id_fresh ids : next_id ids ∉ ids.
Proof. intros H%next_id_above. lia. Qed.

(** A loop over a list in its last element. *)
Lemma pfold_app {A S} (f : S -> A -> pyres S) s l k :
  pfold f s (l ++ k) = pbind (pfold f s l) (fun s' => pfold f s' k).
Proof. revert s. induction l as [|a l IH]; intros s; simpl; [done|]. destruct (f s a); simpl; [apply IH|done]. Qed.

(** * Automation *)

Create HintDb quirk.

(** Case analysis on every boolean test or option match of the goal. *)
Ltac split_ifs :=
  repeat match goal with
  | |- context [if ?b then _ else _] => destruct b eqn:?
  | |- context [match ?o with Some _ => _ | None => _ end] => destruct o eqn:?
  end.

Ltac split_ifs_in H :=
  repeat match type of H with
  | context [if ?b then _ else _] => destruct b eqn:?
  | context [match ?o with Some _ => _ | None => _ end] => destruct o eqn:?
  end.

(** Boolean integer tests as propositions. *)
Ltac bool_to_prop :=
  repeat match goal with
  | H : (_ && _)%bool = true |- _ => apply andb_true_iff in H; destruct H
  | H : (_ || _)%bool = false |- _ => apply orb_false_iff in H; destruct H
  | H : (_ || _)%bool = true |- _ => apply orb_true_iff in H
  | H : (_ && _)%bool = false |- _ => apply andb_false_iff in H
  | H : negb _ = true |- _ => apply negb_true_iff in H
  | H : negb _ = false |- _ => apply negb_false_iff in H
  | H : (_ <=? _)%Z = true |- _ => apply Z.leb_le in H
  | H : (_ <=? _)%Z = false |- _ => apply Z.leb_gt in H
  | H : (_ <? _)%Z = true |- _ => apply Z.ltb_lt in H
  | H : (_ <? _)%Z = false |- _ => apply Z.ltb_ge in H
  | H : (_ =? _)%Z = true |- _ => apply Z.eqb_eq in H
  | H : (_ =? _)%Z = false |- _ => apply Z.eqb_neq in H
  end.

(** * Strings

    A Python [str] is a [string] of 8-bit characters, read as the code points
    0..255.  [upper] and [lower] act on the ASCII letters. *)

Definition ascii_upper (c : Ascii.ascii) : Ascii.ascii :=
  let n := Ascii.nat_of_ascii c in
  if (97 <=? n)%nat && (n <=? 122)%nat then Ascii.ascii_of_nat (n - 32) else c.

Definition ascii_lower (c : Ascii.ascii) : Ascii.ascii :=
  let n := Ascii.nat_of_ascii c in
  if (65 <=? n)%nat && (n <=? 90)%nat then Ascii.ascii_of_nat (n + 32) else c.

Fixpoint smap (f : Ascii.ascii -> Ascii.ascii) (s : string) : string :=
  match s with
  | EmptyString => EmptyString
  | String c s' => String (f c) (smap f s')
  end.

Definition upper (s : string) : string := smap ascii_upper s.
Definition lower (s : string) : string := smap ascii_lower s.

(** [str.isspace] on one character: the characters [str.strip] removes. *)
Definition is_space (c : Ascii.ascii) : bool :=
  let n := Ascii.nat_of_ascii c in
  ((9 <=? n)%nat && (n <=? 13)%nat) || ((28 <=? n)%nat && (n <=? 32)%nat)
  || (n =? 133)%nat || (n =? 160)%nat.

Definition is_digit (c : Ascii.ascii) : bool :=
  let n := Ascii.nat_of_ascii c in (48 <=? n)%nat && (n <=? 57)%nat.

Fixpoint lstrip_by (p : Ascii.ascii -> bool) (s : string) : string :=
  match s with
  | EmptyString => EmptyString
  | String c s' => if p c then lstrip_by p s' else s
  end.

Fixpoint rstrip_by (p : Ascii.ascii -> bool) (s : string) : string :=
  match s with
  | EmptyString => EmptyString
  | String c s' =>
      match rstrip_by p s' with
      | EmptyString => if p c then EmptyString else String c EmptyString
      | r => String c r
      end
  end.

Definition strip (s : string) : string := rstrip_by is_space (lstrip_by is_space s).

(** [s == t], [s.startswith(t)], [t in s], [s.split(sep)] for a
    one-character separator. *)
Definition str_eqb (s t : string) : bool := bool_decide (s = t).

Fixpoint startswith (s pre : string) : bool :=
  match pre, s with
  | EmptyString, _ => true
  | String c pre', String d s' => bool_decide (c = d) && startswith s' pre'
  | String _ _, EmptyString => false
  end.

Fixpoint contains (s sub : string) : bool :=
  startswith s sub ||
  match s with
  | EmptyString => false
  | String _ s' => contains s' sub
  end.

Fixpoint split_on (sep : Ascii.ascii) (s : string) : list string :=
  match s with
  | EmptyString => [EmptyString]
  | String c s' =>
      if bool_decide (c = sep) then EmptyString :: split_on sep s'
      else match split_on sep s' with
           | [] => [String c EmptyString]
           | w :: ws => String c w :: ws
           end
  end.

(** [x in container] for a tuple, list or set of strings. *)
Definition str_in (s : string) (l : list string) : bool :=
  bool_decide (s ∈ l).

Lemma str_in_elem s l : str_in s l = true <-> s ∈ l.
Proof. apply bool_decide_eq_true. Qed.

(** [x or ""] for a nullable string column. *)
Definition str_or_empty (o : option string) : string := default EmptyString o.

(** The truth value of a nullable string: [None] and [""] are falsy. *)
Definition truthy_str (o : option string) : bool :=
  match o with Some (String _ _) => true | _ => false end.

(** Code-point order on strings, as Python's [<=] on [str]. *)
Fixpoint str_leb (s t : string) : bool :=
  match s, t with
  | EmptyString, _ => true
  | String _ _, EmptyString => false
  | String a s', String b t' =>
      let x := Ascii.nat_of_ascii a in
      let y := Ascii.nat_of_ascii b in
      (x <? y)%nat || ((x =? y)%nat && str_leb s' t')
  end.

(** * Sorting

    Python's [sorted] is stable; on a total preorder [leb] it is stable
    insertion sort. *)
Section Sorting.
Context {A : Type} (leb : A -> A -> bool).

Fixpoint insert_sorted (x : A) (l : list A) : list A :=
  match l with
  | [] => [x]
  | y :: l' => if leb x y then x :: l else y :: insert_sorted x l'
  end.

Fixpoint py_sorted (l : list A) : list A :=
  match l with
  | [] => []
  | x :: l' => insert_sorted x (py_sorted l')
  end.

Definition sorted_by (l : list A) : Prop :=
  forall i j x y, (i < j)%nat -> l !! i = Some x -> l !! j = Some y -> leb x y = true.

Lemma insert_sorted_perm x l : insert_sorted x l ≡ₚ x :: l.
Proof.
  induction l as [|y l IH]; simpl; [done|].
  destruct (leb x y); [done|]. rewrite IH. constructor.
Qed.

Lemma py_sorted_perm l : py_sorted l ≡ₚ l.
Proof.
  induction l as [|x l IH]; simpl; [done|]. by rewrite insert_sorted_perm, IH.
Qed.

Hypothesis leb_total : forall x y, leb x y = true \/ leb y x = true.
Hypothesis leb_trans : forall x y z, leb x y = true -> leb y z = true -> leb x z = true.

(** [head_le x l]: [x] is below every element of [l]. *)
Fixpoint all_above (l : list A) : Prop :=
  match l with
  | [] => True
  | x :: l' => Forall (fun y => leb x y = true) l' /\ all_above l'
  end.

Lemma all_above_sorted l : all_above l -> sorted_by l.
Proof.
  induction l as [|x l IH]; intros Hl i j a b Hij Ha Hb; [by rewrite lookup_nil in Ha|].
  destruct Hl as [Hx Hl]. destruct j as [|j]; [lia|].
  destruct i as [|i]; simpl in *.
  - injection Ha as <-. rewrite Forall_forall in Hx.
    apply Hx. by eapply list_elem_of_lookup_2.
  - apply (IH Hl i j a b); [lia|done|done].
Qed.

Lemma insert_sorted_above x l : all_above l -> all_above (insert_sorted x l).
Proof.
  induction l as [|y l IH]; simpl; [done|]. intros [Hy Hl].
  destruct (leb x y) eqn:E; simpl.
  - split; [|done]. constructor; [done|].
    eapply Forall_impl; [exact Hy|]. intros z Hz. by eapply leb_trans.
  - split; [|by apply IH]. rewrite insert_sorted_perm. constructor; [|done].
    destruct (leb_total x y); congruence.
Qed.

Lemma py_sorted_above l : all_above (py_sorted l).
Proof. induction l as [|x l IH]; simpl; [done|]. by apply insert_sorted_above. Qed.

Lemma py_sorted_sorted l : sorted_by (py_sorted l).
Proof. apply all_above_sorted, py_sorted_above. Qed.
End Sorting.

Lemma sorted_by_take {A} (leb : A -> A -> bool) n l :
  sorted_by leb l -> sorted_by leb (take n l).
Proof.
  intros Hs i j x y Hij Hx Hy.
  apply lookup_take_Some in Hx as [Hx _]. apply lookup_take_Some in Hy as [Hy _].
  by eapply Hs.
Qed.

Lemma all_above_filter {A} (leb : A -> A -> bool) p l : all_above leb l -> all_above leb (List.filter p l).
Proof.
  induction l as [|x l IH]; simpl; [done|]. intros [Hx Hl]. destruct (p x); simpl; [|auto].
  split; [|auto]. apply Forall_forall. intros y Hy. apply elem_of_filter_bool in Hy as [Hy _].
  by rewrite Forall_forall in Hx; apply Hx.
Qed.

(** An antisymmetric order has one sorted arrangement of a list. *)
Section Canonical.
Context {A : Type} (leb : A -> A -> bool).
Hypothesis leb_total : forall x y, leb x y = true \/ leb y x = true.
Hypothesis leb_trans : forall x y z, leb x y = true -> leb y z = true -> leb x z = true.
Hypothesis leb_antisym : forall x y, leb x y = true -> leb y x = true -> x = y.

Lemma all_above_unique l l' : all_above leb l -> all_above leb l' -> l ≡ₚ l' -> l = l'.
Proof.
  revert l'. induction l as [|x l IH]; intros [|y l'] Hl Hl' Hp; try done.
  - by apply Permutation_nil_cons in Hp.
  - symmetry in Hp. by apply Permutation_nil_cons in Hp.
  - assert (x = y) as ->.
    { destruct Hl as [Hx _], Hl' as [Hy _]. rewrite Forall_forall in Hx, Hy.
      assert (Hin : x ∈ y :: l') by (rewrite <- Hp; left).
      assert (Hin' : y ∈ x :: l) by (rewrite Hp; left).
      apply elem_of_cons in Hin as [?|Hin]; [done|].
      apply elem_of_cons in Hin' as [?|Hin']; [done|]. auto. }
    f_equal. apply IH; [apply Hl|apply Hl'|]. by apply Permutation_cons_inv in Hp.
Qed.

Lemma py_sorted_canonical l l' : l ≡ₚ l' -> py_sorted leb l = py_sorted leb l'.
Proof.
  intros Hp. apply all_above_unique; [by apply py_sorted_above..|]. by rewrite !py_sorted_perm.
Qed.
End Canonical.

(** * The order on strings *)

Lemma str_leb_total s t : str_leb s t = true \/ str_leb t s = true.
Proof.
  revert t. induction s as [|a s IH]; intros [|b t]; simpl; auto.
  destruct (IH t) as [H|H]; rewrite H;
    destruct (Nat.lt_total (Ascii.nat_of_ascii a) (Ascii.nat_of_ascii b)) as [E|[E|E]];
    rewrite ?(proj2 (Nat.ltb_lt _ _) E), ?E, ?Nat.eqb_refl, ?orb_true_r; auto.
Qed.

Lemma str_leb_trans s t u : str_leb s t = true -> str_leb t u = true -> str_leb s u = true.
Proof.
  revert t u. induction s as [|a s IH]; intros [|b t] [|c u]; simpl; try done.
  rewrite !orb_true_iff, !andb_true_iff, !Nat.ltb_lt, !Nat.eqb_eq.
  intros [H|[-> H]] [K|[K1 K]]; rewrite <- ?K1 in *; try (left; lia). right. eauto.
Qed.

Lemma str_leb_antisym s t : str_leb s t = true -> str_leb t s = true -> s = t.
Proof.
  revert t. induction s as [|a s IH]; intros [|b t]; simpl; try done.
  rewrite !orb_true_iff, !andb_true_iff, !Nat.ltb_lt, !Nat.eqb_eq.
  intros [H|[E H]] [K|[K1 K]]; try lia. f_equal; [|auto].
  rewrite <- (Ascii.ascii_nat_embedding a), <- (Ascii.ascii_nat_embedding b). by rewrite E.
Qed.

(** [sorted] of a set of strings: the order of its elements is irrelevant. *)
Definition sorted_strings (l : list string) : list string := py_sorted str_leb l.

Lemma sorted_strings_perm l : sorted_strings l ≡ₚ l.
Proof. apply py_sorted_perm. Qed.

Lemma sorted_strings_canonical l l' : l ≡ₚ l' -> sorted_strings l = sorted_strings l'.
Proof. apply py_sorted_canonical; [apply str_leb_total|apply str_leb_trans|apply str_leb_antisym]. Qed.

Lemma elem_of_sorted_strings x l : x ∈ sorted_strings l <-> x ∈ l.
Proof. by rewrite sorted_strings_perm. Qed.

(** ** Tuples

    A tuple key compares at its first differing component: [lex eqb leb x y rest]
    decides by [leb] where [x] and [y] differ, else by the [rest] of the tuple. *)
Definition lex {A} (eqb leb : A -> A -> bool) (x y : A) (rest : bool) : bool :=
  if eqb x y then rest else leb x y.

Section Lex.
Context {A B : Type} (eqb leb : A -> A -> bool) (rest : B -> B -> bool) (key : B -> A).
Hypothesis eqb_spec : forall x y, eqb x y = true <-> x = y.
Hypothesis leb_total : forall x y, leb x y = true \/ leb y x = true.
Hypothesis leb_trans : forall x y z, leb x y = true -> leb y z = true -> leb x z = true.
Hypothesis leb_antisym : forall x y, leb x y = true -> leb y x = true -> x = y.

Lemma eqb_false x y : eqb x y = false <-> x <> y.
Proof. rewrite <- (eqb_spec x y). by rewrite not_true_iff_false. Qed.

Lemma lex_total :
  (forall f g, rest f g = true \/ rest g f = true) ->
  forall f g, lex eqb leb (key f) (key g) (rest f g) = true
              \/ lex eqb leb (key g) (key f) (rest g f) = true.
Proof.
  intros Hr f g. unfold lex. destruct (eqb (key f) (key g)) eqn:E1, (eqb (key g) (key f)) eqn:E2; auto.
  - apply eqb_spec in E1. apply eqb_false in E2. congruence.
  - apply eqb_spec in E2. apply eqb_false in E1. congruence.
Qed.

Lemma lex_trans :
  (forall f g h, rest f g = true -> rest g h = true -> rest f h = true) ->
  forall f g h, lex eqb leb (key f) (key g) (rest f g) = true ->
                lex eqb leb (key g) (key h) (rest g h) = true ->
                lex eqb leb (key f) (key h) (rest f h) = true.
Proof.
  intros Hr f g h. unfold lex.
  destruct (eqb (key f) (key g)) eqn:E1.
  - apply eqb_spec in E1. rewrite E1. destruct (eqb (key g) (key h)) eqn:E2; eauto.
  - destruct (eqb (key g) (key h)) eqn:E2.
    + apply eqb_spec in E2. rewrite <- E2, E1. auto.
    + destruct (eqb (key f) (key h)) eqn:E3; [|eauto].
      apply eqb_spec in E3. apply eqb_false in E1. intros H1 H2. rewrite <- E3 in H2.
      destruct E1. auto.
Qed.
End Lex.
