(* ===== verification/PyStr.v ===== *)
(** Python's string methods beyond those of [Prelude]: slices, [endswith],
    [replace], [rsplit], [str.join], and the substitutions [re.sub] makes with a
    character class.  Shared by the components that build text. *)
From Stdlib Require Import NArith ZArith Lia Ascii.
From stdpp Require Import base tactics strings list pretty.
From S2P Require Import Prelude.

(** [s[:n]] and [s[n:]]. *)
Fixpoint str_take (n : nat) (s : string) : string :=
  match n, s with
  | S n', String c s' => String c (str_take n' s')
  | _, _ => EmptyString
  end.

Fixpoint str_drop (n : nat) (s : string) : string :=
  match n, s with
  | O, _ => s
  | S n', String _ s' => str_drop n' s'
  | S _, EmptyString => EmptyString
  end.

(** [s[:-n]] and [s.endswith(suffix)]. *)
Definition str_drop_end (n : nat) (s : string) : string := str_take (String.length s - n) s.

Definition endswith (s suffix : string) : bool :=
  (String.length suffix <=? String.length s)%nat
  && str_eqb (str_drop (String.length s - String.length suffix) s) suffix.

(** [s.replace(old, new)] for a non-empty [old]: leftmost occurrences, without
    overlap; [skip] characters of the last one are still to be passed. *)
Fixpoint replace_from (old new : string) (skip : nat) (s : string) : string :=
  match s with
  | EmptyString => EmptyString
  | String c s' =>
      match skip with
      | S k => replace_from old new k s'
      | O => if startswith s old then new +:+ replace_from old new (String.length old - 1) s'
             else String c (replace_from old new 0 s')
      end
  end.

Definition replace (old new s : string) : string := replace_from old new 0 s.

(** [s.split(sep, 1)] and [s.rsplit(sep, 1)] for a one-character separator,
    [None] when it does not occur. *)
Fixpoint split_once (sep : Ascii.ascii) (s : string) : option (string * string) :=
  match s with
  | EmptyString => None
  | String c s' =>
      if bool_decide (c = sep) then Some (EmptyString, s')
      else match split_once sep s' with Some (a, b) => Some (String c a, b) | None => None end
  end.

Fixpoint rsplit_once (sep : Ascii.ascii) (s : string) : option (string * string) :=
  match s with
  | EmptyString => None
  | String c s' =>
      match rsplit_once sep s' with
      | Some (a, b) => Some (String c a, b)
      | None => if bool_decide (c = sep) then Some (EmptyString, s') else None
      end
  end.

(** [sep.join(parts)]. *)
Fixpoint str_join (sep : string) (parts : list string) : string :=
  match parts with
  | [] => EmptyString
  | [p] => p
  | p :: parts' => p +:+ sep +:+ str_join sep parts'
  end.

(** [re.sub("[^class]+", sep, s)]: each maximal run outside the class becomes one
    [sep]; [in_run] says the previous character was outside. *)
Fixpoint collapse (keep : Ascii.ascii -> bool) (sep : Ascii.ascii) (in_run : bool) (s : string) : string :=
  match s with
  | EmptyString => EmptyString
  | String c s' =>
      if keep c then String c (collapse keep sep false s')
      else if in_run then collapse keep sep true s'
      else String sep (collapse keep sep true s')
  end.

(** [re.sub("[class]", "", s)]. *)
Fixpoint remove_chars (drop : Ascii.ascii -> bool) (s : string) : string :=
  match s with
  | EmptyString => EmptyString
  | String c s' => if drop c then remove_chars drop s' else String c (remove_chars drop s')
  end.

Definition is_lower (c : Ascii.ascii) : bool :=
  let n := Ascii.nat_of_ascii c in (97 <=? n)%nat && (n <=? 122)%nat.
Definition is_upper (c : Ascii.ascii) : bool :=
  let n := Ascii.nat_of_ascii c in (65 <=? n)%nat && (n <=? 90)%nat.

(** The character of a code, and a string of one character. *)
Definition chr (n : nat) : Ascii.ascii := Ascii.ascii_of_nat n.
Definition str1 (c : Ascii.ascii) : string := String c EmptyString.

(** Every character of a string satisfies a predicate. *)
Fixpoint every (p : Ascii.ascii -> bool) (s : string) : bool :=
  match s with
  | EmptyString => true
  | String c s' => p c && every p s'
  end.

(** * Lemmas *)

Lemma every_app p s t : every p (s +:+ t) = every p s && every p t.
Proof. induction s as [|c s IH]; simpl; [done|]. by rewrite IH, andb_assoc. Qed.

Lemma every_impl (p q : Ascii.ascii -> bool) s :
  (forall c, p c = true -> q c = true) -> every p s = true -> every q s = true.
Proof.
  intros Hpq. induction s as [|c s IH]; simpl; [done|].
  rewrite !andb_true_iff. intros [H1 H2]. auto.
Qed.

Lemma startswith_nil s : startswith s EmptyString = true.
Proof. by destruct s. Qed.


Lemma startswith_app s t : startswith (s +:+ t) s = true.
Proof.
  induction s as [|c s IH]; [apply startswith_nil|].
  change (bool_decide (c = c) && startswith (s +:+ t) s = true).
  by rewrite IH, bool_decide_eq_true_2.
Qed.

Lemma startswith_split s pre : startswith s pre = true -> s = pre +:+ str_drop (String.length pre) s.
Proof.
  revert s. induction pre as [|c pre IH]; intros [|d s]; cbn; try done.
  destruct (bool_decide (c = d)) eqn:E; [|done]. apply bool_decide_eq_true in E as ->.
  intros H. exact (f_equal (String d) (IH s H)).
Qed.

Lemma str_take_length n s : (String.length (str_take n s) <= n)%nat.
Proof.
  revert s. induction n as [|n IH]; intros [|c s]; simpl; try lia. specialize (IH s). lia.
Qed.

Lemma str_take_all n s : (String.length s <= n)%nat -> str_take n s = s.
Proof.
  revert n. induction s as [|c s IH]; intros [|n]; simpl; intros Hn; try done; try lia.
  f_equal. apply IH. lia.
Qed.

(** ** Character-wise maps *)

(** The concatenation of the images of the characters. *)
Fixpoint flat (f : Ascii.ascii -> string) (s : string) : string :=
  match s with
  | EmptyString => EmptyString
  | String c s' => f c +:+ flat f s'
  end.

Lemma append_assoc s t u : (s +:+ t) +:+ u = s +:+ (t +:+ u).
Proof. induction s as [|c s IH]; [done|]. exact (f_equal (String c) IH). Qed.

Lemma append_nil s : s +:+ "" = s.
Proof. induction s as [|c s IH]; [done|]. exact (f_equal (String c) IH). Qed.

Lemma flat_app f s t : flat f (s +:+ t) = flat f s +:+ flat f t.
Proof.
  induction s as [|c s IH]; [done|].
  change (f c +:+ flat f (s +:+ t) = (f c +:+ flat f s) +:+ flat f t).
  by rewrite IH, append_assoc.
Qed.

Lemma flat_flat f g s : flat g (flat f s) = flat (fun c => flat g (f c)) s.
Proof. induction s as [|c s IH]; simpl; [done|]. by rewrite flat_app, IH. Qed.

Lemma flat_ext f g s : (forall c, f c = g c) -> flat f s = flat g s.
Proof. intros H. induction s as [|c s IH]; simpl; [done|]. by rewrite H, IH. Qed.

Definition subst (c : Ascii.ascii) (new : string) (d : Ascii.ascii) : string :=
  if bool_decide (c = d) then new else str1 d.

Lemma replace_subst c new s : replace (str1 c) new s = flat (subst c new) s.
Proof.
  unfold replace. induction s as [|d s IH]; [done|]. cbn [replace_from str1 startswith].
  rewrite startswith_nil, andb_true_r. cbn [flat]. unfold subst at 1.
  rewrite <- IH. by destruct (bool_decide (c = d)).
Qed.

Lemma replace_char c new s : replace (String c EmptyString) new s = flat (subst c new) s.
Proof. apply replace_subst. Qed.

Lemma remove_chars_flat p s : remove_chars p s = flat (fun c => if p c then "" else str1 c) s.
Proof. induction s as [|c s IH]; simpl; [done|]. rewrite IH. by destruct (p c). Qed.

Lemma every_flat p f s : (forall c, every p (f c) = true) -> every p (flat f s) = true.
Proof. intros H. induction s as [|c s IH]; simpl; [done|]. by rewrite every_app, H, IH. Qed.

(** Two-character lookahead: prove a string from its tail and its tail's tail. *)
Lemma string_ind2 (P : string -> Prop) :
  P "" -> (forall c, P (str1 c)) ->
  (forall c d s, P s -> P (String d s) -> P (String c (String d s))) -> forall s, P s.
Proof.
  intros H0 H1 H2 s. cut (P s /\ forall c, P (String c s)); [tauto|].
  induction s as [|d s [IH1 IH2]]; split; auto.
Qed.

(** ** Splitting *)

Definition char_not (sep c : Ascii.ascii) : bool := negb (bool_decide (c = sep)).

Lemma split_on_no sep s : every (char_not sep) s = true -> split_on sep s = [s].
Proof.
  induction s as [|c s IH]; simpl; [done|]. unfold char_not at 1.
  destruct (bool_decide (c = sep)); simpl; [done|]. intros H. by rewrite IH.
Qed.

Lemma split_on_cons sep s t : every (char_not sep) s = true ->
  split_on sep (s +:+ String sep t) = s :: split_on sep t.
Proof.
  induction s as [|c s IH]; intros H.
  - simpl. by rewrite bool_decide_eq_true_2.
  - simpl in H. apply andb_true_iff in H as [Hc H]. unfold char_not in Hc.
    change (split_on sep (String c (s +:+ String sep t)) = String c s :: split_on sep t).
    cbn [split_on]. rewrite IH by done. by destruct (bool_decide (c = sep)).
Qed.

Lemma split_once_app sep s t : every (char_not sep) s = true ->
  split_once sep (s +:+ String sep t) = Some (s, t).
Proof.
  induction s as [|c s IH]; intros H.
  - simpl. by rewrite bool_decide_eq_true_2.
  - simpl in H. apply andb_true_iff in H as [Hc H]. unfold char_not in Hc.
    change (split_once sep (String c (s +:+ String sep t)) = Some (String c s, t)).
    cbn [split_once]. rewrite IH by done. by destruct (bool_decide (c = sep)).
Qed.

(** ** Decimal numerals *)

Lemma pretty_N_char_is_digit x : (x < 10)%N -> is_digit (pretty_N_char x) = true.
Proof.
  intros Hx.
  assert (Hall : forallb (fun n => is_digit (pretty_N_char (N.of_nat n))) (seq 0 10) = true) by done.
  rewrite forallb_forall in Hall. rewrite <- (N2Nat.id x). apply Hall, in_seq. lia.
Qed.

Lemma pretty_N_go_digits x s : every is_digit s = true -> every is_digit (pretty_N_go x s) = true.
Proof.
  revert s. induction x as [x IH] using (well_founded_induction N.lt_wf_0). intros s Hs.
  destruct (decide (x = 0%N)) as [->|Hx]; [by rewrite pretty_N_go_0|].
  rewrite pretty_N_go_step by lia. apply IH; [apply N.div_lt; lia|].
  cbn [every]. rewrite pretty_N_char_is_digit; [done|]. apply N.mod_lt. lia.
Qed.

Lemma pretty_Z_digits z : (0 <= z)%Z -> every is_digit (pretty z) = true.
Proof.
  intros Hz. destruct z as [|p|p]; [done| |lia]. by apply (pretty_N_go_digits (Npos p) "").
Qed.
