(* ===== verification/Json.v ===== *)
(** [json.dumps] on the payloads the program hashes.

    [json.dumps(payload, sort_keys=True, separators=(",", ":"))] for payloads
    of [None], strings, lists and dictionaries, with the default
    [ensure_ascii=True] escapes, and the fact a digest needs of it: two
    payloads with the same serialisation are equal. *)
From Stdlib Require Import ZArith Lia Ascii.
From stdpp Require Import base tactics strings list.
From S2P Require Import Prelude PyStr.

Inductive json :=
| JNull
| JStr (s : string)
| JArr (l : list json)
| JObj (o : list (string * json)).

(** * Strings *)

Definition hex_digit (n : nat) : Ascii.ascii :=
  Ascii.ascii_of_nat (if (n <? 10)%nat then 48 + n else 87 + n).

Definition backslash : Ascii.ascii := "\"%char.
Definition dquote : Ascii.ascii := Ascii.ascii_of_nat 34.

(** [py_encode_basestring_ascii] on one character. *)
Definition escape_char (c : Ascii.ascii) : string :=
  let n := Ascii.nat_of_ascii c in
  let short d := String backslash (String d EmptyString) in
  if (n =? 34)%nat then short dquote
  else if (n =? 92)%nat then short backslash
  else if (n =? 8)%nat then short "b"%char
  else if (n =? 12)%nat then short "f"%char
  else if (n =? 10)%nat then short "n"%char
  else if (n =? 13)%nat then short "r"%char
  else if (n =? 9)%nat then short "t"%char
  else if (32 <=? n)%nat && (n <=? 126)%nat then String c EmptyString
  else String backslash ("u00" +:+
         String (hex_digit (n / 16)) (String (hex_digit (n mod 16)) EmptyString)).

Fixpoint escape (s : string) : string :=
  match s with
  | EmptyString => EmptyString
  | String c s' => escape_char c +:+ escape s'
  end.

Definition quote (s : string) : string := String dquote (escape s +:+ String dquote EmptyString).

(** * Documents *)

(** [",".join(parts)]. *)
Fixpoint comma_join (parts : list string) : string :=
  match parts with
  | [] => EmptyString
  | [p] => p
  | p :: parts' => p +:+ "," +:+ comma_join parts'
  end.

Fixpoint dumps (j : json) : string :=
  match j with
  | JNull => "null"
  | JStr s => quote s
  | JArr l => "[" +:+ comma_join (map dumps l) +:+ "]"
  | JObj o => "{" +:+ comma_join (map (fun kv => quote kv.1 +:+ ":" +:+ dumps kv.2) o) +:+ "}"
  end.

(** [sort_keys=True]: the items of a [dict] by key. *)
Definition sorted_obj (o : list (string * json)) : json :=
  JObj (py_sorted (fun a b => str_leb a.1 b.1) o).

Definition JStrs (l : list string) : json := JArr (map JStr l).

(** * Unique decodability *)

Lemma append_cons c s t : String c s +:+ t = String c (s +:+ t).
Proof. reflexivity. Qed.

(** No escape starts like the closing quote, or like another escape. *)
Definition chars : list Ascii.ascii := map Ascii.ascii_of_nat (seq 0 256).

Lemma chars_all c : c ∈ chars.
Proof.
  apply list_elem_of_In, in_map_iff. exists (Ascii.nat_of_ascii c).
  split; [apply Ascii.ascii_nat_embedding|]. apply in_seq.
  pose proof (Ascii.nat_ascii_bounded c). lia.
Qed.

Lemma forall_chars (P : Ascii.ascii -> bool) : forallb P chars = true -> forall c, P c = true.
Proof. rewrite forallb_forall. intros H c. apply H, list_elem_of_In, chars_all. Qed.

Lemma escape_prefix_free c d : startswith (escape_char c) (escape_char d) = true -> c = d.
Proof.
  assert (H : forallb (fun c => forallb (fun d =>
      negb (startswith (escape_char c) (escape_char d)) || Ascii.eqb c d) chars) chars = true)
    by (vm_compute; reflexivity).
  pose proof (forall_chars _ (forall_chars _ H c) d) as Hcd. cbv beta in Hcd.
  intros Hs. rewrite Hs in Hcd. by apply Ascii.eqb_eq.
Qed.

Lemma escape_not_quote c : startswith (escape_char c) (String dquote EmptyString) = false.
Proof.
  apply negb_true_iff. revert c. apply forall_chars. vm_compute. reflexivity.
Qed.

Lemma escape_nonempty c : escape_char c <> EmptyString.
Proof.
  assert (H : negb (bool_decide (escape_char c = EmptyString)) = true)
    by (revert c; apply forall_chars; vm_compute; reflexivity).
  intros E. rewrite bool_decide_true in H by done. done.
Qed.

(** Two strings with a common extension: one is a prefix of the other. *)
Lemma app_prefix s t r r' : s +:+ r = t +:+ r' -> startswith s t = true \/ startswith t s = true.
Proof.
  revert t. induction s as [|c s IH]; intros [|d t]; simpl; auto.
  rewrite !append_cons. intros [= -> H]. apply IH in H.
  rewrite (bool_decide_true (d = d)) by done. exact H.
Qed.

Lemma append_inj_l s r r' : s +:+ r = s +:+ r' -> r = r'.
Proof. induction s as [|c s IH]; [done|]. rewrite !append_cons. intros [= H]. auto. Qed.

Lemma quote_closes c s r : String dquote r <> escape_char c +:+ s.
Proof.
  intros E. pose proof (escape_not_quote c) as N. destruct (escape_char c) as [|d e] eqn:Ec.
  - by apply (escape_nonempty c).
  - rewrite append_cons in E. injection E as Hd _. subst d.
    assert (startswith (String dquote e) (String dquote EmptyString) = true)
      by (destruct e; reflexivity). congruence.
Qed.

Lemma escape_decodable s t r r' :
  escape s +:+ String dquote r = escape t +:+ String dquote r' -> s = t /\ r = r'.
Proof.
  revert t. induction s as [|c s IH]; intros [|d t]; cbn [escape]; rewrite ?append_assoc.
  - intros [= H]. done.
  - intros H. by apply quote_closes in H.
  - intros H. symmetry in H. by apply quote_closes in H.
  - intros H. assert (c = d) as ->.
    { apply app_prefix in H as [H|H]; [|symmetry]; by apply escape_prefix_free. }
    apply append_inj_l in H. apply IH in H as [-> ->]. done.
Qed.

Lemma quote_decodable s t r r' : quote s +:+ r = quote t +:+ r' -> s = t /\ r = r'.
Proof.
  unfold quote. rewrite !append_cons, !append_assoc. intros [= H].
  by apply escape_decodable.
Qed.

(** A decodable serialisation: a document determines itself and what follows. *)
Definition decodable (f : json -> string) (j : json) : Prop :=
  forall j' r r', f j +:+ r = f j' +:+ r' -> j = j' /\ r = r'.

(** The first character tells the four kinds of document apart, and differs
    from a closing bracket. *)
Definition head (s : string) : option Ascii.ascii :=
  match s with EmptyString => None | String c _ => Some c end.

Lemma head_dumps j r :
  head (dumps j +:+ r) =
    Some (match j with JNull => "n" | JStr _ => dquote | JArr _ => "[" | JObj _ => "{" end)%char.
Proof. by destruct j. Qed.

Definition item_of (kv : string * json) : string := quote kv.1 +:+ ":" +:+ dumps kv.2.

(** Comma-joined parts closed by a bracket, for decodable parts which never
    start with the bracket. *)
Section Joined.
Context {A : Type} (f : A -> string) (close : Ascii.ascii).
Hypothesis close_not_comma : close <> ","%char.
Hypothesis not_close : forall a r s, f a +:+ r <> String close s.

Lemma comma_join_cons a l r :
  comma_join (map f (a :: l)) +:+ String close r =
  f a +:+ (match l with
           | [] => String close r
           | _ => String ","%char (comma_join (map f l) +:+ String close r)
           end).
Proof. destruct l; simpl; [done|]. by rewrite append_assoc, append_cons. Qed.

Lemma joined_decodable l l' r r' :
  Forall (fun a => forall b s s', f a +:+ s = f b +:+ s' -> a = b /\ s = s') l ->
  comma_join (map f l) +:+ String close r = comma_join (map f l') +:+ String close r' ->
  l = l' /\ r = r'.
Proof.
  intros Hl. revert l'. induction Hl as [|a l Ha Hl IH]; intros [|b l'].
  - simpl. intros [= H]. done.
  - rewrite comma_join_cons. simpl. intros H. symmetry in H. by apply not_close in H.
  - rewrite comma_join_cons. simpl. intros H. by apply not_close in H.
  - rewrite !comma_join_cons. intros H. apply Ha in H as [-> H].
    destruct l as [|a' l], l' as [|b' l'].
    + injection H as ->. done.
    + by injection H as ? ?.
    + by injection H as ? ?.
    + injection H as H. destruct (IH (b' :: l') H) as [E ->]. by rewrite E.
Qed.
End Joined.

Lemma dumps_not_close c j r s :
  c = "]"%char \/ c = "}"%char -> dumps j +:+ r <> String c s.
Proof.
  intros Hc E. pose proof (head_dumps j r) as H. rewrite E in H. simpl in H.
  injection H as H. destruct Hc, j; subst; discriminate.
Qed.

Lemma item_decodable kv kv' r r' :
  decodable dumps kv.2 -> item_of kv +:+ r = item_of kv' +:+ r' -> kv = kv' /\ r = r'.
Proof.
  intros Hd. destruct kv as [k v], kv' as [k' v']. unfold item_of. cbn [fst snd] in *.
  rewrite !append_assoc. intros H. apply quote_decodable in H as [-> H].
  rewrite !append_cons in H. injection H as H. apply Hd in H as [-> ->]. done.
Qed.

Lemma item_not_close kv r s : item_of kv +:+ r <> String "}"%char s.
Proof. unfold item_of, quote. rewrite !append_cons. discriminate. Qed.

Fixpoint dumps_decodable (j : json) : decodable dumps j.
Proof.
  intros j' r r' H.
  pose proof (head_dumps j r) as E. rewrite H, head_dumps in E. injection E as E.
  destruct j as [|s|l|o], j' as [|s'|l'|o']; try discriminate E; clear E.
  - apply append_inj_l in H. done.
  - apply quote_decodable in H as [-> ->]. done.
  - cbn [dumps] in H. rewrite !append_assoc, !append_cons in H. injection H as H.
    destruct (joined_decodable dumps "]"%char ltac:(done) (fun a s t => dumps_not_close _ a s t (or_introl eq_refl)) l l' r r')
      as [-> ->]; [|exact H|done].
    clear H. induction l as [|a l IH]; [constructor|].
    constructor; [exact (dumps_decodable a)|exact IH].
  - cbn [dumps] in H. rewrite !append_assoc, !append_cons in H. injection H as H.
    destruct (joined_decodable item_of "}"%char ltac:(done) item_not_close o o' r r') as [-> ->]; [|exact H|done].
    clear H. induction o as [|a o IH]; [constructor|]. constructor; [|exact IH].
    intros b s s'. apply item_decodable. exact (dumps_decodable a.2).
Qed.

(** Equal serialisations, equal documents. *)
Lemma dumps_inj j j' : dumps j = dumps j' -> j = j'.
Proof.
  intros H. apply (dumps_decodable j j' EmptyString EmptyString). by rewrite H.
Qed.

#[export] Instance dumps_Inj : Inj (=) (=) dumps.
Proof. intros j j'. apply dumps_inj. Qed.

Lemma JStrs_inj l l' : JStrs l = JStrs l' -> l = l'.
Proof.
  intros [= H]. revert l' H. induction l as [|a l IH]; intros [|b l']; try done.
  intros [= -> H]. by rewrite (IH l').
Qed.
