(* ===== verification/PyFloat.v ===== *)
(** Python [float] arithmetic: IEEE-754 binary64 with round-half-even, on the
    rationals the floats denote.

    A finite float is the rational it denotes.  [rnd] rounds a rational to 53
    significant bits, half to even, with an unbounded exponent: it agrees with
    binary64 wherever the result is neither subnormal nor overflowing, which
    the modelled code never leaves (its values are 0 or lie between 2^-100 and
    2^20).  NaN and infinities are not modelled.  Each operation is the exact
    one followed by [rnd], so it is monotone because [rnd] is ([rnd_mono]). *)
From Stdlib Require Import ZArith QArith Qround Qpower Qabs Lia Lqa Morphisms.
From stdpp Require Import base tactics.
From S2P Require Import Prelude.

Local Open Scope Q_scope.

(** * Definitions *)

Definition pow2 (e : Z) : Q := Qpower (2 # 1) e.

(** Python's [round(x)]: nearest integer, ties to even. *)
Definition rne (q : Q) : Z :=
  let d := Zpos (Qden q) in
  let f := (Qnum q / d)%Z in
  let r := (2 * (Qnum q mod d))%Z in
  if (r <? d)%Z then f
  else if (d <? r)%Z then (f + 1)%Z
  else if Z.even f then f else (f + 1)%Z.

(** [floor (log2 q)] for a positive [q]. *)
Definition mag (q : Q) : Z :=
  let a := (Z.log2 (Qnum q) - Z.log2 (Zpos (Qden q)))%Z in
  if Qle_bool (pow2 a) q then a else (a - 1)%Z.

Definition rnd_pos (q : Q) : Q :=
  let e := (mag q - 52)%Z in inject_Z (rne (q / pow2 e)) * pow2 e.

(** The binary64 value nearest to a rational. *)
Definition rnd (q : Q) : Q :=
  Qred (if (Qnum q =? 0)%Z then 0
        else if (0 <? Qnum q)%Z then rnd_pos q else - rnd_pos (- q)).

Definition of_int (z : Z) : Q := rnd (inject_Z z).
Definition fadd (x y : Q) : Q := rnd (x + y).
Definition fsub (x y : Q) : Q := rnd (x - y).
Definition fmul (x y : Q) : Q := rnd (x * y).
Definition fdiv (x y : Q) : Q := rnd (x / y).
Definition fneg (x : Q) : Q := - x.
(** [a / b] on two [int]s: the float nearest to the exact quotient. *)
Definition int_truediv (a b : Z) : Q := rnd (inject_Z a / inject_Z b).
Definition flt (x y : Q) : bool := negb (Qle_bool y x).
Definition fle (x y : Q) : bool := Qle_bool x y.

(** [int(x)]: truncation. *)
Definition int_of_float (x : Q) : Z := Z.quot (Qnum x) (Zpos (Qden x)).

(** [min(a, b)] and [max(a, b)] keep [a] unless [b] is strictly better. *)
Definition fmin (a b : Q) : Q := if flt b a then b else a.
Definition fmax (a b : Q) : Q := if flt a b then b else a.

(** [sum(xs)]: left-to-right addition from [0]. *)
Definition fsum (xs : list Q) : Q := List.fold_left fadd xs 0.

(** [round(x, n)] for [n] decimal places. *)
Definition round_nd (x : Q) (n : Z) : Q :=
  let p := inject_Z (10 ^ n) in rnd (inject_Z (rne (x * p)) / p).

(** [x ** 0.5] for [x >= 0]: the correctly rounded square root. [4^p * x] has a
    54-bit integer square root [s]; the discarded part is a sticky bit. *)
Definition fsqrt (x : Q) : Q :=
  if (Qnum x <=? 0)%Z then 0
  else
    let m := Z.div (mag x) 2 in
    let p := (53 - m)%Z in
    let y := x * pow2 (2 * p) in
    let s := Z.sqrt (Qfloor y) in
    let sticky := if Qeq_bool (inject_Z (s * s)) y then 0%Z else 1%Z in
    Qred (inject_Z (rne ((2 * s + sticky) # 4)) * pow2 (1 - p)).

(** * Rounding to an integer *)

Lemma rne_spec q :
  let k := rne q in
  (2 * k * Zpos (Qden q) - Zpos (Qden q) <= 2 * Qnum q <= 2 * k * Zpos (Qden q) + Zpos (Qden q))%Z
  /\ ((2 * Qnum q = 2 * k * Zpos (Qden q) - Zpos (Qden q))%Z -> Z.even k = true)
  /\ ((2 * Qnum q = 2 * k * Zpos (Qden q) + Zpos (Qden q))%Z -> Z.even k = true).
Proof.
  destruct q as [n d]; unfold rne; simpl.
  pose proof (Z.div_mod n (Zpos d) ltac:(lia)) as Hdm.
  pose proof (Z.mod_pos_bound n (Zpos d) ltac:(lia)) as Hb.
  set (f := (n / Zpos d)%Z) in *. set (r := (n mod Zpos d)%Z) in *.
  assert (Hev : Z.even (f + 1) = negb (Z.even f)) by (rewrite Z.even_add; destruct (Z.even f); done).
  destruct (Z.ltb_spec (2 * r) (Zpos d)) as [H|H].
  { split; [nia|split; intros; exfalso; nia]. }
  destruct (Z.ltb_spec (Zpos d) (2 * r)) as [H'|H'].
  { split; [nia|split; intros; exfalso; nia]. }
  destruct (Z.even f) eqn:E; (split; [nia|split; intros]); try done; try (exfalso; nia).
Qed.

Lemma rne_mono x y : x <= y -> (rne x <= rne y)%Z.
Proof.
  intros Hxy. pose proof (rne_spec x) as Hx. pose proof (rne_spec y) as Hy.
  cbv zeta in *. destruct x as [a b], y as [c d]. unfold Qle in Hxy. simpl in *.
  set (k := rne (a # b)) in *. set (l := rne (c # d)) in *.
  destruct Hx as ((Hx1 & Hx2) & Hx3 & _). destruct Hy as ((Hy1 & Hy2) & _ & Hy4).
  destruct (Z.le_gt_cases k l) as [|Hgt]; [done|exfalso].
  assert (Hup : (2 * a * Zpos d <= 2 * c * Zpos b)%Z) by nia.
  assert (H1 : ((2 * k - 1) * (Zpos b * Zpos d) <= 2 * a * Zpos d)%Z) by nia.
  assert (H2 : (2 * c * Zpos b <= (2 * l + 1) * (Zpos b * Zpos d))%Z) by nia.
  assert (Hp : (0 < Zpos b * Zpos d)%Z) by lia.
  assert (Hkl : (k = l + 1)%Z) by nia.
  assert (Ek : Z.even k = true). { apply Hx3. subst k. nia. }
  assert (El : Z.even l = true). { apply Hy4. nia. }
  rewrite Hkl, Z.even_add, El in Ek. discriminate.
Qed.

#[export] Instance rne_proper : Proper (Qeq ==> eq) rne.
Proof.
  intros x y H. apply Z.le_antisymm; apply rne_mono; rewrite H; apply Qle_refl.
Qed.

Lemma rne_inject z : rne (inject_Z z) = z.
Proof.
  unfold rne, inject_Z; simpl. rewrite Z.div_1_r, Z.mod_1_r. done.
Qed.

Lemma rne_bounds lo hi q : inject_Z lo <= q <= inject_Z hi -> (lo <= rne q <= hi)%Z.
Proof.
  intros [Hl Hh]. apply rne_mono in Hl. apply rne_mono in Hh.
  rewrite rne_inject in *. lia.
Qed.

(** * Powers of two and magnitudes *)

Lemma pow2_pos e : 0 < pow2 e.
Proof. unfold pow2. apply Qpower_0_lt. reflexivity. Qed.
#[export] Hint Resolve pow2_pos : quirk.

Lemma pow2_plus a b : pow2 (a + b) == pow2 a * pow2 b.
Proof. unfold pow2. apply Qpower_plus. discriminate. Qed.

Lemma pow2_1 : pow2 1 == 2.
Proof. reflexivity. Qed.

Lemma pow2_Z e : (0 <= e)%Z -> pow2 e == inject_Z (2 ^ e).
Proof. intros He. unfold pow2. rewrite Zpower_Qpower; [reflexivity|done]. Qed.

Lemma pow2_nonzero e : ~ pow2 e == 0.
Proof. pose proof (pow2_pos e). lra. Qed.
#[export] Hint Resolve pow2_nonzero : quirk.

Lemma pow2_mono a b : (a <= b)%Z -> pow2 a <= pow2 b.
Proof. intros H. apply Qpower_le_compat_l; [done|discriminate]. Qed.

Lemma pow2_div a b : pow2 a / pow2 b == pow2 (a - b).
Proof.
  replace a with ((a - b) + b)%Z at 1 by lia. rewrite pow2_plus.
  field. auto with quirk.
Qed.

Lemma Qlt_div_iff x y e : x < y -> x / pow2 e < y / pow2 e.
Proof.
  intros H. unfold Qdiv. apply Qmult_lt_compat_r; [|done].
  apply Qinv_lt_0_compat, pow2_pos.
Qed.

Lemma Qle_div_pow2 x y e : x <= y -> x / pow2 e <= y / pow2 e.
Proof.
  intros H. unfold Qdiv. apply Qmult_le_compat_r; [done|].
  apply Qlt_le_weak, Qinv_lt_0_compat, pow2_pos.
Qed.

(** [2^a <= n/d] for integers, through [Z.log2]. *)
Lemma log2_quotient n d :
  (0 < n)%Z ->
  let a := (Z.log2 n - Z.log2 (Zpos d))%Z in
  pow2 (a - 1) <= n # d /\ (n # d) < pow2 (a + 1).
Proof.
  intros Hn a.
  pose proof (Z.log2_spec n Hn) as [Hn1 Hn2].
  pose proof (Z.log2_spec (Zpos d) ltac:(lia)) as [Hd1 Hd2].
  pose proof (Z.log2_nonneg n). pose proof (Z.log2_nonneg (Zpos d)).
  assert (E : n # d == inject_Z n / inject_Z (Zpos d)) by (apply Qmake_Qdiv).
  assert (Hdp : 0 < inject_Z (Zpos d)) by (rewrite <- (Zlt_Qlt 0); lia).
  set (ln := Z.log2 n) in *. set (ld := Z.log2 (Zpos d)) in *.
  rewrite Zle_Qle, <- pow2_Z in Hn1 by lia. rewrite Zlt_Qlt, <- pow2_Z in Hn2 by lia.
  rewrite Zle_Qle, <- pow2_Z in Hd1 by lia. rewrite Zlt_Qlt, <- pow2_Z in Hd2 by lia.
  rewrite E. split.
  - apply Qle_shift_div_l; [done|].
    assert (P : pow2 ln == pow2 (a - 1) * pow2 (Z.succ ld)).
    { rewrite <- pow2_plus. unfold a. f_equiv. lia. }
    pose proof (pow2_pos (a - 1)). nra.
  - apply Qlt_shift_div_r; [done|].
    assert (P : pow2 (Z.succ ln) == pow2 (a + 1) * pow2 ld).
    { rewrite <- pow2_plus. unfold a. f_equiv. lia. }
    pose proof (pow2_pos (a + 1)). nra.
Qed.

Lemma mag_spec q : 0 < q -> pow2 (mag q) <= q /\ q < pow2 (mag q + 1).
Proof.
  destruct q as [n d]. intros Hq. assert (Hn : (0 < n)%Z) by (unfold Qlt in Hq; simpl in Hq; lia).
  pose proof (log2_quotient n d Hn) as [H1 H2]. unfold mag. cbv zeta. cbn [Qnum Qden].
  set (a := (Z.log2 n - Z.log2 (Zpos d))%Z) in *.
  destruct (Qle_bool (pow2 a) (n # d)) eqn:E.
  - apply Qle_bool_iff in E. done.
  - split; [done|].
    replace (a - 1 + 1)%Z with a by lia. apply Qnot_le_lt. intros C. apply Qle_bool_iff in C. congruence.
Qed.

(** * Rounding to 53 bits *)

Lemma rnd_pos_bounds q :
  0 < q -> pow2 (mag q) <= rnd_pos q /\ rnd_pos q <= pow2 (mag q + 1).
Proof.
  intros Hq. destruct (mag_spec q Hq) as [H1 H2]. unfold rnd_pos.
  set (m := mag q) in *. set (e := (m - 52)%Z).
  pose proof (pow2_pos e) as Hp.
  assert (L : inject_Z (2 ^ 52) <= q / pow2 e).
  { rewrite <- pow2_Z by lia. replace 52%Z with (m - e)%Z by lia. rewrite <- pow2_div.
    by apply Qle_div_pow2. }
  assert (U : q / pow2 e <= inject_Z (2 ^ 53)).
  { rewrite <- pow2_Z by lia. replace 53%Z with (m + 1 - e)%Z by lia. rewrite <- pow2_div.
    apply Qle_div_pow2. lra. }
  destruct (rne_bounds _ _ _ (conj L U)) as [L' U'].
  rewrite Zle_Qle, <- pow2_Z in L' by lia. rewrite Zle_Qle, <- pow2_Z in U' by lia.
  assert (E1 : pow2 m == pow2 52 * pow2 e) by (rewrite <- pow2_plus; f_equiv; unfold e; lia).
  assert (E2 : pow2 (m + 1) == pow2 53 * pow2 e) by (rewrite <- pow2_plus; f_equiv; unfold e; lia).
  rewrite E1, E2. split; apply Qmult_le_compat_r; try done; lra.
Qed.

Lemma rnd_pos_mono x y : 0 < x -> x <= y -> rnd_pos x <= rnd_pos y.
Proof.
  intros Hx Hxy. assert (Hy : 0 < y) by lra.
  destruct (mag_spec x Hx) as [Mx1 Mx2]. destruct (mag_spec y Hy) as [My1 My2].
  destruct (rnd_pos_bounds x Hx) as [Bx1 Bx2]. destruct (rnd_pos_bounds y Hy) as [By1 By2].
  destruct (Z.lt_trichotomy (mag x) (mag y)) as [H|[H|H]].
  - assert (pow2 (mag x + 1) <= pow2 (mag y)) by (apply pow2_mono; lia). lra.
  - unfold rnd_pos. rewrite H. apply Qmult_le_compat_r.
    + rewrite <- Zle_Qle. apply rne_mono, Qle_div_pow2, Hxy.
    + apply Qlt_le_weak, pow2_pos.
  - assert (pow2 (mag y + 1) <= pow2 (mag x)) by (apply pow2_mono; lia). lra.
Qed.

Lemma rnd_cases q :
  (q == 0 /\ rnd q == 0) \/ (0 < q /\ rnd q == rnd_pos q) \/ (q < 0 /\ rnd q == - rnd_pos (- q)).
Proof.
  unfold rnd. destruct q as [n d]; simpl.
  destruct (Z.eqb_spec n 0); [|destruct (Z.ltb_spec 0 n)].
  - left. split; [unfold Qeq; simpl; lia|]. rewrite Qred_correct. reflexivity.
  - right; left. split; [unfold Qlt; simpl; lia|]. by rewrite Qred_correct.
  - right; right. split; [unfold Qlt; simpl; lia|]. by rewrite Qred_correct.
Qed.

Lemma rnd_pos_positive q : 0 < q -> 0 < rnd_pos q.
Proof. intros H. destruct (rnd_pos_bounds q H). pose proof (pow2_pos (mag q)). lra. Qed.

Lemma rnd_mono x y : x <= y -> rnd x <= rnd y.
Proof.
  intros H.
  destruct (rnd_cases x) as [[Hx Ex]|[[Hx Ex]|[Hx Ex]]];
    destruct (rnd_cases y) as [[Hy Ey]|[[Hy Ey]|[Hy Ey]]]; rewrite Ex, Ey; try lra.
  - pose proof (rnd_pos_positive y Hy). lra.
  - by apply rnd_pos_mono.
  - pose proof (rnd_pos_positive (- x) ltac:(lra)). lra.
  - pose proof (rnd_pos_positive (- x) ltac:(lra)). pose proof (rnd_pos_positive y Hy). lra.
  - pose proof (rnd_pos_mono (- y) (- x) ltac:(lra) ltac:(lra)). lra.
Qed.
#[export] Hint Resolve rnd_mono : quirk.

#[export] Instance rnd_proper : Proper (Qeq ==> eq) rnd.
Proof.
  intros x y H. assert (E : rnd x == rnd y).
  { apply Qle_antisym; apply rnd_mono; rewrite H; apply Qle_refl. }
  unfold rnd in *. rewrite !Qred_correct in E. by apply Qred_complete.
Qed.

Lemma rnd_0 : rnd 0 = 0.
Proof. reflexivity. Qed.

(** Integers of up to 53 bits are floats. *)
Lemma rnd_small_int z : (Z.abs z <= 2 ^ 53)%Z -> rnd (inject_Z z) == inject_Z z.
Proof.
  assert (P : forall k, (0 < k <= 2 ^ 53)%Z -> rnd_pos (inject_Z k) == inject_Z k).
  { intros k Hk. unfold rnd_pos.
    assert (Hk' : 0 < inject_Z k) by (rewrite <- (Zlt_Qlt 0); lia).
    destruct (mag_spec _ Hk') as [M1 M2]. set (m := mag (inject_Z k)) in *.
    destruct (Z.le_gt_cases (m - 52) 0) as [He|He].
    - assert (E : inject_Z k / pow2 (m - 52) == inject_Z (k * 2 ^ (52 - m))).
      { rewrite inject_Z_mult, <- pow2_Z by lia.
        unfold pow2. replace (52 - m)%Z with (- (m - 52))%Z by lia.
        rewrite Qpower_opp. reflexivity. }
      rewrite E, rne_inject, <- E. field. auto with quirk.
    - assert (Hm : (53 <= m)%Z) by lia. pose proof (pow2_mono 53 m Hm) as H53.
      assert (inject_Z k <= inject_Z (2 ^ 53)) by (rewrite <- Zle_Qle; lia).
      assert (E53 : pow2 53 == inject_Z (2 ^ 53)) by (apply pow2_Z; lia).
      assert (Hk53 : inject_Z k == pow2 53) by lra.
      assert (Hm' : m = 53%Z).
      { destruct (Z.eq_dec m 53); [done|]. pose proof (pow2_mono 54 m ltac:(lia)).
        assert (pow2 54 == 2 * pow2 53) by (change 54%Z with (1 + 53)%Z; by rewrite pow2_plus, pow2_1).
        pose proof (pow2_pos 53). lra. }
      assert (Eq : inject_Z k / pow2 (53 - 52) == inject_Z (2 ^ 52)).
      { transitivity (pow2 53 / pow2 (53 - 52)); [by apply Qdiv_comp|reflexivity]. }
      rewrite Hm', Eq, rne_inject. transitivity (pow2 53); [reflexivity|by symmetry]. }
  intros Hz. destruct (rnd_cases (inject_Z z)) as [[H E]|[[H E]|[H E]]]; rewrite E.
  - by symmetry.
  - apply P. change 0 with (inject_Z 0) in H. rewrite <- Zlt_Qlt in H. lia.
  - rewrite <- inject_Z_opp in *. rewrite P; [rewrite inject_Z_opp; lra|].
    change 0 with (inject_Z 0) in H. rewrite <- Zlt_Qlt in H. lia.
Qed.

(** * Representable values are fixed points *)

Lemma mag_unique q m : 0 < q -> pow2 m <= q -> q < pow2 (m + 1) -> mag q = m.
Proof.
  intros Hq H1 H2. destruct (mag_spec q Hq) as [M1 M2].
  destruct (Z.lt_trichotomy (mag q) m) as [H|[H|H]]; [|done|]; exfalso.
  - pose proof (pow2_mono (mag q + 1) m ltac:(lia)). lra.
  - pose proof (pow2_mono (m + 1) (mag q) ltac:(lia)). lra.
Qed.

Lemma rnd_pos_scale q e : 0 < q -> rnd_pos (q * pow2 e) == rnd_pos q * pow2 e.
Proof.
  intros Hq. pose proof (pow2_pos e) as He. destruct (mag_spec q Hq) as [M1 M2].
  assert (Hm : mag (q * pow2 e) = (mag q + e)%Z).
  { apply mag_unique; [nra| |].
    - rewrite pow2_plus. nra.
    - replace (mag q + e + 1)%Z with ((mag q + 1) + e)%Z by lia. rewrite pow2_plus. nra. }
  unfold rnd_pos. rewrite Hm.
  replace (mag q + e - 52)%Z with ((mag q - 52) + e)%Z by lia.
  set (f := (mag q - 52)%Z).
  assert (E : q * pow2 e / pow2 (f + e) == q / pow2 f).
  { rewrite pow2_plus. field. auto with quirk. }
  rewrite E, pow2_plus. ring.
Qed.

Lemma rnd_scale q e : rnd (q * pow2 e) == rnd q * pow2 e.
Proof.
  pose proof (pow2_pos e) as He.
  destruct (rnd_cases q) as [[H E]|[[H E]|[H E]]]; rewrite E.
  - rewrite (rnd_proper (q * pow2 e) 0); [rewrite rnd_0; lra|]. rewrite H. lra.
  - destruct (rnd_cases (q * pow2 e)) as [[H' E']|[[H' E']|[H' E']]]; try nra.
    rewrite E'. by apply rnd_pos_scale.
  - destruct (rnd_cases (q * pow2 e)) as [[H' E']|[[H' E']|[H' E']]]; try nra.
    assert (X : rnd_pos (- (q * pow2 e)) == rnd_pos (- q * pow2 e)).
    { apply Qle_antisym; apply rnd_pos_mono; lra. }
    rewrite E', X, rnd_pos_scale by lra. ring.
Qed.

(** At most 53 significant bits. *)
Definition representable (x : Q) : Prop :=
  exists k e, (Z.abs k <= 2 ^ 53)%Z /\ x == inject_Z k * pow2 e.

Lemma rnd_representable x : representable (rnd x).
Proof.
  assert (P : forall q, 0 < q -> exists k e, (Z.abs k <= 2 ^ 53)%Z /\ rnd_pos q == inject_Z k * pow2 e).
  { intros q Hq. destruct (mag_spec q Hq) as [M1 M2].
    exists (rne (q / pow2 (mag q - 52))), (mag q - 52)%Z. split; [|reflexivity].
    assert (L : inject_Z 0 <= q / pow2 (mag q - 52)).
    { apply Qle_trans with (0 / pow2 (mag q - 52));
        [unfold Qdiv; change (inject_Z 0) with 0; lra|].
      apply Qle_div_pow2. lra. }
    assert (U : q / pow2 (mag q - 52) <= inject_Z (2 ^ 53)).
    { rewrite <- pow2_Z by lia. replace 53%Z with (mag q + 1 - (mag q - 52))%Z by lia.
      rewrite <- (pow2_div (mag q + 1)). apply Qle_div_pow2. lra. }
    pose proof (rne_bounds _ _ _ (conj L U)). lia. }
  destruct (rnd_cases x) as [[H E]|[[H E]|[H E]]].
  - exists 0%Z, 0%Z. split; [lia|]. rewrite E. reflexivity.
  - destruct (P x H) as (k & e & Hk & Ek). exists k, e. split; [done|]. by rewrite E.
  - destruct (P (- x) ltac:(lra)) as (k & e & Hk & Ek). exists (- k)%Z, e. split; [lia|].
    rewrite E, Ek, inject_Z_opp. ring.
Qed.

Lemma representable_fixed x : representable x -> rnd x == x.
Proof.
  intros (k & e & Hk & E). rewrite (rnd_proper _ _ E), rnd_scale, rnd_small_int by done. by symmetry.
Qed.

Lemma rnd_idem x : rnd (rnd x) == rnd x.
Proof. apply representable_fixed, rnd_representable. Qed.

Lemma representable_int z : (Z.abs z <= 2 ^ 53)%Z -> representable (inject_Z z).
Proof. intros H. exists z, 0%Z. split; [done|]. change (pow2 0) with 1. ring. Qed.

Lemma fold_fadd_representable xs a : representable a -> representable (List.fold_left fadd xs a).
Proof.
  revert a. induction xs as [|x xs IH]; intros a Ha; simpl; [done|].
  apply IH, rnd_representable.
Qed.

(** Adding a non-positive term to a float does not raise it. *)
Lemma fadd_nonpos a b c : representable c -> a <= c -> b <= 0 -> fadd a b <= c.
Proof.
  intros Hc Ha Hb. rewrite <- (representable_fixed c Hc). apply rnd_mono. lra.
Qed.

Lemma fadd_nonneg a b c : representable c -> c <= a -> 0 <= b -> c <= fadd a b.
Proof.
  intros Hc Ha Hb. rewrite <- (representable_fixed c Hc). apply rnd_mono. lra.
Qed.

(** * Monotonicity of the operations *)

Lemma fadd_mono a b c d : a <= c -> b <= d -> fadd a b <= fadd c d.
Proof. intros. apply rnd_mono. lra. Qed.

Lemma fneg_mono x y : x <= y -> fneg y <= fneg x.
Proof. unfold fneg. lra. Qed.

Lemma fmul_mono_l x y w : 0 <= w -> x <= y -> fmul x w <= fmul y w.
Proof. intros Hw H. apply rnd_mono. nra. Qed.

Lemma fmul_mono_r c x y : 0 <= c -> x <= y -> fmul c x <= fmul c y.
Proof. intros Hw H. apply rnd_mono. nra. Qed.

Lemma fdiv_mono_l x y d : 0 < d -> x <= y -> fdiv x d <= fdiv y d.
Proof.
  intros Hd H. apply rnd_mono. unfold Qdiv. apply Qmult_le_compat_r; [done|].
  by apply Qlt_le_weak, Qinv_lt_0_compat.
Qed.

Lemma fmul_nonneg x y : 0 <= x -> 0 <= y -> 0 <= fmul x y.
Proof.
  intros Hx Hy. unfold fmul. rewrite <- rnd_0 at 1. apply rnd_mono. nra.
Qed.

Lemma fmul_nonpos x y : x <= 0 -> 0 <= y -> fmul x y <= 0.
Proof.
  intros Hx Hy. unfold fmul. rewrite <- rnd_0. apply rnd_mono. nra.
Qed.

Lemma fold_fadd_mono xs ys a b :
  a <= b -> Forall2 Qle xs ys -> List.fold_left fadd xs a <= List.fold_left fadd ys b.
Proof.
  intros Hab H. revert a b Hab.
  induction H as [|x y xs ys Hxy _ IH]; intros a b Hab; simpl; [done|].
  apply IH. by apply fadd_mono.
Qed.

Lemma fsum_mono xs ys : Forall2 Qle xs ys -> fsum xs <= fsum ys.
Proof. apply fold_fadd_mono. lra. Qed.

Lemma fmin_spec a b : fmin a b <= a /\ fmin a b <= b /\ (fmin a b = a \/ fmin a b = b).
Proof.
  unfold fmin, flt. destruct (Qle_bool a b) eqn:E; simpl.
  - apply Qle_bool_iff in E. split; [lra|auto].
  - assert (~ a <= b) by (rewrite <- Qle_bool_iff, E; discriminate).
    split; [lra|split; [lra|auto]].
Qed.

Lemma fmax_spec a b : a <= fmax a b /\ b <= fmax a b /\ (fmax a b = a \/ fmax a b = b).
Proof.
  unfold fmax, flt. destruct (Qle_bool b a) eqn:E; simpl.
  - apply Qle_bool_iff in E. split; [lra|auto].
  - assert (~ b <= a) by (rewrite <- Qle_bool_iff, E; discriminate).
    split; [lra|split; [lra|auto]].
Qed.

Lemma fmin_mono a b c d : a <= c -> b <= d -> fmin a b <= fmin c d.
Proof.
  intros. destruct (fmin_spec a b) as (?&?&_). destruct (fmin_spec c d) as (_&_&[->| ->]); lra.
Qed.

Lemma fmax_mono a b c d : a <= c -> b <= d -> fmax a b <= fmax c d.
Proof.
  intros. destruct (fmax_spec c d) as (?&?&_). destruct (fmax_spec a b) as (_&_&[->| ->]); lra.
Qed.

#[export] Hint Resolve fadd_mono fneg_mono fmul_mono_l fdiv_mono_l fsum_mono fmin_mono fmax_mono : quirk.

(** * Comparisons as propositions *)

Lemma fle_iff x y : fle x y = true <-> x <= y.
Proof. apply Qle_bool_iff. Qed.

Lemma flt_iff x y : flt x y = true <-> x < y.
Proof.
  unfold flt. rewrite negb_true_iff, <- not_true_iff_false, Qle_bool_iff.
  split; [apply Qnot_le_lt|apply Qlt_not_le].
Qed.

Lemma flt_fle x y : flt x y = negb (fle y x).
Proof. done. Qed.


(** * Exact arithmetic on a grid *)

Definition on_grid (e : Z) (x : Q) : Prop := exists z, (x == inject_Z z * pow2 e).

Lemma rnd_on_grid e x :
  on_grid e x -> (- (inject_Z (2 ^ 53) * pow2 e) <= x <= inject_Z (2 ^ 53) * pow2 e) -> (rnd x == x).
Proof.
  intros [z Hz] [H1 H2]. apply representable_fixed. exists z, e. split; [|done].
  pose proof (pow2_pos e) as He. rewrite Hz in H1, H2. apply Z.abs_le. split.
  - rewrite Zle_Qle, inject_Z_opp. nra.
  - rewrite Zle_Qle. nra.
Qed.

Lemma on_grid_sub e x y : on_grid e x -> on_grid e y -> on_grid e (x - y).
Proof.
  intros [a Ha] [b Hb]. exists (a - b)%Z. rewrite Ha, Hb. unfold Zminus.
  rewrite inject_Z_plus, inject_Z_opp. ring.
Qed.

Lemma on_grid_ext e x y : (x == y) -> on_grid e x -> on_grid e y.
Proof. intros E [z Hz]. exists z. by rewrite <- E. Qed.

Lemma on_grid_finer e e' x : (e' <= e)%Z -> on_grid e x -> on_grid e' x.
Proof.
  intros He [z Hz]. exists (z * 2 ^ (e - e'))%Z. rewrite Hz, inject_Z_mult, <- pow2_Z by lia.
  rewrite <- Qmult_assoc, <- pow2_plus. by replace (e - e' + e')%Z with e by lia.
Qed.


(** * Relative error *)

Lemma rnd_pos_error q : 0 < q -> q - pow2 (mag q - 53) <= rnd_pos q.
Proof.
  intros Hq. unfold rnd_pos. set (e := (mag q - 52)%Z). pose proof (pow2_pos e) as He.
  assert (H : q / pow2 e - (1 # 2) <= inject_Z (rne (q / pow2 e))).
  { destruct (rne_spec (q / pow2 e)) as [[_ H] _]. destruct (q / pow2 e) as [n d]. simpl in *.
    unfold Qle, Qminus, Qplus, Qopp. simpl. nia. }
  assert (E : pow2 (mag q - 53) == (1 # 2) * pow2 e).
  { replace (mag q - 53)%Z with (-1 + e)%Z by (unfold e; lia). rewrite pow2_plus. reflexivity. }
  assert (Eq : q == q / pow2 e * pow2 e) by (field; auto with quirk).
  rewrite E. rewrite Eq at 1. nra.
Qed.

Lemma rnd_relative x : 0 <= x -> x * (1 - (1 # 9007199254740992)) <= rnd x.
Proof.
  intros Hx. destruct (rnd_cases x) as [[H E]|[[H E]|[H E]]]; [rewrite E, H; lra| |lra].
  rewrite E. pose proof (rnd_pos_error x H) as He. destruct (mag_spec x H) as [M _].
  assert (Ep : pow2 (mag x - 53) == pow2 (mag x) * (1 # 9007199254740992)).
  { unfold Z.sub. rewrite pow2_plus. reflexivity. }
  rewrite Ep in He. nra.
Qed.

(** A value within an eighth of the last place below a float rounds up to it. *)
Lemma rnd_reaches n x : representable n -> 0 < n -> n * (1 - (1 # 36028797018963968)) <= x -> n <= rnd x.
Proof.
  intros (k & e' & Hk & En) Hn Hx. apply rnd_mono in Hx. eapply Qle_trans; [|exact Hx]. clear Hx x.
  set (y := n * (1 - (1 # 36028797018963968))). assert (Hy : 0 < y) by (unfold y; nra).
  destruct (rnd_cases y) as [[H _]|[[_ E]|[H _]]]; [lra| |lra]. rewrite E.
  destruct (mag_spec y Hy) as [M1 M2]. pose proof (rnd_pos_error y Hy) as Herr.
  set (e := (mag y - 52)%Z). pose proof (pow2_pos e) as He.
  assert (Em : pow2 (mag y) == inject_Z (2 ^ 52) * pow2 e).
  { rewrite <- pow2_Z by lia. rewrite <- pow2_plus. unfold e. f_equiv. lia. }
  assert (Em1 : pow2 (mag y + 1) == inject_Z (2 ^ 53) * pow2 e).
  { rewrite <- pow2_Z by lia. rewrite <- pow2_plus. unfold e. f_equiv. lia. }
  assert (Em53 : pow2 (mag y - 53) == (1 # 2) * pow2 e).
  { replace (mag y - 53)%Z with (-1 + e)%Z by (unfold e; lia). rewrite pow2_plus. reflexivity. }
  assert (Hyn : y < n) by (unfold y; nra).
  assert (Hgrid : on_grid e n).
  { destruct (Z.le_gt_cases e e') as [Hle|Hgt]; [apply (on_grid_finer e'); [done|by exists k]|].
    exfalso. assert (Hp : pow2 e' <= (1 # 2) * pow2 e).
    { rewrite <- Em53. apply pow2_mono. unfold e in Hgt. lia. }
    assert (Hk' : inject_Z k <= inject_Z (2 ^ 53)) by (rewrite <- Zle_Qle; lia).
    pose proof (pow2_pos e').
    assert (inject_Z k * pow2 e' <= inject_Z (2 ^ 53) * pow2 e') by (apply Qmult_le_compat_r; lra).
    assert (pow2 e' * inject_Z (2 ^ 53) <= (1 # 2) * pow2 e * inject_Z (2 ^ 53)) by (by apply Qmult_le_compat_r).
    assert (Ehalf : (1 # 2) * inject_Z (2 ^ 53) == inject_Z (2 ^ 52)) by reflexivity.
    assert ((1 # 2) * pow2 e * inject_Z (2 ^ 53) == inject_Z (2 ^ 52) * pow2 e) by (rewrite <- Ehalf; ring).
    lra. }
  destruct Hgrid as [N HN]. unfold rnd_pos in *. fold e in Herr |- *. rewrite Em53 in Herr.
  set (R := rne (y / pow2 e)) in *. rewrite HN. apply Qmult_le_compat_r; [|lra]. rewrite <- Zle_Qle.
  apply Z.le_ngt. intros Hlt. assert (HR : (inject_Z R <= inject_Z N - 1)%Q).
  { change 1 with (inject_Z 1). unfold Qminus. rewrite <- inject_Z_opp, <- inject_Z_plus, <- Zle_Qle. lia. }
  assert (HRe : inject_Z R * pow2 e <= (inject_Z N - 1) * pow2 e) by (apply Qmult_le_compat_r; lra).
  assert (HRn : inject_Z R * pow2 e <= n - pow2 e) by (rewrite HN; lra).
  assert (H2 : n * (1 # 36028797018963968) < (1 # 2) * pow2 e).
  { rewrite Em1 in M2. unfold y in M2. assert (E53 : inject_Z (2 ^ 53) == 9007199254740992) by reflexivity.
    rewrite E53 in M2. lra. }
  unfold y in Herr. lra.
Qed.
