(* ===== verification/PyVal.v ===== *)
(** Dynamic Python values and dictionaries.

    The intelligence layer passes evidence as nested [dict]s and reads them
    with [.get], [isinstance(..., Mapping)] and tolerant coercions.  A [pyval]
    is such a value; a [dict] is the list of its items in insertion order. *)
From Stdlib Require Import ZArith QArith Lia Ascii.
From stdpp Require Import base tactics strings list pretty.
From S2P Require Import Prelude PyFloat.

Local Open Scope Z_scope.

#[warnings="-register-all"]
Inductive pyval :=
| VNone
| VBool (b : bool)
| VInt (z : Z)
| VFloat (q : Q)
| VStr (s : string)
| VList (l : list pyval)
| VDict (d : list (string * pyval)).

Definition pydict := list (string * pyval).

(** [d.get(k)] as an option, [d.get(k, dflt)], and the entry [d.get(k, {})]
    when it is a [Mapping] (else the empty mapping). *)
Fixpoint alookup {V} (k : string) (d : list (string * V)) : option V :=
  match d with
  | [] => None
  | (k', v) :: d' => if str_eqb k' k then Some v else alookup k d'
  end.

Definition dict_get (d : pydict) (k : string) : option pyval := alookup k d.
Definition get_or (d : pydict) (k : string) (dflt : pyval) : pyval := default dflt (dict_get d k).
Definition sub_mapping (d : pydict) (k : string) : pydict :=
  match dict_get d k with Some (VDict m) => m | _ => [] end.

(** [d[k] = v] on a dict: overwrite in place, else append. *)
Fixpoint aset {V} (k : string) (v : V) (d : list (string * V)) : list (string * V) :=
  match d with
  | [] => [(k, v)]
  | (k', v') :: d' => if str_eqb k' k then (k', v) :: d' else (k', v') :: aset k v d'
  end.

Definition dict_set (d : pydict) (k : string) (v : pyval) : pydict := aset k v d.

(** ** Numbers read from strings: [int(s)] and [float(s)] *)

Definition digit_val (c : Ascii.ascii) : Z := Z.of_nat (Ascii.nat_of_ascii c) - 48.

(** Digits with single underscores between them; [prev] says the previous
    character was a digit. Returns the value and the number of digits. *)
Fixpoint digits (s : string) (acc n : Z) (prev : bool) : option (Z * Z) :=
  match s with
  | EmptyString => if prev then Some (acc, n) else None
  | String c s' =>
      if is_digit c then digits s' (10 * acc + digit_val c) (n + 1) true
      else if bool_decide (c = "_"%char) && prev then digits s' acc n false
      else None
  end.

Definition split_sign (s : string) : Z * string :=
  match s with
  | String "-"%char s' => (-1, s')
  | String "+"%char s' => (1, s')
  | _ => (1, s)
  end.

(** [int(s)], [None] when it raises [ValueError]: not a literal, or more digits
    than the interpreter's limit for decimal conversions. *)
Definition INT_MAX_STR_DIGITS : Z := 4300.

Definition int_of_str (s : string) : option Z :=
  let '(sg, body) := split_sign (strip s) in
  match digits body 0 0 false with
  | Some (v, n) => if n <=? INT_MAX_STR_DIGITS then Some (sg * v) else None
  | None => None
  end.

(** Split at the first character satisfying [p]. *)
Fixpoint break_at (p : Ascii.ascii -> bool) (s : string) : string * option string :=
  match s with
  | EmptyString => (EmptyString, None)
  | String c s' => if p c then (EmptyString, Some s')
                   else let '(a, b) := break_at p s' in (String c a, b)
  end.

Definition digits_or_zero (s : string) : option (Z * Z) :=
  match s with EmptyString => Some (0, 0) | _ => digits s 0 0 false end.

Definition pow10 (e : Z) : Q := Qpower (10 # 1) e.

(** Decimal literals [d.d], with an optional exponent ([inf] and [nan] are not modelled). *)
Definition float_of_str (s : string) : option Q :=
  let '(sg, body) := split_sign (strip s) in
  let '(mant, ex) := break_at (fun c => bool_decide (c = "e"%char) || bool_decide (c = "E"%char)) body in
  let '(ip, fp) := break_at (fun c => bool_decide (c = "."%char)) mant in
  let frac := default EmptyString fp in
  match digits_or_zero ip, digits_or_zero frac,
        match ex with None => Some 0 | Some e => int_of_str e end with
  | Some (i, ni), Some (f, nf), Some e =>
      if ni + nf =? 0 then None
      else Some (rnd (inject_Z sg * (inject_Z i + inject_Z f * pow10 (- nf)) * pow10 e))
  | _, _, _ => None
  end.

(** ** Truth values and [str()] used by the report code *)

Definition truthy (v : pyval) : bool :=
  match v with
  | VNone => false
  | VBool b => b
  | VInt z => negb (z =? 0)
  | VFloat q => negb (Qeq_bool q 0)
  | VStr EmptyString => false
  | VStr _ => true
  | VList l => match l with [] => false | _ => true end
  | VDict d => match d with [] => false | _ => true end
  end.

(** ** Lookup lemmas *)

Lemma str_eqb_refl s : str_eqb s s = true.
Proof. by apply bool_decide_eq_true. Qed.

Lemma str_eqb_eq s t : str_eqb s t = true <-> s = t.
Proof. apply bool_decide_eq_true. Qed.

Lemma str_eqb_neq s t : str_eqb s t = false <-> s <> t.
Proof. apply bool_decide_eq_false. Qed.

(** Decide the comparisons of string literals in the goal. *)
Ltac decide_literals :=
  repeat match goal with
  | |- context [str_eqb ?a ?b] =>
      match a with String _ _ => idtac end; match b with String _ _ => idtac end;
      let v := eval vm_compute in (str_eqb a b) in
      let H := fresh in
      assert (H : str_eqb a b = v) by (vm_compute; reflexivity); rewrite H; clear H
  end.

Lemma alookup_aset_eq {V} k (v : V) d : alookup k (aset k v d) = Some v.
Proof.
  induction d as [|[k' v'] d IH]; simpl; [by rewrite str_eqb_refl|].
  destruct (str_eqb k' k) eqn:E; simpl; by rewrite E.
Qed.

Lemma alookup_aset_ne {V} k k' (v : V) d : k <> k' -> alookup k' (aset k v d) = alookup k' d.
Proof.
  intros Hne. induction d as [|[k1 v1] d IH]; simpl.
  - destruct (str_eqb k k') eqn:E; [by apply str_eqb_eq in E|done].
  - destruct (str_eqb k1 k) eqn:E1; simpl; destruct (str_eqb k1 k') eqn:E2; try done.
    apply str_eqb_eq in E1, E2. congruence.
Qed.

Lemma alookup_aset {V} k k' (v : V) d :
  alookup k' (aset k v d) = if decide (k = k') then Some v else alookup k' d.
Proof. case_decide; subst; [apply alookup_aset_eq|by apply alookup_aset_ne]. Qed.

Lemma alookup_elem {V} k (v : V) d : alookup k d = Some v -> (k, v) ∈ d.
Proof.
  induction d as [|[k' v'] d IH]; simpl; [done|].
  destruct (str_eqb k' k) eqn:E.
  - apply str_eqb_eq in E. intros [= ->]. subst. constructor.
  - intros H. apply list_elem_of_further. auto.
Qed.

Lemma alookup_in {V} k (d : list (string * V)) : is_Some (alookup k d) <-> k ∈ d.*1.
Proof.
  induction d as [|[k' v] d IH]; simpl.
  - split; [by intros []|intros H; by apply not_elem_of_nil in H].
  - rewrite elem_of_cons. destruct (str_eqb k' k) eqn:E.
    + apply str_eqb_eq in E. subst. split; [auto|eauto].
    + apply str_eqb_neq in E. rewrite IH. split; [auto|intros [->|]; done].
Qed.

Lemma alookup_fst {V} k (d : list (string * V)) v : alookup k d = Some v -> k ∈ map fst d.
Proof. intros H%alookup_elem. apply list_elem_of_fmap. by exists (k, v). Qed.

Lemma alookup_nodup {V} k (v : V) d : NoDup (d.*1) -> (k, v) ∈ d -> alookup k d = Some v.
Proof.
  induction d as [|[k' v'] d IH]; simpl; intros Hd Hin; [by apply elem_of_nil in Hin|].
  apply NoDup_cons in Hd as [Hk Hd]. apply elem_of_cons in Hin as [[= -> ->]|Hin].
  - by rewrite str_eqb_refl.
  - destruct (str_eqb k' k) eqn:E; [|auto]. apply str_eqb_eq in E as ->.
    destruct Hk. apply list_elem_of_fmap. by exists (k, v).
Qed.

(** Looking a key up in a mapped table. *)
Lemma alookup_map {V W} (g : V -> W) k (d : list (string * V)) :
  alookup k (map (fun kv => (kv.1, g kv.2)) d) = option_map g (alookup k d).
Proof. induction d as [|[k' v] d IH]; simpl; [done|]. by destruct (str_eqb k' k). Qed.

Lemma aset_keys {V} k (v : V) d : is_Some (alookup k d) -> (aset k v d).*1 = d.*1.
Proof.
  induction d as [|[k' v'] d IH]; simpl; [by intros []|].
  destruct (str_eqb k' k); simpl; [done|]. intros H. f_equal. by apply IH.
Qed.

Lemma aset_fst {V} k (v w : V) d e : map fst d = map fst e -> map fst (aset k v d) = map fst (aset k w e).
Proof.
  revert e. induction d as [|[k1 v1] d IH]; intros [|[k2 v2] e]; simpl; try done.
  intros [= -> H]. destruct (str_eqb k2 k); simpl; f_equal; auto.
Qed.

Lemma aset_keys_nodup {V} k (v : V) d : NoDup (d.*1) -> NoDup ((aset k v d).*1).
Proof.
  induction d as [|[k' v'] d IH]; simpl; intros Hd; [apply NoDup_singleton|].
  apply NoDup_cons in Hd as [Hk Hd]. destruct (str_eqb k' k) eqn:E; simpl.
  - by constructor.
  - constructor; [|by apply IH]. intros Hin. apply Hk. clear IH Hd Hk.
    induction d as [|[k1 v1] d IHd]; simpl in *.
    + apply list_elem_of_singleton in Hin as ->. by rewrite str_eqb_refl in E.
    + destruct (str_eqb k1 k) eqn:E1; simpl in *; [done|].
      apply elem_of_cons in Hin as [->|Hin]; [left|right; auto].
Qed.

(** Two dictionaries with the same keys in the same order and related values. *)
Definition dict_rel {V W} (R : V -> W -> Prop) : list (string * V) -> list (string * W) -> Prop :=
  Forall2 (fun x y => x.1 = y.1 /\ R x.2 y.2).

Lemma dict_rel_keys {V W} (R : V -> W -> Prop) d e : dict_rel R d e -> d.*1 = e.*1.
Proof. induction 1 as [|x y d e [Hk _] _ IH]; csimpl; [done|]. by rewrite Hk, IH. Qed.

Lemma dict_rel_aset {V W} (R : V -> W -> Prop) k v w d e :
  dict_rel R d e -> R v w -> dict_rel R (aset k v d) (aset k w e).
Proof.
  intros H Hvw. induction H as [|[k1 v1] [k2 v2] d e [Hk Hr] H IH]; simpl in *; [by repeat constructor|].
  subst k2. destruct (str_eqb k1 k); by constructor.
Qed.

Lemma dict_rel_lookup {V W} (R : V -> W -> Prop) k d e :
  dict_rel R d e -> option_relation R (fun _ => False) (fun _ => False) (alookup k d) (alookup k e).
Proof.
  induction 1 as [|[k1 v1] [k2 v2] d e [Hk Hr] H IH]; simpl in *; [done|].
  subst k2. by destruct (str_eqb k1 k).
Qed.

(** ** Coercions

    [_as_int] and [_as_float] of scoring.py, confidence.py and roadmap.py:
    the conversion, or zero when Python raises. *)

Definition as_int (v : pyval) : Z :=
  match v with
  | VInt z => z
  | VBool b => Z.b2z b
  | VFloat q => int_of_float q
  | VStr s => default 0 (int_of_str s)
  | _ => 0
  end.

(** [float(v)], or [None] when it raises. *)
Definition to_float (v : pyval) : option Q :=
  match v with
  | VInt z => Some (of_int z)
  | VBool b => Some (inject_Z (Z.b2z b))
  | VFloat q => Some q
  | VStr s => float_of_str s
  | _ => None
  end.

Definition as_float (v : pyval) : Q := default 0%Q (to_float v).

(** [int(v)], [None] when it raises [TypeError] or [ValueError]. *)
Definition int_or_none (v : pyval) : option Z :=
  match v with
  | VInt z => Some z
  | VBool b => Some (Z.b2z b)
  | VFloat q => Some (int_of_float q)
  | VStr s => int_of_str s
  | _ => None
  end.

(** [max(0, _as_int(d.get(k, 0)))], the way every counter is read. *)
Definition count_of (d : pydict) (k : string) : Z := Z.max 0 (as_int (get_or d k (VInt 0))).

Lemma count_of_nonneg d k : 0 <= count_of d k.
Proof. unfold count_of. lia. Qed.
#[export] Hint Resolve count_of_nonneg : quirk.
