(* ===== verification/Bands.v ===== *)
(** Readiness bands: [src/quirk/severity_bands.py].

    The band tables, the numeric band of a score, the cap an open CRITICAL
    finding puts on a band, and the sentence that discloses the cap. Bands are
    strings, as in the code, so the [ValueError] of an unknown band is modelled. *)
From Stdlib Require Import ZArith Lia.
From stdpp Require Import base tactics sets strings list pretty.
From S2P Require Import Prelude PyVal.

Local Open Scope Z_scope.

Definition BAND_ORDER : list string := ["EXCELLENT"; "GOOD"; "MODERATE"; "FAIR"; "POOR"].

Definition BAND_THRESHOLDS : list (string * Z) :=
  [("EXCELLENT", 85); ("GOOD", 70); ("MODERATE", 55); ("FAIR", 35)].

(** [None]: the band may coexist with any number of CRITICAL findings. *)
Definition BAND_CRITICAL_ALLOWANCE : list (string * option Z) :=
  [("EXCELLENT", Some 0); ("GOOD", Some 0); ("MODERATE", Some 0); ("FAIR", None); ("POOR", None)].

Definition threshold (band : string) : Z := default 0 (alookup band BAND_THRESHOLDS).

Definition band_for_score (score : Z) : string :=
  if threshold "EXCELLENT" <=? score then "EXCELLENT"
  else if threshold "GOOD" <=? score then "GOOD"
  else if threshold "MODERATE" <=? score then "MODERATE"
  else if threshold "FAIR" <=? score then "FAIR"
  else "POOR".

(** [BAND_CRITICAL_ALLOWANCE.get(band)]; a missing band reads as [None]. *)
Definition allowance (band : string) : option Z :=
  match alookup band BAND_CRITICAL_ALLOWANCE with Some a => a | None => None end.

Definition admits (band : string) (critical_count : Z) : bool :=
  match allowance band with None => true | Some a => critical_count <=? a end.

(** [BAND_ORDER.index(band)]. *)
Fixpoint index_of (x : string) (l : list string) : option nat :=
  match l with
  | [] => None
  | y :: l' => if str_eqb x y then Some 0%nat else S <$> index_of x l'
  end.

(** The loop of [cap_band_for_severity]: first admitting band, else the last. *)
Fixpoint first_admitting (bands : list string) (critical_count : Z) : string :=
  match bands with
  | [] => default EmptyString (last BAND_ORDER)
  | b :: bs => if admits b critical_count then b else first_admitting bs critical_count
  end.

Definition cap_band_for_severity (numeric_band : string) (critical_count : Z) : pyres string :=
  match index_of numeric_band BAND_ORDER with
  | None => Raise (ValueError ("numeric_band " +:+ numeric_band +:+ " not in BAND_ORDER"))
  | Some idx =>
      if critical_count <=? 0 then Ok numeric_band
      else Ok (first_admitting (drop idx BAND_ORDER) critical_count)
  end.

Definition cap_reason (numeric_band capped_band : string) (critical_count score : Z) : option string :=
  if str_eqb capped_band numeric_band then None
  else Some ("Band capped at " +:+ capped_band +:+ ": " +:+ pretty critical_count +:+
             " CRITICAL finding(s) open (score " +:+ pretty score +:+ "/100).").

(** The position of a band in [BAND_ORDER], 0 the most favourable. *)
Definition band_rank (band : string) : nat := default 5%nat (index_of band BAND_ORDER).

(** * Lemmas *)

Lemma index_of_elem x l : is_Some (index_of x l) <-> x ∈ l.
Proof.
  induction l as [|y l IH]; simpl.
  - split; [by intros []|]. intros H. by apply not_elem_of_nil in H.
  - destruct (str_eqb x y) eqn:E.
    + apply str_eqb_eq in E. subst. split; [constructor|eauto].
    + rewrite fmap_is_Some, IH, elem_of_cons. apply str_eqb_neq in E.
      split; [by right|by intros [?|?]].
Qed.

Lemma band_for_score_in s : band_for_score s ∈ BAND_ORDER.
Proof. unfold band_for_score. split_ifs; set_solver. Qed.
#[export] Hint Resolve band_for_score_in : quirk.

Lemma band_for_score_antitone s t : s <= t -> (band_rank (band_for_score t) <= band_rank (band_for_score s))%nat.
Proof.
  intros H. unfold band_for_score.
  change (threshold "EXCELLENT") with 85. change (threshold "GOOD") with 70.
  change (threshold "MODERATE") with 55. change (threshold "FAIR") with 35.
  repeat match goal with |- context [?a <=? ?b] => destruct (Z.leb_spec a b) end;
    first [lia | (vm_compute; lia)].
Qed.

(** Every band: its cap under any CRITICAL count, computed from the tables. *)
Lemma cap_band_table band n :
  band ∈ BAND_ORDER ->
  cap_band_for_severity band n =
    Ok (if n <=? 0 then band else if (band_rank band <? 3)%nat then "FAIR" else band).
Proof.
  intros Hb. unfold cap_band_for_severity.
  repeat (apply elem_of_cons in Hb as [->|Hb];
          [simpl; destruct (Z.leb_spec n 0); [done|simpl];
           unfold admits; simpl;
           try rewrite (proj2 (Z.leb_gt n 0)) by done; done|]).
  by apply not_elem_of_nil in Hb.
Qed.

(** [cap_band_for_severity] is a floor on severity, never a promotion. *)
Lemma cap_band_demotes band n capped :
  cap_band_for_severity band n = Ok capped ->
  capped ∈ BAND_ORDER /\ (band_rank band <= band_rank capped)%nat /\ (0 < n -> admits capped n = true).
Proof.
  intros H. assert (Hb : band ∈ BAND_ORDER).
  { unfold cap_band_for_severity in H. destruct (index_of band BAND_ORDER) eqn:E; [|done].
    apply index_of_elem. eauto. }
  rewrite cap_band_table in H by done. injection H as <-.
  repeat (apply elem_of_cons in Hb as [->|Hb];
          [destruct (Z.leb_spec n 0); simpl;
           (split; [set_solver|split; [vm_compute; lia|intros; try lia; done]])|]).
  by apply not_elem_of_nil in Hb.
Qed.
