(* ===== verification/WeakCrypto.v ===== *)
(** Weak-crypto predicates: [src/quirk/util/weak_crypto.py].

    The token and version tests the evidence builder and the finding
    generators share. A nullable column is an [option string]. *)
From Stdlib Require Import ZArith Lia Ascii.
From stdpp Require Import base tactics sets strings list.
From S2P Require Import Prelude PyVal.

Definition WEAK_CIPHER_TOKENS : list string :=
  ["DES"; "3DES"; "CBC3"; "RC4"; "MD5"; "NULL"; "EXPORT"; "ANON"; "DES-CBC"; "IDEA"; "SHA1"; "SHA-1"].

Definition LEGACY_TLS_VERSIONS : list string := ["TLSV1"; "TLSV1.0"; "TLSV1.1"; "SSLV3"].

Definition WEAK_CLASSIFICATION_TOKENS : list string := ["RC4"; "3DES"; "CBC3"; "NULL"; "EXPORT"; "MD5"].

(** [any(token in s for token in tokens)]. *)
Definition any_token (tokens : list string) (s : string) : bool :=
  existsb (contains s) tokens.

Definition is_weak_cipher (cipher_or_label : option string) : bool :=
  if truthy_str cipher_or_label
  then any_token WEAK_CIPHER_TOKENS (upper (str_or_empty cipher_or_label))
  else false.

Definition is_legacy_tls_version (tls_version : option string) : bool :=
  if truthy_str tls_version
  then str_in (upper (str_or_empty tls_version)) LEGACY_TLS_VERSIONS
  else false.

Definition is_pfs_cipher (cipher : option string) : bool :=
  if truthy_str cipher
  then contains (upper (str_or_empty cipher)) "ECDHE" || contains (upper (str_or_empty cipher)) "DHE"
  else false.

Definition legacy_pair : list string := ["TLSv1"; "TLSv1.1"].

(** Case-sensitive, on the negotiated version or the comma-separated list of
    supported versions. *)
Definition has_legacy_tls_versions_signal (tls_version tls_supported_versions : option string) : bool :=
  let ver := strip (str_or_empty tls_version) in
  if str_in ver legacy_pair then true
  else
    let supported := strip (str_or_empty tls_supported_versions) in
    match supported with
    | EmptyString => false
    | _ =>
        let versions := List.filter (fun v => negb (str_eqb v EmptyString))
                                    (strip <$> split_on ","%char supported) in
        existsb (fun v => str_in v versions) legacy_pair
    end.

Definition is_weak_cipher_classification (cipher : option string) : bool :=
  if truthy_str cipher
  then any_token WEAK_CLASSIFICATION_TOKENS (upper (str_or_empty cipher))
  else false.

(** * Lemmas *)

Lemma any_token_mono ts us s :
  (forall t, t ∈ ts -> t ∈ us) -> any_token ts s = true -> any_token us s = true.
Proof.
  unfold any_token. intros H. rewrite !existsb_exists. intros (t & Hin & Ht).
  exists t. split; [|done]. apply list_elem_of_In, H, list_elem_of_In, Hin.
Qed.

Lemma str_in_iff s l : str_in s l = true <-> s ∈ l.
Proof. apply bool_decide_eq_true. Qed.

(** A cipher weak by classification is weak in the broader sense. *)
Lemma weak_classification_sub c :
  is_weak_cipher_classification c = true -> is_weak_cipher c = true.
Proof.
  unfold is_weak_cipher_classification, is_weak_cipher. destruct (truthy_str c); [|done].
  apply any_token_mono. intros t. unfold WEAK_CLASSIFICATION_TOKENS, WEAK_CIPHER_TOKENS.
  rewrite !elem_of_cons, !elem_of_nil. tauto.
Qed.
