(* ===== verification/Scoring.v ===== *)
(** The readiness score: [src/quirk/intelligence/scoring.py].

    [compute_readiness_score] turns an evidence dictionary into a 0-100 score,
    a rating, six subscores and the drivers that explain them. The sections
    follow the function: weights, counters read from the evidence, the six
    impact lists, the assessed predicates, the headline, the result. *)
From Stdlib Require Import ZArith QArith Qround Lia Lqa Ascii.
From stdpp Require Import base tactics sets strings list pretty.
From S2P Require Import Prelude PyFloat PyVal Bands.

Local Open Scope Z_scope.

Definition SCORING_VERSION : string := "4.0".
Definition SCORING_VERSION_NOTE : string := "scoring v4 — not comparable with v3 or earlier scores".

Definition MOTION_PROTOCOL_KEYS : list string :=
  ["SMTP-STARTTLS"; "SMTPS"; "IMAPS"; "IMAP-STARTTLS"; "POP3S"; "POP3-STARTTLS";
   "KAFKA-PLAIN"; "KAFKA-TLS"; "AMQP-PLAIN"; "AMQPS"; "AMQPS/AZURE-SERVICEBUS";
   "HTTPS/AWS-SQS"; "REDIS-PLAIN"; "REDIS-TLS"].

Definition DAR_PROTOCOL_KEYS : list string :=
  ["POSTGRESQL"; "MYSQL"; "RDS"; "S3"; "AZURE_BLOB"; "KUBERNETES"; "VAULT"].

Definition IDENTITY_PROTOCOL_KEYS : list string := ["KERBEROS"; "SAML"; "DNSSEC"; "SMIME"; "ADCS"].

(** * Weights *)

Definition weights := list (string * Q).

Definition SCORE_WEIGHTS : weights :=
  [("hygiene_plaintext_http_ratio", 18%Q);
   ("hygiene_http_on_tls_ratio", 16%Q);
   ("hygiene_scan_error_rate", 6%Q);
   ("modern_tls_legacy_versions_ratio", 14%Q);
   ("modern_tls_unknown_ratio", 6%Q);
   ("modern_tls_scan_error_rate", 5%Q);
   ("identity_expired_ratio", 14%Q);
   ("identity_expiring_ratio", 7%Q);
   ("identity_self_signed_ratio", 9%Q);
   ("identity_mtls_ratio_bonus", 6%Q);
   ("identity_kerberos_weak_etype_ratio", 10%Q);
   ("identity_saml_weak_signing_ratio", 8%Q);
   ("identity_dnssec_weak_algo_ratio", 8%Q);
   ("identity_smime_weak_signing_count", 2%Q);
   ("identity_smime_expired_count", 2%Q);
   ("identity_smime_weak_key_count", 2%Q);
   ("identity_adcs_weak_template_count", 2%Q);
   ("identity_adcs_misconfig_count", 2%Q);
   ("identity_adcs_weak_signing_count", 2%Q);
   ("identity_adcs_coverage_gap_count", 2%Q);
   ("dar_db_plaintext_ratio", 12%Q);
   ("dar_db_weak_ssl_ratio", 6%Q);
   ("dar_storage_unencrypted_ratio", 12%Q);
   ("dar_storage_aws_managed_ratio", 4%Q);
   ("dar_vault_weak_ratio", 8%Q);
   ("dar_k8s_unencrypted_ratio", 10%Q);
   ("dar_k8s_inaccessible_ratio", 4%Q);
   ("motion_email_plaintext_ratio", 12%Q);
   ("motion_email_weak_cipher_ratio", 6%Q);
   ("motion_broker_plaintext_ratio", 14%Q);
   ("motion_broker_weak_tls_ratio", 8%Q);
   ("motion_broker_weak_cipher_ratio", 6%Q);
   ("agility_unknown_ratio", 6%Q);
   ("agility_rsa_only_penalty", 8%Q);
   ("agility_unverified_key_type_penalty", 8%Q);
   ("agility_pqc_hybrid_bonus", 8%Q);
   ("agility_weak_jwt_alg_ratio", 6%Q);
   ("agility_openapi_plaintext_ratio", 4%Q);
   ("agility_codesign_weak_algo_ratio", 6%Q);
   ("agility_fuzz_crypto_posture_ratio", 4%Q)].

(** The float literals 1.4, 1.0 and 0.7. *)
Definition profile_prefixes (factor : Q) : weights :=
  [("agility_", factor); ("identity_", factor); ("dar_", factor); ("motion_", factor)].

Definition PROFILE_MULTIPLIERS : list (string * weights) :=
  [("strict", profile_prefixes (rnd (14 # 10)));
   ("balanced", profile_prefixes 1%Q);
   ("lenient", profile_prefixes (rnd (7 # 10)))].

(** One pass of the multiplier loop: scale every key with the prefix. *)
Definition scale_prefix (w : weights) (pf : string * Q) : weights :=
  (fun '(k, v) => if startswith k pf.1 then (k, fmul v pf.2) else (k, v)) <$> w.

(** [str(profile or "balanced").lower()], or ["balanced"] when unknown. *)
Definition resolve_profile (profile : option string) : string :=
  let prof := lower (if truthy_str profile then str_or_empty profile else "balanced") in
  match alookup prof PROFILE_MULTIPLIERS with Some _ => prof | None => "balanced" end.

Definition profile_weights (profile : option string) : weights :=
  List.fold_left scale_prefix
    (default [] (alookup (resolve_profile profile) PROFILE_MULTIPLIERS)) SCORE_WEIGHTS.

(** The [weights] argument: overrides applied after the profile. *)
Definition override_weights (w : weights) (overrides : pydict) : weights :=
  List.fold_left (fun w kv => aset kv.1 (as_float kv.2) w) overrides w.

Definition resolve_weights (profile : option string) (overrides : pydict) : weights :=
  override_weights (profile_weights profile) overrides.

(** [w[k]]; every key the code reads is a key of [SCORE_WEIGHTS]. *)
Definition wget (w : weights) (k : string) : Q := default 0%Q (alookup k w).

(** * The count curve and the clamp *)

Definition N_REF : Z := 40.

(** [min(1.0, count / N_REF) ** 0.5]. *)
Definition count_curve (count : Z) : Q :=
  if count <=? 0 then 0%Q else fsqrt (fmin 1 (int_truediv count N_REF)).

Definition clamp (v lo hi : Q) : Q := fmin hi (fmax lo v).

Definition rating_of (score : Z) : string := band_for_score score.

(** * Ceilings *)

Definition DEEP_CRITICAL_CEILING : Z := 25.
Definition DEEP_CRITICAL_COUNT : Z := 5.

Definition min_list (l : list Z) : Z :=
  match l with [] => 0 | x :: l' => List.fold_left Z.min l' x end.

Definition top_of_band (band : string) : Z :=
  let values := BAND_THRESHOLDS.*2 in
  let floor := default (-1) (alookup band BAND_THRESHOLDS) in
  let higher := List.filter (fun v => floor <? v) values in
  match alookup band BAND_THRESHOLDS with
  | None => min_list values - 1
  | Some _ => match higher with [] => 100 | _ => min_list higher - 1 end
  end.

Definition scored_severity_counts (evidence : pydict) : pydict :=
  match dict_get evidence "scored_finding_severity_counts" with
  | Some (VDict scored) => scored
  | _ => sub_mapping evidence "finding_severity_counts"
  end.

Definition plural (n : Z) : string := if 1 <? n then "s" else EmptyString.

Definition consequence_ceiling (critical_count high_count : Z) : option (Z * string) :=
  if DEEP_CRITICAL_COUNT <=? critical_count then
    Some (DEEP_CRITICAL_CEILING, pretty critical_count +:+ " open CRITICAL findings")
  else if 1 <=? critical_count then
    Some (top_of_band "POOR", pretty critical_count +:+ " open CRITICAL finding" +:+ plural critical_count)
  else if 3 <=? high_count then
    Some (top_of_band "FAIR", pretty high_count +:+ " open HIGH findings")
  else if 1 <=? high_count then
    Some (top_of_band "MODERATE", pretty high_count +:+ " open HIGH finding" +:+ plural high_count)
  else None.

Definition pqc_readiness_ceiling (pqc_hybrid_count : Z) : option (Z * string) :=
  if 0 <? pqc_hybrid_count then None
  else Some (top_of_band "GOOD", "no post-quantum key exchange observed").

(** Tuple order of Python's [min] over the applicable ceilings. *)
Definition ceiling_leb (a b : Z * string) : bool :=
  (a.1 <? b.1) || ((a.1 =? b.1) && str_leb a.2 b.2).

Fixpoint min_ceiling (l : list (option (Z * string))) : option (Z * string) :=
  match l with
  | [] => None
  | None :: l' => min_ceiling l'
  | Some c :: l' =>
      match min_ceiling l' with
      | None => Some c
      | Some d => if ceiling_leb c d then Some c else Some d
      end
  end.

(** * Impacts *)

Definition impacts := list (string * Q).

Definition apply_weighted_impacts (ims : impacts) (score_cap : Q) : Z * list (string * Z) :=
  let total := fadd score_cap (fsum ims.*2) in
  let clamped := clamp total 0 score_cap in
  (rne clamped,
   List.filter (fun d => negb (d.2 =? 0)) ((fun '(l, p) => (l, rne p)) <$> ims)).

(** * Counters read from the evidence *)

Record inputs := {
  i_plaintext_http : Z; i_http_on_tls : Z; i_mtls : Z; i_scan_errors : Z;
  i_unknown : Z; i_legacy_tls : Z;
  i_expired : Z; i_expiring : Z; i_self_signed : Z;
  i_rsa : Z; i_ecdsa : Z; i_pqc_cert : Z; i_cert_denom : Z;
  i_kerberos : Z; i_saml : Z; i_dnssec : Z;
  i_smime_signing : Z; i_smime_expired : Z; i_smime_key : Z;
  i_adcs_template : Z; i_adcs_misconfig : Z; i_adcs_signing : Z; i_adcs_gap : Z;
  i_db_plaintext : Z; i_db_weak_ssl : Z; i_storage_unencrypted : Z; i_storage_aws : Z;
  i_k8s_unencrypted : Z; i_k8s_inaccessible : Z; i_vault_weak : Z;
  i_email_plaintext : Z; i_email_cipher : Z;
  i_broker_plaintext : Z; i_broker_tls : Z; i_broker_cipher : Z;
  i_pqc_hybrid : Z; i_jwt : Z; i_openapi : Z; i_codesign : Z; i_fuzz : Z;
  i_critical : Z; i_high : Z;
  (** the assessed predicates of the domains *)
  i_endpoints_assessed : bool; i_identity_assessed : bool;
  i_dar_assessed : bool; i_motion_assessed : bool
}.

Definition endpoints_assessed (endpoints : Z) : bool := 0 <? endpoints.

Definition identity_value (protocol_counts : pydict) (placeholders kerberos_errors : Z) (k : string) : Z :=
  let value := count_of protocol_counts k in
  if str_eqb k "KERBEROS"
  then Z.max 0 (value - Z.max 0 placeholders - Z.max 0 kerberos_errors) else value.

Definition sum_Z (l : list Z) : Z := List.fold_left Z.add l 0.

Definition identity_assessed (cert_obs protocol_counts : pydict) (placeholders kerberos_errors : Z) : bool :=
  if 0 <? as_int (get_or cert_obs "certs_observed" (VInt 0)) then true
  else 0 <? sum_Z (identity_value protocol_counts placeholders kerberos_errors <$> IDENTITY_PROTOCOL_KEYS).

Definition raw_count (d : pydict) (k : string) : Z := as_int (get_or d k (VInt 0)).

Definition dar_assessed (protocol_counts : pydict) : bool :=
  0 <? sum_Z (raw_count protocol_counts <$> DAR_PROTOCOL_KEYS).

Definition motion_assessed (protocol_counts : pydict) : bool :=
  0 <? sum_Z (raw_count protocol_counts <$> MOTION_PROTOCOL_KEYS).

Definition endpoint_denom (evidence : pydict) : Z :=
  let endpoints := count_of (sub_mapping evidence "totals") "endpoints" in
  Z.max 0 (as_int (get_or evidence "assessable_endpoint_count" (VInt endpoints))).

Definition read_inputs (evidence : pydict) : inputs :=
  let protocol_counts := sub_mapping evidence "protocol_counts" in
  let cert_obs := sub_mapping evidence "certificate_observations" in
  let cert_keys := sub_mapping evidence "cert_key_type_counts" in
  let scan_error := sub_mapping evidence "scan_error" in
  let sev := scored_severity_counts evidence in
  {| i_plaintext_http := count_of evidence "plaintext_http_count";
     i_http_on_tls := count_of evidence "http_on_tls_port_count";
     i_mtls := count_of evidence "mtls_present_count";
     i_scan_errors := count_of scan_error "count";
     i_unknown := count_of protocol_counts "UNKNOWN";
     i_legacy_tls :=
       Z.max 0 (as_int (get_or evidence "legacy_tls_count" (get_or sev "LOW" (VInt 0))));
     i_expired := count_of cert_obs "expired_count";
     i_expiring := count_of cert_obs "expiring_count";
     i_self_signed := count_of cert_obs "self_signed_count";
     i_rsa := count_of cert_keys "RSA";
     i_ecdsa := count_of cert_keys "ECDSA";
     i_pqc_cert := count_of cert_keys "PQC";
     i_cert_denom := count_of cert_obs "certs_observed";
     i_kerberos := count_of evidence "identity_weak_etype_count";
     i_saml := count_of evidence "saml_weak_signing_count";
     i_dnssec := count_of evidence "dnssec_weak_algo_count";
     i_smime_signing := count_of evidence "smime_weak_signing_count";
     i_smime_expired := count_of evidence "smime_expired_count";
     i_smime_key := count_of evidence "smime_weak_key_count";
     i_adcs_template := count_of evidence "adcs_weak_template_count";
     i_adcs_misconfig := count_of evidence "adcs_misconfig_count";
     i_adcs_signing := count_of evidence "adcs_weak_signing_count";
     i_adcs_gap := count_of evidence "adcs_coverage_gap_count";
     i_db_plaintext := count_of evidence "dar_db_plaintext_count";
     i_db_weak_ssl := count_of evidence "dar_db_weak_ssl_count";
     i_storage_unencrypted := count_of evidence "dar_storage_unencrypted_count";
     i_storage_aws := count_of evidence "dar_storage_aws_managed_count";
     i_k8s_unencrypted := count_of evidence "dar_k8s_unencrypted_count";
     i_k8s_inaccessible := count_of evidence "dar_k8s_inaccessible_count";
     i_vault_weak := count_of evidence "dar_vault_weak_count";
     i_email_plaintext :=
       raw_count evidence "motion_email_plaintext_count"
       + raw_count evidence "motion_email_starttls_missing_count";
     i_email_cipher := count_of evidence "motion_email_weak_cipher_count";
     i_broker_plaintext := count_of evidence "motion_broker_plaintext_count";
     i_broker_tls := count_of evidence "motion_broker_weak_tls_count";
     i_broker_cipher := count_of evidence "motion_broker_weak_cipher_count";
     i_pqc_hybrid := count_of evidence "pqc_hybrid_endpoint_count";
     i_jwt := count_of evidence "bearer_token_weak_alg_count";
     i_openapi := count_of evidence "openapi_plaintext_server_count";
     i_codesign := count_of evidence "codesign_weak_algo_count";
     i_fuzz := count_of evidence "fuzz_finding_count";
     i_critical := count_of sev "CRITICAL";
     i_high := count_of sev "HIGH";
     i_endpoints_assessed := endpoints_assessed (endpoint_denom evidence);
     i_identity_assessed :=
       identity_assessed cert_obs protocol_counts
         (count_of evidence "kerberos_placeholder_count")
         (count_of evidence "kerberos_scan_error_count");
     i_dar_assessed := dar_assessed protocol_counts;
     i_motion_assessed := motion_assessed protocol_counts |}.

(** * The six impact lists *)

(** [-_count_curve(count) * w[key]]. *)
Definition penalty (count : Z) (w : weights) (key : string) : Q :=
  fmul (fneg (count_curve count)) (wget w key).

Definition hygiene_impacts (i : inputs) (w : weights) : impacts :=
  [("Plaintext HTTP exposure", penalty (i_plaintext_http i) w "hygiene_plaintext_http_ratio");
   ("HTTP on TLS-designated ports", penalty (i_http_on_tls i) w "hygiene_http_on_tls_ratio");
   ("Scan errors", penalty (i_scan_errors i) w "hygiene_scan_error_rate")].

Definition modern_tls_impacts (i : inputs) (w : weights) : impacts :=
  [("Legacy TLS versions present", penalty (i_legacy_tls i) w "modern_tls_legacy_versions_ratio");
   ("Unknown open services", penalty (i_unknown i) w "modern_tls_unknown_ratio");
   ("Assessment visibility blockers", penalty (i_scan_errors i) w "modern_tls_scan_error_rate")].

Definition identity_trust_impacts (i : inputs) (w : weights) : impacts :=
  [("Expired certificates", penalty (i_expired i) w "identity_expired_ratio");
   ("Expiring certificates", penalty (i_expiring i) w "identity_expiring_ratio");
   ("Self-signed certificates", penalty (i_self_signed i) w "identity_self_signed_ratio");
   ("mTLS enforcement signals", if 0 <? i_mtls i then wget w "identity_mtls_ratio_bonus" else 0%Q);
   ("RC4/DES Kerberos etypes detected", penalty (i_kerberos i) w "identity_kerberos_weak_etype_ratio");
   ("Weak SAML signing key", penalty (i_saml i) w "identity_saml_weak_signing_ratio");
   ("Weak DNSSEC signing algorithm", penalty (i_dnssec i) w "identity_dnssec_weak_algo_ratio");
   ("Weak S/MIME signing", penalty (i_smime_signing i) w "identity_smime_weak_signing_count");
   ("Expired S/MIME cert", penalty (i_smime_expired i) w "identity_smime_expired_count");
   ("Weak S/MIME key", penalty (i_smime_key i) w "identity_smime_weak_key_count");
   ("Weak AD CS template", penalty (i_adcs_template i) w "identity_adcs_weak_template_count");
   ("AD CS template misconfig", penalty (i_adcs_misconfig i) w "identity_adcs_misconfig_count");
   ("Weak AD CS signing algo", penalty (i_adcs_signing i) w "identity_adcs_weak_signing_count");
   ("AD CS coverage gap (ESC4/5/7/8)", penalty (i_adcs_gap i) w "identity_adcs_coverage_gap_count")].

(** A quantum-vulnerable (classical) key, else an undetermined one: one flat
    penalty, never both. *)
Definition key_type_impacts (i : inputs) (w : weights) : impacts :=
  if 0 <? i_rsa i + i_ecdsa i then
    [("Quantum-vulnerable certificate keys (RSA/ECDSA/EdDSA)", fneg (wget w "agility_rsa_only_penalty"))]
  else if i_pqc_cert i <? i_cert_denom i then
    [("Certificate key types undetermined", fneg (wget w "agility_unverified_key_type_penalty"))]
  else [].

Definition pqc_credit_impacts (i : inputs) (w : weights) : impacts :=
  if (0 <? i_pqc_hybrid i) || (0 <? i_pqc_cert i)
  then [("Post-quantum key exchange or certificate key", wget w "agility_pqc_hybrid_bonus")]
  else [].

Definition agility_impacts (i : inputs) (w : weights) : impacts :=
  [("Unknown service inventory", penalty (i_unknown i) w "agility_unknown_ratio")]
  ++ key_type_impacts i w
  ++ pqc_credit_impacts i w
  ++ [("Bearer token weak algorithm", penalty (i_jwt i) w "agility_weak_jwt_alg_ratio");
      ("OpenAPI plaintext servers (http://)", penalty (i_openapi i) w "agility_openapi_plaintext_ratio");
      ("Code-signing cert weak algorithm", penalty (i_codesign i) w "agility_codesign_weak_algo_ratio");
      ("Active REST fuzz crypto-posture findings", penalty (i_fuzz i) w "agility_fuzz_crypto_posture_ratio")].

Definition dar_impacts (i : inputs) (w : weights) : impacts :=
  [("Database plaintext connections", penalty (i_db_plaintext i) w "dar_db_plaintext_ratio");
   ("Database weak SSL configuration", penalty (i_db_weak_ssl i) w "dar_db_weak_ssl_ratio");
   ("Object storage unencrypted", penalty (i_storage_unencrypted i) w "dar_storage_unencrypted_ratio");
   ("Object storage platform-managed keys", penalty (i_storage_aws i) w "dar_storage_aws_managed_ratio");
   ("Kubernetes etcd unencrypted", penalty (i_k8s_unencrypted i) w "dar_k8s_unencrypted_ratio");
   ("Kubernetes etcd encryption inaccessible", penalty (i_k8s_inaccessible i) w "dar_k8s_inaccessible_ratio");
   ("Vault weak crypto posture", penalty (i_vault_weak i) w "dar_vault_weak_ratio")].

Definition motion_impacts (i : inputs) (w : weights) : impacts :=
  [("Email plaintext or missing STARTTLS", penalty (i_email_plaintext i) w "motion_email_plaintext_ratio");
   ("Weak cipher on email TLS", penalty (i_email_cipher i) w "motion_email_weak_cipher_ratio");
   ("Plaintext broker listeners", penalty (i_broker_plaintext i) w "motion_broker_plaintext_ratio");
   ("Weak TLS on brokers", penalty (i_broker_tls i) w "motion_broker_weak_tls_ratio");
   ("Weak cipher on broker TLS", penalty (i_broker_cipher i) w "motion_broker_weak_cipher_ratio")].

(** * The headline *)

Definition CAP : Q := 25%Q.

Record category := {
  c_name : string; c_score : Z; c_assessed : bool; c_drivers : list (string * Z)
}.

Definition mk_category (name : string) (ims : impacts) (ok : bool) : category :=
  let '(score, drivers) := apply_weighted_impacts ims CAP in
  {| c_name := name; c_score := score; c_assessed := ok; c_drivers := drivers |}.

Definition category_table (i : inputs) (w : weights) : list category :=
  [mk_category "hygiene" (hygiene_impacts i w) (i_endpoints_assessed i);
   mk_category "modern_tls" (modern_tls_impacts i w) (i_endpoints_assessed i);
   mk_category "identity_trust" (identity_trust_impacts i w) (i_identity_assessed i);
   mk_category "agility_signals" (agility_impacts i w) (i_endpoints_assessed i);
   mk_category "data_at_rest" (dar_impacts i w) (i_dar_assessed i);
   mk_category "data_in_motion" (motion_impacts i w) (i_motion_assessed i)].

Definition assessed_scores (table : list category) : list Z :=
  c_score <$> List.filter c_assessed table.

(** The score before any ceiling. *)
Definition computed_score (scores : list Z) : Z :=
  rne (fmul (int_truediv (sum_Z scores) (Z.of_nat (length scores) * 25)) 100).

(** Compression of [0, 100] onto [0, ceiling]. *)
Definition compress (ceiling : option (Z * string)) (score : Z) : Z :=
  match ceiling with
  | None => score
  | Some (c, _) => rne (int_truediv (c * score) 100)
  end.

Definition binding_ceiling (i : inputs) : option (Z * string) :=
  min_ceiling [consequence_ceiling (i_critical i) (i_high i); pqc_readiness_ceiling (i_pqc_hybrid i)].

Record score_result := {
  r_score : option Z;
  r_rating : string;
  r_rating_cap_reason : option string;
  r_subscores : list (string * option Z);
  r_drivers : list (string * Z);
  r_domains_assessed : Z;
  r_domains_total : Z;
  r_score_divisor : option Q;
  r_coverage_disclosure : string;
  r_scoring_version : string;
  r_scoring_version_note : string
}.

(** [sorted(..., key=lambda x: (-abs(x[1]), x[0]))]. *)
Definition driver_leb (a b : string * Z) : bool :=
  (Z.abs b.2 <? Z.abs a.2) || ((Z.abs a.2 =? Z.abs b.2) && str_leb a.1 b.1).

Definition all_drivers (table : list category) : list (string * Z) :=
  List.flat_map c_drivers (List.filter c_assessed table).

Definition top_drivers (table : list category) : list (string * Z) :=
  take 5 (py_sorted driver_leb (all_drivers table)).

Definition subscores (table : list category) : list (string * option Z) :=
  (fun c => (c_name c, if c_assessed c then Some (c_score c) else None)) <$> table.

(** Score, rating, cap reason and divisor: the two branches on
    [domains_assessed == 0]. *)
Definition headline (i : inputs) (scores : list Z)
  : pyres (option Z * string * option string * option Q) :=
  match scores with
  | [] => Ok (None, "NOT_ASSESSED", None, None)
  | _ =>
      let computed := computed_score scores in
      let ceiling := binding_ceiling i in
      let total := compress ceiling computed in
      let numeric_band := rating_of total in
      pbind (cap_band_for_severity numeric_band (i_critical i)) (fun rating =>
        let reason :=
          match ceiling with
          | Some (_, why) =>
              Some (why +:+ " — score limited to " +:+ pretty total +:+
                    " (computed " +:+ pretty computed +:+ ")")
          | None => cap_reason numeric_band rating (i_critical i) total
          end in
        Ok (Some total, rating, reason,
            Some (int_truediv (Z.of_nat (length scores) * 25) 100)))
  end.

Definition score_inputs (i : inputs) (w : weights) : pyres score_result :=
  let table := category_table i w in
  let scores := assessed_scores table in
  let assessed := Z.of_nat (length scores) in
  let total := Z.of_nat (length table) in
  pbind (headline i scores) (fun '(score, rating, reason, divisor) =>
    Ok {| r_score := score;
          r_rating := rating;
          r_rating_cap_reason := reason;
          r_subscores := subscores table;
          r_drivers := top_drivers table;
          r_domains_assessed := assessed;
          r_domains_total := total;
          r_score_divisor := divisor;
          r_coverage_disclosure :=
            pretty assessed +:+ " of " +:+ pretty total +:+ " domains assessed";
          r_scoring_version := SCORING_VERSION;
          r_scoring_version_note := SCORING_VERSION_NOTE |}).

(** [compute_readiness_score(evidence, profile=..., weights=...)]; no override
    is the empty dictionary. *)
Definition compute_readiness_score (evidence : pydict) (profile : option string) (overrides : pydict)
  : pyres score_result :=
  score_inputs (read_inputs evidence) (resolve_weights profile overrides).
