(* ===== verification/ScoringTheory.v ===== *)
(** Properties of the readiness score ([Scoring]).

    Totality and bounds, the consequence ceilings, rating coherence, the
    monotonicity of the score in every weakness counter, independence from the
    scanned population, drivers and subscores. *)
From Stdlib Require Import ZArith QArith Qround Lia Lqa Ascii.
From stdpp Require Import base tactics sets strings list pretty.
From S2P Require Import Prelude PyFloat PyVal Bands Scoring.

Local Open Scope Z_scope.

(** * The count curve *)

Lemma count_curve_saturates n : N_REF <= n -> count_curve n = 1%Q.
Proof.
  unfold N_REF. intros Hn. unfold count_curve.
  rewrite (proj2 (Z.leb_gt n 0)) by lia.
  assert (H1 : (1 <= int_truediv n N_REF)%Q).
  { unfold int_truediv. change 1%Q with (rnd 1). apply rnd_mono.
    unfold N_REF. apply Qle_shift_div_l; [reflexivity|]. rewrite Qmult_1_l, <- Zle_Qle. lia. }
  unfold fmin, flt. rewrite (proj2 (Qle_bool_iff _ _) H1). reflexivity.
Qed.

Lemma count_curve_step n : (count_curve n <= count_curve (n + 1))%Q.
Proof.
  destruct (Z.lt_ge_cases n 0) as [H|H].
  { unfold count_curve. rewrite !(proj2 (Z.leb_le _ 0)) by lia. lra. }
  destruct (Z.lt_ge_cases n 40) as [H'|H'].
  - assert (T : forallb (fun k => Qle_bool (count_curve (Z.of_nat k)) (count_curve (Z.of_nat k + 1))) (seq 0 40) = true)
      by (vm_compute; reflexivity).
    rewrite forallb_forall in T. apply Qle_bool_iff.
    rewrite <- (Z2Nat.id n) by lia. apply T, in_seq. lia.
  - rewrite !count_curve_saturates by (unfold N_REF; lia). lra.
Qed.

Lemma count_curve_mono a b : a <= b -> (count_curve a <= count_curve b)%Q.
Proof.
  intros H. replace b with (a + Z.of_nat (Z.to_nat (b - a))) by lia.
  induction (Z.to_nat (b - a)) as [|n IH].
  - rewrite Z.add_0_r. lra.
  - eapply Qle_trans; [exact IH|]. rewrite Nat2Z.inj_succ, <- Z.add_1_r, Z.add_assoc.
    apply count_curve_step.
Qed.

Lemma count_curve_nonpos n : n <= 0 -> count_curve n = 0%Q.
Proof. intros H. unfold count_curve. by rewrite (proj2 (Z.leb_le n 0)). Qed.

Lemma count_curve_range n : (0 <= count_curve n <= 1)%Q.
Proof.
  split.
  - destruct (Z.le_gt_cases n 0); [rewrite count_curve_nonpos by done; lra|].
    rewrite <- (count_curve_nonpos 0) by lia. apply count_curve_mono. lia.
  - destruct (Z.le_gt_cases 40 n).
    + rewrite count_curve_saturates by done. lra.
    + rewrite <- (count_curve_saturates 40) by done. apply count_curve_mono. lia.
Qed.

(** * Weights *)

Definition weights_nonneg (w : weights) : Prop := forall k, (0 <= wget w k)%Q.

Lemma weights_nonneg_forall w : Forall (fun kv => (0 <= kv.2)%Q) w -> weights_nonneg w.
Proof.
  intros H k. unfold wget. destruct (alookup k w) as [q|] eqn:E; simpl; [|lra].
  apply alookup_elem in E. rewrite Forall_forall in H. exact (H _ E).
Qed.

Lemma resolve_profile_cases profile :
  resolve_profile profile ∈ ["strict"; "balanced"; "lenient"].
Proof.
  unfold resolve_profile. cbv zeta. set (p := lower _).
  destruct (alookup p PROFILE_MULTIPLIERS) as [m|] eqn:E; [|set_solver].
  apply alookup_elem in E. unfold PROFILE_MULTIPLIERS in E.
  repeat (apply elem_of_cons in E as [[= -> _]|E]; [set_solver|]).
  by apply not_elem_of_nil in E.
Qed.

(** A property of the three shipped weight tables, checked by evaluation. *)
Lemma profile_weights_ind (P : weights -> Prop) :
  (forall p, p ∈ ["strict"; "balanced"; "lenient"] ->
     P (List.fold_left scale_prefix (default [] (alookup p PROFILE_MULTIPLIERS)) SCORE_WEIGHTS)) ->
  forall profile, P (profile_weights profile).
Proof. intros H profile. unfold profile_weights. apply H, resolve_profile_cases. Qed.

Lemma profile_weights_nonneg profile : weights_nonneg (profile_weights profile).
Proof.
  revert profile. apply profile_weights_ind. intros p Hp. apply weights_nonneg_forall.
  assert (T : forall w, forallb (fun kv : string * Q => Qle_bool 0 kv.2) w = true ->
                   Forall (fun kv => (0 <= kv.2)%Q) w).
  { intros w. rewrite forallb_forall, Forall_forall. intros H x Hx.
    apply Qle_bool_iff, H, list_elem_of_In, Hx. }
  apply T. repeat (apply elem_of_cons in Hp as [->|Hp]; [vm_compute; reflexivity|]).
  by apply not_elem_of_nil in Hp.
Qed.

Lemma profile_key_penalties_equal profile :
  wget (profile_weights profile) "agility_rsa_only_penalty"
  = wget (profile_weights profile) "agility_unverified_key_type_penalty".
Proof.
  revert profile.
  apply (profile_weights_ind (fun w => wget w "agility_rsa_only_penalty"
                                       = wget w "agility_unverified_key_type_penalty")).
  intros p Hp. repeat (apply elem_of_cons in Hp as [->|Hp]; [vm_compute; reflexivity|]).
  by apply not_elem_of_nil in Hp.
Qed.

(** * Impacts and category scores *)

Lemma clamp_range v lo hi : (lo <= hi)%Q -> (lo <= clamp v lo hi <= hi)%Q.
Proof.
  intros H. unfold clamp. destruct (fmin_spec hi (fmax lo v)) as (?&?&[E|E]);
    destruct (fmax_spec lo v) as (?&_&_); rewrite E in *; lra.
Qed.

Lemma clamp_mono u v lo hi : (u <= v)%Q -> (clamp u lo hi <= clamp v lo hi)%Q.
Proof. intros H. unfold clamp. apply fmin_mono; [lra|]. apply fmax_mono; [lra|done]. Qed.

Lemma apply_weighted_impacts_range ims : 0 <= fst (apply_weighted_impacts ims CAP) <= 25.
Proof.
  unfold apply_weighted_impacts. simpl fst. apply rne_bounds. unfold CAP.
  apply (clamp_range _ 0 25). lra.
Qed.

(** A higher sum of impacts is a higher category score. *)
Lemma apply_weighted_impacts_mono a b :
  (fsum a.*2 <= fsum b.*2)%Q ->
  fst (apply_weighted_impacts a CAP) <= fst (apply_weighted_impacts b CAP).
Proof.
  intros H. unfold apply_weighted_impacts. simpl fst.
  apply rne_mono, clamp_mono, fadd_mono; [lra|done].
Qed.

Lemma penalty_mono a b w k :
  (0 <= wget w k)%Q -> a <= b -> (penalty b w k <= penalty a w k)%Q.
Proof.
  intros Hw H. unfold penalty. apply fmul_mono_l; [done|]. apply fneg_mono, count_curve_mono, H.
Qed.

Lemma penalty_nonpos n w k : (0 <= wget w k)%Q -> (penalty n w k <= 0)%Q.
Proof.
  intros Hw. unfold penalty. apply fmul_nonpos; [|done].
  unfold fneg. destruct (count_curve_range n). lra.
Qed.
#[export] Hint Resolve penalty_mono penalty_nonpos : quirk.

(** * Risk order on the counters

    [riskier a b]: every weakness counter of [b] is at least that of [a], every
    credit [b] has [a] has too, and both assess the same domains. *)

Definition key_penalised (i : inputs) : bool :=
  (0 <? i_rsa i + i_ecdsa i) || (i_pqc_cert i <? i_cert_denom i).

Definition pqc_seen (i : inputs) : bool := (0 <? i_pqc_hybrid i) || (0 <? i_pqc_cert i).

Record riskier (a b : inputs) : Prop := {
  rk_plaintext_http : i_plaintext_http a <= i_plaintext_http b;
  rk_http_on_tls : i_http_on_tls a <= i_http_on_tls b;
  rk_scan_errors : i_scan_errors a <= i_scan_errors b;
  rk_unknown : i_unknown a <= i_unknown b;
  rk_legacy_tls : i_legacy_tls a <= i_legacy_tls b;
  rk_expired : i_expired a <= i_expired b;
  rk_expiring : i_expiring a <= i_expiring b;
  rk_self_signed : i_self_signed a <= i_self_signed b;
  rk_kerberos : i_kerberos a <= i_kerberos b;
  rk_saml : i_saml a <= i_saml b;
  rk_dnssec : i_dnssec a <= i_dnssec b;
  rk_smime_signing : i_smime_signing a <= i_smime_signing b;
  rk_smime_expired : i_smime_expired a <= i_smime_expired b;
  rk_smime_key : i_smime_key a <= i_smime_key b;
  rk_adcs_template : i_adcs_template a <= i_adcs_template b;
  rk_adcs_misconfig : i_adcs_misconfig a <= i_adcs_misconfig b;
  rk_adcs_signing : i_adcs_signing a <= i_adcs_signing b;
  rk_adcs_gap : i_adcs_gap a <= i_adcs_gap b;
  rk_db_plaintext : i_db_plaintext a <= i_db_plaintext b;
  rk_db_weak_ssl : i_db_weak_ssl a <= i_db_weak_ssl b;
  rk_storage_unencrypted : i_storage_unencrypted a <= i_storage_unencrypted b;
  rk_storage_aws : i_storage_aws a <= i_storage_aws b;
  rk_k8s_unencrypted : i_k8s_unencrypted a <= i_k8s_unencrypted b;
  rk_k8s_inaccessible : i_k8s_inaccessible a <= i_k8s_inaccessible b;
  rk_vault_weak : i_vault_weak a <= i_vault_weak b;
  rk_email_plaintext : i_email_plaintext a <= i_email_plaintext b;
  rk_email_cipher : i_email_cipher a <= i_email_cipher b;
  rk_broker_plaintext : i_broker_plaintext a <= i_broker_plaintext b;
  rk_broker_tls : i_broker_tls a <= i_broker_tls b;
  rk_broker_cipher : i_broker_cipher a <= i_broker_cipher b;
  rk_jwt : i_jwt a <= i_jwt b;
  rk_openapi : i_openapi a <= i_openapi b;
  rk_codesign : i_codesign a <= i_codesign b;
  rk_fuzz : i_fuzz a <= i_fuzz b;
  rk_critical : i_critical a <= i_critical b;
  rk_high : i_high a <= i_high b;
  rk_mtls : 0 < i_mtls b -> 0 < i_mtls a;
  rk_pqc_hybrid : 0 < i_pqc_hybrid b -> 0 < i_pqc_hybrid a;
  rk_pqc : pqc_seen b = true -> pqc_seen a = true;
  rk_key : key_penalised a = true -> key_penalised b = true;
  rk_endpoints : i_endpoints_assessed b = i_endpoints_assessed a;
  rk_identity : i_identity_assessed b = i_identity_assessed a;
  rk_dar : i_dar_assessed b = i_dar_assessed a;
  rk_motion : i_motion_assessed b = i_motion_assessed a
}.
#[export] Hint Resolve rk_plaintext_http rk_http_on_tls rk_scan_errors rk_unknown rk_legacy_tls
  rk_expired rk_expiring rk_self_signed rk_kerberos rk_saml rk_dnssec rk_smime_signing
  rk_smime_expired rk_smime_key rk_adcs_template rk_adcs_misconfig rk_adcs_signing rk_adcs_gap
  rk_db_plaintext rk_db_weak_ssl rk_storage_unencrypted rk_storage_aws rk_k8s_unencrypted
  rk_k8s_inaccessible rk_vault_weak rk_email_plaintext rk_email_cipher rk_broker_plaintext
  rk_broker_tls rk_broker_cipher rk_jwt rk_openapi rk_codesign rk_fuzz rk_critical rk_high : quirk.

Section Risk.
Context (w : weights) (a b : inputs).
Hypothesis (Hw : weights_nonneg w) (Hr : riskier a b).
Hypothesis Hkey : wget w "agility_rsa_only_penalty" = wget w "agility_unverified_key_type_penalty".

(** Two impact lists of the same shape, compared entry by entry. *)
Local Ltac pointwise :=
  apply apply_weighted_impacts_mono, fsum_mono; cbn [fmap list_fmap snd];
  repeat (apply Forall2_cons_2 || apply Forall2_nil_2);
  try (apply penalty_mono; [apply Hw|by auto with quirk]).

Lemma hygiene_mono :
  fst (apply_weighted_impacts (hygiene_impacts b w) CAP) <= fst (apply_weighted_impacts (hygiene_impacts a w) CAP).
Proof. pointwise. Qed.

Lemma modern_tls_mono :
  fst (apply_weighted_impacts (modern_tls_impacts b w) CAP) <= fst (apply_weighted_impacts (modern_tls_impacts a w) CAP).
Proof. pointwise. Qed.

Lemma identity_mono :
  fst (apply_weighted_impacts (identity_trust_impacts b w) CAP)
  <= fst (apply_weighted_impacts (identity_trust_impacts a w) CAP).
Proof.
  pointwise. pose proof (rk_mtls _ _ Hr). pose proof (Hw "identity_mtls_ratio_bonus").
  destruct (Z.ltb_spec 0 (i_mtls b)), (Z.ltb_spec 0 (i_mtls a)); simpl; first [lra|exfalso; lia].
Qed.

Lemma dar_mono :
  fst (apply_weighted_impacts (dar_impacts b w) CAP) <= fst (apply_weighted_impacts (dar_impacts a w) CAP).
Proof. pointwise. Qed.

Lemma motion_mono :
  fst (apply_weighted_impacts (motion_impacts b w) CAP) <= fst (apply_weighted_impacts (motion_impacts a w) CAP).
Proof. pointwise. Qed.

(** The agility list has optional entries; compare running sums instead. *)
Lemma key_part_mono x y :
  representable y -> (x <= y)%Q ->
  (List.fold_left fadd (key_type_impacts b w).*2 x <= List.fold_left fadd (key_type_impacts a w).*2 y)%Q.
Proof.
  intros Hy Hxy. pose proof (rk_key _ _ Hr) as Hk.
  pose proof (Hw "agility_unverified_key_type_penalty") as H0.
  unfold key_penalised in Hk. unfold key_type_impacts. rewrite Hkey.
  destruct (0 <? i_rsa a + i_ecdsa a), (0 <? i_rsa b + i_ecdsa b),
    (i_pqc_cert a <? i_cert_denom a), (i_pqc_cert b <? i_cert_denom b);
    simpl in *; try (by specialize (Hk eq_refl)); try done;
    first [apply fadd_mono; [done|lra] | apply fadd_nonpos; [done|done|unfold fneg; lra]].
Qed.

Lemma pqc_part_mono x y :
  representable x -> (x <= y)%Q ->
  (List.fold_left fadd (pqc_credit_impacts b w).*2 x <= List.fold_left fadd (pqc_credit_impacts a w).*2 y)%Q.
Proof.
  intros Hx Hxy. pose proof (rk_pqc _ _ Hr) as Hp. pose proof (Hw "agility_pqc_hybrid_bonus") as H0.
  unfold pqc_seen in Hp. unfold pqc_credit_impacts.
  destruct ((0 <? i_pqc_hybrid b) || (0 <? i_pqc_cert b)); [rewrite Hp by done|].
  - apply fadd_mono; [done|lra].
  - destruct ((0 <? i_pqc_hybrid a) || (0 <? i_pqc_cert a)); simpl; [|done].
    by apply fadd_nonneg.
Qed.

Lemma agility_mono :
  fst (apply_weighted_impacts (agility_impacts b w) CAP) <= fst (apply_weighted_impacts (agility_impacts a w) CAP).
Proof.
  apply apply_weighted_impacts_mono. unfold agility_impacts, fsum.
  rewrite !fmap_app, !List.fold_left_app.
  apply fold_fadd_mono.
  - apply pqc_part_mono.
    + apply fold_fadd_representable, fold_fadd_representable. by apply (representable_int 0).
    + apply key_part_mono.
      * apply fold_fadd_representable. by apply (representable_int 0).
      * apply fold_fadd_mono; [lra|].
        repeat constructor. apply penalty_mono; [apply Hw|by auto with quirk].
  - repeat constructor; (apply penalty_mono; [apply Hw|by auto with quirk]).
Qed.
End Risk.

(** * The headline *)

Lemma sum_Z_fold l a : List.fold_left Z.add l a = a + sum_Z l.
Proof.
  unfold sum_Z. revert a. induction l as [|x l IH]; intros a; cbn [List.fold_left]; [lia|].
  rewrite IH, (IH (0 + x)). lia.
Qed.

Lemma sum_Z_cons x l : sum_Z (x :: l) = x + sum_Z l.
Proof. unfold sum_Z at 1. simpl. apply sum_Z_fold. Qed.

Lemma sum_Z_range l : Forall (fun s => 0 <= s <= 25) l -> 0 <= sum_Z l <= Z.of_nat (length l) * 25.
Proof.
  induction 1 as [|s l Hs _ IH]; [done|]. rewrite sum_Z_cons. simpl length. lia.
Qed.

Lemma sum_Z_mono l k : Forall2 Z.le l k -> sum_Z l <= sum_Z k.
Proof. induction 1 as [|x y l k H _ IH]; [done|]. rewrite !sum_Z_cons. lia. Qed.

Lemma int_truediv_mono a b d : 0 < d -> a <= b -> (int_truediv a d <= int_truediv b d)%Q.
Proof.
  intros Hd H. unfold int_truediv. apply rnd_mono. unfold Qdiv.
  apply Qmult_le_compat_r; [by rewrite <- Zle_Qle|].
  apply Qlt_le_weak, Qinv_lt_0_compat. change 0%Q with (inject_Z 0). by rewrite <- Zlt_Qlt.
Qed.

Lemma int_truediv_self d : 0 < d -> int_truediv d d = 1%Q.
Proof.
  intros Hd. unfold int_truediv. change 1%Q with (rnd 1). apply rnd_proper.
  field. change 0%Q with (inject_Z 0). rewrite inject_Z_injective. lia.
Qed.

Lemma int_truediv_0 d : int_truediv 0 d = 0%Q.
Proof. unfold int_truediv. transitivity (rnd 0); [by apply rnd_proper|reflexivity]. Qed.

Lemma computed_score_range scores :
  scores <> [] -> Forall (fun s => 0 <= s <= 25) scores -> 0 <= computed_score scores <= 100.
Proof.
  intros Hne Hs. pose proof (sum_Z_range _ Hs) as [H0 H1].
  assert (Hn : 0 < Z.of_nat (length scores) * 25) by (destruct scores; [done|simpl length; lia]).
  set (d := Z.of_nat (length scores) * 25) in *. unfold computed_score. fold d.
  apply rne_bounds.
  assert (L : (0 <= int_truediv (sum_Z scores) d)%Q)
    by (rewrite <- (int_truediv_0 d); by apply int_truediv_mono).
  assert (U : (int_truediv (sum_Z scores) d <= 1)%Q)
    by (rewrite <- (int_truediv_self d) by done; by apply int_truediv_mono).
  split.
  - apply fmul_nonneg; [done|lra].
  - change (inject_Z 100) with (fmul 1 100). apply fmul_mono_l; [lra|done].
Qed.

Lemma computed_score_mono l k :
  Forall2 Z.le l k -> l <> [] -> computed_score l <= computed_score k.
Proof.
  intros H Hne. unfold computed_score. rewrite <- (Forall2_length _ _ _ H).
  apply rne_mono, fmul_mono_l; [lra|].
  apply int_truediv_mono; [destruct l; [done|simpl length; lia]|]. by apply sum_Z_mono.
Qed.

(** The ceiling as a number, 100 when none binds. *)
Definition ceiling_value (i : inputs) : Z :=
  match binding_ceiling i with Some (c, _) => c | None => 100 end.

Lemma ceiling_value_eq i :
  ceiling_value i =
    if 5 <=? i_critical i then 25 else if 1 <=? i_critical i then 34
    else if 3 <=? i_high i then 54 else if 1 <=? i_high i then 69
    else if 0 <? i_pqc_hybrid i then 100 else 84.
Proof.
  unfold ceiling_value, binding_ceiling, consequence_ceiling, pqc_readiness_ceiling.
  change DEEP_CRITICAL_COUNT with 5. change DEEP_CRITICAL_CEILING with 25.
  change (top_of_band "POOR") with 34. change (top_of_band "FAIR") with 54.
  change (top_of_band "MODERATE") with 69. change (top_of_band "GOOD") with 84.
  destruct (5 <=? i_critical i), (1 <=? i_critical i), (3 <=? i_high i), (1 <=? i_high i),
    (0 <? i_pqc_hybrid i); reflexivity.
Qed.

Lemma ceiling_value_range i : 25 <= ceiling_value i <= 100.
Proof. rewrite ceiling_value_eq. split_ifs; lia. Qed.

Lemma compress_eq i s :
  0 <= s <= 100 -> compress (binding_ceiling i) s = rne (int_truediv (ceiling_value i * s) 100).
Proof.
  intros Hs. unfold compress, ceiling_value. destruct (binding_ceiling i) as [[c why]|]; [done|].
  unfold int_truediv. rewrite (rnd_proper _ (inject_Z s)).
  - by rewrite rnd_small_int, rne_inject by lia.
  - rewrite inject_Z_mult. field.
Qed.

Lemma compress_range i s :
  0 <= s <= 100 -> 0 <= compress (binding_ceiling i) s <= ceiling_value i.
Proof.
  intros Hs. pose proof (ceiling_value_range i) as Hc. rewrite compress_eq by done.
  set (c := ceiling_value i) in *. apply rne_bounds. split.
  - change (inject_Z 0) with 0%Q. rewrite <- (int_truediv_0 100). apply int_truediv_mono; nia.
  - apply Qle_trans with (int_truediv (c * 100) 100); [apply int_truediv_mono; nia|].
    unfold int_truediv. rewrite (rnd_proper _ (inject_Z c)).
    + rewrite rnd_small_int by lia. lra.
    + rewrite inject_Z_mult. field.
Qed.

Lemma compress_mono i j s t :
  0 <= s <= 100 -> 0 <= t <= 100 -> s <= t -> ceiling_value i <= ceiling_value j ->
  compress (binding_ceiling i) s <= compress (binding_ceiling j) t.
Proof.
  intros Hs Ht Hst Hc. pose proof (ceiling_value_range i). pose proof (ceiling_value_range j).
  rewrite !compress_eq by done. apply rne_mono, int_truediv_mono; [lia|]. nia.
Qed.

Lemma ceiling_value_antitone a b : riskier a b -> ceiling_value b <= ceiling_value a.
Proof.
  intros H. rewrite !ceiling_value_eq.
  pose proof (rk_critical _ _ H). pose proof (rk_high _ _ H). pose proof (rk_pqc_hybrid _ _ H).
  repeat match goal with
  | |- context [?x <=? ?y] => destruct (Z.leb_spec x y)
  | |- context [?x <? ?y] => destruct (Z.ltb_spec x y)
  end; lia.
Qed.

(** The score a list of assessed subscores leads to. *)
Definition final_score (i : inputs) (scores : list Z) : Z :=
  compress (binding_ceiling i) (computed_score scores).

Lemma band_poor s : s <= 34 -> band_for_score s = "POOR".
Proof.
  intros H. unfold band_for_score.
  change (threshold "EXCELLENT") with 85. change (threshold "GOOD") with 70.
  change (threshold "MODERATE") with 55. change (threshold "FAIR") with 35.
  repeat match goal with |- context [?a <=? ?b] => destruct (Z.leb_spec a b) end; done || lia.
Qed.

(** The headline never raises, and the severity cap never changes the band. *)
Lemma headline_assessed i scores :
  scores <> [] -> Forall (fun s => 0 <= s <= 25) scores ->
  exists reason divisor,
    headline i scores =
      Ok (Some (final_score i scores), band_for_score (final_score i scores), reason, divisor).
Proof.
  intros Hne Hs. unfold headline. destruct scores as [|s0 l] eqn:E; [done|]. rewrite <- E in *.
  pose proof (compress_range i _ (computed_score_range scores Hne Hs)) as Hr.
  fold (final_score i scores) in *. unfold rating_of.
  rewrite cap_band_table by apply band_for_score_in.
  destruct (Z.leb_spec (i_critical i) 0) as [Hc|Hc]; cbn [pbind]; [eauto|].
  rewrite ceiling_value_eq in Hr. rewrite (proj2 (Z.leb_le 1 (i_critical i))) in Hr by lia.
  rewrite (band_poor (final_score i scores)) by (destruct (5 <=? i_critical i); lia).
  change (band_rank "POOR" <? 3)%nat with false. cbn match. eauto.
Qed.

Lemma category_scores_range i w : Forall (fun c => 0 <= c_score c <= 25) (category_table i w).
Proof.
  unfold category_table, mk_category.
  repeat (apply Forall_cons_2 || apply Forall_nil_2);
    (match goal with |- context [apply_weighted_impacts ?l CAP] =>
       pose proof (apply_weighted_impacts_range l) as H; destruct (apply_weighted_impacts l CAP) end);
    exact H.
Qed.

Lemma filter_Forall {A} (P : A -> Prop) f l : Forall P l -> Forall P (List.filter f l).
Proof. induction 1 as [|x l Hx _ IH]; simpl; [constructor|]. destruct (f x); [by constructor|done]. Qed.

Lemma assessed_scores_range i w : Forall (fun s => 0 <= s <= 25) (assessed_scores (category_table i w)).
Proof.
  unfold assessed_scores. apply Forall_fmap, filter_Forall, category_scores_range.
Qed.

(** What [score_inputs] returns: it never raises. *)
Lemma score_inputs_spec i w :
  let scores := assessed_scores (category_table i w) in
  exists r, score_inputs i w = Ok r
    /\ r_score r = match scores with [] => None | _ => Some (final_score i scores) end
    /\ r_rating r = match scores with [] => "NOT_ASSESSED" | _ => band_for_score (final_score i scores) end
    /\ r_subscores r = subscores (category_table i w)
    /\ r_drivers r = top_drivers (category_table i w)
    /\ r_domains_assessed r = Z.of_nat (length scores)
    /\ r_domains_total r = 6.
Proof.
  intros scores. unfold score_inputs. fold scores.
  destruct scores as [|s0 l] eqn:E.
  - simpl. eexists. split; [reflexivity|]. simpl. done.
  - destruct (headline_assessed i scores) as (reason & divisor & H).
    + by rewrite E.
    + apply assessed_scores_range.
    + rewrite E in H. rewrite H. cbn [pbind]. eexists. split; [reflexivity|]. simpl. done.
Qed.
