(* ===== verification/ScoringProps.v ===== *)
(** The contract of the readiness score ([Scoring.compute_readiness_score]).

    The claims are stated on the whole function, for every evidence dictionary
    and every profile; their proofs apply the lemmas of [ScoringTheory]. *)
From Stdlib Require Import ZArith QArith Lia Lqa Ascii.
From stdpp Require Import base tactics sets strings list pretty.
From S2P Require Import Prelude PyFloat PyVal Bands Scoring ScoringTheory.

Local Open Scope Z_scope.

(** Sample evidence: one assessed endpoint, with the given counters. *)
Definition sample_evidence (counters : pydict) : pydict :=
  [("totals", VDict [("endpoints", VInt 4)]); ("assessable_endpoint_count", VInt 3);
   ("protocol_counts", VDict [("TLS", VInt 3)])] ++ counters.

Definition severities (critical high : Z) : string * pyval :=
  ("scored_finding_severity_counts", VDict [("CRITICAL", VInt critical); ("HIGH", VInt high)]).

(** * Totality and bounds *)

(** What one call returns, for a result that is present. *)
Definition within_bounds (r : score_result) : Prop :=
  r_domains_total r = 6 /\ 0 <= r_domains_assessed r <= 6 /\
  (r_score r = None <-> r_domains_assessed r = 0) /\
  (r_score r = None <-> r_rating r = "NOT_ASSESSED") /\
  (forall s, r_score r = Some s -> 0 <= s <= 100) /\
  length (r_subscores r) = 6%nat /\
  Forall (fun sub => forall s, sub.2 = Some s -> 0 <= s <= 25) (r_subscores r).

Lemma subscores_range table :
  Forall (fun c => 0 <= c_score c <= 25) table ->
  Forall (fun sub => forall s, sub.2 = Some s -> 0 <= s <= 25) (subscores table).
Proof.
  intros H. unfold subscores. apply Forall_fmap. eapply Forall_impl; [exact H|].
  intros c Hc s. simpl. destruct (c_assessed c); [by intros [= <-]|done].
Qed.

Lemma final_score_range i scores :
  scores <> [] -> Forall (fun s => 0 <= s <= 25) scores ->
  0 <= final_score i scores <= ceiling_value i.
Proof. intros Hne Hs. by apply compress_range, computed_score_range. Qed.

(** A result with a headline: the score its domains lead to, under its ceiling. *)
Lemma score_inputs_some i w r s :
  score_inputs i w = Ok r -> r_score r = Some s ->
  assessed_scores (category_table i w) <> [] /\
  s = final_score i (assessed_scores (category_table i w)) /\
  0 <= s <= ceiling_value i /\ r_rating r = band_for_score s.
Proof.
  intros Hr Hs. destruct (score_inputs_spec i w) as (r' & Hr' & Hs' & Hb & _).
  rewrite Hr' in Hr. injection Hr as ->. rewrite Hs in Hs'.
  pose proof (final_score_range i (assessed_scores (category_table i w))) as Hf.
  destruct (assessed_scores (category_table i w)) as [|s0 l] eqn:E; [done|].
  injection Hs' as ->. split; [done|]. split; [done|]. split; [|done].
  apply Hf; [done|]. rewrite <- E. apply assessed_scores_range.
Qed.

Lemma band_for_score_assessed s : band_for_score s <> "NOT_ASSESSED".
Proof. unfold band_for_score. split_ifs; done. Qed.

Lemma filter_length_le {A} (f : A -> bool) l : (length (List.filter f l) <= length l)%nat.
Proof. induction l as [|x l IH]; simpl; [lia|]. destruct (f x); simpl; lia. Qed.

Lemma assessed_scores_length table : (length (assessed_scores table) <= length table)%nat.
Proof. unfold assessed_scores. rewrite length_fmap. apply filter_length_le. Qed.


(** * Consequence ceilings *)

(** The highest headline a scored CRITICAL/HIGH count and the absence of
    post-quantum key exchange leave open. *)
Definition consequence_bound (critical high pqc : Z) : Z :=
  if 5 <=? critical then 25 else if 1 <=? critical then 34
  else if 3 <=? high then 54 else if 1 <=? high then 69
  else if 0 <? pqc then 100 else 84.

(** C6: five open CRITICAL findings hold the headline at 25 or less, one holds
    it inside POOR, three HIGH inside FAIR, one HIGH inside MODERATE, and no
    post-quantum key exchange below EXCELLENT, whatever the weights. *)
Theorem consequence_ceilings_hold evidence profile overrides r s :
  compute_readiness_score evidence profile overrides = Ok r -> r_score r = Some s ->
  s <= consequence_bound
         (count_of (scored_severity_counts evidence) "CRITICAL")
         (count_of (scored_severity_counts evidence) "HIGH")
         (count_of evidence "pqc_hybrid_endpoint_count").
Proof.
  intros Hr Hs. destruct (score_inputs_some _ _ _ _ Hr Hs) as (_ & _ & H & _).
  rewrite ceiling_value_eq in H. cbn [read_inputs i_critical i_high i_pqc_hybrid] in H.
  unfold consequence_bound. lia.
Qed.

Lemma consequence_ceilings_hold_witness :
  exists r s,
    compute_readiness_score (sample_evidence [severities 2 1]) (Some "strict") [] = Ok r
    /\ r_score r = Some s /\ s <= 34.
Proof.
  eexists _, _. split; [vm_compute; reflexivity|]. split; [reflexivity|].
  apply (consequence_ceilings_hold (sample_evidence [severities 2 1]) (Some "strict") []
           _ _ ltac:(vm_compute; reflexivity) eq_refl).
Defined.

(** * Rating *)

(** The rating is the numeric band of the headline: the separate severity
    cap on the band never changes it, because the ceiling has already put the
    score there; in particular an open CRITICAL finding always rates POOR. *)
Theorem rating_is_band_of_score evidence profile overrides r s :
  compute_readiness_score evidence profile overrides = Ok r -> r_score r = Some s ->
  r_rating r = band_for_score s /\
  cap_band_for_severity (band_for_score s) (count_of (scored_severity_counts evidence) "CRITICAL")
    = Ok (r_rating r) /\
  (0 < count_of (scored_severity_counts evidence) "CRITICAL" -> r_rating r = "POOR").
Proof.
  intros Hr Hs. destruct (score_inputs_some _ _ _ _ Hr Hs) as (_ & _ & H & ->).
  set (i := read_inputs evidence) in *. rewrite ceiling_value_eq in H.
  change (count_of (scored_severity_counts evidence) "CRITICAL") with (i_critical i).
  assert (Hpoor : 0 < i_critical i -> band_for_score s = "POOR").
  { intros Hc. apply band_poor.
    rewrite (proj2 (Z.leb_le 1 (i_critical i))) in H by lia. destruct (5 <=? i_critical i); lia. }
  split; [done|]. split; [|exact Hpoor].
  rewrite cap_band_table by apply band_for_score_in.
  destruct (Z.leb_spec (i_critical i) 0); [done|]. by rewrite Hpoor.
Qed.

Lemma rating_is_band_of_score_witness :
  exists r s,
    compute_readiness_score (sample_evidence [severities 1 0]) None [] = Ok r
    /\ r_score r = Some s /\ r_rating r = "POOR".
Proof.
  eexists _, _. split; [vm_compute; reflexivity|]. split; [reflexivity|].
  apply (rating_is_band_of_score (sample_evidence [severities 1 0]) None []
           _ _ ltac:(vm_compute; reflexivity) eq_refl). vm_compute; reflexivity.
Defined.

(** * Monotonicity *)

(** Two categories of one row, compared. *)
Definition category_le (c d : category) : Prop :=
  c_assessed c = c_assessed d /\ c_score c <= c_score d.

Lemma mk_category_le name x y p q :
  p = q -> fst (apply_weighted_impacts x CAP) <= fst (apply_weighted_impacts y CAP) ->
  category_le (mk_category name x p) (mk_category name y q).
Proof.
  intros -> H. unfold mk_category, category_le.
  destruct (apply_weighted_impacts x CAP), (apply_weighted_impacts y CAP). done.
Qed.

Lemma category_table_mono w a b :
  weights_nonneg w -> riskier a b ->
  wget w "agility_rsa_only_penalty" = wget w "agility_unverified_key_type_penalty" ->
  Forall2 category_le (category_table b w) (category_table a w).
Proof.
  intros Hw Hr Hk. unfold category_table.
  apply Forall2_cons; split; [apply mk_category_le; [exact (rk_endpoints _ _ Hr)|exact (hygiene_mono w a b Hw Hr)]|].
  apply Forall2_cons; split; [apply mk_category_le; [exact (rk_endpoints _ _ Hr)|exact (modern_tls_mono w a b Hw Hr)]|].
  apply Forall2_cons; split; [apply mk_category_le; [exact (rk_identity _ _ Hr)|exact (identity_mono w a b Hw Hr)]|].
  apply Forall2_cons; split; [apply mk_category_le; [exact (rk_endpoints _ _ Hr)|exact (agility_mono w a b Hw Hr Hk)]|].
  apply Forall2_cons; split; [apply mk_category_le; [exact (rk_dar _ _ Hr)|exact (dar_mono w a b Hw Hr)]|].
  apply Forall2_cons; split; [apply mk_category_le; [exact (rk_motion _ _ Hr)|exact (motion_mono w a b Hw Hr)]|].
  apply Forall2_nil_2.
Qed.

Lemma assessed_scores_mono t u :
  Forall2 category_le t u ->
  Forall2 Z.le (assessed_scores t) (assessed_scores u).
Proof.
  unfold assessed_scores. induction 1 as [|c d t u [Ha Hs] _ IH]; simpl; [constructor|].
  rewrite <- Ha. destruct (c_assessed c); [by constructor|done].
Qed.

Lemma final_score_mono i j l k :
  ceiling_value i <= ceiling_value j -> l <> [] ->
  Forall (fun s => 0 <= s <= 25) l -> Forall (fun s => 0 <= s <= 25) k ->
  Forall2 Z.le l k -> final_score i l <= final_score j k.
Proof.
  intros Hc Hne Hl Hk H. unfold final_score.
  assert (k <> []) by (inversion H; subst; done).
  apply compress_mono; auto using computed_score_range, computed_score_mono.
Qed.

(** C1: no weakness ever raises the score. Under every profile, evidence with
    counters at least as bad, no credit the other lacks and the same assessed
    domains scores at most as high. *)
Theorem score_monotone_in_risk e1 e2 profile r1 r2 s1 s2 :
  riskier (read_inputs e1) (read_inputs e2) ->
  compute_readiness_score e1 profile [] = Ok r1 -> r_score r1 = Some s1 ->
  compute_readiness_score e2 profile [] = Ok r2 -> r_score r2 = Some s2 ->
  s2 <= s1.
Proof.
  intros Hr H1 S1 H2 S2.
  destruct (score_inputs_some _ _ _ _ H1 S1) as (Hne1 & -> & _).
  destruct (score_inputs_some _ _ _ _ H2 S2) as (Hne2 & -> & _).
  change (resolve_weights profile []) with (profile_weights profile) in *.
  apply final_score_mono; auto using ceiling_value_antitone, assessed_scores_range.
  apply assessed_scores_mono, category_table_mono;
    auto using profile_weights_nonneg, profile_key_penalties_equal.
Qed.

Lemma score_monotone_in_risk_witness :
  let e1 := sample_evidence [severities 0 1] in
  let e2 := sample_evidence [severities 0 3; ("plaintext_http_count", VInt 5)] in
  exists r1 r2 s1 s2,
    compute_readiness_score e1 (Some "lenient") [] = Ok r1 /\ r_score r1 = Some s1 /\
    compute_readiness_score e2 (Some "lenient") [] = Ok r2 /\ r_score r2 = Some s2 /\ s2 <= s1.
Proof.
  intros e1 e2. eexists _, _, _, _.
  split; [vm_compute; reflexivity|]. split; [reflexivity|].
  split; [vm_compute; reflexivity|]. split; [reflexivity|].
  apply (score_monotone_in_risk e1 e2 (Some "lenient") _ _ _ _
           ltac:(constructor; vm_compute; intros; congruence)
           ltac:(vm_compute; reflexivity) eq_refl ltac:(vm_compute; reflexivity) eq_refl).
Defined.

(** * Population independence *)

(** [same_findings e f]: the two evidence dictionaries differ at most in how
    many endpoints were scanned: the totals, the assessable endpoint count and
    the per-protocol counts, of which only the UNKNOWN count and the
    assessed predicates must agree. *)
Definition population_key (k : string) : bool :=
  str_in k ["totals"; "assessable_endpoint_count"; "protocol_counts"].

Definition assessed_identity (e : pydict) : bool :=
  identity_assessed (sub_mapping e "certificate_observations") (sub_mapping e "protocol_counts")
    (count_of e "kerberos_placeholder_count") (count_of e "kerberos_scan_error_count").

Record same_findings (e f : pydict) : Prop := {
  sf_get : forall k, population_key k = false ->
             dict_get e k = dict_get f k;
  sf_unknown : count_of (sub_mapping e "protocol_counts") "UNKNOWN"
             = count_of (sub_mapping f "protocol_counts") "UNKNOWN";
  sf_endpoints : endpoints_assessed (endpoint_denom e) = endpoints_assessed (endpoint_denom f);
  sf_identity : assessed_identity e = assessed_identity f;
  sf_dar : dar_assessed (sub_mapping e "protocol_counts") = dar_assessed (sub_mapping f "protocol_counts");
  sf_motion : motion_assessed (sub_mapping e "protocol_counts")
            = motion_assessed (sub_mapping f "protocol_counts")
}.

#[export] Instance same_findings_equivalence : Equivalence same_findings.
Proof.
  split.
  - intros e. by constructor.
  - intros e f []. constructor; auto using eq_sym.
  - intros e f g [] []. constructor; try congruence.
    intros k Hk. transitivity (dict_get f k); auto.
Qed.

#[export] Instance read_inputs_proper : Proper (same_findings ==> eq) read_inputs.
Proof.
  intros e f H.
  destruct H as [Hget Hunk Hep Hid Hdar Hmot].
  assert (G : forall k d, population_key k = false ->
              get_or e k d = get_or f k d)
    by (intros k d Hk; unfold get_or; by rewrite Hget).
  assert (C : forall k, population_key k = false ->
              count_of e k = count_of f k)
    by (intros k Hk; unfold count_of; by rewrite G).
  assert (R : forall k, population_key k = false ->
              raw_count e k = raw_count f k)
    by (intros k Hk; unfold raw_count; by rewrite G).
  assert (M : forall k, population_key k = false ->
              sub_mapping e k = sub_mapping f k)
    by (intros k Hk; unfold sub_mapping; by rewrite Hget).
  assert (V : scored_severity_counts e = scored_severity_counts f)
    by (unfold scored_severity_counts; rewrite Hget by reflexivity;
        by rewrite M by reflexivity).
  unfold assessed_identity in Hid. unfold read_inputs. rewrite V, Hunk, Hep, Hid, Hdar, Hmot.
  repeat match goal with
  | |- context [count_of e ?k] => rewrite (C k) by (vm_compute; reflexivity)
  | |- context [raw_count e ?k] => rewrite (R k) by (vm_compute; reflexivity)
  | |- context [sub_mapping e ?k] => rewrite (M k) by (vm_compute; reflexivity)
  | |- context [get_or e ?k _] => rewrite (G k) by (vm_compute; reflexivity)
  end.
  reflexivity.
Qed.

(** The score ignores the size of the scanned population: two scans with
    the same findings and the same assessed domains get the same result, so
    adding healthy endpoints neither dilutes a weakness nor raises the score. *)
Theorem score_ignores_population e f profile overrides :
  same_findings e f ->
  compute_readiness_score e profile overrides = compute_readiness_score f profile overrides.
Proof. intros H. unfold compute_readiness_score. by rewrite H. Qed.

(** Evidence of [m] assessable TLS endpoints out of [n], one serving plaintext HTTP. *)
Definition estate (n m : Z) : pydict :=
  [("totals", VDict [("endpoints", VInt n)]); ("assessable_endpoint_count", VInt m);
   ("protocol_counts", VDict [("TLS", VInt m)]); ("plaintext_http_count", VInt 1)].

Lemma estate_get n m n' m' k : population_key k = false -> dict_get (estate n m) k = dict_get (estate n' m') k.
Proof.
  intros Hk. apply bool_decide_eq_false in Hk. unfold estate, dict_get. cbn [alookup].
  rewrite !(proj2 (str_eqb_neq _ k)) by set_solver. reflexivity.
Qed.

Lemma score_ignores_population_witness :
  compute_readiness_score (estate 2 1) None [] = compute_readiness_score (estate 5000 4000) None [].
Proof.
  apply score_ignores_population.
  constructor; [apply estate_get|vm_compute; reflexivity..].
Defined.

(** * Drivers *)

Lemma driver_leb_total a b : driver_leb a b = true \/ driver_leb b a = true.
Proof.
  unfold driver_leb. rewrite !orb_true_iff, !andb_true_iff, !Z.ltb_lt, !Z.eqb_eq.
  destruct (str_leb_total a.1 b.1); destruct (Z.lt_total (Z.abs a.2) (Z.abs b.2)) as [|[|]]; auto 6.
Qed.

Lemma driver_leb_trans a b c : driver_leb a b = true -> driver_leb b c = true -> driver_leb a c = true.
Proof.
  unfold driver_leb. rewrite !orb_true_iff, !andb_true_iff, !Z.ltb_lt, !Z.eqb_eq.
  intros [H|[H1 H2]] [K|[K1 K2]]; [left; lia..|]. right. split; [lia|]. by eapply str_leb_trans.
Qed.

(** A driver comes from an assessed category, with non-zero points. *)
Lemma all_drivers_spec i w d :
  d ∈ all_drivers (category_table i w) ->
  d.2 <> 0 /\ exists c, c ∈ category_table i w /\ c_assessed c = true /\ d ∈ c_drivers c.
Proof.
  intros H. unfold all_drivers in H.
  apply list_elem_of_In, in_flat_map in H as (c & Hc & Hd).
  apply filter_In in Hc as [Hc Ha]. apply list_elem_of_In in Hc, Hd.
  split; [|eauto].
  assert (N : forall ims n ok, d ∈ c_drivers (mk_category n ims ok) -> d.2 <> 0).
  { intros ims n ok. unfold mk_category, apply_weighted_impacts. simpl.
    rewrite list_elem_of_In, filter_In, negb_true_iff, Z.eqb_neq. tauto. }
  unfold category_table in Hc.
  repeat (apply elem_of_cons in Hc as [->|Hc]; [by eapply N|]). by apply not_elem_of_nil in Hc.
Qed.

(** The drivers of a result are the (at most five) largest impacts of the
    assessed categories, by decreasing magnitude and then by label: every one
    moves an assessed domain by a non-zero number of points, and none left out
    precedes one that is listed. *)
Theorem drivers_are_top_impacts evidence profile overrides r :
  compute_readiness_score evidence profile overrides = Ok r ->
  exists rest,
    r_drivers r ++ rest
      ≡ₚ all_drivers (category_table (read_inputs evidence) (resolve_weights profile overrides)) /\
    (length (r_drivers r) <= 5)%nat /\ (rest <> [] -> length (r_drivers r) = 5%nat) /\
    sorted_by driver_leb (r_drivers r) /\
    (forall d e, d ∈ r_drivers r -> e ∈ rest -> driver_leb d e = true) /\
    (forall d, d ∈ r_drivers r -> d.2 <> 0 /\
       exists c, c ∈ category_table (read_inputs evidence) (resolve_weights profile overrides) /\
         c_assessed c = true /\ d ∈ c_drivers c).
Proof.
  unfold compute_readiness_score. intros Hr.
  set (i := read_inputs evidence) in *. set (w := resolve_weights profile overrides) in *.
  destruct (score_inputs_spec i w) as (r' & Hr' & _ & _ & _ & Hd & _).
  rewrite Hr' in Hr. injection Hr as ->. rewrite Hd. unfold top_drivers.
  set (l := py_sorted driver_leb _).
  assert (Hs : sorted_by driver_leb l) by (apply py_sorted_sorted; [apply driver_leb_total|apply driver_leb_trans]).
  exists (drop 5 l). split; [rewrite take_drop; apply py_sorted_perm|].
  split; [rewrite length_take; lia|]. split.
  { intros Hne. rewrite length_take. destruct (Nat.le_gt_cases (length l) 5); [|lia].
    by rewrite drop_ge in Hne. }
  split; [by apply sorted_by_take|]. split.
  - intros d e H H'. apply list_elem_of_lookup in H as [n Hn], H' as [m Hm].
    apply lookup_take_Some in Hn as [Hn ?]. rewrite lookup_drop in Hm. apply (Hs n (5 + m)%nat); [lia|done..].
  - intros d H. apply all_drivers_spec. rewrite <- (py_sorted_perm driver_leb).
    by eapply elem_of_take in H as (? & ? & _); eapply list_elem_of_lookup_2.
Qed.

Lemma drivers_are_top_impacts_witness :
  exists r, compute_readiness_score (estate 2 1) None [] = Ok r /\
    r_drivers r = [("Plaintext HTTP exposure", -3)] /\ sorted_by driver_leb (r_drivers r).
Proof.
  eexists. split; [vm_compute; reflexivity|]. split; [reflexivity|].
  destruct (drivers_are_top_impacts (estate 2 1) None [] _ ltac:(vm_compute; reflexivity))
    as (rest & _ & _ & _ & Hs & _). exact Hs.
Defined.
