(* ===== verification/Model.v ===== *)
(** The rows the intelligence layer works on.

    [CryptoEndpoint] ([src/quirk/models.py]) as a record of its columns, a
    nullable column as an option; the finding dictionaries the evaluators emit,
    as a record of the keys the modelled code reads; [datetime] values; and the
    dashboard-to-CLI title bridge ([src/quirk/dashboard/api/finding_title_bridge.py]). *)
From Stdlib Require Import ZArith Lia Ascii.
From stdpp Require Import base tactics sets strings list pretty.
From S2P Require Import Prelude PyVal.

Local Open Scope Z_scope.

(** * Instants

    A [datetime]: its wall clock in microseconds since 1970-01-01T00:00:00, and
    its UTC offset when it is timezone-aware. *)
Record datetime := { dt_wall : Z; dt_offset : option Z }.

Definition naive (us : Z) : datetime := {| dt_wall := us; dt_offset := None |}.

(** [_as_utc_naive]: the UTC wall clock of an aware value, a naive value as it is. *)
Definition as_utc_naive (d : datetime) : Z := dt_wall d - default 0 (dt_offset d).

Definition US_PER_DAY : Z := 86400000000.

(** The civil date of a day number (days since 1970-01-01), proleptic Gregorian. *)
Definition civil_of_days (days : Z) : Z * Z * Z :=
  let z := days + 719468 in
  let era := z / 146097 in
  let doe := z - era * 146097 in
  let yoe := (doe - doe / 1460 + doe / 36524 - doe / 146096) / 365 in
  let doy := doe - (365 * yoe + yoe / 4 - yoe / 100) in
  let mp := (5 * doy + 2) / 153 in
  let d := doy - (153 * mp + 2) / 5 + 1 in
  let m := if mp <? 10 then mp + 3 else mp - 9 in
  (yoe + era * 400 + (if m <=? 2 then 1 else 0), m, d).

(** [f"{n:0{width}d}"] for a non-negative number. *)
Fixpoint zeros (n : nat) : string :=
  match n with O => EmptyString | S n' => String "0"%char (zeros n') end.

Definition zpad (width : nat) (n : Z) : string :=
  let s := pretty n in zeros (width - String.length s) +:+ s.

(** [isoformat()] of a naive value. *)
Definition isoformat (us : Z) : string :=
  let '(y, m, d) := civil_of_days (us / US_PER_DAY) in
  let t := us mod US_PER_DAY in
  let s := t / 1000000 in
  zpad 4 y +:+ "-" +:+ zpad 2 m +:+ "-" +:+ zpad 2 d +:+ "T" +:+
  zpad 2 (s / 3600) +:+ ":" +:+ zpad 2 (s / 60 mod 60) +:+ ":" +:+ zpad 2 (s mod 60) +:+
  (if t mod 1000000 =? 0 then EmptyString else "." +:+ zpad 6 (t mod 1000000)).

Definition to_iso_z (us : Z) : string := isoformat us +:+ "Z".

(** [stamp_utc_iso] of a stored instant. *)
Definition stamp_utc_iso (value : option Z) : option string := (fun us => isoformat us +:+ "+00:00") <$> value.

(** * Endpoints *)

Record CryptoEndpoint := {
  ep_host : string;
  ep_port : Z;
  ep_protocol : option string;
  ep_scanned_at : option datetime;
  ep_tls_version : option string;
  ep_cipher_suite : option string;
  ep_cert_subject : option string;
  ep_cert_issuer : option string;
  ep_cert_sig_alg : option string;
  ep_cert_pubkey_alg : option string;
  ep_cert_pubkey_size : option Z;
  ep_cert_spki_fingerprint : option string;
  ep_cert_not_after : option datetime;
  ep_scan_error : option string;
  ep_tls_blocker_reason : option string;
  ep_service_detail : option string;
  ep_tls_supported_versions : option string;
  ep_severity : option string;
  ep_scan_run_id : option string
}.

(** An endpoint with nothing recorded beyond its address and protocol. *)
Definition bare_endpoint (host : string) (port : Z) (protocol : string) : CryptoEndpoint :=
  {| ep_host := host; ep_port := port; ep_protocol := Some protocol; ep_scanned_at := None;
     ep_tls_version := None; ep_cipher_suite := None; ep_cert_subject := None;
     ep_cert_issuer := None; ep_cert_sig_alg := None; ep_cert_pubkey_alg := None;
     ep_cert_pubkey_size := None; ep_cert_spki_fingerprint := None; ep_cert_not_after := None;
     ep_scan_error := None; ep_tls_blocker_reason := None; ep_service_detail := None;
     ep_tls_supported_versions := None; ep_severity := None; ep_scan_run_id := None |}.

(** A stored endpoint row: the columns of [CryptoEndpoint] and, by column
    name, its other text columns (the [*_json] ones and [scan_error_category])
    and its boolean columns, [None] when NULL. *)
Record endpoint_row := {
  er_ep : CryptoEndpoint;
  er_text : string -> option string;
  er_flag : string -> option bool
}.

(** [getattr(endpoint, field, None)] for the evidence columns. *)
Definition column (e : endpoint_row) (field : string) : pyval :=
  let text o := match o with Some s => VStr s | None => VNone end in
  if str_eqb field "service_detail" then text (ep_service_detail (er_ep e))
  else if str_eqb field "tls_version" then text (ep_tls_version (er_ep e))
  else text (er_text e field).

(** * Findings *)

Record finding := {
  f_title : option string;
  f_severity : option string;
  f_category : option string;
  f_host : option string;
  f_port : option Z
}.

(** [str(f.get("severity") or "INFO").upper()]. *)
Definition severity_of (f : finding) : string :=
  upper (if truthy_str (f_severity f) then str_or_empty (f_severity f) else "INFO").

Definition category_is (c : string) (f : finding) : bool :=
  match f_category f with Some x => str_eqb x c | None => false end.

(** * The title bridge *)

Definition DASHBOARD_TITLE_BRIDGE : list (string * string) :=
  [("Unencrypted HTTP service", "Plaintext HTTP service detected");
   ("Legacy TLS version: ", "Legacy TLS versions allowed (TLS 1.0/1.1)");
   ("Certificate expired", "TLS certificate expired");
   ("Certificate expiring in ", "TLS certificate expiring within 30 days");
   ("TLS certificate uses undersized RSA key", "TLS certificate uses undersized RSA key");
   ("TLS certificate is self-signed", "TLS certificate is self-signed");
   ("TLS certificate issued by untrusted CA", "TLS certificate issued by untrusted CA");
   ("JWKS fetched with TLS certificate verification disabled",
    "JWKS fetched with TLS certificate verification disabled")].

(** [sorted(table, key=len, reverse=True)]: longest key first, ties in order. *)
Definition longer_first (a b : string * string) : bool :=
  (String.length b.1 <=? String.length a.1)%nat.

Fixpoint first_prefix (title : string) (table : list (string * string)) : option string :=
  match table with
  | [] => None
  | (prefix, v) :: table' => if startswith title prefix then Some v else first_prefix title table'
  end.

Definition canonical_cli_title (dashboard_title : string) : option string :=
  first_prefix dashboard_title (py_sorted longer_first DASHBOARD_TITLE_BRIDGE).

(** The title a finding is counted under: [canonical_cli_title(raw) or raw]. *)
Definition counted_title (f : finding) : string :=
  let raw := str_or_empty (f_title f) in default raw (canonical_cli_title raw).
