(* ===== verification/Hardware.v ===== *)
(** The hardware inventory: its queries ([models_util.py]) and the catalogues
    read over it: remediation tiers ([scanner/hardware_tier.py]), end of life
    ([scanner/hardware_eol.py]), firmware CVEs ([scanner/hw_cve.py]) and the
    end-of-life forecast of the report ([scanner/hardware_forecast.py]).

    A [date] is its day number (days since 1970-01-01).  Version and date columns
    have at most 255 characters, below the interpreter's limit on digits. *)
From Stdlib Require Import ZArith Lia Ascii.
From stdpp Require Import base tactics sets strings list pretty.
From S2P Require Import Prelude PyStr PyVal.

Local Open Scope Z_scope.

(** * Hardware inventory *)

Record HardwareDevice := {
  hd_id : Z;
  hd_host : string;
  hd_port : Z;
  hd_vendor : option string;
  hd_model : option string;
  hd_pqc_status : option string;
  hd_bridge_evidence_json : option string;
  hd_probe_status : option string;
  hd_scanned_at : option Z
}.

Definition hd_key (d : HardwareDevice) : string * Z := (hd_host d, hd_port d).

(** [max(scanned_at)] over the successful rows of an address; NULL is ignored. *)
Definition max_opt (a b : option Z) : option Z :=
  match a, b with
  | Some x, Some y => Some (Z.max x y)
  | Some x, None => Some x
  | None, o => o
  end.

Definition latest_success (rows : list HardwareDevice) (key : string * Z) : option Z :=
  foldr max_opt None
    (map hd_scanned_at
      (List.filter (fun d => bool_decide (hd_probe_status d = Some "success") && bool_decide (hd_key d = key)) rows)).

(** The join keeps every row of the address at that instant. *)
Definition joined (rows : list HardwareDevice) (d : HardwareDevice) : bool :=
  match hd_scanned_at d with
  | Some t => bool_decide (latest_success rows (hd_key d) = Some t)
  | None => false
  end.

(** [by_key[key] = device] for a new key or a higher id. *)
Fixpoint keep_highest (d : HardwareDevice) (by_key : list HardwareDevice) : list HardwareDevice :=
  match by_key with
  | [] => [d]
  | d' :: rest =>
      if bool_decide (hd_key d' = hd_key d)
      then (if hd_id d' <? hd_id d then d else d') :: rest
      else d' :: keep_highest d rest
  end.

Definition latest_successful_hardware_devices (rows : list HardwareDevice) : list HardwareDevice :=
  foldl (fun by_key d => keep_highest d by_key) [] (List.filter (joined rows) rows).

(** A row with the columns the lifecycle code reads beyond those. *)
Record hw_row := {
  hr_dev : HardwareDevice;
  hr_confidence : option string;
  hr_eol_date : option Z;
  hr_tier : option string;
  hr_bridge_confirmed_at : option Z;
  hr_modbus_firmware : option string;
  hr_bacnet_firmware : option string;
  hr_is_partial_scan : option bool
}.

Definition hr_key (r : hw_row) : string * Z := hd_key (hr_dev r).
Definition hr_id (r : hw_row) : Z := hd_id (hr_dev r).
Definition hr_vendor (r : hw_row) : option string := hd_vendor (hr_dev r).

(** The instant of a row; the column is NOT NULL. *)
Definition hr_time (r : hw_row) : Z := default 0 (hd_scanned_at (hr_dev r)).

(** [ORDER BY scanned_at DESC, id DESC] *)
Definition newer_first (a b : hw_row) : bool :=
  (hr_time b <? hr_time a) || ((hr_time a =? hr_time b) && (hr_id b <=? hr_id a)).

Definition succeeded (r : hw_row) : bool := bool_decide (hd_probe_status (hr_dev r) = Some "success").

Definition recent_successful_hardware_rows (rows : list hw_row) (host : string) (port : Z) (limit : nat)
  : list hw_row :=
  take limit (py_sorted newer_first
    (List.filter (fun r => bool_decide (hr_key r = (host, port)) && succeeded r) rows)).

(** The last successful instant of a vendor at an address. *)
Definition vendor_latest (rows : list hw_row) (vendor : string) (key : string * Z) : option Z :=
  foldr max_opt None (map (fun r => hd_scanned_at (hr_dev r))
    (List.filter (fun r => succeeded r && bool_decide (hr_vendor r = Some vendor)
                           && bool_decide (hr_key r = key)) rows)).

(** The join of that subquery with the whole table. *)
Definition vendor_joined (rows : list hw_row) (vendor : string) (r : hw_row) : bool :=
  match hd_scanned_at (hr_dev r) with
  | Some t => bool_decide (vendor_latest rows vendor (hr_key r) = Some t)
  | None => false
  end.

Fixpoint keep_highest_row (r : hw_row) (by_key : list hw_row) : list hw_row :=
  match by_key with
  | [] => [r]
  | r' :: rest =>
      if bool_decide (hr_key r' = hr_key r)
      then (if hr_id r' <? hr_id r then r else r') :: rest
      else r' :: keep_highest_row r rest
  end.

Definition vendor_fleet_snapshot (rows : list hw_row) (vendor : string) (limit : nat) : list hw_row :=
  let devices := py_sorted newer_first (List.filter (vendor_joined rows vendor) rows) in
  let result := foldl (fun by_key r => keep_highest_row r by_key) [] devices in
  take limit (py_sorted newer_first result).

(** * Dates *)

(** The day number of a civil date, the inverse of [Model.civil_of_days]. *)
Definition days_of_civil (y m d : Z) : Z :=
  let y := if m <=? 2 then y - 1 else y in
  let era := y / 400 in
  let yoe := y - era * 400 in
  let mp := (m + 9) mod 12 in
  let doy := (153 * mp + 2) / 5 + d - 1 in
  let doe := yoe * 365 + yoe / 4 - yoe / 100 + doy in
  era * 146097 + doe - 719468.

(** * Tiers *)

Definition PQC_WINDOW_START : Z := days_of_civil 2030 1 1.

Definition TIER_ORDER : list (string * Z) :=
  [("Tier 1", 0); ("Tier 2", 1); ("Tier 3", 2); ("Tier N/A", 3)].

(** [(a or "unknown").lower()] *)
Definition or_unknown (o : option string) : string :=
  lower (if truthy_str o then str_or_empty o else "unknown").

Definition assign_tier (r : hw_row) : string :=
  let confidence := or_unknown (hr_confidence r) in
  let pqc_status := or_unknown (hd_pqc_status (hr_dev r)) in
  if match hr_eol_date r with Some d => d <? PQC_WINDOW_START | None => false end then "Tier N/A"
  else if str_in confidence ["low"; "unknown"] then
    (if str_eqb pqc_status "supported" then "Tier 3" else "Tier 2")
  else if str_eqb pqc_status "supported" then "Tier 3"
  else if str_eqb pqc_status "vendor-silent" then
    (if str_eqb confidence "high" then "Tier 3" else "Tier 2")
  else if str_eqb pqc_status "partial" then "Tier 2"
  else if str_eqb pqc_status "unsupported" then "Tier 1"
  else "Tier 2".

(** * End of life *)

Definition EOL_STALENESS_DAYS : Z := 365.
Definition EOL_LAST_VERIFIED : Z := days_of_civil 2026 8 14.

Definition is_eol_table_stale (today : Z) : bool := EOL_STALENESS_DAYS <? today - EOL_LAST_VERIFIED.

(** One entry: end of life and end of support, parsed. *)
Record eol_entry := { eol_date : option Z; eos_date : option Z; eol_source_url : string }.

Definition EOL_TABLE : list (string * string * eol_entry) :=
  [("F5", "BIG-IP",
    {| eol_date := Some (days_of_civil 2024 12 31); eos_date := None;
       eol_source_url := "https://techdocs.f5.com/kb/en-us/products/big-ip_ltm/releasenotes/related/relnote-supplement-bigip-15-1-10.html" |});
   ("Fortinet", "FortiGate",
    {| eol_date := Some (days_of_civil 2030 1 25); eos_date := Some (days_of_civil 2028 7 25);
       eol_source_url := "https://endoflife.date/fortios" |});
   ("Palo Alto", "PAN-OS",
    {| eol_date := Some (days_of_civil 2022 7 16); eos_date := None;
       eol_source_url := "https://docs.paloaltonetworks.com/pan-os/10-0/pan-os-release-notes/pan-os-10-0-addressed-issues/pan-os-10-0-12-h6-addressed-issues" |});
   ("Cisco", "IOS",
    {| eol_date := Some (days_of_civil 2024 7 30); eos_date := Some (days_of_civil 2023 1 30);
       eol_source_url := "https://www.cisco.com/c/en/us/products/collateral/ios-nx-os-software/ios-xe-17/ios-xe-17-6-x-eol.html" |})].

(** [TABLE.get((vendor, model))]; [None] is in no key. *)
Fixpoint table_get {V} (vendor model : option string) (t : list (string * string * V)) : option V :=
  match t with
  | [] => None
  | (v, m, x) :: t' =>
      if bool_decide (vendor = Some v) && bool_decide (model = Some m) then Some x
      else table_get vendor model t'
  end.

Record EolMatchResult := { elm_eol : option Z; elm_eos : option Z; elm_attempted : bool; elm_url : option string }.

Definition correlate_eol (vendor model : option string) : EolMatchResult :=
  match table_get vendor model EOL_TABLE with
  | None => {| elm_eol := None; elm_eos := None; elm_attempted := true; elm_url := None |}
  | Some e => {| elm_eol := eol_date e; elm_eos := eos_date e; elm_attempted := true;
                 elm_url := Some (eol_source_url e) |}
  end.

Definition APPROACHING_WINDOW_DAYS : Z := 365.

Definition eol_state (eol : option Z) (today : Z) : option string :=
  match eol with
  | None => None
  | Some d =>
      if d <? today then Some "passed"
      else if (0 <=? d - today) && (d - today <=? APPROACHING_WINDOW_DAYS) then Some "approaching"
      else None
  end.

(** * Firmware versions

    [_FW_RE] is [major.minor], then optionally [.patch], [.build], [R]release,
    (rebuild), letters or digits, and [-S]service.  Each optional group starts
    with a character the run of letters and digits cannot replace in the rest of
    the pattern, so matching greedily from the left finds what backtracking does. *)

(** The longest run of digits, as its value and the rest; [None] if empty. *)
Fixpoint take_digits (acc : Z) (s : string) : Z * string :=
  match s with
  | String c s' => if is_digit c then take_digits (10 * acc + digit_val c) s' else (acc, s)
  | EmptyString => (acc, EmptyString)
  end.

Definition number (s : string) : option (Z * string) :=
  match s with
  | String c _ => if is_digit c then Some (take_digits 0 s) else None
  | EmptyString => None
  end.

(** [(?:<open>(\d+)<close>)?]: the number and the rest, or 0 and everything. *)
Definition optional_number (opening closing : string) (s : string) : Z * string :=
  if startswith s opening then
    match number (str_drop (String.length opening) s) with
    | Some (v, rest) =>
        if startswith rest closing then (v, str_drop (String.length closing) rest) else (0, s)
    | None => (0, s)
    end
  else (0, s).

Definition is_alnum (c : Ascii.ascii) : bool := is_upper c || is_lower c || is_digit c.

Definition version := list Z.

Definition match_fw (s : string) : option version :=
  match number s with
  | Some (major, String "."%char s) =>
      match number s with
      | Some (minor, s) =>
          let '(patch, s) := optional_number "." "" s in
          let '(build, s) := optional_number "." "" s in
          let '(release, s) := optional_number "R" "" s in
          let '(rebuild, s) := optional_number "(" ")" s in
          let '(service, s) := optional_number "-S" "" (lstrip_by is_alnum s) in
          match s with
          | EmptyString => Some [major; minor; patch; build; release; rebuild; service]
          | _ => None
          end
      | None => None
      end
  | _ => None
  end.

Definition parse_firmware (raw : option string) : option version :=
  if truthy_str raw then match_fw (strip (str_or_empty raw)) else None.

(** [<] on tuples. *)
Fixpoint tuple_ltb (a b : list Z) : bool :=
  match a, b with
  | x :: a', y :: b' => (x <? y) || ((x =? y) && tuple_ltb a' b')
  | [], _ :: _ => true
  | _, [] => false
  end.

Definition in_affected_range (fw : version) (affected_before : string) : bool :=
  match parse_firmware (Some affected_before) with
  | Some boundary => tuple_ltb fw boundary
  | None => false
  end.

(** * CVEs *)

Record cve := {
  cve_id : string;
  cve_severity : string;
  cve_affected_before : option string;
  cve_published : string
}.

Definition mk_cve (id severity : string) (affected_before : option string) (published : string) : cve :=
  {| cve_id := id; cve_severity := severity; cve_affected_before := affected_before; cve_published := published |}.

Definition CVE_TABLE : list (string * string * list cve) :=
  [("Schneider Electric", "M221",
    [mk_cve "CVE-2018-7789" "HIGH" (Some "1.6.2.0") "2018-08-29";
     mk_cve "CVE-2018-7821" "HIGH" (Some "1.10.0.0") "2019-05-22"]);
   ("Cisco", "IOS",
    [mk_cve "CVE-2017-12240" "CRITICAL" (Some "15.6") "2017-09-29";
     mk_cve "CVE-2016-6382" "HIGH" (Some "15.6") "2016-10-05"]);
   ("Juniper", "Junos",
    [mk_cve "CVE-2021-0283" "HIGH" (Some "12.3R12-S19") "2021-07-15"]);
   ("Johnson Controls", "Facility Explorer",
    [mk_cve "CVE-2017-16744" "HIGH" None "2018-08-20"])].

Definition CVE_STALENESS_DAYS : Z := 30.
Definition CVE_LAST_VERIFIED : Z := days_of_civil 2026 10 29.
Definition is_cve_table_stale (today : Z) : bool := CVE_STALENESS_DAYS <? today - CVE_LAST_VERIFIED.

Definition nvd_url (id : string) : string := "https://nvd.nist.gov/vuln/detail/" +:+ id.

Definition CVE_SEVERITY_ORDER : list (string * Z) :=
  [("CRITICAL", 0); ("HIGH", 1); ("MEDIUM", 2); ("LOW", 3)].

Definition cve_rank (c : cve) : Z :=
  default (Z.of_nat (length CVE_SEVERITY_ORDER)) (alookup (cve_severity c) CVE_SEVERITY_ORDER).

Record CveMatchResult := { cm_matches : list cve; cm_confidence : option string; cm_attempted : bool }.

(** The body of the loop: the matches, whether one was by version, whether one
    was by model alone. *)
Definition match_entry (fw : option version) (st : list cve * bool * bool) (entry : cve)
  : list cve * bool * bool :=
  let '(matches, saw_high, saw_medium) := st in
  match cve_affected_before entry with
  | None => (matches ++ [entry], saw_high, true)
  | Some affected_before =>
      if match fw with Some v => in_affected_range v affected_before | None => false end
      then (matches ++ [entry], true, saw_medium)
      else st
  end.

Definition correlate_device (vendor model firmware : option string) : CveMatchResult :=
  match table_get vendor model CVE_TABLE with
  | None | Some [] => {| cm_matches := []; cm_confidence := None; cm_attempted := true |}
  | Some entries =>
      let fw := parse_firmware firmware in
      let '(matches, saw_high, saw_medium) := foldl (match_entry fw) ([], false, false) entries in
      {| cm_matches := py_sorted (fun a b => cve_rank a <=? cve_rank b) matches;
         cm_confidence := if saw_high then Some "high" else if saw_medium then Some "medium" else None;
         cm_attempted := true |}
  end.

(** [device.modbus_firmware or device.bacnet_firmware or None] *)
Definition firmware_for_correlation (r : hw_row) : option string :=
  if truthy_str (hr_modbus_firmware r) then hr_modbus_firmware r
  else if truthy_str (hr_bacnet_firmware r) then hr_bacnet_firmware r
  else None.

(** * The forecast *)

Definition FORECAST_BUCKETS : list (string * Z * option Z) :=
  [("0-3 months", 0, Some 90); ("3-6 months", 91, Some 180);
   ("6-12 months", 181, Some 365); ("12+ months", 366, None)].
Definition ALREADY_PASSED_LABEL : string := "already passed".
Definition TIER_LABEL_ORDER : list string := ["Tier 1"; "Tier 2"; "Tier 3"; "Tier N/A"].

(** A device dictionary of the report: its tier, and its end-of-life date as a
    [date] or as text. *)
Inductive raw_date := DateNone | DateValue (day : Z) | DateText (s : string).
Record forecast_device := { fd_tier : option string; fd_eol : raw_date }.

Section Forecast.
(** [date.fromisoformat], [None] where it raises. *)
Context (fromisoformat : string -> option Z).

Definition parse_eol (raw : raw_date) : option Z :=
  match raw with
  | DateNone => None
  | DateValue d => Some d
  | DateText s => fromisoformat s
  end.

Fixpoint bucket_of_days (days : Z) (buckets : list (string * Z * option Z)) : string :=
  match buckets with
  | [] => "12+ months"
  | (label, low, None) :: rest => if low <=? days then label else bucket_of_days days rest
  | (label, low, Some high) :: rest =>
      if (low <=? days) && (days <=? high) then label else bucket_of_days days rest
  end.

Definition bucket_for_eol (eol today : Z) : string :=
  if eol <? today then ALREADY_PASSED_LABEL else bucket_of_days (eol - today) FORECAST_BUCKETS.

Definition tier_counts := list (string * Z).

(** [tier_counts[tier] = tier_counts.get(tier, 0) + 1] *)
Definition bump (k : string) (counts : tier_counts) : tier_counts :=
  aset k (default 0 (alookup k counts) + 1) counts.

Definition total_of (counts : tier_counts) : Z := foldr Z.add 0 (map snd counts).

(** One device: the counts per bucket and the number of devices with a date. *)
Definition forecast_step (today : Z) (st : list (string * tier_counts) * Z) (d : forecast_device)
  : list (string * tier_counts) * Z :=
  let '(by_bucket, total) := st in
  match parse_eol (fd_eol d) with
  | None => st
  | Some eol =>
      let tier := if truthy_str (fd_tier d) then str_or_empty (fd_tier d) else "Tier N/A" in
      let label := bucket_for_eol eol today in
      (aset label (bump tier (default [] (alookup label by_bucket))) by_bucket, total + 1)
  end.

Definition tier_fragments (counts : tier_counts) : list string :=
  omap (fun tier => let n := default 0 (alookup tier counts) in
                    if n =? 0 then None else Some (pretty n +:+ " " +:+ tier)) TIER_LABEL_ORDER.

Definition bucket_sentence (label : string) (counts : tier_counts) (last_verified : string) : string :=
  let count := total_of counts in
  let tier_breakdown := str_join ", " (tier_fragments counts) in
  let citation := "based on vendor-published dates verified as of " +:+ last_verified in
  let device_word := if count =? 1 then "device" else "devices" in
  if str_eqb label ALREADY_PASSED_LABEL then
    pretty count +:+ " " +:+ device_word +:+ " (" +:+ tier_breakdown
    +:+ ") have already passed their vendor-published end-of-life date, " +:+ citation +:+ "."
  else
    pretty count +:+ " " +:+ device_word +:+ " (" +:+ tier_breakdown +:+ ") "
    +:+ (if count =? 1 then "is projected to" else "are projected to")
    +:+ " reach vendor end-of-life within " +:+ label +:+ ", " +:+ citation +:+ ".".

Record forecast_bucket := { fb_label : string; fb_count : Z; fb_tiers : tier_counts; fb_sentence : string }.
Record forecast := {
  fc_narrative : string; fc_buckets : list forecast_bucket;
  fc_catalog_last_verified : string; fc_catalog_stale : bool; fc_total : Z }.

Definition ordered_labels : list string := ALREADY_PASSED_LABEL :: map (fun b => b.1.1) FORECAST_BUCKETS.

Definition emit_bucket (by_bucket : list (string * tier_counts)) (label : string) : option forecast_bucket :=
  match alookup label by_bucket with
  | None | Some [] => None
  | Some counts => Some {| fb_label := label; fb_count := total_of counts; fb_tiers := counts;
                           fb_sentence := bucket_sentence label counts "2026-08-14" |}
  end.

Definition build_eol_forecast (devices : list forecast_device) (today : Z) : forecast :=
  let '(by_bucket, total) := foldl (forecast_step today) ([], 0) devices in
  let buckets := omap (emit_bucket by_bucket) ordered_labels in
  {| fc_narrative := str_join " " (map fb_sentence buckets);
     fc_buckets := buckets;
     fc_catalog_last_verified := "2026-08-14";
     fc_catalog_stale := is_eol_table_stale today;
     fc_total := total |}.
End Forecast.

Example firmware_samples :
  map (fun s => parse_firmware (Some s)) ["1.6.2.0"; "9.0.1"; "15.2(4)M3"; "16.9.1"; "12.3R12-S19"; "v1.2"; "1.2.3.4.5"]
  = [Some [1;6;2;0;0;0;0]; Some [9;0;1;0;0;0;0]; Some [15;2;0;0;0;4;0]; Some [16;9;1;0;0;0;0];
     Some [12;3;0;0;12;0;19]; None; None].
Proof. vm_compute. reflexivity. Qed.
