(* ===== verification/HwDrift.v ===== *)
(** Lifecycle drift of the hardware inventory: [scanner/hardware_drift.py].

    A reading of a device counts once it is confirmed: seen in at least [n] of
    the last [m] successful rows.  A confirmed change becomes an event, once; a
    batch of devices is purged, stored and reconciled by [persist_and_reconcile].
    [json.loads] is a parameter ([None] where it raises [ValueError]), and so are
    the iteration orders of the two Python sets and the clock ([clock id]: the
    reading when the event [id] is built).  A database error, which is not
    modelled, is logged and drops the step. *)
From Stdlib Require Import ZArith Lia Ascii.
From stdpp Require Import base tactics sets gmap strings list pretty.
From S2P Require Import Prelude PyStr PyVal Model Hardware.

Local Open Scope Z_scope.
Local Open Scope quirk_scope.

Definition EVENT_TYPES : list string :=
  ["tier_crossing"; "upstream_mitigated_change"; "cve_delta"; "eol_state_change"].
Definition VENDOR_EVENT_TYPES : list string := ["pqc_status_change"].
Definition DEFAULT_N : Z := 2.
Definition DEFAULT_M : nat := 3.

(** * Confirmation *)

(** [Counter(values)] and [most_common(1)[0]]: the first of the largest counts. *)
Definition tally (values : list string) : list (string * Z) :=
  foldl (fun counts v => bump v counts) [] values.

Fixpoint most_common (counts : list (string * Z)) : option (string * Z) :=
  match counts with
  | [] => None
  | e :: rest =>
      match most_common rest with
      | Some e' => Some (if e.2 <? e'.2 then e' else e)
      | None => Some e
      end
  end.

Definition confirmed_value (rows : list hw_row) (extractor : hw_row -> option string) (n : Z)
  : option string :=
  match most_common (tally (omap extractor rows)) with
  | Some (value, count) => if n <=? count then Some value else None
  | None => None
  end.

(** * Readings *)

Section Drift.
Context (loads : string -> option pyval).

Definition bridge_evidence_state (r : hw_row) : string :=
  match hr_bridge_confirmed_at r with
  | None => "no_evidence"
  | Some _ =>
      match hd_bridge_evidence_json (hr_dev r) with
      | None => "no_evidence"
      | Some text =>
          match loads text with
          | Some (VList (_ :: _)) => "evidence_present"
          | _ => "no_evidence"
          end
      end
  end.

Definition eol_state_for_row (today : Z) (r : hw_row) : option string := eol_state (hr_eol_date r) today.

Definition tier_direction (old_tier new_tier : option string) : string :=
  match old_tier, new_tier with
  | Some o, Some w =>
      match alookup o TIER_ORDER, alookup w TIER_ORDER with
      | Some old_rank, Some new_rank =>
          if new_rank =? old_rank then "unchanged"
          else if new_rank <? old_rank then "worsened" else "improved"
      | _, _ => "unknown"
      end
  | _, _ => "unknown"
  end.

(** * Candidates *)

Record DriftCandidate := { dc_type : string; dc_old : option string; dc_new : option string }.

(** [not vendor or vendor == "Unknown"] *)
Definition gated (r : hw_row) : bool :=
  negb (truthy_str (hr_vendor r)) || bool_decide (hr_vendor r = Some "Unknown").

Definition cve_ids_for_row (r : hw_row) : gset string :=
  if gated r then ∅
  else list_to_set (map cve_id (cm_matches
         (correlate_device (hr_vendor r) (hd_model (hr_dev r)) (firmware_for_correlation r)))).

Definition cve_delta (prior current : hw_row) : gset string :=
  if gated prior || gated current then ∅ else cve_ids_for_row current ∖ cve_ids_for_row prior.

(** The three gated readings. *)
Definition drift_fields (today : Z) : list (string * (hw_row -> option string)) :=
  [("tier_crossing", hr_tier);
   ("upstream_mitigated_change", fun r => Some (bridge_evidence_state r));
   ("eol_state_change", eol_state_for_row today)].

(** The loop over the older rows: the first reading that differs. *)
Fixpoint first_differing (confirmed : string) (readings : list (option string)) : option (option string) :=
  match readings with
  | [] => None
  | v :: rest => if bool_decide (v = Some confirmed) then first_differing confirmed rest else Some v
  end.

Definition field_candidate (newest : hw_row) (older : list hw_row) (n : Z)
    (f : string * (hw_row -> option string)) : option DriftCandidate :=
  let '(event_type, extractor) := f in
  match confirmed_value (newest :: older) extractor n with
  | None => None
  | Some confirmed =>
      if negb (bool_decide (extractor newest = Some confirmed)) then None
      else match first_differing confirmed (map extractor older) with
           | None => None
           | Some old_value =>
               Some {| dc_type := event_type; dc_old := old_value; dc_new := Some confirmed |}
           end
  end.

Definition cve_candidate (newest prior : hw_row) : list DriftCandidate :=
  let delta := cve_delta prior newest in
  if decide (delta = ∅) then []
  else [{| dc_type := "cve_delta"; dc_old := Some (pretty (Z.of_nat (size (cve_ids_for_row prior))));
           dc_new := Some (pretty (Z.of_nat (size delta))) |}].

Definition compute_drift_candidates (rows : list hw_row) (n today : Z) : list DriftCandidate :=
  match rows with
  | newest :: ((prior :: _) as older) =>
      omap (field_candidate newest older n) (drift_fields today) ++ cve_candidate newest prior
  | _ => []
  end.

(** * Events *)

Record HardwareDriftEvent := {
  de_id : Z; de_host : string; de_port : Z; de_type : string;
  de_old : option string; de_new : option string;
  de_detected_at : Z; de_confirmed_at : Z; de_partial : bool
}.

Record VendorPqcTrendEvent := {
  ve_id : Z; ve_vendor : string; ve_type : string;
  ve_old : option string; ve_new : option string;
  ve_detected_at : Z; ve_confirmed_at : Z
}.

Record hw_db := {
  hw_rows : list hw_row;
  hw_events : list HardwareDriftEvent;
  hw_vendor_events : list VendorPqcTrendEvent
}.

(** [ORDER BY detected_at DESC, id DESC ... .first()] *)
Definition later_event (a b : HardwareDriftEvent) : bool :=
  (de_detected_at b <? de_detected_at a)
  || ((de_detected_at a =? de_detected_at b) && (de_id b <=? de_id a)).

Definition most_recent_event (events : list HardwareDriftEvent) (host : string) (port : Z) (type : string)
  : option HardwareDriftEvent :=
  head (py_sorted later_event
    (List.filter (fun e => str_eqb (de_host e) host && (de_port e =? port) && str_eqb (de_type e) type) events)).

Definition later_vendor_event (a b : VendorPqcTrendEvent) : bool :=
  (ve_detected_at b <? ve_detected_at a)
  || ((ve_detected_at a =? ve_detected_at b) && (ve_id b <=? ve_id a)).

Definition most_recent_vendor_event (events : list VendorPqcTrendEvent) (vendor : string)
  : option VendorPqcTrendEvent :=
  head (py_sorted later_vendor_event
    (List.filter (fun e => str_eqb (ve_vendor e) vendor && str_eqb (ve_type e) "pqc_status_change") events)).

Context (clock : Z -> Z).

Definition new_event (newest : hw_row) (host : string) (port : Z) (events : list HardwareDriftEvent)
    (c : DriftCandidate) : HardwareDriftEvent :=
  let id := next_id (map de_id events) in
  {| de_id := id; de_host := host; de_port := port; de_type := dc_type c;
     de_old := dc_old c; de_new := dc_new c;
     de_detected_at := hr_time newest; de_confirmed_at := clock id;
     de_partial := default false (hr_is_partial_scan newest) |}.

(** One candidate: dropped outside the allow-list or when the last event of its
    type says the same, else appended. *)
Definition record_candidate (newest : hw_row) (host : string) (port : Z)
    (events : list HardwareDriftEvent) (c : DriftCandidate) : list HardwareDriftEvent :=
  if negb (str_in (dc_type c) EVENT_TYPES) then events
  else if match most_recent_event events host port (dc_type c) with
          | Some e => bool_decide (de_new e = dc_new c)
          | None => false
          end then events
  else events ++ [new_event newest host port events c].

Definition set_events (events : list HardwareDriftEvent) (d : hw_db) : hw_db :=
  {| hw_rows := hw_rows d; hw_events := events; hw_vendor_events := hw_vendor_events d |}.

Definition reconcile_device_history (today : Z) (d : hw_db) (addr : string * Z) : hw_db :=
  let '(host, port) := addr in
  match recent_successful_hardware_rows (hw_rows d) host port DEFAULT_M with
  | (newest :: _ :: _) as rows =>
      set_events (foldl (record_candidate newest host port) (hw_events d)
                        (compute_drift_candidates rows DEFAULT_N today)) d
  | _ => d
  end.

Definition reconcile_vendor_pqc_trend (d : hw_db) (vendor : string) : hw_db :=
  match vendor_fleet_snapshot (hw_rows d) vendor DEFAULT_M with
  | newest :: ((_ :: _) as older) =>
      let status r := hd_pqc_status (hr_dev r) in
      match confirmed_value (newest :: older) status DEFAULT_N with
      | None => d
      | Some confirmed =>
          if negb (bool_decide (status newest = Some confirmed)) then d
          else match first_differing confirmed (map status older) with
               | None => d
               | Some old_value =>
                   if match most_recent_vendor_event (hw_vendor_events d) vendor with
                      | Some e => bool_decide (ve_new e = Some confirmed)
                      | None => false
                      end then d
                   else if negb (str_in "pqc_status_change" VENDOR_EVENT_TYPES) then d
                   else
                     let id := next_id (map ve_id (hw_vendor_events d)) in
                     {| hw_rows := hw_rows d; hw_events := hw_events d;
                        hw_vendor_events := hw_vendor_events d ++
                          [{| ve_id := id; ve_vendor := vendor; ve_type := "pqc_status_change";
                              ve_old := old_value; ve_new := Some confirmed;
                              ve_detected_at := hr_time newest; ve_confirmed_at := clock id |}] |}
               end
      end
  | _ => d
  end.

(** * Retention *)

(** [datetime.min] and the largest [timedelta] in days. *)
Definition DATETIME_MIN : Z := days_of_civil 1 1 1 * US_PER_DAY.
Definition TIMEDELTA_MAX_DAYS : Z := 999999999.

(** [now - timedelta(days=days)] *)
Definition days_before (now days : Z) : pyres Z :=
  if TIMEDELTA_MAX_DAYS <? days then Raise (OverflowError "days; must have magnitude <= 999999999")
  else let cutoff := now - days * US_PER_DAY in
       if cutoff <? DATETIME_MIN then Raise (OverflowError "date value out of range") else Ok cutoff.

(** [cfg.scan.hardware_history_retention_days]; 180 without a configuration. *)
Definition retention_days (cfg : option pyval) : option Z := int_or_none (default (VInt 180) cfg).

Definition stale_in_scope (scope : list (string * Z)) (cutoff : Z) (r : hw_row) : bool :=
  bool_decide (hr_key r ∈ scope) && (hr_time r <? cutoff).

Definition purge_stale_hardware_history (now : Z) (cfg : option pyval) (batch : list hw_row) (d : hw_db)
  : pyres (Z * hw_db) :=
  match batch with
  | [] => Ok (0, d)
  | _ =>
      match retention_days cfg with
      | None => Ok (0, d)
      | Some days =>
          if days <=? 0 then Ok (0, d)
          else
            let! cutoff := days_before now days in
            let stale := stale_in_scope (map hr_key batch) cutoff in
            Ok (Z.of_nat (length (List.filter stale (hw_rows d))),
                {| hw_rows := List.filter (fun r => negb (stale r)) (hw_rows d);
                   hw_events := hw_events d; hw_vendor_events := hw_vendor_events d |})
      end
  end.

(** * A batch *)

Context (addr_order : list (string * Z) -> list (string * Z)) (vendor_order : list string -> list string).

(** A new row under the next row id. *)
Definition with_id (id : Z) (r : hw_row) : hw_row :=
  let d := hr_dev r in
  {| hr_dev := {| hd_id := id; hd_host := hd_host d; hd_port := hd_port d; hd_vendor := hd_vendor d;
                  hd_model := hd_model d; hd_pqc_status := hd_pqc_status d;
                  hd_bridge_evidence_json := hd_bridge_evidence_json d;
                  hd_probe_status := hd_probe_status d; hd_scanned_at := hd_scanned_at d |};
     hr_confidence := hr_confidence r; hr_eol_date := hr_eol_date r; hr_tier := hr_tier r;
     hr_bridge_confirmed_at := hr_bridge_confirmed_at r; hr_modbus_firmware := hr_modbus_firmware r;
     hr_bacnet_firmware := hr_bacnet_firmware r; hr_is_partial_scan := hr_is_partial_scan r |}.

Definition add_row (d : hw_db) (r : hw_row) : hw_db :=
  {| hw_rows := hw_rows d ++ [with_id (next_id (map hr_id (hw_rows d))) r];
     hw_events := hw_events d; hw_vendor_events := hw_vendor_events d |}.

(** The vendors of a batch that are not empty. *)
Definition batch_vendors (devices : list hw_row) : list string :=
  remove_dups (omap (fun r => if truthy_str (hr_vendor r) then hr_vendor r else None) devices).

(** The purged count and the new database; an exception of the purge rolls the
    session back. *)
Definition persist_and_reconcile (now today : Z) (cfg : option pyval) (devices : list hw_row) (d : hw_db)
  : Z * hw_db :=
  match devices with
  | [] => (0, d)
  | _ =>
      match purge_stale_hardware_history now cfg devices d with
      | Raise _ => (0, d)
      | Ok (purged, d1) =>
          let d2 := foldl add_row d1 devices in
          let d3 := foldl (reconcile_device_history today) d2 (addr_order (remove_dups (map hr_key devices))) in
          (purged, foldl reconcile_vendor_pqc_trend d3 (vendor_order (batch_vendors devices)))
      end
  end.
End Drift.
