(* ===== verification/HwDriftProps.v ===== *)
(** Properties of lifecycle drift ([HwDrift]): what a confirmed reading is, when
    an event is recorded and that it is recorded once, what retention deletes;
    and of the catalogues ([Hardware]). *)
From Stdlib Require Import ZArith Lia Ascii.
From stdpp Require Import base tactics sets gmap strings list pretty.
From S2P Require Import Prelude PyStr PyVal Model Hardware HwDrift.

Local Open Scope Z_scope.
Local Open Scope quirk_scope.

(** * Counting *)

Definition occurrences {A} `{EqDecision A} (x : A) (l : list A) : Z :=
  Z.of_nat (length (List.filter (fun y => bool_decide (y = x)) l)).

Section Tally.

Lemma occurrences_app {A} `{EqDecision A} (x : A) l k :
  occurrences x (l ++ k) = occurrences x l + occurrences x k.
Proof. unfold occurrences. rewrite List.filter_app, length_app. lia. Qed.

Lemma alookup_bump k v counts :
  alookup v (bump k counts) =
  if decide (k = v) then Some (default 0 (alookup k counts) + 1) else alookup v counts.
Proof. unfold bump. by rewrite alookup_aset. Qed.

Lemma tally_snoc l x : tally (l ++ [x]) = bump x (tally l).
Proof. unfold tally. by rewrite foldl_app. Qed.

(** The counter of a list counts its elements. *)
Lemma tally_lookup l v :
  alookup v (tally l) = if decide (occurrences v l = 0) then None else Some (occurrences v l).
Proof.
  induction l as [|x l IH] using rev_ind; [done|].
  assert (Hone : occurrences v [x] = if decide (x = v) then 1 else 0).
  { unfold occurrences. simpl. repeat case_decide; rewrite ?bool_decide_eq_true_2, ?bool_decide_eq_false_2 by done; done. }
  rewrite tally_snoc, alookup_bump, occurrences_app, Hone.
  assert (0 <= occurrences v l) by (unfold occurrences; lia).
  destruct (decide (x = v)) as [->|Hne].
  - rewrite IH. destruct (decide (occurrences v l = 0)) as [E|E]; simpl; case_decide; try lia; f_equal; lia.
  - by rewrite Z.add_0_r.
Qed.

Lemma tally_nodup l : NoDup ((tally l).*1).
Proof.
  induction l as [|x l IH] using rev_ind; [constructor|].
  rewrite tally_snoc. by apply aset_keys_nodup.
Qed.

Lemma tally_elem l v c : (v, c) ∈ tally l -> c = occurrences v l /\ 0 < c.
Proof.
  intros H. apply alookup_nodup in H; [|apply tally_nodup]. rewrite tally_lookup in H.
  assert (0 <= occurrences v l) by (unfold occurrences; lia).
  case_decide; [done|]. injection H as <-. lia.
Qed.

Lemma most_common_max counts e :
  most_common counts = Some e -> e ∈ counts /\ forall e', e' ∈ counts -> e'.2 <= e.2.
Proof.
  revert e. induction counts as [|a counts IH]; simpl; intros e; [done|].
  destruct (most_common counts) as [e'|] eqn:E.
  - destruct (IH e' eq_refl) as [Hin Hmax]. destruct (a.2 <? e'.2) eqn:Hlt; intros [= <-]; bool_to_prop.
    + split; [by right|]. intros x [->|Hx]%elem_of_cons; [lia|auto].
    + split; [by left|]. intros x [->|Hx]%elem_of_cons; [lia|]. specialize (Hmax x Hx). lia.
  - intros [= <-]. destruct counts as [|b counts]; [|simpl in E; by destruct (most_common counts)].
    split; [by left|]. intros x [->|Hx]%elem_of_cons; [lia|by apply elem_of_nil in Hx].
Qed.

Lemma most_common_none counts : most_common counts = None <-> counts = [].
Proof. destruct counts as [|e counts]; simpl; [done|]. by destruct (most_common counts). Qed.
End Tally.

(** A confirmed value is read at least [n] times and no value is read more often;
    without one, no value is read [n] times. *)
Lemma confirmed_value_spec rows ex n : 0 < n ->
  match confirmed_value rows ex n with
  | Some v => n <= occurrences v (omap ex rows)
              /\ forall w, occurrences w (omap ex rows) <= occurrences v (omap ex rows)
  | None => forall w, occurrences w (omap ex rows) < n
  end.
Proof.
  intros Hn. unfold confirmed_value. set (vs := omap ex rows).
  assert (Hin : forall w, occurrences w vs = 0 \/ (w, occurrences w vs) ∈ tally vs).
  { intros w. pose proof (tally_lookup vs w) as H. case_decide; [by left|right]. by apply alookup_elem. }
  destruct (most_common (tally vs)) as [[v c]|] eqn:E.
  - apply most_common_max in E as [Hv Hmax]. apply tally_elem in Hv as [-> Hpos].
    assert (Hle : forall w, occurrences w vs <= occurrences v vs).
    { intros w. destruct (Hin w) as [Hw|Hw]; [lia|]. apply (Hmax _ Hw). }
    destruct (n <=? occurrences v vs) eqn:Hc; bool_to_prop; [done|]. intros w. specialize (Hle w). lia.
  - apply most_common_none in E. intros w. destruct (Hin w) as [Hw|Hw]; [lia|].
    rewrite E in Hw. by apply elem_of_nil in Hw.
Qed.

(** * Candidates *)

Section Candidates.
Context (loads : string -> option pyval).

Lemma first_differing_some confirmed vs o :
  first_differing confirmed vs = Some o -> o <> Some confirmed /\
  exists l1 l2, vs = l1 ++ o :: l2 /\ Forall (eq (Some confirmed)) l1.
Proof.
  induction vs as [|v vs IH]; simpl; [done|]. case_bool_decide as E.
  - intros H. destruct (IH H) as (Hne & l1 & l2 & -> & Hall). split; [done|].
    exists (v :: l1), l2. split; [done|]. by constructor.
  - intros [= <-]. split; [done|]. by exists [], vs.
Qed.

Lemma first_differing_none confirmed vs :
  first_differing confirmed vs = None <-> Forall (eq (Some confirmed)) vs.
Proof.
  induction vs as [|v vs IH]; simpl; [by split|]. case_bool_decide as E.
  - rewrite IH, Forall_cons. naive_solver.
  - split; [done|]. rewrite Forall_cons. naive_solver.
Qed.

Lemma occurrences_le {A} `{EqDecision A} (v w : A) l :
  v <> w -> occurrences v l + occurrences w l <= Z.of_nat (length l).
Proof.
  intros Hne. unfold occurrences. induction l as [|x l IH]; [simpl; lia|].
  cbn [List.filter]. destruct (bool_decide (x = v)) eqn:E1, (bool_decide (x = w)) eqn:E2; cbn [length]; try lia.
  apply bool_decide_eq_true in E1, E2. congruence.
Qed.

Lemma omap_length_le {A B} (f : A -> option B) l : (length (omap f l) <= length l)%nat.
Proof.
  induction l as [|x l IH]; [done|]. cbn [omap list_omap length]. unfold omap in *.
  destruct (f x); cbn [length]; lia.
Qed.

(** A reading that holds a strict majority of the window is the confirmed one. *)
Lemma majority_confirmed rows ex n v : 0 < n -> Z.of_nat (length rows) < 2 * n ->
  confirmed_value rows ex n = Some v <-> n <= occurrences v (omap ex rows).
Proof.
  intros Hn Hlen. pose proof (confirmed_value_spec rows ex n Hn) as H.
  pose proof (omap_length_le ex rows) as Hl.
  split; [intros E; rewrite E in H; tauto|]. intros Hv.
  destruct (confirmed_value rows ex n) as [w|]; [|specialize (H v); lia].
  destruct (decide (w = v)) as [->|Hne]; [done|].
  pose proof (occurrences_le w v (omap ex rows) Hne). lia.
Qed.

(** A gated candidate exists exactly when the newest reading is confirmed and an
    older row reads differently; it carries the last different reading. *)
Lemma field_candidate_spec newest older n type ex c :
  0 < n -> Z.of_nat (length (newest :: older)) < 2 * n ->
  field_candidate newest older n (type, ex) = Some c <->
  exists v old, c = {| dc_type := type; dc_old := old; dc_new := Some v |}
    /\ ex newest = Some v /\ n <= occurrences v (omap ex (newest :: older))
    /\ first_differing v (map ex older) = Some old.
Proof.
  intros Hn Hlen. unfold field_candidate.
  destruct (confirmed_value (newest :: older) ex n) as [v|] eqn:E.
  - pose proof E as Hv. apply majority_confirmed in Hv; [|done..].
    case_bool_decide as Hnew; cbn [negb].
    + destruct (first_differing v (map ex older)) as [old|] eqn:Hd; split.
      * intros [= <-]. eauto 10.
      * intros (w & o & -> & Hw & _ & Ho). rewrite Hnew in Hw. injection Hw as <-. naive_solver.
      * done.
      * intros (w & o & -> & Hw & _ & Ho). rewrite Hnew in Hw. injection Hw as <-. naive_solver.
    + split; [done|]. intros (w & o & -> & Hw & Hc & _).
      apply majority_confirmed in Hc; [|done..]. naive_solver.
  - split; [done|]. intros (w & o & -> & Hw & Hc & _).
    apply majority_confirmed in Hc; [|done..]. naive_solver.
Qed.

Lemma drift_type_cve today type ex : (type, ex) ∈ drift_fields loads today -> type <> "cve_delta".
Proof.
  unfold drift_fields. rewrite !elem_of_cons, elem_of_nil.
  intros [[= -> _]|[[= -> _]|[[= -> _]|[]]]]; done.
Qed.

Lemma field_candidate_type newest older n type ex c :
  field_candidate newest older n (type, ex) = Some c -> dc_type c = type.
Proof using. clear loads. unfold field_candidate. split_ifs; naive_solver. Qed.

(** Drift needs confirmation.  Over the window of three rows that is read,
    a tier, bridge or end-of-life candidate exists exactly when the newest row's
    reading is shared by at least one other row of the window and some older row
    reads differently; it reports the newest reading and the last different one.
    So one flaky probe, whatever it read, never makes a candidate. *)
Theorem drift_candidates_exact (newest : hw_row) (older : list hw_row) (today : Z) (type : string)
    (ex : hw_row -> option string) (c : DriftCandidate)
    (Hfield : (type, ex) ∈ drift_fields loads today) (Hwindow : (1 <= length older <= 2)%nat)
    (Hc : dc_type c = type) :
  c ∈ compute_drift_candidates loads (newest :: older) DEFAULT_N today <->
  exists v old,
    c = {| dc_type := type; dc_old := old; dc_new := Some v |}
    /\ ex newest = Some v
    /\ (exists r, r ∈ older /\ ex r = Some v)
    /\ first_differing v (map ex older) = Some old.
Proof.
  destruct older as [|prior older]; [simpl in Hwindow; lia|].
  assert (Hlen : Z.of_nat (length (newest :: prior :: older)) < 2 * DEFAULT_N)
    by (unfold DEFAULT_N; simpl in *; lia).
  assert (Hocc : forall v, ex newest = Some v ->
    DEFAULT_N <= occurrences v (omap ex (newest :: prior :: older)) <-> exists r, r ∈ prior :: older /\ ex r = Some v).
  { intros v Hv. generalize (prior :: older). intros l. cbn [omap list_omap]. rewrite Hv.
    unfold occurrences, DEFAULT_N. cbn [List.filter]. rewrite bool_decide_eq_true_2 by done. cbn [length].
    induction l as [|r l IH]; cbn [omap list_omap].
    - simpl. split; [intros; lia|]. intros (r & Hr & _). by apply elem_of_nil in Hr.
    - destruct (ex r) as [w|] eqn:Er; cbn [List.filter]; [case_bool_decide as Hw|].
      + subst w. cbn [length]. split; [|intros; lia]. intros _. exists r. split; [left|done].
      + rewrite IH. split; intros (r' & Hr' & E); exists r'; (split; [|done]);
          [by right|]. apply elem_of_cons in Hr' as [->|Hr']; [congruence|done].
      + rewrite IH. split; intros (r' & Hr' & E); exists r'; (split; [|done]);
          [by right|]. apply elem_of_cons in Hr' as [->|Hr']; [congruence|done]. }
  unfold compute_drift_candidates. rewrite elem_of_app, list_elem_of_omap. split.
  - intros [([type' ex'] & Hf & Hcand)|Hcve].
    + pose proof (field_candidate_type _ _ _ _ _ _ Hcand) as Ht. rewrite Hc in Ht. subst type'.
      assert (ex' = ex) as ->.
      { revert Hf Hfield. clear. unfold drift_fields. rewrite !elem_of_cons, !elem_of_nil.
        intros [E|[E|[E|[]]]] [E'|[E'|[E'|[]]]]; inversion E; inversion E'; congruence. }
      apply field_candidate_spec in Hcand as (v & old & -> & Hv & Hn & Hd); [|done..].
      exists v, old. split_and!; [done..| |done]. by apply Hocc.
    + unfold cve_candidate in Hcve. case_decide; [by apply elem_of_nil in Hcve|].
      apply list_elem_of_singleton in Hcve as ->. simpl in Hc.
      apply drift_type_cve in Hfield. congruence.
  - intros (v & old & -> & Hv & Hr & Hd). left. exists (type, ex). split; [done|].
    apply field_candidate_spec; [done..|]. exists v, old. split_and!; [done..| |done]. by apply Hocc.
Qed.
End Candidates.

(** * Events *)

Lemma insert_sorted_cons {A} (leb : A -> A -> bool) x y l :
  leb y x = false -> insert_sorted leb y (x :: l) = x :: insert_sorted leb y l.
Proof. simpl. by intros ->. Qed.

(** What is placed before every other element comes first. *)
Lemma py_sorted_first {A} (leb : A -> A -> bool) l x :
  Forall (fun y => leb y x = false) l -> exists l', py_sorted leb (l ++ [x]) = x :: l'.
Proof.
  induction 1 as [|y l Hy _ [l' IH]]; simpl; [by exists []|].
  exists (insert_sorted leb y l'). by rewrite IH, insert_sorted_cons.
Qed.

Section Events.
Context (loads : string -> option pyval) (clock : Z -> Z).
Context (newest : hw_row) (host : string) (port : Z).

Definition of_device (e : HardwareDriftEvent) : Prop := de_host e = host /\ de_port e = port.

(** The events of the device were detected no later than [newest]. *)
Definition all_past (events : list HardwareDriftEvent) : Prop :=
  forall e, e ∈ events -> of_device e -> de_detected_at e <= hr_time newest.

(** The last event of the candidate's type says what the candidate says. *)
Definition settled (events : list HardwareDriftEvent) (c : DriftCandidate) : Prop :=
  exists e, most_recent_event events host port (dc_type c) = Some e /\ de_new e = dc_new c.

Notation record := (record_candidate clock newest host port).
Notation added := (new_event clock newest host port).

Lemma record_settled events c : settled events c -> record events c = events.
Proof.
  intros (e & Hl & He). unfold record_candidate. destruct (negb _); [done|].
  rewrite Hl. by rewrite bool_decide_eq_true_2.
Qed.

Lemma record_cases events c :
  record events c = events \/ record events c = events ++ [added events c].
Proof. unfold record_candidate. split_ifs; auto. Qed.

Lemma most_recent_other events c type : dc_type c <> type ->
  most_recent_event (events ++ [added events c]) host port type = most_recent_event events host port type.
Proof.
  intros Hne. unfold most_recent_event. do 2 f_equal. rewrite List.filter_app. cbn [List.filter new_event de_type].
  assert (str_eqb (dc_type c) type = false) as -> by by apply bool_decide_eq_false.
  by rewrite andb_false_r, app_nil_r.
Qed.

Lemma most_recent_added events c : all_past events ->
  most_recent_event (events ++ [added events c]) host port (dc_type c) = Some (added events c).
Proof.
  intros Hpast. unfold most_recent_event. rewrite List.filter_app. cbn [List.filter].
  assert (Hsel : str_eqb (de_host (added events c)) host && (de_port (added events c) =? port)
                 && str_eqb (de_type (added events c)) (dc_type c) = true)
    by (cbn [new_event de_host de_port de_type]; by rewrite !str_eqb_refl, Z.eqb_refl).
  rewrite Hsel.
  match goal with |- context [py_sorted later_event (?l ++ [?x])] =>
    destruct (py_sorted_first later_event l x) as [l' ->]; [|done] end.
  apply Forall_forall. intros e He. apply elem_of_filter_bool in He as [He Hb]. bool_to_prop.
  assert (Hh : de_host e = host) by by apply str_eqb_eq.
  assert (Ht : de_detected_at e <= hr_time newest) by (apply Hpast; [done|by split]).
  assert (Hi : de_id e < next_id (map de_id events))
    by (apply next_id_above, list_elem_of_fmap; eauto).
  unfold later_event. cbn [new_event de_detected_at de_id].
  apply orb_false_iff. split; [lia|]. apply andb_false_iff. right. lia.
Qed.

Lemma record_past events c : all_past events -> all_past (record events c).
Proof.
  intros Hp. destruct (record_cases events c) as [->| ->]; [done|].
  intros e [He|He]%elem_of_app Hd; [auto|]. apply list_elem_of_singleton in He as ->. simpl. lia.
Qed.

Lemma record_settles events c : all_past events -> dc_type c ∈ EVENT_TYPES -> settled (record events c) c.
Proof.
  intros Hp Ht. unfold record_candidate.
  assert (str_in (dc_type c) EVENT_TYPES = true) as -> by by apply str_in_elem. cbn [negb].
  destruct (most_recent_event events host port (dc_type c)) as [e|] eqn:E.
  - case_bool_decide as He; [by exists e|].
    eexists. split; [by apply most_recent_added|done].
  - eexists. split; [by apply most_recent_added|done].
Qed.

Lemma record_keeps_settled events c c' :
  dc_type c <> dc_type c' -> settled events c' -> settled (record events c) c'.
Proof.
  intros Hne Hs. destruct (record_cases events c) as [->| ->]; [done|].
  destruct Hs as (e & Hl & He). exists e. by rewrite most_recent_other.
Qed.

(** Every candidate of a round is settled after it. *)
Lemma round_settles cs events :
  all_past events -> NoDup (map dc_type cs) -> Forall (fun c => dc_type c ∈ EVENT_TYPES) cs ->
  all_past (foldl record events cs) /\ Forall (settled (foldl record events cs)) cs
  /\ forall c, dc_type c ∉ map dc_type cs -> settled events c -> settled (foldl record events cs) c.
Proof.
  revert events. induction cs as [|c cs IH]; intros events Hp Hd Ht; [by split_and!|].
  apply NoDup_cons in Hd as [Hc Hd]. apply Forall_cons in Ht as [Htc Ht].
  destruct (IH (record events c)) as (Hp' & Hs & Hk); [by apply record_past|done..|].
  split_and!; [done| |].
  - constructor; [|done]. apply Hk; [done|]. by apply record_settles.
  - intros c' Hc' Hs'. cbn [map] in Hc'. apply not_elem_of_cons in Hc' as [Hne Hc'].
    apply Hk; [done|]. by apply record_keeps_settled.
Qed.

Lemma settled_round cs events : Forall (settled events) cs -> foldl record events cs = events.
Proof. induction 1 as [|c cs Hc _ IH]; simpl; [done|]. by rewrite record_settled. Qed.
End Events.

Section Reconcile.
Context (loads : string -> option pyval) (clock : Z -> Z).

Lemma field_candidates_types newest older n fs :
  map dc_type (omap (field_candidate newest older n) fs) `sublist_of` map fst fs.
Proof.
  induction fs as [|[type ex] fs IH]; [constructor|].
  cbn [omap list_omap map]. unfold omap in IH.
  destruct (field_candidate newest older n (type, ex)) as [c|] eqn:E.
  - apply field_candidate_type in E. cbn [map fst]. rewrite E. by constructor.
  - by constructor.
Qed.

Lemma candidates_types rows n today :
  map dc_type (compute_drift_candidates loads rows n today) `sublist_of`
  ["tier_crossing"; "upstream_mitigated_change"; "eol_state_change"; "cve_delta"].
Proof.
  unfold compute_drift_candidates. destruct rows as [|newest [|prior older]]; try apply sublist_nil_l.
  rewrite map_app. apply (sublist_app _ ["tier_crossing"; "upstream_mitigated_change"; "eol_state_change"] _ ["cve_delta"]).
  - apply field_candidates_types.
  - unfold cve_candidate. case_decide; [apply sublist_nil_l|done].
Qed.

Lemma candidates_distinct rows n today :
  NoDup (map dc_type (compute_drift_candidates loads rows n today)).
Proof.
  eapply sublist_NoDup; [|apply candidates_types]. by apply (bool_decide_unpack _).
Qed.

Lemma candidates_allowed rows n today :
  Forall (fun c => dc_type c ∈ EVENT_TYPES) (compute_drift_candidates loads rows n today).
Proof.
  apply Forall_forall. intros c Hc. apply (list_elem_of_fmap_2 dc_type) in Hc.
  eapply elem_of_sublist in Hc; [|apply candidates_types].
  revert Hc. generalize (dc_type c). apply Forall_forall. by apply (bool_decide_unpack _).
Qed.

(** The events of the device were detected no later than its newest successful row. *)
Definition history_past (d : hw_db) (host : string) (port : Z) : Prop :=
  forall newest rest, recent_successful_hardware_rows (hw_rows d) host port DEFAULT_M = newest :: rest ->
  all_past newest host port (hw_events d).

(** C38: An event is recorded once.  When no event of the device lies after its
    newest successful row, reconciling it again, with no new row, changes
    nothing: every change the first run found is the last event of its type. *)
Theorem reconcile_records_once (d : hw_db) (host : string) (port today : Z)
    (Hpast : history_past d host port) :
  reconcile_device_history loads clock today (reconcile_device_history loads clock today d (host, port)) (host, port)
  = reconcile_device_history loads clock today d (host, port).
Proof.
  unfold reconcile_device_history at 2 3.
  destruct (recent_successful_hardware_rows (hw_rows d) host port DEFAULT_M) as [|newest [|prior rest]] eqn:E;
    try by (unfold reconcile_device_history; rewrite E).
  set (cs := compute_drift_candidates _ _ _ _).
  unfold reconcile_device_history. cbn [hw_rows set_events]. rewrite E. fold cs.
  unfold set_events. cbn [hw_rows hw_events hw_vendor_events]. f_equal.
  apply settled_round. apply round_settles.
  - by apply (Hpast newest (prior :: rest)).
  - apply candidates_distinct.
  - apply candidates_allowed.
Qed.

Lemma round_appends newest host port cs events :
  exists new, foldl (record_candidate clock newest host port) events cs = events ++ new
  /\ Forall (fun e => de_host e = host /\ de_port e = port /\ de_type e ∈ EVENT_TYPES
             /\ de_detected_at e = hr_time newest
             /\ {| dc_type := de_type e; dc_old := de_old e; dc_new := de_new e |} ∈ cs) new.
Proof.
  revert events. induction cs as [|c cs IH]; intros events; [exists []; by rewrite app_nil_r|].
  cbn [foldl]. destruct (IH (record_candidate clock newest host port events c)) as (new & -> & Hnew).
  assert (Hweak : Forall (fun e => de_host e = host /\ de_port e = port /\ de_type e ∈ EVENT_TYPES
             /\ de_detected_at e = hr_time newest
             /\ {| dc_type := de_type e; dc_old := de_old e; dc_new := de_new e |} ∈ c :: cs) new).
  { eapply Forall_impl; [exact Hnew|]. intros e (?&?&?&?&?). split_and!; try done. by right. }
  unfold record_candidate. destruct (negb _) eqn:Et; [by exists new|].
  destruct (match most_recent_event _ _ _ _ with Some _ => _ | None => _ end); [by exists new|].
  exists (new_event clock newest host port events c :: new). rewrite <- app_assoc. split; [done|].
  constructor; [|done]. apply negb_false_iff, str_in_elem in Et. destruct c.
  cbn [new_event de_host de_port de_type de_detected_at de_old de_new]. split_and!; try done. left.
Qed.

(** The history is append-only and accountable.  Reconciling a device keeps
    every row and every event, and each event it adds is for that device, of an
    allow-listed type, dated by the newest successful row, and states exactly a
    candidate confirmed over the last three successful rows. *)
Theorem reconcile_appends (d : hw_db) (host : string) (port today : Z) :
  let d' := reconcile_device_history loads clock today d (host, port) in
  let rows := recent_successful_hardware_rows (hw_rows d) host port DEFAULT_M in
  hw_rows d' = hw_rows d /\ hw_vendor_events d' = hw_vendor_events d
  /\ exists new, hw_events d' = hw_events d ++ new
     /\ Forall (fun e =>
          de_host e = host /\ de_port e = port /\ de_type e ∈ EVENT_TYPES
          /\ (exists newest, head rows = Some newest /\ de_detected_at e = hr_time newest)
          /\ {| dc_type := de_type e; dc_old := de_old e; dc_new := de_new e |}
             ∈ compute_drift_candidates loads rows DEFAULT_N today) new.
Proof.
  intros d' rows. subst d'. unfold reconcile_device_history. fold rows.
  destruct rows as [|newest [|prior rest]]; try by (split_and!; [done..|]; exists []; rewrite app_nil_r).
  cbn [set_events hw_rows hw_events hw_vendor_events]. split_and!; [done..|].
  destruct (round_appends newest host port (compute_drift_candidates loads (newest :: prior :: rest) DEFAULT_N today)
    (hw_events d)) as (new & -> & Hnew).
  exists new. split; [done|]. eapply Forall_impl; [exact Hnew|].
  intros e (?&?&?&?&?). split_and!; try done. by exists newest.
Qed.
End Reconcile.

(** * Retention *)

Section Retention.
Context (now : Z) (cfg : option pyval) (batch : list hw_row) (d : hw_db).

(** Retention deletes exactly the stale rows of the scanned devices.  A
    purge that returns has removed the rows of the batch's addresses older than
    the configured window, and no other; it reports their number, keeps every
    event, and a window that is missing, not a number, zero or negative keeps
    everything. *)
Theorem purge_deletes_stale_in_scope (count : Z) (d' : hw_db)
    (Hrun : purge_stale_hardware_history now cfg batch d = Ok (count, d')) :
  hw_events d' = hw_events d /\ hw_vendor_events d' = hw_vendor_events d
  /\ Z.of_nat (length (hw_rows d)) = count + Z.of_nat (length (hw_rows d'))
  /\ (forall r, r ∈ hw_rows d' <->
        r ∈ hw_rows d /\ ~ (hr_key r ∈ map hr_key batch /\
          exists days, retention_days cfg = Some days /\ 0 < days /\ hr_time r < now - days * US_PER_DAY)).
Proof.
  unfold purge_stale_hardware_history in Hrun.
  destruct batch as [|b bs] eqn:Eb.
  { injection Hrun as <- <-. split_and!; [done..|lia|]. intros r. cbn. split; [|tauto].
    intros Hr. split; [done|]. by intros [[]%elem_of_nil _]. }
  rewrite <- Eb in *. destruct (retention_days cfg) as [days|]; [|injection Hrun as <- <-].
  2: { split_and!; [done..|lia|]. intros r. naive_solver. }
  destruct (days <=? 0) eqn:Ed; bool_to_prop.
  { injection Hrun as <- <-. split_and!; [done..|lia|]. intros r. split; [|tauto].
    intros Hr. split; [done|]. intros [_ (days' & [= <-] & Hd & _)]. lia. }
  apply pbind_ok in Hrun as (cutoff & Hcut & [= <- <-]). cbn [hw_events hw_vendor_events hw_rows].
  unfold days_before in Hcut. destruct (TIMEDELTA_MAX_DAYS <? days); [done|].
  destruct (now - days * US_PER_DAY <? DATETIME_MIN); [done|]. injection Hcut as <-.
  split_and!; [done..| |].
  - set (p := stale_in_scope _ _). induction (hw_rows d) as [|r rows IH]; [done|].
    cbn [List.filter]. destruct (p r); cbn [negb length]; lia.
  - intros r. rewrite elem_of_filter_bool, negb_true_iff. unfold stale_in_scope.
    rewrite andb_false_iff, bool_decide_eq_false, Z.ltb_ge. split.
    + intros [Hr Hout]. split; [done|]. intros [Hk (days' & [= <-] & _ & Ht)]. destruct Hout; [done|lia].
    + intros [Hr Hout]. split; [done|].
      destruct (decide (hr_key r ∈ map hr_key batch)) as [Hk|]; [right|by left].
      destruct (decide (hr_time r < now - days * US_PER_DAY)); [|lia]. destruct Hout. eauto 10.
Qed.
End Retention.

(** An import beyond the window of dates is lost: with a retention of more than
    about two thousand years the cutoff overflows, the whole batch is dropped and
    nothing is reconciled. *)
Lemma huge_retention_loses_batch loads clock ao vo today d devices :
  persist_and_reconcile loads clock ao vo (days_of_civil 2026 1 1 * US_PER_DAY) today (Some (VInt 800000)) devices d
  = (0, d).
Proof. by destruct devices. Qed.

(** * CVE correlation *)

Lemma tuple_ltb_trans a b c : tuple_ltb a b = true -> tuple_ltb b c = true -> tuple_ltb a c = true.
Proof.
  revert b c. induction a as [|x a IH]; intros [|y b] [|z c]; simpl; try done.
  rewrite !orb_true_iff, !andb_true_iff, !Z.ltb_lt, !Z.eqb_eq.
  intros [Hxy|[-> Hab]] [Hyz|[-> Hbc]]; [left; lia|left; lia|left; lia|right; eauto].
Qed.

Definition affects (fw : option version) (e : cve) : bool :=
  match cve_affected_before e with
  | None => true
  | Some b => match fw with Some v => in_affected_range v b | None => false end
  end.

Lemma match_entries fw entries st :
  (foldl (match_entry fw) st entries).1.1 = st.1.1 ++ List.filter (affects fw) entries.
Proof.
  revert st. induction entries as [|e entries IH]; intros [[m h] l]; [by rewrite app_nil_r|].
  cbn [foldl]. rewrite IH. unfold match_entry. cbn [List.filter].
  unfold affects at 2. destruct (cve_affected_before e) as [b|]; cbn [fst].
  - destruct (match fw with Some v => in_affected_range v b | None => false end); cbn [fst]; [|done].
    by rewrite <- app_assoc.
  - by rewrite <- app_assoc.
Qed.

Lemma cve_matches vendor model firmware e :
  e ∈ cm_matches (correlate_device vendor model firmware) <->
  exists entries, table_get vendor model CVE_TABLE = Some entries /\ e ∈ entries
    /\ affects (parse_firmware firmware) e = true.
Proof.
  unfold correlate_device. destruct (table_get vendor model CVE_TABLE) as [[|x entries]|]; cbn [cm_matches].
  - split; [by intros ?%elem_of_nil|]. intros (entries & [= <-] & ?%elem_of_nil & _). done.
  - pose proof (match_entries (parse_firmware firmware) (x :: entries) ([], false, false)) as Hm.
    destruct (foldl _ _ _) as [[m h] l]. cbn in Hm. subst m. cbn [cm_matches].
    rewrite py_sorted_perm. change (if affects (parse_firmware firmware) x then _ else _)
      with (List.filter (affects (parse_firmware firmware)) (x :: entries)).
    rewrite elem_of_filter_bool. split; [eauto|]. intros (entries' & [= <-] & ?). done.
  - split; [by intros ?%elem_of_nil|]. intros (? & [=] & _).
Qed.

(** Correlation is monotone in the firmware: under firmware versions that
    parse, a device is never matched with a CVE on the later version that it was
    not matched with on the earlier one. *)
Theorem upgrade_never_adds_cves (vendor model old new : option string) (v w : version) (e : cve)
    (Hold : parse_firmware old = Some v) (Hnew : parse_firmware new = Some w) (Hup : tuple_ltb v w = true)
    (Hin : e ∈ cm_matches (correlate_device vendor model new)) :
  e ∈ cm_matches (correlate_device vendor model old).
Proof.
  apply cve_matches in Hin as (entries & Ht & He & Ha). apply cve_matches. exists entries.
  split_and!; [done..|]. revert Ha. rewrite Hold, Hnew. unfold affects, in_affected_range.
  destruct (cve_affected_before e) as [b|]; [|done]. destruct (parse_firmware (Some b)); [|done].
  by apply tuple_ltb_trans.
Qed.

Lemma upgrade_never_adds_cves_witness :
  let old := Some "1.5.0.1" in let new := Some "1.7.0.0" in
  exists e, e ∈ cm_matches (correlate_device (Some "Schneider Electric") (Some "M221") new)
  /\ e ∈ cm_matches (correlate_device (Some "Schneider Electric") (Some "M221") old).
Proof.
  set (e := mk_cve "CVE-2018-7821" "HIGH" (Some "1.10.0.0") "2019-05-22").
  assert (H : e ∈ cm_matches (correlate_device (Some "Schneider Electric") (Some "M221") (Some "1.7.0.0"))) by left.
  exists e. split; [exact H|].
  exact (upgrade_never_adds_cves (Some "Schneider Electric") (Some "M221") (Some "1.5.0.1") (Some "1.7.0.0")
    [1;5;0;1;0;0;0] [1;7;0;0;0;0;0] e eq_refl eq_refl eq_refl H).
Defined.

(** * Concrete histories *)

Definition sample_row (id day : Z) (tier model firmware : string) : hw_row :=
  {| hr_dev := {| hd_id := id; hd_host := "10.0.0.1"; hd_port := 443; hd_vendor := Some "Schneider Electric";
                  hd_model := Some model; hd_pqc_status := None; hd_bridge_evidence_json := None;
                  hd_probe_status := Some "success"; hd_scanned_at := Some (day * US_PER_DAY) |};
     hr_confidence := Some "high"; hr_eol_date := None; hr_tier := Some tier;
     hr_bridge_confirmed_at := None; hr_modbus_firmware := Some firmware; hr_bacnet_firmware := None;
     hr_is_partial_scan := None |}.

Definition sample_db (rows : list hw_row) : hw_db := {| hw_rows := rows; hw_events := []; hw_vendor_events := [] |}.

Definition no_json (_ : string) : option pyval := None.
Definition clock0 (_ : Z) : Z := 0.

Definition row_a := sample_row 1 10 "Tier 1" "M221" "1.12.0.0".
Definition row_b := sample_row 2 11 "Tier 2" "M221" "1.12.0.0".
Definition row_c := sample_row 3 12 "Tier 2" "M221" "1.12.0.0".

Lemma drift_candidates_exact_witness :
  {| dc_type := "tier_crossing"; dc_old := Some "Tier 1"; dc_new := Some "Tier 2" |}
  ∈ compute_drift_candidates no_json [row_c; row_b; row_a] DEFAULT_N 20.
Proof.
  apply (drift_candidates_exact no_json row_c [row_b; row_a] 20 "tier_crossing" hr_tier).
  - left.
  - split; repeat constructor.
  - reflexivity.
  - exists "Tier 2", (Some "Tier 1"). split_and!; [reflexivity..| |reflexivity].
    exists row_b. split; [left|reflexivity].
Defined.

Lemma reconcile_records_once_witness :
  let d := sample_db [row_a; row_b; row_c] in
  let once := reconcile_device_history no_json clock0 20 d ("10.0.0.1", 443) in
  map de_type (hw_events once) = ["tier_crossing"]
  /\ reconcile_device_history no_json clock0 20 once ("10.0.0.1", 443) = once.
Proof.
  split; [vm_compute; reflexivity|].
  apply (reconcile_records_once no_json clock0 (sample_db [row_a; row_b; row_c]) "10.0.0.1" 443 20).
  intros newest rest _ e He. by apply elem_of_nil in He.
Defined.

Lemma purge_deletes_stale_in_scope_witness :
  exists d', purge_stale_hardware_history (12 * US_PER_DAY) (Some (VInt 1)) [row_c] (sample_db [row_a; row_b]) = Ok (1, d')
  /\ forall r, r ∈ hw_rows d' -> r ∈ [row_a; row_b].
Proof.
  eexists. split; [vm_compute; reflexivity|].
  intros r Hr.
  apply (purge_deletes_stale_in_scope (12 * US_PER_DAY) (Some (VInt 1)) [row_c] (sample_db [row_a; row_b]) 1 _
    eq_refl) in Hr as [Hr _]. exact Hr.
Defined.

(** A second batch of CVEs is missed when it is as large as the first: the
    deduplication compares the number of new CVEs, not which they are. *)
Definition delta_row (id day : Z) (model firmware : string) := sample_row id day "Tier 2" model firmware.

Example cve_delta_of_same_size_missed :
  let d1 := reconcile_device_history no_json clock0 20
    (sample_db [delta_row 1 10 "M221" "1.12.0.0"; delta_row 2 11 "M221" "1.7.0.0"]) ("10.0.0.1", 443) in
  let d2 := reconcile_device_history no_json clock0 20
    (add_row d1 (delta_row 3 12 "M221" "1.6.0.0")) ("10.0.0.1", 443) in
  map de_type (hw_events d1) = ["cve_delta"] /\ hw_events d2 = hw_events d1
  /\ cve_delta (delta_row 1 10 "M221" "1.12.0.0") (delta_row 2 11 "M221" "1.7.0.0") = {["CVE-2018-7821"]}
  /\ cve_delta (delta_row 2 11 "M221" "1.7.0.0") (delta_row 3 12 "M221" "1.6.0.0") = {["CVE-2018-7789"]}.
Proof. split_and!; vm_compute; reflexivity. Qed.

(** * The forecast *)

Section ForecastCensus.
Context (fromisoformat : string -> option Z) (today : Z).

(** The bucket a device belongs to, if its date can be read. *)
Definition bucket_of (d : forecast_device) : option string :=
  (fun eol => bucket_for_eol eol today) <$> parse_eol fromisoformat (fd_eol d).

Definition devices_in (label : string) (devices : list forecast_device) : Z :=
  Z.of_nat (length (List.filter (fun d => bool_decide (bucket_of d = Some label)) devices)).

Definition counted (by_bucket : list (string * tier_counts)) (label : string) : Z :=
  total_of (default [] (alookup label by_bucket)).

Lemma total_bump k counts : total_of (bump k counts) = total_of counts + 1.
Proof.
  unfold bump, total_of. induction counts as [|[k' n] counts IH]; [simpl; lia|].
  cbn [alookup aset]. destruct (str_eqb k' k) eqn:E; cbn [map foldr snd]; [simpl; lia|].
  unfold total_of in *. lia.
Qed.

Lemma bucket_label d l : bucket_of d = Some l -> l ∈ ordered_labels.
Proof.
  unfold bucket_of, bucket_for_eol. destruct (parse_eol fromisoformat (fd_eol d)) as [eol|]; [|done].
  intros [= <-]. destruct (eol <? today); [left|]. cbn [bucket_of_days FORECAST_BUCKETS].
  repeat (match goal with |- context [if ?b then _ else _] => destruct b end); apply (bool_decide_unpack _); done.
Qed.

Lemma forecast_counts devices by_bucket total :
  foldl (forecast_step fromisoformat today) ([], 0) devices = (by_bucket, total) ->
  (forall label, counted by_bucket label = devices_in label devices)
  /\ total = Z.of_nat (length (List.filter (fun d => bool_decide (is_Some (bucket_of d))) devices)).
Proof.
  revert by_bucket total. induction devices as [|d devices IH] using rev_ind; intros bb total.
  { intros [= <- <-]. done. }
  rewrite foldl_app. destruct (foldl _ _ devices) as [bb' total'] eqn:E. destruct (IH _ _ eq_refl) as [Hc Ht].
  cbn [foldl forecast_step]. unfold devices_in. rewrite !List.filter_app, !length_app.
  destruct (parse_eol fromisoformat (fd_eol d)) as [eol|] eqn:Ep.
  - intros [= <- <-]. assert (Hb : bucket_of d = Some (bucket_for_eol eol today)) by (unfold bucket_of; by rewrite Ep).
    split.
    + intros label. rewrite List.filter_app, length_app. cbn [List.filter]. rewrite Hb. unfold counted. rewrite alookup_aset.
      specialize (Hc label). unfold counted, devices_in in Hc.
      destruct (decide (bucket_for_eol eol today = label)) as [->|Hne].
      * rewrite bool_decide_eq_true_2 by done. cbn [from_option id length]. rewrite total_bump, Hc. lia.
      * rewrite bool_decide_eq_false_2 by congruence. cbn [length]. rewrite Hc. lia.
    + cbn [List.filter]. rewrite Hb, bool_decide_eq_true_2 by eauto. cbn [length]. lia.
  - intros [= <- <-]. assert (Hb : bucket_of d = None) by (unfold bucket_of; by rewrite Ep).
    split.
    + intros label. rewrite List.filter_app, length_app. cbn [List.filter]. rewrite Hb, bool_decide_eq_false_2 by done.
      cbn [length]. rewrite Nat.add_0_r. apply Hc.
    + cbn [List.filter]. rewrite Hb, bool_decide_eq_false_2 by (by intros []). cbn [length]. lia.
Qed.

Definition sum_by {A} (f : A -> Z) (l : list A) : Z := foldr Z.add 0 (map f l).

Lemma emitted_sum by_bucket labels :
  sum_by fb_count (omap (emit_bucket by_bucket) labels) = sum_by (counted by_bucket) labels.
Proof.
  unfold sum_by. induction labels as [|l labels IH]; [done|].
  assert (He : counted by_bucket l = default 0 (fb_count <$> emit_bucket by_bucket l))
    by (unfold counted, emit_bucket; by destruct (alookup l by_bucket) as [[|x counts]|]).
  cbn [omap list_omap map foldr]. rewrite He, <- IH. by destruct (emit_bucket by_bucket l).
Qed.

Lemma census devices :
  sum_by (fun l => devices_in l devices) ordered_labels
  = Z.of_nat (length (List.filter (fun d => bool_decide (is_Some (bucket_of d))) devices)).
Proof.
  induction devices as [|d devices IH]; [done|]. cbn [List.filter].
  destruct (bucket_of d) as [l|] eqn:E.
  - assert (Hstep : forall l', devices_in l' (d :: devices) = devices_in l' devices + if str_eqb l l' then 1 else 0).
    { intros l'. unfold devices_in. cbn [List.filter]. rewrite E. destruct (str_eqb l l') eqn:El.
      - apply str_eqb_eq in El as ->. rewrite bool_decide_eq_true_2 by done. cbn [length]. lia.
      - apply str_eqb_neq in El. rewrite bool_decide_eq_false_2 by congruence. lia. }
    rewrite (bool_decide_eq_true_2 (is_Some _)) by eauto. cbn [length]. rewrite Nat2Z.inj_succ, <- IH.
    pose proof (bucket_label _ _ E) as Hl. revert Hl. unfold ordered_labels, sum_by.
    cbn [map FORECAST_BUCKETS fst foldr]. rewrite !Hstep, !elem_of_cons, elem_of_nil.
    intros [->|[->|[->|[->|[->|[]]]]]]; rewrite str_eqb_refl;
      repeat rewrite (proj2 (str_eqb_neq _ _)) by done; lia.
  - rewrite (bool_decide_eq_false_2 (is_Some _)) by (by intros []). rewrite <- IH.
    unfold sum_by. f_equal. apply map_ext. intros l. unfold devices_in. cbn [List.filter].
    by rewrite E, bool_decide_eq_false_2.
Qed.

(** The forecast counts every dated device once.  The buckets shown add up
    to the reported total, which is the number of devices whose date can be
    read, and each bucket's count is the number of devices that fall in it. *)
Theorem forecast_is_a_census (devices : list forecast_device) :
  let f := build_eol_forecast fromisoformat devices today in
  sum_by fb_count (fc_buckets f) = fc_total f
  /\ fc_total f = Z.of_nat (length (List.filter (fun d => bool_decide (is_Some (parse_eol fromisoformat (fd_eol d)))) devices))
  /\ Forall (fun b => fb_label b ∈ ordered_labels /\ fb_count b = devices_in (fb_label b) devices) (fc_buckets f).
Proof.
  unfold build_eol_forecast. destruct (foldl _ _ devices) as [by_bucket total] eqn:E.
  destruct (forecast_counts devices by_bucket total E) as [Hc Ht]. cbn [fc_buckets fc_total]. split_and!.
  - rewrite emitted_sum, Ht, <- census. unfold sum_by. f_equal. by apply map_ext.
  - rewrite Ht. do 2 f_equal. apply List.filter_ext. intros d. apply bool_decide_ext.
    unfold bucket_of. by rewrite fmap_is_Some.
  - apply Forall_forall. intros b Hb. apply list_elem_of_omap in Hb as (l & Hl & Hb).
    unfold emit_bucket in Hb. specialize (Hc l). unfold counted in Hc.
    destruct (alookup l by_bucket) as [[|x counts]|]; try done. injection Hb as <-. done.
Qed.
End ForecastCensus.
