(* ===== verification/FindingText.v ===== *)
(** The findings the evaluators can emit: the arguments of every
    [_build_finding] call of [src/quirk/engine/findings_evaluator.py].

    A [draft] is the severity, texts, quantum-vulnerability flag and check id of
    one call; host and port are added by [Findings.build_finding].  A character
    beyond ASCII in a text is written as its UTF-8 bytes. *)
From Stdlib Require Import ZArith Ascii.
From stdpp Require Import base tactics strings list pretty.
From S2P Require Import Prelude.

Local Open Scope Z_scope.

Record draft := {
  dr_severity : string;
  dr_title : string;
  dr_description : string;
  dr_recommendation : string;
  dr_quantum_vulnerable : bool;
  dr_check_id : string
}.

Definition dquote_str : string := String (Ascii.ascii_of_nat 34) EmptyString.

(** * Container packages *)

Definition container_openssl_eol (sev : string) (label : string) : draft :=
  {| dr_severity := sev;
     dr_title := "End-of-life " +:+ label +:+ " in container image";
     dr_description := "The container image bundles an end-of-life OpenSSL release that no longer receives upstream security patches. Newly disclosed CVEs will not be fixed in this image.";
     dr_recommendation := label +:+ " has reached end-of-life and no longer receives security patches. Update the base image to a supported distribution with a current OpenSSL version.";
     dr_quantum_vulnerable := false;
     dr_check_id := EmptyString |}.

Definition container_quantum_vulnerable (name : string) (version : string) : draft :=
  {| dr_severity := "LOW";
     dr_title := "Container image uses quantum-vulnerable crypto library (" +:+ name +:+ "@" +:+ version +:+ ")";
     dr_description := "The container image bundles a classical cryptographic library (RSA/ECDSA-based) vulnerable to a sufficiently large quantum computer. Long-lived data encrypted by services in this image faces 'harvest now, decrypt later' risk.";
     dr_recommendation := "Plan migration to ML-KEM (FIPS 203) for key exchange and ML-DSA (FIPS 204) or SLH-DSA (FIPS 205) for signatures once upstream library support is available.";
     dr_quantum_vulnerable := true;
     dr_check_id := EmptyString |}.

Definition container_cryptography_severe (version : string) : draft :=
  {| dr_severity := "HIGH";
     dr_title := "Severely outdated Python cryptography package (" +:+ version +:+ ") in container image";
     dr_description := "The container image ships a years-old release of the Python 'cryptography' package with multiple known CVEs. Vulnerabilities in TLS, X.509 parsing, and key handling are not patched.";
     dr_recommendation := "cryptography " +:+ version +:+ " is over 4 years old with multiple known CVEs. Update to the latest version and rebuild the container image.";
     dr_quantum_vulnerable := false;
     dr_check_id := EmptyString |}.

Definition container_cryptography_outdated (version : string) : draft :=
  {| dr_severity := "MEDIUM";
     dr_title := "Outdated Python cryptography package (" +:+ version +:+ ") in container image";
     dr_description := "The container image ships an outdated release of the Python 'cryptography' package that may have unpatched vulnerabilities.";
     dr_recommendation := "cryptography " +:+ version +:+ " may have unpatched vulnerabilities. Update to the latest version and rebuild the container image.";
     dr_quantum_vulnerable := false;
     dr_check_id := EmptyString |}.

Definition container_pyopenssl (version : string) : draft :=
  {| dr_severity := "MEDIUM";
     dr_title := "Outdated pyOpenSSL package (" +:+ version +:+ ") in container image";
     dr_description := "The container image ships an outdated pyOpenSSL release that may have known vulnerabilities in TLS or certificate handling.";
     dr_recommendation := "pyOpenSSL " +:+ version +:+ " may have known vulnerabilities. Update to the latest version.";
     dr_quantum_vulnerable := false;
     dr_check_id := EmptyString |}.

Definition container_libgcrypt (version : string) : draft :=
  {| dr_severity := "MEDIUM";
     dr_title := "Outdated libgcrypt (" +:+ version +:+ ") in container image";
     dr_description := "The container image bundles libgcrypt 1.8.x, an outdated branch that no longer receives current security fixes.";
     dr_recommendation := "libgcrypt 1.8.x is outdated. Update the base image.";
     dr_quantum_vulnerable := false;
     dr_check_id := EmptyString |}.

Definition container_library (name : string) (version : string) : draft :=
  {| dr_severity := "LOW";
     dr_title := "Container image contains crypto library (" +:+ name +:+ "@" +:+ version +:+ ")";
     dr_description := "The container image inventory includes a cryptographic library that should be tracked for lifecycle and CVE exposure.";
     dr_recommendation := "Review cryptographic library inventory and plan lifecycle management.";
     dr_quantum_vulnerable := false;
     dr_check_id := EmptyString |}.

(** * Endpoints *)

Definition skipped_extra (msg : string) : draft :=
  {| dr_severity := "INFO";
     dr_title := "Scanner skipped — optional extra not installed";
     dr_description := "A QUIRK scanner was skipped because its optional Python extra is not installed in this environment. Coverage for this protocol is incomplete until the extra is installed; the gap is reported informationally and does not impact the quantum-readiness score.";
     dr_recommendation := (match msg with EmptyString => "Install the missing optional extra (pip install 'quirk-scanner[<extra>]') and re-run the scan to obtain coverage for this protocol." | _ => msg end);
     dr_quantum_vulnerable := false;
     dr_check_id := EmptyString |}.

Definition skipped_tool (msg : string) : draft :=
  {| dr_severity := "INFO";
     dr_title := "Scanner skipped — required tool not installed";
     dr_description := "A QUIRK scan phase was skipped because a required external tool is not installed in this environment" +:+ (match msg with EmptyString => EmptyString | _ => " (" +:+ msg +:+ ")" end) +:+ ". Coverage for this domain is incomplete until the tool is installed; the gap is reported informationally.";
     dr_recommendation := "Install the missing tool (see `quirk doctor` for the exact command) and re-run the scan to obtain coverage.";
     dr_quantum_vulnerable := false;
     dr_check_id := EmptyString |}.

Definition jwks_unverified (host : string) : draft :=
  {| dr_severity := "HIGH";
     dr_title := "JWKS fetched with TLS certificate verification disabled";
     dr_description := "The JWKS at " +:+ host +:+ " was fetched with TLS certificate verification disabled (allow_insecure_jwks / --allow-insecure-jwks). Keys obtained this way could have been supplied by a network attacker.";
     dr_recommendation := "Install a certificate the scanner trusts on the JWKS endpoint and remove the allow_insecure_jwks setting.";
     dr_quantum_vulnerable := false;
     dr_check_id := EmptyString |}.

Definition tls_blocked : draft :=
  {| dr_severity := "MEDIUM";
     dr_title := "TLS handshake blocked assessment";
     dr_description := "The TLS handshake failed or timed out, so QUIRK could not evaluate the negotiated protocol version, cipher suite, or certificate. The endpoint's cryptographic posture is unknown and may hide misconfigurations.";
     dr_recommendation := "TLS handshake failure is blocking accurate cryptographic assessment. Validate handshake policy and endpoint expectations.";
     dr_quantum_vulnerable := false;
     dr_check_id := EmptyString |}.

Definition mtls_required : draft :=
  {| dr_severity := "INFO";
     dr_title := "mTLS required";
     dr_description := "The endpoint requires client certificate authentication (mTLS) before completing the TLS handshake. QUIRK was unable to authenticate; the trust chain and onboarding flow should be validated out-of-band.";
     dr_recommendation := "Confirm client certificate requirements and document trust chain and onboarding process.";
     dr_quantum_vulnerable := false;
     dr_check_id := EmptyString |}.

Definition source_incomplete (host : string) : draft :=
  {| dr_severity := "INFO";
     dr_title := "Source scan incomplete for " +:+ host;
     dr_description := "The source code scan of this repository failed or only partly completed, so its cryptographic usage was not fully assessed. Findings from other repositories are unaffected.";
     dr_recommendation := "Review the error detail, fix the cause (timeout, unreadable output, ruleset availability) and re-run the scan.";
     dr_quantum_vulnerable := false;
     dr_check_id := EmptyString |}.

Definition protocol_observation : draft :=
  {| dr_severity := "INFO";
     dr_title := "Informational protocol observation";
     dr_description := "QUIRK observed a non-fatal protocol behavior or availability issue while probing this endpoint. The observation is recorded for inventory purposes but does not by itself indicate a defect.";
     dr_recommendation := "Review protocol behavior and endpoint availability details.";
     dr_quantum_vulnerable := false;
     dr_check_id := EmptyString |}.

Definition plaintext_http : draft :=
  {| dr_severity := "HIGH";
     dr_title := "Plaintext HTTP service detected";
     dr_description := "This service responds to plaintext HTTP. Credentials, session tokens, and application payloads transit unencrypted and are trivially intercepted by anyone on the network path.";
     dr_recommendation := "Migrate management/application endpoints to HTTPS/TLS where feasible.";
     dr_quantum_vulnerable := false;
     dr_check_id := EmptyString |}.

Definition legacy_tls_versions : draft :=
  {| dr_severity := "LOW";
     dr_title := "Legacy TLS versions allowed (TLS 1.0/1.1)";
     dr_description := "This service accepts TLS 1.0 or TLS 1.1, protocols deprecated by the IETF (RFC 8996) and prohibited by PCI-DSS, FedRAMP, and most enterprise security baselines. Attackers can downgrade connections and exploit known cipher weaknesses.";
     dr_recommendation := "Disable TLS 1.0/1.1 and standardize on TLS 1.2+ (prefer TLS 1.3).";
     dr_quantum_vulnerable := false;
     dr_check_id := EmptyString |}.

Definition legacy_cipher_suites : draft :=
  {| dr_severity := "LOW";
     dr_title := "Legacy TLS cipher suites accepted";
     dr_description := "The endpoint negotiates legacy non-AEAD cipher suites (CBC-mode with HMAC-SHA1) that lack forward secrecy or use weak MACs. These suites are vulnerable to padding-oracle and downgrade attacks and do not meet modern enterprise baselines.";
     dr_recommendation := "Disable legacy cipher suites (e.g. AES128-SHA, AES256-SHA) and require AEAD suites with forward secrecy (AES-GCM, ChaCha20-Poly1305).";
     dr_quantum_vulnerable := false;
     dr_check_id := EmptyString |}.

Definition cert_expired (date : string) : draft :=
  {| dr_severity := "CRITICAL";
     dr_title := "TLS certificate expired";
     dr_description := "This certificate has passed its notAfter date. Clients receive trust warnings and may refuse to connect, breaking automated integrations and exposing users to phishing-style click-through normalization.";
     dr_recommendation := "Certificate expired " +:+ date +:+ ". Renew immediately — expired certs cause trust failures and may block legitimate clients.";
     dr_quantum_vulnerable := false;
     dr_check_id := EmptyString |}.

Definition cert_expiring (date : string) : draft :=
  {| dr_severity := "MEDIUM";
     dr_title := "TLS certificate expiring within 30 days";
     dr_description := "This certificate is approaching its notAfter date. Renew before expiry to avoid service interruption and trust warnings on dependent clients.";
     dr_recommendation := "Certificate expires " +:+ date +:+ ". Schedule renewal before expiry to avoid service disruption.";
     dr_quantum_vulnerable := false;
     dr_check_id := EmptyString |}.

Definition cert_self_signed : draft :=
  {| dr_severity := "HIGH";
     dr_title := "TLS certificate is self-signed";
     dr_description := "This certificate is self-signed and is not issued by a trusted certificate authority. Clients cannot verify the server's identity and are exposed to man-in-the-middle interception.";
     dr_recommendation := "The certificate's issuer is identical to its subject — the certificate is self-signed and is not anchored to a trusted certificate authority. Replace with a certificate issued by a trusted CA (public or internal PKI).";
     dr_quantum_vulnerable := false;
     dr_check_id := EmptyString |}.

Definition cert_untrusted_ca : draft :=
  {| dr_severity := "MEDIUM";
     dr_title := "TLS certificate issued by untrusted CA";
     dr_description := "This certificate chains to a certificate authority not in the system trust store. Clients cannot verify the server's identity, and connection establishment depends on out-of-band trust.";
     dr_recommendation := "Chain verification against the system trust store failed. The certificate is issued by a CA that is not present in the trust store. Replace with a certificate from a publicly trusted CA, or add the issuing CA to the system trust store if it is an internal PKI.";
     dr_quantum_vulnerable := false;
     dr_check_id := EmptyString |}.

Definition rsa_undersized (size : Z) : draft :=
  {| dr_severity := "HIGH";
     dr_title := "TLS certificate uses undersized RSA key";
     dr_description := "This certificate uses an RSA key below the classical 2048-bit minimum, which is breakable by today's classical attackers and is also vulnerable to a sufficiently large quantum computer. Captured ciphertext today can be decrypted retroactively under a 'harvest now, decrypt later' threat model.";
     dr_recommendation := "RSA-" +:+ pretty size +:+ " is below the 2048-bit classical minimum. Migrate to RSA-2048+ or ECDSA P-256 immediately, and plan migration to ML-KEM (FIPS 203) for key exchange and ML-DSA (FIPS 204) or SLH-DSA (FIPS 205) for signatures.";
     dr_quantum_vulnerable := true;
     dr_check_id := EmptyString |}.

Definition rsa_quantum : draft :=
  {| dr_severity := "MEDIUM";
     dr_title := "TLS certificate uses quantum-vulnerable RSA key";
     dr_description := "This certificate uses RSA, an algorithm vulnerable to attack by a sufficiently large quantum computer via Shor's algorithm. Captured ciphertext today can be decrypted retroactively once such a computer exists ('harvest now, decrypt later').";
     dr_recommendation := "Plan migration to ML-KEM (FIPS 203) for key exchange and ML-DSA (FIPS 204) or SLH-DSA (FIPS 205) for signatures.";
     dr_quantum_vulnerable := true;
     dr_check_id := EmptyString |}.

Definition ecdsa_undersized (size : Z) : draft :=
  {| dr_severity := "HIGH";
     dr_title := "TLS certificate uses undersized ECDSA key";
     dr_description := "This certificate uses an ECDSA key below the P-256 classical minimum and is vulnerable both to classical attack at this key size and to a sufficiently large quantum computer.";
     dr_recommendation := "ECDSA-" +:+ pretty size +:+ " is below the P-256 classical minimum. Migrate to P-256+ immediately and plan migration to ML-DSA (FIPS 204) or SLH-DSA (FIPS 205) for signatures and ML-KEM (FIPS 203) for key exchange.";
     dr_quantum_vulnerable := true;
     dr_check_id := EmptyString |}.

Definition ecdsa_quantum : draft :=
  {| dr_severity := "MEDIUM";
     dr_title := "TLS certificate uses quantum-vulnerable ECDSA key";
     dr_description := "This certificate uses ECDSA, an algorithm vulnerable to attack by a sufficiently large quantum computer. Signatures are forgeable and key-exchange material is recoverable in a post-quantum threat model.";
     dr_recommendation := "Plan migration to ML-DSA (FIPS 204) or SLH-DSA (FIPS 205) for signatures and ML-KEM (FIPS 203) for key exchange.";
     dr_quantum_vulnerable := true;
     dr_check_id := EmptyString |}.

Definition ssh_advisory : draft :=
  {| dr_severity := "INFO";
     dr_title := "SSH quantum planning advisory";
     dr_description := "This SSH host key or key-exchange algorithm relies on RSA or classical ECDH, both vulnerable to a sufficiently large quantum computer. Long-lived SSH credentials face 'harvest now, decrypt later' risk.";
     dr_recommendation := "Inventory SSH host keys and KEX algorithms; plan migration to post-quantum SSH using ML-KEM (FIPS 203) for key exchange when OpenSSH support lands.";
     dr_quantum_vulnerable := true;
     dr_check_id := EmptyString |}.

Definition unknown_service : draft :=
  {| dr_severity := "MEDIUM";
     dr_title := "Unknown open service";
     dr_description := "An open TCP port responded but QUIRK could not classify the running service. Unmapped services may carry undiscovered cryptographic risk and should be inventoried.";
     dr_recommendation := "Fingerprint with a deeper probe or validate service ownership and purpose.";
     dr_quantum_vulnerable := false;
     dr_check_id := EmptyString |}.

(** * Mail *)

Definition email_starttls : draft :=
  {| dr_severity := "MEDIUM";
     dr_title := "STARTTLS downgrade risk on SMTP";
     dr_description := "This SMTP service negotiates TLS opportunistically via STARTTLS. An in-path attacker can strip the STARTTLS capability advertisement, forcing plaintext mail delivery. The downgrade is invisible to agentless scanners and to the connecting MTA.";
     dr_recommendation := "STARTTLS (opportunistic TLS) is susceptible to stripping attacks that cannot be detected by an agentless scanner. An attacker in-path can suppress the STARTTLS capability advertisement, forcing plaintext delivery. Enforce MTA-STS (RFC 8461) or DANE (RFC 7672) to prevent stripping.";
     dr_quantum_vulnerable := false;
     dr_check_id := EmptyString |}.

Definition email_weak_cipher : draft :=
  {| dr_severity := "HIGH";
     dr_title := "Weak cipher suite on email TLS endpoint";
     dr_description := "This email TLS endpoint negotiates a non-PFS RSA key-exchange or legacy 3DES/RC4 cipher suite. Sessions lack forward secrecy and the underlying RSA key exchange is quantum-vulnerable: captured traffic can be decrypted retroactively.";
     dr_recommendation := "TLS_RSA_WITH_* suites use RSA key exchange (no forward secrecy) and are quantum-vulnerable. Disable non-PFS suites and require ECDHE or TLS 1.3 cipher suites across all email protocol ports. Plan migration to ML-KEM (FIPS 203) for key exchange.";
     dr_quantum_vulnerable := true;
     dr_check_id := EmptyString |}.

Definition email_non_pfs : draft :=
  {| dr_severity := "MEDIUM";
     dr_title := "Non-PFS cipher suite on email TLS endpoint";
     dr_description := "This email TLS endpoint advertises ECDHE but operates below TLS 1.3, leaving the key exchange vulnerable to Shor's algorithm on a sufficiently large quantum computer.";
     dr_recommendation := "ECDHE without TLS 1.3 provides forward secrecy but remains quantum-vulnerable via Shor's algorithm. Prefer TLS 1.3 AEAD suites (AES-GCM, ChaCha20-Poly1305) and plan migration to ML-KEM (FIPS 203) for key encapsulation.";
     dr_quantum_vulnerable := true;
     dr_check_id := EmptyString |}.

(** * Brokers *)

Definition kafka_plaintext : draft :=
  {| dr_severity := "HIGH";
     dr_title := "Plaintext Kafka listener detected";
     dr_description := "This Kafka broker exposes a PLAINTEXT listener. Topic data, consumer offsets, and SASL credentials transit unencrypted and are interceptable by anyone on the network path.";
     dr_recommendation := "Disable PLAINTEXT listener or restrict access; enforce SSL/SASL_SSL on broker port 9092.";
     dr_quantum_vulnerable := false;
     dr_check_id := EmptyString |}.

Definition amqp_plaintext : draft :=
  {| dr_severity := "HIGH";
     dr_title := "Plaintext AMQP listener detected";
     dr_description := "This AMQP broker accepts plaintext connections on port 5672. Message bodies, routing keys, and authentication credentials are exposed to any in-path attacker.";
     dr_recommendation := "Disable plaintext AMQP on port 5672; require AMQPS (port 5671) for all clients.";
     dr_quantum_vulnerable := false;
     dr_check_id := EmptyString |}.

Definition redis_plaintext : draft :=
  {| dr_severity := "HIGH";
     dr_title := "Plaintext Redis listener (no auth)";
     dr_description := "This Redis instance accepts plaintext connections without authentication. Cached session data, application secrets, and queued jobs are readable and writable by any network reachable client.";
     dr_recommendation := "Enable TLS on port 6380 and require AUTH; bind plaintext port to localhost only or disable.";
     dr_quantum_vulnerable := false;
     dr_check_id := EmptyString |}.

Definition broker_weak_cipher : draft :=
  {| dr_severity := "HIGH";
     dr_title := "Weak cipher suite on broker TLS endpoint";
     dr_description := "This broker TLS endpoint negotiates a non-PFS RSA key-exchange or legacy 3DES/RC4/weak-CBC cipher suite. Sessions lack forward secrecy and the underlying RSA key exchange is quantum-vulnerable.";
     dr_recommendation := "Broker is negotiating non-PFS RSA / 3DES / RC4 / weak-CBC suites. Disable TLS_RSA_WITH_* and legacy ciphers; require TLS 1.2+ AEAD or TLS 1.3. Plan migration to ML-KEM (FIPS 203) for key exchange.";
     dr_quantum_vulnerable := true;
     dr_check_id := EmptyString |}.

(** * Code signing *)

Definition codesign_expired (subject : string) (date : string) : draft :=
  {| dr_severity := "HIGH";
     dr_title := "Code-signing certificate expired: " +:+ subject;
     dr_description := "The code-signing certificate for '" +:+ subject +:+ "' expired on " +:+ date +:+ ". Software signed by this certificate can no longer be verified as authentic, creating a supply-chain trust failure.";
     dr_recommendation := "Renew the expired code-signing certificate immediately and re-sign all artifacts.";
     dr_quantum_vulnerable := false;
     dr_check_id := "CODESIGN_EXPIRY" |}.

Definition codesign_expiring (subject : string) (date : string) (days : Z) : draft :=
  {| dr_severity := "MEDIUM";
     dr_title := "Code-signing certificate expiring within 90 days: " +:+ subject;
     dr_description := "The code-signing certificate for '" +:+ subject +:+ "' expires on " +:+ date +:+ " (" +:+ pretty days +:+ " days remaining). Failure to renew before expiry will break software verification and block deployments.";
     dr_recommendation := "Renew this code-signing certificate before the not_after date.";
     dr_quantum_vulnerable := false;
     dr_check_id := "CODESIGN_APPROACHING_EXPIRY" |}.

Definition codesign_weak (subject : string) (reasons : string) (check : string) : draft :=
  {| dr_severity := "HIGH";
     dr_title := "Code-signing certificate uses weak algorithm: " +:+ subject;
     dr_description := "The code-signing certificate for '" +:+ subject +:+ "' uses weak cryptographic algorithm(s): " +:+ reasons +:+ ". This certificate is quantum-vulnerable and should be replaced with a stronger algorithm.";
     dr_recommendation := "Replace this code-signing certificate with one using a modern algorithm (RSA≥2048, ECDSA P-256 or stronger, SHA-256 or stronger). Plan migration to ML-DSA (FIPS 204) for long-term quantum safety.";
     dr_quantum_vulnerable := true;
     dr_check_id := check |}.

(** * SAML *)

Definition oidc_rs_family (sev : string) (alg : string) : draft :=
  {| dr_severity := sev;
     dr_title := "OIDC RS-family algorithm: " +:+ alg;
     dr_description := "OIDC endpoint uses " +:+ alg +:+ " which relies on RSA. RSA is quantum-vulnerable and will be broken by Shor's algorithm.";
     dr_recommendation := "Migrate OIDC token signing to ECDSA (ES256/ES384) or EdDSA per NIST PQC roadmap recommendations.";
     dr_quantum_vulnerable := true;
     dr_check_id := EmptyString |}.

Definition saml_sha1 : draft :=
  {| dr_severity := "HIGH";
     dr_title := "SHA-1 algorithm URI detected in SAML metadata";
     dr_description := "SAML metadata references SHA-1 signing algorithm. SHA-1 is collision-vulnerable since 2017 (SHAttered attack).";
     dr_recommendation := "Update IdP to use SHA-256 or SHA-384 signature algorithms.";
     dr_quantum_vulnerable := true;
     dr_check_id := EmptyString |}.

Definition saml_encryption_cert (alg : string) (size : Z) : draft :=
  {| dr_severity := "CRITICAL";
     dr_title := "Weak SAML encryption certificate: " +:+ alg +:+ "-" +:+ pretty size;
     dr_description := "SAML encryption certificate uses " +:+ pretty size +:+ "-bit " +:+ alg +:+ " key, below the 2048-bit minimum for RSA.";
     dr_recommendation := "Replace the IdP certificate with RSA-2048 minimum or switch to ECDSA P-256.";
     dr_quantum_vulnerable := true;
     dr_check_id := EmptyString |}.

Definition saml_signing_cert (alg : string) (size : Z) : draft :=
  {| dr_severity := "CRITICAL";
     dr_title := "Weak SAML signing certificate: " +:+ alg +:+ "-" +:+ pretty size;
     dr_description := "SAML signing certificate uses " +:+ pretty size +:+ "-bit " +:+ alg +:+ " key, below the 2048-bit minimum for RSA.";
     dr_recommendation := "Replace the IdP certificate with RSA-2048 minimum or switch to ECDSA P-256.";
     dr_quantum_vulnerable := true;
     dr_check_id := EmptyString |}.

(** * Bearer tokens *)

Definition bearer_unsigned (cause : string) : draft :=
  {| dr_severity := "CRITICAL";
     dr_title := "Bearer token is unsigned (alg:none)";
     dr_description := cause +:+ " The scanner did not verify the signature, but an unsigned token can be forged by anyone, so any verifier that accepts it grants access to whoever constructs it.";
     dr_recommendation := "Issue tokens signed with an asymmetric algorithm (for example RS256 or ES256), reject alg:none and missing-alg tokens at every verifier, and rotate this token.";
     dr_quantum_vulnerable := false;
     dr_check_id := EmptyString |}.
