(* ===== verification/Catalog.v ===== *)
(** Crypto classes of findings: the tables and [_classify_finding] of
    [src/quirk/reports/content_model.py].

    Labels and sentences are those of the report; a character beyond ASCII is
    written as its UTF-8 bytes. *)
From Stdlib Require Import ZArith Ascii.
From stdpp Require Import base tactics strings list.
From S2P Require Import Prelude PyVal.

(** Risk label, impact sentence, quantum-risk sentence by crypto class. *)
Definition ALGO_IMPACT_MAP : list (string * (string * string * string)) :=
  [("RSA", ("Harvest-now-decrypt-later exposure",
     "adversaries may already be archiving encrypted traffic for future decryption.",
     "RSA key material is vulnerable to Shor's algorithm — a sufficiently powerful quantum computer can factor the modulus and recover the private key, breaking both confidentiality and non-repudiation."));
   ("ECC", ("Harvest-now-decrypt-later exposure",
     "adversaries may already be archiving encrypted traffic for future decryption.",
     "Elliptic-curve key material is vulnerable to Shor's algorithm — quantum computers can solve the discrete logarithm problem and recover the private key, compromising authentication and forward secrecy."));
   ("ECDSA", ("Harvest-now-decrypt-later exposure",
     "adversaries may already be archiving encrypted traffic for future decryption.",
     "Elliptic-curve key material is vulnerable to Shor's algorithm — quantum computers can solve the discrete logarithm problem and recover the private key, compromising authentication and forward secrecy."));
   ("DH", ("Harvest-now-decrypt-later exposure",
     "adversaries may already be archiving encrypted traffic for future decryption.",
     "Diffie–Hellman key exchange is vulnerable to Shor's algorithm — a quantum adversary can solve the discrete log problem on recorded sessions, retroactively decrypting captured traffic."));
   ("DSA", ("Harvest-now-decrypt-later exposure",
     "adversaries may already be archiving encrypted traffic for future decryption.",
     "DSA signatures rely on the discrete logarithm problem, which Shor's algorithm breaks — a quantum attacker can forge signatures and impersonate the signing entity."));
   ("WEAK_HASH", ("Integrity risk",
     "weak hashing algorithms undermine tamper-evidence guarantees.",
     "MD5 collision resistance is already broken classically; quantum speedups (Grover's algorithm) further halve the effective security margin, making collision attacks feasible with modest resources."));
   ("MD5", ("Integrity risk",
     "weak hashing algorithms undermine tamper-evidence guarantees.",
     "MD5 collision resistance is already broken classically; quantum speedups (Grover's algorithm) further halve the effective security margin, making collision attacks feasible with modest resources."));
   ("SHA1", ("Integrity risk",
     "weak hashing algorithms undermine tamper-evidence guarantees.",
     "SHA-1 collision resistance is broken classically; Grover's algorithm halves the quantum bit-security to ~40 bits, making pre-image and collision attacks practical for state-level adversaries."));
   ("SHA-1", ("Integrity risk",
     "weak hashing algorithms undermine tamper-evidence guarantees.",
     "SHA-1 collision resistance is broken classically; Grover's algorithm halves the quantum bit-security to ~40 bits, making pre-image and collision attacks practical for state-level adversaries."));
   ("WEAK_KEY_EXCHANGE", ("Authentication exposure",
     "weak key exchange allows credential interception.",
     "Export-grade and short-parameter key exchange can be broken in real time by a classical adversary today; quantum acceleration makes recovery of session keys trivially fast."));
   ("DHE_EXPORT", ("Authentication exposure",
     "weak key exchange allows credential interception.",
     "Export-grade and short-parameter key exchange can be broken in real time by a classical adversary today; quantum acceleration makes recovery of session keys trivially fast."));
   ("RC4", ("Authentication exposure",
     "weak key exchange allows credential interception.",
     "RC4 stream cipher is cryptographically broken classically; even without quantum acceleration it provides no meaningful confidentiality — remediation is overdue."));
   ("3DES", ("Authentication exposure",
     "weak key exchange allows credential interception.",
     "Triple-DES and DES use 56–168-bit key lengths that Grover's algorithm reduces to at most 84 effective bits — insufficient for any security boundary beyond 2030."));
   ("DES", ("Authentication exposure",
     "weak key exchange allows credential interception.",
     "Triple-DES and DES use 56–168-bit key lengths that Grover's algorithm reduces to at most 84 effective bits — insufficient for any security boundary beyond 2030."));
   ("CODESIGN_EXPIRY", ("Supply-chain trust failure",
     "expired code-signing certificate breaks software verification chains.",
     "An expired code-signing certificate breaks the trust chain — any software signed by this certificate can no longer be verified as authentic, enabling supply-chain attacks or silent malware delivery."));
   ("CODESIGN_APPROACHING_EXPIRY", ("Imminent supply-chain risk",
     "code-signing certificate nearing expiry risks blocking deployments.",
     "A code-signing certificate expiring within 90 days creates operational risk — if not renewed before expiry, software signed by this certificate will fail verification, blocking deployments and breaking trust."))].

Definition FALLBACK_QUANTUM_RISK : string :=
  "This cryptographic weakness reduces the security margin against quantum-capable adversaries. Migrate to NIST-approved post-quantum algorithms per NIST IR 8547.".

Definition REMEDIATION_CATALOG : list (string * string) :=
  [("RSA",
     "Replace RSA keys with NIST PQC standard algorithms: ML-KEM (FIPS 203) for key encapsulation or ML-DSA (FIPS 204) for digital signatures. Prioritize certificates and TLS endpoints first.");
   ("ECC",
     "Replace ECDSA/ECDH keys with ML-DSA (FIPS 204) for signatures or ML-KEM (FIPS 203) for key encapsulation. During transition, deploy hybrid TLS (X25519+ML-KEM) as an intermediate step.");
   ("ECDSA",
     "Replace ECDSA/ECDH keys with ML-DSA (FIPS 204) for signatures or ML-KEM (FIPS 203) for key encapsulation. During transition, deploy hybrid TLS (X25519+ML-KEM) as an intermediate step.");
   ("DH",
     "Disable finite-field Diffie–Hellman key exchange. Configure TLS to prefer X25519 (classical) or X25519+ML-KEM hybrid groups; disable DHE cipher suites in the server's TLS configuration.");
   ("DSA",
     "Disable DSA. Replace DSA-based SSH host keys and certificates with Ed25519 (short-term) or ML-DSA (FIPS 204) when library support is available.");
   ("WEAK_HASH",
     "Replace MD5 in all signing, integrity, and authentication contexts. Use SHA-256 or SHA-3-256 as minimum. Reject MD5-signed certificates at the trust-store level.");
   ("MD5",
     "Replace MD5 in all signing, integrity, and authentication contexts. Use SHA-256 or SHA-3-256 as minimum. Reject MD5-signed certificates at the trust-store level.");
   ("SHA1",
     "Replace SHA-1 signatures with SHA-256 or stronger. Reissue any SHA-1-signed certificates. Configure TLS to reject SHA-1 in the signature_algorithms extension.");
   ("SHA-1",
     "Replace SHA-1 signatures with SHA-256 or stronger. Reissue any SHA-1-signed certificates. Configure TLS to reject SHA-1 in the signature_algorithms extension.");
   ("WEAK_KEY_EXCHANGE",
     "Remove all export-grade cipher suites from TLS configuration. Disable DHE_EXPORT and similar suites. Apply OS and application TLS hardening guides (e.g., Mozilla SSL Config Generator — Intermediate or Modern profile).");
   ("DHE_EXPORT",
     "Remove all export-grade cipher suites from TLS configuration. Disable DHE_EXPORT and similar suites. Apply OS and application TLS hardening guides (e.g., Mozilla SSL Config Generator — Intermediate or Modern profile).");
   ("RC4",
     "Disable RC4 in all TLS and non-TLS contexts. RC4 is prohibited by RFC 7465. Replace with AES-128-GCM or AES-256-GCM cipher suites.");
   ("3DES",
     "Disable 3DES and DES cipher suites (Sweet32 / NIST SP 800-131A Rev 2 disallowed after 2023). Replace with AES-GCM. Verify no legacy application dependency remains before removal.");
   ("DES",
     "Disable 3DES and DES cipher suites (Sweet32 / NIST SP 800-131A Rev 2 disallowed after 2023). Replace with AES-GCM. Verify no legacy application dependency remains before removal.");
   ("CODESIGN_EXPIRY",
     "Renew the expired code-signing certificate immediately and re-sign all artifacts. Revoke the expired certificate via the issuing CA and update any pinned certificate references in build pipelines.");
   ("CODESIGN_APPROACHING_EXPIRY",
     "Renew this code-signing certificate before the not_after date. Update automated renewal policy and alert thresholds to trigger at 90 days remaining to prevent future expiry.")].

Definition RISK_SEVERITY_INCLUDE : list string := ["CRITICAL"; "HIGH"; "MEDIUM"].

(** The first match wins. *)
Definition ALGO_KEYWORDS : list string :=
  ["CODESIGN_APPROACHING_EXPIRY";
   "CODESIGN_EXPIRY";
   "RSA";
   "ECC";
   "ECDSA";
   "DH";
   "DSA";
   "WEAK_HASH";
   "MD5";
   "SHA1";
   "SHA-1";
   "WEAK_KEY_EXCHANGE";
   "DHE_EXPORT";
   "RC4";
   "3DES";
   "DES"].

(** [_classify_finding] on a finding without a category: the first keyword in
    the upper-cased texts, for severities from MEDIUM up. *)
Definition search_text (title description check_id : string) : string :=
  upper (title +:+ " " +:+ description +:+ " " +:+ " " +:+ check_id).

Definition classify_finding (severity title description check_id : string) : option string :=
  if negb (str_in (upper severity) RISK_SEVERITY_INCLUDE) then None
  else List.find (fun keyword => contains (search_text title description check_id) (upper keyword)) ALGO_KEYWORDS.
