(* ===== verification/Compliance.v ===== *)
(** Compliance mapping and finding identity.

    The framework controls of each finding title and the title normaliser
    ([src/quirk/compliance/__init__.py]), and the fingerprint of a finding
    ([src/quirk/ticketing/base.py]).  A character beyond ASCII is written as
    its UTF-8 bytes. *)
From Stdlib Require Import ZArith Ascii Lia.
From stdpp Require Import base tactics sets strings list pretty.
From S2P Require Import Prelude PyVal Model.

Local Open Scope Z_scope.

Record compliance_control := {
  cc_framework : string;
  cc_control : string;
  cc_version : string;
  cc_last_verified : string;
  cc_source_url : string
}.

Definition PHASE_49_VERIFIED : string := "2026-05-05".
Definition PCI_4_0_1_URL : string := "https://docs-prv.pcisecuritystandards.org/PCI%20DSS/Standard/PCI-DSS-v4_0_1.pdf".
Definition HIPAA_164_312_URL : string := "https://www.ecfr.gov/current/title-45/subtitle-A/subchapter-C/part-164/subpart-C/section-164.312".
Definition FIPS_140_3_URL : string := "https://csrc.nist.gov/pubs/fips/140-3/final".
Definition PHASE_52_VERIFIED : string := "2026-05-05".
Definition SOC2_CC_URL : string := "https://www.aicpa-cima.com/topic/audit-assurance/audit-and-assurance-greater/trust-services-criteria".
Definition ISO_27001_URL : string := "https://www.iso.org/standard/82875.html".

Definition pci (control : string) : compliance_control :=
  {| cc_framework := "PCI-DSS 4.0.1"; cc_control := control; cc_version := "4.0.1";
     cc_last_verified := PHASE_49_VERIFIED; cc_source_url := PCI_4_0_1_URL |}.

Definition hipaa (control : string) : compliance_control :=
  {| cc_framework := "HIPAA 45 CFR"; cc_control := control; cc_version := "2024-rev";
     cc_last_verified := PHASE_49_VERIFIED; cc_source_url := HIPAA_164_312_URL |}.

Definition fips (control : string) : compliance_control :=
  {| cc_framework := "FIPS 140-3"; cc_control := control; cc_version := "FIPS 140-3";
     cc_last_verified := PHASE_49_VERIFIED; cc_source_url := FIPS_140_3_URL |}.

Definition soc2 (control : string) : compliance_control :=
  {| cc_framework := "SOC2 CC"; cc_control := control; cc_version := "2017-rev";
     cc_last_verified := PHASE_52_VERIFIED; cc_source_url := SOC2_CC_URL |}.

Definition iso (control : string) : compliance_control :=
  {| cc_framework := "ISO 27001:2022"; cc_control := control; cc_version := "ISO 27001:2022";
     cc_last_verified := PHASE_52_VERIFIED; cc_source_url := ISO_27001_URL |}.

(** * Titles *)

Definition TITLE_PREFIX_ALIASES : list (string * string) :=
  [("End-of-life ", "End-of-life in container image");
   ("Container image uses quantum-vulnerable crypto library (", "Container image uses quantum-vulnerable crypto library");
   ("Severely outdated Python cryptography package (", "Severely outdated Python cryptography package in container image");
   ("Outdated Python cryptography package (", "Outdated Python cryptography package in container image");
   ("Outdated pyOpenSSL package (", "Outdated pyOpenSSL package in container image");
   ("Outdated libgcrypt (", "Outdated libgcrypt in container image");
   ("Container image contains crypto library (", "Container image contains crypto library")].

(** The longest prefix of the table that starts the title; the title itself
    when none does.  [None] is the default table. *)
Definition normalize_finding_title (title : string) (aliases : option (list (string * string))) : string :=
  let table := default TITLE_PREFIX_ALIASES aliases in
  default title (first_prefix title (py_sorted longer_first table)).

Definition IDENTITY_BEARING_PREFIXES : list string :=
  ["Container image uses quantum-vulnerable crypto library (";
   "Container image contains crypto library ("].

Definition FINGERPRINT_TITLE_ALIASES : list (string * string) :=
  aset "Certificate expiring in " "Certificate expiring soon"
    (List.filter (fun pc => negb (str_in pc.1 IDENTITY_BEARING_PREFIXES)) TITLE_PREFIX_ALIASES).

(** * Controls *)

Definition COMPLIANCE_MAP : list (string * list compliance_control) :=
  [("Plaintext HTTP service detected",
     [pci "4.2.1"; hipaa "§164.312(e)(1)"; soc2 "CC6.7"; iso "8.26"]);
   ("Legacy TLS versions allowed (TLS 1.0/1.1)",
     [pci "4.2.1"; pci "4.2.1.1"; hipaa "§164.312(e)(1)"; fips "Not-Approved (SP 800-131A R2)"; soc2 "CC6.6"; soc2 "CC6.7"; iso "8.26"]);
   ("Legacy TLS cipher suites accepted",
     [pci "4.2.1"; hipaa "§164.312(e)(1)"; fips "Not-Approved (SP 800-131A R2)"; soc2 "CC6.7"; iso "8.26"]);
   ("TLS certificate expired",
     [pci "4.2.1.1"; soc2 "CC6.6"; iso "8.24"]);
   ("TLS certificate expiring within 30 days",
     [pci "4.2.1.1"; soc2 "CC6.6"; iso "8.24"]);
   ("TLS certificate is self-signed",
     [pci "4.2.1.1"; soc2 "CC6.6"; iso "8.24"]);
   ("TLS certificate issued by untrusted CA",
     [pci "4.2.1.1"; soc2 "CC6.6"; iso "8.24"]);
   ("TLS certificate uses undersized RSA key",
     [pci "6.3.3"; hipaa "§164.312(a)(2)(iv)"; fips "Not-Approved (SP 800-131A R2: RSA <2048)"; soc2 "CC6.6"; iso "8.24"]);
   ("TLS certificate uses undersized ECDSA key",
     [pci "6.3.3"; hipaa "§164.312(a)(2)(iv)"; fips "Not-Approved (SP 800-186: curve <256-bit)"; soc2 "CC6.6"; iso "8.24"]);
   ("TLS certificate uses quantum-vulnerable RSA key",
     [pci "6.3.3"; fips "Approved with Deprecation 2030/2035 (NIST IR 8547)"; soc2 "CC6.6"; iso "8.24"]);
   ("TLS certificate uses quantum-vulnerable ECDSA key",
     [pci "6.3.3"; fips "Approved with Deprecation 2030/2035 (NIST IR 8547)"; soc2 "CC6.6"; iso "8.24"]);
   ("STARTTLS downgrade risk on SMTP",
     [pci "4.2.1"; hipaa "§164.312(e)(2)(ii)"; soc2 "CC6.7"; iso "8.26"]);
   ("Weak cipher suite on email TLS endpoint",
     [pci "4.2.1"; hipaa "§164.312(e)(1)"; soc2 "CC6.7"; iso "8.26"]);
   ("Non-PFS cipher suite on email TLS endpoint",
     [pci "4.2.1"; soc2 "CC6.7"; iso "8.26"]);
   ("Plaintext Kafka listener detected",
     [pci "4.2.1"; hipaa "§164.312(e)(1)"; soc2 "CC6.7"; iso "8.26"]);
   ("Plaintext AMQP listener detected",
     [pci "4.2.1"; hipaa "§164.312(e)(1)"; soc2 "CC6.7"; iso "8.26"]);
   ("Plaintext Redis listener (no auth)",
     [pci "4.2.1"; pci "8.3.2"; hipaa "§164.312(e)(1)"; soc2 "CC6.6"; soc2 "CC6.7"; iso "8.26"]);
   ("Weak cipher suite on broker TLS endpoint",
     [pci "4.2.1"; hipaa "§164.312(e)(1)"; soc2 "CC6.7"; iso "8.26"]);
   ("End-of-life in container image",
     [pci "6.3.3"; fips "Not-Approved (legacy crypto library default primitives)"; soc2 "CC6.7"; iso "8.26"]);
   ("Container image uses quantum-vulnerable crypto library",
     [fips "Approved with Deprecation 2030/2035 (NIST IR 8547)"; soc2 "CC6.6"; iso "8.24"]);
   ("Severely outdated Python cryptography package in container image",
     [pci "6.3.3"; soc2 "CC6.7"; iso "8.26"]);
   ("Outdated Python cryptography package in container image",
     [pci "6.3.3"; soc2 "CC6.7"; iso "8.26"]);
   ("Outdated pyOpenSSL package in container image",
     [pci "6.3.3"; soc2 "CC6.7"; iso "8.26"]);
   ("Outdated libgcrypt in container image",
     [pci "6.3.3"; soc2 "CC6.7"; iso "8.26"])].

Definition UNMAPPED_TITLES : list string :=
  ["Scanner skipped — optional extra not installed";
   "TLS handshake blocked assessment";
   "mTLS required";
   "Informational protocol observation";
   "SSH quantum planning advisory";
   "Unknown open service";
   "Container image contains crypto library";
   "JWKS fetched with TLS certificate verification disabled";
   "Bearer token is unsigned (alg:none)"].

(** [COMPLIANCE_MAP.get(normalize_finding_title(title), [])]. *)
Definition compliance_of (title : string) : list compliance_control :=
  default [] (alookup (normalize_finding_title title None) COMPLIANCE_MAP).

(** * Fingerprints *)

(** [TicketingChannel.compute_fingerprint]: the digest of host, port and
    normalised title; port 0 reads as absent. *)
Definition fingerprint_payload (f : finding) : string :=
  let port := match f_port f with Some p => if p =? 0 then EmptyString else pretty p | None => EmptyString end in
  str_or_empty (f_host f) +:+ ":" +:+ port +:+ "::"
  +:+ normalize_finding_title (str_or_empty (f_title f)) (Some FINGERPRINT_TITLE_ALIASES).

Definition compute_fingerprint (sha256 : string -> string) (f : finding) : string :=
  sha256 (fingerprint_payload f).
