(* ===== verification/Evidence.v ===== *)
(** The evidence summary: [src/quirk/intelligence/evidence.py].

    [build_evidence_summary] is one pass over the endpoint rows, a pass over
    the findings and the assembly of the summary dictionary. The loop body is
    [step]; the plain counters an endpoint increments are its [ticks], one
    definition per block of the body; the two sets and the SAML certificate
    dedupe are state of the fold. *)
From Stdlib Require Import ZArith QArith Lia Ascii.
From stdpp Require Import base tactics gmap sets strings list pretty.
From S2P Require Import Prelude PyFloat PyVal WeakCrypto Model.

Local Open Scope Z_scope.

Definition EVIDENCE_SCHEMA_VERSION : string := "1.4.0".

Definition PQC_CERT_KEY_TOKENS : list string :=
  ["ML-DSA"; "MLDSA"; "SLH-DSA"; "SLHDSA"; "DILITHIUM"; "FALCON"; "FN-DSA"; "FNDSA"; "SPHINCS"].

Definition NON_ASSET_PROTOCOLS : list string := ["ADVISORY"; "CLOSED"].

Definition EMAIL_PROBE_PROTOCOLS : list string :=
  ["SMTP-STARTTLS"; "SMTPS"; "IMAP-STARTTLS"; "IMAPS"; "POP3-STARTTLS"; "POP3S"].

Definition NO_RESPONSE_BLOCKERS : list string := ["CONNECTION_REFUSED"; "TIMEOUT"].

Definition SCORE_NEUTRAL_FINDING_CATEGORIES : list string := ["config_advisory"].

Definition PROTOCOL_KEYS : list string :=
  ["TLS"; "HTTP"; "SSH"; "UNKNOWN"; "KERBEROS"; "SAML"; "DNSSEC";
   "POSTGRESQL"; "MYSQL"; "RDS"; "S3"; "AZURE_BLOB"; "KUBERNETES"; "VAULT";
   "CONTAINER"; "SOURCE"; "AWS"; "AZURE"; "GCP"; "CLOUD_SQL";
   "BEARER_TOKEN"; "OPENAPI"; "CODE_SIGNING"; "REST_FUZZ";
   "SMTP-STARTTLS"; "SMTPS"; "IMAPS"; "IMAP-STARTTLS"; "POP3S";
   "POP3-STARTTLS"; "KAFKA-PLAIN"; "KAFKA-TLS"; "AMQP-PLAIN"; "AMQPS";
   "AMQPS/AZURE-SERVICEBUS"; "HTTPS/AWS-SQS"; "REDIS-PLAIN"; "REDIS-TLS";
   "SMIME"; "ADCS"].

(** [str(getattr(ep, col, "") or "")], upper-cased for the protocol. *)
Definition proto_of (ep : CryptoEndpoint) : string := upper (str_or_empty (ep_protocol ep)).
Definition detail_of (ep : CryptoEndpoint) : string := str_or_empty (ep_service_detail ep).
Definition has_error (ep : CryptoEndpoint) : bool := truthy_str (ep_scan_error ep).
Definition target_of (ep : CryptoEndpoint) : string * Z := (ep_host ep, ep_port ep).

Definition is_unanswered_email_probe (ep : CryptoEndpoint) : bool :=
  if negb (str_in (proto_of ep) EMAIL_PROBE_PROTOCOLS) then false
  else if negb (str_in (str_or_empty (ep_tls_blocker_reason ep)) NO_RESPONSE_BLOCKERS) then false
  else negb (truthy_str (ep_tls_version ep)).

(** The serial of [_saml_cert_serial]: the first [serial=] token decides. *)
Fixpoint first_serial (tokens : list string) : option string :=
  match tokens with
  | [] => None
  | t :: ts =>
      let token := strip t in
      if startswith token "serial=" then
        match lower (strip (String.substring 7 (String.length token - 7) token)) with
        | EmptyString => None
        | s => Some s
        end
      else first_serial ts
  end.

Definition saml_cert_serial (service_detail : string) : option string :=
  first_serial (split_on "|"%char service_detail).

(** The reference instant: given, else the latest [scanned_at], else the epoch. *)
Definition latest_scan (endpoints : list CryptoEndpoint) : option Z :=
  List.fold_left (fun latest ep =>
    match ep_scanned_at ep with
    | None => latest
    | Some d =>
        let v := as_utc_naive d in
        match latest with
        | None => Some v
        | Some l => if l <? v then Some v else latest
        end
    end) endpoints None.

Definition resolve_reference_utc (endpoints : list CryptoEndpoint) (reference_utc : option datetime) : Z :=
  match reference_utc with
  | Some d => as_utc_naive d
  | None => default 0 (latest_scan endpoints)
  end.

(** * The blocks of the loop body *)

(** [if b: counter += 1]. *)
Definition tick_if (b : bool) (counter : string) : list string := if b then [counter] else [].

Definition is_kerberos_placeholder (ep : CryptoEndpoint) : bool :=
  str_eqb (proto_of ep) "KERBEROS" && negb (has_error ep) && negb (contains (detail_of ep) "etype:").

Definition coverage_ticks (ep : CryptoEndpoint) : list string :=
  tick_if (contains (detail_of ep) "pqc-hybrid-detected") "pqc_hybrid_endpoint_count"
  ++ tick_if (str_eqb (proto_of ep) "TLS" && truthy_str (ep_tls_supported_versions ep)) "tls_enum_success_count"
  ++ tick_if (str_eqb (proto_of ep) "TLS"
              && has_legacy_tls_versions_signal (ep_tls_version ep) (ep_tls_supported_versions ep))
       "legacy_tls_count"
  ++ tick_if (has_error ep) "scan_error_count"
  ++ tick_if (is_kerberos_placeholder ep) "kerberos_placeholder_count"
  ++ tick_if (str_eqb (proto_of ep) "KERBEROS" && has_error ep) "kerberos_scan_error_count"
  ++ (if str_in (proto_of ep) NON_ASSET_PROTOCOLS then []
      else "assessable_endpoint_count"
           :: tick_if (negb (str_eqb (proto_of ep) "UNKNOWN") && negb (has_error ep)
                       && negb (is_kerberos_placeholder ep)) "assessed_crypto_count").

Definition dash (c : Ascii.ascii) : Ascii.ascii := if bool_decide (c = "_"%char) then "-"%char else c.

(** The certificate key bucket of a row, if any: the PQC names first. *)
Definition key_bucket (ep : CryptoEndpoint) : option string :=
  let key_alg := upper (str_or_empty (ep_cert_pubkey_alg ep)) in
  if any_token PQC_CERT_KEY_TOKENS (smap dash key_alg) then
    match ep_cert_not_after ep with Some _ => Some "PQC" | None => None end
  else if startswith key_alg "RSA" then Some "RSA"
  else if startswith key_alg "EC" || startswith key_alg "ECDSA" then Some "ECDSA"
  else if startswith key_alg "ED25519" || startswith key_alg "ED448" || startswith key_alg "EDDSA"
       then Some "ECDSA"
  else None.

Definition certificate_ticks (ref_utc cutoff : Z) (ep : CryptoEndpoint) : list string :=
  match ep_cert_not_after ep with
  | None => []
  | Some d =>
      let na := as_utc_naive d in
      "certs_observed" ::
      (if na <? ref_utc then ["cert_expired_count"]
       else tick_if (na <=? cutoff) "cert_expiring_count")
  end
  ++ (let subject := strip (str_or_empty (ep_cert_subject ep)) in
      let issuer := strip (str_or_empty (ep_cert_issuer ep)) in
      tick_if (negb (str_eqb subject EmptyString) && negb (str_eqb issuer EmptyString)
               && str_eqb subject issuer) "cert_self_signed_count").

Definition size_below (bound : Z) (ep : CryptoEndpoint) : bool :=
  match ep_cert_pubkey_size ep with Some n => n <? bound | None => false end.

Definition kerberos_ticks (ep : CryptoEndpoint) : list string :=
  let parts := split_on ":"%char (detail_of ep) in
  tick_if ((4 <=? length parts)%nat && str_in (default EmptyString (last parts)) ["CRITICAL"; "HIGH"])
    "identity_weak_etype_count".

Definition DNSSEC_WEAK_ALGS : list string :=
  ["RSASHA1"; "RSASHA1-NSEC3-SHA1"; "RSAMD5"; "DSA"; "DSA-NSEC3-SHA1"; "SHA1-DS"].

Definition dnssec_ticks (ep : CryptoEndpoint) : list string :=
  let alg := upper (str_or_empty (ep_cert_pubkey_alg ep)) in
  tick_if (str_in alg DNSSEC_WEAK_ALGS || str_eqb alg "NONE") "dnssec_weak_algo_count".

Definition smime_ticks (ep : CryptoEndpoint) : list string :=
  let alg := upper (str_or_empty (ep_cert_pubkey_alg ep)) in
  tick_if (is_weak_cipher (ep_cert_sig_alg ep) || is_weak_cipher (Some alg)) "smime_weak_signing_count"
  ++ tick_if (match ep_cert_pubkey_size ep with Some n => (0 <? n) && (n <? 2048) | None => false end)
       "smime_weak_key_count"
  ++ tick_if (contains (lower (detail_of ep)) "expired=true") "smime_expired_count".

Definition adcs_ticks (ep : CryptoEndpoint) : list string :=
  let detail := lower (detail_of ep) in
  if contains detail "weak-signing-alg" || is_weak_cipher (ep_cert_sig_alg ep)
  then ["adcs_weak_signing_count"]
  else if existsb (contains detail) ["esc1-"; "esc2-"; "esc3-"] then ["adcs_weak_template_count"]
  else if contains detail "esc6-" then ["adcs_misconfig_count"]
  else tick_if (startswith detail "coverage-gap|") "adcs_coverage_gap_count".

Definition postgresql_ticks (ep : CryptoEndpoint) : list string :=
  if str_eqb (str_or_empty (ep_scan_error ep)) "insufficient-privilege" then []
  else tick_if (contains (detail_of ep) "ssl-off") "dar_db_plaintext_count".

Definition mysql_ticks (ep : CryptoEndpoint) : list string :=
  if contains (detail_of ep) "ssl-off" then ["dar_db_plaintext_count"]
  else tick_if (contains (detail_of ep) "-weak") "dar_db_weak_ssl_count".

Definition s3_ticks (ep : CryptoEndpoint) : list string :=
  if contains (detail_of ep) "S3/unencrypted" then ["dar_storage_unencrypted_count"]
  else tick_if (contains (detail_of ep) "S3/sse-kms-aws") "dar_storage_aws_managed_count".

Definition kubernetes_ticks (ep : CryptoEndpoint) : list string :=
  let sd := detail_of ep in
  let scan_err := str_or_empty (ep_scan_error ep) in
  if contains sd "/unencrypted" then ["dar_k8s_unencrypted_count"]
  else tick_if (str_eqb scan_err "insufficient-rbac-privileges"
                || str_eqb scan_err "encryption-config-inaccessible"
                || contains sd "encryption-config-inaccessible"
                || contains sd "/platform-managed") "dar_k8s_inaccessible_count".

Definition severity_upper (ep : CryptoEndpoint) : string := upper (str_or_empty (ep_severity ep)).

Definition bearer_ticks (ep : CryptoEndpoint) : list string :=
  let alg := str_or_empty (ep_cert_pubkey_alg ep) in
  tick_if (negb (str_eqb alg EmptyString) && negb (str_eqb (lower alg) "none"))
    "bearer_token_weak_alg_count".

Definition openapi_ticks (ep : CryptoEndpoint) : list string :=
  let detail := lower (detail_of ep) in
  tick_if (contains detail "http-server" || contains detail "plaintext") "openapi_plaintext_server_count".

Definition codesign_ticks (ep : CryptoEndpoint) : list string :=
  tick_if (str_in "weak" (split_on "|"%char (lower (detail_of ep)))) "codesign_weak_algo_count".

Definition cipher_upper (ep : CryptoEndpoint) : string := upper (str_or_empty (ep_cipher_suite ep)).

Definition broker_tls_ticks (ep : CryptoEndpoint) : list string :=
  let cipher := cipher_upper ep in
  tick_if (is_legacy_tls_version (Some (upper (str_or_empty (ep_tls_version ep)))))
    "motion_broker_weak_tls_count"
  ++ tick_if (negb (str_eqb cipher EmptyString)
              && (startswith cipher "TLS_RSA_WITH_" || is_weak_cipher (Some cipher)
                  || (existsb (contains cipher) ["AES128-SHA"; "AES256-SHA"]
                      && negb (contains cipher "ECDHE") && negb (contains cipher "DHE"))))
       "motion_broker_weak_cipher_count".

Definition starttls_ticks (ep : CryptoEndpoint) : list string :=
  if negb (truthy_str (ep_tls_version ep)) then ["motion_email_starttls_missing_count"]
  else let cipher := cipher_upper ep in
       tick_if (negb (str_eqb cipher EmptyString)
                && (startswith cipher "TLS_RSA_WITH_" || is_weak_cipher (Some cipher)))
         "motion_email_weak_cipher_count".

Definition implicit_tls_ticks (ep : CryptoEndpoint) : list string :=
  if negb (truthy_str (ep_tls_version ep)) then ["motion_email_plaintext_count"]
  else let cipher := cipher_upper ep in
       tick_if (negb (str_eqb cipher EmptyString)
                && (startswith cipher "TLS_RSA_WITH_" || existsb (contains cipher) ["3DES"; "RC4"]))
         "motion_email_weak_cipher_count".

(** The [if proto == ...: elif ...] chain, the SAML branch apart. *)
Definition protocol_ticks (ep : CryptoEndpoint) : list string :=
  let proto := proto_of ep in
  if str_eqb proto "KERBEROS" then kerberos_ticks ep
  else if str_eqb proto "SAML" then []
  else if str_eqb proto "DNSSEC" then dnssec_ticks ep
  else if str_eqb proto "SMIME" then smime_ticks ep
  else if str_eqb proto "ADCS" then adcs_ticks ep
  else if str_eqb proto "POSTGRESQL" then postgresql_ticks ep
  else if str_eqb proto "MYSQL" then mysql_ticks ep
  else if str_eqb proto "RDS" then tick_if (contains (detail_of ep) "RDS/none") "dar_db_plaintext_count"
  else if str_eqb proto "S3" then s3_ticks ep
  else if str_eqb proto "AZURE_BLOB" then
    tick_if (contains (detail_of ep) "BLOB/platform-managed" || contains (detail_of ep) "BLOB/unknown")
      "dar_storage_aws_managed_count"
  else if str_eqb proto "KUBERNETES" then kubernetes_ticks ep
  else if str_eqb proto "VAULT" then tick_if (str_eqb (severity_upper ep) "HIGH") "dar_vault_weak_count"
  else if str_eqb proto "BEARER_TOKEN" then bearer_ticks ep
  else if str_eqb proto "OPENAPI" then openapi_ticks ep
  else if str_eqb proto "CODE_SIGNING" then codesign_ticks ep
  else if str_eqb proto "REST_FUZZ" then
    tick_if (str_in (severity_upper ep) ["CRITICAL"; "HIGH"]) "fuzz_finding_count"
  else if str_in proto ["KAFKA-PLAIN"; "AMQP-PLAIN"; "REDIS-PLAIN"] then ["motion_broker_plaintext_count"]
  else if str_in proto ["KAFKA-TLS"; "AMQPS"; "AMQPS/AZURE-SERVICEBUS"; "HTTPS/AWS-SQS"; "REDIS-TLS"]
       then broker_tls_ticks ep
  else if str_in proto ["SMTP-STARTTLS"; "IMAP-STARTTLS"; "POP3-STARTTLS"] then starttls_ticks ep
  else if str_in proto ["SMTPS"; "IMAPS"; "POP3S"] then implicit_tls_ticks ep
  else [].

Definition ticks (ref_utc cutoff : Z) (ep : CryptoEndpoint) : list string :=
  coverage_ticks ep ++ certificate_ticks ref_utc cutoff ep ++ protocol_ticks ep.

(** * The fold *)

Definition counters := list (string * Z).

Definition bump (m : counters) (k : string) : counters := aset k (default 0 (alookup k m) + 1) m.
Definition bumps (m : counters) (ks : list string) : counters := List.fold_left bump ks m.

Definition saml_key : Type := string * Z * string.

Record state := {
  st_protocols : counters;
  st_keys : counters;
  st_counts : counters;
  st_mtls : gset (string * Z);
  st_seen_saml : gset saml_key
}.

Definition init_state : state :=
  {| st_protocols := (fun k => (k, 0)) <$> PROTOCOL_KEYS;
     st_keys := [("RSA", 0); ("ECDSA", 0); ("PQC", 0)];
     st_counts := []; st_mtls := ∅; st_seen_saml := ∅ |}.

(** The SAML branch: one count per (host, port, certificate serial). *)
Definition saml_weak (ep : CryptoEndpoint) : bool :=
  is_weak_cipher (Some (upper (str_or_empty (ep_cert_pubkey_alg ep)))) || size_below 2048 ep.

Definition saml_branch (seen : gset saml_key) (ep : CryptoEndpoint) : gset saml_key * list string :=
  if negb (str_eqb (proto_of ep) "SAML") then (seen, [])
  else match saml_cert_serial (detail_of ep) with
       | None => (seen, tick_if (saml_weak ep) "saml_weak_signing_count")
       | Some serial =>
           let key := (ep_host ep, ep_port ep, serial) in
           if bool_decide (key ∈ seen) then (seen, [])
           else ({[key]} ∪ seen, tick_if (saml_weak ep) "saml_weak_signing_count")
       end.

Definition step (ref_utc cutoff : Z) (st : state) (ep : CryptoEndpoint) : state :=
  if is_unanswered_email_probe ep then st
  else
    let proto := proto_of ep in
    let '(seen, saml) := saml_branch (st_seen_saml st) ep in
    {| st_protocols := if str_in proto PROTOCOL_KEYS then bump (st_protocols st) proto else st_protocols st;
       st_keys := match key_bucket ep with Some b => bump (st_keys st) b | None => st_keys st end;
       st_counts := bumps (bumps (st_counts st) (ticks ref_utc cutoff ep)) saml;
       st_mtls := if str_eqb (str_or_empty (ep_tls_blocker_reason ep)) "MTLS_REQUIRED"
                  then {[target_of ep]} ∪ st_mtls st else st_mtls st;
       st_seen_saml := seen |}.

Definition run (ref_utc cutoff : Z) (eps : list CryptoEndpoint) : state :=
  List.fold_left (step ref_utc cutoff) eps init_state.

Definition count (m : counters) (k : string) : Z := default 0 (alookup k m).

(** * Findings *)

Definition drop_coverage_gaps (findings : list finding) : list finding :=
  List.filter (fun f => negb (category_is "coverage_gap" f)) findings.

Definition finding_target (f : finding) : string * Z :=
  (str_or_empty (f_host f), default 0 (f_port f)).

Definition finding_targets (findings : list finding) (wanted_title : string) : gset (string * Z) :=
  list_to_set (finding_target <$> List.filter (fun f => str_eqb (counted_title f) wanted_title) findings).

Definition score_neutral (f : finding) : bool :=
  match f_category f with Some c => str_in c SCORE_NEUTRAL_FINDING_CATEGORIES | None => false end.

Definition severity_count (findings : list finding) (k : string) : Z :=
  Z.of_nat (length (List.filter (fun f => str_eqb (severity_of f) k) findings)).

Definition severity_counts (findings : list finding) : pydict :=
  (fun k => (k, VInt (severity_count findings k))) <$> ["CRITICAL"; "HIGH"; "MEDIUM"; "LOW"; "INFO"].

Definition scored_findings (findings : list finding) : list finding :=
  List.filter (fun f => negb (score_neutral f)) findings.

(** * The summary *)

(** [round(n / d, 4) if d else dflt]. *)
Definition rounded_ratio (n d : Z) (dflt : Q) : Q :=
  if d =? 0 then dflt else round_nd (int_truediv n d) 4.

Definition counter_dict (m : counters) : pydict := (fun '(k, v) => (k, VInt v)) <$> m.

(** The summary of the final state of the loop. *)
Definition summarize (st : state) (total_endpoints ref_utc expiring_days : Z) (findings : list finding)
  : pydict :=
  let c := count (st_counts st) in
  let n k := (k, VInt (c k)) in
  let ratio k count := (k, VFloat (rounded_ratio count total_endpoints 0)) in
  let tls_total := count (st_protocols st) "TLS" in
  let tls_cov := rounded_ratio (c "tls_enum_success_count") tls_total 1 in
  [("evidence_schema_version", VStr EVIDENCE_SCHEMA_VERSION);
   ("reference_utc", VStr (to_iso_z ref_utc));
   ("expiring_within_days", VInt expiring_days);
   ("totals", VDict [("endpoints", VInt total_endpoints); ("findings", VInt (Z.of_nat (length findings)))]);
   ("protocol_counts", VDict (counter_dict (st_protocols st)));
   n "assessed_crypto_count"; n "assessable_endpoint_count";
   n "kerberos_placeholder_count"; n "kerberos_scan_error_count";
   ("plaintext_http_count", VInt (Z.of_nat (size (finding_targets findings "Plaintext HTTP service detected"))));
   ("http_on_tls_port_count", VInt (Z.of_nat (size (finding_targets findings "HTTP on TLS-designated port"))));
   ("mtls_present_count", VInt (Z.of_nat (size (st_mtls st ∪ finding_targets findings "mTLS required"))));
   n "legacy_tls_count";
   ("cert_key_type_counts", VDict (counter_dict (st_keys st)));
   ("certificate_observations",
    VDict [n "certs_observed";
           ("expired_count", VInt (c "cert_expired_count"));
           ("expiring_count", VInt (c "cert_expiring_count"));
           ("self_signed_count", VInt (c "cert_self_signed_count"))]);
   ("scan_error",
    VDict [("count", VInt (c "scan_error_count"));
           ("rate", VFloat (rounded_ratio (c "scan_error_count") total_endpoints 0))]);
   ("tls_enum_coverage_ratio", VFloat tls_cov);
   ("tls_enum_coverage_pct", VFloat (round_nd (fmul tls_cov 100) 2));
   ("finding_severity_counts", VDict (severity_counts findings));
   ("scored_finding_severity_counts", VDict (severity_counts (scored_findings findings)));
   n "identity_weak_etype_count"; n "saml_weak_signing_count"; n "dnssec_weak_algo_count";
   n "smime_weak_signing_count"; n "smime_expired_count"; n "smime_weak_key_count";
   n "adcs_weak_template_count"; n "adcs_misconfig_count"; n "adcs_weak_signing_count";
   n "adcs_coverage_gap_count";
   ratio "identity_kerberos_weak_etype_ratio" (c "identity_weak_etype_count");
   ratio "identity_saml_weak_signing_ratio" (c "saml_weak_signing_count");
   ratio "identity_dnssec_weak_algo_ratio" (c "dnssec_weak_algo_count");
   n "dar_db_plaintext_count"; n "dar_db_weak_ssl_count";
   ratio "dar_db_plaintext_ratio" (c "dar_db_plaintext_count");
   ratio "dar_db_weak_ssl_ratio" (c "dar_db_weak_ssl_count");
   n "dar_storage_unencrypted_count"; n "dar_storage_aws_managed_count";
   ratio "dar_storage_unencrypted_ratio" (c "dar_storage_unencrypted_count");
   ratio "dar_storage_aws_managed_ratio" (c "dar_storage_aws_managed_count");
   n "dar_k8s_unencrypted_count"; n "dar_k8s_inaccessible_count";
   ratio "dar_k8s_unencrypted_ratio" (c "dar_k8s_unencrypted_count");
   ratio "dar_k8s_inaccessible_ratio" (c "dar_k8s_inaccessible_count");
   n "dar_vault_weak_count";
   ratio "dar_vault_weak_ratio" (c "dar_vault_weak_count");
   n "motion_email_starttls_missing_count"; n "motion_email_plaintext_count";
   n "motion_email_weak_cipher_count"; n "motion_broker_plaintext_count";
   n "motion_broker_weak_tls_count"; n "motion_broker_weak_cipher_count";
   ratio "motion_email_plaintext_ratio"
     (c "motion_email_plaintext_count" + c "motion_email_starttls_missing_count");
   ratio "motion_email_weak_cipher_ratio" (c "motion_email_weak_cipher_count");
   ratio "motion_broker_plaintext_ratio" (c "motion_broker_plaintext_count");
   ratio "motion_broker_weak_tls_ratio" (c "motion_broker_weak_tls_count");
   ratio "motion_broker_weak_cipher_ratio" (c "motion_broker_weak_cipher_count");
   n "pqc_hybrid_endpoint_count";
   n "bearer_token_weak_alg_count"; n "openapi_plaintext_server_count";
   ratio "agility_weak_jwt_alg_ratio" (c "bearer_token_weak_alg_count");
   ratio "agility_openapi_plaintext_ratio" (c "openapi_plaintext_server_count");
   n "codesign_weak_algo_count";
   ratio "agility_codesign_weak_algo_ratio" (c "codesign_weak_algo_count");
   n "fuzz_finding_count";
   ratio "agility_fuzz_crypto_posture_ratio" (c "fuzz_finding_count")].

Definition build_evidence_summary (endpoints : list CryptoEndpoint) (findings : list finding)
    (expiring_days : Z) (reference_utc : option datetime) : pydict :=
  let finding_list := drop_coverage_gaps findings in
  let ref_utc := resolve_reference_utc endpoints reference_utc in
  let days := Z.max 0 expiring_days in
  let st := run ref_utc (ref_utc + days * US_PER_DAY) endpoints in
  summarize st (Z.of_nat (length endpoints)) ref_utc days finding_list.
