(* ===== verification/EvidenceTheory.v ===== *)
(** Lemmas on the evidence summary: counters as a census of the endpoints,
    reading the summary back, the SAML dedupe and the finding filters. *)
From Stdlib Require Import ZArith QArith Lia Ascii.
From stdpp Require Import base tactics gmap sets strings list pretty.
From S2P Require Import Prelude PyFloat PyVal WeakCrypto Model Evidence.

Local Open Scope Z_scope.

(** * Occurrences of a counter name *)

Fixpoint occ (k : string) (l : list string) : Z :=
  match l with
  | [] => 0
  | x :: l' => (if str_eqb x k then 1 else 0) + occ k l'
  end.

Lemma occ_app k l l' : occ k (l ++ l') = occ k l + occ k l'.
Proof. induction l as [|x l IH]; simpl; [done|]. rewrite IH. lia. Qed.

Lemma occ_nonneg k l : 0 <= occ k l.
Proof. induction l as [|x l IH]; simpl; [done|]. destruct (str_eqb x k); lia. Qed.
#[export] Hint Resolve occ_nonneg : quirk.

Lemma occ_tick_same b k : occ k (tick_if b k) = Z.b2z b.
Proof. destruct b; simpl; [by rewrite str_eqb_refl|done]. Qed.

Lemma occ_not_in k l : k ∉ l -> occ k l = 0.
Proof.
  induction l as [|x l IH]; intros H; simpl; [done|].
  rewrite IH by set_solver. destruct (str_eqb x k) eqn:E; [|done].
  apply str_eqb_eq in E. set_solver.
Qed.

Lemma occ_sub k l (names : list string) : (forall x, x ∈ l -> x ∈ names) -> str_in k names = false -> occ k l = 0.
Proof.
  intros H Hk. apply occ_not_in. intros Hin. apply bool_decide_eq_false in Hk. auto.
Qed.

Lemma tick_if_sub x b c (names : list string) : c ∈ names -> x ∈ tick_if b c -> x ∈ names.
Proof. destruct b; simpl; [by intros ? ->%list_elem_of_singleton|intros _ H; by apply not_elem_of_nil in H]. Qed.

(** * Counters *)

Lemma count_bump m k j : count (bump m k) j = count m j + (if str_eqb k j then 1 else 0).
Proof.
  unfold count, bump. rewrite alookup_aset. destruct (decide (k = j)) as [->|Hne].
  - by rewrite str_eqb_refl.
  - rewrite (proj2 (str_eqb_neq k j)) by done. simpl. lia.
Qed.

Lemma count_bumps ks m j : count (bumps m ks) j = count m j + occ j ks.
Proof.
  revert m. induction ks as [|k ks IH]; intros m; simpl; [lia|].
  change (bumps m (k :: ks)) with (bumps (bump m k) ks). rewrite IH, count_bump. lia.
Qed.

(** The names the SAML branch and the protocol branches tick. *)
Definition PROTOCOL_COUNTERS : list string :=
  ["identity_weak_etype_count"; "dnssec_weak_algo_count"; "smime_weak_signing_count";
   "smime_weak_key_count"; "smime_expired_count"; "adcs_weak_signing_count";
   "adcs_weak_template_count"; "adcs_misconfig_count"; "adcs_coverage_gap_count";
   "dar_db_plaintext_count"; "dar_db_weak_ssl_count"; "dar_storage_unencrypted_count";
   "dar_storage_aws_managed_count"; "dar_k8s_unencrypted_count"; "dar_k8s_inaccessible_count";
   "dar_vault_weak_count"; "bearer_token_weak_alg_count"; "openapi_plaintext_server_count";
   "codesign_weak_algo_count"; "fuzz_finding_count"; "motion_broker_plaintext_count";
   "motion_broker_weak_tls_count"; "motion_broker_weak_cipher_count";
   "motion_email_starttls_missing_count"; "motion_email_plaintext_count";
   "motion_email_weak_cipher_count"].

Definition CERTIFICATE_COUNTERS : list string :=
  ["certs_observed"; "cert_expired_count"; "cert_expiring_count"; "cert_self_signed_count"].

Definition COVERAGE_COUNTERS : list string :=
  ["pqc_hybrid_endpoint_count"; "tls_enum_success_count"; "legacy_tls_count"; "scan_error_count";
   "kerberos_placeholder_count"; "kerberos_scan_error_count"; "assessable_endpoint_count";
   "assessed_crypto_count"].

(** Membership of a ticked name in its block's list, by cases on the block. *)
Ltac ticks_in :=
  intros x Hx;
  repeat first
    [ match type of Hx with x ∈ (_ ++ _) => apply elem_of_app in Hx as [Hx|Hx] end
    | match type of Hx with x ∈ tick_if _ _ => eapply tick_if_sub in Hx; [exact Hx|apply str_in_iff; vm_compute; reflexivity] end
    | match type of Hx with x ∈ [] => by apply not_elem_of_nil in Hx end
    | match type of Hx with x ∈ (_ :: _) => apply elem_of_cons in Hx as [->|Hx]; [apply str_in_iff; vm_compute; reflexivity|] end
    | match type of Hx with x ∈ (if ?b then _ else _) => destruct b end
    | match type of Hx with x ∈ (match ?o with Some _ => _ | None => _ end) => destruct o end ].

Lemma protocol_ticks_in ep : forall x, x ∈ protocol_ticks ep -> x ∈ PROTOCOL_COUNTERS.
Proof.
  unfold protocol_ticks, kerberos_ticks, dnssec_ticks, smime_ticks, adcs_ticks, postgresql_ticks,
    mysql_ticks, s3_ticks, kubernetes_ticks, bearer_ticks, openapi_ticks, codesign_ticks,
    broker_tls_ticks, starttls_ticks, implicit_tls_ticks. cbv zeta. ticks_in.
Qed.

Lemma certificate_ticks_in r c ep : forall x, x ∈ certificate_ticks r c ep -> x ∈ CERTIFICATE_COUNTERS.
Proof. unfold certificate_ticks. cbv zeta. ticks_in. Qed.

Lemma coverage_ticks_in ep : forall x, x ∈ coverage_ticks ep -> x ∈ COVERAGE_COUNTERS.
Proof. unfold coverage_ticks. ticks_in. Qed.

(** * The fold as a census *)

Definition answered (eps : list CryptoEndpoint) : list CryptoEndpoint :=
  List.filter (fun ep => negb (is_unanswered_email_probe ep)) eps.

(** The sum of a per-endpoint weight over a list. *)
Fixpoint total (g : CryptoEndpoint -> Z) (eps : list CryptoEndpoint) : Z :=
  match eps with
  | [] => 0
  | ep :: eps' => g ep + total g eps'
  end.

Lemma total_le g h eps : (forall ep, g ep <= h ep) -> total g eps <= total h eps.
Proof. intros H. induction eps as [|ep eps IH]; simpl; [done|]. specialize (H ep). lia. Qed.

Lemma total_add g h eps : total (fun ep => g ep + h ep) eps = total g eps + total h eps.
Proof. induction eps as [|ep eps IH]; simpl; [done|]. rewrite IH. lia. Qed.

Lemma total_ext g h eps : (forall ep, g ep = h ep) -> total g eps = total h eps.
Proof. intros H. induction eps as [|ep eps IH]; simpl; [done|]. by rewrite H, IH. Qed.

Lemma total_nonneg g eps : (forall ep, 0 <= g ep) -> 0 <= total g eps.
Proof. intros H. induction eps as [|ep eps IH]; simpl; [done|]. specialize (H ep). lia. Qed.

Lemma total_indicator (p : CryptoEndpoint -> bool) eps :
  total (fun ep => Z.b2z (p ep)) eps = Z.of_nat (length (List.filter p eps)).
Proof. induction eps as [|ep eps IH]; simpl; [done|]. rewrite IH. destruct (p ep); simpl; lia. Qed.

Lemma total_one eps : total (fun _ => 1) eps = Z.of_nat (length eps).
Proof. induction eps as [|ep eps IH]; cbn [total length]; lia. Qed.

Lemma answered_length eps : (length (answered eps) <= length eps)%nat.
Proof.
  unfold answered. induction eps as [|ep eps IH]; simpl; [lia|].
  destruct (is_unanswered_email_probe ep); simpl; lia.
Qed.

(** An additive reading of the state is a sum over the answered endpoints. *)
Lemma fold_total (read : state -> Z) (g : CryptoEndpoint -> Z) r c eps st :
  (forall st ep, is_unanswered_email_probe ep = false -> read (step r c st ep) = read st + g ep) ->
  read (List.fold_left (step r c) eps st) = read st + total g (answered eps).
Proof.
  intros Hstep. unfold answered. revert st. induction eps as [|ep eps IH]; intros st; simpl; [lia|].
  rewrite IH. destruct (is_unanswered_email_probe ep) eqn:E; simpl.
  - unfold step. rewrite E. lia.
  - rewrite Hstep by done. lia.
Qed.

Lemma saml_branch_ticks seen ep k :
  k <> "saml_weak_signing_count" -> occ k (saml_branch seen ep).2 = 0.
Proof.
  intros Hk. apply occ_not_in. unfold saml_branch, tick_if.
  split_ifs; simpl; rewrite ?elem_of_cons, ?elem_of_nil; tauto.
Qed.

Lemma run_count k r c eps :
  k <> "saml_weak_signing_count" ->
  count (st_counts (run r c eps)) k = total (fun ep => occ k (ticks r c ep)) (answered eps).
Proof.
  intros Hk. unfold run.
  rewrite (fold_total (fun st => count (st_counts st) k) (fun ep => occ k (ticks r c ep))); [done|].
  intros st ep Hu. unfold step. rewrite Hu.
  pose proof (saml_branch_ticks (st_seen_saml st) ep k Hk) as Hs.
  destruct (saml_branch (st_seen_saml st) ep) as [seen saml]. simpl in *.
  rewrite !count_bumps. lia.
Qed.

Lemma run_protocol k r c eps :
  str_in k PROTOCOL_KEYS = true ->
  count (st_protocols (run r c eps)) k
    = total (fun ep => Z.b2z (str_eqb (proto_of ep) k)) (answered eps).
Proof.
  intros Hk. unfold run.
  rewrite (fold_total (fun st => count (st_protocols st) k) (fun ep => Z.b2z (str_eqb (proto_of ep) k))).
  - assert (count (st_protocols init_state) k = 0) as ->; [|lia].
    unfold count. cbn [st_protocols init_state]. generalize PROTOCOL_KEYS.
    intros l. induction l as [|x l IH]; simpl; [done|]. by destruct (str_eqb x k).
  - intros st ep Hu. unfold step. rewrite Hu. destruct (saml_branch (st_seen_saml st) ep). simpl.
    destruct (str_in (proto_of ep) PROTOCOL_KEYS) eqn:E.
    + rewrite count_bump. by destruct (str_eqb (proto_of ep) k).
    + destruct (str_eqb (proto_of ep) k) eqn:E'; simpl; [|lia].
      apply str_eqb_eq in E'. congruence.
Qed.

(** ** One endpoint's contribution to each family of counters *)

Lemma names_disjoint k l l' :
  forallb (fun x => negb (str_in x l')) l = true -> str_in k l = true -> str_in k l' = false.
Proof.
  rewrite forallb_forall. intros H Hk. apply str_in_iff, list_elem_of_In in Hk.
  apply negb_true_iff. by apply H.
Qed.

Lemma ticks_coverage k r c ep :
  str_in k COVERAGE_COUNTERS = true -> occ k (ticks r c ep) = occ k (coverage_ticks ep).
Proof.
  intros Hk. unfold ticks. rewrite !occ_app.
  rewrite (occ_sub k (certificate_ticks r c ep) CERTIFICATE_COUNTERS), (occ_sub k (protocol_ticks ep) PROTOCOL_COUNTERS);
    [lia|apply protocol_ticks_in| |apply certificate_ticks_in|];
    (eapply names_disjoint; [|exact Hk]; vm_compute; reflexivity).
Qed.

Lemma ticks_certificate k r c ep :
  str_in k CERTIFICATE_COUNTERS = true -> occ k (ticks r c ep) = occ k (certificate_ticks r c ep).
Proof.
  intros Hk. unfold ticks. rewrite !occ_app.
  rewrite (occ_sub k (coverage_ticks ep) COVERAGE_COUNTERS), (occ_sub k (protocol_ticks ep) PROTOCOL_COUNTERS);
    [lia|apply protocol_ticks_in| |apply coverage_ticks_in|];
    (eapply names_disjoint; [|exact Hk]; vm_compute; reflexivity).
Qed.

Lemma occ_tick k b c : occ k (tick_if b c) = if str_eqb c k then Z.b2z b else 0.
Proof. destruct b; simpl; destruct (str_eqb c k); done. Qed.

Lemma occ_cons k x l : occ k (x :: l) = (if str_eqb x k then 1 else 0) + occ k l.
Proof. done. Qed.

Lemma occ_if k (b : bool) l l' : occ k (if b then l else l') = if b then occ k l else occ k l'.
Proof. by destruct b. Qed.

(** Occurrences of a literal name in a block: rewrite to a sum over its tests,
    then decide the comparisons of literals. *)
Ltac occ_sum :=
  repeat match goal with
  | |- context [occ ?k (?l ++ ?l')] => rewrite (occ_app k l l')
  | |- context [occ ?k (tick_if ?b ?c)] => rewrite (occ_tick k b c)
  | |- context [occ ?k (?x :: ?l)] => rewrite (occ_cons k x l)
  | |- context [occ ?k (if ?b then ?l else ?l')] => rewrite (occ_if k b l l')
  end;
  decide_literals; cbn match; cbn [occ].

Ltac occ_cases :=
  occ_sum;
  repeat match goal with
  | |- context [Z.b2z ?b] => destruct b; cbn [Z.b2z]
  | |- context [if ?b then _ else _] => destruct b; cbn match
  end; lia.

Lemma assessable_one ep : 0 <= occ "assessable_endpoint_count" (coverage_ticks ep) <= 1.
Proof. unfold coverage_ticks. occ_cases. Qed.

Lemma assessed_assessable ep :
  occ "assessed_crypto_count" (coverage_ticks ep) <= occ "assessable_endpoint_count" (coverage_ticks ep).
Proof. unfold coverage_ticks. occ_cases. Qed.

Lemma certs_one r c ep : 0 <= occ "certs_observed" (certificate_ticks r c ep) <= 1.
Proof. unfold certificate_ticks. cbv zeta. destruct (ep_cert_not_after ep); occ_cases. Qed.

Lemma expired_expiring_observed r c ep :
  occ "cert_expired_count" (certificate_ticks r c ep) + occ "cert_expiring_count" (certificate_ticks r c ep)
  <= occ "certs_observed" (certificate_ticks r c ep).
Proof. unfold certificate_ticks. cbv zeta. destruct (ep_cert_not_after ep); occ_cases. Qed.

Lemma kerberos_gate ep :
  occ "kerberos_placeholder_count" (coverage_ticks ep) + occ "kerberos_scan_error_count" (coverage_ticks ep)
  <= Z.b2z (str_eqb (proto_of ep) "KERBEROS").
Proof.
  unfold coverage_ticks, is_kerberos_placeholder. occ_sum.
  destruct (str_eqb (proto_of ep) "KERBEROS"), (has_error ep), (contains (detail_of ep) "etype:"),
    (str_in (proto_of ep) NON_ASSET_PROTOCOLS); cbn [andb negb Z.b2z];
    repeat match goal with |- context [Z.b2z ?b] => destruct b; cbn [Z.b2z] end; lia.
Qed.

(** * The SAML dedupe *)

Definition is_saml (ep : CryptoEndpoint) : bool := str_eqb (proto_of ep) "SAML".

Definition saml_key_of (ep : CryptoEndpoint) : option saml_key :=
  (fun serial => (ep_host ep, ep_port ep, serial)) <$> saml_cert_serial (detail_of ep).

Lemma saml_answered ep : is_saml ep = true -> is_unanswered_email_probe ep = false.
Proof.
  unfold is_saml, is_unanswered_email_probe. intros H. apply str_eqb_eq in H. rewrite H.
  reflexivity.
Qed.

(** The branch as a function of the row's key. *)
Lemma saml_branch_eq seen ep :
  saml_branch seen ep =
    if is_saml ep then
      match saml_key_of ep with
      | None => (seen, tick_if (saml_weak ep) "saml_weak_signing_count")
      | Some key => if bool_decide (key ∈ seen) then (seen, [])
                    else ({[key]} ∪ seen, tick_if (saml_weak ep) "saml_weak_signing_count")
      end
    else (seen, []).
Proof.
  unfold saml_branch, is_saml, saml_key_of. destruct (str_eqb (proto_of ep) "SAML"); [|done].
  simpl. by destruct (saml_cert_serial (detail_of ep)).
Qed.

Definition saml_row_key (ep : CryptoEndpoint) : option saml_key :=
  if is_saml ep then saml_key_of ep else None.

Lemma step_seen r c st ep :
  st_seen_saml (step r c st ep) =
    match saml_row_key ep with Some key => {[key]} ∪ st_seen_saml st | None => st_seen_saml st end.
Proof.
  unfold step, saml_row_key. rewrite saml_branch_eq.
  destruct (is_saml ep) eqn:Es; [rewrite saml_answered by done|destruct (is_unanswered_email_probe ep); done].
  destruct (saml_key_of ep) as [key|]; [|done].
  case_bool_decide; simpl; [|done]. set_solver.
Qed.

Lemma seen_spec r c eps key :
  key ∈ st_seen_saml (run r c eps) <-> exists ep, ep ∈ eps /\ saml_row_key ep = Some key.
Proof.
  unfold run. assert (G : forall st, key ∈ st_seen_saml (List.fold_left (step r c) eps st)
    <-> key ∈ st_seen_saml st \/ exists ep, ep ∈ eps /\ saml_row_key ep = Some key).
  { induction eps as [|ep eps IH]; intros st; simpl.
    - split; [auto|intros [?|(?&H&_)]; [done|by apply not_elem_of_nil in H]].
    - rewrite IH, step_seen. setoid_rewrite elem_of_cons.
      destruct (saml_row_key ep) as [k|] eqn:E; set_solver. }
  rewrite G. simpl. set_solver.
Qed.

Lemma step_saml_count r c st ep :
  count (st_counts (step r c st ep)) "saml_weak_signing_count" =
    count (st_counts st) "saml_weak_signing_count" +
    (if is_saml ep then
       match saml_key_of ep with
       | None => Z.b2z (saml_weak ep)
       | Some key => if bool_decide (key ∈ st_seen_saml st) then 0 else Z.b2z (saml_weak ep)
       end
     else 0).
Proof.
  assert (H : forall ep, occ "saml_weak_signing_count" (ticks r c ep) = 0).
  { intros e. unfold ticks. rewrite !occ_app.
    rewrite (occ_sub _ _ COVERAGE_COUNTERS (coverage_ticks_in e)) by (vm_compute; reflexivity).
    rewrite (occ_sub _ _ CERTIFICATE_COUNTERS (certificate_ticks_in r c e)) by (vm_compute; reflexivity).
    by rewrite (occ_sub _ _ PROTOCOL_COUNTERS (protocol_ticks_in e)) by (vm_compute; reflexivity). }
  unfold step. rewrite saml_branch_eq.
  destruct (is_saml ep) eqn:Es; [rewrite saml_answered by done|].
  - destruct (saml_key_of ep) as [key|]; [case_bool_decide|]; simpl;
      rewrite ?count_bumps, H, ?occ_tick_same; simpl; lia.
  - destruct (is_unanswered_email_probe ep); [lia|]. simpl. rewrite !count_bumps, H. simpl. lia.
Qed.

(** * Reading the summary back *)

Lemma alookup_counter_dict m k : alookup k (counter_dict m) = VInt <$> alookup k m.
Proof. induction m as [|[k' v] m IH]; simpl; [done|]. by destruct (str_eqb k' k). Qed.

Lemma get_counter_dict m k : get_or (counter_dict m) k (VInt 0) = VInt (count m k).
Proof. unfold get_or, dict_get, count. rewrite alookup_counter_dict. by destruct (alookup k m). Qed.

Lemma count_of_counter_dict m k : count_of (counter_dict m) k = Z.max 0 (count m k).
Proof. unfold count_of. by rewrite get_counter_dict. Qed.
