(* ===== verification/EvidenceProps.v ===== *)
(** The contract of the evidence summary, and of the score computed from it. *)
From Stdlib Require Import ZArith QArith Lia Ascii.
From stdpp Require Import base tactics gmap sets strings list pretty.
From S2P Require Import Prelude PyFloat PyVal WeakCrypto Model Evidence EvidenceTheory Scoring.

Local Open Scope Z_scope.

(** * What the score reads of a summary *)

(** Two loop states with the same readings. *)
Record same_state (st st' : state) : Prop := {
  ss_counts : forall k, count (st_counts st) k = count (st_counts st') k;
  ss_protocols : forall k, count (st_protocols st) k = count (st_protocols st') k;
  ss_keys : forall k, count (st_keys st) k = count (st_keys st') k;
  ss_mtls : st_mtls st = st_mtls st'
}.

(** Two finding lists the score cannot tell apart. *)
Record same_scored (fs fs' : list finding) : Prop := {
  sc_targets : forall t,
    t ∈ ["Plaintext HTTP service detected"; "HTTP on TLS-designated port"; "mTLS required"] ->
    finding_targets fs t = finding_targets fs' t;
  sc_severities : severity_counts (scored_findings fs) = severity_counts (scored_findings fs')
}.

Lemma raw_counter_dict m k : raw_count (counter_dict m) k = count m k.
Proof. unfold raw_count. by rewrite get_counter_dict. Qed.

Lemma dar_assessed_eq m m' :
  (forall k, count m k = count m' k) -> dar_assessed (counter_dict m) = dar_assessed (counter_dict m').
Proof. intros H. unfold dar_assessed. do 2 f_equal. apply list_fmap_ext. intros i k _. by rewrite !raw_counter_dict, H. Qed.

Lemma motion_assessed_eq m m' :
  (forall k, count m k = count m' k) -> motion_assessed (counter_dict m) = motion_assessed (counter_dict m').
Proof. intros H. unfold motion_assessed. do 2 f_equal. apply list_fmap_ext. intros i k _. by rewrite !raw_counter_dict, H. Qed.

Lemma identity_assessed_eq cert m m' p e :
  (forall k, count m k = count m' k) ->
  identity_assessed cert (counter_dict m) p e = identity_assessed cert (counter_dict m') p e.
Proof.
  intros H. unfold identity_assessed. destruct (0 <? _); [done|]. do 2 f_equal.
  apply list_fmap_ext. intros i k _. unfold identity_value. by rewrite !count_of_counter_dict, H.
Qed.

(** Neither the number of rows, the reference instant nor an unscored finding
    reaches the score by itself. *)
Lemma read_summarize st st' n n' r r' d d' fs fs' :
  same_state st st' -> same_scored fs fs' ->
  read_inputs (summarize st n r d fs) = read_inputs (summarize st' n' r' d' fs').
Proof.
  intros [Hc Hp Hk Hm] [Ht Hs]. unfold read_inputs.
  assert (T : forall t, t ∈ ["Plaintext HTTP service detected"; "HTTP on TLS-designated port"] ->
    Z.max 0 (Z.of_nat (size (finding_targets fs t))) = Z.max 0 (Z.of_nat (size (finding_targets fs' t))))
    by (intros t Hin; rewrite Ht; [done|set_solver]).
  assert (M : Z.max 0 (Z.of_nat (size (st_mtls st ∪ finding_targets fs "mTLS required")))
            = Z.max 0 (Z.of_nat (size (st_mtls st' ∪ finding_targets fs' "mTLS required"))))
    by (rewrite Hm, Ht; [done|set_solver]).
  assert (C : forall k, Z.max 0 (count (st_counts st) k) = Z.max 0 (count (st_counts st') k))
    by (intros k; by rewrite Hc).
  assert (P : forall k, count_of (counter_dict (st_protocols st)) k = count_of (counter_dict (st_protocols st')) k)
    by (intros k; by rewrite !count_of_counter_dict, Hp).
  assert (K : forall k, count_of (counter_dict (st_keys st)) k = count_of (counter_dict (st_keys st')) k)
    by (intros k; by rewrite !count_of_counter_dict, Hk).
  assert (E : scored_severity_counts (summarize st n r d fs) = scored_severity_counts (summarize st' n' r' d' fs'))
    by exact Hs.
  f_equal;
    match goal with
    | |- count_of (summarize _ _ _ _ _) "plaintext_http_count" = _ => apply (T "Plaintext HTTP service detected"); set_solver
    | |- count_of (summarize _ _ _ _ _) "http_on_tls_port_count" = _ => apply (T "HTTP on TLS-designated port"); set_solver
    | |- count_of (summarize _ _ _ _ _) "mtls_present_count" = _ => exact M
    | |- count_of (summarize _ _ _ _ _) ?k = _ => exact (C k)
    | |- count_of (sub_mapping _ "scan_error") _ = _ => exact (C "scan_error_count")
    | |- count_of (sub_mapping _ "protocol_counts") ?k = _ => exact (P k)
    | |- count_of (sub_mapping _ "cert_key_type_counts") ?k = _ => exact (K k)
    | |- count_of (sub_mapping _ _) "certs_observed" = _ => exact (C "certs_observed")
    | |- count_of (sub_mapping _ _) ?k = _ => exact (C ("cert_" +:+ k))
    | |- count_of (scored_severity_counts _) _ = _ => by rewrite E
    | |- Z.max 0 _ = _ => exact (C "legacy_tls_count")
    | |- _ + _ = _ =>
        exact (f_equal2 Z.add (Hc "motion_email_plaintext_count") (Hc "motion_email_starttls_missing_count"))
    | |- endpoints_assessed _ = _ => exact (f_equal endpoints_assessed (C "assessable_endpoint_count"))
    | |- dar_assessed _ = _ => exact (dar_assessed_eq _ _ Hp)
    | |- motion_assessed _ = _ => exact (motion_assessed_eq _ _ Hp)
    | |- identity_assessed _ _ _ _ = _ => idtac
    end.
  transitivity (identity_assessed (sub_mapping (summarize st n r d fs) "certificate_observations")
                  (counter_dict (st_protocols st'))
                  (count_of (summarize st n r d fs) "kerberos_placeholder_count")
                  (count_of (summarize st n r d fs) "kerberos_scan_error_count")).
  - exact (identity_assessed_eq _ _ _ _ _ Hp).
  - assert (O : as_int (get_or (sub_mapping (summarize st n r d fs) "certificate_observations") "certs_observed" (VInt 0))
              = as_int (get_or (sub_mapping (summarize st' n' r' d' fs') "certificate_observations") "certs_observed" (VInt 0)))
      by exact (Hc "certs_observed").
    assert (A : count_of (summarize st n r d fs) "kerberos_placeholder_count"
              = count_of (summarize st' n' r' d' fs') "kerberos_placeholder_count") by exact (C _).
    assert (B : count_of (summarize st n r d fs) "kerberos_scan_error_count"
              = count_of (summarize st' n' r' d' fs') "kerberos_scan_error_count") by exact (C _).
    unfold identity_assessed. rewrite O, A, B. reflexivity.
Qed.

(** * Coverage bounds *)

Lemma answered_total_one eps : total (fun _ => 1) (answered eps) <= Z.of_nat (length eps).
Proof. rewrite total_one. pose proof (answered_length eps). lia. Qed.

Lemma count_sum_le k k' r c eps :
  k <> "saml_weak_signing_count" -> k' <> "saml_weak_signing_count" ->
  (forall ep, occ k (ticks r c ep) <= occ k' (ticks r c ep)) ->
  count (st_counts (run r c eps)) k <= count (st_counts (run r c eps)) k'.
Proof. intros Hk Hk' H. rewrite !run_count by done. by apply total_le. Qed.

Lemma count_le_total k r c eps :
  k <> "saml_weak_signing_count" -> (forall ep, occ k (ticks r c ep) <= 1) ->
  0 <= count (st_counts (run r c eps)) k <= Z.of_nat (length eps).
Proof.
  intros Hk H. rewrite run_count by done. split; [apply total_nonneg; auto with quirk|].
  etransitivity; [by apply (total_le _ (fun _ => 1))|apply answered_total_one].
Qed.

(** In every summary, assessed endpoints are assessable, assessable ones
    were scanned, expired and expiring certificates were observed and
    certificates sit on scanned endpoints, and the Kerberos rows the identity
    gate discounts (placeholders and failed probes) are Kerberos rows. *)
Theorem evidence_coverage_bounds eps fs days ref :
  let s := build_evidence_summary eps fs days ref in
  let certs := sub_mapping s "certificate_observations" in
  0 <= raw_count s "assessed_crypto_count" <= raw_count s "assessable_endpoint_count" /\
  raw_count s "assessable_endpoint_count" <= raw_count (sub_mapping s "totals") "endpoints" /\
  0 <= raw_count certs "expired_count" /\ 0 <= raw_count certs "expiring_count" /\
  raw_count certs "expired_count" + raw_count certs "expiring_count" <= raw_count certs "certs_observed" /\
  raw_count certs "certs_observed" <= raw_count (sub_mapping s "totals") "endpoints" /\
  0 <= raw_count s "kerberos_placeholder_count" /\ 0 <= raw_count s "kerberos_scan_error_count" /\
  raw_count s "kerberos_placeholder_count" + raw_count s "kerberos_scan_error_count"
    <= raw_count (sub_mapping s "protocol_counts") "KERBEROS".
Proof.
  intros s certs. set (r := resolve_reference_utc eps ref). set (c := r + Z.max 0 days * US_PER_DAY).
  set (st := run r c eps).
  assert (K : raw_count (sub_mapping s "protocol_counts") "KERBEROS" = count (st_protocols st) "KERBEROS")
    by (exact (raw_counter_dict (st_protocols st) "KERBEROS")).
  rewrite K.
  change (raw_count s "assessed_crypto_count") with (count (st_counts st) "assessed_crypto_count").
  change (raw_count s "assessable_endpoint_count") with (count (st_counts st) "assessable_endpoint_count").
  change (raw_count (sub_mapping s "totals") "endpoints") with (Z.of_nat (length eps)).
  change (raw_count certs "expired_count") with (count (st_counts st) "cert_expired_count").
  change (raw_count certs "expiring_count") with (count (st_counts st) "cert_expiring_count").
  change (raw_count certs "certs_observed") with (count (st_counts st) "certs_observed").
  change (raw_count s "kerberos_placeholder_count") with (count (st_counts st) "kerberos_placeholder_count").
  change (raw_count s "kerberos_scan_error_count") with (count (st_counts st) "kerberos_scan_error_count").
  assert (P : forall k, k <> "saml_weak_signing_count" -> 0 <= count (st_counts st) k)
    by (intros k Hk; unfold st; rewrite run_count by done; apply total_nonneg; auto with quirk).
  assert (A : forall ep, occ "assessable_endpoint_count" (ticks r c ep) <= 1)
    by (intros ep; rewrite ticks_coverage by (vm_compute; reflexivity); apply assessable_one).
  assert (O : forall ep, occ "certs_observed" (ticks r c ep) <= 1)
    by (intros ep; rewrite ticks_certificate by (vm_compute; reflexivity); apply certs_one).
  repeat split; try (by apply P).
  - apply count_sum_le; [done..|]. intros ep. rewrite !ticks_coverage by (vm_compute; reflexivity).
    apply assessed_assessable.
  - by apply count_le_total.
  - unfold st. rewrite !run_count, <- total_add by done. apply total_le. intros ep.
    rewrite !ticks_certificate by (vm_compute; reflexivity). apply expired_expiring_observed.
  - by apply count_le_total.
  - unfold st. rewrite !run_count, run_protocol, <- total_add by done. apply total_le. intros ep.
    rewrite !ticks_coverage by (vm_compute; reflexivity). apply kerberos_gate.
Qed.

(** * Score-neutral findings *)

Lemma filter_app {A} (f : A -> bool) l l' : List.filter f (l ++ l') = List.filter f l ++ List.filter f l'.
Proof. induction l as [|x l IH]; simpl; [done|]. destruct (f x); simpl; by rewrite IH. Qed.

Lemma filter_skip {A} (f : A -> bool) pre x post :
  f x = false -> List.filter f (pre ++ x :: post) = List.filter f (pre ++ post).
Proof. intros H. rewrite !filter_app. simpl. by rewrite H. Qed.

Definition counted_titles : list string :=
  ["Plaintext HTTP service detected"; "HTTP on TLS-designated port"; "mTLS required"].

Lemma finding_targets_skip pre f post t :
  counted_title f <> t -> finding_targets (pre ++ f :: post) t = finding_targets (pre ++ post) t.
Proof.
  intros H. unfold finding_targets. rewrite filter_skip; [done|by apply str_eqb_neq].
Qed.

Lemma same_scored_skip pre f post :
  score_neutral f = true -> counted_title f ∉ counted_titles ->
  same_scored (pre ++ f :: post) (pre ++ post).
Proof.
  intros Hn Ht. split.
  - intros t Hin. apply finding_targets_skip. intros E. apply Ht. by rewrite E.
  - unfold scored_findings. rewrite filter_skip; [done|by rewrite Hn].
Qed.

Lemma score_of_inputs e f profile overrides :
  read_inputs e = read_inputs f ->
  compute_readiness_score e profile overrides = compute_readiness_score f profile overrides.
Proof. intros H. unfold compute_readiness_score. by rewrite H. Qed.

Lemma same_scored_refl fs : same_scored fs fs.
Proof. split; [intros; reflexivity|reflexivity]. Qed.

Lemma same_state_refl st : same_state st st.
Proof. by split. Qed.

(** A coverage-gap finding leaves the whole summary unchanged, and a
    configuration advisory (whose title is not one of the three the summary
    looks up) leaves the readiness score unchanged, wherever it appears. *)
Theorem score_neutral_findings eps pre f post days ref profile overrides :
  (category_is "coverage_gap" f = true ->
     build_evidence_summary eps (pre ++ f :: post) days ref = build_evidence_summary eps (pre ++ post) days ref) /\
  (score_neutral f = true -> counted_title f ∉ counted_titles ->
     compute_readiness_score (build_evidence_summary eps (pre ++ f :: post) days ref) profile overrides
     = compute_readiness_score (build_evidence_summary eps (pre ++ post) days ref) profile overrides).
Proof.
  unfold build_evidence_summary, drop_coverage_gaps. split.
  - intros H. rewrite filter_skip; [reflexivity|by rewrite H].
  - intros Hn Ht. apply score_of_inputs.
    rewrite !filter_app. cbn [List.filter]. apply read_summarize; [apply same_state_refl|].
    destruct (category_is "coverage_gap" f); cbn [negb]; [apply same_scored_refl|by apply same_scored_skip].
Qed.

Definition advisory : finding :=
  {| f_title := Some "JWKS fetched with TLS certificate verification disabled"; f_severity := Some "HIGH";
     f_category := Some "config_advisory"; f_host := Some "idp"; f_port := Some 443 |}.

Lemma score_neutral_findings_witness :
  compute_readiness_score (build_evidence_summary [bare_endpoint "idp" 443 "TLS"] [advisory] 30 None) None []
  = compute_readiness_score (build_evidence_summary [bare_endpoint "idp" 443 "TLS"] [] 30 None) None [].
Proof.
  apply (score_neutral_findings [bare_endpoint "idp" 443 "TLS"] [] advisory [] 30 None None []).
  - vm_compute. reflexivity.
  - apply (bool_decide_eq_false _). vm_compute. reflexivity.
Defined.

(** * Unanswered mail probes *)

Lemma run_skip r c pre ep post :
  is_unanswered_email_probe ep = true -> run r c (pre ++ ep :: post) = run r c (pre ++ post).
Proof.
  intros H. unfold run. rewrite !List.fold_left_app. simpl. f_equal. unfold step. by rewrite H.
Qed.

(** A mail port that refused or timed out does not change the score: the
    row is skipped by every counter, so it neither penalises nor, by growing
    the population, dilutes (the reference instant being given). *)
Theorem unanswered_probe_is_neutral pre ep post fs days ref profile overrides :
  is_unanswered_email_probe ep = true ->
  compute_readiness_score (build_evidence_summary (pre ++ ep :: post) fs days (Some ref)) profile overrides
  = compute_readiness_score (build_evidence_summary (pre ++ post) fs days (Some ref)) profile overrides.
Proof.
  intros H. apply score_of_inputs. unfold build_evidence_summary, resolve_reference_utc.
  rewrite run_skip by done. apply read_summarize; [apply same_state_refl|apply same_scored_refl].
Qed.

Definition refused_mail : CryptoEndpoint :=
  {| ep_host := "mx"; ep_port := 25; ep_protocol := Some "SMTP-STARTTLS"; ep_scanned_at := None;
     ep_tls_version := None; ep_cipher_suite := None; ep_cert_subject := None; ep_cert_issuer := None;
     ep_cert_sig_alg := None; ep_cert_pubkey_alg := None; ep_cert_pubkey_size := None;
     ep_cert_spki_fingerprint := None; ep_cert_not_after := None; ep_scan_error := Some "refused";
     ep_tls_blocker_reason := Some "CONNECTION_REFUSED"; ep_service_detail := None;
     ep_tls_supported_versions := None; ep_severity := None; ep_scan_run_id := None |}.

Lemma unanswered_probe_is_neutral_witness :
  compute_readiness_score (build_evidence_summary [bare_endpoint "a" 443 "TLS"; refused_mail] [] 30 (Some (naive 0))) None []
  = compute_readiness_score (build_evidence_summary [bare_endpoint "a" 443 "TLS"] [] 30 (Some (naive 0))) None [].
Proof.
  apply (unanswered_probe_is_neutral [bare_endpoint "a" 443 "TLS"] refused_mail [] [] 30 (naive 0) None []).
  vm_compute. reflexivity.
Defined.

(** * The census *)

(** The counters the summary reports under their own name, SAML apart. *)
Definition REPORTED_COUNTERS : list string :=
  ["assessed_crypto_count"; "assessable_endpoint_count"; "kerberos_placeholder_count";
   "kerberos_scan_error_count"; "legacy_tls_count"; "pqc_hybrid_endpoint_count"] ++ PROTOCOL_COUNTERS.



(** * One SAML certificate, one count *)

(** A SAML certificate published again under the same host, port and
    serial (a second KeyDescriptor) is not counted a second time. *)
Theorem saml_duplicate_not_counted eps dup ep fs days ref :
  ep ∈ eps -> saml_row_key ep = saml_row_key dup -> saml_row_key dup <> None ->
  dict_get (build_evidence_summary (eps ++ [dup]) fs days (Some ref)) "saml_weak_signing_count"
  = dict_get (build_evidence_summary eps fs days (Some ref)) "saml_weak_signing_count".
Proof.
  intros Hin Hkey Hsome.
  set (r := as_utc_naive ref). set (c := r + Z.max 0 days * US_PER_DAY).
  change (Some (VInt (count (st_counts (run r c (eps ++ [dup]))) "saml_weak_signing_count"))
          = Some (VInt (count (st_counts (run r c eps)) "saml_weak_signing_count"))).
  do 2 f_equal. unfold run. rewrite List.fold_left_app. cbn [List.fold_left].
  fold (run r c eps). rewrite step_saml_count.
  unfold saml_row_key in Hsome, Hkey. destruct (is_saml dup) eqn:Es; [|done].
  destruct (saml_key_of dup) as [key|] eqn:Ek; [|done].
  rewrite bool_decide_eq_true_2; [lia|]. apply seen_spec. exists ep. split; [done|].
  unfold saml_row_key. rewrite Hkey. done.
Qed.

Definition saml_row (alg detail : string) (size : Z) : CryptoEndpoint :=
  {| ep_host := "idp"; ep_port := 443; ep_protocol := Some "SAML"; ep_scanned_at := None;
     ep_tls_version := None; ep_cipher_suite := None; ep_cert_subject := None; ep_cert_issuer := None;
     ep_cert_sig_alg := None; ep_cert_pubkey_alg := Some alg; ep_cert_pubkey_size := Some size;
     ep_cert_spki_fingerprint := None; ep_cert_not_after := None; ep_scan_error := None;
     ep_tls_blocker_reason := None; ep_service_detail := Some detail;
     ep_tls_supported_versions := None; ep_severity := None; ep_scan_run_id := None |}.

Lemma saml_duplicate_not_counted_witness :
  let sign := saml_row "RSA" "idp|use=signing|serial=0A" 1024 in
  let enc := saml_row "RSA" "idp|use=encryption| serial=0a" 1024 in
  dict_get (build_evidence_summary ([sign] ++ [enc]) [] 30 (Some (naive 0))) "saml_weak_signing_count"
    = Some (VInt 1).
Proof.
  intros sign enc. transitivity (dict_get (build_evidence_summary [sign] [] 30 (Some (naive 0))) "saml_weak_signing_count").
  - apply (saml_duplicate_not_counted [sign] enc sign [] 30 (naive 0));
      [apply list_elem_of_singleton; reflexivity|vm_compute; reflexivity|vm_compute; discriminate].
  - vm_compute. reflexivity.
Defined.

(** * Row order *)

Lemma total_perm g eps eps' : eps ≡ₚ eps' -> total g eps = total g eps'.
Proof. induction 1; simpl; lia. Qed.

Lemma answered_perm eps eps' : eps ≡ₚ eps' -> answered eps ≡ₚ answered eps'.
Proof.
  unfold answered. induction 1 as [|x l l' _ IH|x y l|l m n _ IH1 _ IH2]; simpl; [done| | |by rewrite IH1].
  - destruct (negb _); [by constructor|done].
  - destruct (negb _), (negb _); try done. constructor.
Qed.

Lemma run_keys k r c eps :
  count (st_keys (run r c eps)) k
  = total (fun ep => match key_bucket ep with Some b => if str_eqb b k then 1 else 0 | None => 0 end) (answered eps).
Proof.
  unfold run.
  rewrite (fold_total (fun st => count (st_keys st) k)
             (fun ep => match key_bucket ep with Some b => if str_eqb b k then 1 else 0 | None => 0 end)).
  - assert (count (st_keys init_state) k = 0) as ->; [|lia].
    unfold count. cbn [st_keys init_state alookup]. by repeat destruct (str_eqb _ k).
  - intros st ep Hu. unfold step. rewrite Hu. destruct (saml_branch (st_seen_saml st) ep). simpl.
    destruct (key_bucket ep); [by rewrite count_bump|lia].
Qed.

Lemma run_mtls t r c eps :
  t ∈ st_mtls (run r c eps)
  <-> exists ep, ep ∈ answered eps /\ str_eqb (str_or_empty (ep_tls_blocker_reason ep)) "MTLS_REQUIRED" = true
                 /\ target_of ep = t.
Proof.
  unfold run, answered. assert (G : forall st, t ∈ st_mtls (List.fold_left (step r c) eps st)
    <-> t ∈ st_mtls st \/ exists ep, ep ∈ List.filter (fun ep => negb (is_unanswered_email_probe ep)) eps
          /\ str_eqb (str_or_empty (ep_tls_blocker_reason ep)) "MTLS_REQUIRED" = true /\ target_of ep = t).
  { induction eps as [|ep eps IH]; intros st; simpl.
    - split; [auto|intros [?|(?&H&_)]; [done|by apply not_elem_of_nil in H]].
    - rewrite IH. unfold step. destruct (is_unanswered_email_probe ep); simpl; [done|].
      destruct (saml_branch (st_seen_saml st) ep). cbn [st_mtls]. setoid_rewrite elem_of_cons.
      destruct (str_eqb (str_or_empty (ep_tls_blocker_reason ep)) "MTLS_REQUIRED") eqn:E.
      + rewrite elem_of_union, elem_of_singleton. split.
        * intros [[->|?]|(e&?&?&?)]; [right; exists ep|left|right; exists e]; auto.
        * intros [?|(e&[->|?]&?&?)]; [auto..|right; exists e; auto].
      + split.
        * intros [?|(e&?&?&?)]; [auto|right; exists e; auto].
        * intros [?|(e&[->|?]&?&?)]; [auto|congruence|right; exists e; auto]. }
  rewrite G. cbn [st_mtls init_state]. split; [intros [H|H]; [by apply not_elem_of_empty in H|done]|auto].
Qed.

Lemma st_protocols_other k r c eps :
  k ∉ PROTOCOL_KEYS -> count (st_protocols (run r c eps)) k = 0.
Proof.
  intros Hk. unfold run. rewrite (fold_total (fun st => count (st_protocols st) k) (fun _ => 0)).
  - assert (count (st_protocols init_state) k = 0) as ->; [|].
    + unfold count. cbn [st_protocols init_state]. generalize PROTOCOL_KEYS.
      intros l. induction l as [|x l IH]; simpl; [done|]. by destruct (str_eqb x k).
    + induction (answered eps); simpl; lia.
  - intros st ep Hu. unfold step. rewrite Hu. destruct (saml_branch (st_seen_saml st) ep). cbn [st_protocols].
    destruct (str_in (proto_of ep) PROTOCOL_KEYS) eqn:E; [|lia].
    rewrite count_bump, (proj2 (str_eqb_neq (proto_of ep) k)); [done|].
    intros H. apply str_in_iff in E. by rewrite H in E.
Qed.

(** Rows of one certificate agree on its strength. *)
Definition saml_consistent (eps : list CryptoEndpoint) : Prop :=
  forall ep ep', ep ∈ eps -> ep' ∈ eps -> saml_row_key ep <> None ->
    saml_row_key ep = saml_row_key ep' -> saml_weak ep = saml_weak ep'.

Definition weak_key (ep : CryptoEndpoint) : option saml_key :=
  if saml_weak ep then saml_row_key ep else None.

Definition weak_keys (eps : list CryptoEndpoint) : gset saml_key := list_to_set (omap weak_key eps).

Definition unkeyed_weak (ep : CryptoEndpoint) : Z :=
  Z.b2z (is_saml ep && saml_weak ep && negb (bool_decide (is_Some (saml_key_of ep)))).

Lemma elem_of_weak_keys key eps :
  key ∈ weak_keys eps <-> exists ep, ep ∈ eps /\ saml_weak ep = true /\ saml_row_key ep = Some key.
Proof.
  unfold weak_keys. rewrite elem_of_list_to_set, list_elem_of_omap. unfold weak_key.
  split; intros (ep & Hin & H); exists ep; destruct (saml_weak ep); naive_solver.
Qed.

Lemma total_snoc g eps ep : total g (eps ++ [ep]) = total g eps + g ep.
Proof. induction eps as [|e eps IH]; simpl; lia. Qed.

Lemma weak_keys_snoc eps ep :
  weak_keys (eps ++ [ep]) = match weak_key ep with Some key => {[key]} ∪ weak_keys eps | None => weak_keys eps end.
Proof.
  unfold weak_keys. rewrite omap_app, list_to_set_app_L. simpl.
  destruct (weak_key ep); simpl; set_solver.
Qed.

(** The SAML count under consistency: unkeyed weak rows and weak certificates. *)
Lemma saml_count_spec r c eps :
  saml_consistent eps ->
  count (st_counts (run r c eps)) "saml_weak_signing_count"
  = total unkeyed_weak eps + Z.of_nat (size (weak_keys eps)).
Proof.
  induction eps as [|ep eps IH] using rev_ind; intros Hc; [reflexivity|].
  unfold run. rewrite List.fold_left_app. cbn [List.fold_left]. fold (run r c eps).
  rewrite step_saml_count, IH, total_snoc, weak_keys_snoc
    by (intros a b Ha Hb; apply Hc; by apply elem_of_app; left).
  generalize (total unkeyed_weak eps). intros T.
  unfold weak_key, unkeyed_weak. destruct (is_saml ep) eqn:Es.
  2: { unfold saml_row_key. rewrite Es. destruct (saml_weak ep); cbn [andb Z.b2z]; ring. }
  destruct (saml_key_of ep) as [key|] eqn:Ek.
  2: { unfold saml_row_key. rewrite Es, Ek. rewrite bool_decide_eq_false_2 by (intros [? [=]]).
       destruct (saml_weak ep); cbn [andb negb Z.b2z]; ring. }
  assert (R : saml_row_key ep = Some key) by (unfold saml_row_key; by rewrite Es).
  rewrite R, andb_false_r. case_bool_decide as Hseen.
  - apply seen_spec in Hseen as (ep' & Hin & Hk). destruct (saml_weak ep) eqn:Ew; cbn [Z.b2z]; [|ring].
    assert (key ∈ weak_keys eps).
    { apply elem_of_weak_keys. exists ep'. split; [done|]. split; [|done].
      rewrite <- Ew. apply Hc; [apply elem_of_app..| |congruence]; [by left|right; apply list_elem_of_singleton; done|congruence]. }
    rewrite subseteq_union_1_L by set_solver. ring.
  - destruct (saml_weak ep); cbn [Z.b2z]; [|ring].
    rewrite size_union, size_singleton, Nat2Z.inj_add; [ring|].
    apply disjoint_singleton_l. rewrite elem_of_weak_keys. intros (ep' & Hin & _ & Hk).
    apply Hseen, seen_spec. eauto.
Qed.

Lemma saml_count_perm r c eps eps' :
  eps ≡ₚ eps' -> saml_consistent eps ->
  count (st_counts (run r c eps)) "saml_weak_signing_count"
  = count (st_counts (run r c eps')) "saml_weak_signing_count".
Proof.
  intros Hp Hc. rewrite !saml_count_spec; [|intros a b Ha Hb; apply Hc; by rewrite Hp|done].
  rewrite (total_perm _ _ _ Hp). do 3 f_equal. apply set_eq. intros key.
  rewrite !elem_of_weak_keys. by setoid_rewrite Hp.
Qed.

(** The score does not depend on the order in which the rows are read:
    any permutation of the endpoints gives the same result, provided the rows
    of one SAML certificate agree on whether it is weak. *)
Theorem score_ignores_row_order eps eps' fs days ref profile overrides :
  eps ≡ₚ eps' -> saml_consistent eps ->
  compute_readiness_score (build_evidence_summary eps fs days (Some ref)) profile overrides
  = compute_readiness_score (build_evidence_summary eps' fs days (Some ref)) profile overrides.
Proof.
  intros Hp Hc. apply score_of_inputs. unfold build_evidence_summary, resolve_reference_utc.
  apply read_summarize; [|apply same_scored_refl].
  set (r := as_utc_naive ref). set (c := r + Z.max 0 days * US_PER_DAY).
  pose proof (answered_perm _ _ Hp) as Ha. split.
  - intros k. destruct (decide (k = "saml_weak_signing_count")) as [->|Hk]; [by apply saml_count_perm|].
    rewrite !run_count by done. by apply total_perm.
  - intros k. destruct (decide (k ∈ PROTOCOL_KEYS)) as [Hk|Hk]; [|by rewrite !st_protocols_other].
    apply str_in_iff in Hk. rewrite !run_protocol by done. by apply total_perm.
  - intros k. rewrite !run_keys. by apply total_perm.
  - apply set_eq. intros t. rewrite !run_mtls. by setoid_rewrite Ha.
Qed.

Lemma score_ignores_row_order_witness :
  let a := bare_endpoint "a" 80 "HTTP" in let b := saml_row "RSA" "idp|serial=0a" 1024 in
  compute_readiness_score (build_evidence_summary [a; b] [] 30 (Some (naive 0))) None []
  = compute_readiness_score (build_evidence_summary [b; a] [] 30 (Some (naive 0))) None [].
Proof.
  intros a b. apply (score_ignores_row_order [a; b] [b; a] [] 30 (naive 0) None []).
  - constructor.
  - intros x y Hx Hy Hs Hk. unfold a, b in *.
    repeat (apply elem_of_cons in Hx as [->|Hx]); try (by apply not_elem_of_nil in Hx);
      repeat (apply elem_of_cons in Hy as [->|Hy]); try (by apply not_elem_of_nil in Hy);
      vm_compute in Hs, Hk |- *; congruence.
Defined.
