(* ===== verification/Findings.v ===== *)
(** The findings evaluator: [src/quirk/engine/findings_evaluator.py].

    [build_finding] is the chokepoint every finding goes through;
    [row_emissions] is the body of the loop of [evaluate_endpoints] on one row,
    [evaluate_endpoints] that loop with its post-processing, deduplication and
    order; the protocol evaluators and their composition
    [derive_report_findings] follow.  The clock is read once per row: [now i]
    is its value at row [i].  [loads] is [json.loads], [None] when it raises. *)
From Stdlib Require Import ZArith QArith Lia Ascii.
From stdpp Require Import base tactics sets gmap strings list pretty.
From S2P Require Import Prelude PyFloat PyVal WeakCrypto Model Evidence FindingText Catalog Compliance.

Local Open Scope Z_scope.
Local Open Scope quirk_scope.

(** * Tables *)

(** [_SEVERITY_RANK]: the lower the more severe. *)
Definition SEVERITY_RANK : list (string * Z) :=
  [("CRITICAL", 0); ("HIGH", 1); ("MEDIUM", 2); ("LOW", 3); ("INFO", 4)].

(** [(version_prefix, severity, eol_label)]. *)
Definition OPENSSL_EOL : list (string * string * string) :=
  [("0.", "CRITICAL", "OpenSSL 0.x");
   ("1.0.", "CRITICAL", "OpenSSL 1.0.x (EOL Dec 2019)");
   ("1.1.", "HIGH", "OpenSSL 1.1.x (EOL Sep 2023)");
   ("3.0.", "HIGH", "OpenSSL 3.0.x (EOL Apr 2026)");
   ("3.1.", "HIGH", "OpenSSL 3.1.x (EOL Mar 2025)")].

Definition OPENSSL_NAMES : list string :=
  ["openssl"; "libssl"; "libssl1.0"; "libssl1.0.0"; "libssl1.1"; "libssl3"; "libcrypto"; "libcrypto3"].

Definition NIST_IR_8547_DEPRECATION : string :=
  "Per NIST IR 8547, RSA and ECC are deprecated after 2030 and disallowed after 2035.".

Definition EMAIL_PROTOCOLS : list string :=
  ["SMTP-STARTTLS"; "SMTPS"; "IMAP-STARTTLS"; "IMAPS"; "POP3-STARTTLS"; "POP3S"].

(** [WELL_KNOWN_TLS_PORTS] of [src/quirk/util/ports.py]. *)
Definition WELL_KNOWN_TLS_PORTS : list Z := [443; 8443; 9443; 10443; 4433; 5001].

(** [ADVISORY_JWKS_VERIFY_DISABLED] of [src/quirk/scanner/jwt_scanner.py]. *)
Definition ADVISORY_JWKS_VERIFY_DISABLED : string := "JWKS/verify-disabled".

(** [OIDC_ALG_SEVERITY] of [src/quirk/scanner/saml_scanner.py]; [None] is informational. *)
Definition OIDC_ALG_SEVERITY : list (string * option string) :=
  [("RS256", Some "HIGH"); ("RS384", Some "HIGH"); ("RS512", Some "HIGH");
   ("PS256", Some "HIGH"); ("PS384", Some "HIGH"); ("PS512", Some "HIGH");
   ("ES256", None); ("ES384", None); ("ES512", None);
   ("HS256", None); ("HS384", None); ("HS512", None);
   ("EdDSA", None)].

(** [BEARER_ALG_ABSENT_MARKER] and [is_unsigned_jwt_alg] of [src/quirk/util/jwt_alg.py]. *)
Definition BEARER_ALG_ABSENT_MARKER : string := "alg header absent".

Definition is_unsigned_jwt_alg (alg : option string) : bool :=
  negb (truthy_str alg) || str_eqb (lower (str_or_empty alg)) "none".

(** * Findings *)

(** A finding dictionary; [rf_extras] holds the keys some evaluators add
    ([category], [detail], [protocol], [source], [algorithm]). *)
Record report_finding := {
  rf_severity : string;
  rf_host : string;
  rf_port : Z;
  rf_title : string;
  rf_description : string;
  rf_recommendation : string;
  rf_check_id : string;
  rf_quantum_risk : string;
  rf_compliance : list compliance_control;
  rf_extras : list (string * string)
}.

(** What the evidence builder reads of it. *)
Definition as_finding (f : report_finding) : finding :=
  {| f_title := Some (rf_title f); f_severity := Some (rf_severity f);
     f_category := alookup "category" (rf_extras f);
     f_host := Some (rf_host f); f_port := Some (rf_port f) |}.

Definition is_blank (s : string) : bool := str_eqb (strip s) EmptyString.

(** The recommendation of a finding of class [cls]: the catalog entry, else the
    caller's text, with the NIST sentence when it is quantum-vulnerable. *)
Definition recommendation_of (cls : option string) (quantum_vulnerable : bool) (rec : string) : string :=
  match cls ≫= fun c => alookup c REMEDIATION_CATALOG with
  | Some text => text
  | None => if quantum_vulnerable then rec +:+ " " +:+ NIST_IR_8547_DEPRECATION else rec
  end.

Definition quantum_risk_of (cls : option string) : string :=
  match cls ≫= fun c => alookup c ALGO_IMPACT_MAP with
  | Some (_, _, sentence) => sentence
  | None => FALLBACK_QUANTUM_RISK
  end.

Definition crypto_class (d : draft) : option string :=
  classify_finding (dr_severity d) (dr_title d) (strip (dr_description d)) (dr_check_id d).

(** The dictionary [_build_finding] returns, with the keys its caller adds. *)
Definition make_finding (host : string) (port : Z) (extras : list (string * string)) (d : draft)
  : report_finding :=
  let cls := crypto_class d in
  {| rf_severity := dr_severity d;
     rf_host := host;
     rf_port := port;
     rf_title := dr_title d;
     rf_description := strip (dr_description d);
     rf_recommendation := recommendation_of cls (dr_quantum_vulnerable d) (strip (dr_recommendation d));
     rf_check_id := dr_check_id d;
     rf_quantum_risk := quantum_risk_of cls;
     rf_compliance := compliance_of (dr_title d);
     rf_extras := extras |}.

(** [_build_finding]: the description, then the recommendation, must have text. *)
Definition build_finding (host : string) (port : Z) (extras : list (string * string)) (d : draft)
  : pyres report_finding :=
  if is_blank (dr_description d) then Raise (ValueError "_build_finding requires a non-empty description")
  else if is_blank (dr_recommendation d) then Raise (ValueError "_build_finding requires a non-empty recommendation")
  else Ok (make_finding host port extras d).

(** A finding about to be built: its row's address, its extra keys, its texts. *)
Definition emission : Type := string * Z * list (string * string) * draft.

Definition build (e : emission) : pyres report_finding :=
  let '(host, port, extras, d) := e in build_finding host port extras d.

Definition made (e : emission) : report_finding :=
  let '(host, port, extras, d) := e in make_finding host port extras d.

(** * Container packages *)

(** [_pkg_major]. *)
Definition pkg_major (version : string) : option Z :=
  match split_on "."%char version with
  | [] => None
  | w :: _ => int_of_str w
  end.

Definition major_below (bound : Z) (version : string) : bool :=
  match pkg_major version with Some major => major <? bound | None => false end.

Definition openssl_eol (version : string) : option (string * string * string) :=
  List.find (fun '(prefix, _, _) => startswith version prefix) OPENSSL_EOL.

(** [_evaluate_container_package]. *)
Definition evaluate_container_package (pkg_name version : string) : draft :=
  let name := lower pkg_name in
  if str_in name OPENSSL_NAMES then
    match openssl_eol version with
    | Some (_, sev, label) => container_openssl_eol sev label
    | None => container_quantum_vulnerable name version
    end
  else if str_eqb name "cryptography" && major_below 3 version then container_cryptography_severe version
  else if str_eqb name "cryptography" && major_below 41 version then container_cryptography_outdated version
  else if str_eqb name "pyopenssl" && major_below 20 version then container_pyopenssl version
  else if str_in name ["libgcrypt20"; "libgcrypt"] && startswith version "1.8." then container_libgcrypt version
  else container_library name version.

(** * Endpoint rows *)

(** [_error_category]: the text before the first colon. *)
Definition error_category (desc : string) : string :=
  match split_on ":"%char desc with
  | w :: _ => strip w
  | [] => EmptyString
  end.

Definition proto_is (p : string) (ep : CryptoEndpoint) : bool :=
  match ep_protocol ep with Some q => str_eqb q p | None => false end.

(** Exact case on purpose. *)
Definition runs_tls_certificate_checks (ep : CryptoEndpoint) : bool := proto_is "TLS" ep.

Definition has_legacy_tls_versions (ep : CryptoEndpoint) : bool :=
  has_legacy_tls_versions_signal (ep_tls_version ep) (ep_tls_supported_versions ep).

Definition column_is (o : option string) (v : string) : bool :=
  match o with Some s => str_eqb s v | None => false end.

(** [na.date()] of a naive instant. *)
Definition date_text (us : Z) : string :=
  let '(y, m, d) := civil_of_days (us / US_PER_DAY) in
  zpad 4 y +:+ "-" +:+ zpad 2 m +:+ "-" +:+ zpad 2 d.

Definition EXPIRING_WINDOW : Z := 30 * US_PER_DAY.

Section Evaluators.
Context (loads : string -> option pyval).

(** [_chain_verified]: the column when it is set, else the capabilities blob. *)
Definition chain_verified (e : endpoint_row) : option bool :=
  match er_flag e "chain_verified" with
  | Some b => Some b
  | None =>
      if truthy_str (er_text e "tls_capabilities_json") then
        match loads (str_or_empty (er_text e "tls_capabilities_json")) with
        | Some (VDict caps) =>
            match dict_get caps "chain_verified" with
            | None | Some VNone => None
            | Some v => Some (truthy v)
            end
        | _ => None
        end
      else None
  end.

(** ** TLS rows: versions, suites, validity, issuer, key *)

Definition expiry_drafts (now : Z) (ep : CryptoEndpoint) : list draft :=
  match ep_cert_not_after ep with
  | None => []
  | Some d =>
      let na := as_utc_naive d in
      if na <? now then [cert_expired (date_text na)]
      else if na <? now + EXPIRING_WINDOW then [cert_expiring (date_text na)]
      else []
  end.

Definition issuer_drafts (e : endpoint_row) : list draft :=
  let issuer := strip (str_or_empty (ep_cert_issuer (er_ep e))) in
  let subject := strip (str_or_empty (ep_cert_subject (er_ep e))) in
  let both := negb (str_eqb issuer EmptyString) && negb (str_eqb subject EmptyString) in
  if both && str_eqb issuer subject then [cert_self_signed]
  else if both && negb (str_eqb issuer subject)
          && bool_decide (chain_verified e = Some false) then [cert_untrusted_ca]
  else [].

Definition key_drafts (ep : CryptoEndpoint) : list draft :=
  let alg := upper (strip (str_or_empty (ep_cert_pubkey_alg ep))) in
  if str_eqb alg "RSA" then
    match ep_cert_pubkey_size ep with
    | Some size => if size <? 2048 then [rsa_undersized size] else [rsa_quantum]
    | None => [rsa_quantum]
    end
  else if str_eqb alg "ECDSA" then
    match ep_cert_pubkey_size ep with
    | Some size => if size <? 256 then [ecdsa_undersized size] else [ecdsa_quantum]
    | None => [ecdsa_quantum]
    end
  else [].

Definition tls_drafts (now : Z) (e : endpoint_row) : list draft :=
  (if has_legacy_tls_versions (er_ep e) then [legacy_tls_versions] else [])
  ++ (if default false (er_flag e "tls_legacy_suites_present") then [legacy_cipher_suites] else [])
  ++ expiry_drafts now (er_ep e)
  ++ issuer_drafts e
  ++ key_drafts (er_ep e).

(** The checks of a row that answered: each independent of the others. *)
Definition answered_drafts (now : Z) (e : endpoint_row) : list draft :=
  let ep := er_ep e in
  (if proto_is "HTTP" ep then [plaintext_http] else [])
  ++ (if runs_tls_certificate_checks ep then tls_drafts now e else [])
  ++ (if proto_is "SSH" ep then [ssh_advisory] else [])
  ++ (if proto_is "CONTAINER" ep then
        [evaluate_container_package (strip (str_or_empty (ep_cipher_suite ep)))
                                    (strip (str_or_empty (ep_tls_version ep)))]
      else [])
  ++ (if proto_is "UNKNOWN" ep then [unknown_service] else []).

(** The single finding of a row with a scan error. *)
Definition error_draft (scan_err : string) (ep : CryptoEndpoint) : draft :=
  let err_cat := error_category scan_err in
  if proto_is "TLS" ep && str_in err_cat ["TLS_HANDSHAKE_FAILED"; "TIMEOUT"] then tls_blocked
  else if proto_is "TLS" ep && str_eqb err_cat "MTLS_REQUIRED" then mtls_required
  else if proto_is "SOURCE" ep then source_incomplete (ep_host ep)
  else protocol_observation.

(** The body of the loop of [evaluate_endpoints]: an advisory row, else a
    scan error, else the checks. *)
Definition row_drafts (now : Z) (e : endpoint_row) : list (list (string * string) * draft) :=
  let ep := er_ep e in
  let advisory := proto_is "ADVISORY" ep in
  let category := er_text e "scan_error_category" in
  let msg := str_or_empty (ep_scan_error ep) in
  if advisory && column_is category "missing_extra" then
    [([("category", "coverage_gap")], skipped_extra msg)]
  else if advisory && column_is category "missing_binary" then
    [([("category", "coverage_gap")], skipped_tool msg)]
  else if advisory && column_is (ep_service_detail ep) ADVISORY_JWKS_VERIFY_DISABLED then
    [([("category", "config_advisory")], jwks_unverified (ep_host ep))]
  else if truthy_str (ep_scan_error ep) then
    [([("detail", msg)], error_draft msg ep)]
  else map (fun d => ([], d)) (answered_drafts now e).

Definition row_emissions (now : Z) (e : endpoint_row) : list emission :=
  map (fun '(extras, d) => (ep_host (er_ep e), ep_port (er_ep e), extras, d)) (row_drafts now e).

(** ** Post-processing *)

(** The configuration the evaluator reads: [cfg.scan.tls_designated_ports]. *)
Definition designated_tls_port (tls_designated_ports : list Z) (port : Z) : bool :=
  bool_decide (port ∈ WELL_KNOWN_TLS_PORTS ++ tls_designated_ports).

(** [ep_map.get((host, port))]: the last row at that address. *)
Definition last_row_at (eps : list endpoint_row) (host : string) (port : Z) : option CryptoEndpoint :=
  List.find (fun ep => str_eqb (ep_host ep) host && (ep_port ep =? port)) (rev (map er_ep eps)).

Definition retitled (severity title recommendation : string) (f : report_finding) : report_finding :=
  {| rf_severity := severity; rf_host := rf_host f; rf_port := rf_port f; rf_title := title;
     rf_description := rf_description f; rf_recommendation := recommendation;
     rf_check_id := rf_check_id f; rf_quantum_risk := rf_quantum_risk f;
     rf_compliance := rf_compliance f; rf_extras := rf_extras f |}.

Definition as_mtls_required : report_finding -> report_finding :=
  retitled "INFO" "mTLS required"
    "Service appears to require client authentication for TLS handshake. Validate client certificate requirements, trust chain, and onboarding flow.".

Definition as_handshake_blocked : report_finding -> report_finding :=
  retitled "MEDIUM" "TLS handshake blocked assessment"
    "TLS handshake failure is blocking accurate cryptographic assessment. Validate endpoint handshake policy, SNI expectations, and network path.".

Definition as_http_on_tls_port : report_finding -> report_finding :=
  retitled "HIGH" "HTTP on TLS-designated port"
    "A plaintext HTTP service responded on a port expected to be TLS/HTTPS. Correct service configuration (enable TLS) or update port policy/registry.".

(** One turn of the loop of [_postprocess_findings]. *)
Definition postprocess (tls_designated_ports : list Z) (eps : list endpoint_row) (f : report_finding)
  : report_finding :=
  if str_eqb (strip (rf_title f)) "Plaintext HTTP service detected"
     && designated_tls_port tls_designated_ports (rf_port f)
  then
    match last_row_at eps (rf_host f) (rf_port f) with
    | None => as_http_on_tls_port f
    | Some ep =>
        let detail := if truthy_str (ep_tls_blocker_reason ep) then ep_tls_blocker_reason ep
                      else ep_tls_version ep in
        if proto_is "TLS" ep && column_is detail "MTLS_REQUIRED" then as_mtls_required f
        else if proto_is "TLS" ep && (column_is detail "TLS_HANDSHAKE_FAILED" || column_is detail "TIMEOUT")
        then as_handshake_blocked f
        else as_http_on_tls_port f
    end
  else f.

Definition with_severity (severity : string) (f : report_finding) : report_finding :=
  retitled severity (rf_title f) (rf_recommendation f) f.

(** [_normalize_finding]. *)
Definition normalize_finding (f : report_finding) : report_finding :=
  let title := strip (rf_title f) in
  if str_in title ["Plaintext HTTP service detected"; "HTTP on TLS-designated port"] then with_severity "HIGH" f
  else if str_in title ["Unknown open service"; "TLS handshake blocked assessment"] then with_severity "MEDIUM" f
  else if str_eqb title "Legacy TLS versions allowed (TLS 1.0/1.1)" then with_severity "LOW" f
  else if str_in title ["SSH quantum planning advisory"; "mTLS required"; "Informational protocol observation"]
  then with_severity "INFO" f
  else f.

(** The deduplication key: host, port, title, recommendation. *)
Definition dedupe_key : Type := string * Z * string * string.

Definition key_of (f : report_finding) : dedupe_key :=
  (rf_host f, rf_port f, rf_title f, rf_recommendation f).

Definition rank (f : report_finding) : Z :=
  default 4 (alookup (upper (rf_severity f)) SEVERITY_RANK).

(** One turn of the loop of [_dedupe_findings] on the dictionary's values in
    insertion order: a new key is appended, a known one is overwritten in
    place by a strictly more severe finding. *)
Fixpoint keep_worst (f : report_finding) (kept : list report_finding) : list report_finding :=
  match kept with
  | [] => [f]
  | prior :: rest =>
      if bool_decide (key_of prior = key_of f)
      then (if rank f <? rank prior then f else prior) :: rest
      else prior :: keep_worst f rest
  end.

Definition deduped (findings : list report_finding) : list report_finding :=
  List.fold_left (fun kept f => keep_worst (normalize_finding f) kept) findings [].

(** The report order: severity rank, title, host, port. *)
Definition report_leb (f g : report_finding) : bool :=
  lex Z.eqb Z.leb (rank f) (rank g)
    (lex str_eqb str_leb (rf_title f) (rf_title g)
       (lex str_eqb str_leb (rf_host f) (rf_host g) (rf_port f <=? rf_port g))).

Definition dedupe_findings (findings : list report_finding) : list report_finding :=
  py_sorted report_leb (deduped findings).

Definition postprocess_findings (tls_designated_ports : list Z) (eps : list endpoint_row)
    (findings : list report_finding) : list report_finding :=
  dedupe_findings (map (postprocess tls_designated_ports eps) findings).

(** [now i] is the clock at row [i]. *)
Definition all_emissions (now : nat -> Z) (eps : list endpoint_row) : list emission :=
  concat (imap (fun i e => row_emissions (now i) e) eps).

Definition evaluate_endpoints (now : nat -> Z) (tls_designated_ports : list Z) (eps : list endpoint_row)
  : pyres (list report_finding) :=
  let! findings := ptraverse build (all_emissions now eps) in
  Ok (postprocess_findings tls_designated_ports eps findings).

(** ** Mail, brokers *)

Definition any_in (tokens : list string) (cipher : string) : bool := existsb (contains cipher) tokens.

Definition email_is_rsa_kex (cipher : string) : bool :=
  (startswith cipher "TLS_RSA_WITH_" || any_in ["AES128-SHA"; "AES256-SHA"; "3DES"; "RC4"] cipher)
  && negb (contains cipher "ECDHE") && negb (contains cipher "DHE-").

(** The body of the loop of [evaluate_email_endpoints]. *)
Definition email_drafts (e : endpoint_row) : list draft :=
  let ep := er_ep e in
  let cipher := upper (str_or_empty (ep_cipher_suite ep)) in
  let negotiated := truthy_str (ep_tls_version ep) in
  (if (ep_port ep =? 25) && column_is (ep_protocol ep) "SMTP-STARTTLS" && negotiated
   then [email_starttls] else [])
  ++ (if email_is_rsa_kex cipher && negotiated then [email_weak_cipher]
      else if bool_decide (er_flag e "tls_pfs_supported" = Some false) && negotiated
              && negb (column_is (ep_tls_version ep) "TLSv1.3")
      then [email_non_pfs]
      else []).

Definition BROKER_TLS_PROTOCOLS : list string :=
  ["KAFKA-TLS"; "AMQPS"; "AMQPS/Azure-ServiceBus"; "HTTPS/AWS-SQS"; "REDIS-TLS"].

Definition broker_is_rsa_kex (cipher : string) : bool :=
  (startswith cipher "TLS_RSA_WITH_"
   || any_in ["AES128-SHA"; "AES256-SHA"; "3DES"; "RC4"; "DES-CBC"] cipher)
  && negb (contains cipher "ECDHE") && negb (contains cipher "DHE").

(** The body of the loop of [evaluate_broker_endpoints]. *)
Definition broker_drafts (e : endpoint_row) : list draft :=
  let ep := er_ep e in
  let protocol := str_or_empty (ep_protocol ep) in
  let cipher := upper (str_or_empty (ep_cipher_suite ep)) in
  if str_eqb protocol "KAFKA-PLAIN" then [kafka_plaintext]
  else if str_eqb protocol "AMQP-PLAIN" then [amqp_plaintext]
  else if str_eqb protocol "REDIS-PLAIN" then [redis_plaintext]
  else if str_in protocol BROKER_TLS_PROTOCOLS && truthy_str (ep_tls_version ep)
          && broker_is_rsa_kex cipher
  then [broker_weak_cipher]
  else [].

(** ** Code signing *)

(** [codesign_scan_json or smime_scan_json], parsed: the value of its key
    [reasons]; the empty list whenever the [try] block raises. *)
Definition codesign_reasons (e : endpoint_row) : pyval :=
  let raw := if truthy_str (er_text e "codesign_scan_json") then er_text e "codesign_scan_json"
             else er_text e "smime_scan_json" in
  if truthy_str raw then
    match loads (str_or_empty raw) with
    | Some (VDict parsed) =>
        match dict_get parsed "reasons" with
        | Some v => if truthy v then v else VList []
        | None => VList []
        end
    | _ => VList []
    end
  else VList [].

(** The items a [for] loop over a container yields; [None]: not iterable. *)
Definition iterate (v : pyval) : option (list pyval) :=
  match v with
  | VStr s => Some (map (fun c => VStr (String c EmptyString)) (String.list_ascii_of_string s))
  | VList l => Some l
  | VDict d => Some (map VStr (d.*1))
  | _ => None
  end.

Definition is_string (x : string) (v : pyval) : bool :=
  match v with VStr s => str_eqb s x | _ => false end.

(** [x in container] for a string [x]: substring of a string, element of a
    list, key of a dictionary. *)
Definition member (x : string) (container : pyval) : pyres bool :=
  match container with
  | VStr s => Ok (contains s x)
  | _ => match iterate container with
         | Some items => Ok (existsb (is_string x) items)
         | None => Raise (TypeError "argument is not iterable")
         end
  end.

(** [_reason_to_check_id]. *)
Definition REASON_TO_CHECK_ID : list (string * string) :=
  [("weak-ec-key", "ECDSA"); ("weak-rsa-key", "RSA"); ("weak-signing-alg", "SHA-1")].

(** [next((table[r] for r in reasons if r in table), "")]; a list or a
    dictionary is unhashable. *)
Fixpoint dominant_check_id (items : list pyval) : pyres string :=
  match items with
  | [] => Ok EmptyString
  | VList _ :: _ => Raise (TypeError "unhashable type: 'list'")
  | VDict _ :: _ => Raise (TypeError "unhashable type: 'dict'")
  | VStr s :: rest =>
      match alookup s REASON_TO_CHECK_ID with
      | Some check => Ok check
      | None => dominant_check_id rest
      end
  | _ :: rest => dominant_check_id rest
  end.

(** [", ".join(reasons)]. *)
Definition reason_text (v : pyval) : pyres string :=
  match v with VStr s => Ok s | _ => Raise (TypeError "sequence item: expected str instance") end.

Fixpoint join_with (sep : string) (l : list string) : string :=
  match l with
  | [] => EmptyString
  | [x] => x
  | x :: l' => x +:+ sep +:+ join_with sep l'
  end.

(** [strftime("%Y-%m-%d")] of the UTC instant, and the whole days left. *)
Definition not_after_date (ep : CryptoEndpoint) : string :=
  match ep_cert_not_after ep with Some d => date_text (as_utc_naive d) | None => "unknown" end.

Definition days_remaining (now : Z) (ep : CryptoEndpoint) : Z :=
  match ep_cert_not_after ep with
  | Some d => int_of_float (fdiv (int_truediv (as_utc_naive d - now) 1000000) (of_int 86400))
  | None => 0
  end.

(** The body of the loop of [evaluate_codesign_endpoints]. *)
Definition codesign_drafts (now : Z) (e : endpoint_row) : pyres (list draft) :=
  let ep := er_ep e in
  let subject := if truthy_str (ep_cert_subject ep) then str_or_empty (ep_cert_subject ep) else "unknown" in
  let reasons := codesign_reasons e in
  let! expired := member "expired" reasons in
  if (expired : bool) then Ok [codesign_expired subject (not_after_date ep)]
  else
    let! approaching := member "approaching-expiry" reasons in
    if (approaching : bool) then
      Ok [codesign_expiring subject (not_after_date ep) (days_remaining now ep)]
    else if truthy reasons then
      let items := default [] (iterate reasons) in
      let! check := dominant_check_id items in
      let! texts := ptraverse reason_text items in
      Ok [codesign_weak subject (join_with ", " texts) check]
    else Ok [].

(** ** SAML *)

(** [_saml_key_use]: the first [use=] token decides. *)
Fixpoint first_use (tokens : list string) : option string :=
  match tokens with
  | [] => None
  | t :: ts =>
      let token := strip t in
      if startswith token "use=" then
        match lower (strip (String.substring 4 (String.length token - 4) token)) with
        | EmptyString => None
        | s => Some s
        end
      else first_use ts
  end.

Definition saml_key_use (service_detail : string) : option string :=
  first_use (split_on "|"%char service_detail).

Definition saml_extras (algorithm : string) : list (string * string) :=
  [("protocol", "SAML"); ("source", "saml"); ("algorithm", algorithm)].

(** The body of the loop of [evaluate_identity_endpoints]; [seen] is the
    guard of the weak-key branch. *)
Definition identity_step (seen : gset saml_key) (ep : CryptoEndpoint)
  : gset saml_key * list (list (string * string) * draft) :=
  if negb (str_eqb (proto_of ep) "SAML") then (seen, [])
  else
    let alg := upper (str_or_empty (ep_cert_pubkey_alg ep)) in
    let sd := detail_of ep in
    match alookup alg OIDC_ALG_SEVERITY with
    | Some (Some severity) => (seen, [(saml_extras alg, oidc_rs_family severity alg)])
    | found =>
        if str_eqb alg "SHA1" then (seen, [(saml_extras "SHA1", saml_sha1)])
        else
          match found, ep_cert_pubkey_size ep with
          | None, Some size =>
              if size <? 2048 then
                let algorithm := if size =? 0 then alg else alg +:+ "-" +:+ pretty size in
                let d := if column_is (saml_key_use sd) "encryption" then saml_encryption_cert alg size
                         else saml_signing_cert alg size in
                match saml_cert_serial sd with
                | Some serial =>
                    let key := (ep_host ep, ep_port ep, serial) in
                    if bool_decide (key ∈ seen) then (seen, [])
                    else ({[key]} ∪ seen, [(saml_extras algorithm, d)])
                | None => (seen, [(saml_extras algorithm, d)])
                end
              else (seen, [])
          | _, _ => (seen, [])
          end
    end.

Definition at_endpoint (ep : CryptoEndpoint) (x : list (string * string) * draft) : emission :=
  (ep_host ep, ep_port ep, x.1, x.2).

Fixpoint identity_emissions (seen : gset saml_key) (eps : list CryptoEndpoint) : list emission :=
  match eps with
  | [] => []
  | ep :: rest =>
      let '(seen', out) := identity_step seen ep in
      map (at_endpoint ep) out ++ identity_emissions seen' rest
  end.

(** ** Bearer tokens *)

Definition bearer_cause (ep : CryptoEndpoint) : option string :=
  let alg := ep_cert_pubkey_alg ep in
  if truthy_str alg then
    if is_unsigned_jwt_alg alg
    then Some ("The token header declares alg " +:+ dquote_str +:+ str_or_empty alg +:+ dquote_str
               +:+ " (no signature).")
    else None
  else if contains (str_or_empty (ep_service_detail ep)) BEARER_ALG_ABSENT_MARKER
  then Some "The token header carries no alg, so no signature algorithm is declared."
  else None.

Definition bearer_drafts (e : endpoint_row) : list draft :=
  match bearer_cause (er_ep e) with Some cause => [bearer_unsigned cause] | None => [] end.

(** ** Evaluators and their composition *)

Definition plain (e : endpoint_row) (d : draft) : emission := at_endpoint (er_ep e) ([], d).

Definition evaluate_each (f : endpoint_row -> list draft) (eps : list endpoint_row)
  : pyres (list report_finding) :=
  ptraverse build (concat (map (fun e => map (plain e) (f e)) eps)).

Definition evaluate_email_endpoints : list endpoint_row -> pyres (list report_finding) :=
  evaluate_each email_drafts.
Definition evaluate_broker_endpoints : list endpoint_row -> pyres (list report_finding) :=
  evaluate_each broker_drafts.
Definition evaluate_bearer_token_endpoints : list endpoint_row -> pyres (list report_finding) :=
  evaluate_each bearer_drafts.

(** Unlike the others, a row of this loop may raise before its finding is built. *)
Definition codesign_row (x : Z * endpoint_row) : pyres (list report_finding) :=
  let! ds := codesign_drafts x.1 x.2 in
  ptraverse build (map (plain x.2) ds).

Definition evaluate_codesign_endpoints (now : nat -> Z) (eps : list endpoint_row)
  : pyres (list report_finding) :=
  let! ls := ptraverse codesign_row (imap (fun i e => (now i, e)) eps) in
  Ok (concat ls).

Definition evaluate_identity_endpoints (eps : list endpoint_row) : pyres (list report_finding) :=
  ptraverse build (identity_emissions ∅ (map er_ep eps)).

Definition evaluate_protocol_service_endpoints (now : nat -> Z) (eps : list endpoint_row)
  : pyres (list report_finding) :=
  let! email := evaluate_email_endpoints
                  (List.filter (fun e => existsb (fun p => proto_is p (er_ep e)) EMAIL_PROTOCOLS) eps) in
  let! broker := evaluate_broker_endpoints eps in
  let! codesign := evaluate_codesign_endpoints now
                     (List.filter (fun e => proto_is "CODE_SIGNING" (er_ep e)) eps) in
  let! bearer := evaluate_bearer_token_endpoints
                   (List.filter (fun e => proto_is "BEARER_TOKEN" (er_ep e)) eps) in
  Ok (email ++ broker ++ codesign ++ bearer).

(** [now1] and [now2] are the clock of the two evaluators that read it;
    [tls_designated_ports] is empty when no configuration is given. *)
Definition derive_report_findings (now1 now2 : nat -> Z) (tls_designated_ports : list Z)
    (eps : list endpoint_row) : pyres (list report_finding) :=
  let! endpoint_findings := evaluate_endpoints now1 tls_designated_ports eps in
  let! service_findings := evaluate_protocol_service_endpoints now2 eps in
  let! identity_findings := evaluate_identity_endpoints eps in
  Ok (endpoint_findings ++ service_findings ++ identity_findings).

End Evaluators.
