(* ===== verification/FindingsTheory.v ===== *)
(** Lemmas on the findings evaluator: no literal text is blank, the dictionary
    of the deduplication holds the first of the worst findings of each key, and
    what post-processing leaves unchanged. *)
From Stdlib Require Import ZArith QArith Lia Ascii.
From stdpp Require Import base tactics sets gmap strings list pretty.
From S2P Require Import Prelude PyFloat PyVal WeakCrypto Model Evidence FindingText Catalog Compliance Findings.

Local Open Scope Z_scope.
Local Open Scope quirk_scope.

(** * Texts are not blank *)

(** Every finding an evaluator drafts has one of the five severities. *)
Definition SEVERITIES : list string := ["CRITICAL"; "HIGH"; "MEDIUM"; "LOW"; "INFO"].

Definition starts_inked (s : string) : bool :=
  match s with EmptyString => false | String c _ => negb (is_space c) end.

Lemma starts_inked_not_blank s : starts_inked s = true -> is_blank s = false.
Proof.
  destruct s as [|c s]; simpl; [done|]. rewrite negb_true_iff. intros Hc.
  unfold is_blank, strip. simpl. rewrite Hc. simpl.
  destruct (rstrip_by is_space s); [rewrite Hc|]; apply bool_decide_eq_false; discriminate.
Qed.

(** A draft [_build_finding] accepts, of a known severity; and the test of it
    that computes on literals. *)
Record sound_draft (d : draft) : Prop := {
  sound_description : is_blank (dr_description d) = false;
  sound_recommendation : is_blank (dr_recommendation d) = false;
  sound_severity : dr_severity d ∈ SEVERITIES
}.

Definition inked_draft (d : draft) : bool :=
  starts_inked (dr_description d) && starts_inked (dr_recommendation d)
  && str_in (dr_severity d) SEVERITIES.

Lemma inked_sound d : inked_draft d = true -> sound_draft d.
Proof.
  intros [[H1 H2]%andb_true_iff H3]%andb_true_iff.
  split; [by apply starts_inked_not_blank..|by apply bool_decide_eq_true in H3].
Qed.

Lemma build_sound host port extras d :
  sound_draft d -> build (host, port, extras, d) = Ok (made (host, port, extras, d)).
Proof. intros [H1 H2 _]. unfold build, build_finding, made. by rewrite H1, H2. Qed.

(** Case analysis of a list of drafts down to its literals. *)
Ltac each_draft :=
  repeat match goal with
  | H : _ ∈ _ ++ _ |- _ => apply elem_of_app in H as [H|H]
  | H : _ ∈ [] |- _ => by apply not_elem_of_nil in H
  | H : _ ∈ [_] |- _ => apply list_elem_of_singleton in H; subst
  | H : _ ∈ (if ?b then _ else _) |- _ => destruct b eqn:?
  | H : _ ∈ (match ?o with Some _ => _ | None => _ end) |- _ => destruct o eqn:?
  end.

Lemma openssl_eol_in v p sev label :
  openssl_eol v = Some (p, sev, label) -> (p, sev, label) ∈ OPENSSL_EOL /\ startswith v p = true.
Proof.
  unfold openssl_eol. intros [Hin Hv]%List.find_some. split; [by apply list_elem_of_In|done].
Qed.

Lemma container_sound name v : sound_draft (evaluate_container_package name v).
Proof.
  apply inked_sound. unfold evaluate_container_package. cbv zeta.
  destruct (str_in (lower name) OPENSSL_NAMES).
  - destruct (openssl_eol v) as [[[p sev] label]|] eqn:E; [|reflexivity].
    apply openssl_eol_in in E as [Hin _]. unfold OPENSSL_EOL in Hin.
    repeat (apply elem_of_cons in Hin as [[= -> -> ->]|Hin]; [reflexivity|]).
    by apply not_elem_of_nil in Hin.
  - repeat match goal with |- context [if ?b then _ else _] => destruct b end; reflexivity.
Qed.
#[export] Hint Resolve container_sound inked_sound : quirk.

(** * The rows of [evaluate_endpoints] *)

Section Drafts.
Context (loads : string -> option pyval).

Lemma answered_sound now e d : d ∈ answered_drafts loads now e -> sound_draft d.
Proof.
  unfold answered_drafts, tls_drafts, expiry_drafts, issuer_drafts, key_drafts. cbv zeta.
  intros H. each_draft; try apply container_sound; by apply inked_sound.
Qed.

Lemma error_sound msg ep : sound_draft (error_draft msg ep).
Proof.
  apply inked_sound. unfold error_draft. cbv zeta.
  repeat match goal with |- context [if ?b then _ else _] => destruct b end; reflexivity.
Qed.

(** The one row whose finding cannot be built: a missing-extra advisory whose
    message is not empty but blank. *)
Definition blank_extra (e : endpoint_row) : bool :=
  proto_is "ADVISORY" (er_ep e) && column_is (er_text e "scan_error_category") "missing_extra"
  && truthy_str (ep_scan_error (er_ep e)) && is_blank (str_or_empty (ep_scan_error (er_ep e))).

Definition BLANK_RECOMMENDATION : pyexn :=
  ValueError "_build_finding requires a non-empty recommendation".

Lemma row_drafts_sound now e x :
  x ∈ row_drafts loads now e -> blank_extra e = false -> sound_draft x.2.
Proof.
  unfold row_drafts, blank_extra. cbv zeta. intros H Hb.
  destruct (proto_is "ADVISORY" (er_ep e) && column_is (er_text e "scan_error_category") "missing_extra").
  { apply list_elem_of_singleton in H as ->. cbn [snd].
    destruct (ep_scan_error (er_ep e)) as [[|c s]|]; try (by apply inked_sound).
    split; [by apply starts_inked_not_blank|exact Hb|do 4 right; left]. }
  repeat match type of H with _ ∈ (if ?b then _ else _) => destruct b end;
    try (apply list_elem_of_singleton in H as ->; cbn [snd]; first [apply error_sound|by apply inked_sound]).
  apply list_elem_of_fmap in H as (d & -> & Hd). by eapply answered_sound.
Qed.

Lemma row_drafts_blank now e :
  blank_extra e = true ->
  exists d, row_drafts loads now e = [([("category", "coverage_gap")], d)]
    /\ is_blank (dr_description d) = false /\ is_blank (dr_recommendation d) = true.
Proof.
  unfold row_drafts, blank_extra. cbv zeta.
  destruct (proto_is "ADVISORY" (er_ep e) && column_is (er_text e "scan_error_category") "missing_extra"); [|done].
  destruct (ep_scan_error (er_ep e)) as [[|c s]|]; [done| |done]. intros Hb.
  eexists. split; [reflexivity|]. split; [by apply starts_inked_not_blank|exact Hb].
Qed.

Lemma build_all_sound (l : list emission) :
  Forall (fun em : emission => sound_draft em.2) l -> ptraverse build l = Ok (map made l).
Proof.
  intros H. apply ptraverse_ok. induction H as [|[[[h p] ex] d] l Hd H IH]; simpl; constructor; [|done].
  by apply build_sound.
Qed.

Lemma row_build now e :
  ptraverse build (row_emissions loads now e)
  = if blank_extra e then Raise BLANK_RECOMMENDATION else Ok (map made (row_emissions loads now e)).
Proof.
  destruct (blank_extra e) eqn:Hb.
  - destruct (row_drafts_blank now e Hb) as (d & Hd & H1 & H2).
    unfold row_emissions. rewrite Hd. cbn [map ptraverse build]. unfold build_finding. by rewrite H1, H2.
  - apply build_all_sound. unfold row_emissions. apply Forall_forall. intros em Hem.
    apply list_elem_of_fmap in Hem as ([ex d] & -> & Hx). by apply (row_drafts_sound now e (ex, d)).
Qed.

Lemma ptraverse_app {A B} (f : A -> pyres B) l l' :
  ptraverse f (l ++ l')
  = pbind (ptraverse f l) (fun bs => pbind (ptraverse f l') (fun bs' => Ok (bs ++ bs'))).
Proof.
  induction l as [|a l IH]; simpl; [by destruct (ptraverse f l')|].
  destruct (f a); simpl; [|done]. rewrite IH. destruct (ptraverse f l); simpl; [|done].
  by destruct (ptraverse f l').
Qed.

(** The loop of [evaluate_endpoints] before post-processing. *)
Lemma all_build now eps :
  ptraverse build (all_emissions loads now eps)
  = if existsb blank_extra eps then Raise BLANK_RECOMMENDATION
    else Ok (map made (all_emissions loads now eps)).
Proof.
  unfold all_emissions. revert now. induction eps as [|e eps IH]; intros now; [done|].
  rewrite imap_cons. cbn [concat existsb]. rewrite ptraverse_app, row_build.
  destruct (blank_extra e); [done|]. cbn [pbind orb].
  specialize (IH (now ∘ S)). unfold compose in *. rewrite IH.
  destruct (existsb blank_extra eps); [done|]. cbn [pbind]. by rewrite map_app.
Qed.

Lemma elem_of_all_emissions now eps em :
  em ∈ all_emissions loads now eps <->
  exists i e, eps !! i = Some e /\ em ∈ row_emissions loads (now i) e.
Proof.
  unfold all_emissions. rewrite list_elem_of_In, in_concat. setoid_rewrite <- list_elem_of_In.
  setoid_rewrite elem_of_lookup_imap. split.
  - intros (l & (i & e & -> & Hi) & Hem). eauto.
  - intros (i & e & Hi & Hem). eauto 8.
Qed.

End Drafts.

(** * Deduplication

    [chosen ns g]: [g] is the first of the most severe findings of its key. *)
Definition chosen (ns : list report_finding) (g : report_finding) : Prop :=
  exists i, ns !! i = Some g /\
    forall j h, ns !! j = Some h -> key_of h = key_of g -> rank g < rank h \/ (rank g = rank h /\ (i <= j)%nat).

Lemma lookup_snoc_inv {A} (l : list A) (x : A) i y :
  (l ++ [x]) !! i = Some y -> (l !! i = Some y) \/ (i = length l /\ y = x).
Proof.
  intros [H|[H1 H2]]%lookup_app_Some; [by left|right].
  apply list_lookup_singleton_Some in H2 as [H2 ->]. split; [lia|done].
Qed.

Lemma chosen_snoc ns f g :
  chosen (ns ++ [f]) g <->
  (chosen ns g /\ (key_of f = key_of g -> rank g <= rank f))
  \/ (g = f /\ forall h, h ∈ ns -> key_of h = key_of f -> rank f < rank h).
Proof.
  split.
  - intros (i & Hi & Hmin). apply lookup_snoc_inv in Hi as [Hi|[-> ->]].
    + left. split.
      * exists i. split; [done|]. intros j h Hj. apply Hmin. by apply lookup_app_l_Some.
      * intros Hk. destruct (Hmin (length ns) f) as [H|[H _]]; [by rewrite list_lookup_middle|done|lia|lia].
    + right. split; [done|]. intros h [j Hj]%list_elem_of_lookup Hk.
      destruct (Hmin j h) as [H|[_ H]]; [by apply lookup_app_l_Some|done|done|].
      apply lookup_lt_Some in Hj. lia.
  - intros [[(i & Hi & Hmin) Hf]|[-> Hf]].
    + exists i. split; [by apply lookup_app_l_Some|].
      intros j h [Hj|[-> ->]]%lookup_snoc_inv Hk; [eauto|].
      apply lookup_lt_Some in Hi. specialize (Hf Hk). lia.
    + exists (length ns). split; [by rewrite list_lookup_middle|].
      intros j h [Hj|[-> ->]]%lookup_snoc_inv Hk; [|lia].
      left. apply Hf; [by eapply list_elem_of_lookup_2|done].
Qed.

(** Each finding has a chosen one of its key, at least as severe. *)
Lemma chosen_exists ns h :
  h ∈ ns -> exists g, chosen ns g /\ key_of g = key_of h /\ rank g <= rank h.
Proof.
  revert h. induction ns as [|f ns IH] using rev_ind; intros h Hh; [by apply not_elem_of_nil in Hh|].
  assert (Hc : (exists h', h' ∈ ns /\ key_of h' = key_of h /\ rank h' <= rank h)
               \/ (h = f /\ forall h', h' ∈ ns -> key_of h' = key_of h -> rank h < rank h')).
  { apply elem_of_app in Hh as [Hh|Hh%list_elem_of_singleton]; [left; eauto with lia|]. subst f.
    destruct (decide (Exists (fun h' => key_of h' = key_of h /\ rank h' <= rank h) ns)) as [H|H].
    - left. apply Exists_exists in H as (x & ? & ? & ?). eauto.
    - right. split; [done|]. intros h' H1 H2. apply not_Exists_Forall in H; [|solve_decision].
      apply Forall_forall with (x := h') in H; [|done]. destruct (Z.lt_ge_cases (rank h) (rank h')); [done|]. by destruct H. }
  destruct Hc as [(h' & Hin & Hk & Hr)|[-> Hmin]].
  - destruct (IH h' Hin) as (g & Hg & Hgk & Hgr).
    destruct (decide (key_of f = key_of g /\ rank f < rank g)) as [[H1 H2]|H].
    + exists f. rewrite chosen_snoc. split_and!; [|congruence|lia]. right. split; [done|].
      intros x Hx Hxk. destruct Hg as (i & Hi & Hgm). apply list_elem_of_lookup in Hx as [j Hj].
      destruct (Hgm j x Hj) as [?|[? _]]; [congruence|lia|lia].
    + exists g. rewrite chosen_snoc. split_and!; [|congruence|lia]. left. split; [done|].
      intros E. destruct (Z.lt_ge_cases (rank f) (rank g)); [tauto|lia].
  - exists f. rewrite chosen_snoc. split_and!; [by right|done|lia].
Qed.

Lemma keep_worst_keys f kept :
  map key_of (keep_worst f kept)
  = if bool_decide (key_of f ∈ map key_of kept) then map key_of kept else map key_of kept ++ [key_of f].
Proof.
  induction kept as [|p kept IH]; [done|]. cbn [keep_worst map].
  destruct (decide (key_of p = key_of f)) as [E|E].
  - rewrite bool_decide_eq_true_2 by done. cbn [map].
    rewrite bool_decide_eq_true_2 by (rewrite E; constructor).
    destruct (rank f <? rank p); by rewrite ?E.
  - rewrite bool_decide_eq_false_2 by done. cbn [map]. rewrite IH.
    destruct (decide (key_of f ∈ map key_of kept)) as [H|H].
    + rewrite !bool_decide_eq_true_2; [done|by right|done].
    + rewrite !bool_decide_eq_false_2; [done| |done].
      intros [?|?]%elem_of_cons; congruence.
Qed.

Lemma keep_worst_elem f kept g :
  NoDup (map key_of kept) ->
  g ∈ keep_worst f kept <->
  (g ∈ kept /\ (key_of f = key_of g -> rank g <= rank f))
  \/ (g = f /\ forall p, p ∈ kept -> key_of p = key_of f -> rank f < rank p).
Proof.
  induction kept as [|p kept IH]; cbn [keep_worst map]; intros Hnd.
  { rewrite list_elem_of_singleton. setoid_rewrite elem_of_nil. naive_solver. }
  apply NoDup_cons in Hnd as [Hp Hnd]. specialize (IH Hnd).
  assert (Hout : forall x, x ∈ kept -> key_of x <> key_of p).
  { intros x Hx E. apply Hp. rewrite <- E. by apply list_elem_of_fmap_2. }
  destruct (decide (key_of p = key_of f)) as [E|E].
  - rewrite bool_decide_eq_true_2 by done. setoid_rewrite elem_of_cons.
    destruct (Z.ltb_spec (rank f) (rank p)) as [Hlt|Hge]; split.
    + intros [->|Hg]; [right|left].
      * split; [done|]. intros x [->|Hx] Hk; [done|]. destruct (Hout x Hx). congruence.
      * split; [by right|]. intros Hk. destruct (Hout g Hg). congruence.
    + intros [[[->|Hg] Hr]|[-> _]]; [|by right|by left]. specialize (Hr (eq_sym E)). lia.
    + intros [->|Hg]; left; (split; [by constructor|]); [lia|].
      intros Hk. destruct (Hout g Hg). congruence.
    + intros [[[->|Hg] Hr]|[-> Hm]]; [by left|by right|].
      specialize (Hm p (or_introl eq_refl) E). lia.
  - rewrite bool_decide_eq_false_2 by done. setoid_rewrite elem_of_cons. rewrite IH. split.
    + intros [->|[[Hg Hr]|[-> Hm]]]; [left; split; [by left|congruence]|left; split; [by right|done]|].
      right. split; [done|]. intros x [->|Hx] Hk; [done|auto].
    + intros [[[->|Hg] Hr]|[-> Hm]]; [by left|right; left; by split|].
      right. right. split; [done|]. auto.
Qed.

Lemma deduped_spec fs :
  NoDup (map key_of (deduped fs)) /\
  forall g, g ∈ deduped fs <-> chosen (map normalize_finding fs) g.
Proof.
  induction fs as [|f fs [IHn IHs]] using rev_ind.
  { split; [constructor|]. intros g. split; [by intros ?%not_elem_of_nil|]. by intros (i & Hi & _). }
  assert (Hd : deduped (fs ++ [f]) = keep_worst (normalize_finding f) (deduped fs)).
  { unfold deduped. by rewrite fold_left_app. }
  rewrite Hd, map_app. cbn [map]. split.
  - rewrite keep_worst_keys. case_bool_decide as H; [done|].
    apply NoDup_app. split; [done|]. split; [|by apply NoDup_singleton].
    intros x Hx ->%list_elem_of_singleton. done.
  - intros g. rewrite keep_worst_elem, chosen_snoc, IHs by done.
    split; (intros [H|[-> H]]; [by left|right; split; [done|]]).
    + intros h Hh Hk. destruct (chosen_exists _ h Hh) as (x & Hx & Hxk & Hxr).
      specialize (H x). rewrite IHs in H. specialize (H Hx). rewrite Hxk in H. specialize (H Hk). lia.
    + intros p Hp Hk. apply H; [|done]. apply IHs in Hp as (i & Hi & _). by eapply list_elem_of_lookup_2.
Qed.

Lemma report_leb_total f g : report_leb f g = true \/ report_leb g f = true.
Proof.
  apply (lex_total Z.eqb Z.leb (fun f g => lex str_eqb str_leb (rf_title f) (rf_title g)
           (lex str_eqb str_leb (rf_host f) (rf_host g) (rf_port f <=? rf_port g))) rank);
    [apply Z.eqb_eq|intros x y; lia|]; clear f g; intros f g.
  apply (lex_total str_eqb str_leb (fun f g => lex str_eqb str_leb (rf_host f) (rf_host g)
           (rf_port f <=? rf_port g)) rf_title); [apply str_eqb_eq|apply str_leb_total|]; clear f g; intros f g.
  apply (lex_total str_eqb str_leb (fun f g => rf_port f <=? rf_port g) rf_host);
    [apply str_eqb_eq|apply str_leb_total|]. intros x y. lia.
Qed.

Lemma report_leb_trans f g h : report_leb f g = true -> report_leb g h = true -> report_leb f h = true.
Proof.
  apply (lex_trans Z.eqb Z.leb (fun f g => lex str_eqb str_leb (rf_title f) (rf_title g)
           (lex str_eqb str_leb (rf_host f) (rf_host g) (rf_port f <=? rf_port g))) rank);
    [apply Z.eqb_eq|intros x y z; lia|intros x y; lia|]; clear f g h; intros f g h.
  apply (lex_trans str_eqb str_leb (fun f g => lex str_eqb str_leb (rf_host f) (rf_host g)
           (rf_port f <=? rf_port g)) rf_title);
    [apply str_eqb_eq|apply str_leb_trans|apply str_leb_antisym|]; clear f g h; intros f g h.
  apply (lex_trans str_eqb str_leb (fun f g => rf_port f <=? rf_port g) rf_host);
    [apply str_eqb_eq|apply str_leb_trans|apply str_leb_antisym|]. intros x y z. lia.
Qed.

Lemma elem_of_dedupe fs g : g ∈ dedupe_findings fs <-> chosen (map normalize_finding fs) g.
Proof. unfold dedupe_findings. rewrite (py_sorted_perm _ _). apply deduped_spec. Qed.

Lemma dedupe_findings_props fs :
  (forall g, g ∈ dedupe_findings fs -> g ∈ map normalize_finding fs) /\
  (forall h, h ∈ map normalize_finding fs ->
     exists g, g ∈ dedupe_findings fs /\ key_of g = key_of h /\ rank g <= rank h).
Proof.
  split.
  - intros g (i & Hi & _)%elem_of_dedupe. by eapply list_elem_of_lookup_2.
  - intros h (g & Hg & Hk & Hr)%chosen_exists. exists g. by rewrite elem_of_dedupe.
Qed.

(** * What post-processing keeps *)

Lemma normalize_address f :
  rf_host (normalize_finding f) = rf_host f /\ rf_port (normalize_finding f) = rf_port f
  /\ rf_extras (normalize_finding f) = rf_extras f.
Proof. unfold normalize_finding. cbv zeta. by split_ifs. Qed.

Lemma postprocess_address ports eps f :
  rf_host (postprocess ports eps f) = rf_host f /\ rf_port (postprocess ports eps f) = rf_port f
  /\ rf_extras (postprocess ports eps f) = rf_extras f.
Proof. unfold postprocess. cbv zeta. by split_ifs. Qed.

(** The finding the report holds for one that was built. *)
Definition reported (ports : list Z) (eps : list endpoint_row) (em : emission) : report_finding :=
  normalize_finding (postprocess ports eps (made em)).

Lemma reported_address ports eps em :
  rf_host (reported ports eps em) = em.1.1.1 /\ rf_port (reported ports eps em) = em.1.1.2
  /\ rf_extras (reported ports eps em) = em.1.2.
Proof.
  unfold reported. destruct (normalize_address (postprocess ports eps (made em))) as (-> & -> & ->).
  destruct (postprocess_address ports eps (made em)) as (-> & -> & ->).
  by destruct em as [[[h p] ex] d].
Qed.

(** Post-processing assigns one of five severities or leaves the severity. *)
Lemma reported_severity ports eps em :
  rf_severity (reported ports eps em) ∈ ["HIGH"; "MEDIUM"; "LOW"; "INFO"]
  \/ rf_severity (reported ports eps em) = dr_severity em.2.
Proof.
  assert (Hn : forall f, rf_severity (normalize_finding f) ∈ ["HIGH"; "MEDIUM"; "LOW"; "INFO"]
                         \/ rf_severity (normalize_finding f) = rf_severity f).
  { intros f. unfold normalize_finding. cbv zeta.
    repeat match goal with |- context [if ?b then _ else _] => destruct b end;
      try (by right); left; cbn; set_solver. }
  unfold reported. destruct (Hn (postprocess ports eps (made em))) as [H| ->]; [by left|].
  unfold postprocess. cbv zeta. destruct em as [[[h p] ex] d].
  repeat match goal with
  | |- context [if ?b then _ else _] => destruct b
  | |- context [match ?o with Some _ => _ | None => _ end] => destruct o
  end; try (by right); left; cbn; set_solver.
Qed.

Lemma rank_range f : 0 <= rank f <= 4.
Proof.
  unfold rank, SEVERITY_RANK. cbn [alookup].
  repeat match goal with |- context [if ?b then _ else _] => destruct b end; cbn; lia.
Qed.

Lemma rank_zero f : rf_severity f ∈ SEVERITIES -> rank f <= 0 <-> rf_severity f = "CRITICAL".
Proof.
  unfold rank, SEVERITIES. intros H. repeat (apply elem_of_cons in H as [H|H];
    [rewrite H; vm_compute; split; [first [done|intros []; done]|first [done|intros ?; discriminate]]|]).
  by apply not_elem_of_nil in H.
Qed.

(** * Well-formed findings *)

Lemma lstrip_head p s c r : lstrip_by p s = String c r -> p c = false.
Proof. induction s as [|d s IH]; simpl; [done|]. destruct (p d) eqn:E; [auto|]. by intros [= <- _]. Qed.

Lemma strip_inked s : is_blank s = false -> starts_inked (strip s) = true.
Proof.
  unfold is_blank, strip. intros H%str_eqb_neq.
  destruct (lstrip_by is_space s) as [|c r] eqn:E; [done|]. apply lstrip_head in E. simpl.
  rewrite E. by destruct (rstrip_by is_space r); simpl; rewrite E.
Qed.

Lemma starts_inked_app s t : starts_inked s = true -> starts_inked (s +:+ t) = true.
Proof. by destruct s. Qed.

Definition has_ink (o : option string) : bool :=
  match o with Some s => starts_inked s | None => true end.

Lemma catalog_inked c : has_ink (alookup c REMEDIATION_CATALOG) = true.
Proof.
  destruct (alookup c REMEDIATION_CATALOG) as [s|] eqn:E; [|done]. apply alookup_elem in E.
  assert (H : forallb (fun kv : string * string => starts_inked kv.2) REMEDIATION_CATALOG = true)
    by (vm_compute; reflexivity).
  rewrite forallb_forall in H. apply (H (c, s)). by apply list_elem_of_In.
Qed.

Lemma impact_inked c label impact s : alookup c ALGO_IMPACT_MAP = Some (label, impact, s) -> starts_inked s = true.
Proof.
  intros E%alookup_elem.
  assert (H : forallb (fun kv : string * (string * string * string) => starts_inked kv.2.2) ALGO_IMPACT_MAP = true)
    by (vm_compute; reflexivity).
  rewrite forallb_forall in H. apply (H (c, (label, impact, s))). by apply list_elem_of_In.
Qed.

(** [well_formed eps f]: a severity of the scale, no blank text, and the
    address of a row of [eps]. *)
Record well_formed (eps : list endpoint_row) (f : report_finding) : Prop := {
  wf_severity : rf_severity f ∈ SEVERITIES;
  wf_description : is_blank (rf_description f) = false;
  wf_recommendation : is_blank (rf_recommendation f) = false;
  wf_quantum_risk : is_blank (rf_quantum_risk f) = false;
  wf_address : exists e, e ∈ eps /\ ep_host (er_ep e) = rf_host f /\ ep_port (er_ep e) = rf_port f
}.

(** [graded eps em]: an emission of a row of [eps] with a severity of the scale. *)
Definition graded (eps : list endpoint_row) (em : emission) : Prop :=
  dr_severity em.2 ∈ SEVERITIES
  /\ exists e, e ∈ eps /\ ep_host (er_ep e) = em.1.1.1 /\ ep_port (er_ep e) = em.1.1.2.

Lemma build_well_formed eps em f : graded eps em -> build em = Ok f -> well_formed eps f.
Proof.
  destruct em as [[[h p] ex] d]. intros [Hs Ha]. unfold build, build_finding.
  destruct (is_blank (dr_description d)) eqn:Hd; [done|].
  destruct (is_blank (dr_recommendation d)) eqn:Hr; [done|]. intros [= <-].
  split; cbn [make_finding rf_severity rf_description rf_recommendation rf_quantum_risk rf_host rf_port];
    [done|by apply starts_inked_not_blank, strip_inked|apply starts_inked_not_blank..|done].
  - unfold recommendation_of. pose proof (strip_inked _ Hr) as Hi. destruct (crypto_class d) as [c|]; unfold mbind, option_bind.
    + pose proof (catalog_inked c) as Hc. destruct (alookup c REMEDIATION_CATALOG); [done|].
      destruct (dr_quantum_vulnerable d); [by apply starts_inked_app|done].
    + destruct (dr_quantum_vulnerable d); [by apply starts_inked_app|done].
  - unfold quantum_risk_of. destruct (crypto_class d) as [c|]; unfold mbind, option_bind; [|reflexivity].
    destruct (alookup c ALGO_IMPACT_MAP) as [[[l i] s]|] eqn:E; [by eapply impact_inked|reflexivity].
Qed.

Lemma retitled_well_formed eps f severity title rec :
  severity ∈ SEVERITIES -> is_blank rec = false -> well_formed eps f ->
  well_formed eps (retitled severity title rec f).
Proof. intros Hs Hr [H1 H2 H3 H4 H5]. by split. Qed.

Lemma postprocess_well_formed ports rows eps f : well_formed eps f -> well_formed eps (postprocess ports rows f).
Proof.
  intros H. unfold postprocess. cbv zeta.
  repeat match goal with
  | |- context [if ?b then _ else _] => destruct b
  | |- context [match ?o with Some _ => _ | None => _ end] => destruct o
  end; try done; (apply retitled_well_formed; [unfold SEVERITIES; set_solver|vm_compute; reflexivity|exact H]).
Qed.

Lemma normalize_well_formed eps f : well_formed eps f -> well_formed eps (normalize_finding f).
Proof.
  intros H. unfold normalize_finding. cbv zeta.
  repeat match goal with |- context [if ?b then _ else _] => destruct b end; try done;
    (apply retitled_well_formed; [unfold SEVERITIES; set_solver|apply H|exact H]).
Qed.

Lemma build_all_well_formed eps l fs :
  Forall (graded eps) l -> ptraverse build l = Ok fs -> Forall (well_formed eps) fs.
Proof.
  intros Hl H%ptraverse_ok. induction H as [|em f l fs Hb H IH]; [constructor|].
  apply Forall_cons in Hl as [H1 H2]. constructor; [by eapply build_well_formed|auto].
Qed.

(** ** Every evaluator emits graded findings *)

Section Graded.
Context (loads : string -> option pyval) (eps : list endpoint_row).

Lemma endpoint_emissions_graded now : Forall (graded eps) (all_emissions loads now eps).
Proof.
  apply Forall_forall. intros em (i & e & Hi & Hem)%elem_of_all_emissions.
  unfold row_emissions in Hem. apply list_elem_of_fmap in Hem as ([ex d] & -> & Hd).
  split; [|exists e; split; [by eapply list_elem_of_lookup_2|done]]. cbn [snd].
  destruct (blank_extra e) eqn:Hb; [|by apply (row_drafts_sound loads (now i) e (ex, d))].
  destruct (row_drafts_blank loads (now i) e Hb) as (d' & Hd' & _). revert Hd. rewrite Hd'.
  intros [= -> ->]%list_elem_of_singleton. revert Hd' Hb. unfold row_drafts, blank_extra. cbv zeta.
  destruct (proto_is "ADVISORY" (er_ep e) && column_is (er_text e "scan_error_category") "missing_extra"); [|done].
  intros [= <-] _. cbn. unfold SEVERITIES. set_solver.
Qed.

Lemma plain_graded f rows :
  (forall e, e ∈ rows -> e ∈ eps) -> (forall e d, d ∈ f e -> dr_severity d ∈ SEVERITIES) ->
  Forall (graded eps) (concat (map (fun e => map (plain e) (f e)) rows)).
Proof.
  intros Hsub Hf. apply Forall_forall. intros em Hem.
  apply list_elem_of_In, in_concat in Hem as (l & (e & <- & He)%in_map_iff & Hem).
  apply in_map_iff in Hem as (d & <- & Hd). split.
  - apply (Hf e). by apply list_elem_of_In.
  - exists e. split; [by apply Hsub, list_elem_of_In|done].
Qed.

Lemma email_graded e d : d ∈ email_drafts e -> dr_severity d ∈ SEVERITIES.
Proof. unfold email_drafts, SEVERITIES. cbv zeta. intros H. each_draft; cbn; set_solver. Qed.

Lemma broker_graded e d : d ∈ broker_drafts e -> dr_severity d ∈ SEVERITIES.
Proof. unfold broker_drafts, SEVERITIES. cbv zeta. intros H. each_draft; cbn; set_solver. Qed.

Lemma bearer_graded e d : d ∈ bearer_drafts e -> dr_severity d ∈ SEVERITIES.
Proof. unfold bearer_drafts, SEVERITIES. intros H. each_draft; cbn; set_solver. Qed.

Lemma codesign_graded now e ds d :
  codesign_drafts loads now e = Ok ds -> d ∈ ds -> dr_severity d ∈ SEVERITIES.
Proof.
  unfold codesign_drafts, SEVERITIES. cbv zeta. intros (b & _ & H)%pbind_ok.
  destruct b; [injection H as <-; intros H; each_draft; cbn; set_solver|].
  apply pbind_ok in H as (b & _ & H).
  destruct b; [injection H as <-; intros H; each_draft; cbn; set_solver|].
  destruct (truthy _); [|injection H as <-; intros H; each_draft].
  apply pbind_ok in H as (c & _ & H). apply pbind_ok in H as (ts & _ & H).
  injection H as <-. intros H. each_draft; cbn; set_solver.
Qed.

Lemma oidc_severity alg sev : alookup alg OIDC_ALG_SEVERITY = Some (Some sev) -> sev ∈ SEVERITIES.
Proof.
  intros H%alookup_elem. unfold OIDC_ALG_SEVERITY in H.
  repeat (apply elem_of_cons in H as [H|H]; [try (injection H as _ ->; unfold SEVERITIES; set_solver); discriminate|]).
  by apply not_elem_of_nil in H.
Qed.

Lemma identity_graded seen ep x :
  x ∈ (identity_step seen ep).2 -> dr_severity x.2 ∈ SEVERITIES.
Proof.
  unfold identity_step. cbv zeta.
  destruct (negb (str_eqb (proto_of ep) "SAML")); [cbn [snd]; intros H; each_draft|].
  destruct (alookup (upper (str_or_empty (ep_cert_pubkey_alg ep))) OIDC_ALG_SEVERITY) as [[sev|]|] eqn:E; cbn [snd].
  - intros ->%list_elem_of_singleton. by eapply oidc_severity.
  - unfold SEVERITIES. repeat case_match; cbn [snd]; intros H'; each_draft; cbn; set_solver.
  - unfold SEVERITIES. repeat case_match; cbn [snd]; intros H'; each_draft; cbn; set_solver.
Qed.

Lemma identity_emissions_graded seen rows :
  (forall ep, ep ∈ rows -> exists e, e ∈ eps /\ er_ep e = ep) ->
  Forall (graded eps) (identity_emissions seen rows).
Proof.
  revert seen. induction rows as [|ep rows IH]; intros seen Hsub; simpl; [constructor|].
  destruct (identity_step seen ep) as [seen' out] eqn:E. apply Forall_app. split.
  - apply Forall_forall. intros em (x & -> & Hx)%list_elem_of_fmap. split.
    + apply (identity_graded seen ep). by rewrite E.
    + destruct (Hsub ep) as (e & He & <-); [by left|]. by exists e.
  - apply IH. intros x Hx. apply Hsub. by right.
Qed.

Lemma codesign_rows_well_formed rows ls :
  (forall x, x ∈ rows -> x.2 ∈ eps) ->
  ptraverse (codesign_row loads) rows = Ok ls -> Forall (well_formed eps) (concat ls).
Proof.
  intros Hsub H%ptraverse_ok. induction H as [|x l rows ls Hx H IH]; simpl; [constructor|].
  apply Forall_app. split; [|apply IH; intros y Hy; apply Hsub; by right].
  unfold codesign_row in Hx. apply pbind_ok in Hx as (ds & Hds & Hx).
  eapply build_all_well_formed; [|exact Hx]. apply Forall_forall.
  intros em (d & -> & Hd)%list_elem_of_fmap. split; [by eapply codesign_graded|].
  exists x.2. split; [apply Hsub; by left|done].
Qed.

Lemma filter_sub {A} (p : A -> bool) l x : x ∈ List.filter p l -> x ∈ l.
Proof. rewrite !list_elem_of_In. by intros [H _]%filter_In. Qed.

Lemma protocol_service_well_formed now fs :
  evaluate_protocol_service_endpoints loads now eps = Ok fs -> Forall (well_formed eps) fs.
Proof.
  unfold evaluate_protocol_service_endpoints. intros (m1 & H1 & H)%pbind_ok.
  apply pbind_ok in H as (m2 & H2 & H). apply pbind_ok in H as (m3 & H3 & H).
  apply pbind_ok in H as (m4 & H4 & [= <-]). rewrite !Forall_app. split_and!.
  - eapply build_all_well_formed; [|exact H1]. apply plain_graded; [intros e; apply filter_sub|apply email_graded].
  - eapply build_all_well_formed; [|exact H2]. apply plain_graded; [done|apply broker_graded].
  - unfold evaluate_codesign_endpoints in H3. apply pbind_ok in H3 as (ls & H3 & [= <-]).
    eapply codesign_rows_well_formed; [|exact H3].
    intros x (i & e & -> & Hi)%elem_of_lookup_imap. by eapply filter_sub, list_elem_of_lookup_2.
  - eapply build_all_well_formed; [|exact H4]. apply plain_graded; [intros e; apply filter_sub|apply bearer_graded].
Qed.

Lemma endpoints_well_formed now ports fs :
  evaluate_endpoints loads now ports eps = Ok fs -> Forall (well_formed eps) fs.
Proof.
  unfold evaluate_endpoints. intros (l & Hl & [= <-])%pbind_ok.
  pose proof (build_all_well_formed eps _ _ (endpoint_emissions_graded now) Hl) as Hwf.
  unfold postprocess_findings. apply Forall_forall. intros g Hg. apply dedupe_findings_props in Hg.
  apply list_elem_of_fmap in Hg as (f & -> & Hf). apply list_elem_of_fmap in Hf as (f' & -> & Hf).
  apply normalize_well_formed, postprocess_well_formed. by eapply Forall_forall.
Qed.

Lemma identity_well_formed fs :
  evaluate_identity_endpoints eps = Ok fs -> Forall (well_formed eps) fs.
Proof.
  intros H. eapply build_all_well_formed; [|exact H]. apply identity_emissions_graded.
  intros ep (e & -> & He)%list_elem_of_fmap. eauto.
Qed.
End Graded.
