(* ===== verification/FindingsProps.v ===== *)
(** Properties of the findings evaluator: when it raises, what its report holds
    and in which order, which rows are CRITICAL, and what a CRITICAL row does to
    the readiness score. *)
From Stdlib Require Import ZArith QArith Lia Ascii.
From stdpp Require Import base tactics sets gmap strings list pretty.
From S2P Require Import Prelude PyFloat PyVal Bands WeakCrypto Scoring ScoringTheory ScoringProps Model Evidence FindingText Catalog Compliance Findings FindingsTheory.

Local Open Scope Z_scope.
Local Open Scope quirk_scope.

(** * Errors *)

(** C27: [evaluate_endpoints] raises exactly when some missing-extra advisory
    row carries a non-empty message of white space only; every other estate, in
    any state of its columns, yields a report. *)
Theorem evaluate_endpoints_raises_iff loads now ports eps :
  evaluate_endpoints loads now ports eps
  = if existsb blank_extra eps
    then Raise (ValueError "_build_finding requires a non-empty recommendation")
    else Ok (postprocess_findings ports eps (map made (all_emissions loads now eps))).
Proof.
  unfold evaluate_endpoints. rewrite all_build. by destruct (existsb blank_extra eps).
Qed.

(** The report of a run that returns. *)
Lemma evaluate_endpoints_ok loads now ports eps fs :
  evaluate_endpoints loads now ports eps = Ok fs ->
  fs = dedupe_findings (map (postprocess ports eps) (map made (all_emissions loads now eps)))
  /\ forall e, e ∈ eps -> blank_extra e = false.
Proof.
  unfold evaluate_endpoints. rewrite all_build.
  destruct (existsb blank_extra eps) eqn:E; [done|]. intros [= <-]. split; [done|].
  intros e He. destruct (blank_extra e) eqn:Hb; [|done]. rewrite <- E. symmetry.
  apply existsb_exists. exists e. split; [by apply list_elem_of_In|done].
Qed.

Lemma reported_list loads now ports eps :
  map normalize_finding (map (postprocess ports eps) (map made (all_emissions loads now eps)))
  = map (reported ports eps) (all_emissions loads now eps).
Proof. by rewrite !map_map. Qed.

(** * Deduplication *)

(** C26: [_dedupe_findings] implements its contract: one finding per host, port,
    title and recommendation; the one kept is the first of the most severe ones
    of its key, no key is lost and none appears; the result is sorted by
    severity rank, title, host and port. *)
Theorem dedupe_findings_spec fs :
  let ns := map normalize_finding fs in
  let out := dedupe_findings fs in
  NoDup (map key_of out) /\ sorted_by report_leb out /\
  (forall g, g ∈ out <->
     exists i, ns !! i = Some g /\
       forall j h, ns !! j = Some h -> key_of h = key_of g ->
         rank g < rank h \/ (rank g = rank h /\ (i <= j)%nat)) /\
  (forall h, h ∈ ns -> exists g, g ∈ out /\ key_of g = key_of h /\ rank g <= rank h).
Proof.
  cbv zeta. split_and!.
  - unfold dedupe_findings. rewrite (py_sorted_perm _ _). apply deduped_spec.
  - apply py_sorted_sorted; [apply report_leb_total|apply report_leb_trans].
  - intros g. apply elem_of_dedupe.
  - apply dedupe_findings_props.
Qed.

(** * Completeness *)

Lemma elem_of_reported loads now ports eps h :
  h ∈ map (reported ports eps) (all_emissions loads now eps) <->
  exists i e extras d, eps !! i = Some e /\ (extras, d) ∈ row_drafts loads (now i) e
    /\ h = reported ports eps (ep_host (er_ep e), ep_port (er_ep e), extras, d).
Proof.
  rewrite list_elem_of_fmap. setoid_rewrite elem_of_all_emissions. unfold row_emissions.
  setoid_rewrite list_elem_of_fmap. split.
  - intros (em & -> & i & e & He & [extras d] & -> & Hx). eauto 8.
  - intros (i & e & extras & d & He & Hx & ->). eexists. split; [done|].
    exists i, e. split; [done|]. by exists (extras, d).
Qed.

(** The report of [evaluate_endpoints] loses and invents nothing: each
    finding drafted for a row is there under its host, port, title and
    recommendation, at least as severe, and each finding of the report is one
    drafted for a row, re-titled and re-graded. *)
Theorem evaluate_endpoints_complete loads now ports eps fs :
  evaluate_endpoints loads now ports eps = Ok fs ->
  (forall i e extras d, eps !! i = Some e -> (extras, d) ∈ row_drafts loads (now i) e ->
     let f := reported ports eps (ep_host (er_ep e), ep_port (er_ep e), extras, d) in
     exists g, g ∈ fs /\ key_of g = key_of f /\ rank g <= rank f) /\
  (forall g, g ∈ fs -> exists i e extras d, eps !! i = Some e /\
     (extras, d) ∈ row_drafts loads (now i) e /\
     g = reported ports eps (ep_host (er_ep e), ep_port (er_ep e), extras, d)).
Proof.
  intros [-> _]%evaluate_endpoints_ok.
  destruct (dedupe_findings_props (map (postprocess ports eps) (map made (all_emissions loads now eps))))
    as [Hsub Hrep]. rewrite reported_list in Hsub, Hrep. split.
  - intros i e extras d Hi Hd f. apply Hrep, elem_of_reported. eauto 8.
  - intros g Hg. apply elem_of_reported, Hsub, Hg.
Qed.

(** * CRITICAL findings *)

Definition expired_certificate (now : Z) (ep : CryptoEndpoint) : bool :=
  match ep_cert_not_after ep with Some d => as_utc_naive d <? now | None => false end.

Definition end_of_life_openssl (ep : CryptoEndpoint) : bool :=
  let version := strip (str_or_empty (ep_tls_version ep)) in
  str_in (lower (strip (str_or_empty (ep_cipher_suite ep)))) OPENSSL_NAMES
  && (startswith version "0." || startswith version "1.0.").

(** A row that answered with an expired TLS certificate or an OpenSSL 0.x or
    1.0.x package. *)
Definition critical_row (now : Z) (ep : CryptoEndpoint) : bool :=
  negb (truthy_str (ep_scan_error ep))
  && ((proto_is "TLS" ep && expired_certificate now ep)
      || (proto_is "CONTAINER" ep && end_of_life_openssl ep)).

Lemma proto_is_other p q ep : proto_is p ep = true -> p <> q -> proto_is q ep = false.
Proof.
  unfold proto_is. destruct (ep_protocol ep) as [x|]; [|done].
  intros ->%str_eqb_eq Hne. by apply str_eqb_neq.
Qed.

Lemma container_critical name v :
  dr_severity (evaluate_container_package name v) = "CRITICAL" <->
  str_in (lower name) OPENSSL_NAMES && (startswith v "0." || startswith v "1.0.") = true.
Proof.
  unfold evaluate_container_package. cbv zeta. destruct (str_in (lower name) OPENSSL_NAMES); cbn [andb].
  - unfold openssl_eol, OPENSSL_EOL. cbn [List.find].
    destruct (startswith v "0."); [done|]. cbn [orb]. destruct (startswith v "1.0."); [done|].
    repeat match goal with |- context [if ?b then _ else _] => destruct b end; split; discriminate.
  - repeat match goal with |- context [if ?b then _ else _] => destruct b end; split; discriminate.
Qed.

(** A CRITICAL draft comes from a critical row and carries no category. *)
Lemma critical_draft_row loads now e extras d :
  (extras, d) ∈ row_drafts loads now e -> dr_severity d = "CRITICAL" ->
  critical_row now (er_ep e) = true /\ extras = [].
Proof.
  unfold row_drafts. cbv zeta. intros H Hc.
  repeat match type of H with
  | _ ∈ (if ?b then _ else _) => destruct b eqn:?
  end; try (apply list_elem_of_singleton in H as [= -> ->]; discriminate Hc).
  { apply list_elem_of_singleton in H as [= -> ->]. revert Hc. unfold error_draft. cbv zeta.
    repeat match goal with |- context [if ?b then _ else _] => destruct b end; discriminate. }
  apply list_elem_of_fmap in H as (d' & [= -> ->] & H). split; [|done].
  unfold critical_row. rewrite (proj2 (negb_true_iff _)) by done. cbn [andb].
  revert H. unfold answered_drafts, tls_drafts, issuer_drafts, key_drafts, expiry_drafts. cbv zeta.
  unfold runs_tls_certificate_checks, expired_certificate. intros H.
  apply orb_true_iff. each_draft; try discriminate Hc; [left|right];
    repeat match goal with H : ?x = true |- context [?x] => rewrite H | H : ?x = Some _ |- context [?x] => rewrite H end;
    [done|]. by apply container_critical.
Qed.

(** A finding post-processing leaves as it was built. *)
Definition untouched_title (title : string) : bool :=
  negb (str_in (strip title)
    ["Plaintext HTTP service detected"; "HTTP on TLS-designated port"; "Unknown open service";
     "TLS handshake blocked assessment"; "Legacy TLS versions allowed (TLS 1.0/1.1)";
     "SSH quantum planning advisory"; "mTLS required"; "Informational protocol observation"]).

Lemma reported_untouched ports eps em :
  untouched_title (dr_title em.2) = true -> reported ports eps em = made em.
Proof.
  unfold untouched_title. intros H%negb_true_iff%bool_decide_eq_false.
  rewrite !not_elem_of_cons in H. destruct H as (H1 & H2 & H3 & H4 & H5 & H6 & H7 & H8 & _).
  destruct em as [[[h p] ex] d]. cbn [snd] in *.
  assert (Hp : postprocess ports eps (made (h, p, ex, d)) = made (h, p, ex, d)).
  { unfold postprocess. cbn [made make_finding rf_title]. by rewrite (proj2 (str_eqb_neq _ _) H1). }
  unfold reported. rewrite Hp. unfold normalize_finding. cbn [made make_finding rf_title].
  unfold str_in, str_eqb. rewrite !bool_decide_eq_false_2; [done|..];
    rewrite ?not_elem_of_cons; auto using not_elem_of_nil.
Qed.

(** The CRITICAL draft of a critical row. *)
Lemma critical_row_draft loads now e :
  critical_row now (er_ep e) = true ->
  exists d, ([], d) ∈ row_drafts loads now e /\ dr_severity d = "CRITICAL"
    /\ untouched_title (dr_title d) = true.
Proof.
  unfold critical_row. intros [Herr Hc]%andb_true_iff. apply negb_true_iff in Herr.
  assert (Hrow : proto_is "ADVISORY" (er_ep e) = false ->
                 row_drafts loads now e = map (fun d => ([], d)) (answered_drafts loads now e)).
  { intros Ha. unfold row_drafts. by rewrite Ha, Herr. }
  apply orb_true_iff in Hc as [[Hp Hc]%andb_true_iff|[Hp Hc]%andb_true_iff];
    rewrite Hrow by (eapply proto_is_other; [exact Hp|discriminate]).
  - unfold expired_certificate in Hc. destruct (ep_cert_not_after (er_ep e)) as [t|] eqn:Ht; [|done].
    exists (cert_expired (date_text (as_utc_naive t))). split_and!; [|done|vm_compute; reflexivity].
    apply list_elem_of_fmap. eexists. split; [done|].
    unfold answered_drafts, runs_tls_certificate_checks, tls_drafts, expiry_drafts. cbv zeta.
    rewrite Hp, Ht, Hc. rewrite !elem_of_app. right. left. right. right. left. by constructor.
  - eexists. split_and!; [apply list_elem_of_fmap; eexists; split; [done|]| |].
    + unfold answered_drafts, runs_tls_certificate_checks. cbv zeta. rewrite Hp.
      rewrite !elem_of_app. do 3 right. left. by constructor.
    + by apply container_critical.
    + unfold end_of_life_openssl in Hc. apply andb_true_iff in Hc as [Hn Hv].
      unfold evaluate_container_package. rewrite Hn. unfold openssl_eol, OPENSSL_EOL. cbn [List.find].
      destruct (startswith _ "0."); [vm_compute; reflexivity|]. cbn [orb] in Hv. rewrite Hv.
      vm_compute; reflexivity.
Qed.

Lemma reported_in_severities loads (now : nat -> Z) ports eps i e extras d :
  (forall e, e ∈ eps -> blank_extra e = false) ->
  eps !! i = Some e -> (extras, d) ∈ row_drafts loads (now i) e ->
  rf_severity (reported ports eps (ep_host (er_ep e), ep_port (er_ep e), extras, d)) ∈ SEVERITIES.
Proof.
  intros Hb Hi Hd.
  destruct (reported_severity ports eps (ep_host (er_ep e), ep_port (er_ep e), extras, d)) as [H| ->].
  - unfold SEVERITIES. by right.
  - apply (row_drafts_sound loads (now i) e (extras, d) Hd). apply Hb. by eapply list_elem_of_lookup_2.
Qed.

(** A CRITICAL finding of the report at an address, as a draft of its row. *)
Lemma critical_reported loads (now : nat -> Z) ports eps i e extras d :
  (extras, d) ∈ row_drafts loads (now i) e ->
  rf_severity (reported ports eps (ep_host (er_ep e), ep_port (er_ep e), extras, d)) = "CRITICAL" ->
  critical_row (now i) (er_ep e) = true /\ extras = [].
Proof.
  intros Hd Hc. apply (critical_draft_row loads (now i) e extras d Hd).
  destruct (reported_severity ports eps (ep_host (er_ep e), ep_port (er_ep e), extras, d)) as [H|H].
  - rewrite Hc in H. exfalso. revert H. rewrite !elem_of_cons, elem_of_nil.
    intros [?|[?|[?|[?|?]]]]; discriminate || done.
  - by rewrite Hc in H.
Qed.

(** A critical row leaves a CRITICAL finding at its address in the report. *)
Lemma critical_row_reported loads now ports eps fs i e :
  evaluate_endpoints loads now ports eps = Ok fs ->
  eps !! i = Some e -> critical_row (now i) (er_ep e) = true ->
  exists g, g ∈ fs /\ rf_host g = ep_host (er_ep e) /\ rf_port g = ep_port (er_ep e)
    /\ rf_severity g = "CRITICAL" /\ rf_extras g = [].
Proof.
  intros [-> Hb]%evaluate_endpoints_ok Hi Hc.
  destruct (dedupe_findings_props (map (postprocess ports eps) (map made (all_emissions loads now eps))))
    as [Hsub Hrep]. rewrite reported_list in Hsub, Hrep.
  destruct (critical_row_draft loads _ _ Hc) as (d & Hd & Hs & Ht).
  set (em := (ep_host (er_ep e), ep_port (er_ep e), [] : list (string * string), d)).
  assert (Hf : reported ports eps em = made em) by by apply reported_untouched.
  destruct (Hrep (reported ports eps em)) as (g & Hg & Hk & Hr).
  { apply elem_of_reported. unfold em. eauto 8. }
  rewrite Hf in Hk, Hr. unfold key_of in Hk.
  assert (Hg' := Hg). apply Hsub, elem_of_reported in Hg' as (j & e' & extras & d' & Hj & Hd' & Hgeq).
  assert (Hcrit : rf_severity g = "CRITICAL").
  { apply rank_zero; [subst g; by eapply reported_in_severities|]. etrans; [exact Hr|].
    unfold em, rank. cbn [made make_finding rf_severity]. rewrite Hs. vm_compute. discriminate. }
  exists g. split_and!; [done|by injection Hk|by injection Hk|done|].
  subst g. destruct (critical_reported _ _ _ _ _ _ _ _ Hd' Hcrit) as [_ ->].
  apply (reported_address ports eps (ep_host (er_ep e'), ep_port (er_ep e'), [], d')).
Qed.

(** The report of [evaluate_endpoints] holds a CRITICAL finding for an
    address exactly when a row there answered with an expired TLS certificate
    or an OpenSSL 0.x or 1.0.x package; nothing else is CRITICAL, and neither
    post-processing nor deduplication hides it. *)
Theorem critical_findings_exact loads now ports eps fs host port :
  evaluate_endpoints loads now ports eps = Ok fs ->
  (exists f, f ∈ fs /\ rf_host f = host /\ rf_port f = port /\ rf_severity f = "CRITICAL") <->
  (exists i e, eps !! i = Some e /\ ep_host (er_ep e) = host /\ ep_port (er_ep e) = port
     /\ critical_row (now i) (er_ep e) = true).
Proof.
  intros Hok. split.
  - apply evaluate_endpoints_ok in Hok as [-> Hb]. intros (f & Hf & <- & <- & Hc).
    apply dedupe_findings_props in Hf. rewrite reported_list in Hf.
    apply elem_of_reported in Hf as (i & e & extras & d & Hi & Hd & ->).
    destruct (reported_address ports eps (ep_host (er_ep e), ep_port (er_ep e), extras, d)) as (-> & -> & _).
    exists i, e. split_and!; [done..|]. by destruct (critical_reported _ _ _ _ _ _ _ _ Hd Hc).
  - intros (i & e & Hi & <- & <- & Hc).
    destruct (critical_row_reported _ _ _ _ _ _ _ Hok Hi Hc) as (g & Hg & Hh & Hp & Hs & _). eauto.
Qed.

(** * From a row to the readiness score *)

(** The CRITICAL count the scorer reads from a summary. *)
Lemma scored_critical_count eps fs days ref :
  count_of (scored_severity_counts (build_evidence_summary eps fs days ref)) "CRITICAL"
  = severity_count (scored_findings (drop_coverage_gaps fs)) "CRITICAL".
Proof.
  unfold build_evidence_summary. set (st := run _ _ _). set (gs := drop_coverage_gaps fs).
  assert (E : scored_severity_counts (summarize st (Z.of_nat (length eps)) (resolve_reference_utc eps ref) (Z.max 0 days) gs)
              = severity_counts (scored_findings gs)) by reflexivity.
  rewrite E. unfold severity_counts, count_of, get_or, dict_get. cbn [fmap list_fmap alookup].
  decide_literals. cbn [default id as_int]. unfold severity_count. lia.
Qed.

Lemma derive_report_findings_ok loads now1 now2 ports eps fs :
  derive_report_findings loads now1 now2 ports eps = Ok fs ->
  exists l1 l2 l3, fs = l1 ++ l2 ++ l3
    /\ evaluate_endpoints loads now1 ports eps = Ok l1
    /\ evaluate_protocol_service_endpoints loads now2 eps = Ok l2
    /\ evaluate_identity_endpoints eps = Ok l3.
Proof.
  unfold derive_report_findings. intros (l1 & H1 & H)%pbind_ok.
  apply pbind_ok in H as (l2 & H2 & H). apply pbind_ok in H as (l3 & H3 & [= <-]). eauto 8.
Qed.

(** A CRITICAL finding without a category counts in the score. *)
Lemma critical_finding_counted eps fs f days ref :
  f ∈ fs -> f_severity f = Some "CRITICAL" -> f_category f = None ->
  1 <= count_of (scored_severity_counts (build_evidence_summary eps fs days ref)) "CRITICAL".
Proof.
  intros Hf Hs Hc. rewrite scored_critical_count. unfold severity_count, scored_findings, drop_coverage_gaps.
  assert (Hin : In f
    (List.filter (fun g => str_eqb (severity_of g) "CRITICAL")
       (List.filter (fun g => negb (score_neutral g))
          (List.filter (fun g => negb (category_is "coverage_gap" g)) fs)))).
  { rewrite !filter_In. split_and!.
    - by apply list_elem_of_In.
    - unfold category_is. by rewrite Hc.
    - unfold score_neutral. by rewrite Hc.
    - unfold severity_of. by rewrite Hs. }
  destruct (List.filter _ _) as [|x l]; [done|]. simpl. lia.
Qed.

Lemma critical_counted eps fs f days ref :
  f ∈ fs -> rf_severity f = "CRITICAL" -> alookup "category" (rf_extras f) = None ->
  1 <= count_of (scored_severity_counts (build_evidence_summary eps (map as_finding fs) days ref)) "CRITICAL".
Proof.
  intros Hf Hs Hc. apply (critical_finding_counted _ _ (as_finding f)); [|by simpl; rewrite Hs|done].
  apply list_elem_of_fmap. eauto.
Qed.

(** What makes a row CRITICAL for the report: an expired TLS certificate, an
    OpenSSL 0.x or 1.0.x package, or an unsigned bearer token. *)
Definition critical_cause (now : Z) (ep : CryptoEndpoint) : bool :=
  critical_row now ep
  || (proto_is "BEARER_TOKEN" ep && match bearer_cause ep with Some _ => true | None => false end).

(** Every critical cause is a CRITICAL finding of the composed report. *)
Lemma critical_cause_reported loads now1 now2 ports eps fs i e :
  derive_report_findings loads now1 now2 ports eps = Ok fs ->
  eps !! i = Some e -> critical_cause (now1 i) (er_ep e) = true ->
  exists f, f ∈ fs /\ rf_severity f = "CRITICAL" /\ alookup "category" (rf_extras f) = None
    /\ rf_host f = ep_host (er_ep e) /\ rf_port f = ep_port (er_ep e).
Proof.
  intros (l1 & l2 & l3 & -> & H1 & H2 & _)%derive_report_findings_ok Hi Hc. apply orb_true_iff in Hc as [Hc|Hc].
  - destruct (critical_row_reported _ _ _ _ _ _ _ H1 Hi Hc) as (g & Hg & Hh & Hp & Hs & Hx).
    exists g. rewrite elem_of_app, Hx. split_and!; [by left|done..].
  - apply andb_true_iff in Hc as [Hp Hc]. unfold evaluate_protocol_service_endpoints in H2.
    apply pbind_ok in H2 as (m1 & _ & H2). apply pbind_ok in H2 as (m2 & _ & H2).
    apply pbind_ok in H2 as (m3 & _ & H2). apply pbind_ok in H2 as (m4 & H4 & [= <-]).
    destruct (bearer_cause (er_ep e)) as [cause|] eqn:Hbc; [|done].
    unfold evaluate_bearer_token_endpoints, evaluate_each in H4. apply ptraverse_ok in H4.
    assert (Hem : plain e (bearer_unsigned cause) ∈
      concat (map (fun e0 => map (plain e0) (bearer_drafts e0))
                (List.filter (fun e0 => proto_is "BEARER_TOKEN" (er_ep e0)) eps))).
    { apply list_elem_of_In, in_concat. exists [plain e (bearer_unsigned cause)]. split; [|by left].
      apply in_map_iff. exists e. split; [unfold bearer_drafts; by rewrite Hbc|].
      apply filter_In. split; [|done]. apply list_elem_of_In. by eapply list_elem_of_lookup_2. }
    apply list_elem_of_lookup in Hem as [k Hk].
    destruct (Forall2_lookup_l _ _ _ _ _ H4 Hk) as (f & Hf & Hb).
    unfold plain, at_endpoint, build, build_finding in Hb. cbn [fst snd] in Hb.
    destruct (is_blank _); [done|]. destruct (is_blank _); [done|]. injection Hb as <-.
    exists (make_finding (ep_host (er_ep e)) (ep_port (er_ep e)) [] (bearer_unsigned cause)).
    split; [|split_and!; reflexivity].
    rewrite !elem_of_app. right. left. do 3 right. by eapply list_elem_of_lookup_2.
Qed.

Lemma critical_count_rates_poor evidence profile overrides r s :
  compute_readiness_score evidence profile overrides = Ok r -> r_score r = Some s ->
  1 <= count_of (scored_severity_counts evidence) "CRITICAL" ->
  s <= 34 /\ r_rating r = "POOR".
Proof.
  intros Hr Hs Hn. destruct (score_inputs_some _ _ _ _ Hr Hs) as (_ & _ & H & ->).
  rewrite ceiling_value_eq in H. cbn [read_inputs i_critical] in H.
  rewrite (proj2 (Z.leb_le 1 _)) in H by exact Hn.
  assert (s <= 34) by (destruct (5 <=? _); lia). split; [done|by apply band_poor].
Qed.

(** A critical cause reaches the headline: an expired TLS certificate, an
    OpenSSL 0.x or 1.0.x package or an unsigned bearer token anywhere in the
    estate holds the readiness score of the report's findings at 34 or less and
    rates it POOR, whatever else was found, the profile and the overrides. *)
Theorem critical_cause_rates_poor loads now1 now2 ports eps fs i e days ref profile overrides r s :
  derive_report_findings loads now1 now2 ports eps = Ok fs ->
  eps !! i = Some e -> critical_cause (now1 i) (er_ep e) = true ->
  compute_readiness_score
    (build_evidence_summary (map er_ep eps) (map as_finding fs) days ref) profile overrides = Ok r ->
  r_score r = Some s ->
  s <= 34 /\ r_rating r = "POOR".
Proof.
  intros Hfs Hi Hc Hr Hs.
  destruct (critical_cause_reported _ _ _ _ _ _ _ _ Hfs Hi Hc) as (f & Hf & Hsev & Hcat & _).
  eapply critical_count_rates_poor; [exact Hr|exact Hs|by eapply critical_counted].
Qed.

(** * Types *)

(** C28: every finding of a composed report, whatever the evaluator, is well
    formed: its severity is one of the five of the scale, its description,
    recommendation and quantum risk have text, and its address is a row's. *)
Theorem report_findings_well_formed loads now1 now2 ports eps fs :
  derive_report_findings loads now1 now2 ports eps = Ok fs -> Forall (well_formed eps) fs.
Proof.
  intros (l1 & l2 & l3 & -> & H1 & H2 & H3)%derive_report_findings_ok.
  rewrite !Forall_app. split_and!;
    [by eapply endpoints_well_formed|by eapply protocol_service_well_formed|by apply identity_well_formed].
Qed.

(** * Samples *)

Definition row_of (ep : CryptoEndpoint) : endpoint_row :=
  {| er_ep := ep; er_text := fun _ => None; er_flag := fun _ => None |}.

(** Columns of a sample row: protocol, suite, version, expiry, key. *)
Definition sample_row (host : string) (port : Z) (protocol : string) (cipher version : option string)
    (not_after : option Z) (key : option (string * Z)) : endpoint_row :=
  row_of {| ep_host := host; ep_port := port; ep_protocol := Some protocol; ep_scanned_at := None;
     ep_tls_version := version; ep_cipher_suite := cipher; ep_cert_subject := Some "CN=a";
     ep_cert_issuer := Some "CN=ca"; ep_cert_sig_alg := None; ep_cert_pubkey_alg := fst <$> key;
     ep_cert_pubkey_size := snd <$> key; ep_cert_spki_fingerprint := None;
     ep_cert_not_after := naive <$> not_after;
     ep_scan_error := None; ep_tls_blocker_reason := None; ep_service_detail := None;
     ep_tls_supported_versions := None; ep_severity := None; ep_scan_run_id := None |}.

Definition no_json (_ : string) : option pyval := None.

(** 2024-01-01, and rows around it. *)
Definition sample_now : nat -> Z := fun _ => 19723 * US_PER_DAY.

Definition sample_rows : list endpoint_row :=
  [sample_row "web" 443 "TLS" (Some "TLS_AES_128_GCM_SHA256") (Some "TLSv1.3")
     (Some (19000 * US_PER_DAY)) (Some ("RSA", 1024));
   sample_row "web" 8443 "HTTP" None None None None;
   sample_row "img" 0 "CONTAINER" (Some "openssl") (Some "1.0.2k") None None;
   sample_row "mq" 5671 "AMQPS" (Some "TLS_RSA_WITH_AES_128_CBC_SHA") (Some "TLSv1.2") None None;
   sample_row "mq" 5671 "AMQPS" (Some "TLS_RSA_WITH_AES_128_CBC_SHA") (Some "TLSv1.2") None None;
   sample_row "idp" 443 "SAML" None None None (Some ("ECDSA", 256))].

Definition titles (c : pyres (list report_finding)) : list (string * string) :=
  match c with Ok fs => map (fun f => (rf_severity f, rf_title f)) fs | Raise _ => [] end.

(** The report of the sample: one entry per defect, the plaintext service
    re-titled for its port. *)
Example sample_report :
  titles (evaluate_endpoints no_json sample_now [] sample_rows)
  = [("CRITICAL", "End-of-life OpenSSL 1.0.x (EOL Dec 2019) in container image");
     ("CRITICAL", "TLS certificate expired");
     ("HIGH", "HTTP on TLS-designated port");
     ("HIGH", "TLS certificate uses undersized RSA key")].
Proof. vm_compute. reflexivity. Qed.

(** The findings of the other evaluators are appended after the sorted report,
    neither deduplicated nor sorted into it: two rows of one broker give the
    same finding twice, and a CRITICAL finding comes last. *)
Example service_findings_not_merged :
  titles (derive_report_findings no_json sample_now sample_now [] sample_rows)
  = titles (evaluate_endpoints no_json sample_now [] sample_rows)
    ++ [("HIGH", "Weak cipher suite on broker TLS endpoint");
        ("HIGH", "Weak cipher suite on broker TLS endpoint");
        ("CRITICAL", "Weak SAML signing certificate: ECDSA-256")].
Proof. vm_compute. reflexivity. Qed.

(** Run a closed call that returns. *)
Ltac run_ok c v E :=
  let H := fresh in
  assert (H : is_ok c = true) by (vm_compute; reflexivity);
  destruct c as [v|] eqn:E; [clear H|discriminate H].

Lemma evaluate_endpoints_complete_witness :
  exists fs, evaluate_endpoints no_json sample_now [] sample_rows = Ok fs /\
    forall g, g ∈ fs -> exists i e extras d, sample_rows !! i = Some e /\
      (extras, d) ∈ row_drafts no_json (sample_now i) e /\
      g = reported [] sample_rows (ep_host (er_ep e), ep_port (er_ep e), extras, d).
Proof.
  run_ok (evaluate_endpoints no_json sample_now [] sample_rows) fs E.
  exists fs. split; [reflexivity|].
  exact (proj2 (evaluate_endpoints_complete no_json sample_now [] sample_rows fs E)).
Defined.

Lemma critical_findings_exact_witness :
  exists fs f, evaluate_endpoints no_json sample_now [] sample_rows = Ok fs /\
    f ∈ fs /\ rf_host f = "img" /\ rf_port f = 0 /\ rf_severity f = "CRITICAL".
Proof.
  run_ok (evaluate_endpoints no_json sample_now [] sample_rows) fs E.
  destruct (proj2 (critical_findings_exact no_json sample_now [] sample_rows fs "img" 0 E)) as (f & Hf).
  - exists 2%nat, (sample_row "img" 0 "CONTAINER" (Some "openssl") (Some "1.0.2k") None None).
    split_and!; vm_compute; reflexivity.
  - exists fs, f. split; [reflexivity|exact Hf].
Defined.

Lemma report_findings_well_formed_witness :
  exists fs, derive_report_findings no_json sample_now sample_now [] sample_rows = Ok fs
    /\ length fs = 7%nat /\ Forall (well_formed sample_rows) fs.
Proof.
  run_ok (derive_report_findings no_json sample_now sample_now [] sample_rows) fs E.
  exists fs. split; [reflexivity|]. split.
  - assert (H : match derive_report_findings no_json sample_now sample_now [] sample_rows with
                | Ok l => length l | Raise _ => 0%nat end = 7%nat) by (vm_compute; reflexivity).
    rewrite E in H. exact H.
  - exact (report_findings_well_formed no_json sample_now sample_now [] sample_rows fs E).
Defined.

Definition sample_scored : bool :=
  match derive_report_findings no_json sample_now sample_now [] sample_rows with
  | Ok fs =>
      match compute_readiness_score
              (build_evidence_summary (map er_ep sample_rows) (map as_finding fs) 30 None) None [] with
      | Ok r => match r_score r with Some _ => true | None => false end
      | Raise _ => false
      end
  | Raise _ => false
  end.

Lemma critical_cause_rates_poor_witness :
  exists fs r s,
    derive_report_findings no_json sample_now sample_now [] sample_rows = Ok fs /\
    compute_readiness_score (build_evidence_summary (map er_ep sample_rows) (map as_finding fs) 30 None)
      None [] = Ok r /\ r_score r = Some s /\ s <= 34 /\ r_rating r = "POOR".
Proof.
  assert (H : sample_scored = true) by (vm_compute; reflexivity). unfold sample_scored in H.
  destruct (derive_report_findings no_json sample_now sample_now [] sample_rows) as [fs|err] eqn:E;
    [|discriminate H].
  destruct (compute_readiness_score
    (build_evidence_summary (map er_ep sample_rows) (map as_finding fs) 30 None) None []) as [r|err] eqn:R;
    [|discriminate H].
  destruct (r_score r) as [s|] eqn:S; [|discriminate H].
  exists fs, r, s. split; [reflexivity|]. split; [exact R|]. split; [exact S|].
  exact (critical_cause_rates_poor no_json sample_now sample_now [] sample_rows fs 0
           (sample_row "web" 443 "TLS" (Some "TLS_AES_128_GCM_SHA256") (Some "TLSv1.3")
              (Some (19000 * US_PER_DAY)) (Some ("RSA", 1024))) 30 None None [] r s
           E eq_refl eq_refl R S).
Defined.

(** * Misclassified advice

    An ECDSA P-256 SAML certificate is reported CRITICAL, as below the RSA
    minimum, with the RSA sentence and advice, although the text written for it
    recommends moving to ECDSA P-256. *)
Example p256_saml_certificate_is_critical :
  match evaluate_identity_endpoints [sample_row "idp" 443 "SAML" None None None (Some ("ECDSA", 256))] with
  | Ok [f] => rf_severity f = "CRITICAL"
              /\ Some (rf_recommendation f) = alookup "RSA" REMEDIATION_CATALOG
              /\ contains (dr_recommendation (saml_signing_cert "ECDSA" 256)) "switch to ECDSA P-256" = true
  | _ => False
  end.
Proof. vm_compute. split; [|split]; reflexivity. Qed.

(** The non-PFS mail finding names ECDHE, reads as class DH, and so carries the
    finite-field Diffie-Hellman advice in place of its own. *)
Example email_non_pfs_gets_dh_advice :
  Some (rf_recommendation (make_finding "mx" 25 [] email_non_pfs)) = alookup "DH" REMEDIATION_CATALOG.
Proof. vm_compute. reflexivity. Qed.

(** The NIST deprecation sentence is on none of the TLS key findings: the
    catalog text of their class replaces it. *)
Example tls_key_findings_lack_nist_sentence :
  existsb (fun d => contains (rf_recommendation (make_finding "h" 443 [] d)) NIST_IR_8547_DEPRECATION)
    [rsa_undersized 1024; rsa_quantum; ecdsa_undersized 224; ecdsa_quantum] = false.
Proof. vm_compute. reflexivity. Qed.
