(* ===== verification/Confidence.v ===== *)
(** Assessment confidence: [src/quirk/intelligence/confidence.py].

    [compute_confidence] turns the same evidence into a 0-100 confidence score
    from four weighted ratios, refuses non-numeric weight overrides, and answers
    NO_DATA for a scan without (assessable) endpoints. *)
From Stdlib Require Import ZArith QArith Lia Lqa Ascii.
From stdpp Require Import base tactics sets strings list pretty.
From S2P Require Import Prelude PyFloat PyVal Scoring ScoringTheory.

Local Open Scope Z_scope.
Local Open Scope quirk_scope.

Definition CONFIDENCE_FORMULA_VERSION : string := "2.0.0".

(** The float literals 0.35, 0.30, 0.15 and 0.20. *)
Definition CONFIDENCE_WEIGHTS : weights :=
  [("coverage_ratio", rnd (35 # 100)); ("scan_error_ratio", rnd (30 # 100));
   ("unknown_ratio", rnd (15 # 100)); ("tls_enum_coverage_ratio", rnd (20 # 100))].

Definition confidence_rating_of (score : Z) : string :=
  if 85 <=? score then "HIGH" else if 65 <=? score then "MEDIUM"
  else if 40 <=? score then "LOW" else "VERY_LOW".

(** One override: a number clamped to [0, 1], or [ValueError]. *)
Definition override_weight (w : weights) (kv : string * pyval) : pyres weights :=
  match to_float kv.2 with
  | None => Raise (ValueError ("Confidence override " +:+ kv.1 +:+ " must be numeric in [0.0, 1.0]"))
  | Some num => Ok (aset kv.1 (fmax 0 (fmin 1 num)) w)
  end.

Definition confidence_weights (overrides : pydict) : pyres weights :=
  pfold override_weight CONFIDENCE_WEIGHTS overrides.

Record factor := { fa_value : Q; fa_weight : Q; fa_points : Q }.

Record confidence := {
  cf_score : Z;
  cf_rating : string;
  cf_version : string;
  cf_breakdown : list (string * factor)
}.

Definition no_data (w : weights) : confidence :=
  let zero k := (k, {| fa_value := 0%Q; fa_weight := wget w k; fa_points := 0%Q |}) in
  {| cf_score := 0; cf_rating := "NO_DATA"; cf_version := CONFIDENCE_FORMULA_VERSION;
     cf_breakdown := [zero "coverage_ratio"; zero "scan_error_ratio"; zero "unknown_ratio";
                      zero "tls_enum_coverage_ratio"] |}.

(** The four ratios read from the evidence. *)
Definition float_get (d : pydict) (k : string) (dflt : Q) : Q := as_float (get_or d k (VFloat dflt)).

Definition scan_error_ratio (evidence : pydict) : Q :=
  clamp (float_get (sub_mapping evidence "scan_error") "rate" 0) 0 1.

Definition coverage_ratio (evidence : pydict) : Q :=
  clamp (int_truediv (count_of evidence "assessed_crypto_count")
                     (count_of evidence "assessable_endpoint_count")) 0 1.

Definition endpoint_total (evidence : pydict) : Z := count_of (sub_mapping evidence "totals") "endpoints".

Definition unknown_ratio (evidence : pydict) : Q :=
  clamp (int_truediv (count_of (sub_mapping evidence "protocol_counts") "UNKNOWN")
                     (endpoint_total evidence)) 0 1.

Definition tls_enum_ratio (evidence : pydict) : Q :=
  let ratio := float_get evidence "tls_enum_coverage_ratio" (-1) in
  let ratio := if flt ratio 0 then
                 let pct := float_get evidence "tls_enum_coverage_pct" (-1) in
                 if fle 0 pct then fdiv pct 100 else ratio
               else ratio in
  clamp (if flt ratio 0 then 0%Q else ratio) 0 1.

Definition points (w : weights) (k : string) (x : Q) : Q := fmul (fmul 100 (wget w k)) x.

Definition factor_of (w : weights) (k : string) (value pts : Q) : string * factor :=
  (k, {| fa_value := round_nd value 4; fa_weight := round_nd (wget w k) 4; fa_points := round_nd pts 2 |}).

Definition score_confidence (w : weights) (evidence : pydict) : confidence :=
  if endpoint_total evidence =? 0 then no_data w
  else if count_of evidence "assessable_endpoint_count" =? 0 then no_data w
  else
    let tls_count := count_of (sub_mapping evidence "protocol_counts") "TLS" in
    let cov := coverage_ratio evidence in
    let err := scan_error_ratio evidence in
    let unk := unknown_ratio evidence in
    let tls := tls_enum_ratio evidence in
    let p_cov := points w "coverage_ratio" cov in
    let p_err := points w "scan_error_ratio" (fsub 1 err) in
    let p_unk := points w "unknown_ratio" (fsub 1 unk) in
    let p_tls := if 0 <? tls_count then points w "tls_enum_coverage_ratio" tls else 0%Q in
    let score := rne (clamp (fadd (fadd (fadd p_cov p_err) p_unk) p_tls) 0 100) in
    {| cf_score := score; cf_rating := confidence_rating_of score; cf_version := CONFIDENCE_FORMULA_VERSION;
       cf_breakdown := [factor_of w "coverage_ratio" cov p_cov; factor_of w "scan_error_ratio" err p_err;
                        factor_of w "unknown_ratio" unk p_unk; factor_of w "tls_enum_coverage_ratio" tls p_tls] |}.

Definition compute_confidence (evidence : pydict) (overrides : pydict) : pyres confidence :=
  let! w := confidence_weights overrides in
  Ok (score_confidence w evidence).

(** * Lemmas *)

Definition numeric_overrides (overrides : pydict) : bool :=
  forallb (fun kv => match to_float kv.2 with Some _ => true | None => false end) overrides.

Lemma override_fold_spec overrides w :
  if numeric_overrides overrides
  then exists w', pfold override_weight w overrides = Ok w'
  else exists msg, pfold override_weight w overrides = Raise (ValueError msg).
Proof.
  revert w. induction overrides as [|[k v] l IH]; intros w; simpl; [eauto|].
  assert (E : override_weight w (k, v) = match to_float v with
      | None => Raise (ValueError ("Confidence override " +:+ k +:+ " must be numeric in [0.0, 1.0]"))
      | Some num => Ok (aset k (fmax 0 (fmin 1 num)) w) end) by reflexivity.
  rewrite E. destruct (to_float v); simpl; [apply IH|eauto].
Qed.

Lemma override_weight_nonneg w kv w' :
  weights_nonneg w -> override_weight w kv = Ok w' -> weights_nonneg w'.
Proof.
  intros Hw. unfold override_weight. destruct (to_float kv.2) as [q|]; [|done]. intros [= <-].
  intros k. unfold wget. rewrite alookup_aset. case_decide; [simpl|apply Hw].
  destruct (fmax_spec 0 (fmin 1 q)) as (?&?&_). lra.
Qed.

Lemma confidence_weights_nonneg overrides w : confidence_weights overrides = Ok w -> weights_nonneg w.
Proof.
  unfold confidence_weights. assert (H0 : weights_nonneg CONFIDENCE_WEIGHTS).
  { apply weights_nonneg_forall. repeat (apply Forall_cons; split; [by vm_compute|]). constructor. }
  revert H0. generalize CONFIDENCE_WEIGHTS. induction overrides as [|kv l IH]; intros w0 H0; simpl.
  - by intros [= <-].
  - destruct (override_weight w0 kv) as [w1|] eqn:E; simpl; [|done].
    apply IH. by eapply override_weight_nonneg.
Qed.

(** Confidence is total on numeric overrides and refuses any other with a
    [ValueError]; when it answers, the score is in 0..100, NO_DATA is answered
    exactly when no endpoint or no assessable endpoint was seen, and otherwise
    the rating is the band of the score. *)
Theorem compute_confidence_spec evidence overrides :
  (numeric_overrides overrides = false -> exists msg, compute_confidence evidence overrides = Raise (ValueError msg)) /\
  (numeric_overrides overrides = true -> exists c, compute_confidence evidence overrides = Ok c /\
     0 <= cf_score c <= 100 /\
     (cf_rating c = "NO_DATA" <->
        endpoint_total evidence = 0 \/ count_of evidence "assessable_endpoint_count" = 0) /\
     (cf_rating c <> "NO_DATA" -> cf_rating c = confidence_rating_of (cf_score c))).
Proof.
  unfold compute_confidence, confidence_weights. pose proof (override_fold_spec overrides CONFIDENCE_WEIGHTS) as H.
  split; intros Hn; rewrite Hn in H; destruct H as [x ->]; cbn [pbind]; [eauto|].
  eexists. split; [reflexivity|]. unfold score_confidence.
  destruct (Z.eqb_spec (endpoint_total evidence) 0) as [E|E]; [cbn; intuition (done || lia)|].
  destruct (Z.eqb_spec (count_of evidence "assessable_endpoint_count") 0) as [A|A]; [cbn; intuition (done || lia)|].
  cbn [cf_score cf_rating]. split.
  - apply rne_bounds. apply (clamp_range _ 0 100). lra.
  - assert (R : forall s, confidence_rating_of s <> "NO_DATA")
      by (intros s; unfold confidence_rating_of; split_ifs; done).
    split; [|done]. split; [intros H; exfalso; by apply R in H|intuition].
Qed.

Lemma compute_confidence_spec_witness :
  (exists msg, compute_confidence [] [("coverage_ratio", VStr "high")] = Raise (ValueError msg)) /\
  (exists c, compute_confidence [] [] = Ok c /\ cf_rating c = "NO_DATA").
Proof.
  split.
  - apply (compute_confidence_spec [] [("coverage_ratio", VStr "high")]). vm_compute. reflexivity.
  - destruct (compute_confidence_spec [] []) as [_ H].
    destruct (H ltac:(vm_compute; reflexivity)) as (c & Hc & _ & [_ Hn] & _).
    exists c. split; [exact Hc|]. apply Hn. left. vm_compute. reflexivity.
Defined.

(** Evidence at least as good in every factor, both with data. *)
Record more_confident (e f : pydict) : Prop := {
  mc_endpoints : endpoint_total e <> 0 /\ endpoint_total f <> 0;
  mc_assessable : count_of e "assessable_endpoint_count" <> 0 /\ count_of f "assessable_endpoint_count" <> 0;
  mc_coverage : (coverage_ratio e <= coverage_ratio f)%Q;
  mc_errors : (scan_error_ratio f <= scan_error_ratio e)%Q;
  mc_unknown : (unknown_ratio f <= unknown_ratio e)%Q;
  mc_tls : (tls_enum_ratio e <= tls_enum_ratio f)%Q;
  mc_tls_seen : 0 < count_of (sub_mapping e "protocol_counts") "TLS" ->
                0 < count_of (sub_mapping f "protocol_counts") "TLS"
}.

Lemma points_mono w k x y : weights_nonneg w -> (x <= y)%Q -> (points w k x <= points w k y)%Q.
Proof.
  intros Hw H. unfold points. apply fmul_mono_r; [|done]. apply fmul_nonneg; [lra|apply Hw].
Qed.

Lemma fsub_antitone x y : (x <= y)%Q -> (fsub 1 y <= fsub 1 x)%Q.
Proof. intros H. unfold fsub. apply rnd_mono. lra. Qed.

(** Confidence is monotone: higher coverage and TLS enumeration, fewer
    scan errors and fewer unknown services never lower the score, under any
    accepted weight overrides. *)
Theorem compute_confidence_monotone e f overrides c d :
  more_confident e f ->
  compute_confidence e overrides = Ok c -> compute_confidence f overrides = Ok d ->
  cf_score c <= cf_score d.
Proof.
  intros [[E1 E2] [A1 A2] Hcov Herr Hunk Htls Hseen] Hc Hd. unfold compute_confidence in *.
  destruct (confidence_weights overrides) as [w|] eqn:Ew; [|done].
  pose proof (confidence_weights_nonneg _ _ Ew) as Hw.
  cbn [pbind] in *. injection Hc as <-. injection Hd as <-. unfold score_confidence.
  rewrite (proj2 (Z.eqb_neq _ _) E1), (proj2 (Z.eqb_neq _ _) E2),
    (proj2 (Z.eqb_neq _ _) A1), (proj2 (Z.eqb_neq _ _) A2).
  cbn [cf_score]. apply rne_mono, clamp_mono.
  repeat apply fadd_mono; try (by apply points_mono); try (by apply points_mono, fsub_antitone).
  destruct (Z.ltb_spec 0 (count_of (sub_mapping e "protocol_counts") "TLS")) as [He|He].
  - rewrite (proj2 (Z.ltb_lt _ _) (Hseen He)). by apply points_mono.
  - destruct (0 <? count_of (sub_mapping f "protocol_counts") "TLS"); [|lra].
    unfold points. apply fmul_nonneg; [apply fmul_nonneg; [lra|apply Hw]|].
    unfold tls_enum_ratio. apply (clamp_range _ 0 1). lra.
Qed.

Definition sample_confidence (assessed unknown : Z) : pydict :=
  [("totals", VDict [("endpoints", VInt 10)]); ("assessable_endpoint_count", VInt 8);
   ("assessed_crypto_count", VInt assessed);
   ("protocol_counts", VDict [("TLS", VInt 4); ("UNKNOWN", VInt unknown)])].

Lemma compute_confidence_monotone_witness :
  exists c d, compute_confidence (sample_confidence 4 3) [] = Ok c /\
    compute_confidence (sample_confidence 6 1) [] = Ok d /\ cf_score c <= cf_score d.
Proof.
  eexists _, _. split; [vm_compute; reflexivity|]. split; [vm_compute; reflexivity|].
  apply (compute_confidence_monotone (sample_confidence 4 3) (sample_confidence 6 1) [] _ _
           ltac:(constructor; vm_compute; intros; try split; congruence)
           ltac:(vm_compute; reflexivity) ltac:(vm_compute; reflexivity)).
Defined.
