(* ===== verification/Remediation.v ===== *)
(** Remediation item identity and states: [src/quirk/intelligence/remediation.py].

    The closed set of roadmap titles and their slugs, the constituency of each
    slug, the four item states, and the progress read over persisted rows. *)
From Stdlib Require Import ZArith Lia Ascii.
From stdpp Require Import base tactics sets strings list.
From S2P Require Import Prelude PyVal.

Local Open Scope Z_scope.

Definition REMEDIATION_KIND_SLUGS : list (string * string) :=
  [("Remove plaintext HTTP exposure", "plaintext-http-exposure");
   ("Triage high-impact findings", "high-impact-findings");
   ("Replace expired certificates", "expired-certificates");
   ("Increase scan coverage", "scan-reliability");
   ("Classify unknown open services", "unknown-open-services");
   ("Renew near-expiry certificates", "near-expiry-certificates");
   ("Migrate self-signed certificates to managed PKI", "self-signed-certificates");
   ("Disable legacy TLS versions", "legacy-tls-versions");
   ("Increase TLS enumeration coverage", "tls-enum-coverage");
   ("Plan post-quantum (PQC/hybrid) certificate adoption", "ecdsa-adoption-planning");
   ("Standardize mTLS lifecycle operations", "mtls-lifecycle-operations");
   ("Assign remediation owners and SLAs", "assign-owners-and-slas");
   ("Automate evidence refresh cadence", "automate-evidence-refresh");
   ("Establish crypto governance review", "crypto-governance-review")].

Definition REMEDIATION_EXCLUDED_TITLES : list string :=
  ["Collect initial asset scope"; "Run baseline discovery and fingerprinting";
   "Establish recurring readiness reporting"].

(** Constituted by findings of these titles, by any HIGH/CRITICAL finding, or
    by no finding. *)
Inductive constituency :=
| Fingerprint (titles : list string)
| Severity
| EvidenceOnly.

Definition REMEDIATION_CONSTITUENCY : list (string * constituency) :=
  [("plaintext-http-exposure",
    Fingerprint ["Plaintext HTTP service detected"; "HTTP on TLS-designated port";
                 "Plaintext AMQP listener detected"; "Plaintext Kafka listener detected";
                 "Plaintext Redis listener (no auth)"]);
   ("expired-certificates", Fingerprint ["TLS certificate expired"]);
   ("near-expiry-certificates", Fingerprint ["TLS certificate expiring within 30 days"]);
   ("self-signed-certificates", Fingerprint ["TLS certificate is self-signed"]);
   ("legacy-tls-versions",
    Fingerprint ["Legacy TLS versions allowed (TLS 1.0/1.1)"; "Legacy TLS cipher suites accepted"]);
   ("unknown-open-services", Fingerprint ["Unknown open service"]);
   ("high-impact-findings", Severity);
   ("scan-reliability", EvidenceOnly);
   ("tls-enum-coverage", EvidenceOnly);
   ("ecdsa-adoption-planning", EvidenceOnly);
   ("mtls-lifecycle-operations", EvidenceOnly);
   ("assign-owners-and-slas", EvidenceOnly);
   ("automate-evidence-refresh", EvidenceOnly);
   ("crypto-governance-review", EvidenceOnly)].

Definition ITEM_STATES : list string := ["open"; "closed"; "not_observed"; "resurfaced"].
Definition DEFAULT_ITEM_STATE : string := "not_observed".
Definition DETECTED_ITEM_STATE : string := "open".
Definition RESURFACED_STATE : string := "resurfaced".
Definition OPEN_LIKE_STATES : list string := ["open"; "resurfaced"].
Definition CLOSURE_EVENT_TYPES : list string := ["closed"; "resurfaced"; "reclosed"].

Definition slug_for_title (title : string) : option string := alookup title REMEDIATION_KIND_SLUGS.

(** * Lemmas *)

(** The tables are functional: a slug has one title, and every slug a
    constituency. *)
Lemma slugs_nodup : NoDup (REMEDIATION_KIND_SLUGS.*2).
Proof. apply (bool_decide_eq_true _). vm_compute. reflexivity. Qed.

Lemma slugs_constituted : Forall (fun ts => is_Some (alookup ts.2 REMEDIATION_CONSTITUENCY)) REMEDIATION_KIND_SLUGS.
Proof. repeat (apply Forall_cons; split; [vm_compute; eauto|]). constructor. Qed.

