(* ===== verification/Roadmap.v ===== *)
(** The phased remediation roadmap: [src/quirk/intelligence/roadmap.py].

    [build_phased_roadmap] reads the counters of the evidence, registers a
    candidate item per weakness, adds baseline items up to the minimum, sorts by
    phase, priority and title, and cuts at the maximum. *)
From Stdlib Require Import ZArith QArith Lia Lqa Ascii.
From stdpp Require Import base tactics sets strings list pretty.
From S2P Require Import Prelude PyFloat PyVal Scoring ScoringTheory ScoringProps Remediation.

Local Open Scope Z_scope.

Definition ROADMAP_VERSION : string := "1.0.0".

(** [_PHASE_ORDER] and [_TIMEFRAME_BY_PHASE]. *)
Definition PHASE_ORDER : list (string * Z) := [("NOW", 0); ("NEXT", 1); ("LATER", 2)].

Definition phase_order (phase : string) : Z := default 99 (alookup phase PHASE_ORDER).

Definition timeframe_of (phase : string) : string :=
  if str_eqb phase "NOW" then "0-30 days"
  else if str_eqb phase "NEXT" then "31-90 days" else "90+ days".

Record item := {
  it_phase : string;
  it_title : string;
  it_why : string;
  it_owner : string;
  it_dependencies : list string;
  it_timeframe : string;
  it_priority : Z
}.

(** [f"{q}"] for a float rounded to one decimal, [q >= 0]. *)
Definition show_1dp (q : Q) : string :=
  let n := rne (q * 10) in pretty (n / 10) +:+ "." +:+ pretty (n mod 10).

(** The driver reasons of a scoring result. *)
Definition driver_reasons (drivers : list (string * Z)) : list string :=
  List.filter (fun s => negb (str_eqb s EmptyString)) (strip <$> drivers.*1).

Fixpoint driver_hint (reasons keywords : list string) : string :=
  match reasons with
  | [] => EmptyString
  | r :: rs => if existsb (fun k => contains (lower r) (lower k)) keywords then r
               else driver_hint rs keywords
  end.

Definition is_dot (c : Ascii.ascii) : bool := bool_decide (c = "."%char).

Definition why_text (base hint : string) : string :=
  match hint with
  | EmptyString => base
  | _ => base +:+ " Driver: " +:+ rstrip_by is_dot hint +:+ "."
  end.

(** Strict order on [(phase order, priority, title)]. *)
Definition key_lt (a b : item) : bool :=
  (phase_order (it_phase a) <? phase_order (it_phase b))
  || ((phase_order (it_phase a) =? phase_order (it_phase b))
      && ((it_priority a <? it_priority b)
          || ((it_priority a =? it_priority b)
              && str_leb (it_title a) (it_title b) && negb (str_eqb (it_title a) (it_title b))))).

Definition item_leb (a b : item) : bool := negb (key_lt b a).

Definition candidate (phase title why owner : string) (deps : list string) (priority : Z) : item :=
  {| it_phase := phase; it_title := title; it_why := why; it_owner := owner;
     it_dependencies := deps; it_timeframe := timeframe_of phase; it_priority := priority |}.

(** [_add_candidate]: merge by title, the lower key wins. *)
Definition add_candidate (items : list (string * item)) (c : item) : list (string * item) :=
  match alookup (it_title c) items with
  | None => items ++ [(it_title c, c)]
  | Some old => if key_lt c old then aset (it_title c) c items else items
  end.

(** The counters of the evidence the roadmap reads. *)
Record signals := {
  s_endpoints : Z; s_unknown : Z; s_plaintext_http : Z; s_http_on_tls : Z; s_mtls : Z;
  s_expired : Z; s_expiring : Z; s_self_signed : Z; s_high_impact : Z; s_legacy_tls : Z;
  s_scan_error_rate : Q; s_scan_errors : Z; s_tls_enum_cov : Q;
  s_rsa : Z; s_ecdsa : Z; s_pqc_cert : Z; s_certs_observed : Z
}.

Definition unit_clamp (x : Q) : Q := fmax 0 (fmin 1 x).

Definition read_signals (evidence : pydict) : signals :=
  let cert_obs := sub_mapping evidence "certificate_observations" in
  let cert_keys := sub_mapping evidence "cert_key_type_counts" in
  let scan_error := sub_mapping evidence "scan_error" in
  let sev := scored_severity_counts evidence in
  {| s_endpoints := count_of (sub_mapping evidence "totals") "endpoints";
     s_unknown := count_of (sub_mapping evidence "protocol_counts") "UNKNOWN";
     s_plaintext_http := count_of evidence "plaintext_http_count";
     s_http_on_tls := count_of evidence "http_on_tls_port_count";
     s_mtls := count_of evidence "mtls_present_count";
     s_expired := count_of cert_obs "expired_count";
     s_expiring := count_of cert_obs "expiring_count";
     s_self_signed := count_of cert_obs "self_signed_count";
     s_high_impact := Z.max 0 (raw_count sev "HIGH" + raw_count sev "CRITICAL");
     s_legacy_tls := Z.max 0 (raw_count sev "LOW");
     s_scan_error_rate := unit_clamp (as_float (get_or scan_error "rate" (VFloat 0)));
     s_scan_errors := count_of scan_error "count";
     s_tls_enum_cov := unit_clamp (as_float (get_or evidence "tls_enum_coverage_ratio" (VFloat 1)));
     s_rsa := count_of cert_keys "RSA";
     s_ecdsa := count_of cert_keys "ECDSA";
     s_pqc_cert := count_of cert_keys "PQC";
     s_certs_observed := count_of cert_obs "certs_observed" |}.

(** The candidate block of a weakness: its condition and its item. *)
Definition candidate_table (s : signals) (reasons : list string) : list (bool * item) :=
  let hint := driver_hint reasons in
  let evidenced := Z.max 0 (s_endpoints s - s_scan_errors s) in
  let rate100 := fmul (s_scan_error_rate s) 100 in
  [(0 <? s_plaintext_http s + s_http_on_tls s,
    candidate "NOW" "Remove plaintext HTTP exposure"
      (why_text ("Plaintext HTTP signals were observed on " +:+ pretty (s_plaintext_http s + s_http_on_tls s)
                 +:+ " endpoint(s).") (hint ["plaintext"; "http on tls"]))
      "[owner: platform-security]" ["Service inventory"; "TLS termination standard"] 10);
   (0 <? s_high_impact s,
    candidate "NOW" "Triage high-impact findings"
      (why_text ("There are " +:+ pretty (s_high_impact s)
                 +:+ " high-impact finding(s) requiring immediate remediation sequencing.")
                (hint ["high-impact"; "high severity"]))
      "[owner: security-operations]" ["Finding ownership map"] 20);
   (0 <? s_expired s,
    candidate "NOW" "Replace expired certificates"
      (why_text (pretty (s_expired s) +:+ " certificate(s) are already expired.") (hint ["expired certificate"]))
      "[owner: pki-team]" ["Certificate inventory"; "CA issuance access"] 30);
   (0 <? s_scan_errors s,
    candidate "NOW" "Increase scan coverage"
      (why_text ("Only " +:+ pretty evidenced +:+ " of " +:+ pretty (s_endpoints s) +:+ " probed ports ("
                 +:+ show_1dp (round_nd (fsub 100 rate100) 1)
                 +:+ "%) returned crypto evidence; the remaining " +:+ show_1dp (round_nd rate100 1)
                 +:+ "% were closed, unreachable, or not listening. Low assessable coverage weakens evidence quality.")
                (hint ["scan error"; "visibility blocker"]))
      "[owner: network-engineering]" ["Scanner connectivity baseline"] 40);
   (0 <? s_unknown s,
    candidate "NEXT" "Classify unknown open services"
      (why_text (pretty (s_unknown s) +:+ " unknown open service(s) need protocol and ownership classification.")
                (hint ["unknown service"; "unknown open"]))
      "[owner: asset-management]" ["Service inventory"; "CMDB ownership data"] 50);
   (0 <? s_expiring s,
    candidate "NEXT" "Renew near-expiry certificates"
      (why_text (pretty (s_expiring s) +:+ " certificate(s) are expiring within the configured window.")
                (hint ["expiring certificate"]))
      "[owner: pki-operations]" ["Renewal runbook"; "Certificate ownership"] 60);
   (0 <? s_self_signed s,
    candidate "NEXT" "Migrate self-signed certificates to managed PKI"
      (why_text (pretty (s_self_signed s) +:+ " self-signed certificate(s) reduce trust consistency.")
                (hint ["self-signed"]))
      "[owner: identity-security]" ["Managed PKI policy"; "Service migration plan"] 70);
   (0 <? s_legacy_tls s,
    candidate "NEXT" "Disable legacy TLS versions"
      (why_text "Legacy TLS usage was detected and should be phased out with exception tracking."
                (hint ["legacy tls"]))
      "[owner: platform-architecture]" ["Client compatibility matrix"; "Change window approvals"] 80);
   (flt (s_tls_enum_cov s) (rnd (85 # 100)),
    candidate "NEXT" "Increase TLS enumeration coverage"
      (why_text ("TLS enum coverage is " +:+ show_1dp (round_nd (fmul (s_tls_enum_cov s) 100) 1)
                 +:+ "%, limiting modernization prioritization accuracy.")
                (hint ["assessment visibility"; "tls enum"]))
      "[owner: security-engineering]" ["Scanner profile tuning"] 90);
   ((0 <? s_rsa s + s_ecdsa s) || (s_pqc_cert s <? s_certs_observed s),
    candidate "LATER" "Plan post-quantum (PQC/hybrid) certificate adoption"
      (why_text "Certificate keys are classical (RSA/ECDSA/EdDSA) or undetermined, and all classical keys are quantum-vulnerable; plan migration to ML-DSA or composite (hybrid) certificates as CA and client support allows."
                (hint ["quantum-vulnerable certificate"; "certificate key types undetermined"]))
      "[owner: cryptography-architecture]" ["CA support validation"; "Client support matrix"] 100);
   (0 <? s_mtls s,
    candidate "LATER" "Standardize mTLS lifecycle operations"
      (why_text "mTLS signals are present; operationalize issuance, rotation, and revocation controls consistently."
                (hint ["mtls"]))
      "[owner: identity-platform]" ["Client cert lifecycle policy"; "Secrets distribution channel"] 110)].

Definition driven_items (s : signals) (reasons : list string) : list (string * item) :=
  List.fold_left (fun items bc => if bc.1 : bool then add_candidate items bc.2 else items)
    (candidate_table s reasons) [].

Definition governance : item :=
  candidate "LATER" "Establish crypto governance review"
    "Adopt recurring governance checkpoints for roadmap status and exceptions."
    "[owner: security-leadership]" ["Quarterly reporting format"] 920.

Definition baseline : list item :=
  [candidate "NOW" "Assign remediation owners and SLAs"
     "Define named owners and SLA targets for each open finding."
     "[owner: security-program]" ["Finding register"] 900;
   candidate "NEXT" "Automate evidence refresh cadence"
     "Run periodic evidence collection and scoring for trend visibility."
     "[owner: secops-automation]" ["Scheduler setup"] 910;
   governance].

(** The baseline loop: add until [min_items] is reached. *)
Definition add_baseline (min_items : Z) (items : list (string * item)) : list (string * item) :=
  List.fold_left (fun items b =>
    if min_items <=? Z.of_nat (length items) then items else add_candidate items b) baseline items.

Definition add_governance (min_items : Z) (items : list (string * item)) : list (string * item) :=
  if negb (bool_decide (is_Some (alookup (it_title governance) items)))
     || (Z.of_nat (length items) <? min_items)
  then add_candidate items governance else items.

Definition fallback : list item :=
  [candidate "NOW" "Collect initial asset scope"
     "No endpoints were observed; establish baseline scope before scoring."
     "[owner: asset-management]" ["Target inventory"] 0;
   candidate "NEXT" "Run baseline discovery and fingerprinting"
     "Initial scan evidence is required to compute meaningful intelligence outputs."
     "[owner: security-engineering]" ["Collect initial asset scope"] 0;
   candidate "LATER" "Establish recurring readiness reporting"
     "Consistent trend reporting is needed once baseline evidence exists."
     "[owner: security-program]" ["Run baseline discovery and fingerprinting"] 0].

Definition add_fallback (min_items : Z) (items : list item) : list item :=
  List.fold_left (fun items f =>
    if min_items <=? Z.of_nat (length items) then items
    else if forallb (fun e => negb (str_eqb (it_title e) (it_title f))) items
         then items ++ [f] else items) fallback items.

Record roadmap := {
  rm_version : string;
  rm_item_count : Z;
  rm_phase_counts : list (string * Z);
  rm_items : list item
}.

Definition phase_count (items : list item) (phase : string) : Z :=
  Z.of_nat (length (List.filter (fun i => str_eqb (it_phase i) phase) items)).

Definition all_items (evidence : pydict) (drivers : list (string * Z)) (min_items : Z) : list (string * item) :=
  add_governance min_items
    (add_baseline min_items (driven_items (read_signals evidence) (driver_reasons drivers))).

Definition build_phased_roadmap (evidence : pydict) (drivers : list (string * Z)) (min_arg max_arg : Z)
  : roadmap :=
  let min_items := Z.max 1 min_arg in
  let max_items := Z.max min_items max_arg in
  let sorted := take (Z.to_nat max_items) (py_sorted item_leb (all_items evidence drivers min_items).*2) in
  let final :=
    if (s_endpoints (read_signals evidence) =? 0) && (Z.of_nat (length sorted) <? min_items)
    then add_fallback min_items sorted else sorted in
  {| rm_version := ROADMAP_VERSION;
     rm_item_count := Z.of_nat (length final);
     rm_phase_counts := (fun p => (p, phase_count final p)) <$> ["NOW"; "NEXT"; "LATER"];
     rm_items := final |}.

(** * Lemmas *)

(** ** The item order *)

Lemma key_lt_spec a b :
  key_lt a b = true <->
    phase_order (it_phase a) < phase_order (it_phase b) \/
    (phase_order (it_phase a) = phase_order (it_phase b) /\
     (it_priority a < it_priority b \/
      (it_priority a = it_priority b /\ str_leb (it_title a) (it_title b) = true /\ it_title a <> it_title b))).
Proof.
  unfold key_lt.
  rewrite !orb_true_iff, !andb_true_iff, !orb_true_iff, !andb_true_iff, negb_true_iff, !Z.ltb_lt, !Z.eqb_eq, str_eqb_neq.
  tauto.
Qed.

Lemma item_leb_total a b : item_leb a b = true \/ item_leb b a = true.
Proof.
  unfold item_leb. rewrite !negb_true_iff.
  destruct (key_lt b a) eqn:E; [right|auto]. apply not_true_iff_false. intros F.
  apply key_lt_spec in E, F.
  destruct E as [?|[? [?|(?&E&N)]]], F as [?|[? [?|(?&F&_)]]]; try lia.
  by apply N, str_leb_antisym.
Qed.

Lemma item_leb_spec a b :
  item_leb a b = true <->
    phase_order (it_phase a) < phase_order (it_phase b) \/
    (phase_order (it_phase a) = phase_order (it_phase b) /\
     (it_priority a < it_priority b \/
      (it_priority a = it_priority b /\ str_leb (it_title a) (it_title b) = true))).
Proof.
  unfold item_leb. rewrite negb_true_iff, <- not_true_iff_false, key_lt_spec.
  destruct (str_leb_total (it_title a) (it_title b)) as [H|H].
  - rewrite H. split.
    + intros N. destruct (Z.lt_total (phase_order (it_phase a)) (phase_order (it_phase b))) as [|[|]];
        destruct (Z.lt_total (it_priority a) (it_priority b)) as [|[|]]; try lia; tauto.
    + intros P [?|[? [?|(?&E&N)]]]; try lia. by apply N, str_leb_antisym.
  - split.
    + intros N. destruct (Z.lt_total (phase_order (it_phase a)) (phase_order (it_phase b))) as [|[|]];
        destruct (Z.lt_total (it_priority a) (it_priority b)) as [|[|]]; try lia; try tauto.
      right. split; [done|]. right. split; [done|].
      destruct (decide (it_title b = it_title a)) as [E|E].
      * rewrite E. destruct (str_leb_total (it_title a) (it_title a)); done.
      * exfalso. apply N. right. split; [done|]. right. done.
    + intros P [?|[? [?|(?&E&N)]]]; try lia.
      destruct P as [?|[? [?|(?&F)]]]; try lia. by apply N, str_leb_antisym.
Qed.

Lemma item_leb_trans a b c : item_leb a b = true -> item_leb b c = true -> item_leb a c = true.
Proof.
  rewrite !item_leb_spec. intros [?|[? [?|(?&E)]]] [?|[? [?|(?&F)]]]; try (left; lia);
    try (right; split; [lia|left; lia]).
  right. split; [lia|]. right. split; [lia|]. by eapply str_leb_trans.
Qed.

(** ** Registered items *)

(** Items registered by title: keys are the titles, without duplicates, in the
    closed set of slugs. *)
Definition known_item (i : item) : Prop :=
  is_Some (slug_for_title (it_title i)) /\ is_Some (alookup (it_phase i) PHASE_ORDER).

Definition registered (items : list (string * item)) : Prop :=
  NoDup items.*1 /\ Forall (fun kv => kv.1 = it_title kv.2 /\ known_item kv.2) items.

Lemma Forall_aset {V} (P : string * V -> Prop) k v d : P (k, v) -> Forall P d -> Forall P (aset k v d).
Proof.
  intros Hk. induction 1 as [|[k' v'] d H Hd IH]; simpl; [by constructor|].
  destruct (str_eqb k' k) eqn:E; [|by constructor].
  apply str_eqb_eq in E. subst. by constructor.
Qed.

Lemma add_candidate_registered items c :
  registered items -> known_item c -> registered (add_candidate items c).
Proof.
  intros [Hn Hf] Hc. unfold add_candidate. destruct (alookup (it_title c) items) as [old|] eqn:E.
  - destruct (key_lt c old); [|done]. split.
    + rewrite aset_keys by eauto. done.
    + by apply Forall_aset.
  - split.
    + rewrite fmap_app. apply NoDup_app. split; [done|]. split; [|apply NoDup_singleton].
      intros k Hk. simpl. rewrite list_elem_of_singleton. intros ->.
      apply alookup_in in Hk. rewrite E in Hk. by destruct Hk.
    + apply Forall_app. split; [done|]. by apply Forall_singleton.
Qed.

(** A title is registered after [add_candidate] iff it was, or is the new one. *)
Lemma add_candidate_titles items c t :
  t ∈ (add_candidate items c).*1 <-> t ∈ items.*1 \/ t = it_title c.
Proof.
  unfold add_candidate. destruct (alookup (it_title c) items) as [old|] eqn:E.
  - assert (H : it_title c ∈ items.*1) by (apply alookup_in; eauto).
    assert (K : (if key_lt c old then aset (it_title c) c items else items).*1 = items.*1)
      by (destruct (key_lt c old); [apply aset_keys; eauto|done]).
    rewrite K. split; [auto|intros [?| ->]; done].
  - rewrite fmap_app, elem_of_app. simpl. by rewrite list_elem_of_singleton.
Qed.

Lemma add_candidate_length items c :
  (length items <= length (add_candidate items c) <= S (length items))%nat.
Proof.
  unfold add_candidate. destruct (alookup (it_title c) items) as [old|] eqn:E.
  - assert (K : length (if key_lt c old then aset (it_title c) c items else items) = length items)
      by (rewrite <- !(length_fmap fst); destruct (key_lt c old); [by rewrite aset_keys by eauto|done]).
    lia.
  - rewrite length_app. simpl. lia.
Qed.

Definition conditional_add (items : list (string * item)) (bc : bool * item) : list (string * item) :=
  if bc.1 : bool then add_candidate items bc.2 else items.

Lemma fold_add_titles l items t :
  t ∈ (List.fold_left conditional_add l items).*1 <->
  t ∈ items.*1 \/ existsb (fun bc : bool * item => bc.1 && str_eqb (it_title bc.2) t) l = true.
Proof.
  revert items. induction l as [|[b c] l IH]; intros items; simpl; [intuition done|].
  rewrite IH, orb_true_iff, andb_true_iff, str_eqb_eq. unfold conditional_add. simpl.
  destruct b; [rewrite add_candidate_titles|]; intuition (congruence || auto).
Qed.

Lemma fold_add_registered l items :
  registered items -> Forall (fun bc : bool * item => known_item bc.2) l ->
  registered (List.fold_left conditional_add l items).
Proof.
  intros Hr Hl. revert items Hr. induction Hl as [|[b c] l Hc _ IH]; intros items Hr; simpl; [done|].
  apply IH. unfold conditional_add. simpl. destruct b; [by apply add_candidate_registered|done].
Qed.

Lemma fold_add_length l items :
  (length items <= length (List.fold_left conditional_add l items) <= length items + length l)%nat.
Proof.
  revert items. induction l as [|[b c] l IH]; intros items; simpl; [lia|].
  specialize (IH (conditional_add items (b, c))). pose proof (add_candidate_length items c).
  unfold conditional_add in *. simpl in *. destruct b; lia.
Qed.

Lemma candidate_table_titles s reasons :
  Forall (fun bc : bool * item => known_item bc.2) (candidate_table s reasons).
Proof. unfold candidate_table. cbv zeta. repeat (apply Forall_cons; split; [split; eexists; reflexivity|]). constructor. Qed.

Lemma driven_registered s reasons : registered (driven_items s reasons).
Proof.
  unfold driven_items. apply (fold_add_registered (candidate_table s reasons) []); [|apply candidate_table_titles].
  split; [constructor|constructor].
Qed.

Lemma driven_length s reasons : (length (driven_items s reasons) <= 11)%nat.
Proof. pose proof (fold_add_length (candidate_table s reasons) []) as H. simpl in H. apply H. Qed.

Lemma baseline_slugs b : b ∈ baseline -> known_item b.
Proof.
  intros H. unfold baseline in H. repeat (apply elem_of_cons in H as [->|H]; [split; eexists; reflexivity|]).
  by apply not_elem_of_nil in H.
Qed.

(** The baseline loop keeps registration, and stops at [min_items]. *)
Lemma baseline_fold min l items :
  (forall b, b ∈ l -> b ∈ baseline) -> registered items ->
  let r := List.fold_left (fun items b =>
    if min <=? Z.of_nat (length items) then items else add_candidate items b) l items in
  registered r /\ (length items <= length r)%nat /\
  Z.of_nat (length r) <= Z.max (Z.of_nat (length items)) min /\
  (forall t, t ∈ r.*1 -> t ∈ items.*1 \/ t ∈ it_title <$> l) /\ (forall t, t ∈ items.*1 -> t ∈ r.*1).
Proof.
  revert items. induction l as [|b l IH]; intros items Hl Hr; cbn [List.fold_left].
  { split; [done|]. split; [lia|]. split; [lia|]. auto. }
  destruct (Z.leb_spec min (Z.of_nat (length items))) as [H|H].
  - destruct (IH items (fun x Hx => Hl x (list_elem_of_further _ _ _ Hx)) Hr) as (?&?&?&T&U).
    split; [done|]. split; [done|]. split; [done|]. split; [|done].
    intros t Ht. destruct (T t Ht); [auto|right; by apply list_elem_of_further].
  - pose proof (add_candidate_length items b) as Hb.
    assert (Hr' : registered (add_candidate items b))
      by (apply add_candidate_registered; [done|apply baseline_slugs, Hl; constructor]).
    destruct (IH _ (fun x Hx => Hl x (list_elem_of_further _ _ _ Hx)) Hr') as (?&?&?&T&U).
    split; [done|]. split; [lia|]. split; [lia|]. split.
    + intros t Ht. destruct (T t Ht) as [Ht'|]; [|right; by apply list_elem_of_further].
      apply add_candidate_titles in Ht' as [| ->]; [auto|right; constructor].
    + intros t Ht. apply U, add_candidate_titles. auto.
Qed.

Lemma add_baseline_spec min items :
  registered items ->
  registered (add_baseline min items) /\ (length items <= length (add_baseline min items))%nat /\
  Z.of_nat (length (add_baseline min items)) <= Z.max (Z.of_nat (length items)) min /\
  (forall t, t ∈ (add_baseline min items).*1 -> t ∈ items.*1 \/ t ∈ it_title <$> baseline) /\
  (forall t, t ∈ items.*1 -> t ∈ (add_baseline min items).*1).
Proof. exact (baseline_fold min baseline items (fun _ H => H)). Qed.

Lemma governance_fold min items :
  registered items ->
  registered (add_governance min items) /\ (length items <= length (add_governance min items) <= S (length items))%nat /\
  (forall t, t ∈ (add_governance min items).*1 <-> t ∈ items.*1 \/ t = it_title governance).
Proof.
  intros Hr. unfold add_governance. pose proof (add_candidate_length items governance).
  destruct (negb _ || _) eqn:E.
  - split; [apply add_candidate_registered; [done|split; eexists; reflexivity]|].
    split; [lia|]. apply add_candidate_titles.
  - apply orb_false_iff in E as [E _]. apply negb_false_iff, bool_decide_eq_true in E.
    apply alookup_in in E. split; [done|]. split; [lia|]. intros t. split; [auto|intros [?| ->]; done].
Qed.

(** ** The whole roadmap *)

Lemma all_items_spec evidence drivers min :
  let items := all_items evidence drivers min in
  registered items /\ (1 <= length items)%nat /\ it_title governance ∈ items.*1 /\
  Z.of_nat (length items) <= Z.max 11 min + 1.
Proof.
  set (d := driven_items (read_signals evidence) (driver_reasons drivers)).
  pose proof (driven_registered (read_signals evidence) (driver_reasons drivers)) as Hd. fold d in Hd.
  pose proof (driven_length (read_signals evidence) (driver_reasons drivers)) as Hl. fold d in Hl.
  destruct (add_baseline_spec min d Hd) as (Hb & Hb1 & Hb2 & _ & _).
  destruct (governance_fold min _ Hb) as (Hg & Hg1 & Hg2).
  change (all_items evidence drivers min) with (add_governance min (add_baseline min d)).
  assert (G : it_title governance ∈ (add_governance min (add_baseline min d)).*1) by (apply Hg2; auto).
  split; [done|]. split; [|split; [done|lia]].
  destruct (add_governance min (add_baseline min d)); [by apply not_elem_of_nil in G|simpl; lia].
Qed.

Lemma registered_titles items : registered items -> it_title <$> items.*2 = items.*1.
Proof.
  intros [_ H]. induction H as [|[k i] l [E _] _ IH]; simpl; [done|]. simpl in E. subst k. f_equal. exact IH.
Qed.

Lemma fallback_fold min l items :
  let r := List.fold_left (fun items f =>
    if min <=? Z.of_nat (length items) then items
    else if forallb (fun e => negb (str_eqb (it_title e) (it_title f))) items then items ++ [f] else items) l items in
  NoDup (it_title <$> items) ->
  NoDup (it_title <$> r) /\ Z.of_nat (length r) <= Z.max (Z.of_nat (length items)) min /\
  exists fb, r = items ++ fb /\ forall f, f ∈ fb -> f ∈ l.
Proof.
  revert items. induction l as [|f l IH]; intros items; cbn [List.fold_left]; intros Hn.
  { split; [done|]. split; [lia|]. exists []. split; [by rewrite app_nil_r|]. intros f H. by apply not_elem_of_nil in H. }
  destruct (Z.leb_spec min (Z.of_nat (length items))).
  - destruct (IH items Hn) as (?&?&fb&E&Hf). split; [done|]. split; [done|]. exists fb. split; [done|].
    intros g Hg. right. auto.
  - destruct (forallb _ items) eqn:F.
    + assert (Hn' : NoDup (it_title <$> items ++ [f])).
      { rewrite fmap_app. apply NoDup_app. split; [done|]. split; [|apply NoDup_singleton].
        intros t Ht. simpl. rewrite list_elem_of_singleton. intros ->.
        apply list_elem_of_fmap in Ht as (e & E & He). rewrite forallb_forall in F.
        apply list_elem_of_In, F in He. rewrite E, str_eqb_refl in He. done. }
      destruct (IH _ Hn') as (?&Hl&fb&E&Hf). split; [done|].
      rewrite length_app in Hl. simpl in Hl. split; [lia|]. exists (f :: fb).
      rewrite E, <- app_assoc. split; [done|]. intros g Hg.
      apply elem_of_cons in Hg as [-> |Hg]; [left|right; auto].
    + destruct (IH items Hn) as (?&?&fb&E&Hf). split; [done|]. split; [done|]. exists fb. split; [done|].
      intros g Hg. right. auto.
Qed.

Lemma add_fallback_spec min items :
  NoDup (it_title <$> items) ->
  NoDup (it_title <$> add_fallback min items) /\
  Z.of_nat (length (add_fallback min items)) <= Z.max (Z.of_nat (length items)) min /\
  exists fb, add_fallback min items = items ++ fb /\ forall f, f ∈ fb -> f ∈ fallback.
Proof. exact (fallback_fold min fallback items). Qed.

Lemma fallback_items f : f ∈ fallback ->
  it_title f ∈ REMEDIATION_EXCLUDED_TITLES /\ is_Some (alookup (it_phase f) PHASE_ORDER).
Proof.
  intros H. unfold fallback in H.
  repeat (apply elem_of_cons in H as [->|H];
          [split; [apply (bool_decide_eq_true _); vm_compute; reflexivity|eexists; reflexivity]|]).
  by apply not_elem_of_nil in H.
Qed.

Lemma phase_counts_sum items :
  Forall (fun i => is_Some (alookup (it_phase i) PHASE_ORDER)) items ->
  phase_count items "NOW" + phase_count items "NEXT" + phase_count items "LATER" = Z.of_nat (length items).
Proof.
  unfold phase_count. induction 1 as [|i l Hi _ IH]; [done|]. cbn [List.filter length].
  assert (P : it_phase i = "NOW" \/ it_phase i = "NEXT" \/ it_phase i = "LATER").
  { apply alookup_in in Hi. unfold PHASE_ORDER in Hi. cbn in Hi. rewrite !elem_of_cons, elem_of_nil in Hi. tauto. }
  destruct P as [-> |[-> | ->]]; decide_literals; cbn [length]; lia.
Qed.

(** The items of a roadmap: a sorted part of the closed slug table, and the
    onboarding items of an estate without endpoints. *)
Lemma roadmap_items evidence drivers min_arg max_arg :
  let r := build_phased_roadmap evidence drivers min_arg max_arg in
  NoDup (it_title <$> rm_items r) /\
  exists main onboarding, rm_items r = main ++ onboarding /\ sorted_by item_leb main /\
    Forall known_item main /\ (1 <= length main)%nat /\
    Z.of_nat (length (main ++ onboarding)) <= Z.max (Z.max 1 min_arg) max_arg /\
    Forall (fun i => it_title i ∈ REMEDIATION_EXCLUDED_TITLES /\ is_Some (alookup (it_phase i) PHASE_ORDER)) onboarding /\
    (onboarding <> [] -> count_of (sub_mapping evidence "totals") "endpoints" = 0).
Proof.
  intros r. set (min := Z.max 1 min_arg). set (max := Z.max min max_arg).
  destruct (all_items_spec evidence drivers min) as (Hr & Hl & _ & _).
  set (items := all_items evidence drivers min) in *.
  set (main := take (Z.to_nat max) (py_sorted item_leb items.*2)).
  assert (Hperm : py_sorted item_leb items.*2 ≡ₚ items.*2) by apply py_sorted_perm.
  assert (Hn : NoDup (it_title <$> main)).
  { unfold main. rewrite fmap_take. eapply sublist_NoDup; [|apply sublist_take].
    rewrite Hperm, (registered_titles _ Hr). apply Hr. }
  assert (Hk : Forall known_item main).
  { unfold main. apply Forall_take. rewrite Hperm. apply Forall_fmap.
    eapply Forall_impl; [exact (proj2 Hr)|]. by intros [k i] [_ ?]. }
  assert (Hlen : (1 <= length main <= Z.to_nat max)%nat).
  { unfold main. rewrite length_take, Hperm, length_fmap. unfold max, min. lia. }
  assert (Hsort : sorted_by item_leb main)
    by (apply sorted_by_take, py_sorted_sorted; [apply item_leb_total|apply item_leb_trans]).
  destruct (add_fallback_spec min main Hn) as (Hn' & Hlen' & fb & Efb & Hfb).
  set (c := (s_endpoints (read_signals evidence) =? 0) && (Z.of_nat (length main) <? min)).
  assert (E : rm_items r = if c then add_fallback min main else main) by reflexivity.
  rewrite E. destruct c eqn:Ec.
  - apply andb_true_iff in Ec as [Ec _]. apply Z.eqb_eq in Ec. split; [done|].
    exists main, fb. split_and!; [done|done|done|lia| | |by intros _].
    + rewrite Efb in Hlen'. unfold max, min in *. lia.
    + apply Forall_forall; intros f Hf; by apply fallback_items, Hfb.
  - split; [done|]. exists main, []. rewrite app_nil_r.
    split_and!; [done|done|done|lia|unfold max, min in *; lia|constructor|done].
Qed.

(** Every roadmap has between one and [max_items] items with distinct
    titles, each a title of the closed slug table or one of the three onboarding
    titles (those only when no endpoint was observed); the rest is sorted by
    phase, priority and title, and the phase counts partition the items. *)
Theorem roadmap_well_formed evidence drivers min_arg max_arg :
  let r := build_phased_roadmap evidence drivers min_arg max_arg in
  rm_item_count r = Z.of_nat (length (rm_items r)) /\
  1 <= rm_item_count r <= Z.max (Z.max 1 min_arg) max_arg /\
  NoDup (it_title <$> rm_items r) /\
  (exists main onboarding, rm_items r = main ++ onboarding /\ sorted_by item_leb main /\
     Forall (fun i => is_Some (slug_for_title (it_title i))) main /\
     Forall (fun i => it_title i ∈ REMEDIATION_EXCLUDED_TITLES) onboarding /\
     (onboarding <> [] -> count_of (sub_mapping evidence "totals") "endpoints" = 0)) /\
  phase_count (rm_items r) "NOW" + phase_count (rm_items r) "NEXT" + phase_count (rm_items r) "LATER"
    = rm_item_count r.
Proof.
  intros r. destruct (roadmap_items evidence drivers min_arg max_arg)
    as (Hn & main & fb & E & Hsort & Hk & Hlen & Hmax & Hfb & Hz). fold r in Hn, E.
  change (rm_item_count r) with (Z.of_nat (length (rm_items r))). rewrite E in *.
  split; [done|]. split; [rewrite length_app in *; lia|]. split; [done|]. split.
  - exists main, fb. split_and!; [done|done| | |done];
      (eapply Forall_impl; [eassumption|]; by intros i [? _]).
  - apply phase_counts_sum, Forall_app.
    split; (eapply Forall_impl; [eassumption|]; by intros i [_ ?]).
Qed.

(** ** Which weaknesses get an item *)

(** The roadmap at the defaults of its callers. *)
Definition default_roadmap (evidence : pydict) (drivers : list (string * Z)) : roadmap :=
  build_phased_roadmap evidence drivers 6 12.

Definition titles (r : roadmap) : list string := it_title <$> rm_items r.

(** At the defaults nothing is cut: a title of the candidate table is listed
    exactly when its condition holds. *)
Lemma default_titles evidence drivers t :
  t ∉ it_title <$> baseline -> t ∉ it_title <$> fallback ->
  (t ∈ titles (default_roadmap evidence drivers)
   <-> existsb (fun bc : bool * item => bc.1 && str_eqb (it_title bc.2) t)
         (candidate_table (read_signals evidence) (driver_reasons drivers)) = true).
Proof.
  intros Hb Hf. unfold titles, default_roadmap, build_phased_roadmap. cbn [rm_items].
  change (Z.max 1 6) with 6. change (Z.max 6 12) with 12.
  destruct (all_items_spec evidence drivers 6) as (Hr & _ & _ & Hl).
  set (items := all_items evidence drivers 6) in *.
  rewrite (take_ge (py_sorted item_leb items.*2))
    by (rewrite py_sorted_perm, length_fmap; lia).
  set (main := py_sorted item_leb items.*2).
  assert (M : t ∈ it_title <$> main <-> t ∈ items.*1)
    by (unfold main; rewrite py_sorted_perm, (registered_titles _ Hr); done).
  assert (Hn : NoDup (it_title <$> main))
    by (unfold main; rewrite py_sorted_perm, (registered_titles _ Hr); apply Hr).
  assert (F : t ∈ it_title <$> (if (s_endpoints (read_signals evidence) =? 0) && (Z.of_nat (length main) <? 6)
                                then add_fallback 6 main else main) <-> t ∈ items.*1).
  { destruct (_ && _); [|done]. rewrite <- M.
    destruct (add_fallback_spec 6 main Hn) as (_ & _ & fb & E & Hfb).
    rewrite E, fmap_app, elem_of_app. split; [|auto]. intros [?|H]; [done|].
    apply list_elem_of_fmap in H as (f & -> & H'). exfalso. apply Hf, list_elem_of_fmap. eauto. }
  rewrite F. set (d := driven_items (read_signals evidence) (driver_reasons drivers)).
  pose proof (driven_registered (read_signals evidence) (driver_reasons drivers)) as Hd. fold d in Hd.
  destruct (add_baseline_spec 6 d Hd) as (Hbr & _ & _ & Hb1 & Hb2).
  destruct (governance_fold 6 _ Hbr) as (_ & _ & Hg).
  change items with (add_governance 6 (add_baseline 6 d)). rewrite Hg.
  assert (G : t <> it_title governance) by (intros ->; apply Hb; do 2 right; left).
  assert (D : t ∈ d.*1 <-> existsb (fun bc : bool * item => bc.1 && str_eqb (it_title bc.2) t)
                             (candidate_table (read_signals evidence) (driver_reasons drivers)) = true).
  { unfold d, driven_items. rewrite (fold_add_titles _ []).
    split; [intros [H|H]; [by apply not_elem_of_nil in H|exact H]|auto]. }
  rewrite <- D. split; [intros [H| ?]; [|done]; destruct (Hb1 t H); [done|by exfalso]|auto].
Qed.

Lemma str_in_false s l : str_in s l = false -> s ∉ l.
Proof. apply bool_decide_eq_false. Qed.

Ltac item_listed :=
  rewrite default_titles by (apply str_in_false; vm_compute; reflexivity);
  unfold candidate_table; cbn [existsb fst snd it_title candidate]; decide_literals;
  rewrite ?andb_false_r, ?andb_true_r, ?orb_false_r, ?orb_false_l, ?orb_true_iff, ?Z.ltb_lt.


(** ** Size *)

Definition fired (evidence : pydict) (drivers : list (string * Z)) : Z :=
  Z.of_nat (length (List.filter fst (candidate_table (read_signals evidence) (driver_reasons drivers)))).

Lemma add_new items c :
  it_title c ∉ items.*1 -> add_candidate items c = items ++ [(it_title c, c)].
Proof.
  intros H. unfold add_candidate. destruct (alookup (it_title c) items) eqn:E; [|done].
  exfalso. apply H, alookup_in. eauto.
Qed.

Lemma fold_add_distinct l items :
  NoDup (items.*1 ++ (it_title <$> l.*2)) ->
  length (List.fold_left conditional_add l items) = (length items + length (List.filter fst l))%nat.
Proof.
  revert items. induction l as [|[b c] l IH]; intros items Hn; cbn [List.fold_left List.filter fst].
  { simpl. lia. }
  destruct b; unfold conditional_add at 2; cbn [fst snd].
  - rewrite add_new.
    + rewrite IH; [rewrite length_app; simpl; lia|].
      rewrite fmap_app, <- app_assoc. exact Hn.
    + apply NoDup_app in Hn as (_ & Hd & _). intros H. apply (Hd _ H). left.
  - rewrite IH; [done|]. apply NoDup_app in Hn as (H1 & H2 & H3).
    apply NoDup_cons in H3 as [_ H3]. apply NoDup_app. split; [done|]. split; [|done].
    intros x Hx Hin. apply (H2 x Hx). by right.
Qed.

Lemma driven_fired evidence drivers :
  Z.of_nat (length (driven_items (read_signals evidence) (driver_reasons drivers))) = fired evidence drivers.
Proof.
  unfold driven_items, fired. f_equal.
  refine (fold_add_distinct (candidate_table (read_signals evidence) (driver_reasons drivers)) [] _).
  apply (bool_decide_eq_true _). unfold candidate_table. cbn [fmap list_fmap snd it_title candidate app].
  vm_compute. reflexivity.
Qed.

(** No weakness item has a baseline title. *)
Lemma driven_baseline evidence drivers t :
  t ∈ it_title <$> baseline -> t ∉ (driven_items (read_signals evidence) (driver_reasons drivers)).*1.
Proof.
  intros Ht. unfold driven_items. rewrite (fold_add_titles _ []).
  intros [H|H]; [by apply not_elem_of_nil in H|].
  assert (T : existsb (fun bc : bool * item => bc.1 && str_eqb (it_title bc.2) t)
                (candidate_table (read_signals evidence) (driver_reasons drivers)) = false).
  { cbn [baseline fmap list_fmap] in Ht.
    repeat (apply elem_of_cons in Ht as [->|Ht];
            [unfold candidate_table; cbn [existsb fst snd it_title candidate governance]; decide_literals;
             by rewrite ?andb_false_r|]).
    by apply not_elem_of_nil in Ht. }
  congruence.
Qed.

(** The number of items before the onboarding fallback. *)
Definition expected_size (k : Z) : Z := if k <=? 3 then k + 3 else if k <=? 5 then 7 else k + 1.

Lemma baseline_step min items b :
  it_title b ∉ items.*1 ->
  let r := if min <=? Z.of_nat (length items) then items else add_candidate items b in
  Z.of_nat (length r) = (if min <=? Z.of_nat (length items) then 0 else 1) + Z.of_nat (length items) /\
  (forall t, t ∈ r.*1 <-> t ∈ items.*1 \/ (Z.of_nat (length items) < min /\ t = it_title b)).
Proof.
  intros Hb. destruct (Z.leb_spec min (Z.of_nat (length items))) as [H|H]; simpl.
  - split; [lia|]. intros t. split; [auto|intros [?|[? _]]; [done|lia]].
  - rewrite add_new by done. split; [rewrite length_app; simpl; lia|].
    intros t. rewrite fmap_app, elem_of_app. simpl. rewrite list_elem_of_singleton. intuition.
Qed.

Lemma governance_size items :
  Z.of_nat (length (add_governance 6 items)) =
    Z.of_nat (length items) + (if bool_decide (it_title governance ∈ items.*1) then 0 else 1).
Proof.
  unfold add_governance. case_bool_decide as H.
  - rewrite bool_decide_eq_true_2 by (by apply alookup_in). cbn [negb orb].
    destruct (Z.of_nat (length items) <? 6); [|lia].
    assert (E : length (add_candidate items governance) = length items); [|lia].
    rewrite <- !(length_fmap fst).
    destruct H as [old E]. unfold add_candidate. rewrite E.
    destruct (key_lt governance old); [by rewrite aset_keys by eauto|done].
  - rewrite bool_decide_eq_false_2 by (intros H'; by apply H, alookup_in). cbn [negb orb].
    rewrite add_new, length_app by (intros H'; by apply H, alookup_in). simpl. lia.
Qed.

Lemma all_items_size evidence drivers :
  Z.of_nat (length (all_items evidence drivers 6)) = expected_size (fired evidence drivers).
Proof.
  rewrite <- driven_fired. unfold all_items. rewrite governance_size.
  set (d := driven_items (read_signals evidence) (driver_reasons drivers)).
  assert (B : forall t, t ∈ it_title <$> baseline -> t ∉ d.*1) by apply driven_baseline.
  clearbody d. unfold add_baseline, baseline. cbn [List.fold_left].
  match goal with |- context [add_candidate d ?b] => set (b1 := b) end.
  destruct (baseline_step 6 d b1 (B _ ltac:(left))) as [L1 T1].
  set (d1 := if 6 <=? Z.of_nat (length d) then d else add_candidate d b1) in *. clearbody d1.
  match goal with |- context [add_candidate d1 ?b] => set (b2 := b) end.
  destruct (baseline_step 6 d1 b2) as [L2 T2].
  { rewrite T1. intros [H|[_ H]]; [by apply (B _ ltac:(right; left))|discriminate H]. }
  set (d2 := if 6 <=? Z.of_nat (length d1) then d1 else add_candidate d1 b2) in *. clearbody d2.
  assert (G2 : it_title governance ∉ d2.*1).
  { rewrite T2, T1. intros [[H|[_ H]]|[_ H]]; [|discriminate H..].
    by apply (B _ ltac:(right; right; left)). }
  destruct (baseline_step 6 d2 governance G2) as [L3 T3].
  set (d3 := if 6 <=? Z.of_nat (length d2) then d2 else add_candidate d2 governance) in *. clearbody d3.
  rewrite L3. unfold expected_size.
  destruct (Z.leb_spec 6 (Z.of_nat (length d2))) as [H2|H2].
  - rewrite bool_decide_eq_false_2 by (rewrite T3; intros [?|[? _]]; [done|lia]).
    destruct (Z.leb_spec 6 (Z.of_nat (length d))), (Z.leb_spec 6 (Z.of_nat (length d1))),
      (Z.leb_spec (Z.of_nat (length d)) 3), (Z.leb_spec (Z.of_nat (length d)) 5); lia.
  - rewrite bool_decide_eq_true_2 by (rewrite T3; auto).
    destruct (Z.leb_spec 6 (Z.of_nat (length d))), (Z.leb_spec 6 (Z.of_nat (length d1))),
      (Z.leb_spec (Z.of_nat (length d)) 3), (Z.leb_spec (Z.of_nat (length d)) 5); lia.
Qed.

(** The size of the default roadmap of a scan that observed endpoints is
    determined by the number of weaknesses that fired: with at most two it stays
    below the advertised minimum of six (three items for a clean estate). *)
Theorem roadmap_size evidence drivers :
  count_of (sub_mapping evidence "totals") "endpoints" <> 0 ->
  rm_item_count (default_roadmap evidence drivers) = expected_size (fired evidence drivers) /\
  (rm_item_count (default_roadmap evidence drivers) < 6 <-> fired evidence drivers <= 2).
Proof.
  intros He. unfold default_roadmap, build_phased_roadmap. cbn [rm_item_count].
  change (Z.max 1 6) with 6. change (Z.max 6 12) with 12.
  change (s_endpoints (read_signals evidence)) with (count_of (sub_mapping evidence "totals") "endpoints").
  rewrite (proj2 (Z.eqb_neq _ 0) He). cbn [andb].
  pose proof (all_items_size evidence drivers) as Hs.
  destruct (all_items_spec evidence drivers 6) as (_ & _ & _ & Hl).
  rewrite length_take, py_sorted_perm, length_fmap.
  assert (E : Z.of_nat (Z.to_nat 12 `min` length (all_items evidence drivers 6))
              = expected_size (fired evidence drivers)) by lia.
  rewrite E. split; [done|]. unfold expected_size, fired.
  repeat match goal with |- context [?a <=? ?b] => destruct (Z.leb_spec a b) end; lia.
Qed.

Lemma roadmap_size_witness :
  rm_item_count (default_roadmap [("totals", VDict [("endpoints", VInt 4)])] []) = 3.
Proof.
  destruct (roadmap_size [("totals", VDict [("endpoints", VInt 4)])] []) as [H _]; [vm_compute; discriminate|].
  rewrite H. vm_compute. reflexivity.
Defined.
