(* ===== verification/ScoreLift.v ===== *)
(** Score lifts: [src/quirk/intelligence/score_lift.py].

    A lift re-scores a copy of the evidence in which one roadmap item is
    resolved. The nine mutators, the per-item lifts and the aggregate
    projection, all built on [Scoring.compute_readiness_score]. *)
From Stdlib Require Import ZArith QArith Lia Lqa Ascii.
From stdpp Require Import base tactics gmap sets strings list pretty.
From S2P Require Import Prelude PyFloat PyVal Bands Scoring ScoringTheory ScoringProps Model Evidence EvidenceTheory Remediation Roadmap.

Local Open Scope Z_scope.
Local Open Scope quirk_scope.

(** [_ensure] and a change of the sub-dictionary it returns. *)
Definition update_sub (evidence : pydict) (key : string) (f : pydict -> pydict) : pydict :=
  dict_set evidence key (VDict (f (sub_mapping evidence key))).

Definition set_key (k : string) (v : pyval) (d : pydict) : pydict := dict_set d k v.

(** [_zero]. *)
Definition zero_keys (keys : list string) (sev : pydict) : pydict :=
  List.fold_left (fun d k => dict_set d k (VInt 0)) keys sev.

Definition has_key (d : pydict) (k : string) : bool :=
  match dict_get d k with Some _ => true | None => false end.

(** The severity dictionaries, the scored one only when it is present. *)
Definition zero_severities (keys : list string) (evidence : pydict) : pydict :=
  let e1 := update_sub evidence "finding_severity_counts" (zero_keys keys) in
  if has_key e1 "scored_finding_severity_counts"
  then update_sub e1 "scored_finding_severity_counts" (zero_keys keys) else e1.

Definition resolve_plaintext_http_exposure (evidence : pydict) : pydict :=
  dict_set (dict_set evidence "plaintext_http_count" (VInt 0)) "http_on_tls_port_count" (VInt 0).

Definition resolve_high_impact_findings (evidence : pydict) : pydict :=
  zero_severities ["HIGH"; "CRITICAL"] evidence.

Definition resolve_expired_certificates (evidence : pydict) : pydict :=
  update_sub evidence "certificate_observations" (set_key "expired_count" (VInt 0)).

Definition resolve_near_expiry_certificates (evidence : pydict) : pydict :=
  update_sub evidence "certificate_observations" (set_key "expiring_count" (VInt 0)).

Definition resolve_self_signed_certificates (evidence : pydict) : pydict :=
  update_sub evidence "certificate_observations" (set_key "self_signed_count" (VInt 0)).

Definition resolve_scan_reliability (evidence : pydict) : pydict :=
  update_sub evidence "scan_error" (fun d => dict_set (dict_set d "rate" (VFloat 0)) "count" (VInt 0)).

Definition resolve_unknown_open_services (evidence : pydict) : pydict :=
  update_sub evidence "protocol_counts" (set_key "UNKNOWN" (VInt 0)).

Definition resolve_legacy_tls_versions (evidence : pydict) : pydict :=
  zero_severities ["LOW"] evidence.

(** [int(v or 0)], zero when it raises. *)
Definition int_or_zero (v : pyval) : Z := if truthy v then as_int v else 0.

Definition resolve_ecdsa_adoption_planning (evidence : pydict) : pydict :=
  let nonneg d k := Z.max 0 (int_or_zero (get_or d k (VInt 0))) in
  let certs_observed := nonneg (sub_mapping evidence "certificate_observations") "certs_observed" in
  update_sub evidence "cert_key_type_counts" (fun keys =>
    let classical := nonneg keys "RSA" + nonneg keys "ECDSA" in
    dict_set (dict_set (dict_set keys "RSA" (VInt 0)) "ECDSA" (VInt 0))
             "PQC" (VInt (Z.max 1 (Z.max classical certs_observed)))).

Definition DELTAS : list (string * (pydict -> pydict)) :=
  [("plaintext-http-exposure", resolve_plaintext_http_exposure);
   ("high-impact-findings", resolve_high_impact_findings);
   ("expired-certificates", resolve_expired_certificates);
   ("near-expiry-certificates", resolve_near_expiry_certificates);
   ("self-signed-certificates", resolve_self_signed_certificates);
   ("scan-reliability", resolve_scan_reliability);
   ("unknown-open-services", resolve_unknown_open_services);
   ("legacy-tls-versions", resolve_legacy_tls_versions);
   ("ecdsa-adoption-planning", resolve_ecdsa_adoption_planning)].

(** [_slugs_for_items] and [dict.fromkeys]: slugs in order, first occurrence kept. *)
Definition slugs_for_items (titles : list (option string)) : list string :=
  omap (fun t => match t with Some title => slug_for_title title | None => None end) titles.

Fixpoint unique (seen l : list string) : list string :=
  match l with
  | [] => []
  | x :: l' => if str_in x seen then unique seen l' else x :: unique (x :: seen) l'
  end.

Definition item_slugs (titles : list (option string)) : list string := unique [] (slugs_for_items titles).

Section Lifts.
Context (profile : option string) (overrides : pydict).

Definition rescore (evidence : pydict) : pyres score_result :=
  compute_readiness_score evidence profile overrides.

Definition lift_step (evidence : pydict) (base : Z) (lifts : list (string * Z)) (slug : string)
  : pyres (list (string * Z)) :=
  match alookup slug DELTAS with
  | None => Ok lifts
  | Some mutator =>
      let! projected := rescore (mutator evidence) in
      match r_score projected with
      | None => Ok lifts
      | Some p => let delta := p - base in
                  if 0 <? delta then Ok (lifts ++ [(slug, delta)]) else Ok lifts
      end
  end.

Definition compute_item_lifts (evidence : pydict) (titles : list (option string))
  : pyres (list (string * Z)) :=
  let! base := rescore evidence in
  match r_score base with
  | None => Ok []
  | Some base_score => pfold (lift_step evidence base_score) [] (item_slugs titles)
  end.

Definition resolve_all (evidence : pydict) (slugs : list string) : pydict :=
  List.fold_left (fun e slug => match alookup slug DELTAS with Some f => f e | None => e end) slugs evidence.

Definition compute_projected_score (evidence : pydict) (titles : list (option string)) : pyres (option Z) :=
  let! base := rescore evidence in
  match r_score base with
  | None => Ok None
  | Some _ =>
      let! projected := rescore (resolve_all evidence (item_slugs titles)) in
      Ok (r_score projected)
  end.
End Lifts.

(** * Lemmas *)

Lemma dict_get_set d k v k' : dict_get (dict_set d k v) k' = if str_eqb k k' then Some v else dict_get d k'.
Proof.
  unfold dict_get, dict_set. rewrite alookup_aset. destruct (decide (k = k')) as [->|H].
  - by rewrite str_eqb_refl.
  - by rewrite (proj2 (str_eqb_neq k k')).
Qed.

Lemma get_or_set d k v k' dflt :
  get_or (dict_set d k v) k' dflt = if str_eqb k k' then v else get_or d k' dflt.
Proof. unfold get_or. rewrite dict_get_set. by destruct (str_eqb k k'). Qed.

Lemma count_of_set d k z k' :
  count_of (dict_set d k (VInt z)) k' = if str_eqb k k' then Z.max 0 z else count_of d k'.
Proof. unfold count_of. rewrite get_or_set. by destruct (str_eqb k k'). Qed.

Lemma raw_count_set d k z k' :
  raw_count (dict_set d k (VInt z)) k' = if str_eqb k k' then z else raw_count d k'.
Proof. unfold raw_count. rewrite get_or_set. by destruct (str_eqb k k'). Qed.

Lemma sub_mapping_set d k m k' :
  sub_mapping (dict_set d k (VDict m)) k' = if str_eqb k k' then m else sub_mapping d k'.
Proof. unfold sub_mapping. rewrite dict_get_set. by destruct (str_eqb k k'). Qed.

Lemma sub_mapping_set_int d k z k' :
  sub_mapping (dict_set d k (VInt z)) k' = if str_eqb k k' then [] else sub_mapping d k'.
Proof. unfold sub_mapping. rewrite dict_get_set. by destruct (str_eqb k k'). Qed.

(** [count_of] reads only the entry of its key. *)
Lemma count_of_set_dict d k m k' :
  str_eqb k k' = false -> count_of (dict_set d k (VDict m)) k' = count_of d k'.
Proof. intros H. unfold count_of. by rewrite get_or_set, H. Qed.

Lemma riskier_refl i : riskier i i.
Proof. constructor; auto; lia. Qed.

Lemma riskier_trans a b c : riskier a b -> riskier b c -> riskier a c.
Proof.
  intros [] []. constructor; try (etransitivity; eassumption); try (by eauto 3); congruence.
Qed.

Lemma int_or_zero_as_int v : int_or_zero v = as_int v.
Proof.
  unfold int_or_zero. destruct v as [|[]|z|q|s|l|d]; simpl; try done.
  - destruct (Z.eqb_spec z 0); simpl; congruence.
  - destruct (Qeq_bool q 0) eqn:E; simpl; [|done]. apply Qeq_bool_iff in E.
    unfold Qeq in E. simpl in E. unfold int_of_float. assert (Qnum q = 0) as -> by lia. reflexivity.
  - by destruct s.
  - by destruct l.
  - by destruct d.
Qed.

Lemma raw_count_set_dict d k m k' :
  str_eqb k k' = false -> raw_count (dict_set d k (VDict m)) k' = raw_count d k'.
Proof. intros H. unfold raw_count. by rewrite get_or_set, H. Qed.

Lemma scored_set e k v :
  str_in k ["scored_finding_severity_counts"; "finding_severity_counts"] = false ->
  scored_severity_counts (dict_set e k v) = scored_severity_counts e.
Proof.
  intros H. apply bool_decide_eq_false in H. unfold scored_severity_counts, sub_mapping.
  rewrite !dict_get_set, !(proj2 (str_eqb_neq k _)) by set_solver. done.
Qed.

(** Every field of the counters of a mutated evidence, by the lookup lemmas. *)
Ltac read_mutated :=
  cbn [read_inputs i_plaintext_http i_http_on_tls i_mtls i_scan_errors i_unknown i_legacy_tls
    i_expired i_expiring i_self_signed i_rsa i_ecdsa i_pqc_cert i_cert_denom i_kerberos i_saml i_dnssec
    i_smime_signing i_smime_expired i_smime_key i_adcs_template i_adcs_misconfig i_adcs_signing i_adcs_gap
    i_db_plaintext i_db_weak_ssl i_storage_unencrypted i_storage_aws i_k8s_unencrypted i_k8s_inaccessible
    i_vault_weak i_email_plaintext i_email_cipher i_broker_plaintext i_broker_tls i_broker_cipher
    i_pqc_hybrid i_jwt i_openapi i_codesign i_fuzz i_critical i_high i_endpoints_assessed
    i_identity_assessed i_dar_assessed i_motion_assessed];
  unfold update_sub, set_key, endpoint_denom;
  repeat (progress
    (repeat first
      [ rewrite sub_mapping_set | rewrite sub_mapping_set_int
      | rewrite count_of_set | rewrite raw_count_set
      | rewrite count_of_set_dict by (vm_compute; reflexivity)
      | rewrite raw_count_set_dict by (vm_compute; reflexivity)
      | rewrite scored_set by (vm_compute; reflexivity)
      | rewrite get_or_set ]); decide_literals; cbn match).

(** The identity gate does not read the UNKNOWN count, nor the certificate
    counts other than the number observed. *)
Lemma identity_assessed_ext cert cert' pc pc' p e :
  get_or cert "certs_observed" (VInt 0) = get_or cert' "certs_observed" (VInt 0) ->
  (forall k, k ∈ IDENTITY_PROTOCOL_KEYS -> count_of pc k = count_of pc' k) ->
  identity_assessed cert pc p e = identity_assessed cert' pc' p e.
Proof.
  intros Hc Hp. unfold identity_assessed. rewrite Hc. destruct (0 <? _); [done|].
  do 2 f_equal. apply list_fmap_ext. intros i k Hk. unfold identity_value.
  by rewrite Hp by (by eapply list_elem_of_lookup_2).
Qed.

Lemma sum_raw_ext (keys : list string) pc pc' :
  (forall k, k ∈ keys -> raw_count pc k = raw_count pc' k) ->
  (0 <? sum_Z (raw_count pc <$> keys)) = (0 <? sum_Z (raw_count pc' <$> keys)).
Proof.
  intros H. do 2 f_equal. apply list_fmap_ext. intros i k Hk. apply H. by eapply list_elem_of_lookup_2.
Qed.

(** A mutated evidence is at most as risky: the fields the tactic decides, the
    gates by extensionality. *)
Ltac less_risky :=
  constructor; unfold pqc_seen, key_penalised; read_mutated;
  try lia; try (intros; assumption); try reflexivity;
  try (change (Z.max 0 0) with 0; apply count_of_nonneg);
  try (apply identity_assessed_ext; intros; rewrite ?get_or_set; decide_literals; reflexivity).

Lemma resolve_plaintext_less_risky e : riskier (read_inputs (resolve_plaintext_http_exposure e)) (read_inputs e).
Proof. unfold resolve_plaintext_http_exposure. less_risky. Qed.

Lemma resolve_expired_less_risky e : riskier (read_inputs (resolve_expired_certificates e)) (read_inputs e).
Proof. unfold resolve_expired_certificates. less_risky. Qed.

Lemma resolve_expiring_less_risky e : riskier (read_inputs (resolve_near_expiry_certificates e)) (read_inputs e).
Proof. unfold resolve_near_expiry_certificates. less_risky. Qed.

Lemma resolve_self_signed_less_risky e : riskier (read_inputs (resolve_self_signed_certificates e)) (read_inputs e).
Proof. unfold resolve_self_signed_certificates. less_risky. Qed.

Lemma resolve_scan_less_risky e : riskier (read_inputs (resolve_scan_reliability e)) (read_inputs e).
Proof. unfold resolve_scan_reliability. less_risky. Qed.

Lemma resolve_unknown_less_risky e : riskier (read_inputs (resolve_unknown_open_services e)) (read_inputs e).
Proof.
  assert (U : forall k l, str_in "UNKNOWN" l = false -> k ∈ l -> str_eqb "UNKNOWN" k = false).
  { intros k l Hl Hk. apply str_eqb_neq. intros <-. apply bool_decide_eq_false in Hl. done. }
  unfold resolve_unknown_open_services. less_risky.
  - apply identity_assessed_ext; [done|]. intros k Hk.
    by rewrite count_of_set, (U k IDENTITY_PROTOCOL_KEYS) by (exact Hk || vm_compute; reflexivity).
  - unfold dar_assessed. apply sum_raw_ext. intros k Hk.
    by rewrite raw_count_set, (U k DAR_PROTOCOL_KEYS) by (exact Hk || vm_compute; reflexivity).
  - unfold motion_assessed. apply sum_raw_ext. intros k Hk.
    by rewrite raw_count_set, (U k MOTION_PROTOCOL_KEYS) by (exact Hk || vm_compute; reflexivity).
Qed.

Lemma resolve_ecdsa_less_risky e : riskier (read_inputs (resolve_ecdsa_adoption_planning e)) (read_inputs e).
Proof.
  unfold resolve_ecdsa_adoption_planning. rewrite !int_or_zero_as_int.
  constructor; unfold pqc_seen, key_penalised; read_mutated;
    try lia; try (intros; assumption); try reflexivity.
  intros H. exfalso. apply orb_true_iff in H as [H|H]; [discriminate H|]. apply Z.ltb_lt in H.
  unfold count_of in H. lia.
Qed.

(** ** Zeroing severities *)

Lemma get_zero_keys keys d k :
  get_or (zero_keys keys d) k (VInt 0) = if str_in k keys then VInt 0 else get_or d k (VInt 0).
Proof.
  unfold zero_keys. revert d. induction keys as [|x keys IH]; intros d; [reflexivity|].
  cbn [List.fold_left]. rewrite IH, get_or_set.
  unfold str_in. destruct (decide (k = x)) as [->|Hne].
  - rewrite str_eqb_refl, (bool_decide_eq_true_2 (x ∈ x :: keys)) by left. by destruct (bool_decide _).
  - rewrite (proj2 (str_eqb_neq x k)) by done.
    rewrite (bool_decide_ext (k ∈ x :: keys) (k ∈ keys)); [done|].
    rewrite elem_of_cons. naive_solver.
Qed.

(** The scored severities of the mutated evidence: the old ones zeroed, or,
    when the scored entry was not a dictionary, zeros only. *)
Lemma scored_zero_severities keys e :
  exists d, scored_severity_counts (zero_severities keys e) = zero_keys keys d /\
            (d = scored_severity_counts e \/ d = []).
Proof.
  unfold zero_severities, has_key, update_sub.
  set (e1 := dict_set e "finding_severity_counts" _).
  assert (G : dict_get e1 "scored_finding_severity_counts" = dict_get e "scored_finding_severity_counts")
    by (unfold e1; rewrite dict_get_set; decide_literals; done).
  rewrite G. destruct (dict_get e "scored_finding_severity_counts") as [v|] eqn:E.
  - exists (sub_mapping e1 "scored_finding_severity_counts"). split.
    + unfold scored_severity_counts at 1. rewrite dict_get_set, str_eqb_refl. done.
    + unfold sub_mapping. rewrite G. unfold scored_severity_counts. rewrite E.
      destruct v; auto.
  - exists (sub_mapping e "finding_severity_counts"). unfold scored_severity_counts. rewrite G, ?E.
    split; [|auto]. unfold e1. rewrite sub_mapping_set, str_eqb_refl. done.
Qed.

Lemma zero_severities_count keys e k :
  count_of (scored_severity_counts (zero_severities keys e)) k <= count_of (scored_severity_counts e) k.
Proof.
  destruct (scored_zero_severities keys e) as (d & -> & Hd). unfold count_of. rewrite get_zero_keys.
  destruct (str_in k keys); [simpl; lia|]. destruct Hd as [-> | ->]; [done|].
  change (get_or [] k (VInt 0)) with (VInt 0). simpl. lia.
Qed.

Lemma legacy_tls_read e :
  i_legacy_tls (read_inputs e) =
    match dict_get e "legacy_tls_count" with
    | Some v => Z.max 0 (as_int v)
    | None => count_of (scored_severity_counts e) "LOW"
    end.
Proof. cbn [read_inputs i_legacy_tls]. unfold get_or at 1. by destruct (dict_get e "legacy_tls_count"). Qed.

(** Entries other than the two severity dictionaries are kept. *)
Section Kept.
Context (keys : list string) (e : pydict) (k : string).
Hypothesis Hk : str_in k ["scored_finding_severity_counts"; "finding_severity_counts"] = false.

Lemma zero_severities_get : dict_get (zero_severities keys e) k = dict_get e k.
Proof using Hk.
  apply bool_decide_eq_false in Hk. unfold zero_severities, update_sub.
  destruct (has_key _ _); rewrite !dict_get_set, !(proj2 (str_eqb_neq _ k)) by set_solver; done.
Qed.

Lemma zero_severities_sub : sub_mapping (zero_severities keys e) k = sub_mapping e k.
Proof using Hk. unfold sub_mapping. by rewrite zero_severities_get. Qed.

Lemma zero_severities_get_or d : get_or (zero_severities keys e) k d = get_or e k d.
Proof using Hk. unfold get_or. by rewrite zero_severities_get. Qed.

Lemma zero_severities_count_of : count_of (zero_severities keys e) k = count_of e k.
Proof using Hk. unfold count_of. by rewrite zero_severities_get_or. Qed.

Lemma zero_severities_raw : raw_count (zero_severities keys e) k = raw_count e k.
Proof using Hk. unfold raw_count. by rewrite zero_severities_get_or. Qed.
End Kept.

(** Every field but the severities and the legacy TLS count is unchanged. *)
Ltac read_zeroed :=
  cbn [read_inputs i_plaintext_http i_http_on_tls i_mtls i_scan_errors i_unknown
    i_expired i_expiring i_self_signed i_rsa i_ecdsa i_pqc_cert i_cert_denom i_kerberos i_saml i_dnssec
    i_smime_signing i_smime_expired i_smime_key i_adcs_template i_adcs_misconfig i_adcs_signing i_adcs_gap
    i_db_plaintext i_db_weak_ssl i_storage_unencrypted i_storage_aws i_k8s_unencrypted i_k8s_inaccessible
    i_vault_weak i_email_plaintext i_email_cipher i_broker_plaintext i_broker_tls i_broker_cipher
    i_pqc_hybrid i_jwt i_openapi i_codesign i_fuzz i_critical i_high i_endpoints_assessed
    i_identity_assessed i_dar_assessed i_motion_assessed];
  unfold endpoint_denom;
  repeat first
    [ rewrite zero_severities_sub by (vm_compute; reflexivity)
    | rewrite zero_severities_count_of by (vm_compute; reflexivity)
    | rewrite zero_severities_raw by (vm_compute; reflexivity)
    | rewrite zero_severities_get_or by (vm_compute; reflexivity) ].

Lemma zero_severities_less_risky keys e : riskier (read_inputs (zero_severities keys e)) (read_inputs e).
Proof.
  assert (L : i_legacy_tls (read_inputs (zero_severities keys e)) <= i_legacy_tls (read_inputs e)).
  { rewrite !legacy_tls_read, zero_severities_get by (vm_compute; reflexivity).
    destruct (dict_get e "legacy_tls_count"); [done|apply zero_severities_count]. }
  constructor; try exact L; unfold pqc_seen, key_penalised; read_zeroed;
    try lia; try (intros; assumption); try reflexivity; apply zero_severities_count.
Qed.

Lemma deltas_less_risky slug f e : alookup slug DELTAS = Some f -> riskier (read_inputs (f e)) (read_inputs e).
Proof.
  intros H. apply alookup_elem in H. unfold DELTAS in H.
  repeat (apply elem_of_cons in H as [[= -> ->]|H];
    [first [ apply resolve_plaintext_less_risky | apply (zero_severities_less_risky ["HIGH"; "CRITICAL"])
           | apply resolve_expired_less_risky | apply resolve_expiring_less_risky
           | apply resolve_self_signed_less_risky | apply resolve_scan_less_risky
           | apply resolve_unknown_less_risky | apply (zero_severities_less_risky ["LOW"])
           | apply resolve_ecdsa_less_risky ]|]).
  by apply not_elem_of_nil in H.
Qed.

Lemma resolve_all_less_risky slugs e : riskier (read_inputs (resolve_all e slugs)) (read_inputs e).
Proof.
  unfold resolve_all. revert e. induction slugs as [|slug slugs IH]; intros e; cbn [List.fold_left].
  - apply riskier_refl.
  - destruct (alookup slug DELTAS) as [f|] eqn:E; [|apply IH].
    eapply riskier_trans; [apply IH|]. by eapply deltas_less_risky.
Qed.

(** The score of a less risky evidence: defined when the other is, and at least as high. *)
Lemma less_risky_score e f profile s r :
  riskier (read_inputs e) (read_inputs f) ->
  compute_readiness_score f profile [] = Ok r -> r_score r = Some s ->
  exists r' s', compute_readiness_score e profile [] = Ok r' /\ r_score r' = Some s' /\ s <= s' <= 100.
Proof.
  intros Hr H Hs. destruct (score_inputs_some _ _ _ _ H Hs) as (Hne & -> & _).
  change (resolve_weights profile []) with (profile_weights profile) in *.
  pose proof (profile_weights_nonneg profile) as Hw.
  pose proof (profile_key_penalties_equal profile) as Hk.
  set (w := profile_weights profile) in *.
  assert (M : Forall2 Z.le (assessed_scores (category_table (read_inputs f) w))
                           (assessed_scores (category_table (read_inputs e) w))).
  { by apply assessed_scores_mono, category_table_mono. }
  destruct (score_inputs_spec (read_inputs e) w) as (r' & Hr' & Hs' & _).
  assert (Hne' : assessed_scores (category_table (read_inputs e) w) <> [])
    by (inversion M; congruence).
  exists r', (final_score (read_inputs e) (assessed_scores (category_table (read_inputs e) w))).
  split; [exact Hr'|]. split; [by destruct (assessed_scores (category_table (read_inputs e) w))|]. split.
  - apply final_score_mono; auto using ceiling_value_antitone, assessed_scores_range.
  - pose proof (final_score_range (read_inputs e) _ Hne' (assessed_scores_range _ _)).
    pose proof (ceiling_value_range (read_inputs e)). lia.
Qed.

(** Resolving roadmap items never lowers the projected score: under every
    profile the projection of a scored evidence exists and lies between its
    base score and 100. *)
Theorem projection_never_lower evidence titles profile base b :
  compute_readiness_score evidence profile [] = Ok base -> r_score base = Some b ->
  exists p, compute_projected_score profile [] evidence titles = Ok (Some p) /\ b <= p <= 100.
Proof.
  intros H Hb. unfold compute_projected_score, rescore. rewrite H. cbn [pbind]. rewrite Hb.
  destruct (less_risky_score (resolve_all evidence (item_slugs titles)) evidence profile b base
              (resolve_all_less_risky _ _) H Hb) as (r & p & -> & Hp & Hbp).
  cbn [pbind]. rewrite Hp. eauto.
Qed.

Lemma projection_never_lower_witness :
  exists base b p,
    compute_readiness_score (estate 2 1) None [] = Ok base /\ r_score base = Some b /\
    compute_projected_score None [] (estate 2 1) [Some "Remove plaintext HTTP exposure"] = Ok (Some p) /\ b <= p <= 100.
Proof.
  eexists _, _. destruct (projection_never_lower (estate 2 1) [Some "Remove plaintext HTTP exposure"] None
                            _ _ ltac:(vm_compute; reflexivity) eq_refl) as (p & Hp & Hb).
  exists p. split; [vm_compute; reflexivity|]. split; [reflexivity|]. split; [exact Hp|exact Hb].
Defined.

(** ** Per-item lifts *)

Lemma unique_spec seen l :
  NoDup (unique seen l) /\ forall x, x ∈ unique seen l <-> x ∈ l /\ x ∉ seen.
Proof.
  revert seen. induction l as [|x l IH]; intros seen; simpl.
  - split; [constructor|]. intros y. split; [intros H; by apply not_elem_of_nil in H|intros [H _]; by apply not_elem_of_nil in H].
  - destruct (str_in x seen) eqn:E.
    + apply bool_decide_eq_true in E. destruct (IH seen) as [Hn He]. split; [done|]. intros y.
      rewrite He, elem_of_cons. split; [intuition|intros [[-> |?] ?]; [done|auto]].
    + apply bool_decide_eq_false in E. destruct (IH (x :: seen)) as [Hn He]. split.
      * constructor; [|done]. rewrite He. intros [_ H]. apply H. left.
      * intros y. rewrite !elem_of_cons, He, not_elem_of_cons.
        destruct (decide (y = x)) as [-> |]; intuition.
Qed.

Lemma item_slugs_nodup titles : NoDup (item_slugs titles).
Proof. apply unique_spec. Qed.

(** One slug is rescored on its own: at most one new, positive entry. *)
Lemma lift_step_spec profile evidence base lifts slug :
  exists l, lift_step profile [] evidence base lifts slug = Ok (lifts ++ l) /\
    (l = [] \/ exists d, l = [(slug, d)] /\ 0 < d /\ is_Some (alookup slug DELTAS)).
Proof.
  unfold lift_step. destruct (alookup slug DELTAS) as [f|] eqn:E.
  2: { exists []. rewrite app_nil_r. auto. }
  unfold rescore, compute_readiness_score.
  destruct (score_inputs_spec (read_inputs (f evidence)) (resolve_weights profile [])) as (r & -> & _).
  cbn [pbind]. destruct (r_score r) as [p|]; [|exists []; rewrite app_nil_r; auto].
  destruct (Z.ltb_spec 0 (p - base)); [|exists []; rewrite app_nil_r; auto].
  eexists. split; [reflexivity|]. right. eexists. split; [reflexivity|]. split; [done|eauto].
Qed.

Lemma lift_fold_spec profile evidence base slugs lifts :
  exists l, pfold (lift_step profile [] evidence base) lifts slugs = Ok (lifts ++ l) /\
    l.*1 `sublist_of` slugs /\ Forall (fun sd => 0 < sd.2 /\ is_Some (alookup sd.1 DELTAS)) l.
Proof.
  revert lifts. induction slugs as [|slug slugs IH]; intros lifts; cbn [pfold].
  - exists []. rewrite app_nil_r. split; [done|]. split; [constructor|constructor].
  - destruct (lift_step_spec profile evidence base lifts slug) as (l & -> & Hl). cbn [pbind].
    destruct (IH (lifts ++ l)) as (l' & -> & Hs & Hf). exists (l ++ l'). rewrite app_assoc.
    split; [done|]. destruct Hl as [-> |(d & -> & Hd & Hi)]; simpl.
    + split; [by constructor|done].
    + split; [by constructor|]. constructor; [done|done].
Qed.

(** The per-item lifts of a scored evidence are always computed; every
    lift is strictly positive, belongs to one of the nine modelable slugs of a
    listed item, and no slug is reported twice. *)
Theorem item_lifts_positive evidence titles profile base b :
  compute_readiness_score evidence profile [] = Ok base -> r_score base = Some b ->
  exists lifts, compute_item_lifts profile [] evidence titles = Ok lifts /\
    NoDup lifts.*1 /\
    forall slug d, (slug, d) ∈ lifts ->
      0 < d /\ is_Some (alookup slug DELTAS) /\ exists title, Some title ∈ titles /\ slug_for_title title = Some slug.
Proof.
  intros H Hb. unfold compute_item_lifts, rescore at 1. rewrite H. cbn [pbind]. rewrite Hb.
  destruct (lift_fold_spec profile evidence b (item_slugs titles) []) as (l & -> & Hs & Hf).
  exists l. split; [done|]. split; [eapply sublist_NoDup; [apply item_slugs_nodup|done]|].
  intros slug d Hin. rewrite Forall_forall in Hf. destruct (Hf _ Hin) as [? ?]. split; [done|]. split; [done|].
  assert (E : slug ∈ item_slugs titles) by (eapply elem_of_sublist; [|exact Hs]; by apply (list_elem_of_fmap_2 fst _ _ Hin)).
  apply unique_spec in E as [E _]. unfold slugs_for_items in E.
  apply list_elem_of_omap in E as (t & Ht & Ht'). destruct t as [title|]; [eauto|done].
Qed.

Lemma item_lifts_positive_witness :
  exists base b lifts, compute_readiness_score (estate 2 1) None [] = Ok base /\ r_score base = Some b /\
    compute_item_lifts None [] (estate 2 1) [Some "Remove plaintext HTTP exposure"] = Ok lifts /\ NoDup lifts.*1.
Proof.
  eexists _, _. destruct (item_lifts_positive (estate 2 1) [Some "Remove plaintext HTTP exposure"] None
                            _ _ ltac:(vm_compute; reflexivity) eq_refl) as (lifts & Hl & Hn & _).
  exists lifts. split; [vm_compute; reflexivity|]. split; [reflexivity|]. split; [exact Hl|exact Hn].
Defined.

(** ** Legacy TLS *)

(** On evidence that carries [legacy_tls_count] and a scored severity
    dictionary, zeroing LOW changes nothing the scorer reads. *)
Lemma resolve_legacy_same_inputs e m :
  is_Some (dict_get e "legacy_tls_count") -> dict_get e "scored_finding_severity_counts" = Some (VDict m) ->
  read_inputs (resolve_legacy_tls_versions e) = read_inputs e.
Proof.
  intros [v Hv] Hm.
  assert (S : scored_severity_counts (zero_severities ["LOW"] e) = zero_keys ["LOW"] m).
  { unfold zero_severities, update_sub, has_key. set (e1 := dict_set e "finding_severity_counts" _).
    assert (G : dict_get e1 "scored_finding_severity_counts" = Some (VDict m))
      by (unfold e1; rewrite dict_get_set; decide_literals; done).
    rewrite G. unfold scored_severity_counts. rewrite dict_get_set, str_eqb_refl.
    unfold sub_mapping. by rewrite G. }
  assert (C : forall k, str_eqb "LOW" k = false ->
    count_of (scored_severity_counts (zero_severities ["LOW"] e)) k = count_of (scored_severity_counts e) k).
  { intros k Hk. rewrite S. unfold count_of. rewrite get_zero_keys. unfold scored_severity_counts. rewrite Hm.
    assert (str_in k ["LOW"] = false) as ->; [|done].
    apply bool_decide_eq_false. rewrite list_elem_of_singleton. intros ->. by rewrite str_eqb_refl in Hk. }
  assert (L : i_legacy_tls (read_inputs (zero_severities ["LOW"] e)) = i_legacy_tls (read_inputs e))
    by (rewrite !legacy_tls_read, zero_severities_get by (vm_compute; reflexivity); by rewrite Hv).
  unfold resolve_legacy_tls_versions.
  unfold read_inputs. f_equal;
    match goal with
    | |- Z.max 0 _ = _ => exact L
    | |- _ => read_zeroed; first [reflexivity | apply C; vm_compute; reflexivity]
    end.
Qed.

Lemma summary_severities eps fs days ref :
  dict_get (build_evidence_summary eps fs days ref) "scored_finding_severity_counts"
  = Some (VDict (severity_counts (scored_findings (drop_coverage_gaps fs)))).
Proof. reflexivity. Qed.

Lemma summary_legacy eps fs days ref :
  is_Some (dict_get (build_evidence_summary eps fs days ref) "legacy_tls_count").
Proof. eexists. reflexivity. Qed.

Lemma deltas_legacy : alookup "legacy-tls-versions" DELTAS = Some resolve_legacy_tls_versions.
Proof. reflexivity. Qed.

(** A mutator that does not change the rescored result reports no lift. *)
Lemma no_lift_without_change profile overrides e slug f titles lifts :
  alookup slug DELTAS = Some f ->
  compute_readiness_score (f e) profile overrides = compute_readiness_score e profile overrides ->
  compute_item_lifts profile overrides e titles = Ok lifts -> slug ∉ lifts.*1.
Proof.
  intros Hf Same. unfold compute_item_lifts, rescore.
  destruct (compute_readiness_score e profile overrides) as [base|] eqn:Eb; [|done]. cbn [pbind].
  destruct (r_score base) as [b|] eqn:Er; [|intros [= <-]; apply not_elem_of_nil].
  generalize (item_slugs titles). intros slugs.
  assert (H0 : slug ∉ ([] : list (string * Z)).*1) by apply not_elem_of_nil. revert H0.
  generalize ([] : list (string * Z)).
  induction slugs as [|s slugs IH]; intros acc Ha; cbn [pfold]; [by intros [= <-]|].
  destruct (lift_step profile overrides e b acc s) as [acc'|] eqn:Es; [|done]. cbn [pbind].
  apply IH. unfold lift_step, rescore in Es. destruct (decide (s = slug)) as [->|Hne].
  - rewrite Hf, Same in Es. cbn [pbind] in Es. rewrite Er, Z.sub_diag in Es. by injection Es as <-.
  - destruct (alookup s DELTAS) as [g|]; [|by injection Es as <-].
    destruct (compute_readiness_score (g e) profile overrides) as [r|]; [|done]. cbn [pbind] in Es.
    destruct (r_score r) as [p|]; [|by injection Es as <-].
    destruct (0 <? p - b); injection Es as <-; [|done].
    rewrite fmap_app, elem_of_app. simpl. rewrite list_elem_of_singleton. intros [?| ?]; [done|congruence].
Qed.

(** The legacy-TLS lift never appears: on every evidence summary, resolving
    "Disable legacy TLS versions" leaves the rescored result unchanged, because
    the mutator zeroes the LOW severity count while the scorer reads
    [legacy_tls_count]. *)
Theorem legacy_tls_lift_absent eps fs days ref titles profile overrides :
  let e := build_evidence_summary eps fs days ref in
  compute_readiness_score (resolve_legacy_tls_versions e) profile overrides
    = compute_readiness_score e profile overrides /\
  (forall lifts, compute_item_lifts profile overrides e titles = Ok lifts ->
     "legacy-tls-versions" ∉ lifts.*1).
Proof.
  intros e.
  assert (Same : compute_readiness_score (resolve_legacy_tls_versions e) profile overrides
                 = compute_readiness_score e profile overrides).
  { unfold compute_readiness_score.
    by rewrite (resolve_legacy_same_inputs e _ (summary_legacy _ _ _ _) (summary_severities _ _ _ _)). }
  split; [exact Same|]. intros lifts. by apply (no_lift_without_change _ _ _ _ _ _ _ deltas_legacy).
Qed.

(** The legacy-TLS roadmap item follows the LOW severity count and not the
    legacy TLS count the scorer penalises: a summary can be penalised for legacy
    TLS without the item, and can list the item without any legacy TLS. *)
Theorem legacy_tls_item_reads_low_severity :
  (forall evidence drivers,
     "Disable legacy TLS versions" ∈ titles (default_roadmap evidence drivers)
     <-> 0 < raw_count (scored_severity_counts evidence) "LOW") /\
  (exists eps, let e := build_evidence_summary eps [] 30 None in
     0 < i_legacy_tls (read_inputs e) /\ "Disable legacy TLS versions" ∉ titles (default_roadmap e [])) /\
  (exists eps fs, let e := build_evidence_summary eps fs 30 None in
     i_legacy_tls (read_inputs e) = 0 /\ "Disable legacy TLS versions" ∈ titles (default_roadmap e [])).
Proof.
  assert (A : forall evidence drivers,
     "Disable legacy TLS versions" ∈ titles (default_roadmap evidence drivers)
     <-> 0 < raw_count (scored_severity_counts evidence) "LOW").
  { intros evidence drivers. item_listed. cbn [s_legacy_tls read_signals]. lia. }
  split; [exact A|]. split.
  - exists [{| ep_host := "a"; ep_port := 443; ep_protocol := Some "TLS"; ep_scanned_at := None;
               ep_tls_version := Some "TLSv1"; ep_cipher_suite := None; ep_cert_subject := None;
               ep_cert_issuer := None; ep_cert_sig_alg := None; ep_cert_pubkey_alg := None;
               ep_cert_pubkey_size := None; ep_cert_spki_fingerprint := None; ep_cert_not_after := None;
               ep_scan_error := None; ep_tls_blocker_reason := None; ep_service_detail := None;
               ep_tls_supported_versions := None; ep_severity := None; ep_scan_run_id := None |}].
    cbv zeta. split; [vm_compute; reflexivity|]. rewrite A. vm_compute. discriminate.
  - exists [bare_endpoint "a" 22 "SSH"],
      [{| f_title := Some "Unknown open service"; f_severity := Some "LOW"; f_category := None;
          f_host := Some "a"; f_port := Some 22 |}].
    cbv zeta. split; [vm_compute; reflexivity|]. rewrite A. vm_compute. reflexivity.
Qed.
