(* ===== verification/ScopeSignature.v ===== *)
(** The scope signature of a scan: [src/quirk/intelligence/scope_signature.py].

    What a scan covered (ports, profile, extras, credential kinds, sensors,
    targets) with its two digests, the probe-family table, the positive
    assertion of probe health, and the signature row written at scan
    completion.  [sha256] is a parameter: the theorems about digests assume
    that it does not collide on the two payloads compared. *)
From Stdlib Require Import ZArith Lia Ascii.
From stdpp Require Import base tactics sets strings list pretty.
From S2P Require Import Prelude Json PyVal Model Evidence.

Local Open Scope Z_scope.
Local Open Scope quirk_scope.

Definition SCOPE_SIGNATURE_VERSION : string := "2.0.0".

(** * Configuration and rows *)

(** [cfg.targets]: the four lists of the declared target spec. *)
Record TargetsCfg := {
  fqdns : list string;
  cidrs : list string;
  include_ips : list string;
  exclude_ips : list string
}.

(** The parts of the application configuration a signature reads.  [connector]
    is [getattr(cfg.connectors, name, None)]. *)
Record AppConfig := {
  cfg_targets : option TargetsCfg;
  cfg_nmap_port_scope : option string;
  cfg_ports_tls : list Z;
  cfg_tls_enum_mode : string;
  cfg_profile : option string;
  cfg_broker_credentials : pyval;
  cfg_connector : string -> pyval
}.

(** * Digests *)

Section Digests.
Context (sha256 : string -> string).

(** [{str(v).strip().lower() for v in values if str(v).strip()}], sorted. *)
Definition clean_entry (v : string) : option string :=
  match strip v with EmptyString => None | s => Some (lower s) end.

Definition clean (values : list string) : list string :=
  sorted_strings (remove_dups (omap clean_entry values)).

Definition target_payload (targets : option TargetsCfg) : json :=
  let field f := JStrs (clean (match targets with Some t => f t | None => [] end)) in
  sorted_obj [("fqdns", field fqdns); ("cidrs", field cidrs);
              ("include_ips", field include_ips); ("exclude_ips", field exclude_ips)].

Definition compute_target_set_digest (cfg : AppConfig) : string :=
  sha256 (dumps (target_payload (cfg_targets cfg))).

(** ** The signature *)

Record signature := {
  signature_version : string;
  port_scope : string;
  profile : string;
  extras_present : list string;
  credentials_present : list string;
  sensor_set : list string;
  target_set_digest : string
}.

(** [REGISTRY] of [src/quirk/util/optional_extra.py]: the extra, the modules
    and the binary that gate it. *)
Definition REGISTRY : list (string * list string * option string) :=
  [("identity", ["impacket"], None);
   ("db", ["psycopg2"; "pymysql"], None);
   ("cloud", ["googleapiclient"; "kubernetes"; "hvac"], None);
   ("dashboard", ["fastapi"; "uvicorn"; "playwright"], None);
   ("nmap", [], Some "nmap");
   ("cbom", ["jsonschema"; "referencing"], None);
   ("tickets", ["jira"], None)].

(** What is installed: [find_spec] and [shutil.which]. *)
Record environment := { has_module : string -> bool; has_binary : string -> bool }.

Definition is_extra_available (env : environment) (extra : string) : bool :=
  match List.find (fun e => str_eqb e.1.1 extra) REGISTRY with
  | None => false
  | Some (_, modules, binary) =>
      forallb (has_module env) modules
      && match binary with None => true | Some b => has_binary env b end
  end.

(** [",".join(str(p) for p in sorted(ports))]. *)
Definition joined_ports (ports : list Z) : string :=
  comma_join (map pretty (py_sorted Z.leb ports)).

(** The credential kind labels, each a presence test. *)
Definition credential_labels (cfg : AppConfig) : list string :=
  let label (b : bool) (l : string) := if b then [l] else [] in
  sorted_strings
    (label (truthy (cfg_broker_credentials cfg)) "broker"
     ++ label (truthy (cfg_connector cfg "snmp_v3_credentials")) "snmp_v3"
     ++ label (truthy (cfg_connector cfg "pg_scanner_user")) "postgres"
     ++ label (truthy (cfg_connector cfg "mysql_scanner_user")) "mysql"
     ++ label (truthy (cfg_connector cfg "aws_profile")) "aws"
     ++ label (truthy (cfg_connector cfg "azure_subscription_id")) "azure"
     ++ label (truthy (cfg_connector cfg "gcp_project_id")) "gcp").

(** [sensors]: the [sensor_id]s of the enrolled fleet, [[]] without a session. *)
Definition build_scope_signature (env : environment) (cfg : AppConfig) (sensors : list string)
  : signature :=
  {| signature_version := SCOPE_SIGNATURE_VERSION;
     port_scope := if truthy_str (cfg_nmap_port_scope cfg)
                   then str_or_empty (cfg_nmap_port_scope cfg)
                   else joined_ports (cfg_ports_tls cfg);
     profile := str_or_empty (cfg_profile cfg);
     extras_present := sorted_strings (List.filter (is_extra_available env) (REGISTRY.*1.*1));
     credentials_present := credential_labels cfg;
     sensor_set := sorted_strings sensors;
     target_set_digest := compute_target_set_digest cfg |}.

(** The seven fields of [_DIGEST_FIELDS]. *)
Definition signature_payload (sig : signature) : json :=
  sorted_obj [("signature_version", JStr (signature_version sig));
              ("port_scope", JStr (port_scope sig));
              ("profile", JStr (profile sig));
              ("extras_present", JStrs (extras_present sig));
              ("credentials_present", JStrs (credentials_present sig));
              ("sensor_set", JStrs (sensor_set sig));
              ("target_set_digest", JStr (target_set_digest sig))].

Definition compute_signature_digest (sig : signature) : string :=
  sha256 (dumps (signature_payload sig)).
End Digests.

(** * Probe families *)

(** [_has_evidence]. *)
Definition has_evidence (value : pyval) : bool :=
  match value with
  | VNone => false
  | VStr s =>
      let stripped := strip s in
      negb (str_eqb stripped EmptyString || str_in (lower stripped) ["null"; "{}"; "[]"])
  | v => truthy v
  end.

Record FamilySpec := {
  enable_attr : option string;
  evidence_field : string;
  timing_key : string;
  protocols : list string;
  disabled_extra : option (AppConfig -> bool);
  no_targets_is_recheck : bool
}.

Definition family (enable : option string) (evidence timing : string) (protos : list string) :=
  {| enable_attr := enable; evidence_field := evidence; timing_key := timing;
     protocols := protos; disabled_extra := None; no_targets_is_recheck := false |}.

Definition FAMILY_SPEC : list (string * FamilySpec) :=
  [("tls",
    {| enable_attr := None; evidence_field := "tls_capabilities_json";
       timing_key := "tls_scanning"; protocols := ["TLS"];
       disabled_extra := Some (fun cfg => negb (str_eqb (cfg_tls_enum_mode cfg) "deep"));
       no_targets_is_recheck := false |});
   ("ssh", family None "ssh_audit_json" "ssh_scanning" ["SSH"]);
   ("http",
    {| enable_attr := None; evidence_field := "service_detail";
       timing_key := "fingerprinting"; protocols := ["HTTP"];
       disabled_extra := None; no_targets_is_recheck := true |});
   ("jwt", family (Some "enable_jwt") "jwt_scan_json" "jwt_scanning" ["JWT"]);
   ("container", family (Some "enable_container") "container_scan_json" "container_scanning" ["CONTAINER"]);
   ("source", family (Some "enable_source") "source_scan_json" "source_scanning" ["SOURCE"]);
   ("database", family (Some "enable_db") "tls_version" "db_scanning" ["POSTGRESQL"; "MYSQL"]);
   ("dnssec", family (Some "enable_dnssec") "dnssec_scan_json" "dnssec_scanning" ["DNSSEC"]);
   ("saml", family (Some "enable_saml") "saml_scan_json" "saml_scanning" ["SAML"]);
   ("kerberos", family (Some "enable_kerberos") "kerberos_scan_json" "kerberos_scanning" ["KERBEROS"]);
   ("smime", family (Some "enable_smime") "smime_scan_json" "smime_scanning" ["SMIME"]);
   ("codesign", family (Some "enable_codesign") "codesign_scan_json" "codesign_scanning" ["CODE_SIGNING"]);
   ("email", family (Some "enable_email") "email_scan_json" "email_scanning"
               ["SMTP-STARTTLS"; "SMTPS"; "IMAP-STARTTLS"; "IMAPS"; "POP3-STARTTLS"; "POP3S"]);
   ("broker", family (Some "enable_broker") "broker_scan_json" "broker_scanning"
               ["KAFKA-TLS"; "KAFKA-PLAIN"; "AMQP-PLAIN"; "REDIS-TLS"; "REDIS-PLAIN"])].

(** The reverse index, built from the table. *)
Definition PROTOCOL_TO_FAMILY : list (string * string) :=
  List.flat_map (fun fs => map (fun p => (p, fs.1)) (protocols fs.2)) FAMILY_SPEC.

(** [dict.get] on a nullable column: [None] is not a protocol. *)
Definition family_for_protocol (protocol : option string) : option string :=
  match protocol with
  | Some p => alookup p PROTOCOL_TO_FAMILY
  | None => None
  end.

(** [_FAMILY_SPEC.get(family) if family else None]. *)
Definition spec_of (fam : option string) : option FamilySpec :=
  if truthy_str fam then alookup (str_or_empty fam) FAMILY_SPEC else None.

Definition endpoint_has_family_evidence (e : endpoint_row) (fam : option string) : bool :=
  match spec_of fam with
  | None => false
  | Some spec => has_evidence (column e (evidence_field spec))
  end.

Definition probe_family_rechecked (probe_health : pydict) (fam : option string) : bool :=
  match spec_of fam with
  | None => false
  | Some spec =>
      match dict_get probe_health (str_or_empty fam) with
      | Some (VDict entry) =>
          match dict_get entry "status" with
          | Some (VStr status) =>
              if str_eqb status "healthy" then true
              else if str_eqb status "no_targets" then no_targets_is_recheck spec
              else false
          | _ => false
          end
      | _ => false
      end
  end.

(** * Probe health *)

Definition family_disabled (cfg : AppConfig) (spec : FamilySpec) : bool :=
  match enable_attr spec with
  | Some a => negb (truthy (cfg_connector cfg a))
  | None => false
  end
  || match disabled_extra spec with Some d => d cfg | None => false end.

(** [run_stats["timings_sec"]], [{}] when absent. *)
Definition timings_of (run_stats : option pydict) : pydict :=
  sub_mapping (default [] run_stats) "timings_sec".

Definition health_entry (status field : string) (seen evidenced : Z) : pyval :=
  VDict [("status", VStr status); ("evidence_field", VStr field);
         ("endpoints_seen", VInt seen); ("endpoints_with_evidence", VInt evidenced)].

Definition family_seen (spec : FamilySpec) (eps : list endpoint_row) : list endpoint_row :=
  List.filter (fun e => match ep_protocol (er_ep e) with
                   | Some p => str_in p (protocols spec)
                   | None => false
                   end) eps.

Definition family_evidenced (spec : FamilySpec) (eps : list endpoint_row) : list endpoint_row :=
  List.filter (fun e => has_evidence (column e (evidence_field spec))) (family_seen spec eps).

Definition family_health (cfg : AppConfig) (eps : list endpoint_row) (timings : pydict)
    (spec : FamilySpec) : pyval :=
  if family_disabled cfg spec || negb (bool_decide (is_Some (dict_get timings (timing_key spec))))
  then health_entry "not_run" (evidence_field spec) 0 0
  else
    let seen := Z.of_nat (length (family_seen spec eps)) in
    let evidenced := Z.of_nat (length (family_evidenced spec eps)) in
    let status := if 0 <? evidenced then "healthy"
                  else if seen =? 0 then "no_targets" else "unhealthy" in
    health_entry status (evidence_field spec) seen evidenced.

Definition assess_probe_health (cfg : AppConfig) (eps : list endpoint_row)
    (run_stats : option pydict) : pydict :=
  map (fun fs => (fs.1, family_health cfg eps (timings_of run_stats) fs.2)) FAMILY_SPEC.

(** * The stored row *)

(** A row of [scan_scope_signatures].  [sg_probe_health] is the JSON value of
    the [probe_health_json] column, [None] when it is NULL, empty or not JSON. *)
Record sig_row := {
  sg_scan : string;
  sg_version : option string;
  sg_port_scope : option string;
  sg_profile : option string;
  sg_extras : option string;
  sg_credentials : option string;
  sg_sensors : option string;
  sg_target_digest : option string;
  sg_probe_health : option pyval;
  sg_digest : string;
  sg_created : option Z
}.

Definition written_row (scan_run_id : string) (sig : signature) (health : pydict)
    (digest : string) (now : Z) : sig_row :=
  {| sg_scan := scan_run_id; sg_version := Some (signature_version sig);
     sg_port_scope := Some (port_scope sig); sg_profile := Some (profile sig);
     sg_extras := Some (dumps (JStrs (extras_present sig)));
     sg_credentials := Some (dumps (JStrs (credentials_present sig)));
     sg_sensors := Some (dumps (JStrs (sensor_set sig)));
     sg_target_digest := Some (target_set_digest sig);
     sg_probe_health := Some (VDict health);
     sg_digest := digest; sg_created := Some now |}.

(** Update the row of a scan in place, else insert it. *)
Fixpoint upsert_sig (row : sig_row) (table : list sig_row) : list sig_row :=
  match table with
  | [] => [row]
  | r :: table' =>
      if str_eqb (sg_scan r) (sg_scan row) then row :: table' else r :: upsert_sig row table'
  end.

(** [scan_run_id] and [db_path] may be missing; [db_path] only tells whether
    there is a database.  Returns the digest and the table. *)
Definition persist_scope_signature (sha256 : string -> string) (env : environment)
    (db_path scan_run_id : option string) (cfg : AppConfig) (sensors : list string)
    (eps : list endpoint_row) (run_stats : option pydict) (now : Z) (table : list sig_row)
  : option string * list sig_row :=
  if negb (truthy_str scan_run_id) || negb (truthy_str db_path) then (None, table)
  else
    let sig := build_scope_signature sha256 env cfg sensors in
    let health := assess_probe_health cfg eps run_stats in
    let digest := compute_signature_digest sha256 sig in
    (Some digest, upsert_sig (written_row (str_or_empty scan_run_id) sig health digest now) table).

(** * Lemmas *)

(** The reverse index inverts the table: a protocol belongs to one family. *)
Definition protocol_entries : list (string * string) := Eval vm_compute in PROTOCOL_TO_FAMILY.

Lemma protocol_to_family_eq : PROTOCOL_TO_FAMILY = protocol_entries.
Proof. vm_compute. reflexivity. Qed.

Lemma protocol_keys_nodup : NoDup (protocol_entries.*1).
Proof. apply (bool_decide_eq_true _). vm_compute. reflexivity. Qed.

Lemma family_keys_nodup : NoDup (FAMILY_SPEC.*1).
Proof. apply (bool_decide_eq_true _). vm_compute. reflexivity. Qed.

(** Exactly one family treats "no targets" as a recheck. *)
Lemma recheck_without_targets fam spec :
  alookup fam FAMILY_SPEC = Some spec -> no_targets_is_recheck spec = true -> fam = "http".
Proof.
  intros Hl Hn.
  assert (H : forallb (fun fs => negb (no_targets_is_recheck fs.2) || str_eqb fs.1 "http")
    FAMILY_SPEC = true) by (vm_compute; reflexivity).
  rewrite forallb_forall in H. apply alookup_elem, list_elem_of_In, H in Hl. simpl in Hl.
  rewrite Hn in Hl. by apply str_eqb_eq.
Qed.

Lemma family_names_truthy fam spec :
  alookup fam FAMILY_SPEC = Some spec -> truthy_str (Some fam) = true.
Proof.
  intros Hl. assert (H : forallb (fun fs => truthy_str (Some fs.1)) FAMILY_SPEC = true)
    by (vm_compute; reflexivity).
  rewrite forallb_forall in H. by apply alookup_elem, list_elem_of_In, H in Hl.
Qed.

Lemma spec_of_some fam spec : spec_of (Some fam) = Some spec <-> alookup fam FAMILY_SPEC = Some spec.
Proof.
  unfold spec_of. destruct (truthy_str (Some fam)) eqn:T; [done|].
  split; [done|]. intros Hl. by rewrite (family_names_truthy fam spec Hl) in T.
Qed.

Lemma assess_lookup cfg eps rs fam :
  dict_get (assess_probe_health cfg eps rs) fam =
  option_map (family_health cfg eps (timings_of rs)) (alookup fam FAMILY_SPEC).
Proof. apply alookup_map. Qed.

Lemma clean_spec values x :
  x ∈ clean values <-> exists v, v ∈ values /\ clean_entry v = Some x.
Proof.
  unfold clean. rewrite elem_of_sorted_strings, elem_of_remove_dups, list_elem_of_omap. done.
Qed.

Lemma clean_eq values values' :
  clean values = clean values' <-> (forall x, x ∈ clean values <-> x ∈ clean values').
Proof.
  split; [by intros ->|]. intros H. apply sorted_strings_canonical.
  apply NoDup_Permutation; [apply NoDup_remove_dups..|]. intros x.
  specialize (H x). unfold clean in H. by rewrite !elem_of_sorted_strings in H.
Qed.

(** The entries a field of the spec declares, after normalisation. *)
Definition entries (f : TargetsCfg -> list string) (targets : option TargetsCfg) : list string :=
  clean (match targets with Some t => f t | None => [] end).

Definition same_targets (t t' : option TargetsCfg) : Prop :=
  Forall (fun f => forall x, x ∈ entries f t <-> x ∈ entries f t') [fqdns; cidrs; include_ips; exclude_ips].

Lemma target_payload_sorted t :
  target_payload t = JObj [("cidrs", JStrs (entries cidrs t)); ("exclude_ips", JStrs (entries exclude_ips t));
                           ("fqdns", JStrs (entries fqdns t)); ("include_ips", JStrs (entries include_ips t))].
Proof. reflexivity. Qed.

Lemma signature_payload_sorted sig :
  signature_payload sig =
  JObj [("credentials_present", JStrs (credentials_present sig)); ("extras_present", JStrs (extras_present sig));
        ("port_scope", JStr (port_scope sig)); ("profile", JStr (profile sig));
        ("sensor_set", JStrs (sensor_set sig)); ("signature_version", JStr (signature_version sig));
        ("target_set_digest", JStr (target_set_digest sig))].
Proof. reflexivity. Qed.

Lemma target_payload_inj t t' : target_payload t = target_payload t' <-> same_targets t t'.
Proof.
  rewrite !target_payload_sorted. unfold same_targets. rewrite !Forall_cons.
  cbv beta. unfold entries. rewrite <- !clean_eq. split.
  - intros H. injection H as H1 H2 H3 H4.
    apply (f_equal JArr), JStrs_inj in H1. apply (f_equal JArr), JStrs_inj in H2.
    apply (f_equal JArr), JStrs_inj in H3. apply (f_equal JArr), JStrs_inj in H4. auto 7.
  - intros (H1 & H2 & H3 & H4 & _). by rewrite H1, H2, H3, H4.
Qed.

Lemma signature_payload_inj sig sig' : signature_payload sig = signature_payload sig' -> sig = sig'.
Proof.
  rewrite !signature_payload_sorted. destruct sig, sig'; simpl. intros H.
  injection H as H1 H2 -> -> H3 -> ->.
  apply (f_equal JArr), JStrs_inj in H1. apply (f_equal JArr), JStrs_inj in H2.
  apply (f_equal JArr), JStrs_inj in H3. by subst.
Qed.

(** [sha256] does not collide on two payloads. *)
Definition no_collision (sha256 : string -> string) (j j' : json) : Prop :=
  sha256 (dumps j) = sha256 (dumps j') -> dumps j = dumps j'.

Lemma digest_inj sha256 j j' : no_collision sha256 j j' -> sha256 (dumps j) = sha256 (dumps j') <-> j = j'.
Proof. intros Hc. split; [intros H; by apply dumps_inj, Hc|by intros ->]. Qed.

(** * Properties *)

(** C23: Two configurations get the same target-set digest exactly when they declare the same estate: in each of the four target lists the same entries up to surrounding blanks, letter case, repetition and order. *)
Theorem target_digest_identifies_estate sha256 cfg cfg' :
  no_collision sha256 (target_payload (cfg_targets cfg)) (target_payload (cfg_targets cfg')) ->
  compute_target_set_digest sha256 cfg = compute_target_set_digest sha256 cfg' <->
  same_targets (cfg_targets cfg) (cfg_targets cfg').
Proof. intros Hc. unfold compute_target_set_digest. by rewrite digest_inj, target_payload_inj. Qed.

(** A configuration with the given targets, everything else off. *)
Definition quiet_config (targets : option TargetsCfg) : AppConfig :=
  {| cfg_targets := targets; cfg_nmap_port_scope := None; cfg_ports_tls := [8443; 443];
     cfg_tls_enum_mode := "fast"; cfg_profile := Some "standard";
     cfg_broker_credentials := VNone; cfg_connector := fun _ => VNone |}.

Definition estate (names : list string) : option TargetsCfg :=
  Some {| fqdns := names; cidrs := ["10.0.0.0/8"]; include_ips := []; exclude_ips := [] |}.

Lemma target_digest_identifies_estate_witness :
  let a := quiet_config (estate [" A.example"; "b.example"]) in
  let b := quiet_config (estate ["b.example"; "a.EXAMPLE"; " "]) in
  compute_target_set_digest (fun s => s) a = compute_target_set_digest (fun s => s) b
  /\ same_targets (cfg_targets a) (cfg_targets b).
Proof.
  intros a b.
  assert (H : compute_target_set_digest (fun s => s) a = compute_target_set_digest (fun s => s) b)
    by (vm_compute; reflexivity).
  split; [exact H|].
  apply (target_digest_identifies_estate (fun s => s) a b); [intros E; exact E|exact H].
Defined.

(** The signature digest separates scopes: two signatures have equal digests exactly when all seven fields agree, so a scan written under another signature version never compares equal. *)
Theorem signature_digest_identifies_scope sha256 sig sig' :
  no_collision sha256 (signature_payload sig) (signature_payload sig') ->
  compute_signature_digest sha256 sig = compute_signature_digest sha256 sig' <-> sig = sig'.
Proof.
  intros Hc. unfold compute_signature_digest. rewrite digest_inj by done.
  split; [apply signature_payload_inj|by intros ->].
Qed.

Lemma signature_digest_identifies_scope_witness :
  let env := {| has_module := fun _ => false; has_binary := fun _ => true |} in
  let sig names := build_scope_signature (fun s => s) env (quiet_config (estate names)) ["s2"; "s1"] in
  compute_signature_digest (fun s => s) (sig ["a"]) <> compute_signature_digest (fun s => s) (sig ["b"]).
Proof.
  intros env sig E.
  apply (signature_digest_identifies_scope (fun s => s) (sig ["a"]) (sig ["b"])) in E;
    [|intros C; exact C].
  apply (f_equal target_set_digest) in E. vm_compute in E. discriminate E.
Defined.

(** The family reported rows of its protocol, some with its evidence. *)
Definition probe_ran (cfg : AppConfig) (run_stats : option pydict) (spec : FamilySpec) : Prop :=
  family_disabled cfg spec = false /\ is_Some (dict_get (timings_of run_stats) (timing_key spec)).

Definition reported (spec : FamilySpec) (eps : list endpoint_row) (e : endpoint_row) : Prop :=
  e ∈ eps /\ exists p, ep_protocol (er_ep e) = Some p /\ p ∈ protocols spec.

Lemma elem_of_family_seen spec eps e : e ∈ family_seen spec eps <-> reported spec eps e.
Proof.
  unfold family_seen, reported. rewrite !list_elem_of_In, filter_In.
  split; intros [He H]; (split; [done|]).
  - destruct (ep_protocol (er_ep e)) as [p|]; [|done]. exists p. by apply bool_decide_eq_true in H.
  - destruct H as (p & -> & Hp). by apply bool_decide_eq_true.
Qed.

Lemma length_pos_iff {A} (l : list A) : (0 <? Z.of_nat (length l)) = true <-> exists x, x ∈ l.
Proof.
  rewrite Z.ltb_lt. destruct l as [|x l]; simpl.
  - split; [lia|]. intros [x H]. by apply not_elem_of_nil in H.
  - split; [|lia]. exists x. left.
Qed.

Lemma evidenced_iff spec eps :
  (0 <? Z.of_nat (length (family_evidenced spec eps))) = true <->
  exists e, reported spec eps e /\ has_evidence (column e (evidence_field spec)) = true.
Proof.
  rewrite length_pos_iff. unfold family_evidenced.
  setoid_rewrite list_elem_of_In. setoid_rewrite filter_In. setoid_rewrite <- list_elem_of_In.
  by setoid_rewrite elem_of_family_seen.
Qed.

Lemma unseen_iff spec eps :
  (Z.of_nat (length (family_seen spec eps)) =? 0) = true <-> forall e, ~ reported spec eps e.
Proof.
  rewrite Z.eqb_eq. split.
  - intros H e He. apply elem_of_family_seen in He.
    destruct (family_seen spec eps); [by apply not_elem_of_nil in He|simpl in H; lia].
  - intros H. destruct (family_seen spec eps) as [|e l] eqn:E; [done|].
    exfalso. apply (H e). rewrite <- elem_of_family_seen, E. left.
Qed.

(** Probe health is positively asserted: the health a scan records lets closure treat a family as rechecked exactly when the family was enabled, its phase left a timing key, and either some endpoint of one of its protocols carries the family's own evidence, or the family is http and the scan saw no HTTP endpoint at all. *)
Theorem rechecked_iff_positive_evidence cfg eps run_stats fam spec :
  alookup fam FAMILY_SPEC = Some spec ->
  probe_family_rechecked (assess_probe_health cfg eps run_stats) (Some fam) = true <->
  probe_ran cfg run_stats spec /\
  ((exists e, reported spec eps e /\ has_evidence (column e (evidence_field spec)) = true)
   \/ (fam = "http" /\ forall e, ~ reported spec eps e)).
Proof.
  intros Hs. unfold probe_family_rechecked, probe_ran.
  rewrite (proj2 (spec_of_some fam spec) Hs).
  replace (str_or_empty (Some fam)) with fam by reflexivity.
  rewrite assess_lookup, Hs. cbn [option_map]. unfold family_health.
  destruct (family_disabled cfg spec); cbn [orb].
  { cbn. decide_literals. split; [done|]. by intros [[? _] _]. }
  case_bool_decide as Ht; cbn [negb].
  2:{ cbn. decide_literals. split; [done|]. by intros [[_ ?] _]. }
  rewrite <- evidenced_iff, <- unseen_iff.
  destruct (0 <? _); [cbn; decide_literals; naive_solver|].
  destruct (_ =? 0); cbn; decide_literals.
  - split; [|intros [_ [?|[-> _]]]; [done|]].
    + intros Hn. split; [done|]. right. split; [|done]. by eapply recheck_without_targets.
    + by injection Hs as <-.
  - naive_solver.
Qed.

Definition ssh_row (audit : string) : endpoint_row :=
  {| er_ep := bare_endpoint "h" 22 "SSH";
     er_text := fun field => if str_eqb field "ssh_audit_json" then Some audit else None;
     er_flag := fun _ => None |}.

Lemma rechecked_iff_positive_evidence_witness :
  let stats := Some [("timings_sec", VDict [("ssh_scanning", VInt 3)])] in
  probe_family_rechecked (assess_probe_health (quiet_config None) [ssh_row "{'kex': []}"] stats) (Some "ssh") = true
  /\ probe_family_rechecked (assess_probe_health (quiet_config None) [ssh_row " {} "] stats) (Some "ssh") = false.
Proof.
  intros stats. split; [|vm_compute; reflexivity].
  apply (rechecked_iff_positive_evidence (quiet_config None) _ stats "ssh" (family None "ssh_audit_json" "ssh_scanning" ["SSH"]));
    [vm_compute; reflexivity|].
  split; [split; [vm_compute; reflexivity|by vm_compute; eexists]|].
  left. exists (ssh_row "{'kex': []}"). split; [|vm_compute; reflexivity].
  split; [left|]. exists "SSH". split; [reflexivity|left].
Defined.

Lemma upsert_same row table : List.find (fun r => str_eqb (sg_scan r) (sg_scan row)) (upsert_sig row table) = Some row.
Proof.
  induction table as [|r table IH]; simpl; [by rewrite str_eqb_refl|].
  destruct (str_eqb (sg_scan r) (sg_scan row)) eqn:E; simpl; [by rewrite str_eqb_refl|by rewrite E].
Qed.

Lemma upsert_other row table other :
  sg_scan row <> other ->
  List.find (fun r => str_eqb (sg_scan r) other) (upsert_sig row table) =
  List.find (fun r => str_eqb (sg_scan r) other) table.
Proof.
  intros Hne. apply str_eqb_neq in Hne.
  induction table as [|r table IH]; simpl; [by rewrite Hne|].
  destruct (str_eqb (sg_scan r) (sg_scan row)) eqn:E; simpl.
  - apply str_eqb_eq in E. by rewrite E, Hne.
  - by rewrite IH.
Qed.

Lemma elem_of_upsert row table x :
  x ∈ map sg_scan (upsert_sig row table) -> x = sg_scan row \/ x ∈ map sg_scan table.
Proof.
  induction table as [|r table IH]; simpl; [rewrite list_elem_of_singleton; auto|].
  destruct (str_eqb (sg_scan r) (sg_scan row)); simpl; rewrite !elem_of_cons; tauto.
Qed.

Lemma upsert_nodup row table : NoDup (map sg_scan table) -> NoDup (map sg_scan (upsert_sig row table)).
Proof.
  induction table as [|r table IH]; simpl; [intros _; apply NoDup_singleton|].
  rewrite NoDup_cons. intros [Hr Hnd].
  destruct (str_eqb (sg_scan r) (sg_scan row)) eqn:E; simpl; rewrite NoDup_cons.
  - apply str_eqb_eq in E. by rewrite <- E.
  - split; [|auto]. intros Hin. apply elem_of_upsert in Hin as [Hin|Hin]; [|done].
    by apply str_eqb_neq in E.
Qed.

(** Writing a signature is an upsert keyed on the scan: the table keeps one row per scan and every other scan's row, and the scan's row reads back the digest, the current signature version, the target digest and the probe health just assessed; without a scan id or a database nothing is written. *)
Theorem persist_scope_signature_upserts sha256 env db_path scan cfg sensors eps stats now table :
  NoDup (map sg_scan table) ->
  let '(digest, table') := persist_scope_signature sha256 env db_path scan cfg sensors eps stats now table in
  NoDup (map sg_scan table')
  /\ (forall other, Some other <> scan ->
        List.find (fun r => str_eqb (sg_scan r) other) table' = List.find (fun r => str_eqb (sg_scan r) other) table)
  /\ (digest = None <-> truthy_str scan = false \/ truthy_str db_path = false)
  /\ (digest = None -> table' = table)
  /\ (forall d, digest = Some d -> exists s row,
        scan = Some s /\ List.find (fun r => str_eqb (sg_scan r) s) table' = Some row
        /\ sg_digest row = d /\ sg_version row = Some SCOPE_SIGNATURE_VERSION
        /\ sg_target_digest row = Some (compute_target_set_digest sha256 cfg)
        /\ sg_probe_health row = Some (VDict (assess_probe_health cfg eps stats))).
Proof.
  intros Hnd. unfold persist_scope_signature.
  destruct (truthy_str scan) eqn:Hs; cbn [negb orb].
  2:{ split_and!; try done. split; [by left|done]. }
  destruct (truthy_str db_path) eqn:Hd; cbn [negb].
  2:{ split_and!; try done. split; [by right|done]. }
  set (row := written_row _ _ _ _ _). destruct scan as [s|]; [|done].
  split_and!.
  - by apply upsert_nodup.
  - intros other Ho. apply upsert_other. intros E. apply Ho. by rewrite <- E.
  - split; [done|intros [?|?]; done].
  - done.
  - intros d [= <-]. exists s, row. split_and!; try done. by apply (upsert_same row).
Qed.

Lemma persist_scope_signature_upserts_witness :
  let env := {| has_module := fun _ => false; has_binary := fun _ => false |} in
  let '(digest, table) := persist_scope_signature (fun s => s) env (Some "quirk.db") (Some "run-1")
                            (quiet_config None) [] [] None 7 [] in
  digest <> None /\ NoDup (map sg_scan table).
Proof.
  intros env.
  pose proof (persist_scope_signature_upserts (fun s => s) env (Some "quirk.db") (Some "run-1")
    (quiet_config None) [] [] None 7 [] (NoDup_nil_2)) as H.
  destruct (persist_scope_signature _ _ _ _ _ _ _ _ _ _) as [digest table].
  destruct H as (Hnd & _ & Hn & _). split; [|exact Hnd].
  intros E. apply Hn in E as [E|E]; discriminate E.
Defined.
