(* ===== verification/PortSpec.v ===== *)
(** Port specifications ([util/port_spec.py]).

    A scan is told its ports as a string of comma-separated numbers and
    ranges.  [parse_port_spec] turns it into a sorted list of distinct ports or
    raises [ValueError].  The properties relate it to a grammar
    ([names_ports]) that says which ports a token names. *)
From Stdlib Require Import ZArith Lia Ascii Sorted.
From stdpp Require Import base tactics strings list gmap pretty.
From S2P Require Import Prelude PyStr Json PyVal ScopeSignature.

Local Open Scope Z_scope.
Local Open Scope quirk_scope.

(** * The parser *)

Definition PORT_SPEC_CAP : Z := 2048.
Definition PORT_MIN : Z := 1.
Definition PORT_MAX : Z := 65535.

Definition dash : Ascii.ascii := "-"%char.
Definition comma : Ascii.ascii := ","%char.

(** [\d+]: among the code points 0..255, [\d] is exactly the ASCII digits. *)
Definition digit_run (s : string) : bool := truthy_str (Some s) && every is_digit s.

(** [token.split("-", 1)]. *)
Definition split_dash (token : string) : string * option string :=
  break_at (fun c => bool_decide (c = dash)) token.

(** [^\d+(-\d+)?$] on a stripped token, which has no final newline. *)
Definition token_re (token : string) : bool :=
  match split_dash token with
  | (low, None) => digit_run low
  | (low, Some high) => digit_run low && digit_run high
  end.

Definition out_of_bounds (port : Z) : bool := (port <? PORT_MIN) || (port >? PORT_MAX).

(** [int(s)] as the parser calls it. *)
Definition py_int (s : string) : pyres Z :=
  match int_of_str s with
  | Some v => Ok v
  | None => Raise (ValueError "invalid literal or too many digits for int()")
  end.

(** The ports one matched token adds. *)
Definition token_ports (token : string) : pyres (gset Z) :=
  match split_dash token with
  | (low_str, Some high_str) =>
      let! low := py_int low_str in
      let! high := py_int high_str in
      if out_of_bounds low then Raise (ValueError "low end out of bounds in range token")
      else if out_of_bounds high then Raise (ValueError "high end out of bounds in range token")
      else if low >? high then Raise (ValueError "inverted range")
      else Ok (list_to_set (seqZ low (high + 1 - low)))
  | (port_str, None) =>
      let! port := py_int port_str in
      if out_of_bounds port then Raise (ValueError "port out of bounds")
      else Ok {[ port ]}
  end.

(** The body of the loop over the tokens. *)
Definition add_token (ports : gset Z) (raw_token : string) : pyres (gset Z) :=
  let token := strip raw_token in
  if negb (truthy_str (Some token)) then Raise (ValueError "empty token in port spec")
  else if negb (token_re token) then Raise (ValueError "invalid port token")
  else
    let! more := token_ports token in
    let ports := ports ∪ more in
    if Z.of_nat (size ports) >? PORT_SPEC_CAP
    then Raise (ValueError "port spec exceeds maximum of 2048 ports")
    else Ok ports.

Definition parse_port_spec (s : string) : pyres (list Z) :=
  if negb (truthy_str (Some s)) || negb (truthy_str (Some (strip s)))
  then Raise (ValueError "port spec must not be empty")
  else
    let! ports := pfold add_token ∅ (split_on comma s) in
    Ok (py_sorted Z.leb (elements ports)).

Example parse_example :
  parse_port_spec " 8443, 443,8000-8002 ,443" = Ok [443; 8000; 8001; 8002; 8443].
Proof. vm_compute. reflexivity. Qed.

Example parse_rejects :
  map (fun s => is_ok (parse_port_spec s)) [" "; "443,"; "0"; "65536"; "9-8"; "1-2-3"; "+1"; "1-2049"]
  = repeat false 8.
Proof. vm_compute. reflexivity. Qed.

(** * The grammar *)

(** [numeral s v]: [s] is a non-empty run of at most 4300 digits with value [v]. *)
Fixpoint dec_value (acc : Z) (s : string) : Z :=
  match s with
  | EmptyString => acc
  | String c s' => dec_value (10 * acc + digit_val c) s'
  end.

Definition numeral (s : string) (v : Z) : Prop :=
  digit_run s = true /\ Z.of_nat (String.length s) <= INT_MAX_STR_DIGITS /\ dec_value 0 s = v.

(** [names_ports t (lo, hi)]: the token [t] names the ports from [lo] to [hi]. *)
Inductive names_ports : string -> Z * Z -> Prop :=
| names_single t p :
    numeral t p -> PORT_MIN <= p <= PORT_MAX -> names_ports t (p, p)
| names_range a b lo hi :
    numeral a lo -> numeral b hi -> PORT_MIN <= lo <= hi -> hi <= PORT_MAX ->
    names_ports (a +:+ String dash b) (lo, hi).

Definition in_range (p : Z) (r : Z * Z) : Prop := r.1 <= p <= r.2.

(** * Digit strings *)

Lemma digit_not_space c : is_digit c = true -> negb (is_space c) = true.
Proof.
  assert (H : forall c, implb (is_digit c) (negb (is_space c)) = true)
    by (apply forall_chars; vm_compute; reflexivity).
  specialize (H c). by destruct (is_digit c).
Qed.

Lemma digit_not_sep sep c :
  is_digit sep = false -> is_digit c = true -> negb (bool_decide (c = sep)) = true.
Proof. intros Hs Hc. apply negb_true_iff, bool_decide_eq_false. congruence. Qed.

Lemma lstrip_by_none p s : every (fun c => negb (p c)) s = true -> lstrip_by p s = s.
Proof. destruct s as [|c s]; simpl; [done|]. by destruct (p c). Qed.

Lemma rstrip_by_none p s : every (fun c => negb (p c)) s = true -> rstrip_by p s = s.
Proof.
  induction s as [|c s IH]; simpl; [done|]. intros [Hc Hs]%andb_true_iff.
  rewrite (IH Hs). destruct s; [|done]. by destruct (p c).
Qed.

Lemma strip_digits s : every is_digit s = true -> strip s = s.
Proof.
  intros H. apply (every_impl _ _ _ digit_not_space) in H.
  unfold strip. by rewrite lstrip_by_none, rstrip_by_none.
Qed.

Lemma split_sign_digits s : every is_digit s = true -> split_sign s = (1, s).
Proof.
  destruct s as [|c s]; [done|]. simpl. intros [Hc _]%andb_true_iff.
  destruct (bool_decide_reflect (c = "-"%char)) as [->|]; [done|].
  destruct (bool_decide_reflect (c = "+"%char)) as [->|]; [done|].
  destruct c as [[] [] [] [] [] [] [] []]; done.
Qed.

Lemma digits_eq s acc n prev :
  every is_digit s = true -> prev || truthy_str (Some s) = true ->
  digits s acc n prev = Some (dec_value acc s, n + Z.of_nat (String.length s)).
Proof.
  revert acc n prev. induction s as [|c s IH]; intros acc n prev Hs Hp; simpl in *.
  - rewrite orb_false_r in Hp. rewrite Hp. do 2 f_equal. lia.
  - apply andb_true_iff in Hs as [-> Hs]. rewrite IH by done. do 2 f_equal. lia.
Qed.

(** [int] reads a digit run as its decimal value, unless it is too long. *)
Lemma int_of_digits s v : digit_run s = true -> int_of_str s = Some v <-> numeral s v.
Proof.
  intros Hd. pose proof Hd as [Ht Hs]%andb_true_iff.
  unfold int_of_str, numeral. rewrite strip_digits, split_sign_digits, digits_eq by done.
  destruct (Z.leb_spec (0 + Z.of_nat (String.length s)) INT_MAX_STR_DIGITS) as [H|H]; split.
  - intros [= <-]. split_and!; [done|lia|lia].
  - intros (_ & _ & <-). f_equal. lia.
  - done.
  - lia.
Qed.

(** ** Printing *)

Lemma pretty_N_char_digit x :
  (x < 10)%N -> is_digit (pretty_N_char x) = true /\ digit_val (pretty_N_char x) = Z.of_N x.
Proof.
  intros H.
  assert (Hx : x ∈ [0; 1; 2; 3; 4; 5; 6; 7; 8; 9]%N) by (rewrite !elem_of_cons; lia).
  revert x H Hx. assert (H : Forall (fun x => is_digit (pretty_N_char x) = true /\
    digit_val (pretty_N_char x) = Z.of_N x) [0; 1; 2; 3; 4; 5; 6; 7; 8; 9]%N)
    by (repeat constructor; by vm_compute).
  rewrite Forall_forall in H. auto.
Qed.

Lemma dec_value_snoc acc d c :
  dec_value acc (d +:+ String c "") = 10 * dec_value acc d + digit_val c.
Proof. revert acc. induction d as [|c' d IH]; intros acc; simpl; [done|]. apply IH. Qed.

Lemma length_snoc d c : String.length (d +:+ String c "") = S (String.length d).
Proof. induction d as [|c' d IH]; simpl; [done|]. by rewrite IH. Qed.

Lemma pretty_N_go_spec k x s :
  (x < 10 ^ N.of_nat k)%N ->
  exists d, pretty_N_go x s = d +:+ s /\ every is_digit d = true
            /\ dec_value 0 d = Z.of_N x /\ (String.length d <= k)%nat.
Proof.
  revert x s. induction k as [|k IH]; intros x s Hx.
  - exists "". assert (x = 0%N) as -> by (simpl in Hx; lia). by rewrite pretty_N_go_0.
  - destruct (decide (x = 0%N)) as [->|Hx0]; [exists ""; rewrite pretty_N_go_0; split_and!; [done..|simpl; lia]|].
    rewrite pretty_N_go_step by lia.
    assert (Hq : (x / 10 < 10 ^ N.of_nat k)%N).
    { apply N.Div0.div_lt_upper_bound. rewrite <- N.pow_succ_r', <- Nat2N.inj_succ. done. }
    destruct (IH _ (String (pretty_N_char (x mod 10)) s) Hq) as (d & -> & Hd & Hv & Hl).
    destruct (pretty_N_char_digit (x mod 10)) as [Hc Hcv]; [apply N.mod_lt; lia|].
    exists (d +:+ String (pretty_N_char (x mod 10)) ""). split_and!.
    + by rewrite append_assoc.
    + by rewrite every_app; cbn [every]; rewrite Hd, Hc.
    + rewrite dec_value_snoc, Hv, Hcv. pose proof (N.div_mod' x 10). lia.
    + rewrite length_snoc. lia.
Qed.

(** The decimal text of a port is a numeral for it. *)
Lemma numeral_pretty p : PORT_MIN <= p <= PORT_MAX -> numeral (pretty p) p.
Proof.
  unfold PORT_MIN, PORT_MAX. intros Hp. destruct p as [|p|p]; [lia| |lia].
  change (pretty (Zpos p)) with (pretty_N_go (Npos p) "").
  destruct (pretty_N_go_spec 5 (Npos p) "") as (d & -> & Hd & Hv & Hl); [lia|].
  rewrite append_nil.
  unfold numeral, digit_run. rewrite Hd, Hv. split_and!.
  - destruct d; [|done]. simpl in Hv. lia.
  - unfold INT_MAX_STR_DIGITS. lia.
  - done.
Qed.

(** * Tokens *)

Lemma split_dash_inv t : forall a o, split_dash t = (a, o) ->
  t = match o with None => a | Some b => a +:+ String dash b end.
Proof.
  unfold split_dash. induction t as [|c t IH]; intros a o; simpl; [by intros [= <- <-]|].
  destruct (bool_decide_reflect (c = dash)) as [->|_]; [by intros [= <- <-]|].
  destruct (break_at _ t) as [a' o'] eqn:E. intros [= <- <-]. rewrite (IH a' o' eq_refl).
  by destruct o'.
Qed.

Lemma split_dash_none t : every is_digit t = true -> split_dash t = (t, None).
Proof.
  unfold split_dash. induction t as [|c t IH]; simpl; [done|]. intros [Hc Ht]%andb_true_iff.
  pose proof (digit_not_sep dash c eq_refl Hc) as Hn%negb_true_iff. by rewrite Hn, IH.
Qed.

Lemma split_dash_some a b : every is_digit a = true -> split_dash (a +:+ String dash b) = (a, Some b).
Proof.
  unfold split_dash. induction a as [|c a IH]; simpl; [done|]. intros [Hc Ha]%andb_true_iff.
  pose proof (digit_not_sep dash c eq_refl Hc) as Hn%negb_true_iff.
  change (String c a +:+ String dash b) with (String c (a +:+ String dash b)). simpl.
  by rewrite Hn, IH.
Qed.

Definition range_set (r : Z * Z) : gset Z := list_to_set (seqZ r.1 (r.2 + 1 - r.1)).

Lemma elem_of_range_set p r : p ∈ range_set r <-> in_range p r.
Proof. unfold range_set, in_range. rewrite elem_of_list_to_set, elem_of_seqZ. lia. Qed.

Lemma range_set_single p : range_set (p, p) = {[ p ]}.
Proof. apply set_eq. intros q. rewrite elem_of_range_set, elem_of_singleton. unfold in_range. simpl. lia. Qed.

Lemma py_int_ok s v : digit_run s = true -> py_int s = Ok v <-> numeral s v.
Proof.
  intros Hs. rewrite <- int_of_digits by done. unfold py_int.
  destruct (int_of_str s); split; congruence.
Qed.

Lemma bounds_ok p : out_of_bounds p = false <-> PORT_MIN <= p <= PORT_MAX.
Proof. unfold out_of_bounds. rewrite orb_false_iff, Z.ltb_ge, Z.gtb_ltb, Z.ltb_ge. lia. Qed.

Lemma numeral_run s v : numeral s v -> digit_run s = true /\ every is_digit s = true.
Proof. intros [H _]. split; [done|]. by apply andb_true_iff in H as [_ ?]. Qed.

(** The grammar read back through the split at the dash. *)
Lemma names_ports_inv t r :
  names_ports t r <->
  (exists p, split_dash t = (t, None) /\ r = (p, p) /\ numeral t p /\ PORT_MIN <= p <= PORT_MAX)
  \/ (exists a b, split_dash t = (a, Some b) /\ numeral a r.1 /\ numeral b r.2
        /\ PORT_MIN <= r.1 <= r.2 /\ r.2 <= PORT_MAX).
Proof.
  split.
  - intros [t' p Ht Hp|a b lo hi Ha Hb H1 H2]; [left|right].
    + exists p. rewrite split_dash_none by apply (numeral_run _ _ Ht). done.
    + exists a, b. rewrite split_dash_some by apply (numeral_run _ _ Ha). done.
  - intros [(p & _ & -> & Ht & Hp)|(a & b & E & Ha & Hb & H1 & H2)]; [by constructor|].
    pose proof (split_dash_inv _ _ _ E) as ->. destruct r. by constructor.
Qed.

Lemma names_ports_re t r : names_ports t r -> truthy_str (Some t) = true /\ token_re t = true.
Proof.
  rewrite names_ports_inv. unfold token_re.
  intros [(p & -> & _ & [Hr _]%numeral_run & _)|(a & b & E & [Ha _]%numeral_run & [Hb _]%numeral_run & _)].
  - split; [|done]. by apply andb_true_iff in Hr as [? _].
  - rewrite E, Ha, Hb. split; [|done]. pose proof (split_dash_inv _ _ _ E) as ->. by destruct a.
Qed.

(** A matched token either names a range, whose ports are added, or raises. *)
Lemma token_ports_ok t X :
  token_re t = true -> token_ports t = Ok X <-> exists r, names_ports t r /\ X = range_set r.
Proof.
  unfold token_re, token_ports. setoid_rewrite names_ports_inv.
  pose proof (split_dash_inv t) as Hinv.
  destruct (split_dash t) as [a [b|]]; specialize (Hinv _ _ eq_refl); cbv iota in Hinv; [clear Hinv|subst a].
  - intros [Ha Hb]%andb_true_iff. split.
    + intros (lo & Hlo & (hi & Hhi & H)%pbind_ok)%pbind_ok.
      rewrite py_int_ok in Hlo, Hhi by done.
      destruct (out_of_bounds lo) eqn:B1; [done|]. destruct (out_of_bounds hi) eqn:B2; [done|].
      apply bounds_ok in B1, B2. destruct (Z.gtb_spec lo hi); [done|]. injection H as <-.
      exists (lo, hi). split; [|done]. right. exists a, b. simpl. split_and!; [done..|lia|lia|lia].
    + intros ([lo hi] & [(p & [=] & _)|(a' & b' & [= <- <-] & Hlo & Hhi & B1 & B2)] & ->). simpl in *.
      apply py_int_ok in Hlo as ->, Hhi as ->; [|done..]. cbn [pbind].
      rewrite !(proj2 (bounds_ok _)) by lia. by destruct (Z.gtb_spec lo hi); [lia|].
  - intros Ha. split.
    + intros (p & Hp & H)%pbind_ok. rewrite py_int_ok in Hp by done.
      destruct (out_of_bounds p) eqn:B; [done|]. apply bounds_ok in B. injection H as <-.
      exists (p, p). rewrite range_set_single. split; [|done]. left. exists p.
      done.
    + intros ([lo hi] & [(p & _ & [= -> ->] & Ht & Hp)|(a' & b' & [=] & _)] & ->).
      apply py_int_ok in Ht as ->; [|done]. cbn [pbind]. rewrite (proj2 (bounds_ok _)) by done.
      by rewrite range_set_single.
Qed.

Lemma add_token_ok P raw P' :
  add_token P raw = Ok P' <->
  exists r, names_ports (strip raw) r /\ P' = P ∪ range_set r /\ Z.of_nat (size P') <= PORT_SPEC_CAP.
Proof.
  unfold add_token. cbv zeta. split.
  - destruct (truthy_str (Some (strip raw))); [|done].
    destruct (token_re (strip raw)) eqn:Hre; [|done]. simpl negb. cbv iota.
    intros (X & (r & Hr & ->)%token_ports_ok & H)%pbind_ok; [|done].
    destruct (Z.gtb_spec (Z.of_nat (size (P ∪ range_set r))) PORT_SPEC_CAP); [done|].
    injection H as <-. eauto.
  - intros (r & Hr & -> & Hs). destruct (names_ports_re _ _ Hr) as [-> Hre]. rewrite Hre. simpl negb. cbv iota.
    rewrite (proj2 (token_ports_ok _ (range_set r) Hre)) by eauto. cbn [pbind].
    by destruct (Z.gtb_spec (Z.of_nat (size (P ∪ range_set r))) PORT_SPEC_CAP); [lia|].
Qed.

(** Checking the cap after every token is checking it once at the end. *)
Lemma add_tokens_ok toks P P' :
  pfold add_token P toks = Ok P' <->
  exists rs, Forall2 (fun raw r => names_ports (strip raw) r) toks rs
             /\ P' = P ∪ ⋃ (map range_set rs)
             /\ (toks <> [] -> Z.of_nat (size P') <= PORT_SPEC_CAP).
Proof.
  revert P. induction toks as [|raw toks IH]; intros P; simpl.
  - split; [intros [= ->]; exists []|intros (rs & Hrs & -> & _)].
    + split_and!; [constructor| |done]. simpl. set_solver.
    + inversion Hrs; subst. f_equal. simpl. set_solver.
  - rewrite pbind_ok. setoid_rewrite IH. setoid_rewrite add_token_ok. split.
    + intros (Q & (r & Hr & -> & Hq) & rs & Hrs & -> & Hs). exists (r :: rs).
      split_and!; [by constructor|simpl; set_solver|].
      destruct toks as [|t toks]; [|by intros _; apply Hs]. inversion Hrs; subst. simpl. intros _.
      by rewrite union_empty_r_L.
    + intros (rs' & Hrs & -> & Hs). inversion Hrs as [|? r ? rs Hr Hrs']; subst. simpl in *.
      specialize (Hs ltac:(done)). exists (P ∪ range_set r). split.
      * exists r. split_and!; [done..|]. etrans; [|exact Hs]. apply inj_le, subseteq_size. set_solver.
      * exists rs. split_and!; [done|set_solver|done].
Qed.

(** * Splitting and joining *)

Definition is_not (sep c : Ascii.ascii) : bool := negb (bool_decide (c = sep)).

Lemma split_on_none sep s : every (is_not sep) s = true -> split_on sep s = [s].
Proof.
  induction s as [|c s IH]; simpl; [done|]. intros [Hc%negb_true_iff Hs]%andb_true_iff.
  by rewrite Hc, IH.
Qed.

Lemma split_on_app sep a b :
  every (is_not sep) a = true -> split_on sep (a +:+ String sep b) = a :: split_on sep b.
Proof.
  induction a as [|c a IH]; intros Ha.
  - simpl. by rewrite bool_decide_true.
  - simpl in Ha. apply andb_true_iff in Ha as [Hc%negb_true_iff Ha].
    rewrite append_cons. simpl. by rewrite Hc, IH.
Qed.

Lemma split_comma_join ts :
  ts <> [] -> Forall (fun t => every (is_not comma) t = true) ts ->
  split_on comma (comma_join ts) = ts.
Proof.
  intros Hne Hts. induction Hts as [|t [|t' ts] Ht Hts IH]; [done|by apply split_on_none|].
  change (comma_join (t :: t' :: ts)) with (t +:+ String comma (comma_join (t' :: ts))).
  rewrite split_on_app by done. f_equal. by apply IH.
Qed.

Lemma rstrip_empty p s : rstrip_by p s = "" -> every p s = true.
Proof.
  induction s as [|c s IH]; simpl; [done|].
  destruct (rstrip_by p s); [|done]. rewrite IH by done. by destruct (p c).
Qed.

Lemma strip_empty s : strip s = "" -> every is_space s = true.
Proof.
  intros H%rstrip_empty. induction s as [|c s IH]; simpl in *; [done|].
  destruct (is_space c) eqn:Hc; [by apply IH|]. simpl in H. by rewrite Hc in H.
Qed.

Lemma space_not_comma c : is_space c = true -> is_not comma c = true.
Proof.
  assert (H : forall c, implb (is_space c) (is_not comma c) = true)
    by (apply forall_chars; vm_compute; reflexivity).
  specialize (H c). by destruct (is_space c).
Qed.

Lemma names_ports_not_empty r : ~ names_ports "" r.
Proof. intros [H _]%names_ports_re. done. Qed.

(** * The sorted result *)

Lemma sorted_ports_spec (X : gset Z) :
  StronglySorted Z.lt (py_sorted Z.leb (elements X)) /\ forall p, p ∈ py_sorted Z.leb (elements X) <-> p ∈ X.
Proof.
  split; [|intros p; by rewrite py_sorted_perm, elem_of_elements].
  assert (Hs : all_above Z.leb (py_sorted Z.leb (elements X))) by (apply py_sorted_above; intros; lia).
  assert (Hn : NoDup (py_sorted Z.leb (elements X))) by (rewrite py_sorted_perm; apply NoDup_elements).
  revert Hs Hn. generalize (py_sorted Z.leb (elements X)). intros l.
  induction l as [|x l IH]; [constructor|]. intros [Hx Hl] [Hn Hnl]%NoDup_cons.
  constructor; [by apply IH|]. rewrite List.Forall_forall in *. intros y Hy.
  specialize (Hx y Hy). assert (x <> y) by (intros ->; apply Hn; by apply list_elem_of_In). lia.
Qed.

Lemma StronglySorted_unique l l' :
  StronglySorted Z.lt l -> StronglySorted Z.lt l' -> (forall p, p ∈ l <-> p ∈ l') -> l = l'.
Proof.
  assert (Hnd : forall l, StronglySorted Z.lt l -> NoDup l /\ all_above Z.leb l).
  { clear. induction 1 as [|x l Hl [Hn Ha] Hx]; [split; constructor|]. split.
    - constructor; [|done]. intros Hin%list_elem_of_In. rewrite List.Forall_forall in Hx.
      specialize (Hx _ Hin). lia.
    - split; [|done]. eapply Forall_impl; [exact Hx|]. intros y Hy. simpl in *. lia. }
  intros [H1 H2]%Hnd [H3 H4]%Hnd Hp.
  apply (all_above_unique Z.leb); [intros; lia|done..|]. by apply NoDup_Permutation.
Qed.

Lemma parse_ok s l :
  parse_port_spec s = Ok l <->
  exists rs, Forall2 (fun raw r => names_ports (strip raw) r) (split_on comma s) rs
             /\ StronglySorted Z.lt l /\ (forall p, p ∈ l <-> Exists (in_range p) rs)
             /\ Z.of_nat (length l) <= PORT_SPEC_CAP.
Proof.
  assert (Hu : forall rs p, p ∈ ⋃ (map range_set rs) <-> Exists (in_range p) rs).
  { intros rs p. rewrite elem_of_union_list, Exists_exists. setoid_rewrite list_elem_of_In at 1.
    setoid_rewrite in_map_iff. setoid_rewrite <- list_elem_of_In. split.
    - intros (X & (r & <- & Hr) & Hp%elem_of_range_set). eauto.
    - intros (r & Hr & Hp). exists (range_set r). rewrite elem_of_range_set. eauto. }
  assert (Hl : forall X : gset Z, length (py_sorted Z.leb (elements X)) = size X).
  { intros X. by rewrite py_sorted_perm. }
  unfold parse_port_spec. split.
  - destruct (_ || _); [done|]. intros (X & (rs & Hrs & -> & Hs)%add_tokens_ok & [= <-])%pbind_ok.
    rewrite union_empty_l_L in *. destruct (sorted_ports_spec (⋃ (map range_set rs))) as [H1 H2].
    exists rs. split_and!; [done..|intros p; by rewrite H2, Hu|]. rewrite Hl. apply Hs.
    destruct s as [|c s]; simpl; [done|]. destruct (bool_decide _); [done|by destruct (split_on comma s)].
  - intros (rs & Hrs & Hsort & Hp & Hs). destruct (sorted_ports_spec (⋃ (map range_set rs))) as [H1 H2].
    assert (l = py_sorted Z.leb (elements (⋃ (map range_set rs)))) as ->.
    { apply StronglySorted_unique; [done..|]. intros p. by rewrite H2, Hu. }
    rewrite Hl in Hs. destruct (strip s) as [|c r] eqn:E.
    + apply strip_empty in E as E'. apply (every_impl _ _ _ space_not_comma) in E'.
      rewrite split_on_none in Hrs by done. inversion Hrs as [|? r ? ? Hr]; subst.
      rewrite E in Hr. by apply names_ports_not_empty in Hr.
    + destruct s as [|c' s]; [done|]. simpl negb. cbv iota. simpl orb.
      rewrite (proj2 (add_tokens_ok _ ∅ (⋃ (map range_set rs)))); [done|].
      exists rs. by rewrite union_empty_l_L.
Qed.

Lemma pretty_port p :
  PORT_MIN <= p <= PORT_MAX ->
  every (is_not comma) (pretty p) = true /\ names_ports (strip (pretty p)) (p, p).
Proof.
  intros Hp. pose proof (numeral_pretty p Hp) as Hn. destruct (numeral_run _ _ Hn) as [_ Hs].
  split; [|rewrite strip_digits by done; by constructor].
  eapply every_impl; [|exact Hs]. intros c. by apply digit_not_sep.
Qed.

Lemma parse_joined ports :
  ports <> [] -> (forall p, p ∈ ports -> PORT_MIN <= p <= PORT_MAX) ->
  Z.of_nat (size (list_to_set ports : gset Z)) <= PORT_SPEC_CAP ->
  parse_port_spec (joined_ports ports)
  = Ok (py_sorted Z.leb (elements (list_to_set ports : gset Z))).
Proof.
  intros Hne Hb Hs. destruct (sorted_ports_spec (list_to_set ports)) as [H1 H2].
  assert (Hin : forall p, p ∈ py_sorted Z.leb ports <-> p ∈ ports) by (intros p; by rewrite py_sorted_perm).
  apply parse_ok. exists (map (fun p => (p, p)) (py_sorted Z.leb ports)). split_and!.
  - unfold joined_ports. rewrite split_comma_join.
    + apply Forall2_fmap_2, Forall_Forall2_diag, Forall_forall. intros p Hp%Hin. by apply pretty_port, Hb.
    + intros E%map_eq_nil. apply Hne. apply Permutation_nil_r. by rewrite <- E, py_sorted_perm.
    + apply Forall_fmap, Forall_forall. intros p Hp%Hin. by apply pretty_port, Hb.
  - done.
  - intros p. rewrite H2, elem_of_list_to_set, <- Hin, Exists_exists. unfold in_range. split.
    + intros Hp. exists (p, p). simpl. split; [|lia]. apply list_elem_of_fmap. eauto.
    + intros (r & (q & -> & Hq)%list_elem_of_fmap & Hr). simpl in Hr. by replace p with q by lia.
  - by rewrite py_sorted_perm.
Qed.

(** * Properties *)

Lemma py_int_error s e : py_int s = Raise e -> exists msg, e = ValueError msg.
Proof. unfold py_int. destruct (int_of_str s); [done|]. intros [= <-]. eauto. Qed.

Lemma add_token_error P raw e : add_token P raw = Raise e -> exists msg, e = ValueError msg.
Proof.
  unfold add_token, token_ports. cbv zeta.
  repeat first
    [ progress (intros [= <-]; eauto)
    | match goal with
      | |- context [split_dash ?t] => destruct (split_dash t) as [? [?|]]
      | |- context [py_int ?s] => let E := fresh in
          destruct (py_int s) eqn:E; simpl; [|intros [= <-]; by eapply py_int_error]
      | |- context [if ?b then _ else _] => destruct b; simpl
      end ].
Qed.

(** C34: The parser accepts exactly the port specifications of the grammar: it
    returns [l] when every comma-separated token, spaces around it aside, is a
    port or a non-inverted range between 1 and 65535, [l] is the strictly
    increasing list of the ports some token names, and there are at most 2048
    of them.  On every other string it raises [ValueError], whatever order the
    errors come in. *)
Theorem parse_port_spec_exact s :
  (forall l, parse_port_spec s = Ok l <->
    exists rs, Forall2 (fun raw r => names_ports (strip raw) r) (split_on comma s) rs
               /\ StronglySorted Z.lt l /\ (forall p, p ∈ l <-> Exists (in_range p) rs)
               /\ Z.of_nat (length l) <= PORT_SPEC_CAP)
  /\ (is_ok (parse_port_spec s) = true
      \/ exists msg, parse_port_spec s = Raise (ValueError msg)).
Proof.
  split; [apply parse_ok|]. unfold parse_port_spec. destruct (_ || _); [by right; eauto|].
  generalize (∅ : gset Z). induction (split_on comma s) as [|raw toks IH]; intros P; simpl; [by left|].
  destruct (add_token P raw) as [P'|e] eqn:E; simpl; [apply IH|].
  right. destruct (add_token_error _ _ _ E) as [msg ->]. eauto.
Qed.

(** The port list the scope signature records reads back: the
    comma-joined decimal text of a non-empty list of ports, at most 2048
    distinct ones between 1 and 65535 in any order, parses to the same ports,
    sorted and without repetition. *)
Theorem joined_ports_roundtrip ports :
  ports <> [] -> (forall p, p ∈ ports -> PORT_MIN <= p <= PORT_MAX) ->
  Z.of_nat (size (list_to_set ports : gset Z)) <= PORT_SPEC_CAP ->
  exists l, parse_port_spec (joined_ports ports) = Ok l
            /\ StronglySorted Z.lt l /\ (forall p, p ∈ l <-> p ∈ ports)
            /\ parse_port_spec (joined_ports l) = Ok l.
Proof.
  intros Hne Hb Hs. destruct (sorted_ports_spec (list_to_set ports)) as [H1 H2].
  set (l := py_sorted Z.leb (elements (list_to_set ports : gset Z))) in *.
  assert (Hin : forall p, p ∈ l <-> p ∈ ports) by (intros p; by rewrite H2, elem_of_list_to_set).
  assert (E : list_to_set l = (list_to_set ports : gset Z)).
  { apply set_eq. intros p. by rewrite !elem_of_list_to_set. }
  exists l. split_and!; [by apply parse_joined|done|done|].
  rewrite parse_joined; [by rewrite E| |by intros p Hp%Hin; apply Hb|by rewrite E].
  destruct ports as [|p ports]; [done|]. intros E'. specialize (Hin p). rewrite E' in Hin.
  apply (not_elem_of_nil p), Hin. left.
Qed.

Lemma joined_ports_roundtrip_witness :
  exists l, parse_port_spec (joined_ports [8443; 443; 25; 443]) = Ok l
            /\ StronglySorted Z.lt l /\ (forall p, p ∈ l <-> p ∈ [8443; 443; 25; 443])
            /\ parse_port_spec (joined_ports l) = Ok l.
Proof.
  apply (joined_ports_roundtrip [8443; 443; 25; 443]); [done| |by vm_compute].
  apply Forall_forall. repeat constructor; by vm_compute.
Defined.
