(* ===== verification/Closure.v ===== *)
(** Remediation closure: [src/quirk/intelligence/closure.py].

    The tables closure reads and writes ([remediation_items],
    [remediation_item_fingerprints], [remediation_closure_events],
    [scan_scope_signatures], [crypto_endpoints]) as one state record, the
    comparability ladder, the per host:port recheck decision, and
    [compute_closure] with its three passes: prior rows, resurfacing, item
    rollup.

    The session has [autoflush=False]: a query is evaluated on the tables as
    they were last flushed, while the rows it returns are the session's own
    objects with the attribute changes made so far.  The model keeps the
    flushed snapshot for the filters and the running state for the attributes.
    [slug] and [scan_run_id] of remediation rows are nullable in the schema and
    set by every writer; they are plain strings here.  [now n] is the value of
    the [n]-th call of [datetime.now], [set_order] the iteration order of a
    Python set. *)
From Stdlib Require Import ZArith Lia Ascii.
From stdpp Require Import base tactics sets strings list.
From S2P Require Import Prelude PyVal Model Evidence Remediation ScopeSignature.

Local Open Scope Z_scope.
Local Open Scope quirk_scope.

(** * Tables *)

Record RemediationItem := {
  it_id : Z;
  it_slug : string;
  it_scan : string;
  it_title : option string;
  it_phase : option string;
  it_priority : option Z;
  it_constituency : option string;
  it_state : string;
  it_first_seen : option string;
  it_created : option Z
}.

Record RemediationItemFingerprint := {
  fr_id : Z;
  fr_item : option Z;
  fr_slug : string;
  fr_scan : string;
  fr_fp : string;
  fr_host : option string;
  fr_port : option Z;
  fr_title : option string;
  fr_state : string;
  fr_observed : option Z
}.

Record RemediationClosureEvent := {
  ev_slug : string;
  ev_fp : option string;
  ev_scan : string;
  ev_prior : option string;
  ev_type : string;
  ev_from : option string;
  ev_to : option string;
  ev_reason : option string;
  ev_at : Z
}.

Record db := {
  db_endpoints : list endpoint_row;
  db_items : list RemediationItem;
  db_fps : list RemediationItemFingerprint;
  db_events : list RemediationClosureEvent;
  db_sigs : list sig_row;
  db_calls : nat
}.

Definition with_state (s : string) (r : RemediationItemFingerprint) : RemediationItemFingerprint :=
  {| fr_id := fr_id r; fr_item := fr_item r; fr_slug := fr_slug r; fr_scan := fr_scan r;
     fr_fp := fr_fp r; fr_host := fr_host r; fr_port := fr_port r; fr_title := fr_title r;
     fr_state := s; fr_observed := fr_observed r |}.

Definition with_item (i : Z) (r : RemediationItemFingerprint) : RemediationItemFingerprint :=
  {| fr_id := fr_id r; fr_item := Some i; fr_slug := fr_slug r; fr_scan := fr_scan r;
     fr_fp := fr_fp r; fr_host := fr_host r; fr_port := fr_port r; fr_title := fr_title r;
     fr_state := fr_state r; fr_observed := fr_observed r |}.

Definition item_with_state (s : string) (i : RemediationItem) : RemediationItem :=
  {| it_id := it_id i; it_slug := it_slug i; it_scan := it_scan i; it_title := it_title i;
     it_phase := it_phase i; it_priority := it_priority i; it_constituency := it_constituency i;
     it_state := s; it_first_seen := it_first_seen i; it_created := it_created i |}.

Definition set_fps (f : list RemediationItemFingerprint -> list RemediationItemFingerprint) (d : db) : db :=
  {| db_endpoints := db_endpoints d; db_items := db_items d; db_fps := f (db_fps d);
     db_events := db_events d; db_sigs := db_sigs d; db_calls := db_calls d |}.

Definition set_items (f : list RemediationItem -> list RemediationItem) (d : db) : db :=
  {| db_endpoints := db_endpoints d; db_items := f (db_items d); db_fps := db_fps d;
     db_events := db_events d; db_sigs := db_sigs d; db_calls := db_calls d |}.

Definition add_event (e : RemediationClosureEvent) (d : db) : db :=
  {| db_endpoints := db_endpoints d; db_items := db_items d; db_fps := db_fps d;
     db_events := db_events d ++ [e]; db_sigs := db_sigs d; db_calls := db_calls d |}.

(** One call of [datetime.now]. *)
Definition tick (d : db) : db :=
  {| db_endpoints := db_endpoints d; db_items := db_items d; db_fps := db_fps d;
     db_events := db_events d; db_sigs := db_sigs d; db_calls := S (db_calls d) |}.

(** The rowid SQLite assigns to an inserted row. *)
Definition fresh_id (ids : list Z) : Z := 1 + foldr Z.max 0 ids.

(** Attribute assignment on the object of a row. *)
Definition update_fp (id : Z) (f : RemediationItemFingerprint -> RemediationItemFingerprint)
    (l : list RemediationItemFingerprint) : list RemediationItemFingerprint :=
  map (fun r => if fr_id r =? id then f r else r) l.

Definition update_item (id : Z) (f : RemediationItem -> RemediationItem) (l : list RemediationItem)
  : list RemediationItem :=
  map (fun i => if it_id i =? id then f i else i) l.

(** The session's object for a row some query returned. *)
Definition fp_object (d : db) (r : RemediationItemFingerprint) : RemediationItemFingerprint :=
  default r (List.find (fun r' => fr_id r' =? fr_id r) (db_fps d)).

Definition item_object (d : db) (i : RemediationItem) : RemediationItem :=
  default i (List.find (fun i' => it_id i' =? it_id i) (db_items d)).

(** ** Queries *)

(** [ORDER BY col DESC, id DESC] (NULL last), and its first row. *)
Definition opt_leb (a b : option Z) : bool :=
  match a, b with
  | None, _ => true
  | Some _, None => false
  | Some x, Some y => x <=? y
  end.

Definition newer (ta tb : option Z) (ia ib : Z) : bool :=
  opt_leb tb ta && (negb (opt_leb ta tb) || (ib <=? ia)).

Definition first_by {A} (leb : A -> A -> bool) (l : list A) : option A := List.head (py_sorted leb l).

Definition newer_fp (a b : RemediationItemFingerprint) : bool :=
  newer (fr_observed a) (fr_observed b) (fr_id a) (fr_id b).

Definition newer_item (a b : RemediationItem) : bool :=
  newer (it_created a) (it_created b) (it_id a) (it_id b).

Definition fps_of_scan (scan : string) (d : db) : list RemediationItemFingerprint :=
  List.filter (fun r => str_eqb (fr_scan r) scan) (db_fps d).

Definition items_of_scan (scan : string) (d : db) : list RemediationItem :=
  List.filter (fun i => str_eqb (it_scan i) scan) (db_items d).

Definition find_item (slug scan : string) (d : db) : option RemediationItem :=
  List.find (fun i => str_eqb (it_slug i) slug && str_eqb (it_scan i) scan) (db_items d).

Definition find_sig (scan : string) (d : db) : option sig_row :=
  List.find (fun s => str_eqb (sg_scan s) scan) (db_sigs d).

Definition endpoints_of_scan (scan : string) (d : db) : list endpoint_row :=
  List.filter (fun e => match ep_scan_run_id (er_ep e) with
                        | Some s => str_eqb s scan
                        | None => false
                        end) (db_endpoints d).

(** * Vocabulary *)

Definition CLOSURE_MODEL_VERSION : string := "1.0.0".
Definition COMPARABILITY_REASONS : list string :=
  ["comparable"; "no_prior_scan"; "missing_signature"; "signature_version_gap";
   "missing_target_set_digest"; "scope_mismatch"].
Definition CLOSED_STATE : string := "closed".
Definition NOT_OBSERVED_STATE : string := DEFAULT_ITEM_STATE.
Definition TWO_SIDED_REASON : string := "two_sided_verified".
Definition FINGERPRINT_RECLASS_PROTOCOLS : list string := ["SSH"; "TLS"].
Definition RESURFACE_REASON : string := "detected_after_closure".
Definition COUNTER_KEYS : list string :=
  ["closed"; "resurfaced"; "reclosed"; "items_closed"; "refused_no_prior";
   "refused_missing_signature"; "refused_signature_version_gap";
   "refused_missing_target_set_digest"; "refused_scope_mismatch"; "refused_probe";
   "refused_absent_endpoint"; "refused_missing_snapshot"; "unchanged"].

Definition counters := list (string * Z).
Definition zero_counters : counters := map (fun k => (k, 0)) COUNTER_KEYS.
Definition bump (k : string) (c : counters) : counters := aset k (default 0 (alookup k c) + 1) c.

(** * Comparability *)

Definition select_prior_scan_run_id (d : db) (current : string) : option string :=
  option_map sg_scan
    (first_by (fun a b => opt_leb (sg_created b) (sg_created a))
       (List.filter (fun s => negb (str_eqb (sg_scan s) current)) (db_sigs d))).

Definition scans_are_comparable (d : db) (current : string) (prior : option string) : bool * string :=
  if negb (truthy_str prior) then (false, "no_prior_scan")
  else match find_sig current d, find_sig (str_or_empty prior) d with
  | Some cur, Some pri =>
      let versioned s := bool_decide (sg_version s = Some SCOPE_SIGNATURE_VERSION) in
      if negb (versioned cur) || negb (versioned pri) then (false, "signature_version_gap")
      else if negb (truthy_str (sg_target_digest cur)) || negb (truthy_str (sg_target_digest pri))
      then (false, "missing_target_set_digest")
      else if negb (str_eqb (sg_digest cur) (sg_digest pri)) then (false, "scope_mismatch")
      else (true, "comparable")
  | _, _ => (false, "missing_signature")
  end.

Definition load_probe_health (s : option sig_row) : pydict :=
  match s with
  | Some r => match sg_probe_health r with Some (VDict h) => h | _ => [] end
  | None => []
  end.

(** * The endpoint index *)

Definition proto (e : endpoint_row) : option string := ep_protocol (er_ep e).

Definition non_asset (e : endpoint_row) : bool :=
  match proto e with Some p => str_in p NON_ASSET_PROTOCOLS | None => false end.

Definition errored (e : endpoint_row) : bool := bool_decide (is_Some (ep_scan_error (er_ep e))).
Definition blocked (e : endpoint_row) : bool := truthy_str (ep_tls_blocker_reason (er_ep e)).

Definition at_hp (host : option string) (port : option Z) (e : endpoint_row) : bool :=
  bool_decide (host = Some (ep_host (er_ep e))) && bool_decide (port = Some (ep_port (er_ep e))).

(** A probe failed here; a protocol no family classifies; an error-free asset;
    a live row of a family. *)
Definition failed_row (e : endpoint_row) : bool :=
  bool_decide (proto e = Some "CLOSED") || (blocked e && negb (non_asset e))
  || (negb (non_asset e) && errored e).

Definition unclassified_row (e : endpoint_row) : bool :=
  negb (non_asset e) && bool_decide (family_for_protocol (proto e) = None).

Definition asset_row (e : endpoint_row) : bool :=
  truthy_str (proto e) && negb (non_asset e) && negb (errored e) && negb (blocked e).

Definition live_row (e : endpoint_row) : bool :=
  asset_row e && bool_decide (is_Some (family_for_protocol (proto e))).

(** Live in an earlier scan: [tls_blocker_reason] is not consulted there. *)
Definition was_live (e : endpoint_row) : bool :=
  truthy_str (proto e) && negb (non_asset e) && negb (errored e)
  && bool_decide (is_Some (family_for_protocol (proto e))).

Definition protocols_of (eps : list endpoint_row) : list string := omap proto eps.
Definition families_of (eps : list endpoint_row) : list string :=
  omap (fun e => family_for_protocol (proto e)) eps.

Definition evidenced_row (e : endpoint_row) : bool :=
  live_row e && endpoint_has_family_evidence e (family_for_protocol (proto e)).

Definition host_port_rechecked (prior_families reclass_baseline live_families live_protocols : list string)
    (probe_health : pydict) (evidenced : option (list string)) : bool :=
  match prior_families with
  | [] => false
  | _ => forallb (fun fam =>
      probe_family_rechecked probe_health (Some fam)
      && (if str_in fam live_families
          then match evidenced with Some ev => str_in fam ev | None => true end
          else str_eqb fam "http"
               && existsb (fun p => str_in p FINGERPRINT_RECLASS_PROTOCOLS
                    && negb (match family_for_protocol (Some p) with
                             | Some f => str_in f reclass_baseline
                             | None => false
                             end)) live_protocols)) prior_families
  end.

(** * The verdict on one prior row *)

Notation key := (string * string)%type.

Definition key_of (r : RemediationItemFingerprint) : key := (fr_slug r, fr_fp r).

Definition in_keys (k : key) (l : list key) : bool := bool_decide (k ∈ l).

Definition detection_row (d : db) (row : RemediationItemFingerprint) (current : string)
  : option RemediationItemFingerprint :=
  first_by newer_fp
    (List.filter (fun r => bool_decide (key_of r = key_of row)
                           && str_in (fr_state r) OPEN_LIKE_STATES
                           && negb (str_eqb (fr_scan r) current)) (db_fps d)).

Definition endpoints_at (scan : string) (host : option string) (port : option Z) (d : db) : list endpoint_row :=
  List.filter (at_hp host port) (endpoints_of_scan scan d).

Definition detection_protocols (d : db) (detected : option RemediationItemFingerprint)
    (row : RemediationItemFingerprint) : list (option string) :=
  match detected with
  | None => []
  | Some det => map proto (endpoints_at (fr_scan det) (fr_host row) (fr_port row) d)
  end.

Definition live_families_at (d : db) (scan : string) (host : option string) (port : option Z) : list string :=
  families_of (List.filter was_live (endpoints_at scan host port d)).

Inductive verdict :=
| Unchanged
| RefusedAbsentEndpoint
| RefusedProbe
| Close (detected : option RemediationItemFingerprint).

Section Judge.
Context (flushed : db) (current prior : string) (probe_health : pydict).

(** What the current scan recorded at a host:port, and the adjacent prior one. *)
Definition current_at (row : RemediationItemFingerprint) : list endpoint_row :=
  endpoints_at current (fr_host row) (fr_port row) flushed.
Definition prior_at (row : RemediationItemFingerprint) : list endpoint_row :=
  endpoints_at prior (fr_host row) (fr_port row) flushed.

(** The probe-family basis of the row: [prior_raw], [detected]. *)
Definition carried (row : RemediationItemFingerprint) : bool := str_eqb (fr_state row) NOT_OBSERVED_STATE.

Definition detected_of (row : RemediationItemFingerprint) : option RemediationItemFingerprint :=
  if carried row then detection_row flushed row current else None.

Definition prior_raw (row : RemediationItemFingerprint) : list (option string) :=
  map proto (prior_at row)
  ++ (if carried row then detection_protocols flushed (detected_of row) row else []).

Definition prior_set (row : RemediationItemFingerprint) : list string :=
  List.filter (fun p => negb (str_in p NON_ASSET_PROTOCOLS)) (omap id (prior_raw row)).

Definition check_protocols (row : RemediationItemFingerprint) : list string :=
  match prior_set row with
  | [] => match protocols_of (List.filter asset_row (current_at row)) with
          | [] => protocols_of (List.filter live_row (current_at row))
          | l => l
          end
  | l => l
  end.

Definition families (row : RemediationItemFingerprint) : list (option string) :=
  map (fun p => family_for_protocol (Some p)) (check_protocols row).

Definition reclass_baseline (row : RemediationItemFingerprint) : list string :=
  if negb (carried row) then families_of (List.filter was_live (prior_at row))
  else match detected_of row with
       | Some det => live_families_at flushed (fr_scan det) (fr_host row) (fr_port row)
       | None => omap id (families row)
       end.

Definition judge (current_keys : list key) (row : RemediationItemFingerprint) : verdict :=
  let cur := current_at row in
  if str_eqb (fr_state row) CLOSED_STATE then Unchanged
  else if in_keys (key_of row) current_keys then Unchanged
  else if bool_decide (cur = []) then RefusedAbsentEndpoint
  else if bool_decide (List.filter live_row cur = []) || existsb unclassified_row cur
          || existsb failed_row cur then RefusedProbe
  else if existsb (fun p => negb (truthy_str p)) (prior_raw row) then RefusedProbe
  else if carried row && bool_decide (prior_set row = []) then RefusedProbe
  else if carried row && bool_decide (detected_of row = None) then RefusedProbe
  else if existsb (fun f => bool_decide (f = None)) (families row)
          || negb (host_port_rechecked (omap id (families row)) (reclass_baseline row)
                     (families_of (List.filter live_row cur))
                     (protocols_of (List.filter live_row cur)) probe_health
                     (Some (families_of (List.filter evidenced_row cur))))
  then RefusedProbe
  else Close (detected_of row).
End Judge.

(** * The running computation *)

(** The tables as the session's objects stand, and the local variables of
    [compute_closure]. *)
Record run := {
  run_db : db;
  run_counters : counters;
  run_keys : list key;
  run_items : list (string * RemediationItem);
  run_inserted : list (string * Z);
  run_closed_slugs : list string;
  run_detecting : list (string * string)
}.

Definition on_db (f : db -> db) (r : run) : run :=
  {| run_db := f (run_db r); run_counters := run_counters r; run_keys := run_keys r;
     run_items := run_items r; run_inserted := run_inserted r;
     run_closed_slugs := run_closed_slugs r; run_detecting := run_detecting r |}.

Definition count (k : string) (r : run) : run :=
  {| run_db := run_db r; run_counters := bump k (run_counters r); run_keys := run_keys r;
     run_items := run_items r; run_inserted := run_inserted r;
     run_closed_slugs := run_closed_slugs r; run_detecting := run_detecting r |}.

Section Compute.
Context (now : nat -> Z) (set_order : list string -> list string).

(** [_write_closure_event], the only writer of events. *)
Definition write_closure_event (slug : string) (fp : option string) (scan : string) (prior : option string)
    (event_type : string) (from to reason : option string) (r : run) : pyres run :=
  if negb (str_in event_type CLOSURE_EVENT_TYPES)
  then Raise (ValueError "closure.py: refusing to write RemediationClosureEvent")
  else Ok (on_db (fun d => tick (add_event
         {| ev_slug := slug; ev_fp := fp; ev_scan := scan; ev_prior := prior;
            ev_type := event_type; ev_from := from; ev_to := to; ev_reason := reason;
            ev_at := now (db_calls d) |} d)) r).

(** Insert a copy of a prior row on the current scan in the given state. *)
Definition copied_row (current state : string) (row : RemediationItemFingerprint) (r : run)
  : RemediationItemFingerprint :=
  {| fr_id := fresh_id (map fr_id (db_fps (run_db r)));
     fr_item := option_map it_id (alookup (fr_slug row) (run_items r));
     fr_slug := fr_slug row; fr_scan := current; fr_fp := fr_fp row; fr_host := fr_host row;
     fr_port := fr_port row; fr_title := fr_title row; fr_state := state;
     fr_observed := Some (now (db_calls (run_db r))) |}.

Definition insert_row (new : RemediationItemFingerprint) (r : run) : run :=
  {| run_db := tick (set_fps (fun l => l ++ [new]) (run_db r)); run_counters := run_counters r;
     run_keys := run_keys r; run_items := run_items r;
     run_inserted := run_inserted r ++ [(fr_slug new, fr_id new)];
     run_closed_slugs := run_closed_slugs r; run_detecting := run_detecting r |}.

Definition note_key (k : key) (r : run) : run :=
  {| run_db := run_db r; run_counters := run_counters r; run_keys := k :: run_keys r;
     run_items := run_items r; run_inserted := run_inserted r;
     run_closed_slugs := run_closed_slugs r; run_detecting := run_detecting r |}.

Definition carry_forward (current : string) (row : RemediationItemFingerprint) (r : run) : run :=
  if in_keys (key_of row) (run_keys r) then r
  else let r := note_key (key_of row) r in
       insert_row (copied_row current NOT_OBSERVED_STATE row r) r.

Definition note_closed (slug : string) (r : run) : run :=
  {| run_db := run_db r; run_counters := run_counters r; run_keys := run_keys r;
     run_items := run_items r; run_inserted := run_inserted r;
     run_closed_slugs := slug :: run_closed_slugs r; run_detecting := run_detecting r |}.

Definition note_detecting (slug scan : string) (r : run) : run :=
  {| run_db := run_db r; run_counters := run_counters r; run_keys := run_keys r;
     run_items := run_items r; run_inserted := run_inserted r;
     run_closed_slugs := run_closed_slugs r; run_detecting := (slug, scan) :: run_detecting r |}.

Definition set_fp_state (id : Z) (s : string) : run -> run := on_db (set_fps (update_fp id (with_state s))).

(** The closing branch. *)
Definition close_row (current prior : string) (row : RemediationItemFingerprint)
    (detected : option RemediationItemFingerprint) (r : run) : pyres run :=
  let detected := option_map (fp_object (run_db r)) detected in
  let from_state := fr_state row in
  let lineage_state := match detected with Some det => fr_state det | None => from_state end in
  let r := set_fp_state (fr_id row) CLOSED_STATE r in
  let event_type := if str_eqb lineage_state RESURFACED_STATE then "reclosed" else "closed" in
  let! r := write_closure_event (fr_slug row) (Some (fr_fp row)) current (Some prior) event_type
              (Some from_state) (Some CLOSED_STATE) (Some TWO_SIDED_REASON) r in
  let r := note_closed (fr_slug row) (count event_type r) in
  let r := match detected with
           | Some det => note_detecting (fr_slug row) (fr_scan det) (set_fp_state (fr_id det) CLOSED_STATE r)
           | None => r
           end in
  Ok (insert_row (copied_row current CLOSED_STATE row r) r).

(** One iteration over [prior_rows]. *)
Definition process_prior (flushed : db) (current prior : string) (probe_health : pydict)
    (r : run) (row : RemediationItemFingerprint) : pyres run :=
  let row := fp_object (run_db r) row in
  match judge flushed current prior probe_health (run_keys r) row with
  | Unchanged => Ok (count "unchanged" r)
  | RefusedAbsentEndpoint => Ok (carry_forward current row (count "refused_absent_endpoint" r))
  | RefusedProbe => Ok (carry_forward current row (count "refused_probe" r))
  | Close detected => close_row current prior row detected r
  end.

(** ** Resurfacing *)

Definition latest_prior_row (d : db) (current : string) (row : RemediationItemFingerprint)
  : option RemediationItemFingerprint :=
  first_by newer_fp
    (List.filter (fun x => bool_decide (key_of x = key_of row) && negb (str_eqb (fr_scan x) current))
       (db_fps d)).

(** One iteration over [current_fp_rows]. *)
Definition process_current (flushed : db) (current : string) (r : run) (row : RemediationItemFingerprint)
  : pyres run :=
  let row := fp_object (run_db r) row in
  if str_in (fr_state row) [RESURFACED_STATE; CLOSED_STATE] then Ok (count "unchanged" r)
  else match option_map (fp_object (run_db r)) (latest_prior_row flushed current row) with
  | None => Ok r
  | Some latest =>
      if negb (str_eqb (fr_state latest) CLOSED_STATE) then Ok r
      else
        let r := set_fp_state (fr_id row) RESURFACED_STATE r in
        let! r := write_closure_event (fr_slug row) (Some (fr_fp row)) current (Some (fr_scan latest))
                    "resurfaced" (Some CLOSED_STATE) (Some RESURFACED_STATE) (Some RESURFACE_REASON) r in
        Ok (count "resurfaced" r)
  end.

(** ** Item rollup *)

Definition all_closed (states : list string) : bool :=
  negb (bool_decide (states = [])) && forallb (fun s => str_eqb s CLOSED_STATE) states.

Definition set_item_state (id : Z) (s : string) : run -> run :=
  on_db (set_items (update_item id (item_with_state s))).

(** One detecting scan of a slug: the template item, whether an item flipped. *)
Definition rollup_detecting (slug : string) (s : run * option RemediationItem * bool) (scan : string)
  : run * option RemediationItem * bool :=
  let '(r, template, flipped) := s in
  match find_item slug scan (run_db r) with
  | None => s
  | Some item =>
      let template := match template with Some t => Some t | None => Some item end in
      if str_eqb (it_state item) CLOSED_STATE then (r, template, flipped)
      else
        let states := map fr_state (List.filter (fun x => str_eqb (fr_slug x) slug)
                                      (fps_of_scan scan (run_db r))) in
        if all_closed states then (set_item_state (it_id item) CLOSED_STATE r, template, true)
        else (r, template, flipped)
  end.

(** The closed item of the current scan, with the rows inserted beside it linked. *)
Definition insert_closed_item (slug current : string) (template : RemediationItem) (r : run) : run :=
  let d := run_db r in
  let item := {| it_id := fresh_id (map it_id (db_items d)); it_slug := slug; it_scan := current;
                 it_title := it_title template; it_phase := it_phase template;
                 it_priority := it_priority template; it_constituency := it_constituency template;
                 it_state := CLOSED_STATE; it_first_seen := it_first_seen template;
                 it_created := Some (now (db_calls d)) |} in
  let linked (x : RemediationItemFingerprint) :=
    bool_decide ((slug, fr_id x) ∈ run_inserted r) && bool_decide (fr_item x = None) in
  {| run_db := set_fps (map (fun x => if linked x then with_item (it_id item) x else x))
                 (tick (set_items (fun l => l ++ [item]) d));
     run_counters := run_counters r; run_keys := run_keys r;
     run_items := aset slug item (run_items r); run_inserted := run_inserted r;
     run_closed_slugs := run_closed_slugs r; run_detecting := run_detecting r |}.

Definition detecting_scans (slug : string) (r : run) : list string :=
  sorted_strings (remove_dups (map snd (List.filter (fun p => str_eqb p.1 slug) (run_detecting r)))).

(** The adjacent prior scan's item: closed when every constituent is. *)
Definition rollup_prior (prior_rows : list RemediationItemFingerprint) (prior slug : string) (r : run)
  : run * option RemediationItem * bool * bool :=
  let item := find_item slug prior (run_db r) in
  let states := map fr_state (List.filter (fun x => str_eqb (fr_slug x) slug)
                                (map (fp_object (run_db r)) prior_rows)) in
  let closed := all_closed states in
  match item with
  | Some i => if negb (str_eqb (it_state i) CLOSED_STATE) && closed
              then (set_item_state (it_id i) CLOSED_STATE r, item, true, closed)
              else (r, item, false, closed)
  | None => (r, None, false, closed)
  end.

(** One iteration over [touched_slugs]. *)
Definition rollup (prior_rows : list RemediationItemFingerprint) (current prior : string)
    (r : run) (slug : string) : run :=
  let '(r, template, flipped, closed) := rollup_prior prior_rows prior slug r in
  let '(r, template, flipped) :=
    foldl (rollup_detecting slug) (r, template, flipped) (detecting_scans slug r) in
  let r := if flipped then count "items_closed" r else r in
  if negb closed || bool_decide (is_Some (alookup slug (run_items r)))
     || negb (flipped || str_in slug (run_closed_slugs r))
  then r
  else
    let template := match template with
                    | Some t => Some t
                    | None => first_by newer_item
                                (List.filter (fun i => str_eqb (it_slug i) slug && negb (str_eqb (it_scan i) current))
                                   (db_items (run_db r)))
                    end in
    match template with
    | None => r
    | Some t => insert_closed_item slug current t r
    end.

(** ** The whole computation *)

Definition init_run (current : string) (d : db) : run :=
  {| run_db := d; run_counters := zero_counters;
     run_keys := map key_of (fps_of_scan current d);
     run_items := map (fun i => (it_slug i, i)) (items_of_scan current d);
     run_inserted := []; run_closed_slugs := []; run_detecting := [] |}.

(** The three passes over a comparable pair of scans with a snapshot. *)
Definition closure_passes (current prior : string) (d : db) : pyres run :=
  let probe_health := load_probe_health (find_sig current d) in
  let prior_rows := fps_of_scan prior d in
  let! r := pfold (process_prior d current prior probe_health) (init_run current d) prior_rows in
  let! r := pfold (process_current d current) r (fps_of_scan current d) in
  Ok (foldl (rollup prior_rows current prior) r (set_order (remove_dups (map fr_slug prior_rows)))).

(** The counters and the tables after the call.  An exception rolls the
    transaction back and reports zero counters. *)
Definition compute_closure (db_path scan_run_id : option string) (d : db) : counters * db :=
  if negb (truthy_str db_path) || negb (truthy_str scan_run_id) then (zero_counters, d)
  else
    let current := str_or_empty scan_run_id in
    match select_prior_scan_run_id d current with
    | None => (aset "refused_no_prior" 1 zero_counters, d)
    | Some prior =>
        let '(comparable, reason) := scans_are_comparable d current (Some prior) in
        if negb comparable then (aset ("refused_" +:+ reason) 1 zero_counters, d)
        else if bool_decide (items_of_scan current d = []) && bool_decide (fps_of_scan current d = [])
        then (aset "refused_missing_snapshot" 1 zero_counters, d)
        else match closure_passes current prior d with
             | Ok r => (run_counters r, run_db r)
             | Raise _ => (zero_counters, d)
             end
    end.
End Compute.

(** * Counts *)

Definition closure_counts (d : db) (scan_run_id : string) : list (string * Z) :=
  let in_state s := Z.of_nat (length (List.filter (fun r => str_eqb (fr_state r) s) (fps_of_scan scan_run_id d))) in
  let counts := map (fun s => (s, in_state s)) ITEM_STATES in
  counts ++ [("open_like", foldr Z.add 0 (map (fun s => default 0 (alookup s counts)) OPEN_LIKE_STATES))].
