(* ===== verification/ClosureTheory.v ===== *)
(** How the running tables of [Closure.compute_closure] relate to the flushed
    ones: which rows change, which are added, which events are written.

    [evolved] relates the fingerprint table at a point of the computation to
    the table it started from; [PriorInv] and [CurrentInv] are the invariants of
    the first two passes. *)
From Stdlib Require Import ZArith Lia Ascii.
From stdpp Require Import base tactics sets strings list.
From S2P Require Import Prelude PyVal Model Evidence Remediation ScopeSignature Closure.

Local Open Scope Z_scope.
Local Open Scope quirk_scope.

Notation fp_row := RemediationItemFingerprint (only parsing).

(** * Table constraints *)

Definition slot (r : fp_row) : string * key := (fr_scan r, key_of r).

(** The unique constraints and primary keys of the schema. *)
Record wf (d : db) : Prop := {
  wf_ids : NoDup (map fr_id (db_fps d));
  wf_slots : NoDup (map slot (db_fps d));
  wf_item_ids : NoDup (map it_id (db_items d));
  wf_item_slots : NoDup (map (fun i => (it_slug i, it_scan i)) (db_items d));
  wf_sig_scans : NoDup (map sg_scan (db_sigs d))
}.

Lemma fresh_id_gt ids i : i ∈ ids -> i < fresh_id ids.
Proof.
  unfold fresh_id. induction ids as [|j ids IH]; intros Hi; [by apply not_elem_of_nil in Hi|].
  simpl. apply elem_of_cons in Hi as [->|Hi]; [lia|]. specialize (IH Hi). lia.
Qed.

Lemma fresh_id_not_in ids : fresh_id ids ∉ ids.
Proof. intros H. apply fresh_id_gt in H. lia. Qed.

(** Two rows of a table with a unique column are equal when they agree on it. *)
Lemma nodup_map_inj {A B} (f : A -> B) l x y :
  NoDup (map f l) -> x ∈ l -> y ∈ l -> f x = f y -> x = y.
Proof.
  induction l as [|z l IH]; intros Hnd Hx Hy E; [by apply not_elem_of_nil in Hx|].
  simpl in Hnd. apply NoDup_cons in Hnd as [Hz Hnd].
  assert (Hmem : forall w, w ∈ l -> f w ∈ map f l) by (intros; by apply list_elem_of_fmap_2).
  apply elem_of_cons in Hx as [->|Hx], Hy as [->|Hy]; auto.
  - exfalso. apply Hz. rewrite E. auto.
  - exfalso. apply Hz. rewrite <- E. auto.
Qed.

Lemma elem_of_fps scan d r : r ∈ fps_of_scan scan d <-> r ∈ db_fps d /\ fr_scan r = scan.
Proof. unfold fps_of_scan. by rewrite elem_of_filter_bool, str_eqb_eq. Qed.

Lemma non_nil_elem {A} (l : list A) : l <> [] -> exists x, x ∈ l.
Proof. destruct l as [|x l]; [done|]. exists x. left. Qed.

Lemma first_by_elem {A} (leb : A -> A -> bool) l x : first_by leb l = Some x -> x ∈ l.
Proof.
  unfold first_by. intros H. rewrite <- (py_sorted_perm leb l).
  destruct (py_sorted leb l); simplify_eq/=. left.
Qed.

(** * Evolution of the fingerprint table *)

Lemma with_state_same a : with_state (fr_state a) a = a.
Proof. by destruct a. Qed.

Lemma Forall2_mem {A B} (R : A -> B -> Prop) l k : Forall2 R l k -> Forall2 (fun x y => x ∈ l /\ R x y) l k.
Proof.
  intros H. apply Forall2_same_length_lookup_2; [by eapply Forall2_length|].
  intros i x y Hx Hy. split; [by eapply list_elem_of_lookup_2|by eapply Forall2_lookup_lr].
Qed.

Section Evolution.
Context (d0 : db) (Hwf : wf d0).

(** What became of a flushed row: only its state may differ, as [P] allows. *)
Definition restated (P : fp_row -> string -> Prop) (a b : fp_row) : Prop :=
  b = with_state (fr_state b) a /\ (fr_state b = fr_state a \/ P a (fr_state b)).

(** The table is the flushed one restated, followed by rows satisfying [N]
    under ids of their own. *)
Definition evolved (P : fp_row -> string -> Prop) (N : fp_row -> Prop) (fps : list fp_row) : Prop :=
  exists old new, fps = old ++ new /\ Forall2 (restated P) (db_fps d0) old
    /\ Forall (fun n => N n /\ fr_id n ∉ map fr_id (db_fps d0)) new
    /\ NoDup (map fr_id fps).

Lemma evolved_init P N : evolved P N (db_fps d0).
Proof.
  exists (db_fps d0), []. rewrite app_nil_r. split_and!; [done| |constructor|apply Hwf].
  apply Forall_Forall2_diag. apply Forall_true. intros a. split; [|by left].
  by rewrite with_state_same.
Qed.

Lemma evolved_mono P P' N N' fps :
  (forall a s, P a s -> P' a s) -> (forall n, N n -> N' n) -> evolved P N fps -> evolved P' N' fps.
Proof.
  intros HP HN (old & new & -> & Ho & Hn & Hid). exists old, new. split_and!; [done| | |done].
  - eapply Forall2_impl; [exact Ho|]. intros a b [? [?|?]]; split; auto.
  - eapply Forall_impl; [exact Hn|]. naive_solver.
Qed.

Lemma restated_id P a b : restated P a b -> fr_id b = fr_id a.
Proof. intros [-> _]. done. Qed.

Lemma restated_ids P old : Forall2 (restated P) (db_fps d0) old -> map fr_id old = map fr_id (db_fps d0).
Proof. induction 1 as [|a b l k Hab _ IH]; simpl; [done|]. by rewrite IH, (restated_id P a b). Qed.

(** Every row is an old one restated or a new one. *)
Lemma evolved_elem P N fps b :
  evolved P N fps -> b ∈ fps ->
  (exists a, a ∈ db_fps d0 /\ restated P a b) \/ (N b /\ fr_id b ∉ map fr_id (db_fps d0)).
Proof.
  intros (old & new & -> & Ho & Hn & _) Hb. apply elem_of_app in Hb as [Hb|Hb].
  - left. apply list_elem_of_lookup in Hb as [i Hi].
    destruct (Forall2_lookup_r _ _ _ _ _ Ho Hi) as (a & Ha & Hab).
    exists a. split; [by eapply list_elem_of_lookup_2|done].
  - right. rewrite Forall_forall in Hn. auto.
Qed.

Lemma evolved_keeps P N fps a :
  evolved P N fps -> a ∈ db_fps d0 -> exists b, b ∈ fps /\ restated P a b.
Proof.
  intros (old & new & -> & Ho & _ & _) Ha. apply list_elem_of_lookup in Ha as [i Hi].
  destruct (Forall2_lookup_l _ _ _ _ _ Ho Hi) as (b & Hb & Hab).
  exists b. split; [|done]. apply elem_of_app. left. by eapply list_elem_of_lookup_2.
Qed.

Lemma find_id (l : list fp_row) b :
  NoDup (map fr_id l) -> b ∈ l -> List.find (fun r => fr_id r =? fr_id b) l = Some b.
Proof.
  intros Hnd Hb. destruct (List.find _ l) as [c|] eqn:E.
  - apply find_some in E as [Hc E]. apply Z.eqb_eq in E. f_equal.
    apply (nodup_map_inj fr_id l); auto. by apply list_elem_of_In.
  - apply list_elem_of_In in Hb. apply (find_none _ _ E) in Hb. lia.
Qed.

(** The object of a flushed row. *)
Lemma evolved_object P N d a :
  evolved P N (db_fps d) -> a ∈ db_fps d0 -> restated P a (fp_object d a) /\ fp_object d a ∈ db_fps d.
Proof.
  intros Hev Ha. destruct (evolved_keeps P N _ a Hev Ha) as (b & Hb & Hab).
  unfold fp_object. rewrite <- (restated_id P a b Hab).
  destruct Hev as (? & ? & _ & _ & _ & Hnd). by rewrite (find_id _ b Hnd Hb).
Qed.

Lemma update_fp_ids id s l : map fr_id (update_fp id (with_state s) l) = map fr_id l.
Proof. unfold update_fp. rewrite map_map. apply map_ext. intros r. by destruct (_ =? _). Qed.

Lemma update_fp_other id f l : id ∉ map fr_id l -> update_fp id f l = l.
Proof.
  induction l as [|r l IH]; simpl; [done|]. rewrite not_elem_of_cons. intros [Hne Hl].
  rewrite (proj2 (Z.eqb_neq _ _)) by done. by rewrite IH.
Qed.

Lemma evolved_set (P : fp_row -> string -> Prop) N fps a s :
  a ∈ db_fps d0 -> P a s -> evolved P N fps -> evolved P N (update_fp (fr_id a) (with_state s) fps).
Proof.
  intros Ha HP (old & new & -> & Ho & Hn & Hid).
  exists (update_fp (fr_id a) (with_state s) old), new.
  assert (Hnew : update_fp (fr_id a) (with_state s) new = new).
  { apply update_fp_other. intros Hin. apply list_elem_of_fmap in Hin as (n & En & Hin).
    rewrite Forall_forall in Hn. destruct (Hn n Hin) as [_ Hf]. apply Hf. rewrite <- En.
    by apply list_elem_of_fmap_2. }
  split_and!; [| |done|].
  - unfold update_fp. rewrite map_app. f_equal. exact Hnew.
  - unfold update_fp. apply Forall2_fmap_r. eapply Forall2_impl; [exact (Forall2_mem _ _ _ Ho)|].
    intros x y [Hx Hxy]. unfold compose. rewrite (restated_id _ _ _ Hxy).
    destruct (fr_id x =? fr_id a) eqn:E; [|done]. apply Z.eqb_eq in E.
    assert (x = a) as -> by (apply (nodup_map_inj fr_id (db_fps d0)); auto; apply Hwf).
    destruct Hxy as [-> _]. split; [done|by right].
  - unfold update_fp. rewrite <- (update_fp_ids (fr_id a) s) in Hid. exact Hid.
Qed.

Lemma evolved_insert P (N : fp_row -> Prop) fps n :
  evolved P N fps -> N n -> fr_id n = fresh_id (map fr_id fps) -> evolved P N (fps ++ [n]).
Proof.
  intros (old & new & -> & Ho & Hn & Hid) HN En. exists old, (new ++ [n]).
  assert (Hf : fr_id n ∉ map fr_id (old ++ new)) by (rewrite En; apply fresh_id_not_in).
  split_and!; [by rewrite app_assoc|done| |].
  - apply Forall_app. split; [done|]. constructor; [|constructor]. split; [done|].
    rewrite <- (restated_ids P old Ho). intros H. apply Hf. rewrite map_app. apply elem_of_app. auto.
  - rewrite map_app. apply NoDup_app. split_and!; [done| |apply NoDup_singleton].
    intros x Hx Hx'. apply list_elem_of_singleton in Hx' as ->. done.
Qed.
End Evolution.

(** * The evidence of a closing verdict *)

Section Passes.
Context (now : nat -> Z) (d : db) (current prior : string) (health : pydict).
Hypothesis Hwf : wf d.
Hypothesis Hprior : prior <> current.

Definition current_keys : list key := map key_of (fps_of_scan current d).

Definition at_row (row : fp_row) : list endpoint_row := current_at d current row.

(** A live row at the host:port shows that the family was rechecked there, or
    that an HTTP port was re-identified. *)
Definition family_rechecked_at (row : fp_row) (fam : string) : Prop :=
  probe_family_rechecked health (Some fam) = true
  /\ ((exists e, e ∈ at_row row /\ live_row e = true /\ family_for_protocol (proto e) = Some fam
         /\ endpoint_has_family_evidence e (Some fam) = true)
      \/ (fam = "http" /\ exists e p f, e ∈ at_row row /\ live_row e = true /\ proto e = Some p
            /\ p ∈ FINGERPRINT_RECLASS_PROTOCOLS /\ family_for_protocol (Some p) = Some f
            /\ f ∉ reclass_baseline d current prior row)).

(** Side (b) of the closure condition: the host:port of the row was reached by
    the current scan, every probe there succeeded, and every family that had
    reported the finding was rechecked there. *)
Definition positively_rechecked (row : fp_row) : Prop :=
  (exists e, e ∈ at_row row /\ live_row e = true)
  /\ (forall e, e ∈ at_row row -> failed_row e = false /\ unclassified_row e = false)
  /\ exists fams, fams <> [] /\ Forall (family_rechecked_at row) fams
       /\ (forall p, p ∈ prior_set d current prior row ->
             exists f, family_for_protocol (Some p) = Some f /\ f ∈ fams).

(** Both sides: seen before, absent now, positively rechecked. *)
Definition two_sided (row : fp_row) : Prop :=
  row ∈ fps_of_scan prior d /\ fr_state row <> CLOSED_STATE
  /\ key_of row ∉ current_keys /\ positively_rechecked row.

Lemma existsb_false_elem {A} (p : A -> bool) l x : existsb p l = false -> x ∈ l -> p x = false.
Proof.
  intros H Hx. apply not_true_iff_false. intros Hp. apply not_true_iff_false in H.
  apply H, existsb_exists. exists x. split; [by apply list_elem_of_In|done].
Qed.

Lemma elem_of_families_of l fam :
  fam ∈ families_of l <-> exists e, e ∈ l /\ family_for_protocol (proto e) = Some fam.
Proof. unfold families_of. by rewrite list_elem_of_omap. Qed.

Lemma host_port_rechecked_spec row fams :
  host_port_rechecked fams (reclass_baseline d current prior row)
    (families_of (List.filter live_row (at_row row))) (protocols_of (List.filter live_row (at_row row)))
    health (Some (families_of (List.filter evidenced_row (at_row row)))) = true ->
  fams <> [] /\ Forall (family_rechecked_at row) fams.
Proof.
  destruct fams as [|f0 fams0]; [done|]. set (fams := f0 :: fams0). intros H. split; [done|].
  change (host_port_rechecked fams) with (host_port_rechecked (f0 :: fams0)) in H.
  unfold host_port_rechecked in H. fold fams in H. rewrite forallb_forall in H.
  apply Forall_forall. intros fam Hf. apply list_elem_of_In, H in Hf.
  apply andb_true_iff in Hf as [Hr Hf]. split; [done|].
  destruct (str_in fam (families_of (List.filter live_row (at_row row)))) eqn:El.
  - left. apply bool_decide_eq_true, elem_of_families_of in Hf as (e & He & Hfam).
    apply elem_of_filter_bool in He as [He Hev]. unfold evidenced_row in Hev.
    apply andb_true_iff in Hev as [Hl Hev]. rewrite Hfam in Hev. by exists e.
  - right. apply andb_true_iff in Hf as [Hh Hf]. apply str_eqb_eq in Hh. split; [done|].
    apply existsb_exists in Hf as (p & Hp & Hf). apply andb_true_iff in Hf as [Hpr Hb].
    apply list_elem_of_In in Hp. unfold protocols_of in Hp.
    apply list_elem_of_omap in Hp as (e & He & Hpe). apply elem_of_filter_bool in He as [He Hl].
    apply bool_decide_eq_true in Hpr.
    pose proof Hl as Hl'. unfold live_row in Hl'. apply andb_true_iff in Hl' as [_ Hc].
    apply bool_decide_eq_true in Hc as [f Hff]. rewrite Hpe in Hff.
    exists e, p, f. rewrite Hff in Hb. apply negb_true_iff, bool_decide_eq_false in Hb. auto 8.
Qed.

(** The verdict [Close] carries the evidence. *)
Lemma judge_close keys row det :
  judge d current prior health keys row = Close det ->
  fr_state row <> CLOSED_STATE /\ key_of row ∉ keys /\ positively_rechecked row
  /\ det = detected_of d current row.
Proof.
  unfold judge.
  destruct (str_eqb (fr_state row) CLOSED_STATE) eqn:E1; [done|]. apply str_eqb_neq in E1.
  destruct (in_keys _ _) eqn:E2; [done|]. apply bool_decide_eq_false in E2.
  case_bool_decide as E3; [done|].
  destruct (bool_decide (List.filter live_row _ = [])) eqn:E4; [done|].
  destruct (existsb unclassified_row _) eqn:Eu; [done|].
  destruct (existsb failed_row _) eqn:Efl; [done|]. cbn [orb].
  destruct (existsb _ (prior_raw d current prior row)) eqn:E5; [done|].
  destruct (carried row && bool_decide (prior_set d current prior row = [])) eqn:E6; [done|].
  destruct (carried row && bool_decide (detected_of _ _ _ = None)) eqn:E7; [done|].
  match goal with |- (if ?b then _ else _) = _ -> _ => destruct b eqn:E8; [done|] end.
  intros [= <-].
  apply orb_false_iff in E8 as [E8 E9]. apply negb_false_iff in E9.
  split; [done|]. split; [done|]. split; [|done].
  apply host_port_rechecked_spec in E9 as [Hne Hall].
  split; [|split].
  - apply bool_decide_eq_false in E4. apply non_nil_elem in E4 as [e He].
    exists e. by apply elem_of_filter_bool in He.
  - intros e He. split; by eapply existsb_false_elem.
  - exists (omap id (families d current prior row)). split_and!; [done|done|].
    intros p Hp. unfold families, check_protocols in *.
    destruct (prior_set d current prior row) as [|p0 ps] eqn:Eps; [by apply not_elem_of_nil in Hp|].
    pose proof (existsb_false_elem _ _ (family_for_protocol (Some p)) E8) as Hf.
    assert (Hin : family_for_protocol (Some p) ∈ map (fun q => family_for_protocol (Some q)) (p0 :: ps))
      by by apply (list_elem_of_fmap_2 (fun q => family_for_protocol (Some q))).
    specialize (Hf Hin). apply bool_decide_eq_false in Hf.
    destruct (family_for_protocol (Some p)) as [f|] eqn:Ef; [|done].
    exists f. split; [done|]. apply list_elem_of_omap. exists (Some f). split; [|done]. exact Hin.
Qed.

(** * The first pass *)

(** The lineage of a closing row decides the event type. *)
Definition closing_type (row : fp_row) : string :=
  if str_eqb (match detected_of d current row with Some det => fr_state det | None => fr_state row end)
       RESURFACED_STATE then "reclosed" else "closed".

Definition closing_event (row : fp_row) (e : RemediationClosureEvent) : Prop :=
  (ev_slug e, ev_fp e) = (fr_slug row, Some (fr_fp row)) /\ ev_scan e = current
  /\ ev_prior e = Some prior /\ ev_from e = Some (fr_state row) /\ ev_to e = Some CLOSED_STATE
  /\ ev_type e = closing_type row.

Definition same_finding (n row : fp_row) : Prop :=
  key_of n = key_of row /\ fr_host n = fr_host row /\ fr_port n = fr_port row /\ fr_title n = fr_title row.

Definition closed_here (evs : list RemediationClosureEvent) (row : fp_row) : Prop :=
  two_sided row /\ exists e, e ∈ evs /\ closing_event row e.

(** The state changes of the first pass, and the rows it adds. *)
Definition closes (rows : list fp_row) (evs : list RemediationClosureEvent) (a : fp_row) (s : string) : Prop :=
  s = CLOSED_STATE /\ fr_state a <> CLOSED_STATE /\ fr_scan a <> current
  /\ exists row, row ∈ rows /\ closed_here evs row /\ (a = row \/ detected_of d current row = Some a).

Definition adds (rows : list fp_row) (evs : list RemediationClosureEvent) (n : fp_row) : Prop :=
  fr_scan n = current
  /\ exists row, row ∈ rows /\ fr_state row <> CLOSED_STATE /\ key_of row ∉ current_keys
       /\ same_finding n row
       /\ (fr_state n = NOT_OBSERVED_STATE \/ (fr_state n = CLOSED_STATE /\ closed_here evs row)).

Definition counted (evs : list RemediationClosureEvent) (c : counters) : Prop :=
  forall t, t ∈ CLOSURE_EVENT_TYPES ->
    default 0 (alookup t c) = Z.of_nat (length (List.filter (fun e => str_eqb (ev_type e) t) evs)).

(** The invariant after the rows [rows] were judged and [cov] handled. *)
Record PriorInv (rows cov : list fp_row) (evs : list RemediationClosureEvent) (r : run) : Prop := {
  pi_endpoints : db_endpoints (run_db r) = db_endpoints d;
  pi_sigs : db_sigs (run_db r) = db_sigs d;
  pi_items : db_items (run_db r) = db_items d;
  pi_fps : evolved d (closes rows evs) (adds cov evs) (db_fps (run_db r));
  pi_slots : NoDup (map slot (db_fps (run_db r)));
  pi_events : db_events (run_db r) = db_events d ++ evs;
  pi_event_ok : Forall (fun e => exists row, two_sided row /\ closing_event row e) evs;
  pi_keys : forall k, k ∈ current_keys -> k ∈ run_keys r;
  pi_keys_from : forall k, k ∈ run_keys r -> k ∈ current_keys \/ k ∈ map key_of rows;
  pi_covered : Forall (fun row => fr_state row = CLOSED_STATE \/
    exists n, n ∈ db_fps (run_db r) /\ fr_scan n = current /\ key_of n = key_of row) cov;
  pi_inserted : forall s i, (s, i) ∈ run_inserted r -> i ∉ map fr_id (db_fps d);
  pi_run_items : run_items r = run_items (init_run current d);
  pi_counted : counted evs (run_counters r)
}.

Lemma closes_mono rows rows' evs evs' a s :
  (forall x, x ∈ rows -> x ∈ rows') -> (forall e, e ∈ evs -> e ∈ evs') ->
  closes rows evs a s -> closes rows' evs' a s.
Proof. unfold closes, closed_here. naive_solver. Qed.

Lemma adds_mono rows rows' evs evs' n :
  (forall x, x ∈ rows -> x ∈ rows') -> (forall e, e ∈ evs -> e ∈ evs') ->
  adds rows evs n -> adds rows' evs' n.
Proof.
  unfold adds, closed_here. intros Hr He (Hs & row & H1 & H2 & H3 & H4 & H5).
  split; [done|]. exists row. split_and!; auto.
  destruct H5 as [?|(? & ? & e & ? & ?)]; [by left|right]. split_and!; auto. exists e. auto.
Qed.

Lemma counted_bump_other evs c k : k ∉ CLOSURE_EVENT_TYPES -> counted evs c -> counted evs (bump k c).
Proof.
  intros Hk Hc t Ht. unfold bump. rewrite alookup_aset_ne; [by apply Hc|]. by intros ->.
Qed.

Lemma counted_event evs c e :
  ev_type e ∈ CLOSURE_EVENT_TYPES -> counted evs c -> counted (evs ++ [e]) (bump (ev_type e) c).
Proof.
  intros He Hc t Ht. unfold bump. rewrite alookup_aset, List.filter_app, length_app. simpl.
  case_decide as Hd.
  - subst t. rewrite str_eqb_refl. simpl. rewrite Hc by done. lia.
  - apply str_eqb_neq in Hd. rewrite Hd. simpl. rewrite Hc by done. lia.
Qed.

Lemma init_inv : PriorInv [] [] [] (init_run current d).
Proof.
  constructor; simpl; auto.
  - by apply evolved_init.
  - apply Hwf.
  - by rewrite app_nil_r.
  - intros s i H. by apply not_elem_of_nil in H.
  - intros t Ht.
    assert (H : forallb (fun t => default 0 (alookup t zero_counters) =? 0) CLOSURE_EVENT_TYPES = true)
      by (vm_compute; reflexivity).
    rewrite forallb_forall in H. by apply list_elem_of_In, H, Z.eqb_eq in Ht.
Qed.

Lemma inv_judged rows cov evs r row : PriorInv rows cov evs r -> PriorInv (rows ++ [row]) cov evs r.
Proof.
  intros []. constructor; auto.
  - eapply evolved_mono; [| |done]; [|done]. intros a s. apply closes_mono; [|done].
    intros x Hx. apply elem_of_app. auto.
  - intros k Hk. rewrite map_app, elem_of_app. destruct (pi_keys_from0 k Hk); auto.
Qed.

Lemma inv_count rows cov evs r k : k ∉ CLOSURE_EVENT_TYPES -> PriorInv rows cov evs r -> PriorInv rows cov evs (count k r).
Proof. intros Hk []. constructor; auto. by apply counted_bump_other. Qed.

Lemma inv_note_key rows cov evs r k :
  k ∈ map key_of rows -> PriorInv rows cov evs r -> PriorInv rows cov evs (note_key k r).
Proof.
  intros Hk []. constructor; auto; simpl.
  - intros k' Hk'. apply elem_of_cons. auto.
  - intros k' Hk'. apply elem_of_cons in Hk' as [->|Hk']; auto.
Qed.

Lemma inv_note_closed rows cov evs r slug :
  PriorInv rows cov evs r -> PriorInv rows cov evs (note_closed slug r).
Proof. intros []. by constructor. Qed.

Lemma inv_note_detecting rows cov evs r slug scan :
  PriorInv rows cov evs r -> PriorInv rows cov evs (note_detecting slug scan r).
Proof. intros []. by constructor. Qed.

Lemma update_fp_slots id s l : map slot (update_fp id (with_state s) l) = map slot l.
Proof. unfold update_fp. rewrite map_map. apply map_ext. intros r. by destruct (_ =? _). Qed.

Lemma update_fp_keeps id s l n :
  n ∈ l -> exists n', n' ∈ update_fp id (with_state s) l /\ slot n' = slot n.
Proof.
  intros Hn. exists (if fr_id n =? id then with_state s n else n). split; [|by destruct (_ =? _)].
  unfold update_fp. by apply (list_elem_of_fmap_2 (fun r => if fr_id r =? id then with_state s r else r)).
Qed.

Lemma inv_set_closed rows cov evs r a :
  a ∈ db_fps d -> closes rows evs a CLOSED_STATE -> PriorInv rows cov evs r ->
  PriorInv rows cov evs (set_fp_state (fr_id a) CLOSED_STATE r).
Proof.
  intros Ha Hc []. constructor; auto; simpl.
  - by apply evolved_set.
  - by rewrite update_fp_slots.
  - eapply Forall_impl; [exact pi_covered0|]. intros row [?|(n & Hn & Hs & Hk)]; [by left|right].
    destruct (update_fp_keeps (fr_id a) CLOSED_STATE _ n Hn) as (n' & Hn' & E).
    exists n'. rewrite <- Hs, <- Hk. split_and!; [done|exact (f_equal fst E)|exact (f_equal snd E)].
Qed.

Lemma in_current_keys a : a ∈ db_fps d -> fr_scan a = current -> key_of a ∈ current_keys.
Proof. intros Ha Hs. apply list_elem_of_fmap_2, elem_of_fps. done. Qed.

Lemma inv_insert rows cov evs r row n :
  row ∈ rows -> key_of row ∉ map key_of cov -> adds (cov ++ [row]) evs n ->
  key_of n = key_of row -> key_of row ∉ current_keys ->
  fr_id n = fresh_id (map fr_id (db_fps (run_db r))) ->
  PriorInv rows cov evs r -> PriorInv rows (cov ++ [row]) evs (insert_row n r).
Proof.
  intros Hrow Hcov Hadd Hkey Hcur Hid Hi.
  assert (Hfresh : fr_id n ∉ map fr_id (db_fps d)).
  { intros H. apply list_elem_of_fmap in H as (a & E & Ha). destruct Hi.
    destruct (evolved_keeps _ _ _ _ a pi_fps0 Ha) as (b & Hb & Hab).
    apply (fresh_id_not_in (map fr_id (db_fps (run_db r)))). rewrite <- Hid, E.
    rewrite <- (restated_id _ _ _ Hab). by apply list_elem_of_fmap_2. }
  destruct Hi. constructor; auto; simpl.
  - apply evolved_insert; [|done|done]. eapply evolved_mono; [| |exact pi_fps0]; [done|].
    intros m. apply adds_mono; [|done]. intros x Hx. apply elem_of_app. auto.
  - rewrite map_app. apply NoDup_app. split_and!; [done| |apply NoDup_singleton].
    intros x Hx Hx'. apply list_elem_of_singleton in Hx' as ->.
    apply list_elem_of_fmap in Hx as (b & E & Hb).
    pose proof (f_equal fst E : fr_scan n = fr_scan b) as E1.
    pose proof (f_equal snd E : key_of n = key_of b) as E2.
    destruct Hadd as (Hs & _).
    destruct (evolved_elem _ _ _ _ b pi_fps0 Hb) as [(a & Ha & Hab & _)|[(_ & row' & Hr' & _ & _ & (Hk' & _) & _) _]].
    + apply Hcur. rewrite <- Hkey. replace (key_of n) with (key_of a).
      * apply in_current_keys; [done|]. rewrite <- Hs, E1, Hab. done.
      * by rewrite E2, Hab.
    + apply Hcov. rewrite <- Hkey, E2, Hk'. by apply list_elem_of_fmap_2.
  - apply Forall_app. split.
    + eapply Forall_impl; [exact pi_covered0|]. intros x [?|(m & Hm & ?)]; [by left|right].
      exists m. split; [apply elem_of_app; auto|done].
    + constructor; [|constructor]. right. exists n. destruct Hadd as [Hs _].
      split_and!; [|done|done]. apply elem_of_app. right. by apply list_elem_of_singleton.
  - intros s i H. apply elem_of_app in H as [H|H]; [by eapply pi_inserted0|].
    apply list_elem_of_singleton in H. by injection H as -> ->.
Qed.

Lemma closing_type_known row : closing_type row ∈ CLOSURE_EVENT_TYPES.
Proof. unfold closing_type, CLOSURE_EVENT_TYPES. destruct (str_eqb _ _); set_solver. Qed.

(** Append an event and count it. *)
Definition logged (e : RemediationClosureEvent) (r : run) : run :=
  count (ev_type e) (on_db (fun x => tick (add_event e x)) r).

Lemma inv_event rows cov evs r row e :
  two_sided row -> closing_event row e -> PriorInv rows cov evs r ->
  PriorInv rows cov (evs ++ [e]) (logged e r).
Proof.
  intros Hrow He []. constructor; auto; simpl.
  - eapply evolved_mono; [| |exact pi_fps0].
    + intros a s. apply closes_mono; [done|]. intros x Hx. apply elem_of_app. auto.
    + intros n. apply adds_mono; [done|]. intros x Hx. apply elem_of_app. auto.
  - by rewrite pi_events0, app_assoc.
  - apply Forall_app. split; [done|]. constructor; [|constructor]. by exists row.
  - apply counted_event; [|done]. destruct He as (_ & _ & _ & _ & _ & ->). apply closing_type_known.
Qed.

Lemma judge_unchanged keys row :
  judge d current prior health keys row = Unchanged <-> fr_state row = CLOSED_STATE \/ key_of row ∈ keys.
Proof.
  unfold judge. destruct (str_eqb (fr_state row) CLOSED_STATE) eqn:E1.
  { apply str_eqb_eq in E1. naive_solver. }
  apply str_eqb_neq in E1. destruct (in_keys _ _) eqn:E2.
  { apply bool_decide_eq_true in E2. naive_solver. }
  apply bool_decide_eq_false in E2. split; [|naive_solver]. split_ifs; done.
Qed.

Lemma detected_spec row a :
  detected_of d current row = Some a ->
  a ∈ db_fps d /\ key_of a = key_of row /\ fr_state a ∈ OPEN_LIKE_STATES /\ fr_scan a <> current.
Proof.
  unfold detected_of, detection_row. destruct (carried row); [|done].
  intros H. apply first_by_elem, elem_of_filter_bool in H as [Ha H].
  apply andb_true_iff in H as [H Hs]. apply andb_true_iff in H as [Hk Ho].
  apply bool_decide_eq_true in Hk, Ho. apply negb_true_iff, str_eqb_neq in Hs. done.
Qed.

Lemma open_like_not_closed s : s ∈ OPEN_LIKE_STATES -> s <> CLOSED_STATE.
Proof. intros H ->. revert H. unfold OPEN_LIKE_STATES, CLOSED_STATE. set_solver. Qed.

(** A row no judged key touches still has its flushed columns. *)
Lemma object_same rows cov evs r a :
  PriorInv rows cov evs r -> a ∈ db_fps d -> key_of a ∉ map key_of rows -> fp_object (run_db r) a = a.
Proof.
  intros Hi Ha Hk. destruct (evolved_object d (closes rows evs) (adds cov evs) (run_db r) a (pi_fps _ _ _ _ Hi) Ha) as [[E Hs] _].
  destruct Hs as [Hs|(_ & _ & _ & row & Hrow & _ & Hor)].
  - rewrite E, Hs. apply with_state_same.
  - exfalso. apply Hk. assert (key_of a = key_of row) as ->.
    { destruct Hor as [->|Hor]; [done|]. by apply detected_spec in Hor as (_ & ? & _). }
    by apply list_elem_of_fmap_2.
Qed.

Lemma inv_cov_unchanged rows cov evs r row :
  fr_state row = CLOSED_STATE \/ key_of row ∈ current_keys ->
  PriorInv rows cov evs r -> PriorInv rows (cov ++ [row]) evs r.
Proof.
  intros Hrow Hi. pose proof (pi_fps _ _ _ _ Hi) as Hfps. destruct Hi. constructor; auto.
  - eapply evolved_mono; [| |exact pi_fps0]; [done|]. intros n. apply adds_mono; [|done].
    intros x Hx. apply elem_of_app. auto.
  - apply Forall_app. split; [done|]. constructor; [|constructor].
    destruct Hrow as [?|Hk]; [by left|right].
    apply list_elem_of_fmap in Hk as (a & E & Ha). apply elem_of_fps in Ha as [Ha Hs].
    destruct (evolved_keeps _ _ _ _ a Hfps Ha) as (b & Hb & [Eb _]).
    exists b. split_and!; [done|by rewrite Eb|by rewrite Eb, E].
Qed.

Lemma carry_forward_inv rows evs r row :
  row ∈ fps_of_scan prior d -> key_of row ∉ map key_of rows ->
  fr_state row <> CLOSED_STATE -> key_of row ∉ run_keys r ->
  PriorInv (rows ++ [row]) rows evs r ->
  PriorInv (rows ++ [row]) (rows ++ [row]) evs (carry_forward now current row r).
Proof.
  intros Hrow Hk Hs Hrk Hi. unfold carry_forward, in_keys. rewrite bool_decide_false by done.
  assert (Hcur : key_of row ∉ current_keys) by (intros H; by apply Hrk, (pi_keys _ _ _ _ Hi)).
  assert (Hin : row ∈ rows ++ [row]) by (apply elem_of_app; right; by apply list_elem_of_singleton).
  apply (inv_insert _ _ _ _ row); [done|done| |done|done|done|].
  - split; [done|]. exists row. split_and!; try done. by left.
  - apply inv_note_key; [|done]. by apply list_elem_of_fmap_2.
Qed.

Lemma str_in_true s l : s ∈ l -> str_in s l = true.
Proof. apply bool_decide_eq_true. Qed.

(** The closing branch, with the event first. *)
Lemma close_row_eq row r :
  let det := option_map (fp_object (run_db r)) (detected_of d current row) in
  (match det with Some x => fr_state x | None => fr_state row end) =
    (match detected_of d current row with Some x => fr_state x | None => fr_state row end) ->
  exists e r1, closing_event row e
    /\ r1 = set_fp_state (fr_id row) CLOSED_STATE (note_closed (fr_slug row) (logged e r))
    /\ close_row now current prior row (detected_of d current row) r =
       let r2 := match det with
                 | Some x => note_detecting (fr_slug row) (fr_scan x) (set_fp_state (fr_id x) CLOSED_STATE r1)
                 | None => r1
                 end in
       Ok (insert_row (copied_row now current CLOSED_STATE row r2) r2).
Proof.
  intros det Hdet. unfold close_row. fold det. rewrite Hdet. fold (closing_type row).
  set (e := {| ev_slug := fr_slug row; ev_fp := Some (fr_fp row); ev_scan := current;
               ev_prior := Some prior; ev_type := closing_type row; ev_from := Some (fr_state row);
               ev_to := Some CLOSED_STATE; ev_reason := Some TWO_SIDED_REASON;
               ev_at := now (db_calls (run_db r)) |}).
  exists e, (set_fp_state (fr_id row) CLOSED_STATE (note_closed (fr_slug row) (logged e r))).
  split; [by unfold closing_event, e; simpl|]. split; [done|].
  unfold write_closure_event. rewrite (str_in_true _ _ (closing_type_known row)). cbn [negb pbind].
  destruct det; reflexivity.
Qed.

Lemma close_row_inv rows evs r row :
  row ∈ fps_of_scan prior d -> key_of row ∉ map key_of rows ->
  two_sided row -> PriorInv (rows ++ [row]) rows evs r ->
  (forall x, detected_of d current row = Some x -> fp_object (run_db r) x = x) ->
  exists r' e, close_row now current prior row (detected_of d current row) r = Ok r'
    /\ PriorInv (rows ++ [row]) (rows ++ [row]) (evs ++ [e]) r'.
Proof.
  intros Hrow Hk Htwo Hi Hobj.
  destruct (close_row_eq row r) as (e & r1 & He & Hr1 & Heq).
  { destruct (detected_of d current row); simpl; [by rewrite Hobj|done]. }
  rewrite Heq. clear Heq. cbv zeta.
  pose proof Htwo as (_ & Hst & Hcur & _). apply elem_of_fps in Hrow as [Hin Hscan].
  assert (Hmem : row ∈ rows ++ [row]) by (apply elem_of_app; right; by apply list_elem_of_singleton).
  assert (Hclosed : closed_here (evs ++ [e]) row).
  { split; [done|]. exists e. split; [|done]. apply elem_of_app. right. by apply list_elem_of_singleton. }
  assert (H1 : PriorInv (rows ++ [row]) rows (evs ++ [e]) r1).
  { subst r1. apply inv_set_closed; [done| |by apply inv_note_closed, (inv_event _ _ _ _ row)].
    split_and!; [done|done|congruence|]. exists row. auto. }
  eexists _, e. split; [reflexivity|].
  apply (inv_insert _ _ _ _ row); try done.
  - split; [done|]. exists row. split_and!; try done. by right.
  - destruct (detected_of d current row) as [x|] eqn:Ed; [|exact H1]. cbn [option_map].
    rewrite Hobj by done. apply inv_note_detecting, inv_set_closed; [|split_and!|done]; try done.
    + by apply detected_spec in Ed as (? & _).
    + apply detected_spec in Ed as (_ & _ & Ho & _). by apply open_like_not_closed.
    + by apply detected_spec in Ed as (_ & _ & _ & ?).
    + exists row. auto.
Qed.

(** One prior row. *)
Lemma process_prior_inv rows evs r row :
  row ∈ fps_of_scan prior d -> key_of row ∉ map key_of rows ->
  PriorInv rows rows evs r ->
  exists r' evs', process_prior now d current prior health r row = Ok r'
    /\ PriorInv (rows ++ [row]) (rows ++ [row]) (evs ++ evs') r'.
Proof.
  intros Hrow Hk Hi. pose proof Hrow as Hrow'. apply elem_of_fps in Hrow' as [Hin Hscan].
  unfold process_prior. rewrite (object_same rows rows evs r row) by done.
  pose proof (inv_judged _ _ _ _ row Hi) as Hj.
  destruct (judge d current prior health (run_keys r) row) as [| | |det] eqn:Ej.
  - eexists _, []. split; [reflexivity|]. rewrite app_nil_r.
    apply inv_cov_unchanged; [|by apply inv_count; [set_solver|]].
    apply judge_unchanged in Ej as [?|Hk']; [by left|right].
    by destruct (pi_keys_from _ _ _ _ Hi _ Hk').
  - assert (Hn : ~ (fr_state row = CLOSED_STATE \/ key_of row ∈ run_keys r)).
    { intros H. apply judge_unchanged in H. congruence. }
    eexists _, []. split; [reflexivity|]. rewrite app_nil_r.
    apply carry_forward_inv; try done; [naive_solver..|]. by apply inv_count; [set_solver|].
  - assert (Hn : ~ (fr_state row = CLOSED_STATE \/ key_of row ∈ run_keys r)).
    { intros H. apply judge_unchanged in H. congruence. }
    eexists _, []. split; [reflexivity|]. rewrite app_nil_r.
    apply carry_forward_inv; try done; [naive_solver..|]. by apply inv_count; [set_solver|].
  - apply judge_close in Ej as (Hs & Hrk & Hpos & ->).
    assert (Htwo : two_sided row).
    { split_and!; try done. intros H. by apply Hrk, (pi_keys _ _ _ _ Hi). }
    destruct (close_row_inv rows evs r row) as (r' & e & Hr & Hi'); try done.
    { intros x Hx. apply (object_same rows rows evs); [done|by apply detected_spec in Hx as (? & _)|].
      by apply detected_spec in Hx as (_ & -> & _). }
    exists r', [e]. done.
Qed.

Lemma prior_keys_nodup : NoDup (map key_of (fps_of_scan prior d)).
Proof.
  assert (H : NoDup (map slot (fps_of_scan prior d))) by (apply nodup_map_filter, Hwf).
  assert (E : map slot (fps_of_scan prior d) = map (fun k => (prior, k)) (map key_of (fps_of_scan prior d))).
  { rewrite map_map. apply map_ext_in. intros a Ha. apply list_elem_of_In, elem_of_fps in Ha as [_ <-]. done. }
  rewrite E in H. by apply NoDup_fmap_1 in H.
Qed.

(** The whole first pass. *)
Lemma prior_pass rest : forall rows evs r,
  rows ++ rest = fps_of_scan prior d -> PriorInv rows rows evs r ->
  exists r' evs', pfold (process_prior now d current prior health) r rest = Ok r'
    /\ PriorInv (rows ++ rest) (rows ++ rest) (evs ++ evs') r'.
Proof.
  induction rest as [|row rest IH]; intros rows evs r E Hi; simpl.
  { exists r, []. by rewrite !app_nil_r. }
  pose proof prior_keys_nodup as Hnd. rewrite <- E, map_app, NoDup_app in Hnd.
  destruct (process_prior_inv rows evs r row) as (r' & evs' & -> & Hi'); [| |done|].
  - rewrite <- E. apply elem_of_app. right. left.
  - intros Hin. destruct Hnd as (_ & Hnd & _). apply (Hnd _ Hin). left.
  - cbn [pbind]. destruct (IH (rows ++ [row]) (evs ++ evs') r') as (r2 & evs2 & Hr2 & Hi2); [|done|].
    { by rewrite <- app_assoc. }
    exists r2, (evs' ++ evs2). rewrite Hr2. split; [done|]. by rewrite <- !app_assoc in Hi2.
Qed.

Lemma prior_pass_inv :
  exists r evs, pfold (process_prior now d current prior health) (init_run current d) (fps_of_scan prior d) = Ok r
    /\ PriorInv (fps_of_scan prior d) (fps_of_scan prior d) evs r.
Proof. apply (prior_pass _ [] []); [done|apply init_inv]. Qed.

(** * The second pass *)

(** A detected finding whose latest row on another scan is closed. *)
Definition regressed (a l : fp_row) : Prop :=
  a ∈ fps_of_scan current d /\ fr_state a ∉ [RESURFACED_STATE; CLOSED_STATE]
  /\ latest_prior_row d current a = Some l /\ fr_state l = CLOSED_STATE.

Definition resurface_event (a l : fp_row) (e : RemediationClosureEvent) : Prop :=
  (ev_slug e, ev_fp e) = (fr_slug a, Some (fr_fp a)) /\ ev_scan e = current
  /\ ev_prior e = Some (fr_scan l) /\ ev_from e = Some CLOSED_STATE
  /\ ev_to e = Some RESURFACED_STATE /\ ev_type e = "resurfaced".

Definition resurfaces (rows : list fp_row) (evs : list RemediationClosureEvent) (a : fp_row) (s : string) : Prop :=
  s = RESURFACED_STATE /\ a ∈ rows /\ exists l e, regressed a l /\ e ∈ evs /\ resurface_event a l e.

Definition event_ok (e : RemediationClosureEvent) : Prop :=
  (exists row, two_sided row /\ closing_event row e) \/ (exists a l, regressed a l /\ resurface_event a l e).

Definition prior_rows : list fp_row := fps_of_scan prior d.

(** What the computation may do to the fingerprint table. *)
Definition allowed (rows : list fp_row) (evs : list RemediationClosureEvent) (a : fp_row) (s : string) : Prop :=
  closes prior_rows evs a s \/ resurfaces rows evs a s.

Record CurrentInv (rows : list fp_row) (evs : list RemediationClosureEvent) (r : run) : Prop := {
  ci_endpoints : db_endpoints (run_db r) = db_endpoints d;
  ci_sigs : db_sigs (run_db r) = db_sigs d;
  ci_items : db_items (run_db r) = db_items d;
  ci_fps : evolved d (allowed rows evs) (adds prior_rows evs) (db_fps (run_db r));
  ci_slots : NoDup (map slot (db_fps (run_db r)));
  ci_events : db_events (run_db r) = db_events d ++ evs;
  ci_event_ok : Forall event_ok evs;
  ci_covered : Forall (fun row => fr_state row = CLOSED_STATE \/
    exists n, n ∈ db_fps (run_db r) /\ fr_scan n = current /\ key_of n = key_of row) prior_rows;
  ci_regressed : Forall (fun a => forall l, regressed a l -> with_state RESURFACED_STATE a ∈ db_fps (run_db r)) rows;
  ci_inserted : forall s i, (s, i) ∈ run_inserted r -> i ∉ map fr_id (db_fps d);
  ci_run_items : run_items r = run_items (init_run current d);
  ci_counted : counted evs (run_counters r)
}.

Lemma current_init evs r : PriorInv prior_rows prior_rows evs r -> CurrentInv [] evs r.
Proof.
  intros []. constructor; auto.
  - eapply evolved_mono; [| |exact pi_fps0]; [|done]. intros a s H. by left.
  - eapply Forall_impl; [exact pi_event_ok0|]. intros e H. by left.
Qed.

(** The objects of the row at hand and of a row on another scan. *)
Lemma object_same_current rows evs r a :
  CurrentInv rows evs r -> a ∈ db_fps d -> key_of a ∈ current_keys ->
  (fr_scan a = current -> a ∉ rows) -> (fr_scan a <> current -> Forall (fun x => fr_scan x = current) rows) ->
  fp_object (run_db r) a = a.
Proof.
  intros Hi Ha Hk Hrows Hother.
  destruct (evolved_object d (allowed rows evs) (adds prior_rows evs) (run_db r) a (ci_fps _ _ _ Hi) Ha)
    as [[E Hs] _].
  destruct Hs as [Hs|[(_ & _ & _ & row & _ & [(_ & _ & Hc & _) _] & Hor)|(_ & Hin & _)]].
  - rewrite E, Hs. apply with_state_same.
  - exfalso. apply Hc. destruct Hor as [->|Hor]; [done|].
    apply detected_spec in Hor as (_ & <- & _). done.
  - exfalso. destruct (decide (fr_scan a = current)) as [Hsc|Hsc]; [by apply Hrows|].
    apply Hsc. specialize (Hother Hsc). rewrite Forall_forall in Hother. by apply Hother.
Qed.

Lemma current_inv_count rows evs r k : k ∉ CLOSURE_EVENT_TYPES -> CurrentInv rows evs r -> CurrentInv rows evs (count k r).
Proof. intros Hk []. constructor; auto. by apply counted_bump_other. Qed.

Lemma current_inv_skip rows evs r a :
  (forall l, ~ regressed a l) -> CurrentInv rows evs r -> CurrentInv (rows ++ [a]) evs r.
Proof.
  intros Hn []. constructor; auto.
  - eapply evolved_mono; [| |exact ci_fps0]; [|done]. intros x s [H|(H1 & H2 & H3)]; [by left|right].
    split_and!; [done|apply elem_of_app; auto|done].
  - apply Forall_app. split; [done|]. constructor; [|constructor]. intros l H. by apply Hn in H.
Qed.

Lemma allowed_mono rows rows' evs evs' a s :
  (forall x, x ∈ rows -> x ∈ rows') -> (forall e, e ∈ evs -> e ∈ evs') ->
  allowed rows evs a s -> allowed rows' evs' a s.
Proof.
  intros Hr He [H|(H1 & H2 & l & e & H3 & H4 & H5)]; [left|right].
  - by eapply closes_mono; [| |exact H].
  - split_and!; auto. exists l, e. auto.
Qed.

Lemma latest_spec a l :
  latest_prior_row d current a = Some l -> l ∈ db_fps d /\ key_of l = key_of a /\ fr_scan l <> current.
Proof.
  unfold latest_prior_row. intros H. apply first_by_elem, elem_of_filter_bool in H as [Hl H].
  apply andb_true_iff in H as [Hk Hs]. apply bool_decide_eq_true in Hk.
  apply negb_true_iff, str_eqb_neq in Hs. done.
Qed.

Lemma slot_inj a b : a ∈ db_fps d -> b ∈ db_fps d -> fr_scan a = fr_scan b -> key_of a = key_of b -> a = b.
Proof.
  intros Ha Hb Hs Hk. apply (nodup_map_inj slot (db_fps d)); [apply Hwf|done|done|]. unfold slot. by rewrite Hs, Hk.
Qed.

(** A regression: the event, then the state. *)
Lemma current_inv_regress rows evs r a l e :
  regressed a l -> resurface_event a l e -> CurrentInv rows evs r ->
  CurrentInv (rows ++ [a]) (evs ++ [e]) (set_fp_state (fr_id a) RESURFACED_STATE (logged e r)).
Proof.
  intros Hreg He Hi. pose proof Hreg as (Ha & _). apply elem_of_fps in Ha as [Ha Hscan].
  assert (Hev : forall x, x ∈ evs -> x ∈ evs ++ [e]) by (intros; apply elem_of_app; auto).
  assert (Hrw : forall x, x ∈ rows -> x ∈ rows ++ [a]) by (intros; apply elem_of_app; auto).
  assert (Hal : allowed (rows ++ [a]) (evs ++ [e]) a RESURFACED_STATE).
  { right. split_and!; [done|apply elem_of_app; right; by apply list_elem_of_singleton|].
    exists l, e. split_and!; [done|apply elem_of_app; right; by apply list_elem_of_singleton|done]. }
  assert (Hfps : evolved d (allowed (rows ++ [a]) (evs ++ [e])) (adds prior_rows (evs ++ [e]))
    (update_fp (fr_id a) (with_state RESURFACED_STATE) (db_fps (run_db r)))).
  { apply evolved_set; [done|done|done|]. eapply evolved_mono; [| |apply (ci_fps _ _ _ Hi)].
    - intros x s. by apply allowed_mono.
    - intros n. by apply adds_mono. }
  pose proof (evolved_keeps _ _ _ _ a (ci_fps _ _ _ Hi) Ha) as (b & Hb & Hab).
  destruct Hi. constructor; auto; simpl.
  - by rewrite update_fp_slots.
  - by rewrite ci_events0, app_assoc.
  - apply Forall_app. split; [done|]. constructor; [|constructor]. right. eauto.
  - eapply Forall_impl; [exact ci_covered0|]. intros row [?|(n & Hn & Hs & Hk)]; [by left|right].
    destruct (update_fp_keeps (fr_id a) RESURFACED_STATE _ n Hn) as (n' & Hn' & E).
    exists n'. rewrite <- Hs, <- Hk. split_and!; [done|exact (f_equal fst E)|exact (f_equal snd E)].
  - apply Forall_app. split.
    + eapply Forall_impl; [exact ci_regressed0|]. intros x Hx l' Hl'. specialize (Hx l' Hl').
      unfold update_fp. apply list_elem_of_fmap.
      exists (with_state RESURFACED_STATE x). split; [|done]. by destruct (_ =? _).
    + constructor; [|constructor]. intros l' _. unfold update_fp. apply list_elem_of_fmap.
      exists b. split; [|done]. destruct Hab as [-> _]. simpl. by rewrite Z.eqb_refl.
  - apply counted_event; [|done]. destruct He as (_ & _ & _ & _ & _ & ->). unfold CLOSURE_EVENT_TYPES. set_solver.
Qed.

(** One current row. *)
Lemma process_current_inv rows evs r a :
  CurrentInv rows evs r -> a ∈ fps_of_scan current d -> a ∉ rows -> Forall (fun x => fr_scan x = current) rows ->
  exists r' evs', process_current now d current r a = Ok r' /\ CurrentInv (rows ++ [a]) (evs ++ evs') r'.
Proof.
  intros Hi Ha Hnew Hrows. pose proof Ha as Ha'. apply elem_of_fps in Ha' as [Hin Hscan].
  assert (Hka : key_of a ∈ current_keys) by by apply in_current_keys.
  unfold process_current. rewrite (object_same_current rows evs r a) by done.
  destruct (str_in (fr_state a) [RESURFACED_STATE; CLOSED_STATE]) eqn:Est.
  { eexists _, []. split; [reflexivity|]. rewrite app_nil_r. apply current_inv_skip.
    - intros l (_ & Hs & _). by apply bool_decide_eq_true in Est.
    - apply current_inv_count; [unfold CLOSURE_EVENT_TYPES; set_solver|done]. }
  apply bool_decide_eq_false in Est.
  destruct (latest_prior_row d current a) as [l|] eqn:El; cbn [option_map].
  2:{ eexists _, []. split; [reflexivity|]. rewrite app_nil_r. apply current_inv_skip; [|done].
      intros l (_ & _ & H & _). congruence. }
  pose proof (latest_spec _ _ El) as (Hl & Hkl & Hsl).
  rewrite (object_same_current rows evs r l); [|done|done|by rewrite Hkl|done|done].
  destruct (negb (str_eqb (fr_state l) CLOSED_STATE)) eqn:Ec.
  { eexists _, []. split; [reflexivity|]. rewrite app_nil_r. apply current_inv_skip; [|done].
    intros l' (_ & _ & H & H'). apply negb_true_iff, str_eqb_neq in Ec. congruence. }
  apply negb_false_iff, str_eqb_eq in Ec.
  set (e := {| ev_slug := fr_slug a; ev_fp := Some (fr_fp a); ev_scan := current;
               ev_prior := Some (fr_scan l); ev_type := "resurfaced"; ev_from := Some CLOSED_STATE;
               ev_to := Some RESURFACED_STATE; ev_reason := Some RESURFACE_REASON;
               ev_at := now (db_calls (run_db r)) |}).
  exists (set_fp_state (fr_id a) RESURFACED_STATE (logged e r)), [e]. split; [reflexivity|].
  by apply (current_inv_regress rows evs r a l).
Qed.

Lemma current_pass rest : forall rows evs r,
  rows ++ rest = fps_of_scan current d -> CurrentInv rows evs r ->
  exists r' evs', pfold (process_current now d current) r rest = Ok r'
    /\ CurrentInv (rows ++ rest) (evs ++ evs') r'.
Proof.
  induction rest as [|a rest IH]; intros rows evs r E Hi; simpl.
  { exists r, []. by rewrite !app_nil_r. }
  assert (Hnd : NoDup (fps_of_scan current d)).
  { apply (NoDup_fmap_1 fr_id). apply (nodup_map_filter fr_id), Hwf. }
  rewrite <- E, NoDup_app in Hnd. destruct Hnd as (_ & Hnd & _).
  assert (Hmem : forall x, x ∈ rows ++ a :: rest -> x ∈ fps_of_scan current d) by (intros x; by rewrite E).
  destruct (process_current_inv rows evs r a) as (r' & evs' & -> & Hi'); [done| | | |].
  - apply Hmem, elem_of_app. right. left.
  - intros Hx. apply (Hnd _ Hx). left.
  - apply Forall_forall. intros x Hx. assert (Hx' : x ∈ fps_of_scan current d) by (apply Hmem, elem_of_app; auto).
    by apply elem_of_fps in Hx' as [_ ?].
  - cbn [pbind]. destruct (IH (rows ++ [a]) (evs ++ evs') r') as (r2 & evs2 & Hr2 & Hi2); [|done|].
    { by rewrite <- app_assoc. }
    exists r2, (evs' ++ evs2). rewrite Hr2. split; [done|]. by rewrite <- !app_assoc in Hi2.
Qed.

(** The first two passes. *)
Lemma two_passes :
  exists r evs,
    pbind (pfold (process_prior now d current prior health) (init_run current d) prior_rows)
      (fun r => pfold (process_current now d current) r (fps_of_scan current d)) = Ok r
    /\ CurrentInv (fps_of_scan current d) evs r.
Proof.
  destruct prior_pass_inv as (r & evs & Hr & Hi). unfold prior_rows. rewrite Hr. cbn [pbind].
  apply current_init in Hi.
  destruct (current_pass (fps_of_scan current d) [] evs r) as (r' & evs' & Hr' & Hi'); [done|done|].
  exists r', (evs ++ evs'). done.
Qed.

(** * The third pass *)

Definition constituents_closed (fps : list fp_row) (slug scan : string) : Prop :=
  (exists b, b ∈ fps /\ fr_slug b = slug /\ fr_scan b = scan)
  /\ (forall b, b ∈ fps -> fr_slug b = slug -> fr_scan b = scan -> fr_state b = CLOSED_STATE).

(** A row inserted by the computation may be linked to a new item. *)
Definition relinked (b b' : fp_row) : Prop :=
  b' = b \/ (fr_id b ∉ map fr_id (db_fps d) /\ exists i, b' = with_item i b).

Section Rollup.
Context (fps : list fp_row) (ins : list (string * Z)).
Hypothesis Hins : forall s i, (s, i) ∈ ins -> i ∉ map fr_id (db_fps d).
Hypothesis Hids : NoDup (map fr_id fps).
Hypothesis Hold : forall b, b ∈ fps -> fr_scan b <> current ->
  exists a, a ∈ db_fps d /\ fr_id a = fr_id b /\ slot a = slot b.

Hypothesis Hkeep : forall a, a ∈ db_fps d -> exists b, b ∈ fps /\ fr_id b = fr_id a /\ slot b = slot a.

(** What may happen to an item, and what a new one is. *)
Definition item_evolved (i i' : RemediationItem) : Prop :=
  i' = i \/ (it_state i <> CLOSED_STATE /\ i' = item_with_state CLOSED_STATE i
             /\ constituents_closed fps (it_slug i) (it_scan i)).

Definition item_added (n : RemediationItem) : Prop :=
  it_scan n = current /\ it_state n = CLOSED_STATE /\ constituents_closed fps (it_slug n) prior
  /\ forall i, i ∈ db_items d -> it_scan i = current -> it_slug i <> it_slug n.

Record RollInv (evs : list RemediationClosureEvent) (r : run) : Prop := {
  ro_endpoints : db_endpoints (run_db r) = db_endpoints d;
  ro_sigs : db_sigs (run_db r) = db_sigs d;
  ro_events : db_events (run_db r) = db_events d ++ evs;
  ro_fps : Forall2 relinked fps (db_fps (run_db r));
  ro_inserted : run_inserted r = ins;
  ro_items : exists old new, db_items (run_db r) = old ++ new
    /\ Forall2 item_evolved (db_items d) old /\ Forall item_added new;
  ro_item_ids : NoDup (map it_id (db_items (run_db r)));
  ro_item_slots : NoDup (map (fun i => (it_slug i, it_scan i)) (db_items (run_db r)));
  ro_current : forall i, i ∈ db_items (run_db r) -> it_scan i = current -> is_Some (alookup (it_slug i) (run_items r));
  ro_counted : counted evs (run_counters r)
}.

Lemma relinked_cols b b' : relinked b b' -> fr_id b' = fr_id b /\ slot b' = slot b /\ fr_state b' = fr_state b.
Proof. by intros [->|(_ & i & ->)]. Qed.

Lemma relinked_ids k : Forall2 relinked fps k -> map fr_id k = map fr_id fps.
Proof.
  clear. induction 1 as [|b b' l l' Hb _ IH]; simpl; [done|].
  destruct (relinked_cols _ _ Hb) as (-> & _ & _). by rewrite IH.
Qed.

Lemma relinked_back k b' : Forall2 relinked fps k -> b' ∈ k -> exists b, b ∈ fps /\ relinked b b'.
Proof.
  intros H Hb. apply list_elem_of_lookup in Hb as [i Hi].
  destruct (Forall2_lookup_r _ _ _ _ _ H Hi) as (b & Hb & ?). exists b. split; [by eapply list_elem_of_lookup_2|done].
Qed.

Lemma relinked_forth k b : Forall2 relinked fps k -> b ∈ fps -> exists b', b' ∈ k /\ relinked b b'.
Proof.
  intros H Hb. apply list_elem_of_lookup in Hb as [i Hi].
  destruct (Forall2_lookup_l _ _ _ _ _ H Hi) as (b' & Hb' & ?). exists b'. split; [by eapply list_elem_of_lookup_2|done].
Qed.

Lemma all_closed_spec states : all_closed states = true <-> states <> [] /\ Forall (fun s => s = CLOSED_STATE) states.
Proof.
  unfold all_closed. rewrite andb_true_iff, negb_true_iff, bool_decide_eq_false, forallb_forall, Forall_forall.
  split; intros [? H]; (split; [done|]); intros s Hs.
  - by apply str_eqb_eq, H, list_elem_of_In.
  - by apply str_eqb_eq, H, list_elem_of_In.
Qed.

(** The states of a slug's rows on a scan, read from the tables. *)
Lemma states_closed evs r slug scan :
  RollInv evs r ->
  all_closed (map fr_state (List.filter (fun x => str_eqb (fr_slug x) slug) (fps_of_scan scan (run_db r)))) = true ->
  constituents_closed fps slug scan.
Proof.
  intros Hi H. apply all_closed_spec in H as [Hne Hall]. rewrite Forall_forall in Hall.
  assert (Hmem : forall b', b' ∈ List.filter (fun x => str_eqb (fr_slug x) slug) (fps_of_scan scan (run_db r)) <->
    b' ∈ db_fps (run_db r) /\ fr_scan b' = scan /\ fr_slug b' = slug).
  { intros b'. rewrite elem_of_filter_bool, elem_of_fps, str_eqb_eq. tauto. }
  split.
  - apply non_nil_elem in Hne as [s Hs]. apply list_elem_of_fmap in Hs as (b' & _ & Hb').
    apply Hmem in Hb' as (Hb' & Hsc & Hsl). destruct (relinked_back _ _ (ro_fps _ _ Hi) Hb') as (b & Hb & Hr).
    exists b. apply relinked_cols in Hr as (_ & E & _). injection E as E1 E2. split_and!; congruence.
  - intros b Hb Hsl Hsc. destruct (relinked_forth _ _ (ro_fps _ _ Hi) Hb) as (b' & Hb' & Hr).
    apply relinked_cols in Hr as (_ & E & Est). rewrite <- Est. apply Hall.
    apply list_elem_of_fmap_2, Hmem. pose proof (f_equal fst E : fr_scan b' = fr_scan b).
    pose proof (f_equal (fun x => fst (snd x)) E : fr_slug b' = fr_slug b). split_and!; congruence.
Qed.

(** The same, read from the objects of the prior rows. *)
Lemma prior_states_closed evs r slug :
  RollInv evs r ->
  all_closed (map fr_state (List.filter (fun x => str_eqb (fr_slug x) slug)
    (map (fp_object (run_db r)) prior_rows))) = true ->
  (forall a, a ∈ prior_rows -> fp_object (run_db r) a ∈ db_fps (run_db r) /\ slot (fp_object (run_db r) a) = slot a) ->
  constituents_closed fps slug prior.
Proof.
  intros Hi H Hobj. apply all_closed_spec in H as [Hne Hall]. rewrite Forall_forall in Hall.
  pose proof (ro_fps _ _ Hi) as Hfps. split.
  - apply non_nil_elem in Hne as [s Hs]. apply list_elem_of_fmap in Hs as (b' & _ & Hb').
    apply elem_of_filter_bool in Hb' as [Hb' Hsl]. apply str_eqb_eq in Hsl.
    apply list_elem_of_fmap in Hb' as (a & -> & Ha). destruct (Hobj a Ha) as [Hb E].
    apply elem_of_fps in Ha as [_ Hsc]. destruct (relinked_back _ _ Hfps Hb) as (b & Hb' & Hr).
    exists b. apply relinked_cols in Hr as (_ & E' & _). rewrite E in E'.
    pose proof (f_equal fst E' : fr_scan a = fr_scan b).
    pose proof (f_equal (fun x => fst (snd x)) E' : fr_slug a = fr_slug b).
    pose proof (f_equal (fun x => fst (snd x)) E : _ = fr_slug a) as H2. simpl in H2. split_and!; congruence.
  - intros b Hb Hsl Hsc. destruct (relinked_forth _ _ Hfps Hb) as (b' & Hb' & Hr).
    apply relinked_cols in Hr as (Hid & E & Est). rewrite <- Est.
    destruct (Hold b Hb) as (a & Ha & Hida & Ea); [congruence|].
    assert (Hobj' : fp_object (run_db r) a = b').
    { unfold fp_object. rewrite Hida, <- Hid, find_id; [done| |done]. by rewrite (relinked_ids _ Hfps). }
    apply Hall. apply list_elem_of_fmap_2, elem_of_filter_bool. split.
    + rewrite <- Hobj'. apply list_elem_of_fmap_2, elem_of_fps. split; [done|].
      pose proof (f_equal fst Ea : fr_scan a = fr_scan b). congruence.
    + apply str_eqb_eq. pose proof (f_equal (fun x => fst (snd x)) E : fr_slug b' = fr_slug b). congruence.
Qed.

Lemma object_kept evs r a :
  RollInv evs r -> a ∈ prior_rows -> fp_object (run_db r) a ∈ db_fps (run_db r) /\ slot (fp_object (run_db r) a) = slot a.
Proof.
  intros Hi Ha. apply elem_of_fps in Ha as [Ha _]. destruct (Hkeep a Ha) as (b & Hb & Hid & Hs).
  destruct (relinked_forth _ _ (ro_fps _ _ Hi) Hb) as (b' & Hb' & Hr).
  apply relinked_cols in Hr as (Hid' & E & _).
  unfold fp_object. rewrite <- Hid, <- Hid', find_id; [simpl; by rewrite E| |done].
  by rewrite (relinked_ids _ (ro_fps _ _ Hi)).
Qed.

Lemma roll_count evs r k : k ∉ CLOSURE_EVENT_TYPES -> RollInv evs r -> RollInv evs (count k r).
Proof. intros Hk []. constructor; auto. by apply counted_bump_other. Qed.

Lemma find_item_spec slug scan x i :
  find_item slug scan x = Some i -> i ∈ db_items x /\ it_slug i = slug /\ it_scan i = scan.
Proof.
  unfold find_item. intros H. apply find_some in H as [Hi H]. apply andb_true_iff in H as [H1 H2].
  apply str_eqb_eq in H1, H2. split; [by apply list_elem_of_In|done].
Qed.

Lemma update_item_cols {A} (f : RemediationItem -> A) id s l :
  (forall i, f (item_with_state s i) = f i) -> map f (update_item id (item_with_state s) l) = map f l.
Proof. intros Hf. unfold update_item. rewrite map_map. apply map_ext. intros i. by destruct (_ =? _). Qed.

Lemma roll_set_item evs r i :
  RollInv evs r -> i ∈ db_items (run_db r) -> it_state i <> CLOSED_STATE ->
  constituents_closed fps (it_slug i) (it_scan i) ->
  RollInv evs (set_item_state (it_id i) CLOSED_STATE r).
Proof.
  intros [] Hi Hst Hc. constructor; auto; simpl.
  - destruct ro_items0 as (old & new & E & Ho & Hn).
    assert (Huniq : forall y, y ∈ db_items (run_db r) -> it_id y = it_id i -> y = i).
    { intros y Hy. by apply (nodup_map_inj it_id (db_items (run_db r))). }
    exists (update_item (it_id i) (item_with_state CLOSED_STATE) old), new. split_and!; [| |done].
    + rewrite E. unfold update_item. rewrite map_app. f_equal.
      rewrite <- (List.map_id new) at 2. apply map_ext_in. intros y Hy. apply list_elem_of_In in Hy.
      destruct (it_id y =? it_id i) eqn:Ey; [|done]. apply Z.eqb_eq in Ey.
      rewrite Forall_forall in Hn. destruct (Hn y Hy) as (_ & Hcl & _).
      rewrite (Huniq y) in Hcl; [done| |done]. rewrite E. apply elem_of_app. auto.
    + unfold update_item. apply Forall2_fmap_r.
      assert (Hm : Forall2 (fun x y => y ∈ old /\ item_evolved x y) (db_items d) old).
      { apply Forall2_flip. apply Forall2_flip in Ho. exact (Forall2_mem _ _ _ Ho). }
      eapply Forall2_impl; [exact Hm|]. intros x y [Hy Hxy]. unfold compose.
      destruct (it_id y =? it_id i) eqn:Ey; [|done]. apply Z.eqb_eq in Ey.
      assert (y = i) as -> by (apply Huniq; [rewrite E; apply elem_of_app; auto|done]).
      destruct Hxy as [->|(_ & -> & _)]; [by right|done].
  - by rewrite update_item_cols.
  - by rewrite update_item_cols.
  - intros y Hy. unfold update_item in Hy. apply list_elem_of_fmap in Hy as (x & -> & Hx).
    specialize (ro_current0 x Hx). by destruct (_ =? _).
Qed.

Lemma roll_insert evs r slug template :
  RollInv evs r -> alookup slug (run_items r) = None -> constituents_closed fps slug prior ->
  RollInv evs (insert_closed_item now slug current template r).
Proof.
  intros [] Hnone Hc. unfold insert_closed_item.
  set (item := {| it_id := _ |}).
  assert (Habs : forall i, i ∈ db_items (run_db r) -> it_scan i = current -> it_slug i <> slug).
  { intros i Hi Hs <-. specialize (ro_current0 i Hi Hs). rewrite Hnone in ro_current0.
    by destruct ro_current0. }
  constructor; auto; simpl.
  - apply Forall2_fmap_r. eapply Forall2_impl; [exact ro_fps0|]. intros b b' Hb. unfold compose.
    destruct (bool_decide ((slug, fr_id b') ∈ run_inserted r) && _) eqn:El; [|done].
    apply andb_true_iff in El as [El _]. apply bool_decide_eq_true in El. rewrite ro_inserted0 in El.
    right. destruct (relinked_cols _ _ Hb) as (Eid & _).
    split; [rewrite <- Eid; by apply (Hins slug)|].
    exists (it_id item). by destruct Hb as [->|(_ & j & ->)].
  - destruct ro_items0 as (old & new & E & Ho & Hn). exists old, (new ++ [item]).
    split_and!; [by rewrite E, app_assoc|done|]. apply Forall_app. split; [done|].
    constructor; [|constructor]. split_and!; [done|done|done|].
    intros i Hi Hs. apply list_elem_of_lookup in Hi as [n Hi].
    destruct (Forall2_lookup_l _ _ _ _ _ Ho Hi) as (i' & Hi' & Hev).
    apply list_elem_of_lookup_2 in Hi'.
    assert (it_slug i' = it_slug i /\ it_scan i' = it_scan i) as [<- E2]
      by by destruct Hev as [->|(_ & -> & _)].
    apply Habs; [rewrite E; apply elem_of_app; auto|congruence].
  - rewrite map_app. apply NoDup_app. split_and!; [done| |apply NoDup_singleton].
    intros x Hx Hx'. apply list_elem_of_singleton in Hx' as ->. by apply fresh_id_not_in in Hx.
  - rewrite map_app. apply NoDup_app. split_and!; [done| |apply NoDup_singleton].
    intros x Hx Hx'. apply list_elem_of_singleton in Hx' as ->.
    apply list_elem_of_fmap in Hx as (i & Ei & Hi). injection Ei as E1 E2.
    by apply (Habs i).
  - intros i Hi Hs. rewrite alookup_aset. case_decide as Hd; [eauto|].
    apply elem_of_app in Hi as [Hi|Hi]; [by apply ro_current0|].
    apply list_elem_of_singleton in Hi as ->. done.
Qed.

Lemma rollup_detecting_inv evs slug s scan :
  RollInv evs s.1.1 -> RollInv evs (rollup_detecting slug s scan).1.1.
Proof.
  destruct s as [[r template] flipped]. cbn [fst]. intros Hi. unfold rollup_detecting.
  destruct (find_item slug scan (run_db r)) as [item|] eqn:Ef; [|done].
  apply find_item_spec in Ef as (Hin & Hsl & Hsc).
  destruct (str_eqb (it_state item) CLOSED_STATE) eqn:Est; [done|]. apply str_eqb_neq in Est.
  destruct (all_closed _) eqn:Eall; [|done]. cbn [fst].
  apply roll_set_item; [done|done|done|]. rewrite Hsl, Hsc. by eapply states_closed.
Qed.

Lemma rollup_detecting_fold evs slug scans : forall s,
  RollInv evs s.1.1 -> RollInv evs (foldl (rollup_detecting slug) s scans).1.1.
Proof.
  induction scans as [|scan scans IH]; intros s Hs; simpl; [done|]. by apply IH, rollup_detecting_inv.
Qed.

Lemma rollup_prior_inv evs r slug :
  RollInv evs r ->
  let '(r', _, _, closed) := rollup_prior prior_rows prior slug r in
  RollInv evs r' /\ (closed = true -> constituents_closed fps slug prior).
Proof.
  intros Hi. unfold rollup_prior. set (states := map fr_state _).
  assert (Hc : all_closed states = true -> constituents_closed fps slug prior).
  { intros H. eapply prior_states_closed; [done|exact H|]. intros a Ha. by eapply object_kept. }
  destruct (find_item slug prior (run_db r)) as [i|] eqn:Ef; [|done].
  apply find_item_spec in Ef as (Hin & Hsl & Hsc).
  destruct (negb (str_eqb (it_state i) CLOSED_STATE) && all_closed states) eqn:E; [|done].
  apply andb_true_iff in E as [E1 E2]. apply negb_true_iff, str_eqb_neq in E1.
  split; [|by auto]. apply roll_set_item; [done|done|done|]. rewrite Hsl, Hsc. auto.
Qed.

Lemma rollup_inv evs r slug : RollInv evs r -> RollInv evs (rollup now prior_rows current prior r slug).
Proof.
  intros Hi. unfold rollup. pose proof (rollup_prior_inv evs r slug Hi) as Hp.
  destruct (rollup_prior prior_rows prior slug r) as [[[r1 t1] f1] closed]. destruct Hp as [H1 Hc].
  pose proof (rollup_detecting_fold evs slug (detecting_scans slug r1) (r1, t1, f1) H1) as H2.
  destruct (foldl _ _ _) as [[r2 t2] f2]. cbn [fst] in H2.
  set (r3 := if f2 then count "items_closed" r2 else r2).
  assert (H3 : RollInv evs r3).
  { unfold r3. destruct f2; [|done]. apply roll_count; [unfold CLOSURE_EVENT_TYPES; set_solver|done]. }
  destruct closed; cbn [negb orb]; [|done].
  case_bool_decide as Hin; cbn [orb]; [done|].
  destruct (negb _); [done|]. destruct (match t2 with Some _ => _ | None => _ end); [|done].
  apply roll_insert; [done| |auto]. by apply eq_None_not_Some.
Qed.

Lemma rollup_fold evs slugs : forall r,
  RollInv evs r -> RollInv evs (foldl (rollup now prior_rows current prior) r slugs).
Proof. induction slugs as [|s slugs IH]; intros r Hr; simpl; [done|]. by apply IH, rollup_inv. Qed.
End Rollup.

Lemma evolved_old P N fps b :
  evolved d P N fps -> b ∈ fps -> fr_scan b <> current -> (forall n, N n -> fr_scan n = current) ->
  exists a, a ∈ db_fps d /\ fr_id a = fr_id b /\ slot a = slot b.
Proof.
  intros He Hb Hs HN. destruct (evolved_elem _ _ _ _ _ He Hb) as [(a & Ha & [E _])|[Hn _]].
  - exists a. split; [done|]. by rewrite E.
  - by apply HN in Hn.
Qed.

Lemma evolved_kept P N fps a :
  evolved d P N fps -> a ∈ db_fps d -> exists b, b ∈ fps /\ fr_id b = fr_id a /\ slot b = slot a.
Proof.
  intros He Ha. destruct (evolved_keeps _ _ _ _ a He Ha) as (b & Hb & [E _]).
  exists b. split; [done|]. by rewrite E.
Qed.

(** The computation as a whole: the table of fingerprints after two passes, and
    everything the third leaves. *)
Lemma closure_passes_inv set_order :
  load_probe_health (find_sig current d) = health ->
  exists r2 r evs,
    closure_passes now set_order current prior d = Ok r
    /\ CurrentInv (fps_of_scan current d) evs r2
    /\ RollInv (db_fps (run_db r2)) (run_inserted r2) evs r.
Proof.
  intros Hh. destruct two_passes as (r2 & evs & Hr2 & Hi).
  exists r2, (foldl (rollup now prior_rows current prior) r2 (set_order (remove_dups (map fr_slug prior_rows)))), evs.
  split_and!; [|done|].
  - unfold closure_passes. rewrite Hh. fold prior_rows in *.
    destruct (pfold (process_prior now d current prior health) (init_run current d) prior_rows) as [r1|]; [|done].
    cbn [pbind] in *. by rewrite Hr2.
  - pose proof (ci_fps _ _ _ Hi) as He.
    assert (Hids : NoDup (map fr_id (db_fps (run_db r2)))) by (by destruct He as (? & ? & _ & _ & _ & ?)).
    apply rollup_fold; [apply (ci_inserted _ _ _ Hi)|done| |intros a; by apply (evolved_kept _ _ _ _ He)|].
    + intros b Hb Hs. eapply evolved_old; [exact He|done|done|]. by intros n [? _].
    + destruct Hi. constructor; auto.
      * clear. induction (db_fps (run_db r2)); constructor; [by left|done].
      * exists (db_items d), []. split_and!; [by rewrite app_nil_r| |constructor].
        clear. induction (db_items d); constructor; [by left|done].
      * rewrite ci_items0. apply Hwf.
      * rewrite ci_items0. apply Hwf.
      * rewrite ci_items0, ci_run_items0. intros i Hin Hs. apply alookup_in.
        simpl. rewrite <- list_fmap_compose. apply list_elem_of_fmap.
        exists i. split; [done|]. apply elem_of_filter_bool. by rewrite str_eqb_eq.
Qed.
End Passes.
