(* ===== verification/ClosureProps.v ===== *)
(** Correctness of [Closure.compute_closure].

    A closure needs both sides of the condition, a refusal changes nothing, the
    event table only grows, no finding of the prior scan is dropped, a
    regression is recorded exactly when the latest row elsewhere is closed, and
    an item closes only with all its constituents. *)
From Stdlib Require Import ZArith Lia Ascii.
From stdpp Require Import base tactics sets strings list.
From S2P Require Import Prelude Json PyVal Model Evidence Remediation ScopeSignature Closure ClosureTheory.

Local Open Scope Z_scope.
Local Open Scope quirk_scope.

(** The computation reached its passes: a current scan with a remediation
    snapshot, comparable to the selected prior scan. *)
Definition ran (d : db) (db_path scan : option string) (current prior : string) : Prop :=
  truthy_str db_path = true /\ truthy_str scan = true /\ scan = Some current
  /\ select_prior_scan_run_id d current = Some prior
  /\ scans_are_comparable d current (Some prior) = (true, "comparable")
  /\ (items_of_scan current d <> [] \/ fps_of_scan current d <> []).

Definition health_of (d : db) (current : string) : pydict := load_probe_health (find_sig current d).

Lemma select_prior_ne d current prior : select_prior_scan_run_id d current = Some prior -> prior <> current.
Proof.
  unfold select_prior_scan_run_id. intros H.
  destruct (first_by _ _) as [s|] eqn:E; [|done]. apply first_by_elem, elem_of_filter_bool in E as [_ E].
  injection H as <-. by apply negb_true_iff, str_eqb_neq in E.
Qed.

Lemma comparable_reason d current prior reason :
  scans_are_comparable d current prior = (true, reason) -> reason = "comparable".
Proof. unfold scans_are_comparable. split_ifs; naive_solver. Qed.

(** A refused run reports no event. *)
Definition no_events (c : counters) : Prop :=
  forall t, t ∈ CLOSURE_EVENT_TYPES -> default 0 (alookup t c) = 0.

Lemma zero_no_events : no_events zero_counters.
Proof.
  intros t Ht. assert (H : forallb (fun t => default 0 (alookup t zero_counters) =? 0) CLOSURE_EVENT_TYPES = true)
    by (vm_compute; reflexivity).
  rewrite forallb_forall in H. by apply list_elem_of_In, H, Z.eqb_eq in Ht.
Qed.

Lemma refused_no_events reason v : no_events (aset ("refused_" +:+ reason) v zero_counters).
Proof.
  intros t Ht. rewrite alookup_aset_ne; [by apply zero_no_events|]. intros <-.
  unfold CLOSURE_EVENT_TYPES in Ht. rewrite !elem_of_cons in Ht.
  destruct Ht as [H|[H|[H|H]]]; [discriminate H..|by apply not_elem_of_nil in H].
Qed.

Section Outcome.
Context (now : nat -> Z) (set_order : list string -> list string) (db_path scan : option string).

(** Either the tables are untouched, or the three passes ran. *)
Lemma closure_cases d c d' :
  compute_closure now set_order db_path scan d = (c, d') -> wf d ->
  (d' = d /\ no_events c /\ forall current prior, ~ ran d db_path scan current prior)
  \/ exists current prior r2 r evs, ran d db_path scan current prior /\ prior <> current
       /\ c = run_counters r /\ d' = run_db r
       /\ CurrentInv d current prior (health_of d current) (fps_of_scan current d) evs r2
       /\ RollInv d current prior (db_fps (run_db r2)) (run_inserted r2) evs r.
Proof.
  intros H Hwf. revert H. unfold compute_closure.
  destruct (truthy_str db_path) eqn:Ed; cbn [negb orb].
  2:{ intros [= <- <-]. left. split; [done|split; [exact zero_no_events|]]. intros cu pr (H & _). congruence. }
  destruct (truthy_str scan) eqn:Es; cbn [negb].
  2:{ intros [= <- <-]. left. split; [done|split; [exact zero_no_events|]]. intros cu pr (_ & H & _). congruence. }
  destruct scan as [current|]; [|done].
  replace (str_or_empty (Some current)) with current by reflexivity.
  destruct (select_prior_scan_run_id d current) as [prior|] eqn:Ep.
  2:{ intros [= <- <-]. left. split; [done|split; [exact (refused_no_events "no_prior" 1)|]]. intros cu pr (_ & _ & [= ->] & H & _). congruence. }
  destruct (scans_are_comparable d current (Some prior)) as [cmp reason] eqn:Ec.
  destruct cmp; cbn [negb].
  2:{ intros [= <- <-]. left. split; [done|split; [exact (refused_no_events reason 1)|]]. intros cu pr (_ & _ & [= <-] & H & Hc & _). congruence. }
  apply comparable_reason in Ec as Er. subst reason.
  destruct (bool_decide (items_of_scan current d = []) && _) eqn:En.
  { intros [= <- <-]. left. split; [done|split; [exact (refused_no_events "missing_snapshot" 1)|]]. apply andb_true_iff in En as [E1 E2].
    apply bool_decide_eq_true in E1, E2. intros cu pr (_ & _ & [= <-] & _ & _ & [H|H]); done. }
  pose proof (select_prior_ne _ _ _ Ep) as Hne.
  destruct (closure_passes_inv now d current prior (health_of d current) Hwf Hne set_order eq_refl)
    as (r2 & r & evs & Hr & Hc & Hro).
  rewrite Hr. intros [= <- <-]. right. exists current, prior, r2, r, evs.
  unfold ran. split_and!; try done.
  apply andb_false_iff in En as [E|E]; apply bool_decide_eq_false in E; auto.
Qed.

(** The tables of a run, whatever its outcome. *)
Lemma ran_outcome d c d' current prior :
  compute_closure now set_order db_path scan d = (c, d') -> wf d -> ran d db_path scan current prior ->
  exists r2 r evs, c = run_counters r /\ d' = run_db r /\ prior <> current
    /\ CurrentInv d current prior (health_of d current) (fps_of_scan current d) evs r2
    /\ RollInv d current prior (db_fps (run_db r2)) (run_inserted r2) evs r.
Proof.
  intros H Hwf Hran. destruct (closure_cases d c d' H Hwf) as [(_ & _ & Hn)|(cu & pr & r2 & r & evs & Hran' & Hne & rest)].
  - by apply Hn in Hran.
  - assert (cu = current) as -> by (destruct Hran as (_ & _ & ? & _), Hran' as (_ & _ & ? & _); congruence).
    assert (pr = prior) as -> by (destruct Hran as (_ & _ & _ & ? & _), Hran' as (_ & _ & _ & ? & _); congruence).
    exists r2, r, evs. destruct rest as (? & ? & ? & ?). done.
Qed.
End Outcome.

(** * The tables after the passes *)

Lemma relinked_slots d l k : Forall2 (relinked d) l k -> map slot k = map slot l.
Proof.
  induction 1 as [|b b' l l' Hb _ IH]; cbn [map]; [done|].
  destruct (relinked_cols d b b' Hb) as (_ & E & _). by rewrite E, IH.
Qed.

Lemma relinked_constituents d l k slug sc :
  Forall2 (relinked d) l k -> constituents_closed l slug sc -> constituents_closed k slug sc.
Proof.
  intros H [(b & Hb & Hsl & Hsc) Hall]. split.
  - destruct (relinked_forth d l k b H Hb) as (b' & Hb' & Hr). exists b'. split; [done|].
    apply relinked_cols in Hr as (_ & E & _). split; [|rewrite <- Hsc; exact (f_equal fst E)].
    rewrite <- Hsl. exact (f_equal (fun x => fst (snd x)) E).
  - intros b' Hb' Hsl' Hsc'. destruct (relinked_back d l k b' H Hb') as (x & Hx & Hr).
    apply relinked_cols in Hr as (_ & E & ->). apply Hall; [done| |].
    + rewrite <- Hsl'. symmetry. exact (f_equal (fun x => fst (snd x)) E).
    + rewrite <- Hsc'. symmetry. exact (f_equal fst E).
Qed.

Section Tables.
Context (d : db) (current prior : string) (health : pydict).
Context (evs : list RemediationClosureEvent) (r2 r : run).
Hypothesis Hwf : wf d.
Hypothesis Hi : CurrentInv d current prior health (fps_of_scan current d) evs r2.
Hypothesis Hr : RollInv d current prior (db_fps (run_db r2)) (run_inserted r2) evs r.

(** A row of the final table is a row of the second pass, perhaps linked to an
    item if it is new; an old row is one of the second pass. *)
Lemma final_back b : b ∈ db_fps (run_db r) -> exists b2, b2 ∈ db_fps (run_db r2) /\ relinked d b2 b.
Proof. apply relinked_back, (ro_fps _ _ _ _ _ _ _ Hr). Qed.

Lemma final_forth b2 : b2 ∈ db_fps (run_db r2) -> exists b, b ∈ db_fps (run_db r) /\ relinked d b2 b.
Proof. apply relinked_forth, (ro_fps _ _ _ _ _ _ _ Hr). Qed.

Lemma final_old a b2 :
  a ∈ db_fps d -> b2 ∈ db_fps (run_db r2) -> fr_id b2 = fr_id a -> b2 ∈ db_fps (run_db r).
Proof.
  intros Ha Hb Hid. destruct (final_forth b2 Hb) as (b & Hb' & [->|[Hn _]]); [done|].
  exfalso. apply Hn. rewrite Hid. by apply list_elem_of_fmap_2.
Qed.

Lemma final_keeps a :
  a ∈ db_fps d -> exists b, b ∈ db_fps (run_db r)
    /\ restated (allowed d current prior health (fps_of_scan current d) evs) a b.
Proof.
  intros Ha. destruct (evolved_keeps _ _ _ _ a (ci_fps _ _ _ _ _ _ _ Hi) Ha) as (b & Hb & Hab).
  exists b. split; [|done]. apply (final_old a); [done|done|]. by eapply restated_id.
Qed.

Lemma final_ids : map fr_id (db_fps (run_db r)) = map fr_id (db_fps (run_db r2)).
Proof. by apply (relinked_ids d), (ro_fps _ _ _ _ _ _ _ Hr). Qed.

Lemma final_slots : map slot (db_fps (run_db r)) = map slot (db_fps (run_db r2)).
Proof.
  by apply (relinked_slots d), (ro_fps _ _ _ _ _ _ _ Hr).
Qed.

Lemma final_wf : wf (run_db r).
Proof.
  constructor.
  - rewrite final_ids. by destruct (ci_fps _ _ _ _ _ _ _ Hi) as (? & ? & _ & _ & _ & ?).
  - rewrite final_slots. apply (ci_slots _ _ _ _ _ _ _ Hi).
  - apply (ro_item_ids _ _ _ _ _ _ _ Hr).
  - apply (ro_item_slots _ _ _ _ _ _ _ Hr).
  - rewrite (ro_sigs _ _ _ _ _ _ _ Hr). apply Hwf.
Qed.

(** Every permitted state change has its event. *)
Lemma allowed_event a s :
  allowed d current prior health (fps_of_scan current d) evs a s ->
  exists e, e ∈ evs /\ ev_slug e = fr_slug a /\ ev_fp e = Some (fr_fp a) /\ ev_to e = Some s.
Proof.
  intros [(-> & _ & _ & row & _ & [_ (e & He & (Hk & _ & _ & _ & Hto & _))] & Hor)|(-> & _ & l & e & _ & He & (Hk & _ & _ & _ & Hto & _))];
    exists e; injection Hk as Hs Hf; [|split_and!; done].
  assert (Hkey : key_of a = key_of row).
  { destruct Hor as [->|Hor]; [done|]. by apply detected_spec in Hor as (_ & ? & _). }
  injection Hkey as H1 H2. split_and!; congruence.
Qed.

(** A row inserted by the run is a copy of a prior row whose finding the
    current scan did not detect. *)
Lemma final_new b :
  b ∈ db_fps (run_db r) ->
  (exists a, a ∈ db_fps d /\ restated (allowed d current prior health (fps_of_scan current d) evs) a b)
  \/ (fr_scan b = current /\ fr_id b ∉ map fr_id (db_fps d)
      /\ exists row, row ∈ fps_of_scan prior d /\ fr_state row <> CLOSED_STATE
           /\ key_of row ∉ current_keys d current /\ same_finding b row
           /\ (fr_state b = NOT_OBSERVED_STATE
               \/ (fr_state b = CLOSED_STATE /\ two_sided d current prior health row))).
Proof.
  intros Hb. destruct (final_back b Hb) as (b2 & Hb2 & Hrel).
  destruct (evolved_elem _ _ _ _ _ (ci_fps _ _ _ _ _ _ _ Hi) Hb2) as [(a & Ha & Hab)|[Hn Hid]].
  - left. exists a. split; [done|]. destruct Hrel as [->|[Hn _]]; [done|].
    exfalso. apply Hn. rewrite (restated_id _ _ _ Hab). by apply list_elem_of_fmap_2.
  - right. destruct Hn as (Hs & row & Hrow & Hst & Hk & Hsame & Hor).
    assert (E : fr_scan b = fr_scan b2 /\ fr_id b = fr_id b2 /\ fr_state b = fr_state b2
                /\ (same_finding b row <-> same_finding b2 row)) by by destruct Hrel as [->|[_ [i ->]]].
    destruct E as (-> & -> & -> & E). split_and!; [done|done|].
    exists row. split_and!; [done|done|done|by apply E|].
    destruct Hor as [?|(? & ? & _)]; auto.
Qed.
End Tables.

(** * Properties *)

Section Properties.
Context (now : nat -> Z) (set_order : list string -> list string) (db_path scan : option string).

(** C2: Two-sided closure: every closed or reclosed event a run appends is for a fingerprint that was present and not closed in the selected, scope-comparable prior scan, is absent from the current scan, and whose host:port the current scan positively rechecked: some live row there, no failed or unclassified one, and every probe family that had reported it (at least one) rechecked with an evidenced live row there, or an HTTP port re-identified as SSH or TLS. *)
Theorem closure_two_sided d c d' :
  wf d -> compute_closure now set_order db_path scan d = (c, d') ->
  exists evs, db_events d' = db_events d ++ evs
    /\ forall e, e ∈ evs -> ev_type e ∈ ["closed"; "reclosed"] ->
         exists current prior row, ran d db_path scan current prior
           /\ two_sided d current prior (health_of d current) row
           /\ closing_event d current prior row e.
Proof.
  intros Hwf H. destruct (closure_cases _ _ _ _ d c d' H Hwf)
    as [(-> & _)|(current & prior & r2 & r & evs & Hran & _ & _ & -> & Hi & Hr)].
  - exists []. rewrite app_nil_r. split; [done|]. intros e He. by apply not_elem_of_nil in He.
  - exists evs. split; [apply (ro_events _ _ _ _ _ _ _ Hr)|]. intros e He Ht.
    pose proof (ci_event_ok _ _ _ _ _ _ _ Hi) as Hok. rewrite Forall_forall in Hok.
    destruct (Hok e He) as [(row & H1 & H2)|(a & l & _ & (_ & _ & _ & _ & _ & E))].
    + exists current, prior, row. done.
    + rewrite E in Ht. revert Ht. set_solver.
Qed.

(** C7: History is append-only: a run keeps the table constraints (so no insert can violate a unique key), the endpoints, the signatures and every earlier event; every earlier fingerprint row keeps its columns, and if its state changed, the run appended an event for that finding with that target state. *)
Theorem closure_history_append_only d c d' :
  wf d -> compute_closure now set_order db_path scan d = (c, d') ->
  wf d' /\ db_endpoints d' = db_endpoints d /\ db_sigs d' = db_sigs d
  /\ exists evs, db_events d' = db_events d ++ evs
     /\ forall a, a ∈ db_fps d -> exists b, b ∈ db_fps d' /\ b = with_state (fr_state b) a
          /\ (fr_state b = fr_state a
              \/ exists e, e ∈ evs /\ ev_slug e = fr_slug a /\ ev_fp e = Some (fr_fp a)
                           /\ ev_to e = Some (fr_state b)).
Proof.
  intros Hwf H. destruct (closure_cases _ _ _ _ d c d' H Hwf)
    as [(-> & _)|(current & prior & r2 & r & evs & Hran & _ & _ & -> & Hi & Hr)].
  - split_and!; [done|done|done|]. exists []. rewrite app_nil_r. split; [done|].
    intros a Ha. exists a. rewrite with_state_same. auto.
  - split; [by eapply final_wf|]. split; [apply (ro_endpoints _ _ _ _ _ _ _ Hr)|].
    split; [apply (ro_sigs _ _ _ _ _ _ _ Hr)|]. exists evs. split; [apply (ro_events _ _ _ _ _ _ _ Hr)|].
    intros a Ha. destruct (final_keeps _ _ _ _ _ _ _ Hi Hr a Ha) as (b & Hb & E & Hs).
    exists b. split_and!; [done|done|]. destruct Hs as [?|Hs]; [by left|right].
    by eapply allowed_event.
Qed.

(** C5: No finding is dropped: after a run, every finding the prior scan did not have closed has a row on the current scan; when the current scan did not detect it, that row copies its host, port and title and is closed only if the two-sided condition held, else carried as not observed. *)
Theorem no_finding_dropped d c d' current prior row :
  wf d -> ran d db_path scan current prior ->
  compute_closure now set_order db_path scan d = (c, d') ->
  row ∈ fps_of_scan prior d -> fr_state row <> CLOSED_STATE ->
  exists n, n ∈ fps_of_scan current d' /\ key_of n = key_of row
    /\ (key_of row ∉ current_keys d current ->
        same_finding n row
        /\ (fr_state n = NOT_OBSERVED_STATE
            \/ (fr_state n = CLOSED_STATE /\ two_sided d current prior (health_of d current) row))).
Proof.
  intros Hwf Hran H Hrow Hst. destruct (ran_outcome _ _ _ _ d c d' _ _ H Hwf Hran)
    as (r2 & r & evs & _ & -> & _ & Hi & Hr).
  pose proof (ci_covered _ _ _ _ _ _ _ Hi) as Hcov. rewrite Forall_forall in Hcov.
  destruct (Hcov row Hrow) as [?|(n2 & Hn2 & Hs2 & Hk2)]; [done|].
  destruct (final_forth _ _ _ _ _ _ Hr n2 Hn2) as (n & Hn & Hrel).
  apply relinked_cols in Hrel as (_ & E & _).
  assert (Hs : fr_scan n = current) by (rewrite <- Hs2; exact (f_equal fst E)).
  assert (Hk : key_of n = key_of row) by (rewrite <- Hk2; exact (f_equal snd E)).
  exists n. split; [by apply elem_of_fps|]. split; [done|]. intros Hnk.
  destruct (final_new _ _ _ _ _ _ _ Hi Hr n Hn) as [(a & Ha & [Ea _])|(_ & _ & row' & Hrow' & _ & _ & Hsame & Hor)].
  - exfalso. apply Hnk. assert (E1 : key_of n = key_of a /\ fr_scan n = fr_scan a) by by rewrite Ea.
    destruct E1 as [E1 E2]. rewrite <- Hk, E1. apply in_current_keys; [done|congruence].
  - assert (row' = row) as ->; [|done].
    apply elem_of_fps in Hrow as [Hrow Hsc], Hrow' as [Hrow' Hsc'].
    eapply slot_inj; [exact Hwf|done|done|congruence|]. destruct Hsame as [? _]. congruence.
Qed.

(** Regressions: a finding the current scan detected ends as resurfaced exactly when its row was neither resurfaced nor closed and the latest row of the same finding on any other scan says closed. *)
Theorem resurfaced_iff_regressed d c d' current prior a :
  wf d -> ran d db_path scan current prior ->
  compute_closure now set_order db_path scan d = (c, d') ->
  a ∈ fps_of_scan current d -> fr_state a ∉ [RESURFACED_STATE; CLOSED_STATE] ->
  with_state RESURFACED_STATE a ∈ db_fps d' <->
  exists l, latest_prior_row d current a = Some l /\ fr_state l = CLOSED_STATE.
Proof.
  intros Hwf Hran H Ha Hst. destruct (ran_outcome _ _ _ _ d c d' _ _ H Hwf Hran)
    as (r2 & r & evs & _ & -> & _ & Hi & Hr).
  pose proof Ha as Hin. apply elem_of_fps in Hin as [Hin Hsc]. split.
  - intros Hb. destruct (final_new _ _ _ _ _ _ _ Hi Hr _ Hb) as [(a' & Ha' & Hab)|(_ & Hid & _)].
    + assert (a' = a) as ->.
      { apply (nodup_map_inj fr_id (db_fps d)); [apply Hwf|done|done|]. by rewrite <- (restated_id _ _ _ Hab). }
      destruct Hab as [_ [Hs|[(Hs & _)|(_ & _ & l & e & Hreg & _)]]]; [|done|].
      * simpl in Hs. exfalso. apply Hst. rewrite <- Hs. left.
      * exists l. by destruct Hreg as (_ & _ & ? & ?).
    + exfalso. apply Hid. by apply (list_elem_of_fmap_2 fr_id _ a).
  - intros (l & Hl & Hc). pose proof (ci_regressed _ _ _ _ _ _ _ Hi) as Hreg. rewrite Forall_forall in Hreg.
    apply (final_old _ _ _ _ _ _ Hr a); [done| |done]. apply (Hreg a Ha l). by split_and!.
Qed.

(** Items close only with all their constituents: after a run each item is an earlier one unchanged, or an earlier one that was not closed and is now closed with every fingerprint row of its slug on its scan closed and at least one such row, or a new closed item of the current scan for a slug that had none there and all of whose prior-scan rows are closed. *)
Theorem items_close_with_constituents d c d' i' :
  wf d -> compute_closure now set_order db_path scan d = (c, d') -> i' ∈ db_items d' ->
  i' ∈ db_items d
  \/ (exists i, i ∈ db_items d /\ it_state i <> CLOSED_STATE /\ i' = item_with_state CLOSED_STATE i
        /\ constituents_closed (db_fps d') (it_slug i) (it_scan i))
  \/ (exists current prior, ran d db_path scan current prior
        /\ it_scan i' = current /\ it_state i' = CLOSED_STATE
        /\ (forall i, i ∈ db_items d -> it_scan i = current -> it_slug i <> it_slug i')
        /\ constituents_closed (db_fps d') (it_slug i') prior).
Proof.
  intros Hwf H Hin. destruct (closure_cases _ _ _ _ d c d' H Hwf)
    as [(-> & _)|(current & prior & r2 & r & evs & Hran & _ & _ & -> & Hi & Hr)]; [by left|].
  assert (Hcc : forall slug sc, constituents_closed (db_fps (run_db r2)) slug sc ->
                                constituents_closed (db_fps (run_db r)) slug sc).
  { intros slug sc Hc. eapply relinked_constituents; [apply (ro_fps _ _ _ _ _ _ _ Hr)|exact Hc]. }
  destruct (ro_items _ _ _ _ _ _ _ Hr) as (old & new & E & Ho & Hn). rewrite E in Hin.
  apply elem_of_app in Hin as [Hin|Hin].
  - apply list_elem_of_lookup in Hin as [n Hin].
    destruct (Forall2_lookup_r _ _ _ _ _ Ho Hin) as (i & Hi' & Hev).
    apply list_elem_of_lookup_2 in Hi'. destruct Hev as [->|(Hst & -> & Hc)]; [by left|].
    right. left. exists i. split_and!; auto.
  - rewrite Forall_forall in Hn. destruct (Hn i' Hin) as (Hs & Hst & Hc & Hno).
    right. right. exists current, prior. split_and!; auto.
Qed.

(** The returned report agrees with the record: its closed, reclosed and resurfaced counters are the numbers of events of that type the run appended. *)
Theorem counters_agree_with_events d c d' t :
  wf d -> compute_closure now set_order db_path scan d = (c, d') -> t ∈ CLOSURE_EVENT_TYPES ->
  exists evs, db_events d' = db_events d ++ evs
    /\ default 0 (alookup t c) = Z.of_nat (length (List.filter (fun e => str_eqb (ev_type e) t) evs)).
Proof.
  intros Hwf H Ht. destruct (closure_cases _ _ _ _ d c d' H Hwf)
    as [(-> & Hno & _)|(current & prior & r2 & r & evs & Hran & _ & -> & -> & Hi & Hr)].
  - exists []. rewrite app_nil_r. split; [done|]. by apply Hno.
  - exists evs. split; [apply (ro_events _ _ _ _ _ _ _ Hr)|]. by apply (ro_counted _ _ _ _ _ _ _ Hr).
Qed.
End Properties.

(** * Across components: signatures of different estates *)

(** The scan's stored signature is the one [persist_scope_signature] wrote. *)
Definition signed (d : db) (scan : string) (sig : signature) (sha256 : string -> string) : Prop :=
  exists health t, find_sig scan d = Some (written_row scan sig health (compute_signature_digest sha256 sig) t).

(** Another estate never closes anything: when the current and the selected prior scan were signed under configurations declaring different targets, the run refuses with the scope-mismatch counter and leaves every table as it was. *)
Theorem other_estate_never_closes sha256 env env' cfg cfg' sensors sensors' now set_order db_path d current prior :
  let sig := build_scope_signature sha256 env cfg sensors in
  let sig' := build_scope_signature sha256 env' cfg' sensors' in
  truthy_str db_path = true -> truthy_str (Some current) = true -> truthy_str (Some prior) = true ->
  select_prior_scan_run_id d current = Some prior ->
  signed d current sig sha256 -> signed d prior sig' sha256 ->
  (forall s, sha256 s <> EmptyString) ->
  no_collision sha256 (target_payload (cfg_targets cfg)) (target_payload (cfg_targets cfg')) ->
  no_collision sha256 (signature_payload sig) (signature_payload sig') ->
  ~ same_targets (cfg_targets cfg) (cfg_targets cfg') ->
  compute_closure now set_order db_path (Some current) d = (aset "refused_scope_mismatch" 1 zero_counters, d).
Proof.
  intros sig sig' Hdb Hcur Hpri Hsel (h & t & Hf) (h' & t' & Hf') Hsha Hct Hcs Hdiff.
  assert (Htruthy : forall c, truthy_str (Some (compute_target_set_digest sha256 c)) = true).
  { intros c. unfold compute_target_set_digest.
    specialize (Hsha (dumps (target_payload (cfg_targets c)))). by destruct (sha256 _). }
  assert (Hdig : compute_signature_digest sha256 sig <> compute_signature_digest sha256 sig').
  { unfold compute_signature_digest. rewrite digest_inj by done. intros E.
    apply signature_payload_inj, (f_equal target_set_digest) in E. simpl in E. apply Hdiff.
    apply (target_payload_inj), (digest_inj sha256); done. }
  unfold compute_closure. rewrite Hdb, Hcur. cbn [negb orb].
  replace (str_or_empty (Some current)) with current by reflexivity. rewrite Hsel.
  unfold scans_are_comparable. rewrite Hpri. cbn [negb].
  replace (str_or_empty (Some prior)) with prior by reflexivity. rewrite Hf, Hf'.
  cbn [sg_version sg_target_digest sg_digest written_row signature_version target_set_digest].
  unfold sig, sig'. cbn [signature_version target_set_digest build_scope_signature].
  fold sig sig'. rewrite bool_decide_true by done. cbn [negb orb]. rewrite !Htruthy. cbn [negb orb].
  apply str_eqb_neq in Hdig. rewrite Hdig. reflexivity.
Qed.

(** * Counts *)

Definition rows_in (d : db) (scan : string) (states : list string) : Z :=
  Z.of_nat (length (List.filter (fun r => str_in (fr_state r) states) (fps_of_scan scan d))).

Lemma filter_length_split {A} (p q s : A -> bool) l :
  (forall x, s x = p x || q x) -> (forall x, p x && q x = false) ->
  length (List.filter s l) = (length (List.filter p l) + length (List.filter q l))%nat.
Proof.
  intros Hs Hd. induction l as [|x l IH]; simpl; [done|].
  rewrite Hs. specialize (Hd x). destruct (p x), (q x); simpl in *; try done; lia.
Qed.

(** State counts are never sparse and cannot drift apart: every item state and [open_like] is present, each state maps to the number of the scan's rows in it, and [open_like] to the number of rows that are open or resurfaced. *)
Theorem closure_counts_spec d scan :
  map fst (closure_counts d scan) = ITEM_STATES ++ ["open_like"]
  /\ Forall (fun s => alookup s (closure_counts d scan) = Some (rows_in d scan [s])) ITEM_STATES
  /\ alookup "open_like" (closure_counts d scan) = Some (rows_in d scan OPEN_LIKE_STATES).
Proof.
  assert (H1 : forall s, Z.of_nat (length (List.filter (fun r => str_eqb (fr_state r) s) (fps_of_scan scan d)))
                         = rows_in d scan [s]).
  { intros s. unfold rows_in. do 2 f_equal. apply filter_ext. intros r. unfold str_eqb, str_in.
    apply bool_decide_ext. by rewrite list_elem_of_singleton. }
  assert (H2 : rows_in d scan OPEN_LIKE_STATES = rows_in d scan ["open"] + rows_in d scan ["resurfaced"]).
  { unfold rows_in. rewrite <- Nat2Z.inj_add. f_equal. apply filter_length_split.
    - intros r. unfold str_in, OPEN_LIKE_STATES. rewrite <- bool_decide_or. apply bool_decide_ext.
      rewrite !elem_of_cons. set_solver.
    - intros r. unfold str_in. rewrite <- bool_decide_and. apply bool_decide_eq_false.
      rewrite !list_elem_of_singleton. intros [-> ?]. done. }
  split; [reflexivity|]. unfold closure_counts, ITEM_STATES, OPEN_LIKE_STATES in *.
  cbn [map app foldr alookup]. rewrite !H1. decide_literals.
  split; [|rewrite H2; cbn; do 2 f_equal; lia].
  repeat (apply Forall_cons; split; [decide_literals; by rewrite ?H1|]). constructor.
Qed.

(** * Witnesses

    Two scans of one estate.  The prior scan has an open finding behind SSH on
    [h:22], an open one on a host the current scan never reached, and a closed
    one that the current scan detects again. *)
Definition example_row (scan host : string) (port : Z) (proto : string) (field content : string) : endpoint_row :=
  {| er_ep := {| ep_host := host; ep_port := port; ep_protocol := Some proto; ep_scanned_at := None;
       ep_tls_version := None; ep_cipher_suite := None; ep_cert_subject := None;
       ep_cert_issuer := None; ep_cert_sig_alg := None; ep_cert_pubkey_alg := None;
       ep_cert_pubkey_size := None; ep_cert_spki_fingerprint := None; ep_cert_not_after := None;
       ep_scan_error := None; ep_tls_blocker_reason := None; ep_service_detail := None;
       ep_tls_supported_versions := None; ep_severity := None; ep_scan_run_id := Some scan |};
     er_text := fun f => if str_eqb f field then Some content else None;
     er_flag := fun _ => None |}.

Definition example_fp (id : Z) (slug scan fp host : string) (port : Z) (state : string) (at_ : Z)
  : RemediationItemFingerprint :=
  {| fr_id := id; fr_item := None; fr_slug := slug; fr_scan := scan; fr_fp := fp; fr_host := Some host;
     fr_port := Some port; fr_title := None; fr_state := state; fr_observed := Some at_ |}.

Definition example_item (id : Z) (slug scan state : string) (at_ : Z) : RemediationItem :=
  {| it_id := id; it_slug := slug; it_scan := scan; it_title := None; it_phase := Some "NOW";
     it_priority := Some 1; it_constituency := None; it_state := state; it_first_seen := None;
     it_created := Some at_ |}.

Definition example_health : pydict :=
  [("ssh", VDict [("status", VStr "healthy")]); ("tls", VDict [("status", VStr "not_run")])].

Definition example_sig (scan : string) (health : pydict) (at_ : Z) : sig_row :=
  {| sg_scan := scan; sg_version := Some "2.0.0"; sg_port_scope := None; sg_profile := None;
     sg_extras := None; sg_credentials := None; sg_sensors := None; sg_target_digest := Some "t";
     sg_probe_health := Some (VDict health); sg_digest := "d"; sg_created := Some at_ |}.

Definition example_db : db :=
  {| db_endpoints := [example_row "p" "h" 22 "SSH" "ssh_audit_json" "{a}"; example_row "c" "h" 22 "SSH" "ssh_audit_json" "{a}"];
     db_items := [example_item 1 "weak-ssh" "p" "open" 10; example_item 2 "other" "c" "open" 20];
     db_fps := [example_fp 1 "weak-ssh" "p" "f1" "h" 22 "open" 10; example_fp 2 "gone" "p" "f2" "g" 443 "open" 10;
                example_fp 3 "back" "p" "f3" "h" 22 "closed" 10; example_fp 4 "back" "c" "f3" "h" 22 "open" 20];
     db_events := []; db_sigs := [example_sig "p" [] 10; example_sig "c" example_health 20]; db_calls := 0 |}.

Definition example_now (n : nat) : Z := 100 + Z.of_nat n.
Definition example_run : counters * db :=
  compute_closure example_now (fun l => l) (Some "quirk.db") (Some "c") example_db.

Lemma example_wf : wf example_db.
Proof. constructor; apply (bool_decide_eq_true _); vm_compute; reflexivity. Qed.

Lemma example_ran : ran example_db (Some "quirk.db") (Some "c") "c" "p".
Proof.
  split_and!; try (vm_compute; reflexivity). left. vm_compute. discriminate.
Qed.

Lemma example_run_eq : compute_closure example_now (fun l => l) (Some "quirk.db") (Some "c") example_db = (example_run.1, example_run.2).
Proof. unfold example_run. by destruct (compute_closure _ _ _ _ _). Qed.

(** The prior finding behind SSH closes, the unreached one is carried, the
    closed one resurfaces; the item of the closed one closes. *)
Lemma example_report :
  map (fun k => default 0 (alookup k example_run.1)) ["closed"; "resurfaced"; "refused_absent_endpoint"; "items_closed"] = [1; 1; 1; 1]
  /\ map (fun r => (fr_id r, fr_scan r, fr_fp r, fr_state r)) (db_fps example_run.2) =
     [(1, "p", "f1", "closed"); (2, "p", "f2", "open"); (3, "p", "f3", "closed"); (4, "c", "f3", "resurfaced");
      (5, "c", "f1", "closed"); (6, "c", "f2", "not_observed")]
  /\ map (fun e => (ev_fp e, ev_type e)) (db_events example_run.2) = [(Some "f1", "closed"); (Some "f3", "resurfaced")]
  /\ map (fun i => (it_id i, it_slug i, it_scan i, it_state i)) (db_items example_run.2) =
     [(1, "weak-ssh", "p", "closed"); (2, "other", "c", "open"); (3, "weak-ssh", "c", "closed")].
Proof. split_and!; vm_compute; reflexivity. Qed.

Lemma closure_two_sided_witness :
  exists row, two_sided example_db "c" "p" (health_of example_db "c") row /\ fr_fp row = "f1".
Proof.
  destruct (closure_two_sided example_now (fun l => l) (Some "quirk.db") (Some "c") example_db _ _ example_wf example_run_eq)
    as (evs & E & H). change (db_events example_db ++ evs) with evs in E.
  assert (He : exists e, e ∈ evs /\ ev_type e = "closed" /\ ev_fp e = Some "f1").
  { rewrite <- E. vm_compute. eexists. split; [left|split; reflexivity]. }
  destruct He as (e & He & Ht & Hf). destruct (H e He) as (cu & pr & row & Hran & Htwo & Hk & _).
  { rewrite Ht. left. }
  destruct Hran as (_ & _ & [= <-] & Hsel & _).
  assert (Hp : select_prior_scan_run_id example_db "c" = Some "p") by (vm_compute; reflexivity).
  rewrite Hp in Hsel. injection Hsel as <-. exists row. split; [exact Htwo|].
  injection Hk as _ Hk. congruence.
Defined.

Lemma closure_history_append_only_witness :
  wf example_run.2 /\ db_sigs example_run.2 = db_sigs example_db.
Proof.
  destruct (closure_history_append_only example_now (fun l => l) (Some "quirk.db") (Some "c") example_db _ _
    example_wf example_run_eq) as (Hwf & _ & Hs & _).
  split; [exact Hwf|exact Hs].
Defined.

Lemma no_finding_dropped_witness :
  exists n, n ∈ fps_of_scan "c" example_run.2 /\ key_of n = ("gone", "f2").
Proof.
  destruct (no_finding_dropped example_now (fun l => l) (Some "quirk.db") (Some "c") example_db _ _ "c" "p"
    (example_fp 2 "gone" "p" "f2" "g" 443 "open" 10) example_wf example_ran example_run_eq) as (n & Hn & Hk & _).
  - apply elem_of_fps. split; [right; left|reflexivity].
  - discriminate.
  - exists n. split; [exact Hn|exact Hk].
Defined.

Lemma resurfaced_iff_regressed_witness :
  with_state RESURFACED_STATE (example_fp 4 "back" "c" "f3" "h" 22 "open" 20) ∈ db_fps example_run.2.
Proof.
  apply (resurfaced_iff_regressed example_now (fun l => l) (Some "quirk.db") (Some "c") example_db _ _ "c" "p" _
    example_wf example_ran example_run_eq).
  - apply elem_of_fps. split; [do 3 right; left|reflexivity].
  - apply (bool_decide_eq_true _). vm_compute. reflexivity.
  - exists (example_fp 3 "back" "p" "f3" "h" 22 "closed" 10). split; vm_compute; reflexivity.
Defined.

Lemma items_close_with_constituents_witness :
  constituents_closed (db_fps example_run.2) "weak-ssh" "p".
Proof.
  destruct (items_close_with_constituents example_now (fun l => l) (Some "quirk.db") (Some "c") example_db _ _
    (item_with_state CLOSED_STATE (example_item 1 "weak-ssh" "p" "open" 10)) example_wf example_run_eq)
    as [H|[(i & Hi & _ & E & Hc)|(cu & pr & (_ & _ & [= <-] & _) & E & _)]].
  - vm_compute. left.
  - exfalso. apply elem_of_cons in H as [H|H]; [discriminate (f_equal it_state H)|].
    apply list_elem_of_singleton in H. discriminate (f_equal it_id H).
  - pose proof (f_equal it_slug E : "weak-ssh" = it_slug i) as E1.
    pose proof (f_equal it_scan E : "p" = it_scan i) as E2. rewrite E1, E2. exact Hc.
  - discriminate E.
Defined.

Lemma counters_agree_with_events_witness : default 0 (alookup "resurfaced" example_run.1) = 1.
Proof.
  destruct (counters_agree_with_events example_now (fun l => l) (Some "quirk.db") (Some "c") example_db _ _ "resurfaced"
    example_wf example_run_eq) as (evs & E & ->); [right; left|].
  change (db_events example_db ++ evs) with evs in E. rewrite <- E. vm_compute. reflexivity.
Defined.

(** The same configuration but for its targets, signed with an injective digest. *)
Definition example_sha (s : string) : string := String "#"%char s.
Lemma example_sha_inj s t : example_sha s = example_sha t -> s = t.
Proof. by intros [= ->]. Qed.

Definition example_env : environment := {| has_module := fun _ => false; has_binary := fun _ => false |}.
Definition example_signature (names : list string) : signature :=
  build_scope_signature example_sha example_env (quiet_config (estate names)) [].

Definition two_estates : db :=
  {| db_endpoints := []; db_items := []; db_fps := []; db_events := [];
     db_sigs := [written_row "p" (example_signature ["a"]) [] (compute_signature_digest example_sha (example_signature ["a"])) 1;
                 written_row "c" (example_signature ["b"]) [] (compute_signature_digest example_sha (example_signature ["b"])) 2];
     db_calls := 0 |}.

Lemma other_estate_never_closes_witness :
  compute_closure example_now (fun l => l) (Some "quirk.db") (Some "c") two_estates =
    (aset "refused_scope_mismatch" 1 zero_counters, two_estates).
Proof.
  apply (other_estate_never_closes example_sha example_env example_env (quiet_config (estate ["b"]))
    (quiet_config (estate ["a"])) [] [] example_now (fun l => l) (Some "quirk.db") two_estates "c" "p").
  - reflexivity.
  - reflexivity.
  - reflexivity.
  - vm_compute. reflexivity.
  - exists [], 2. reflexivity.
  - exists [], 1. reflexivity.
  - discriminate.
  - unfold no_collision. apply example_sha_inj.
  - unfold no_collision. apply example_sha_inj.
  - intros H. apply Forall_cons in H as [H _].
    assert (Hin : "b" ∈ entries fqdns (estate ["a"])).
    { apply H. vm_compute. left. }
    revert Hin. apply (bool_decide_eq_false _). vm_compute. reflexivity.
Defined.
