(* ===== verification/Snapshot.v ===== *)
(** The remediation snapshot of a scan: [src/quirk/intelligence/remediation_persist.py].

    The roadmap items of a scan and, for each, the fingerprints of the findings
    that constitute it, written to the tables of [Closure] in one transaction
    that commits as a whole (a database error, which is not modelled, rolls it
    back and reports zero counters).  A query sees the flushed rows: items are
    flushed as they are inserted, and the fingerprint rows pending in the
    session belong to other slugs than the one queried. *)
From Stdlib Require Import ZArith Lia Ascii.
From stdpp Require Import base tactics sets strings list.
From S2P Require Import Prelude PyVal Model Evidence Compliance Remediation Roadmap ScopeSignature Closure.

Local Open Scope Z_scope.
Local Open Scope quirk_scope.

(** [_SLUG_PRIORITY]. *)
Definition SLUG_PRIORITY : list (string * Z) :=
  [("plaintext-http-exposure", 10);
   ("high-impact-findings", 20);
   ("expired-certificates", 30);
   ("scan-reliability", 40);
   ("unknown-open-services", 50);
   ("near-expiry-certificates", 60);
   ("self-signed-certificates", 70);
   ("legacy-tls-versions", 80);
   ("tls-enum-coverage", 90);
   ("ecdsa-adoption-planning", 100);
   ("mtls-lifecycle-operations", 110);
   ("assign-owners-and-slas", 900);
   ("automate-evidence-refresh", 910);
   ("crypto-governance-review", 920)].

Definition HIGH_IMPACT_SEVERITIES : list string := ["HIGH"; "CRITICAL"].

Definition normalized (title : option string) : string :=
  normalize_finding_title (str_or_empty title) (Some FINGERPRINT_TITLE_ALIASES).

Definition constitutes (kind : constituency) (f : finding) : bool :=
  match kind with
  | Fingerprint titles => str_in (normalized (f_title f)) (map (fun t => normalized (Some t)) titles)
  | Severity => str_in (upper (str_or_empty (f_severity f))) HIGH_IMPACT_SEVERITIES && negb (score_neutral f)
  | EvidenceOnly => false
  end.

Definition select_constituent_findings (kind : constituency) (findings : list finding) : list finding :=
  List.filter (constitutes kind) findings.

Definition kind_name (kind : constituency) : string :=
  match kind with
  | Fingerprint _ => "fingerprint"
  | Severity => "severity"
  | EvidenceOnly => "evidence_only"
  end.

(** [created_at ASC NULLS LAST]; rows with the same instant in table order. *)
Definition older_item (a b : RemediationItem) : bool :=
  match it_created a, it_created b with
  | _, None => true
  | None, Some _ => false
  | Some x, Some y => x <=? y
  end.

Definition earliest_scan_run_id_for_slug (slug fallback : string) (d : db) : string :=
  match first_by older_item (List.filter (fun i => str_eqb (Closure.it_slug i) slug) (db_items d)) with
  | Some existing => match it_scan existing with EmptyString => fallback | s => s end
  | None => fallback
  end.

Section Persist.
Context (sha256 : string -> string) (now : nat -> Z).

(** The display fields an idempotent re-run refreshes. *)
Definition refresh (title : string) (phase : string) (priority : option Z) (kind : string)
    (i : RemediationItem) : RemediationItem :=
  {| it_id := it_id i; it_slug := it_slug i; it_scan := it_scan i; Closure.it_title := Some title;
     Closure.it_phase := Some phase; Closure.it_priority := priority; it_constituency := Some kind;
     it_state := it_state i; it_first_seen := it_first_seen i; it_created := it_created i |}.

Definition new_item (slug scan title phase : string) (priority : option Z) (kind state : string) (d : db)
  : RemediationItem :=
  {| it_id := fresh_id (map it_id (db_items d)); it_slug := slug; it_scan := scan;
     Closure.it_title := Some title; Closure.it_phase := Some phase; Closure.it_priority := priority;
     it_constituency := Some kind; it_state := state;
     it_first_seen := Some (earliest_scan_run_id_for_slug slug scan d);
     it_created := Some (now (db_calls d)) |}.

(** [_upsert_item]: the tables and the id of the row. *)
Definition upsert_item (slug scan title phase : string) (priority : option Z) (kind state : string) (d : db)
  : db * Z :=
  match find_item slug scan d with
  | Some row => (set_items (update_item (it_id row) (refresh title phase priority kind)) d, it_id row)
  | None =>
      let row := new_item slug scan title phase priority kind state d in
      (tick (set_items (fun l => l ++ [row]) d), it_id row)
  end.

Definition existing_fingerprints (scan slug : string) (d : db) : list string :=
  map fr_fp (List.filter (fun r => str_eqb (fr_slug r) slug) (fps_of_scan scan d)).

Definition new_row (item : Z) (slug scan : string) (f : finding) (d : db) : RemediationItemFingerprint :=
  {| fr_id := fresh_id (map fr_id (db_fps d)); fr_item := Some item; fr_slug := slug; fr_scan := scan;
     fr_fp := compute_fingerprint sha256 f; fr_host := f_host f; fr_port := f_port f; fr_title := f_title f;
     fr_state := DETECTED_ITEM_STATE; fr_observed := Some (now (db_calls d)) |}.

(** The counters of the call. *)
Record snapshot_counters := { sc_items : Z; sc_fingerprints : Z; sc_skipped : Z }.

Definition no_snapshot : snapshot_counters := {| sc_items := 0; sc_fingerprints := 0; sc_skipped := 0 |}.

Definition snapshot_state : Type := db * snapshot_counters.

(** One turn of the loop over the constituents, with [seen_fps]. *)
Definition persist_finding (item : Z) (slug scan : string) (s : snapshot_state * list string) (f : finding)
  : snapshot_state * list string :=
  let '((d, c), seen) := s in
  let fp := compute_fingerprint sha256 f in
  if str_in fp seen then s
  else ((tick (set_fps (fun l => l ++ [new_row item slug scan f d]) d),
         {| sc_items := sc_items c; sc_fingerprints := sc_fingerprints c + 1; sc_skipped := sc_skipped c |}),
        fp :: seen).

(** One turn of the loop over the roadmap items. *)
Definition persist_item (scan : string) (findings : list finding) (s : snapshot_state) (i : item)
  : snapshot_state :=
  let '(d, c) := s in
  match slug_for_title (Roadmap.it_title i) with
  | None => (d, {| sc_items := sc_items c; sc_fingerprints := sc_fingerprints c; sc_skipped := sc_skipped c + 1 |})
  | Some slug =>
      let kind := default EvidenceOnly (alookup slug REMEDIATION_CONSTITUENCY) in
      let constituents := select_constituent_findings kind findings in
      let state := match constituents with [] => DEFAULT_ITEM_STATE | _ => DETECTED_ITEM_STATE end in
      let '(d, row_id) := upsert_item slug scan (Roadmap.it_title i) (Roadmap.it_phase i) (alookup slug SLUG_PRIORITY)
                            (kind_name kind) state d in
      let c := {| sc_items := sc_items c + 1; sc_fingerprints := sc_fingerprints c; sc_skipped := sc_skipped c |} in
      match constituents with
      | [] => (d, c)
      | _ => fst (foldl (persist_finding row_id slug scan) ((d, c), existing_fingerprints scan slug d) constituents)
      end
  end.

(** The roadmap the snapshot is taken of: the summary at its default horizon,
    no score drivers. *)
Definition snapshot_roadmap (endpoints : list CryptoEndpoint) (findings : list finding) : list item :=
  rm_items (default_roadmap (build_evidence_summary endpoints findings 30 None) []).

Definition persist_remediation_snapshot (db_path scan_run_id : option string)
    (endpoints : list CryptoEndpoint) (findings : list finding) (d : db) : snapshot_state :=
  if negb (truthy_str scan_run_id) || negb (truthy_str db_path) then (d, no_snapshot)
  else foldl (persist_item (str_or_empty scan_run_id) findings) (d, no_snapshot)
         (snapshot_roadmap endpoints findings).
End Persist.

(** [item_progress] of [remediation.py]: closed and total constituents. *)
Definition item_progress (scan_run_id slug : string) (d : db) : Z * Z :=
  let rows := List.filter (fun r => str_eqb (fr_slug r) slug) (fps_of_scan scan_run_id d) in
  (Z.of_nat (length (List.filter (fun r => str_eqb (fr_state r) "closed") rows)), Z.of_nat (length rows)).
