(* ===== verification/SnapshotTheory.v ===== *)
(** Lemmas on the remediation snapshot: what one item writes, and the invariant
    of the loop over the roadmap. *)
From Stdlib Require Import ZArith Lia Ascii.
From stdpp Require Import base tactics sets strings list.
From S2P Require Import Prelude PyVal Model Evidence Compliance Remediation Roadmap ScopeSignature Closure ClosureTheory Snapshot.

Local Open Scope Z_scope.
Local Open Scope quirk_scope.

(** * Slugs *)

(** Two titles never share a slug. *)
Lemma slug_injective t u slug : slug_for_title t = Some slug -> slug_for_title u = Some slug -> t = u.
Proof.
  unfold slug_for_title. intros H1%alookup_elem H2%alookup_elem.
  pose proof (nodup_map_inj snd REMEDIATION_KIND_SLUGS _ _ slugs_nodup H1 H2 eq_refl) as E. by injection E.
Qed.

(** * Growth of the tables *)

Section Theory.
Context (sha256 : string -> string) (now : nat -> Z) (scan : string) (findings : list finding).

(** A row of the scan with other display fields, or an untouched row. *)
Definition redisplayed (i i' : RemediationItem) : Prop :=
  i' = i \/ (it_scan i = scan /\ exists title phase priority kind, i' = refresh title phase priority kind i).

Record grew (d d' : db) : Prop := {
  grew_endpoints : db_endpoints d' = db_endpoints d;
  grew_events : db_events d' = db_events d;
  grew_sigs : db_sigs d' = db_sigs d;
  grew_fps : exists news, db_fps d' = db_fps d ++ news
    /\ Forall (fun r => fr_scan r = scan /\ fr_state r = DETECTED_ITEM_STATE) news;
  grew_items : exists olds news, db_items d' = olds ++ news
    /\ Forall2 redisplayed (db_items d) olds
    /\ Forall (fun i => it_scan i = scan /\ it_state i ∈ [DETECTED_ITEM_STATE; DEFAULT_ITEM_STATE]) news
}.

Lemma redisplayed_refl i : redisplayed i i.
Proof. by left. Qed.

Lemma redisplayed_trans i j k : redisplayed i j -> redisplayed j k -> redisplayed i k.
Proof.
  intros [->|(H1 & t & p & q & n & ->)] [->|(H2 & t' & p' & q' & n' & ->)];
    [by left|right; eauto 8|right; eauto 8|]. right. split; [done|]. by exists t', p', q', n'.
Qed.

Lemma redisplayed_cols i i' : redisplayed i i' ->
  it_id i' = it_id i /\ it_slug i' = it_slug i /\ it_scan i' = it_scan i /\ it_state i' = it_state i.
Proof. by intros [->|(_ & t & p & q & n & ->)]. Qed.

Lemma grew_refl d : grew d d.
Proof.
  split; [done..| |].
  - exists []. by rewrite app_nil_r.
  - exists (db_items d), []. rewrite app_nil_r. split_and!; [done| |done].
    apply Forall2_same_length_lookup_2; [done|]. intros i x y H1 H2. assert (x = y) by congruence. subst. by left.
Qed.

Lemma grew_trans d1 d2 d3 : grew d1 d2 -> grew d2 d3 -> grew d1 d3.
Proof.
  intros [He1 Hv1 Hs1 (n1 & Hf1 & Hn1) (o1 & m1 & Hi1 & Ho1 & Hm1)]
         [He2 Hv2 Hs2 (n2 & Hf2 & Hn2) (o2 & m2 & Hi2 & Ho2 & Hm2)].
  split; [congruence..| |].
  - exists (n1 ++ n2). rewrite Hf2, Hf1, app_assoc. split; [done|]. by apply Forall_app.
  - rewrite Hi1 in Ho2. apply Forall2_app_inv_l in Ho2 as (k1 & k2 & Hk1 & Hk2 & ->).
    exists k1, (k2 ++ m2). rewrite Hi2, app_assoc. split; [done|]. split.
    + eapply Forall2_trans; [apply redisplayed_trans|exact Ho1|exact Hk1].
    + apply Forall_app. split; [|done].
      apply Forall_forall. intros y [j Hj]%list_elem_of_lookup.
      destruct (Forall2_lookup_r _ _ _ _ _ Hk2 Hj) as (x & Hx & Hxy).
      pose proof (Forall_lookup_1 _ _ _ _ Hm1 Hx) as [H1 H2].
      destruct (redisplayed_cols _ _ Hxy) as (_ & _ & -> & ->). done.
Qed.

(** ** Membership *)

(** A constituent of an item is recorded. *)
Definition recorded (slug fp : string) (d : db) : Prop :=
  exists r, r ∈ db_fps d /\ fr_scan r = scan /\ fr_slug r = slug /\ fr_fp r = fp.

Lemma existing_recorded slug fp d : fp ∈ existing_fingerprints scan slug d <-> recorded slug fp d.
Proof.
  unfold existing_fingerprints, recorded, fps_of_scan. rewrite list_elem_of_fmap. split.
  - intros (r & -> & [[H1 H2%str_eqb_eq]%elem_of_filter_bool H3%str_eqb_eq]%elem_of_filter_bool). eauto 6.
  - intros (r & H1 & H2 & H3 & <-). exists r. split; [done|].
    by rewrite !elem_of_filter_bool, !str_eqb_eq.
Qed.

(** The fingerprint of a finding, abbreviated. *)
Notation cf := (compute_fingerprint sha256).

Definition fresh_slot (d : db) (r : RemediationItemFingerprint) : Prop := slot r ∉ map slot (db_fps d).

Lemma not_recorded_fresh item slug f d :
  ~ recorded slug (cf f) d -> fresh_slot d (new_row sha256 now item slug scan f d).
Proof.
  intros Hn (r & E & Hr)%list_elem_of_fmap. apply Hn. exists r. unfold slot, key_of in E.
  injection E as E1 E2 E3. done.
Qed.

(** Inserting one fingerprint row. *)
Lemma insert_fp_wf d r :
  wf d -> fr_id r = fresh_id (map fr_id (db_fps d)) -> fresh_slot d r ->
  wf (tick (set_fps (fun l => l ++ [r]) d)).
Proof.
  intros [H1 H2 H3 H4 H5] Hid Hs. split; cbn [tick set_fps db_fps db_items db_sigs]; [..|done|done|done].
  - rewrite map_app. apply NoDup_app. split_and!; [done| |apply NoDup_singleton].
    intros x Hx ->%list_elem_of_singleton. rewrite Hid in Hx. by apply fresh_id_not_in in Hx.
  - rewrite map_app. apply NoDup_app. split_and!; [done| |apply NoDup_singleton].
    by intros x Hx ->%list_elem_of_singleton.
Qed.

Lemma recorded_insert slug fp d r :
  recorded slug fp (tick (set_fps (fun l => l ++ [r]) d)) <->
  recorded slug fp d \/ (fr_scan r = scan /\ fr_slug r = slug /\ fr_fp r = fp).
Proof.
  unfold recorded. cbn [tick set_fps db_fps]. setoid_rewrite elem_of_app.
  setoid_rewrite list_elem_of_singleton. split.
  - intros (x & [Hx| ->] & H); [left; eauto|by right].
  - intros [(x & Hx & H)|H]; eauto.
Qed.

(** The loop over the constituents of one item. *)
Lemma persist_findings item slug fs : forall d c seen,
  wf d -> (forall fp, fp ∈ seen <-> recorded slug fp d) ->
  exists d' c' seen',
    foldl (persist_finding sha256 now item slug scan) ((d, c), seen) fs = ((d', c'), seen')
    /\ wf d' /\ grew d d' /\ db_items d' = db_items d /\ sc_items c' = sc_items c
    /\ (forall s fp, recorded s fp d' <-> recorded s fp d \/ (s = slug /\ exists f, f ∈ fs /\ fp = cf f))
    /\ ((forall f, f ∈ fs -> recorded slug (cf f) d) -> d' = d).
Proof.
  induction fs as [|f fs IH]; intros d c seen Hwf Hseen.
  - exists d, c, seen. split_and!; [done|done|apply grew_refl|done|done| |done].
    intros s fp. split; [auto|]. intros [?|(_ & f & Hf & _)]; [done|by apply not_elem_of_nil in Hf].
  - cbn [foldl persist_finding]. destruct (str_in (cf f) seen) eqn:E.
    + apply bool_decide_eq_true in E. destruct (IH d c seen Hwf Hseen) as (d' & c' & seen' & H & Hw & Hg & Hi & Hc & Hm & Hid).
      exists d', c', seen'. split_and!; try done.
      * intros s fp. rewrite Hm. setoid_rewrite elem_of_cons. split; [naive_solver|].
        intros [?|(-> & x & [->|Hx] & ->)]; [auto|left; by apply Hseen|eauto 6].
      * intros Ha. apply Hid. intros x Hx. apply Ha. by right.
    + apply bool_decide_eq_false in E. set (r := new_row sha256 now item slug scan f d).
      assert (Hfresh : fresh_slot d r) by (apply not_recorded_fresh; by rewrite <- Hseen).
      set (d1 := tick (set_fps (fun l => l ++ [r]) d)).
      assert (Hw1 : wf d1) by by apply insert_fp_wf.
      assert (Hg1 : grew d d1).
      { destruct (grew_refl d) as [? ? ? _ ?]. split; [done..| |done]. exists [r]. split; [done|]. by constructor. }
      set (c1 := {| sc_items := sc_items c; sc_fingerprints := sc_fingerprints c + 1; sc_skipped := sc_skipped c |}).
      destruct (IH d1 c1 (cf f :: seen) Hw1) as (d' & c' & seen' & H & Hw & Hg & Hi & Hc & Hm & Hid).
      { intros fp. rewrite elem_of_cons, Hseen. unfold d1. rewrite recorded_insert. cbn. naive_solver. }
      exists d', c', seen'. split_and!; [exact H|done|by eapply grew_trans|done|done| |].
      * intros s fp. rewrite Hm. unfold d1. rewrite recorded_insert. cbn. setoid_rewrite elem_of_cons. naive_solver.
      * intros Ha. exfalso. apply E, Hseen, Ha. by left.
Qed.

(** * Items *)

Lemma find_map {A} (p : A -> bool) (g : A -> A) l :
  (forall x, p (g x) = p x) -> List.find p (map g l) = option_map g (List.find p l).
Proof. intros H. induction l as [|x l IH]; simpl; [done|]. rewrite H. by destruct (p x). Qed.

Lemma find_app {A} (p : A -> bool) l k :
  List.find p (l ++ k) = match List.find p l with Some x => Some x | None => List.find p k end.
Proof. induction l as [|x l IH]; simpl; [done|]. by destruct (p x). Qed.

Lemma find_item_in slug d row :
  find_item slug scan d = Some row -> row ∈ db_items d /\ it_slug row = slug /\ it_scan row = scan.
Proof.
  unfold find_item. intros [H1 [H2 H3]%andb_true_iff]%List.find_some.
  split; [by apply list_elem_of_In|]. by apply str_eqb_eq in H2, H3.
Qed.

Section Upsert.
Context (slug title phase : string) (priority : option Z) (kind state : string).
Hypothesis state_known : state ∈ [DETECTED_ITEM_STATE; DEFAULT_ITEM_STATE].

Let up d := upsert_item now slug scan title phase priority kind state d.
Let shown (row : RemediationItem) : Prop := refresh title phase priority kind row = row.

Lemma update_wf d row :
  wf d -> row ∈ db_items d ->
  wf (set_items (update_item (it_id row) (refresh title phase priority kind)) d).
Proof.
  intros [H1 H2 H3 H4 H5] Hrow. split; cbn [set_items db_fps db_items db_sigs]; [done|done| | |done];
    unfold update_item; rewrite map_map;
    [rewrite (map_ext _ it_id); [done|]|rewrite (map_ext _ (fun i => (it_slug i, it_scan i))); [done|]];
    intros i; cbv beta; by destruct (it_id i =? it_id row).
Qed.

Lemma new_item_wf d :
  wf d -> find_item slug scan d = None ->
  wf (tick (set_items (fun l => l ++ [new_item now slug scan title phase priority kind state d]) d)).
Proof.
  intros [H1 H2 H3 H4 H5] Hn. split; cbn [tick set_items db_fps db_items db_sigs]; [done|done| | |done];
    rewrite map_app; apply NoDup_app; (split_and!; [done| |apply NoDup_singleton]);
    intros x Hx ->%list_elem_of_singleton.
  - cbn in Hx. by apply fresh_id_not_in in Hx.
  - apply list_elem_of_fmap in Hx as (i & E & Hi). cbn in E. injection E as E1 E2.
    apply list_elem_of_In in Hi. apply (List.find_none _ _ Hn) in Hi. by rewrite <- E1, <- E2, !str_eqb_refl in Hi.
Qed.

Lemma upsert_spec d :
  wf d ->
  let '(d1, id) := up d in
  wf d1 /\ grew d d1 /\ db_fps d1 = db_fps d
  /\ (exists row, find_item slug scan d1 = Some row /\ it_id row = id /\ shown row
        /\ (find_item slug scan d = None -> it_state row = state)
        /\ forall old, find_item slug scan d = Some old -> it_state row = it_state old)
  /\ (forall slug', slug' <> slug -> find_item slug' scan d1 = find_item slug' scan d)
  /\ (forall row, find_item slug scan d = Some row -> shown row -> d1 = d).
Proof.
  intros Hwf. unfold up, upsert_item. destruct (find_item slug scan d) as [row|] eqn:E.
  - destruct (find_item_in _ _ _ E) as (Hin & Hs & Hsc).
    set (g := fun i => if it_id i =? it_id row then refresh title phase priority kind i else i).
    assert (Hf : forall s, find_item s scan (set_items (update_item (it_id row) (refresh title phase priority kind)) d)
                 = option_map g (find_item s scan d)).
    { intros s. unfold find_item. cbn [set_items db_items]. apply find_map.
      intros x. by destruct (it_id x =? it_id row). }
    split_and!.
    + by apply update_wf.
    + destruct (grew_refl d) as [? ? ? ? _]. split; [done..|]. exists (map g (db_items d)), [].
      rewrite app_nil_r. split_and!; [done| |done].
      apply Forall2_fmap_r, Forall_Forall2_diag, Forall_forall. intros i Hi. unfold compose, g.
      destruct (it_id i =? it_id row) eqn:Ei; [|by left]. right. apply Z.eqb_eq in Ei.
      rewrite (nodup_map_inj it_id _ _ _ (wf_item_ids _ Hwf) Hi Hin Ei). split; [done|eauto].
    + done.
    + exists (refresh title phase priority kind row).
      rewrite Hf, E. cbn [option_map]. unfold g. rewrite Z.eqb_refl.
      split_and!; [done..|]. by intros old [= <-].
    + intros s Hne. rewrite Hf. destruct (find_item s scan d) as [x|] eqn:Ex; [|done]. cbn [option_map]. f_equal.
      unfold g. destruct (it_id x =? it_id row) eqn:Ei; [|done]. apply Z.eqb_eq in Ei.
      destruct (find_item_in _ _ _ Ex) as (Hx & Hxs & _).
      pose proof (nodup_map_inj it_id _ _ _ (wf_item_ids _ Hwf) Hx Hin Ei). subst x. congruence.
    + intros row' [= <-] Hsh. destruct d as [eps items fps evs sigs calls]. unfold set_items.
      cbn [db_endpoints db_items db_fps db_events db_sigs db_calls] in *. f_equal.
      unfold update_item. transitivity (map id items); [|apply map_id].
      apply map_ext_in. intros i Hi%list_elem_of_In. destruct (it_id i =? it_id row) eqn:Ei; [|done].
      apply Z.eqb_eq in Ei. by rewrite (nodup_map_inj it_id _ _ _ (wf_item_ids _ Hwf) Hi Hin Ei).
  - set (row := new_item now slug scan title phase priority kind state d).
    assert (Hf : forall s, find_item s scan (tick (set_items (fun l => l ++ [row]) d))
                 = match find_item s scan d with Some x => Some x | None => if str_eqb slug s then Some row else None end).
    { intros s. unfold find_item. cbn [tick set_items db_items]. rewrite find_app. cbn [List.find it_slug it_scan row new_item].
      by rewrite str_eqb_refl, andb_true_r. }
    split_and!.
    + by apply new_item_wf.
    + destruct (grew_refl d) as [? ? ? ? (o & n & Hi & Ho & Hn)]. split; [done..|].
      exists (db_items d), [row]. split_and!; [done| |by constructor].
      apply Forall_Forall2_diag, Forall_forall. intros i _. by left.
    + done.
    + exists row. rewrite Hf, E, str_eqb_refl. by split_and!.
    + intros s Hne. rewrite Hf. destruct (find_item s scan d); [done|].
      destruct (str_eqb slug s) eqn:Es; [|done]. apply str_eqb_eq in Es. congruence.
    + done.
Qed.
End Upsert.

(** ** One item *)

Definition constituency_of (slug : string) : constituency :=
  default EvidenceOnly (alookup slug REMEDIATION_CONSTITUENCY).

Definition constituents_of (slug : string) : list finding :=
  select_constituent_findings (constituency_of slug) findings.

(** The state of a new item follows whether a constituent was detected. *)
Definition initial_state (slug : string) : string :=
  match constituents_of slug with [] => DEFAULT_ITEM_STATE | _ => DETECTED_ITEM_STATE end.

Definition shows (i : item) (slug : string) (row : RemediationItem) : Prop :=
  refresh (Roadmap.it_title i) (Roadmap.it_phase i) (alookup slug SLUG_PRIORITY)
    (kind_name (constituency_of slug)) row = row.

(** The scan's row of the item holds its display fields. *)
Definition displayed (i : item) (d : db) : Prop :=
  forall slug, slug_for_title (Roadmap.it_title i) = Some slug ->
  exists row, find_item slug scan d = Some row /\ shows i slug row.

(** What an item adds to the recorded constituents. *)
Definition contributes (i : item) (slug fp : string) : Prop :=
  slug_for_title (Roadmap.it_title i) = Some slug /\ exists f, f ∈ constituents_of slug /\ fp = cf f.

Lemma initial_state_known slug : initial_state slug ∈ [DETECTED_ITEM_STATE; DEFAULT_ITEM_STATE].
Proof. unfold initial_state. destruct (constituents_of slug); set_solver. Qed.

Lemma find_item_ext slug d d' : db_items d' = db_items d -> find_item slug scan d' = find_item slug scan d.
Proof. unfold find_item. by intros ->. Qed.

Record item_written (i : item) (d d' : db) : Prop := {
  iw_wf : wf d';
  iw_grew : grew d d';
  iw_displayed : displayed i d';
  iw_others : forall s, slug_for_title (Roadmap.it_title i) <> Some s -> find_item s scan d' = find_item s scan d;
  iw_recorded : forall s fp, recorded s fp d' <-> recorded s fp d \/ contributes i s fp;
  iw_state : forall slug row, slug_for_title (Roadmap.it_title i) = Some slug ->
    find_item slug scan d' = Some row ->
    it_state row = match find_item slug scan d with Some old => it_state old | None => initial_state slug end;
  iw_again : displayed i d -> (forall s fp, contributes i s fp -> recorded s fp d) -> d' = d
}.

Lemma persist_item_spec i d c :
  wf d -> item_written i d (persist_item sha256 now scan findings (d, c) i).1.
Proof.
  intros Hwf. unfold persist_item.
  destruct (slug_for_title (Roadmap.it_title i)) as [slug|] eqn:Es.
  2:{ cbn [fst]. split; unfold displayed, contributes; rewrite ?Es; try done; [apply grew_refl|naive_solver]. }
  fold (constituency_of slug). fold (constituents_of slug). fold (initial_state slug).
  pose proof (upsert_spec slug (Roadmap.it_title i) (Roadmap.it_phase i) (alookup slug SLUG_PRIORITY)
    (kind_name (constituency_of slug)) (initial_state slug) (initial_state_known slug) d Hwf) as H.
  cbv beta zeta in H.
  destruct (upsert_item _ _ _ _ _ _ _ _ _) as [d1 id].
  destruct H as (Hw1 & Hg1 & Hf1 & (row & Hrow & Hid & Hsh & Hnew & Hold) & Hoth & Hsame).
  set (c1 := {| sc_items := sc_items c + 1; sc_fingerprints := sc_fingerprints c; sc_skipped := sc_skipped c |}).
  assert (Hrec1 : forall s fp, recorded s fp d1 <-> recorded s fp d).
  { intros s fp. unfold recorded. by rewrite Hf1. }
  destruct (persist_findings id slug (constituents_of slug) d1 c1 (existing_fingerprints scan slug d1) Hw1)
    as (d2 & c2 & seen2 & Hfold & Hw2 & Hg2 & Hi2 & _ & Hm2 & Hid2).
  { intros fp. apply existing_recorded. }
  assert (E : (match constituents_of slug with
               | [] => (d1, c1)
               | _ => fst (foldl (persist_finding sha256 now id slug scan)
                        ((d1, c1), existing_fingerprints scan slug d1) (constituents_of slug))
               end).1 = d2).
  { destruct (constituents_of slug) as [|f fs] eqn:Ec; [by injection Hfold|]. by rewrite Hfold. }
  match goal with |- item_written i d ?x => replace x with d2 by (symmetry; exact E) end. split.
  - done.
  - by eapply grew_trans.
  - intros s Hs. rewrite Es in Hs. injection Hs as <-. exists row.
    by rewrite (find_item_ext _ _ _ Hi2).
  - intros s Hs. rewrite (find_item_ext _ _ _ Hi2). apply Hoth. congruence.
  - intros s fp. rewrite Hm2, Hrec1. unfold contributes. rewrite Es. naive_solver.
  - intros s r Hs. rewrite Es in Hs. injection Hs as <-. rewrite (find_item_ext _ _ _ Hi2), Hrow.
    intros [= <-]. destruct (find_item slug scan d) as [old|] eqn:Eo; auto.
  - intros Hd Hc. destruct (Hd slug Es) as (old & Hold' & Hsh'). rewrite <- (Hsame old Hold' Hsh').
    apply Hid2. intros f Hf. apply Hrec1, Hc. unfold contributes. rewrite Es. eauto.
Qed.

(** ** The whole roadmap *)

(** After the items [done], from the tables [d]. *)
Record SnapInv (d : db) (done : list item) (d' : db) : Prop := {
  si_wf : wf d';
  si_grew : grew d d';
  si_displayed : Forall (fun i => displayed i d') done;
  si_recorded : forall s fp, recorded s fp d' <-> recorded s fp d \/ exists i, i ∈ done /\ contributes i s fp;
  si_others : forall s, (forall i, i ∈ done -> slug_for_title (Roadmap.it_title i) <> Some s) ->
    find_item s scan d' = find_item s scan d;
  si_state : forall i slug row, i ∈ done -> slug_for_title (Roadmap.it_title i) = Some slug ->
    find_item slug scan d' = Some row ->
    it_state row = match find_item slug scan d with Some old => it_state old | None => initial_state slug end
}.

Lemma snapshot_items items : forall d c,
  wf d -> NoDup (map Roadmap.it_title items) ->
  SnapInv d items (foldl (persist_item sha256 now scan findings) (d, c) items).1.
Proof.
  induction items as [|i items IH] using rev_ind; intros d c Hwf Hnd.
  - split; [done|apply grew_refl|done| |done|].
    + intros s fp. split; [auto|]. intros [?|(i & Hi & _)]; [done|by apply not_elem_of_nil in Hi].
    + intros i slug row Hi. by apply not_elem_of_nil in Hi.
  - rewrite map_app in Hnd. apply NoDup_app in Hnd as (Hnd & Hdis & _).
    destruct (IH d c Hwf Hnd) as [Hw Hg Hd Hr Ho Hst]. rewrite foldl_app. cbn [foldl].
    destruct (foldl (persist_item sha256 now scan findings) (d, c) items) as [d1 c1]. cbn [fst] in *.
    destruct (persist_item_spec i d1 c1 Hw) as [Hw2 Hg2 Hd2 Ho2 Hr2 Hst2 _].
    assert (Hne : forall j s, j ∈ items -> slug_for_title (Roadmap.it_title j) = Some s ->
              slug_for_title (Roadmap.it_title i) <> Some s).
    { intros j s Hj Hs Hi. apply (Hdis (Roadmap.it_title j)); [by apply list_elem_of_fmap_2|].
      rewrite (slug_injective _ _ _ Hs Hi). by left. }
    split; [done|by eapply grew_trans| | | |].
    + apply Forall_app. split; [|by constructor]. apply Forall_forall. intros j Hj s Hs.
      rewrite Ho2 by eauto. rewrite Forall_forall in Hd. by apply (Hd j Hj).
    + intros s fp. rewrite Hr2, Hr. setoid_rewrite elem_of_app. setoid_rewrite list_elem_of_singleton.
      split; [intros [[?|(j & ? & ?)]|?]; eauto 6|]. intros [?|(j & [?| ->] & ?)]; eauto 6.
    + intros s Hs. rewrite Ho2, Ho; [done| |].
      * intros j Hj. apply Hs. apply elem_of_app. by left.
      * apply Hs. apply elem_of_app. right. by left.
    + intros j slug row [Hj|Hj%list_elem_of_singleton]%elem_of_app Hs Hrow.
      * rewrite Ho2 in Hrow by eauto. eauto.
      * subst j. rewrite (Hst2 _ _ Hs Hrow). rewrite Ho; [done|]. intros j Hj Hjs. by destruct (Hne j slug Hj Hjs).
Qed.

(** A second pass over the same items changes nothing. *)
Lemma snapshot_again items : forall d c,
  wf d -> Forall (fun i => displayed i d) items ->
  (forall i s fp, i ∈ items -> contributes i s fp -> recorded s fp d) ->
  (foldl (persist_item sha256 now scan findings) (d, c) items).1 = d.
Proof.
  induction items as [|i items IH]; intros d c Hwf Hd Hc; [done|]. cbn [foldl].
  apply Forall_cons in Hd as [Hi Hd].
  pose proof (iw_again _ _ _ (persist_item_spec i d c Hwf) Hi) as E.
  destruct (persist_item sha256 now scan findings (d, c) i) as [d1 c1]. cbn [fst] in E.
  rewrite E by (intros s fp; apply Hc; by left). apply IH; [done|done|].
  intros j s fp Hj. apply Hc. by right.
Qed.
End Theory.
