(* ===== verification/SnapshotProps.v ===== *)
(** Properties of the remediation snapshot: what it adds to the tables, which
    fingerprints it records, that repeating it changes nothing, and its
    composition with the findings evaluator and with closure. *)
From Stdlib Require Import ZArith Lia Ascii.
From stdpp Require Import base tactics sets strings list.
From S2P Require Import Prelude PyVal Scoring Model Evidence FindingText Findings FindingsTheory FindingsProps Compliance Remediation Roadmap ScopeSignature Closure ClosureTheory ClosureProps Snapshot SnapshotTheory.

Local Open Scope Z_scope.
Local Open Scope quirk_scope.

Section Props.
Context (sha256 : string -> string) (now : nat -> Z).

Notation persist := (persist_remediation_snapshot sha256 now).

(** The loop of a snapshot that is taken. *)
Lemma snapshot_inv db_path scan eps fs d :
  wf d -> truthy_str db_path = true -> truthy_str scan = true ->
  SnapInv sha256 (str_or_empty scan) fs d (snapshot_roadmap eps fs) (persist db_path scan eps fs d).1.
Proof.
  intros Hwf H1 H2. unfold persist_remediation_snapshot. rewrite H1, H2. cbn [negb orb].
  apply snapshot_items; [done|]. apply roadmap_items.
Qed.

(** A snapshot only adds: it keeps the table constraints, leaves endpoints,
    events, signatures and every stored fingerprint row as they are, appends
    rows of its own scan in the open state, appends items of its own scan as
    open or not observed (never closed), and touches no stored item beyond the
    display fields of those of its scan. *)
Theorem snapshot_only_adds db_path scan eps fs d :
  wf d ->
  wf (persist db_path scan eps fs d).1 /\ grew (str_or_empty scan) d (persist db_path scan eps fs d).1.
Proof.
  intros Hwf. destruct (truthy_str scan && truthy_str db_path) eqn:E.
  - apply andb_true_iff in E as [E1 E2]. destruct (snapshot_inv db_path scan eps fs d Hwf E2 E1) as [H1 H2 _ _ _ _]. done.
  - unfold persist_remediation_snapshot. apply andb_false_iff in E.
    destruct (negb (truthy_str scan) || negb (truthy_str db_path)) eqn:E'; [split; [done|apply grew_refl]|].
    apply orb_false_iff in E' as [?%negb_false_iff ?%negb_false_iff]. intuition congruence.
Qed.

(** C29: membership is explicit and exact: after a snapshot the scan records,
    for each slug, the fingerprints it recorded before and those of exactly the
    findings that constitute a roadmap item of that slug; and each roadmap item
    with a slug has its row, new rows being open exactly when a constituent was
    detected. *)
Theorem snapshot_membership db_path scan eps fs d :
  wf d -> truthy_str db_path = true -> truthy_str scan = true ->
  let d' := (persist db_path scan eps fs d).1 in
  (forall slug fp, recorded (str_or_empty scan) slug fp d' <->
     recorded (str_or_empty scan) slug fp d \/
     exists i f, i ∈ snapshot_roadmap eps fs /\ slug_for_title (Roadmap.it_title i) = Some slug
       /\ f ∈ fs /\ constitutes (constituency_of slug) f = true /\ fp = compute_fingerprint sha256 f) /\
  (forall i slug, i ∈ snapshot_roadmap eps fs -> slug_for_title (Roadmap.it_title i) = Some slug ->
     exists row, find_item slug (str_or_empty scan) d' = Some row /\
       it_state row = match find_item slug (str_or_empty scan) d with
                      | Some old => it_state old
                      | None => if existsb (constitutes (constituency_of slug)) fs
                                then DETECTED_ITEM_STATE else DEFAULT_ITEM_STATE
                      end).
Proof.
  intros Hwf H1 H2 d'. destruct (snapshot_inv db_path scan eps fs d Hwf H1 H2) as [_ _ Hd Hr _ Hs]. fold d' in Hd, Hr, Hs.
  split.
  - intros slug fp. rewrite Hr. unfold contributes, constituents_of, select_constituent_findings.
    setoid_rewrite elem_of_filter_bool. split; (intros [?|H]; [by left|right]).
    + destruct H as (i & Hi & Hsl & f & [Hf Hc] & Hfp). eauto 8.
    + destruct H as (i & f & Hi & Hsl & Hf & Hc & Hfp). eauto 10.
  - intros i slug Hi Hsl. rewrite Forall_forall in Hd. destruct (Hd i Hi slug Hsl) as (row & Hrow & _).
    exists row. split; [done|]. rewrite (Hs i slug row Hi Hsl Hrow).
    destruct (find_item slug (str_or_empty scan) d); [done|].
    unfold initial_state, constituents_of, select_constituent_findings.
    destruct (existsb (constitutes (constituency_of slug)) fs) eqn:E.
    + apply existsb_exists in E as (f & Hf & Hc).
      assert (In f (List.filter (constitutes (constituency_of slug)) fs)) by by apply filter_In.
      by destruct (List.filter _ _).
    + destruct (List.filter _ _) as [|f l] eqn:El; [done|].
      assert (In f (f :: l)) as Hin by by left. rewrite <- El in Hin. apply filter_In in Hin as [Hf Hc].
      assert (existsb (constitutes (constituency_of slug)) fs = true) by (apply existsb_exists; eauto). congruence.
Qed.

(** Taking the same snapshot again changes no table, whatever the clock:
    a resumed scan neither duplicates a fingerprint nor resets a state. *)
Theorem snapshot_idempotent now' db_path scan eps fs d :
  wf d ->
  (persist_remediation_snapshot sha256 now' db_path scan eps fs (persist db_path scan eps fs d).1).1
  = (persist db_path scan eps fs d).1.
Proof.
  intros Hwf. destruct (truthy_str scan && truthy_str db_path) eqn:E.
  - apply andb_true_iff in E as [E1 E2].
    destruct (snapshot_inv db_path scan eps fs d Hwf E2 E1) as [Hw _ Hd Hr _ _].
    set (d' := (persist db_path scan eps fs d).1) in *.
    unfold persist_remediation_snapshot. rewrite E1, E2. cbn [negb orb].
    apply snapshot_again; [done|done|]. intros i s fp Hi Hc. apply Hr. eauto.
  - unfold persist_remediation_snapshot. apply andb_false_iff in E.
    destruct (negb (truthy_str scan) || negb (truthy_str db_path)) eqn:E'; [done|].
    apply orb_false_iff in E' as [?%negb_false_iff ?%negb_false_iff]. intuition congruence.
Qed.
End Props.

(** * Witnesses *)

Definition empty_db : db :=
  {| db_endpoints := []; db_items := []; db_fps := []; db_events := []; db_sigs := []; db_calls := 0 |}.

Lemma empty_wf : wf empty_db.
Proof. constructor; apply NoDup_nil_2. Qed.

Definition sample_findings : list finding :=
  match derive_report_findings no_json sample_now sample_now [] sample_rows with
  | Ok fs => map as_finding fs
  | Raise _ => []
  end.

Definition sample_snapshot : db :=
  (persist_remediation_snapshot example_sha example_now (Some "quirk.db") (Some "s1")
     (map er_ep sample_rows) sample_findings empty_db).1.

Lemma snapshot_only_adds_witness : wf sample_snapshot /\ length (db_fps sample_snapshot) = 7%nat.
Proof.
  split; [|vm_compute; reflexivity].
  exact (proj1 (snapshot_only_adds example_sha example_now (Some "quirk.db") (Some "s1")
                  (map er_ep sample_rows) sample_findings empty_db empty_wf)).
Defined.

Lemma snapshot_membership_witness :
  recorded "s1" "plaintext-http-exposure" "#web:8443::HTTP on TLS-designated port" sample_snapshot.
Proof.
  pose proof (snapshot_membership example_sha example_now (Some "quirk.db") (Some "s1")
                (map er_ep sample_rows) sample_findings empty_db empty_wf eq_refl eq_refl) as [H _].
  apply H. right.
  assert (Hi : exists i, i ∈ snapshot_roadmap (map er_ep sample_rows) sample_findings
                 /\ slug_for_title (Roadmap.it_title i) = Some "plaintext-http-exposure").
  { exists (List.hd governance (snapshot_roadmap (map er_ep sample_rows) sample_findings)).
    split; [|vm_compute; reflexivity]. apply list_elem_of_lookup. exists 0%nat. vm_compute; reflexivity. }
  destruct Hi as (i & Hi & Hs).
  exists i, {| f_title := Some "HTTP on TLS-designated port"; f_severity := Some "HIGH"; f_category := None;
               f_host := Some "web"; f_port := Some 8443 |}.
  split_and!; [exact Hi|exact Hs| |vm_compute; reflexivity..].
  apply list_elem_of_lookup. exists 2%nat. vm_compute; reflexivity.
Defined.

Lemma snapshot_idempotent_witness :
  (persist_remediation_snapshot example_sha example_now (Some "quirk.db") (Some "s1")
     (map er_ep sample_rows) sample_findings sample_snapshot).1 = sample_snapshot
  /\ length (db_items sample_snapshot) = 7%nat.
Proof.
  split; [|vm_compute; reflexivity].
  exact (snapshot_idempotent example_sha example_now example_now (Some "quirk.db") (Some "s1")
           (map er_ep sample_rows) sample_findings empty_db empty_wf).
Defined.
