(* ===== verification/Pipeline.v ===== *)
(** What [main] of [src/run_scan.py] does with the findings of a completed scan:
    the remediation snapshot, the scope signature, closure, in that order; and
    the properties of that composition. *)
From Stdlib Require Import ZArith Lia Ascii.
From stdpp Require Import base tactics sets strings list.
From S2P Require Import Prelude PyVal Scoring Model Evidence FindingText Findings FindingsTheory FindingsProps Compliance Remediation Roadmap ScopeSignature Closure ClosureTheory ClosureProps Snapshot SnapshotTheory SnapshotProps.

Local Open Scope Z_scope.
Local Open Scope quirk_scope.

Definition set_sigs (sigs : list sig_row) (d : db) : db :=
  {| db_endpoints := db_endpoints d; db_items := db_items d; db_fps := db_fps d;
     db_events := db_events d; db_sigs := sigs; db_calls := db_calls d |}.

Section AfterScan.
Context (sha256 : string -> string) (env : environment) (now : nat -> Z)
        (set_order : list string -> list string).
Context (cfg : AppConfig) (sensors : list string) (run_stats : option pydict).

(** The snapshot and the signature of the scan. *)
Definition recorded_scan (db_path scan : option string) (rows : list endpoint_row) (findings : list finding)
    (d : db) : db :=
  let d := (persist_remediation_snapshot sha256 now db_path scan (map er_ep rows) findings d).1 in
  tick (set_sigs (persist_scope_signature sha256 env db_path scan cfg sensors rows run_stats
                    (now (db_calls d)) (db_sigs d)).2 d).

(** The three phases; the counters are [None] when they are skipped.  The rows
    of the scan are already stored. *)
Definition after_scan (db_path scan : option string) (rows : list endpoint_row) (findings : list finding)
    (d : db) : option counters * db :=
  if negb (truthy_str scan) || negb (truthy_str db_path) then (None, d)
  else
    let '(c, d) := compute_closure now set_order db_path scan (recorded_scan db_path scan rows findings d) in
    (Some c, d).

Section Ran.
Context (db_path scan : option string) (rows : list endpoint_row) (findings : list finding) (d : db).
Hypothesis Hwf : wf d.
Hypothesis Hdb : truthy_str db_path = true.
Hypothesis Hscan : truthy_str scan = true.

Let d1 := recorded_scan db_path scan rows findings d.
Let eps := map er_ep rows.

Lemma recorded_scan_wf : wf d1.
Proof.
  destruct (snapshot_inv sha256 now db_path scan eps findings d Hwf Hdb Hscan) as [[H1 H2 H3 H4 H5] _ _ _ _ _].
  unfold d1, recorded_scan. fold eps. split; cbn [tick set_sigs db_fps db_items db_sigs]; try done.
  unfold persist_scope_signature. rewrite Hdb, Hscan. cbn [negb orb snd]. by apply upsert_nodup.
Qed.

Lemma recorded_scan_tables :
  db_fps d1 = db_fps (persist_remediation_snapshot sha256 now db_path scan eps findings d).1 /\
  db_items d1 = db_items (persist_remediation_snapshot sha256 now db_path scan eps findings d).1.
Proof. done. Qed.

(** The current scan always has its signature, at the current version. *)
Lemma recorded_scan_signature :
  exists s, find_sig (str_or_empty scan) d1 = Some s /\ sg_version s = Some SCOPE_SIGNATURE_VERSION.
Proof.
  unfold find_sig, d1, recorded_scan. cbn [tick set_sigs db_sigs].
  unfold persist_scope_signature. rewrite Hdb, Hscan. cbn [negb orb snd].
  set (row := written_row _ _ _ _ _). exists row. split; [|done].
  change (str_or_empty scan) with (sg_scan row). apply upsert_same.
Qed.

(** A roadmap is never without an item of the slug table. *)
Lemma snapshot_has_item : items_of_scan (str_or_empty scan) d1 <> [].
Proof.
  destruct (roadmap_items (build_evidence_summary eps findings 30 None) [] 6 12)
    as (_ & main & fb & E & _ & Hk & Hlen & _).
  destruct main as [|i main]; [simpl in Hlen; lia|]. apply Forall_cons in Hk as [[[slug Hs] _] _].
  destruct (snapshot_inv sha256 now db_path scan eps findings d Hwf Hdb Hscan) as [_ _ Hd _ _ _].
  rewrite Forall_forall in Hd.
  destruct (Hd i) with (slug := slug) as (row & Hrow & _); [|done|].
  { unfold snapshot_roadmap, default_roadmap. rewrite E. left. }
  apply find_item_in in Hrow as (Hin & _ & Hsc). intros Hnil.
  assert (Hmem : row ∈ items_of_scan (str_or_empty scan) d1).
  { unfold items_of_scan. apply elem_of_filter_bool. split; [exact Hin|by apply str_eqb_eq]. }
  rewrite Hnil in Hmem. by apply not_elem_of_nil in Hmem.
Qed.

(** A row of the current scan is never closed by the run: closure leaves it as
    it is, or marks it resurfaced. *)
Lemma current_row_stays a :
  a ∈ db_fps d1 -> Some (fr_scan a) = scan ->
  exists b, b ∈ db_fps (after_scan db_path scan rows findings d).2 /\ b = with_state (fr_state b) a
    /\ (fr_state b = fr_state a \/ fr_state b = RESURFACED_STATE).
Proof.
  intros Ha Hsc. unfold after_scan. rewrite Hdb, Hscan. cbn [negb orb]. fold d1.
  destruct (compute_closure now set_order db_path scan d1) as [c d'] eqn:E. cbn [snd].
  destruct (closure_cases now set_order db_path scan d1 c d' E recorded_scan_wf)
    as [(-> & _)|(current & prior & r2 & r & evs & Hran & _ & _ & -> & Hi & Hr)].
  - exists a. rewrite with_state_same. auto.
  - destruct (final_keeps _ _ _ _ _ _ _ Hi Hr a Ha) as (b & Hb & Eb & Hs).
    exists b. split_and!; [done|done|].
    destruct Hs as [?|[(_ & _ & Hne & _)|(Hs & _)]]; [by left| |by right].
    destruct Hran as (_ & _ & Hcur & _). exfalso. apply Hne. congruence.
Qed.
End Ran.

(** The row of a constituent after the three phases on a fresh scan. *)
Lemma constituent_row db_path scan rows findings d i slug f :
  wf d -> truthy_str db_path = true -> truthy_str scan = true ->
  fps_of_scan (str_or_empty scan) d = [] ->
  i ∈ snapshot_roadmap (map er_ep rows) findings -> slug_for_title (Roadmap.it_title i) = Some slug ->
  f ∈ findings -> constitutes (constituency_of slug) f = true ->
  exists r, r ∈ db_fps (after_scan db_path scan rows findings d).2 /\ Some (fr_scan r) = scan
    /\ fr_slug r = slug /\ fr_fp r = compute_fingerprint sha256 f /\ fr_state r ∈ OPEN_LIKE_STATES.
Proof.
  intros Hwf Hdb Hscan Hfresh Hi Hs Hf Hc.
  destruct (snapshot_inv sha256 now db_path scan (map er_ep rows) findings d Hwf Hdb Hscan)
    as [_ Hg _ Hr _ _].
  assert (Hrec : recorded (str_or_empty scan) slug (compute_fingerprint sha256 f)
            (persist_remediation_snapshot sha256 now db_path scan (map er_ep rows) findings d).1).
  { apply Hr. right. exists i. split; [done|]. split; [done|]. exists f. split; [|done].
    unfold constituents_of, select_constituent_findings. by apply elem_of_filter_bool. }
  destruct Hrec as (a & Ha & Hsc & Hsl & Hfp).
  assert (Hsome : Some (str_or_empty scan) = scan) by by destruct scan.
  assert (Hopen : fr_state a = DETECTED_ITEM_STATE).
  { destruct (grew_fps _ _ _ Hg) as (news & E & Hn). rewrite E in Ha. apply elem_of_app in Ha as [Ha|Ha].
    - assert (Hin : a ∈ fps_of_scan (str_or_empty scan) d) by by apply elem_of_fps.
      rewrite Hfresh in Hin. by apply not_elem_of_nil in Hin.
    - rewrite Forall_forall in Hn. apply (Hn a Ha). }
  destruct (current_row_stays db_path scan rows findings d Hwf Hdb Hscan a) as (b & Hb & E & Hst).
  { exact Ha. } { congruence. }
  exists b. rewrite E. cbn [with_state fr_scan fr_slug fr_fp fr_state].
  rewrite <- E. split_and!; [done|congruence|done|done|].
  destruct Hst as [-> | ->]; [rewrite Hopen|]; unfold OPEN_LIKE_STATES, DETECTED_ITEM_STATE, RESURFACED_STATE; set_solver.
Qed.

(** The high-impact counter of the roadmap is the number of scored HIGH and
    CRITICAL findings. *)
Lemma high_impact_signal eps fs days ref :
  s_high_impact (read_signals (build_evidence_summary eps fs days ref))
  = severity_count (scored_findings (drop_coverage_gaps fs)) "HIGH"
    + severity_count (scored_findings (drop_coverage_gaps fs)) "CRITICAL".
Proof.
  unfold read_signals. cbn [s_high_impact]. unfold build_evidence_summary.
  set (st := Evidence.run _ _ _). set (gs := drop_coverage_gaps fs).
  assert (E : scored_severity_counts (summarize st (Z.of_nat (length eps)) (resolve_reference_utc eps ref) (Z.max 0 days) gs)
              = severity_counts (scored_findings gs)) by reflexivity.
  rewrite E. unfold severity_counts, raw_count, get_or, dict_get. cbn [fmap list_fmap alookup].
  decide_literals. cbn [default id as_int]. unfold severity_count. lia.
Qed.

Lemma high_impact_listed evidence drivers :
  "Triage high-impact findings" ∈ Roadmap.titles (default_roadmap evidence drivers)
  <-> 0 < s_high_impact (read_signals evidence).
Proof. item_listed. done. Qed.


(** The selected prior scan has a signature, and its id is one stored before. *)
Lemma selected_prior db_path scan rows findings d prior :
  wf d -> truthy_str db_path = true -> truthy_str scan = true ->
  select_prior_scan_run_id (recorded_scan db_path scan rows findings d) (str_or_empty scan) = Some prior ->
  prior ∈ map sg_scan (db_sigs d)
  /\ exists p, find_sig prior (recorded_scan db_path scan rows findings d) = Some p.
Proof.
  intros Hwf Hdb Hscan H. pose proof (select_prior_ne _ _ _ H) as Hne. revert H.
  destruct (snapshot_inv sha256 now db_path scan (map er_ep rows) findings d Hwf Hdb Hscan) as [_ Hg _ _ _ _].
  set (d1 := recorded_scan db_path scan rows findings d). unfold select_prior_scan_run_id.
  destruct (first_by _ _) as [s|] eqn:E; [|done]. intros [= <-].
  apply first_by_elem, elem_of_filter_bool in E as [Hin _]. split.
  - unfold d1, recorded_scan in Hin. cbn [tick set_sigs db_sigs] in Hin.
    unfold persist_scope_signature in Hin. rewrite Hdb, Hscan in Hin. cbn [negb orb snd] in Hin.
    apply (list_elem_of_fmap_2 sg_scan) in Hin. apply elem_of_upsert in Hin as [Hin|Hin];
      [|by rewrite (grew_sigs _ _ _ Hg) in Hin].
    by destruct Hne.
  - unfold find_sig. destruct (List.find _ _) as [p|] eqn:Ef; [eauto|].
    apply list_elem_of_In, (List.find_none _ _ Ef) in Hin. by rewrite str_eqb_refl in Hin.
Qed.

(** Closure after a completed scan is never refused for a missing snapshot
    or a missing signature: it runs, or the counters name the one of four
    reasons there is: no prior scan, a prior signature of another version, a
    missing target digest, or a different scope. *)
Theorem closure_runs_or_names_reason db_path scan rows findings d :
  wf d -> EmptyString ∉ map sg_scan (db_sigs d) -> truthy_str db_path = true -> truthy_str scan = true ->
  let d1 := recorded_scan db_path scan rows findings d in
  (exists prior, ran d1 db_path scan (str_or_empty scan) prior) \/
  exists reason, reason ∈ ["refused_no_prior"; "refused_signature_version_gap";
                           "refused_missing_target_set_digest"; "refused_scope_mismatch"]
    /\ after_scan db_path scan rows findings d = (Some (aset reason 1 zero_counters), d1).
Proof.
  intros Hwf Hempty Hdb Hscan d1. unfold after_scan. rewrite Hdb, Hscan. cbn [negb orb]. fold d1.
  pose proof (snapshot_has_item db_path scan rows findings d Hwf Hdb Hscan) as Hitem. fold d1 in Hitem.
  destruct (recorded_scan_signature db_path scan rows findings d Hdb Hscan) as (s & Hs & Hv). fold d1 in Hs.
  assert (Hsome : Some (str_or_empty scan) = scan) by by destruct scan.
  unfold compute_closure. rewrite Hdb, Hscan. cbn [negb orb].
  destruct (select_prior_scan_run_id d1 (str_or_empty scan)) as [prior|] eqn:Ep.
  2:{ right. exists "refused_no_prior". split; [left|done]. }
  destruct (selected_prior db_path scan rows findings d prior Hwf Hdb Hscan Ep) as (Hprior & p & Hp). fold d1 in Hp.
  destruct (scans_are_comparable d1 (str_or_empty scan) (Some prior)) as [cmp reason] eqn:Ec.
  destruct cmp; cbn [negb].
  - left. exists prior. apply comparable_reason in Ec as Er. subst reason.
    split_and!; [done|done|done|done|done|by left].
  - right. exists ("refused_" +:+ reason). split; [|done].
    assert (Hne : truthy_str (Some prior) = true) by (destruct prior; done).
    revert Ec. unfold scans_are_comparable. rewrite Hs, Hne. cbn [negb].
    replace (str_or_empty (Some prior)) with prior by reflexivity. rewrite Hp.
    repeat match goal with |- context [if ?b then _ else _] => destruct b end;
      intros [= <-]; cbn; set_solver.
Qed.

(** A critical cause is tracked to the tables: an expired TLS certificate,
    an OpenSSL 0.x or 1.0.x package or an unsigned bearer token leaves, after
    the three phases, an open or resurfaced row for its CRITICAL finding under
    the high-impact item. *)
Theorem critical_cause_tracked loads now1 now2 ports db_path scan rows fs d i e :
  wf d -> truthy_str db_path = true -> truthy_str scan = true ->
  fps_of_scan (str_or_empty scan) d = [] ->
  derive_report_findings loads now1 now2 ports rows = Ok fs ->
  rows !! i = Some e -> critical_cause (now1 i) (er_ep e) = true ->
  exists f r, f ∈ fs /\ rf_severity f = "CRITICAL" /\ rf_host f = ep_host (er_ep e)
    /\ rf_port f = ep_port (er_ep e)
    /\ r ∈ db_fps (after_scan db_path scan rows (map as_finding fs) d).2 /\ Some (fr_scan r) = scan
    /\ fr_slug r = "high-impact-findings" /\ fr_fp r = compute_fingerprint sha256 (as_finding f)
    /\ fr_state r ∈ OPEN_LIKE_STATES.
Proof.
  intros Hwf Hdb Hscan Hfresh Hfs Hi Hc.
  destruct (critical_cause_reported _ _ _ _ _ _ _ _ Hfs Hi Hc) as (f & Hf & Hsev & Hcat & Hh & Hp).
  assert (Hlisted : "Triage high-impact findings" ∈
            Roadmap.titles (default_roadmap (build_evidence_summary (map er_ep rows) (map as_finding fs) 30 None) [])).
  { apply high_impact_listed. rewrite high_impact_signal.
    pose proof (critical_counted (map er_ep rows) fs f 30 None Hf Hsev Hcat) as Hn.
    rewrite scored_critical_count in Hn.
    assert (0 <= severity_count (scored_findings (drop_coverage_gaps (map as_finding fs))) "HIGH")
      by (unfold severity_count; lia). lia. }
  apply list_elem_of_fmap in Hlisted as (it & Et & Hit).
  destruct (constituent_row db_path scan rows (map as_finding fs) d it "high-impact-findings" (as_finding f))
    as (r & H1 & H2 & H3 & H4 & H5); try done.
  - by rewrite <- Et.
  - by apply list_elem_of_fmap_2.
  - unfold constitutes. change (constituency_of "high-impact-findings") with Severity. cbv iota.
    unfold score_neutral, as_finding. cbn [f_severity f_category str_or_empty]. by rewrite Hsev, Hcat.
  - exists f, r. by split_and!.
Qed.
End AfterScan.

(** * Witnesses

    The sample estate scanned into an empty database. *)
Definition sample_after (scan : string) (d : db) : option counters * db :=
  after_scan example_sha example_env example_now (fun l => l) (quiet_config (estate ["a.corp"])) [] None
    (Some "quirk.db") (Some scan) sample_rows sample_findings d.

Definition sample_db : db := (sample_after "s1" empty_db).2.


Lemma closure_runs_or_names_reason_witness :
  let d1 := recorded_scan example_sha example_env example_now (quiet_config (estate ["a.corp"])) [] None
              (Some "quirk.db") (Some "s1") sample_rows sample_findings empty_db in
  exists reason, reason ∈ ["refused_no_prior"; "refused_signature_version_gap";
                           "refused_missing_target_set_digest"; "refused_scope_mismatch"]
    /\ sample_after "s1" empty_db = (Some (aset reason 1 zero_counters), d1).
Proof.
  intros d1.
  destruct (closure_runs_or_names_reason example_sha example_env example_now (fun l => l)
              (quiet_config (estate ["a.corp"])) [] None (Some "quirk.db") (Some "s1") sample_rows sample_findings
              empty_db empty_wf (not_elem_of_nil _) eq_refl eq_refl) as [H|H]; [|exact H].
  destruct H as (prior & _ & _ & _ & H & _). exfalso. revert H. vm_compute. discriminate.
Defined.

Lemma critical_cause_tracked_witness :
  exists f r, rf_severity f = "CRITICAL" /\ rf_host f = "img" /\ rf_port f = 0
    /\ r ∈ db_fps sample_db /\ fr_slug r = "high-impact-findings"
    /\ fr_fp r = compute_fingerprint example_sha (as_finding f) /\ fr_state r ∈ OPEN_LIKE_STATES.
Proof.
  unfold sample_db, sample_after, sample_findings.
  run_ok (derive_report_findings no_json sample_now sample_now [] sample_rows) fs E.
  destruct (critical_cause_tracked example_sha example_env example_now (fun l => l)
              (quiet_config (estate ["a.corp"])) [] None no_json sample_now sample_now [] (Some "quirk.db")
              (Some "s1") sample_rows fs empty_db 2
              (sample_row "img" 0 "CONTAINER" (Some "openssl") (Some "1.0.2k") None None)
              empty_wf eq_refl eq_refl eq_refl E eq_refl eq_refl)
    as (f & r & _ & H1 & H2 & H3 & H4 & _ & H5 & H6 & H7).
  exists f, r. split_and!; [exact H1|exact H2|exact H3|exact H4|exact H5|exact H6|exact H7].
Defined.
