(* ===== verification/RateLimit.v ===== *)
(** The rate limiter of the dashboard API
    ([dashboard/api/middleware/rate_limit.py]).

    Sixty mutating requests a minute and client.  The middleware keeps the
    accepted times of each client in a deque, trims the front of the deque on
    a request and deletes idle deques of all clients; refused sensor pushes
    are recorded once a minute and source.  A request is one step of
    [dispatch], which the lock makes atomic; its [now] is the value of
    [time.monotonic()], a binary64 number of seconds.

    The abstract limiter ([spec_dispatch]) keeps the log of everything it ever
    accepted and looks back over it; [RateLimitProps] shows that the middleware
    refines it. *)
From Stdlib Require Import ZArith QArith Qround Lia.
From stdpp Require Import base tactics strings list gmap.
From S2P Require Import Prelude PyFloat PyVal.

Local Open Scope Z_scope.

(** * The middleware *)

Definition WINDOW_SECONDS : Q := 60.
Definition MAX_REQUESTS : Z := 60.
Definition MUTATING_METHODS : list string := ["POST"; "PUT"; "DELETE"; "PATCH"].
Definition EXEMPT_PATHS : list string := ["/api/health"].
Definition SENSOR_PUSH_PATH : string := "/api/sensor/push".
Definition MAX_AUDIT_SOURCES : nat := 4096.

Record request := {
  rq_method : string;
  rq_path : string;
  rq_client : option string     (** [request.client.host]; [None] without a client *)
}.

(** [_buckets], [_audited] (in insertion order) and [_unrecorded]. *)
Record limiter := {
  lm_buckets : gmap string (list Q);
  lm_audited : list (string * Q);
  lm_unrecorded : gmap string Z
}.

Definition init_limiter : limiter :=
  {| lm_buckets := ∅; lm_audited := []; lm_unrecorded := ∅ |}.

(** The request goes through, or is answered 429 with the value of its
    [Retry-After] header; the second field of a refusal is the coalesced count
    of the audit row written for it, if one is. *)
Inductive response :=
| Forwarded
| TooManyRequests (retry_after : Z) (audit : option Z).

(** [while len(self._audited) > _MAX_AUDIT_SOURCES: ...] *)
Fixpoint drop_oldest (audited : list (string * Q)) (unrecorded : gmap string Z) :
    list (string * Q) * gmap string Z :=
  match audited with
  | [] => (audited, unrecorded)
  | (oldest, _) :: rest =>
      if (MAX_AUDIT_SOURCES <? length audited)%nat
      then drop_oldest rest (delete oldest unrecorded)
      else (audited, unrecorded)
  end.

(** [d.pop(k, None)] on a dictionary kept as the list of its items. *)
Definition apop {V} (k : string) (d : list (string * V)) : list (string * V) :=
  List.filter (fun kv => negb (str_eqb kv.1 k)) d.

Definition note_refusal (client_ip : string) (now : Q) (lm : limiter) : limiter * option Z :=
  let last := alookup client_ip (lm_audited lm) in
  if match last with Some t => flt (fsub now t) WINDOW_SECONDS | None => false end then
    ({| lm_buckets := lm_buckets lm; lm_audited := lm_audited lm;
        lm_unrecorded := <[client_ip := default 0 (lm_unrecorded lm !! client_ip) + 1]> (lm_unrecorded lm) |},
     None)
  else
    let audited := apop client_ip (lm_audited lm) ++ [(client_ip, now)] in
    let coalesced := default 0 (lm_unrecorded lm !! client_ip) in
    let '(audited, unrecorded) := drop_oldest audited (delete client_ip (lm_unrecorded lm)) in
    ({| lm_buckets := lm_buckets lm; lm_audited := audited; lm_unrecorded := unrecorded |},
     Some coalesced).

(** [while bucket and bucket[0] <= cutoff: bucket.popleft()] *)
Fixpoint trim (cutoff : Q) (bucket : list Q) : list Q :=
  match bucket with
  | [] => []
  | t :: rest => if fle t cutoff then trim cutoff rest else bucket
  end.

(** [not bkt or bkt[-1] <= cutoff] *)
Definition idle (cutoff : Q) (bkt : list Q) : bool :=
  match last bkt with
  | None => true
  | Some t => fle t cutoff
  end.

Definition exempt (req : request) : bool :=
  negb (str_in (rq_method req) MUTATING_METHODS) || str_in (rq_path req) EXEMPT_PATHS.

Definition client_ip (req : request) : string := default "unknown" (rq_client req).

(** [math.ceil(_WINDOW_SECONDS - (now - oldest))], at least 1 in the header. *)
Definition retry_header (now oldest : Q) : Z :=
  Z.max (Qceiling (fsub WINDOW_SECONDS (fsub now oldest))) 1.

(** The deques after the trim and the eviction sweep; the client's own deque is
    created again when the sweep deleted it. *)
Definition swept (ip : string) (cutoff : Q) (buckets : gmap string (list Q)) : gmap string (list Q) :=
  let trimmed := <[ip := trim cutoff (default [] (buckets !! ip))]> buckets in
  filter (fun kv => idle cutoff kv.2 = false) trimmed.

Definition set_buckets (b : gmap string (list Q)) (lm : limiter) : limiter :=
  {| lm_buckets := b; lm_audited := lm_audited lm; lm_unrecorded := lm_unrecorded lm |}.

Definition dispatch (lm : limiter) (req : request) (now : Q) : limiter * response :=
  if exempt req then (lm, Forwarded)
  else
    let ip := client_ip req in
    let cutoff := fsub now WINDOW_SECONDS in
    let buckets := swept ip cutoff (lm_buckets lm) in
    let bucket := default [] (buckets !! ip) in
    if Z.of_nat (length bucket) >=? MAX_REQUESTS then
      let lm := set_buckets (<[ip := bucket]> buckets) lm in
      let retry := retry_header now (default 0%Q (head bucket)) in
      if str_eqb (rq_path req) SENSOR_PUSH_PATH then
        let '(lm, audit) := note_refusal ip now lm in (lm, TooManyRequests retry audit)
      else (lm, TooManyRequests retry None)
    else (set_buckets (<[ip := bucket ++ [now]]> buckets) lm, Forwarded).

(** Requests in the order the lock admits them, each with its clock reading. *)
Fixpoint run (lm : limiter) (reqs : list (request * Q)) : limiter * list response :=
  match reqs with
  | [] => (lm, [])
  | (req, now) :: reqs =>
      let '(lm, r) := dispatch lm req now in
      let '(lm, rs) := run lm reqs in
      (lm, r :: rs)
  end.

Definition push (ip : string) : request :=
  {| rq_method := "POST"; rq_path := SENSOR_PUSH_PATH; rq_client := Some ip |}.

(** Sixty pushes pass, two more are refused (the second without an audit row),
    and the client is served again 60 seconds after its first push. *)
Definition burst : list (request * Q) :=
  map (fun i => (push "a", (1000 + inject_Z i / 64)%Q)) (seqZ 0 62) ++ [(push "a", 1060%Q)].

Example burst_run :
  (run init_limiter burst).2
  = repeat Forwarded 60 ++ [TooManyRequests 60 (Some 0); TooManyRequests 60 None; Forwarded].
Proof. vm_compute. reflexivity. Qed.

(** * The abstract limiter

    Its state is the log of accepted requests, oldest first. *)

Definition log := list (string * Q).

Definition times (l : log) (ip : string) : list Q :=
  map snd (List.filter (fun a => str_eqb a.1 ip) l).

(** The accepted requests of [ip] in the window that ends now. *)
Definition window (l : log) (ip : string) (now : Q) : list Q :=
  List.filter (fun t => flt (fsub now WINDOW_SECONDS) t) (times l ip).

Inductive verdict := Served | Limited (retry_after : Z).

Definition spec_dispatch (l : log) (req : request) (now : Q) : log * verdict :=
  if exempt req then (l, Served)
  else
    let w := window l (client_ip req) now in
    if 60 <=? Z.of_nat (length w) then (l, Limited (retry_header now (default 0%Q (head w))))
    else (l ++ [(client_ip req, now)], Served).

Fixpoint spec_run (l : log) (reqs : list (request * Q)) : log * list verdict :=
  match reqs with
  | [] => (l, [])
  | (req, now) :: reqs =>
      let '(l, v) := spec_dispatch l req now in
      let '(l, vs) := spec_run l reqs in
      (l, v :: vs)
  end.

Definition verdict_of (r : response) : verdict :=
  match r with
  | Forwarded => Served
  | TooManyRequests retry _ => Limited retry
  end.

(** The clock never runs backwards. *)
Fixpoint clocked (t : Q) (reqs : list (request * Q)) : Prop :=
  match reqs with
  | [] => True
  | (_, now) :: reqs => (t <= now)%Q /\ clocked now reqs
  end.
