(* ===== verification/RateLimitProps.v ===== *)
(** Properties of the rate limiter: the middleware refines the abstract limiter,
    a client that waits for its [Retry-After] is served, and the audit state is
    bounded and accounts for every refused sensor push. *)
From Stdlib Require Import ZArith QArith Qround Lia Lqa Sorted.
From stdpp Require Import base tactics strings list gmap.
From S2P Require Import Prelude PyFloat PyVal RateLimit.

Local Open Scope Z_scope.

(** * The simulation *)

(** On an ordered deque, trimming its front is filtering it. *)
Lemma trim_filter c l :
  StronglySorted Qle l -> trim c l = List.filter (fun t => flt c t) l.
Proof.
  induction 1 as [|t l Hl IH Ht]; simpl; [done|]. rewrite flt_fle.
  destruct (fle t c) eqn:E; simpl; [done|]. f_equal. symmetry. apply forallb_filter_id.
  apply forallb_forall. intros x Hx. rewrite List.Forall_forall in Ht. specialize (Ht x Hx).
  apply flt_iff. apply not_true_iff_false in E. rewrite fle_iff in E. lra.
Qed.

Lemma sorted_below_last c l :
  StronglySorted Qle l -> idle c l = true -> Forall (fun t => (t <= c)%Q) l.
Proof.
  unfold idle. induction 1 as [|t l Hl IH Ht]; [constructor|]. destruct l as [|t' l].
  - simpl. intros H%fle_iff. by repeat constructor.
  - rewrite last_cons_cons. intros H. specialize (IH H). constructor; [|done].
    inversion Ht; subst. inversion IH; subst. lra.
Qed.

Lemma filter_below c l : Forall (fun t => (t <= c)%Q) l -> List.filter (fun t => flt c t) l = [].
Proof.
  induction 1 as [|t l Ht _ IH]; simpl; [done|]. by rewrite flt_fle, (proj2 (fle_iff _ _) Ht).
Qed.

Lemma sorted_app_r {A} (R : A -> A -> Prop) d l : StronglySorted R (d ++ l) -> StronglySorted R l.
Proof. induction d as [|x d IH]; [done|]. inversion 1; auto. Qed.

Lemma sorted_snoc l t :
  StronglySorted Qle l -> Forall (fun x => (x <= t)%Q) l -> StronglySorted Qle (l ++ [t]).
Proof.
  induction 1 as [|x l Hl IH Hx]; simpl; intros H; inversion H; subst; constructor; auto.
  - constructor.
  - apply List.Forall_app. split; [done|]. by repeat constructor.
Qed.

Definition bucket_of (lm : limiter) (ip : string) : list Q := default [] (lm_buckets lm !! ip).

(** A deque is the log of its client without a front that has left the window. *)
Definition sim (t : Q) (lm : limiter) (l : log) : Prop :=
  forall ip,
    StronglySorted Qle (times l ip) /\ Forall (fun x => (x <= t)%Q) (times l ip)
    /\ exists gone, times l ip = gone ++ bucket_of lm ip
                    /\ Forall (fun x => (x <= fsub t WINDOW_SECONDS)%Q) gone.

Lemma cutoff_mono t now : (t <= now)%Q -> (fsub t WINDOW_SECONDS <= fsub now WINDOW_SECONDS)%Q.
Proof. intros H. apply rnd_mono. lra. Qed.

Lemma sim_init t : sim t init_limiter [].
Proof. intros ip. split_and!; [constructor..|]. exists []. split; [|constructor]. unfold bucket_of. simpl. by rewrite lookup_empty. Qed.

Lemma sim_later t now lm l : (t <= now)%Q -> sim t lm l -> sim now lm l.
Proof.
  intros Ht Hs ip. destruct (Hs ip) as (H1 & H2 & gone & H3 & H4). pose proof (cutoff_mono _ _ Ht).
  split_and!; [done|eapply Forall_impl; [exact H2|simpl; intros; lra]|].
  exists gone. split; [done|]. eapply Forall_impl; [exact H4|simpl; intros; lra].
Qed.

(** The sweep only drops times outside the window: the client's deque becomes
    its window, every other deque is kept or was idle. *)
Lemma swept_own now lm l ip :
  sim now lm l -> default [] (swept ip (fsub now WINDOW_SECONDS) (lm_buckets lm) !! ip) = window l ip now.
Proof.
  intros Hs. destruct (Hs ip) as (Hsort & _ & gone & E & Hg). unfold window.
  rewrite E in *. apply sorted_app_r in Hsort. rewrite List.filter_app, filter_below by done. simpl.
  fold (bucket_of lm ip). unfold swept. fold (bucket_of lm ip). rewrite (trim_filter _ _ Hsort).
  set (w := List.filter _ _). assert (Hw : StronglySorted Qle w).
  { unfold w. clear -Hsort. induction Hsort as [|t l Hl IH Ht]; simpl; [constructor|].
    destruct (flt _ t); [|done]. constructor; [done|]. rewrite List.Forall_forall in *.
    intros x [Hx _]%filter_In. auto. }
  destruct (idle (fsub now WINDOW_SECONDS) w) eqn:E'.
  - rewrite map_lookup_filter_None_2; [|right; intros x; rewrite lookup_insert_eq; intros [= <-]; simpl; congruence].
    simpl. destruct w as [|x w'] eqn:Ew; [done|]. exfalso.
    pose proof (sorted_below_last _ _ Hw E') as Hb. inversion Hb as [|? ? Hx]; subst.
    assert (Hin : In x w) by (unfold w in *; rewrite Ew; by left).
    unfold w in Hin. apply filter_In in Hin as [_ Hin%flt_iff]. lra.
  - rewrite (map_lookup_filter_Some_2 _ _ _ w); [done|apply lookup_insert_eq|done].
Qed.

Lemma swept_other c b ip ip' :
  ip' <> ip ->
  default [] (swept ip c b !! ip') = default [] (b !! ip')
  \/ (default [] (swept ip c b !! ip') = [] /\ idle c (default [] (b !! ip')) = true).
Proof.
  intros Hne. unfold swept. destruct (b !! ip') as [bkt|] eqn:E.
  - destruct (idle c bkt) eqn:Ei; [right|left].
    + split; [|done]. rewrite map_lookup_filter_None_2; [done|]. right. intros x.
      rewrite lookup_insert_ne, E by done. intros [= <-]. simpl. congruence.
    + rewrite (map_lookup_filter_Some_2 _ _ _ bkt); [done| |done]. by rewrite lookup_insert_ne.
  - left. rewrite map_lookup_filter_None_2; [done|]. left. by rewrite lookup_insert_ne.
Qed.

Lemma window_split now l ip :
  StronglySorted Qle (times l ip) ->
  exists gone, times l ip = gone ++ window l ip now
               /\ Forall (fun x => (x <= fsub now WINDOW_SECONDS)%Q) gone.
Proof.
  unfold window. induction 1 as [|t ts Hts (gone & E & Hg) Ht]; [by exists []|]. simpl.
  rewrite flt_fle. destruct (fle t (fsub now WINDOW_SECONDS)) eqn:Ec; simpl.
  - exists (t :: gone). split; [by rewrite E at 1|]. constructor; [by apply fle_iff|done].
  - exists []. split; [|constructor]. simpl. f_equal.
    rewrite <- (trim_filter _ _ Hts). destruct ts as [|t' ts]; [done|]. simpl.
    inversion Ht; subst. destruct (fle t' _) eqn:E'; [|done].
    apply fle_iff in E'. apply not_true_iff_false in Ec. rewrite fle_iff in Ec. lra.
Qed.

Lemma times_snoc l ip now ip' :
  times (l ++ [(ip, now)]) ip' = times l ip' ++ (if str_eqb ip ip' then [now] else []).
Proof. unfold times. rewrite List.filter_app, map_app. simpl. by destruct (str_eqb ip ip'). Qed.

(** Replacing the client's deque by its window, extended by what the log gained,
    keeps the simulation. *)
Lemma sim_update now lm l lm' ip ext :
  sim now lm l -> Forall (fun t => t = now) ext ->
  lm_buckets lm' = <[ip := window l ip now ++ ext]> (swept ip (fsub now WINDOW_SECONDS) (lm_buckets lm)) ->
  sim now lm' (l ++ map (pair ip) ext).
Proof.
  intros Hs Hext Hb ip'. destruct (Hs ip') as (H1 & H2 & gone & H3 & H4).
  assert (Hnow : Forall (fun x => (x <= now)%Q) ext).
  { eapply Forall_impl; [exact Hext|]. simpl. intros x ->. lra. }
  assert (Et : times (l ++ map (pair ip) ext) ip' = times l ip' ++ if str_eqb ip ip' then ext else []).
  { clear. induction ext as [|t ext IH] using rev_ind; simpl.
    - rewrite app_nil_r. destruct (str_eqb ip ip'); by rewrite app_nil_r.
    - rewrite map_app, app_assoc. simpl. rewrite times_snoc, IH, <- app_assoc.
      by destruct (str_eqb ip ip'). }
  assert (Hsort : StronglySorted Qle (times (l ++ map (pair ip) ext) ip')
                  /\ Forall (fun x => (x <= now)%Q) (times (l ++ map (pair ip) ext) ip')).
  { rewrite Et. destruct (str_eqb ip ip'); [|by rewrite app_nil_r]. split; [|by apply Forall_app].
    clear -H1 H2 Hext. induction ext as [|t ext IH] using rev_ind; [by rewrite app_nil_r|].
    apply Forall_app in Hext as [Hext Ht]. inversion Ht; subst. rewrite app_assoc.
    apply sorted_snoc; [by apply IH|]. apply Forall_app. split; [done|].
    eapply Forall_impl; [exact Hext|]. simpl. intros x ->. lra. }
  destruct Hsort as [Hsort Hle]. split_and!; [done..|]. rewrite Et. unfold bucket_of. rewrite Hb.
  destruct (str_eqb ip ip') eqn:Eip.
  - apply str_eqb_eq in Eip as <-. rewrite lookup_insert_eq. simpl.
    destruct (window_split now l ip H1) as (g & Eg & Hg). exists g. by rewrite Eg at 1; rewrite app_assoc.
  - apply str_eqb_neq in Eip. rewrite app_nil_r, lookup_insert_ne by done.
    destruct (swept_other (fsub now WINDOW_SECONDS) (lm_buckets lm) ip ip') as [->|[-> Hidle]]; [done|by eauto|].
    exists (times l ip'). rewrite app_nil_r. split; [done|]. rewrite H3 in *. apply Forall_app. split; [done|].
    apply sorted_below_last; [by eapply sorted_app_r|done].
Qed.

Lemma sim_refused now lm l lm' ip :
  sim now lm l ->
  lm_buckets lm' = <[ip := window l ip now]> (swept ip (fsub now WINDOW_SECONDS) (lm_buckets lm)) ->
  sim now lm' l.
Proof.
  intros Hs Hb. pose proof (sim_update now lm l lm' ip [] Hs) as H.
  simpl in H. rewrite !app_nil_r in H. by apply H; [constructor|].
Qed.

Lemma note_refusal_buckets ip now lm : lm_buckets (note_refusal ip now lm).1 = lm_buckets lm.
Proof. unfold note_refusal. cbv zeta. split_ifs; try done. all: by destruct (drop_oldest _ _). Qed.

(** One request: the middleware and the abstract limiter give the same verdict
    and stay related. *)
Lemma dispatch_sim t now lm l req :
  (t <= now)%Q -> sim t lm l ->
  verdict_of (dispatch lm req now).2 = (spec_dispatch l req now).2
  /\ sim now (dispatch lm req now).1 (spec_dispatch l req now).1.
Proof.
  intros Ht Hs. apply (sim_later _ now) in Hs; [|done].
  unfold dispatch, spec_dispatch. destruct (exempt req); [done|]. cbv zeta.
  rewrite (swept_own now lm l) by done. rewrite Z.geb_leb. unfold MAX_REQUESTS.
  destruct (60 <=? _).
  - destruct (str_eqb _ SENSOR_PUSH_PATH).
    + pose proof (note_refusal_buckets (client_ip req) now) as Hn.
      match goal with |- context [note_refusal ?ip ?n ?lm] => specialize (Hn lm); destruct (note_refusal ip n lm) end.
      simpl in *. split; [done|]. by apply (sim_refused now lm l _ (client_ip req)).
    + simpl. split; [done|]. by apply (sim_refused now lm l _ (client_ip req)).
  - simpl. split; [done|]. apply (sim_update now lm l _ (client_ip req) [now]); [done|by repeat constructor|done].
Qed.

Lemma run_sim t lm l reqs :
  clocked t reqs -> sim t lm l -> map verdict_of (run lm reqs).2 = (spec_run l reqs).2.
Proof.
  revert t lm l. induction reqs as [|[req now] reqs IH]; intros t lm l; simpl; [done|].
  intros [Ht Hc] Hs. destruct (dispatch_sim t now lm l req Ht Hs) as [Hv Hsim].
  destruct (dispatch lm req now) as [lm' r], (spec_dispatch l req now) as [l' v]. simpl in *.
  specialize (IH now lm' l' Hc Hsim).
  destruct (run lm' reqs), (spec_run l' reqs). simpl in *. by rewrite Hv, IH.
Qed.

(** * Exact differences of clock readings *)

(** A clock reading is a binary64 number; [time.monotonic()] counts from the
    start of the machine, here at least 128 seconds ago. *)
Definition reading (x : Q) : Prop := representable x /\ (128 <= x)%Q.

(** The last bit of such a number is worth at least [2^-45] seconds. *)
Lemma reading_on_grid x : reading x -> on_grid (-45) x.
Proof.
  intros [(k & e & Hk & E) Hx]. destruct (Z.le_gt_cases (-45) e) as [He|He].
  - apply (on_grid_finer e); [done|]. by exists k.
  - assert (H1 : (pow2 e <= pow2 (-46))%Q) by (apply pow2_mono; lia).
    pose proof (pow2_pos e) as H0. assert (H2 : (pow2 (-46) * inject_Z (2 ^ 53) == 128)%Q) by reflexivity.
    assert (Hk' : (inject_Z k <= inject_Z (2 ^ 53))%Q) by (rewrite <- Zle_Qle; lia).
    assert (Hx' : (x == 128)%Q).
    { assert (inject_Z k * pow2 e <= inject_Z (2 ^ 53) * pow2 e)%Q by (apply Qmult_le_compat_r; lra).
      assert (pow2 e * inject_Z (2 ^ 53) <= pow2 (-46) * inject_Z (2 ^ 53))%Q by (by apply Qmult_le_compat_r).
      lra. }
    exists (2 ^ 52). rewrite Hx'. reflexivity.
Qed.

Lemma grid_bound x : (-256 <= x <= 256)%Q ->
  (- (inject_Z (2 ^ 53) * pow2 (-45)) <= x <= inject_Z (2 ^ 53) * pow2 (-45))%Q.
Proof. assert (E : (inject_Z (2 ^ 53) * pow2 (-45) == 256)%Q) by reflexivity. lra. Qed.

(** After [Retry-After] seconds the oldest request has left the window. *)
Lemma retry_header_enough now oldest now' :
  reading now -> reading oldest -> (oldest <= now)%Q -> (now - 60 < oldest)%Q ->
  (now + inject_Z (retry_header now oldest) <= now')%Q -> (oldest <= fsub now' WINDOW_SECONDS)%Q.
Proof.
  intros Hn Ho H1 H2 H3. pose proof (reading_on_grid _ Hn) as Gn. pose proof (reading_on_grid _ Ho) as Go.
  assert (E1 : (fsub now oldest == now - oldest)%Q).
  { apply (rnd_on_grid (-45)); [by apply on_grid_sub|apply grid_bound; lra]. }
  assert (E2 : (fsub WINDOW_SECONDS (fsub now oldest) == 60 - (now - oldest))%Q).
  { unfold fsub at 1. unfold WINDOW_SECONDS. rewrite (rnd_on_grid (-45)); [by rewrite E1| |].
    - apply on_grid_sub; [by exists (60 * 2 ^ 45)|].
      apply (on_grid_ext _ (now - oldest)); [by symmetry|by apply on_grid_sub].
    - apply grid_bound. rewrite E1. lra. }
  assert (E3 : (60 - (now - oldest) <= inject_Z (retry_header now oldest))%Q).
  { rewrite <- E2. eapply Qle_trans; [apply Qle_ceiling|]. unfold retry_header. rewrite <- Zle_Qle. lia. }
  destruct Ho as [Ho _]. rewrite <- (representable_fixed _ Ho). apply rnd_mono.
  unfold WINDOW_SECONDS. lra.
Qed.

(** * The log of the abstract limiter *)

Lemma spec_run_app l a b :
  (spec_run l (a ++ b)).2 = (spec_run l a).2 ++ (spec_run (spec_run l a).1 b).2
  /\ (spec_run l (a ++ b)).1 = (spec_run (spec_run l a).1 b).1.
Proof.
  revert l. induction a as [|[req now] a IH]; intros l; simpl; [done|].
  destruct (spec_dispatch l req now) as [l' v]. destruct (IH l') as [H1 H2].
  destruct (spec_run l' (a ++ b)), (spec_run l' a). simpl in *. by rewrite H1, H2.
Qed.

(** Ordered, in the past, read from the clock, and never more than sixty
    requests of a client in a window. *)
Definition log_ok (t : Q) (l : log) : Prop :=
  forall ip, StronglySorted Qle (times l ip)
             /\ Forall (fun x => (x <= t)%Q /\ reading x) (times l ip)
             /\ (length (window l ip t) <= 60)%nat.

Lemma window_later l ip t now :
  StronglySorted Qle (times l ip) -> (t <= now)%Q ->
  exists gone, window l ip t = gone ++ window l ip now.
Proof.
  intros Hs Ht. unfold window. rewrite <- !trim_filter by done.
  pose proof (cutoff_mono _ _ Ht) as Hc. clear -Hc.
  induction (times l ip) as [|x xs [gone IH]]; simpl; [by exists []|].
  destruct (fle x (fsub t WINDOW_SECONDS)) eqn:E.
  - apply fle_iff in E. rewrite (proj2 (fle_iff x (fsub now WINDOW_SECONDS))) by lra. by exists gone.
  - assert (Hxs : exists g, xs = g ++ trim (fsub now WINDOW_SECONDS) xs).
    { clear. induction xs as [|x xs [g IH]]; simpl; [by exists []|].
      destruct (fle x _); [exists (x :: g); simpl; congruence|by exists []]. }
    destruct (fle x (fsub now WINDOW_SECONDS)); [|by exists []].
    destruct Hxs as [g Hg]. exists (x :: g). simpl. congruence.
Qed.

Lemma log_ok_later t now l : (t <= now)%Q -> log_ok t l -> log_ok now l.
Proof.
  intros Ht Hl ip. destruct (Hl ip) as (H1 & H2 & H3). split_and!; [done| |].
  - eapply Forall_impl; [exact H2|]. simpl. intros x [? ?]. split; [lra|done].
  - destruct (window_later l ip t now H1 Ht) as [g Hg]. rewrite Hg, length_app in H3. lia.
Qed.

Lemma spec_dispatch_ok t now l req :
  (t <= now)%Q -> reading now -> log_ok t l -> log_ok now (spec_dispatch l req now).1.
Proof.
  intros Ht Hn Hl. apply (log_ok_later _ now) in Hl; [|done]. unfold spec_dispatch.
  destruct (exempt req); [done|]. cbv zeta. destruct (Z.leb_spec 60 (Z.of_nat (length (window l (client_ip req) now)))) as [_|Hw]; [done|].
  simpl. intros ip. destruct (Hl ip) as (H1 & H2 & H3). unfold window. rewrite !times_snoc.
  destruct (str_eqb (client_ip req) ip) eqn:E; [|by rewrite app_nil_r].
  apply str_eqb_eq in E as <-. split_and!.
  - apply sorted_snoc; [done|]. eapply Forall_impl; [exact H2|]. by intros x [? _].
  - apply Forall_app. split; [done|]. repeat constructor; [lra|apply Hn..].
  - rewrite List.filter_app, length_app. fold (window l (client_ip req) now). simpl.
    destruct (flt _ _); simpl; lia.
Qed.

(** The log after a run, at the time of its last request. *)
Lemma spec_run_ok t l reqs req now :
  clocked t (reqs ++ [(req, now)]) -> Forall (fun a => reading a.2) reqs -> log_ok t l ->
  exists t', log_ok t' (spec_run l reqs).1 /\ (t' <= now)%Q.
Proof.
  revert t l. induction reqs as [|[r n] reqs IH]; intros t l; simpl.
  - intros [Ht _] _ Hl. by exists t.
  - intros [Ht Hc] [Hn Hr]%Forall_cons Hl. simpl in Hn.
    pose proof (spec_dispatch_ok t n l r Ht Hn Hl) as Hl'.
    destruct (spec_dispatch l r n) as [l' v]. simpl in *.
    destruct (IH n l' Hc Hr Hl') as (t' & H1 & H2). exists t'. by destruct (spec_run l' reqs).
Qed.

Lemma log_ok_init t : log_ok t [].
Proof. intros ip. split_and!; [constructor..|]. unfold window. simpl. lia. Qed.

(** Requests of other clients, and exempt ones, leave a client's times alone. *)
Definition bystander (ip : string) (a : request * Q) : Prop :=
  exempt a.1 = true \/ client_ip a.1 <> ip.

Lemma bystanders_times ip l reqs :
  Forall (bystander ip) reqs -> times (spec_run l reqs).1 ip = times l ip.
Proof.
  revert l. induction reqs as [|[r n] reqs IH]; intros l; simpl; [done|]. intros [Hr Hrs]%Forall_cons.
  assert (E : times (spec_dispatch l r n).1 ip = times l ip).
  { unfold spec_dispatch. destruct Hr as [Hr|Hr]; simpl in Hr; [by rewrite Hr|].
    destruct (exempt r); [done|]. cbv zeta. destruct (60 <=? _); [done|]. simpl.
    apply str_eqb_neq in Hr. by rewrite times_snoc, Hr, app_nil_r. }
  destruct (spec_dispatch l r n) as [l' v]. simpl in *. specialize (IH l' Hrs).
  destruct (spec_run l' reqs). simpl in *. congruence.
Qed.

(** A full window of ordered times: one of them gone, there is room again. *)
Lemma window_has_room l l' ip now now' oldest :
  log_ok now l -> (now <= now')%Q -> times l' ip = times l ip ->
  head (window l ip now) = Some oldest -> (oldest <= fsub now' WINDOW_SECONDS)%Q ->
  (length (window l' ip now') < 60)%nat.
Proof.
  intros Hl Hn Et Hh Ho. destruct (Hl ip) as (H1 & _ & H3).
  assert (E : window l' ip now' = window l ip now') by (unfold window; by rewrite Et). rewrite E.
  destruct (window_later l ip now now' H1 Hn) as [gone Hg].
  destruct gone as [|x gone]; [|rewrite Hg, length_app in H3; simpl in H3; lia].
  simpl in Hg. rewrite Hg in Hh. exfalso. unfold window in Hh.
  destruct (List.filter _ _) as [|x xs] eqn:Ef; [done|]. injection Hh as ->.
  assert (Hin : In oldest (oldest :: xs)) by (by left). rewrite <- Ef in Hin.
  apply filter_In in Hin as [_ Hin%flt_iff]. lra.
Qed.

(** * The audit state *)

(** At most one entry a source and at most 4096 sources; every pending count is
    positive and belongs to a source with an entry. *)
Definition audit_ok (lm : limiter) : Prop :=
  NoDup (map fst (lm_audited lm)) /\ (length (lm_audited lm) <= MAX_AUDIT_SOURCES)%nat
  /\ forall ip n, lm_unrecorded lm !! ip = Some n -> 0 < n /\ ip ∈ map fst (lm_audited lm).

Lemma apop_fst {V} k (d : list (string * V)) ip :
  ip ∈ map fst (apop k d) <-> ip ∈ map fst d /\ ip <> k.
Proof.
  rewrite !list_elem_of_In, !in_map_iff. setoid_rewrite filter_In.
  setoid_rewrite negb_true_iff. setoid_rewrite str_eqb_neq. split.
  - intros (kv & <- & H1 & H2). eauto.
  - intros [(kv & <- & H1) H2]. eauto.
Qed.

Lemma apop_nodup {V} k (d : list (string * V)) : NoDup (map fst d) -> NoDup (map fst (apop k d)).
Proof.
  induction d as [|kv d IH]; simpl; [done|]. intros [Hn Hd]%NoDup_cons.
  destruct (negb _); simpl; [|by apply IH]. constructor; [|by apply IH].
  intros [Hin _]%apop_fst. done.
Qed.

Lemma apop_length {V} k (d : list (string * V)) : (length (apop k d) <= length d)%nat.
Proof. unfold apop. induction d as [|kv d IH]; simpl; [lia|]. destruct (negb _); simpl; lia. Qed.

(** Dropping the oldest sources drops their pending counts with them. *)
Lemma drop_oldest_ok aud unrec :
  NoDup (map fst aud) -> (forall ip n, unrec !! ip = Some n -> 0 < n /\ ip ∈ map fst aud) ->
  let '(aud', unrec') := drop_oldest aud unrec in
  NoDup (map fst aud') /\ (length aud' <= MAX_AUDIT_SOURCES)%nat
  /\ forall ip n, unrec' !! ip = Some n -> 0 < n /\ ip ∈ map fst aud'.
Proof.
  revert unrec. induction aud as [|[o t] aud IH]; intros unrec Hn Hu; cbn [drop_oldest].
  - split_and!; [done|simpl; lia|done].
  - destruct (Nat.ltb_spec MAX_AUDIT_SOURCES (length ((o, t) :: aud))) as [H|H]; [|done].
    simpl in Hn. apply NoDup_cons in Hn as [Ho Hn]. apply IH; [done|].
    intros ip n [Hne Hl]%lookup_delete_Some. destruct (Hu ip n Hl) as [Hp Hin].
    split; [done|]. apply elem_of_cons in Hin as [->|Hin]; [by destruct Hne|done].
Qed.

Lemma note_refusal_ok ip now lm : audit_ok lm -> audit_ok (note_refusal ip now lm).1.
Proof.
  intros (H1 & H2 & H3). unfold note_refusal. cbv zeta.
  destruct (alookup ip (lm_audited lm)) as [t|] eqn:E; [destruct (flt (fsub now t) WINDOW_SECONDS)|].
  { split_and!; [done..|]. simpl. intros ip' n. rewrite lookup_insert_Some.
    intros [[<- <-]|[_ Hl]]; [|by apply H3]. split; [|by eapply alookup_fst].
    destruct (lm_unrecorded lm !! ip) as [m|] eqn:Em; simpl; [apply H3 in Em; lia|lia]. }
  all: pose proof (drop_oldest_ok (apop ip (lm_audited lm) ++ [(ip, now)]) (delete ip (lm_unrecorded lm))) as Hd.
  all: destruct (drop_oldest _ _) as [aud unrec]; apply Hd.
  all: try (rewrite map_app; apply NoDup_app; split_and!;
    [by apply apop_nodup|intros x [_ Hx]%apop_fst Hx'; apply list_elem_of_singleton in Hx'; done|apply NoDup_singleton]).
  all: intros ip' n [Hne Hl]%lookup_delete_Some; destruct (H3 ip' n Hl) as [Hp Hin]; split; [done|];
    rewrite map_app, elem_of_app; left; by apply apop_fst.
Qed.

Lemma dispatch_audit_ok lm req now : audit_ok lm -> audit_ok (dispatch lm req now).1.
Proof.
  intros H. unfold dispatch. destruct (exempt req); [done|]. cbv zeta.
  destruct (_ >=? _); [|done]. destruct (str_eqb _ SENSOR_PUSH_PATH); [|done].
  match goal with |- context [note_refusal ?ip ?n ?lm] =>
    pose proof (note_refusal_ok ip n lm) as Hn; destruct (note_refusal ip n lm) end.
  by apply Hn.
Qed.

(** ** Accounting for refused sensor pushes *)

Definition pending (lm : limiter) (ip : string) : Z := default 0 (lm_unrecorded lm !! ip).

(** The refusals the audit rows of one response stand for, and whether it
    refused a push, for the source [ip]. *)
Definition recorded1 (ip : string) (req : request) (r : response) : Z :=
  match r with
  | TooManyRequests _ (Some coalesced) => if str_eqb (client_ip req) ip then 1 + coalesced else 0
  | _ => 0
  end.

Definition refused1 (ip : string) (req : request) (r : response) : Z :=
  match r with
  | TooManyRequests _ _ =>
      if str_eqb (client_ip req) ip && str_eqb (rq_path req) SENSOR_PUSH_PATH then 1 else 0
  | Forwarded => 0
  end.

Fixpoint tally (f : request -> response -> Z) (reqs : list (request * Q)) (rs : list response) : Z :=
  match reqs, rs with
  | (req, _) :: reqs, r :: rs => f req r + tally f reqs rs
  | _, _ => 0
  end.

(** The sources with an audit entry are among [X]. *)
Definition sources_in (X : gset string) (lm : limiter) : Prop :=
  forall ip, ip ∈ map fst (lm_audited lm) -> ip ∈ X.

Lemma nodup_size (X : gset string) l : NoDup l -> (forall x, x ∈ l -> x ∈ X) -> (length l <= size X)%nat.
Proof.
  intros Hn Hl. rewrite <- (size_list_to_set (C := gset string) l) by done.
  apply subseteq_size. intros x Hx%elem_of_list_to_set. auto.
Qed.

Lemma drop_oldest_sub aud unrec k n :
  (drop_oldest aud unrec).2 !! k = Some n -> unrec !! k = Some n.
Proof.
  revert unrec. induction aud as [|[o t] aud IH]; intros unrec; cbn [drop_oldest]; [done|].
  destruct (_ <? _)%nat; [|done]. intros [_ H]%IH%lookup_delete_Some. done.
Qed.

Lemma drop_oldest_fst aud unrec : forall ip, ip ∈ map fst (drop_oldest aud unrec).1 -> ip ∈ map fst aud.
Proof.
  revert unrec. induction aud as [|[o t] aud IH]; intros unrec ip; cbn [drop_oldest]; [done|].
  destruct (_ <? _)%nat; [|done]. intros H%IH. simpl. by right.
Qed.

Lemma drop_oldest_few aud unrec : (length aud <= MAX_AUDIT_SOURCES)%nat -> drop_oldest aud unrec = (aud, unrec).
Proof. destruct aud as [|[o t] aud]; intros H; cbn [drop_oldest]; [done|]. by rewrite (proj2 (Nat.ltb_ge _ _) H). Qed.

(** One refusal: it is recorded now, with what was pending, or left pending. *)
Lemma note_refusal_accounts X src now lm ip :
  audit_ok lm -> sources_in X lm -> src ∈ X ->
  let '(lm', audit) := note_refusal src now lm in
  let rec := match audit with Some c => if str_eqb src ip then 1 + c else 0 | None => 0 end in
  let one := if str_eqb src ip then 1 else 0 in
  sources_in X lm' /\ rec + pending lm' ip <= pending lm ip + one
  /\ ((size X <= MAX_AUDIT_SOURCES)%nat -> rec + pending lm' ip = pending lm ip + one).
Proof.
  intros (H1 & H2 & H3) HX Hsrc. unfold note_refusal. cbv zeta.
  destruct (match alookup src (lm_audited lm) with Some t => _ | None => _ end).
  - unfold pending. simpl. split; [done|]. destruct (str_eqb src ip) eqn:E.
    + apply str_eqb_eq in E as <-. rewrite lookup_insert_eq. simpl. lia.
    + apply str_eqb_neq in E. rewrite lookup_insert_ne by done. lia.
  - set (aud := apop src (lm_audited lm) ++ [(src, now)]). set (unrec := delete src (lm_unrecorded lm)).
    assert (Haud : forall ip, ip ∈ map fst aud -> ip ∈ X).
    { intros ip'. unfold aud. rewrite map_app, elem_of_app. intros [[Hin _]%apop_fst|Hin]; [by apply HX|].
      apply list_elem_of_singleton in Hin. by subst. }
    pose proof (drop_oldest_fst aud unrec) as Hf. pose proof (drop_oldest_sub aud unrec ip) as Hs.
    pose proof (drop_oldest_few aud unrec) as Hfew.
    assert (Hlen : (length aud <= size X)%nat).
    { rewrite <- (length_map fst). apply nodup_size; [|done]. unfold aud. rewrite map_app.
      apply NoDup_app. split_and!; [by apply apop_nodup| |apply NoDup_singleton].
      intros x [_ Hx]%apop_fst Hx'. by apply list_elem_of_singleton in Hx'. }
    destruct (drop_oldest aud unrec) as [aud' unrec']. simpl in *. unfold pending. simpl.
    split; [by intros ip' Hip%Hf; apply Haud|].
    assert (Hdel : (if str_eqb src ip then 1 + default 0 (lm_unrecorded lm !! src) else 0) + default 0 (unrec !! ip)
                   = default 0 (lm_unrecorded lm !! ip) + if str_eqb src ip then 1 else 0).
    { unfold unrec. destruct (str_eqb src ip) eqn:E.
      - apply str_eqb_eq in E as <-. rewrite lookup_delete_eq. simpl. lia.
      - apply str_eqb_neq in E. rewrite lookup_delete_ne by done. lia. }
    rewrite <- Hdel. split.
    + destruct (unrec' !! ip) as [n|]; [by rewrite (Hs n eq_refl)|]. simpl.
      destruct (unrec !! ip) as [n|] eqn:En; simpl; [|lia]. unfold unrec in En.
      apply lookup_delete_Some in En as [_ En]. apply H3 in En. lia.
    + intros Hsmall. assert (E : (aud', unrec') = (aud, unrec)) by (apply Hfew; lia). by injection E as -> ->.
Qed.

Lemma dispatch_accounts X lm req now ip :
  audit_ok lm -> sources_in X lm -> client_ip req ∈ X ->
  let '(lm', r) := dispatch lm req now in
  sources_in X lm' /\ recorded1 ip req r + pending lm' ip <= pending lm ip + refused1 ip req r
  /\ ((size X <= MAX_AUDIT_SOURCES)%nat ->
      recorded1 ip req r + pending lm' ip = pending lm ip + refused1 ip req r).
Proof.
  intros Ha HX Hsrc. unfold dispatch. destruct (exempt req); [simpl; split_and!; [done|lia..]|]. cbv zeta.
  destruct (_ >=? _); [|simpl; split_and!; [done|unfold pending; simpl; lia..]].
  destruct (str_eqb _ SENSOR_PUSH_PATH) eqn:Ep.
  - match goal with |- context [note_refusal ?src ?n ?lm] =>
      pose proof (note_refusal_accounts X src n lm ip Ha HX Hsrc) as Hn; destruct (note_refusal src n lm) as [lm' [c|]] end;
      simpl in *; rewrite Ep, andb_true_r; exact Hn.
  - simpl. rewrite Ep, andb_false_r. split_and!; [done|unfold pending; simpl; lia..].
Qed.

Lemma run_accounts X lm reqs ip :
  audit_ok lm -> sources_in X lm -> Forall (fun a => client_ip a.1 ∈ X) reqs ->
  let '(lm', rs) := run lm reqs in
  audit_ok lm' /\ tally (recorded1 ip) reqs rs + pending lm' ip <= pending lm ip + tally (refused1 ip) reqs rs
  /\ ((size X <= MAX_AUDIT_SOURCES)%nat ->
      tally (recorded1 ip) reqs rs + pending lm' ip = pending lm ip + tally (refused1 ip) reqs rs).
Proof.
  revert lm. induction reqs as [|[req now] reqs IH]; intros lm Ha HX Hr; simpl; [split_and!; [done|lia..]|].
  apply Forall_cons in Hr as [Hc Hr]. pose proof (dispatch_audit_ok lm req now Ha) as Ha'.
  pose proof (dispatch_accounts X lm req now ip Ha HX Hc) as Hd.
  destruct (dispatch lm req now) as [lm1 r]. destruct Hd as (HX1 & Hle & Heq).
  specialize (IH lm1 Ha' HX1 Hr). destruct (run lm1 reqs) as [lm2 rs]. destruct IH as (H1 & H2 & H3).
  split_and!; [done|simpl; lia|]. intros Hs. specialize (Heq Hs). specialize (H3 Hs). simpl. lia.
Qed.

(** * Properties *)

(** C36: The middleware refines the abstract limiter.  On every sequence of
    requests with a clock that does not run backwards, started empty, it
    forwards and refuses the same requests, with the same [Retry-After], as the
    limiter that keeps every accepted request and counts those of the client
    later than a minute ago: trimming deques and evicting idle ones is
    invisible. *)
Theorem rate_limit_refines t reqs :
  clocked t reqs ->
  map verdict_of (run init_limiter reqs).2 = (spec_run [] reqs).2.
Proof. intros Hc. apply (run_sim t); [done|apply sim_init]. Qed.

Lemma rate_limit_refines_witness :
  map verdict_of (run init_limiter burst).2 = (spec_run [] burst).2.
Proof. apply (rate_limit_refines 0). vm_compute. repeat split; discriminate. Defined.

Lemma clocked_app t a b : clocked t (a ++ b) -> clocked t a /\ exists t', clocked t' b.
Proof.
  revert t. induction a as [|[r n] a IH]; intros t; simpl; [eauto|].
  intros [Ht [H1 H2]%IH]. eauto.
Qed.

Lemma clocked_ends t req now reqs req' now' :
  clocked t ((req, now) :: reqs ++ [(req', now')]) -> (now <= now')%Q.
Proof.
  simpl. intros [_ H]. revert now H. induction reqs as [|[r n] reqs IH]; intros now; simpl.
  - by intros [? _].
  - intros [Hn H%IH]. lra.
Qed.

Lemma last_map_snoc {A B} (f : A -> B) l x : last l = Some x -> last (map f l) = Some (f x).
Proof. intros H. pose proof (fmap_last f l) as E. by rewrite H in E. Qed.

Lemma last_spec l reqs req now :
  last (spec_run l (reqs ++ [(req, now)])).2 = Some (spec_dispatch (spec_run l reqs).1 req now).2.
Proof.
  rewrite (proj1 (spec_run_app _ _ _)). simpl. destruct (spec_dispatch _ _ _). simpl. apply last_snoc.
Qed.

(** What the abstract limiter looked at when it refused. *)
Lemma spec_refused l req now retry :
  (spec_dispatch l req now).2 = Limited retry ->
  exists oldest, head (window l (client_ip req) now) = Some oldest
                 /\ retry = retry_header now oldest /\ (spec_dispatch l req now).1 = l.
Proof.
  unfold spec_dispatch. destruct (exempt req); [done|]. cbv zeta.
  destruct (window l (client_ip req) now) as [|x w] eqn:E; [done|].
  destruct (60 <=? _); [|done]. simpl. intros [= <-]. eauto.
Qed.

Lemma head_in_window l ip now oldest :
  log_ok now l -> head (window l ip now) = Some oldest ->
  (oldest <= now)%Q /\ reading oldest /\ (now - 60 < oldest)%Q.
Proof.
  intros Hl Hh. destruct (Hl ip) as (_ & H2 & _). unfold window in Hh.
  destruct (List.filter _ _) as [|x xs] eqn:Ef; [done|]. injection Hh as ->.
  assert (Hin : In oldest (oldest :: xs)) by (by left). rewrite <- Ef in Hin.
  apply filter_In in Hin as [Hin Hf%flt_iff]. rewrite Forall_forall in H2.
  apply list_elem_of_In, H2 in Hin as [Hle Hr]. split_and!; [done..|].
  destruct (Qlt_le_dec (now - 60) oldest) as [|Hge]; [done|]. exfalso.
  destruct Hr as [Hr _]. apply rnd_mono in Hge. rewrite (representable_fixed _ Hr) in Hge.
  unfold fsub, WINDOW_SECONDS in Hf. lra.
Qed.

(** A client that waits is served.  When a request is refused, the next
    mutating request of that client is forwarded if it comes as many seconds
    later as the [Retry-After] header said, whatever other clients do in the
    meantime (clock readings being binary64 numbers of at least 128 seconds). *)
Theorem retry_after_honoured t before req now after req' now' retry audit :
  let early := before ++ [(req, now)] in
  clocked t (early ++ after ++ [(req', now')]) ->
  Forall (fun a => reading a.2) early ->
  last (run init_limiter early).2 = Some (TooManyRequests retry audit) ->
  client_ip req' = client_ip req -> Forall (bystander (client_ip req)) after ->
  (now + inject_Z retry <= now')%Q ->
  last (run init_limiter (early ++ after ++ [(req', now')])).2 = Some Forwarded.
Proof.
  intros early Hc Hr Hlast Hip Hafter Hwait.
  assert (Hnow : (now <= now')%Q).
  { subst early. rewrite <- app_assoc in Hc. apply clocked_app in Hc as [_ [t' Hc]].
    exact (clocked_ends _ _ _ _ _ _ Hc). }
  assert (Hv : last (spec_run [] early).2 = Some (Limited retry)).
  { rewrite <- (rate_limit_refines t) by apply (clocked_app _ _ _ Hc).
    by rewrite (last_map_snoc _ _ _ Hlast). }
  assert (Hlog : log_ok now (spec_run [] before).1).
  { apply clocked_app in Hc as [Hc _]. apply Forall_app in Hr as [Hr _].
    destruct (spec_run_ok t [] before req now Hc Hr (log_ok_init t)) as (t' & Hl & Ht).
    by apply (log_ok_later t'). }
  subst early. rewrite last_spec in Hv. injection Hv as Hv.
  destruct (spec_refused _ _ _ _ Hv) as (oldest & Hh & -> & Hsame).
  destruct (head_in_window _ _ _ _ Hlog Hh) as (H1 & H2 & H3).
  apply Forall_app in Hr as [_ [Hrn _]%Forall_cons].
  pose proof (retry_header_enough _ _ _ Hrn H2 H1 H3 Hwait) as Hgone.
  set (l' := (spec_run [] ((before ++ [(req, now)]) ++ after)).1).
  assert (El : times l' (client_ip req) = times (spec_run [] before).1 (client_ip req)).
  { unfold l'. rewrite (proj2 (spec_run_app _ _ _)), bystanders_times by done.
    rewrite (proj2 (spec_run_app _ _ _)). simpl. by destruct (spec_dispatch _ req now); simpl in *; subst. }
  pose proof (window_has_room _ l' _ _ _ _ Hlog Hnow El Hh Hgone) as Hroom.
  assert (Hs : last (spec_run [] ((before ++ [(req, now)]) ++ after ++ [(req', now')])).2 = Some Served).
  { rewrite app_assoc, last_spec. fold l'. unfold spec_dispatch. rewrite Hip.
    destruct (exempt req'); [done|]. cbv zeta. by destruct (Z.leb_spec 60 (Z.of_nat (length (window l' (client_ip req) now')))); [lia|]. }
  rewrite <- (rate_limit_refines t) in Hs by done.
  change (map verdict_of) with (fmap (M := list) verdict_of) in Hs.
  rewrite fmap_last in Hs.
  match goal with |- ?r = _ => destruct r as [[|]|]; by simpl in Hs end.
Qed.

Lemma retry_after_honoured_witness :
  last (run init_limiter ((map (fun i => (push "a", (1000 + inject_Z i / 64)%Q)) (seqZ 0 60)
                           ++ [(push "a", 1001%Q)])
                          ++ [(push "b", 1002%Q)] ++ [(push "a", 1061%Q)])).2 = Some Forwarded.
Proof.
  apply (retry_after_honoured 0 _ (push "a") 1001 [(push "b", 1002%Q)] (push "a") 1061 59 (Some 0)).
  - vm_compute. repeat split; discriminate.
  - apply Forall_forall. intros a Ha. apply list_elem_of_In in Ha.
    assert (Hall : forallb (fun a => fle 128 a.2 && fle a.2 2000 && Pos.eqb (Qden (Qred (a.2 * 64))) 1)
      (map (fun i => (push "a", (1000 + inject_Z i / 64)%Q)) (seqZ 0 60) ++ [(push "a", 1001%Q)]) = true)
      by (vm_compute; reflexivity).
    rewrite forallb_forall in Hall. apply Hall in Ha as [[H1%fle_iff H2%fle_iff]%andb_true_iff H3]%andb_true_iff.
    split; [|done]. apply Pos.eqb_eq in H3. exists (Qnum (Qred (a.2 * 64))), (-6).
    assert (E : (a.2 * 64 == inject_Z (Qnum (Qred (a.2 * 64))))%Q).
    { rewrite <- (Qred_correct (a.2 * 64)) at 1. destruct (Qred (a.2 * 64)) as [n d]. simpl in *. by subst. }
    split.
    + apply Z.abs_le. rewrite !Zle_Qle, <- E. change (inject_Z (- 2 ^ 53)) with (-9007199254740992)%Q.
      change (inject_Z (2 ^ 53)) with 9007199254740992%Q. lra.
    + rewrite <- E. change (pow2 (-6)) with (1 # 64)%Q. field.
  - vm_compute. reflexivity.
  - done.
  - apply Forall_singleton. by right.
  - vm_compute. discriminate.
Defined.

(** Refused sensor pushes are accounted for in bounded memory.  After any
    run the audit state names at most 4096 sources, each once, and pending
    counts belong to them; the rows written for a source and its pending count
    never stand for more refusals than there were, and for exactly as many when
    at most 4096 clients took part. *)
Theorem sensor_refusals_accounted reqs ip :
  let lm := (run init_limiter reqs).1 in
  let rs := (run init_limiter reqs).2 in
  audit_ok lm
  /\ tally (recorded1 ip) reqs rs + pending lm ip <= tally (refused1 ip) reqs rs
  /\ ((size (list_to_set (map (fun a => client_ip a.1) reqs) : gset string) <= MAX_AUDIT_SOURCES)%nat ->
      tally (recorded1 ip) reqs rs + pending lm ip = tally (refused1 ip) reqs rs).
Proof.
  cbv zeta. pose proof (run_accounts (list_to_set (map (fun a => client_ip a.1) reqs)) init_limiter reqs ip) as H.
  destruct (run init_limiter reqs) as [lm rs]. apply H.
  - split_and!; [constructor|simpl; lia|]. intros ip' n. simpl. by rewrite lookup_empty.
  - intros ip' Hip. simpl in Hip. by apply elem_of_nil in Hip.
  - apply Forall_forall. intros a Ha. apply elem_of_list_to_set, list_elem_of_fmap. eauto.
Qed.

Lemma sensor_refusals_accounted_witness :
  tally (recorded1 "a") burst (run init_limiter burst).2 + pending (run init_limiter burst).1 "a"
  = tally (refused1 "a") burst (run init_limiter burst).2.
Proof. apply (sensor_refusals_accounted burst "a"). apply Nat.leb_le. vm_compute. reflexivity. Defined.
