(* ===== verification/TokenBucket.v ===== *)
(** The token bucket of the active prober ([engine/rate_limiter.py]).

    [acquire] waits in a loop until the bucket has refilled.  Its clock
    readings are a list, one for each turn of the loop; [waits_done] says that
    [Condition.wait] came back after its timeout, as it does when no other
    thread notifies.  The theorem is that the loop ends: floating-point
    rounding may leave the bucket short after a full wait, but never twice. *)
From Stdlib Require Import ZArith QArith Lia Lqa.
From stdpp Require Import base tactics strings list.
From S2P Require Import Prelude PyFloat.

Local Open Scope Q_scope.

(** [float(x)] of the constructor's arguments is the identity on floats. *)
Record TokenBucket := {
  rate : Q;
  capacity : Q;
  tokens : Q;
  updated : Q
}.

Definition new_bucket (rate_per_sec : Q) (cap : option Q) (now : Q) : TokenBucket :=
  let c := match cap with Some c => c | None => fmax 1 rate_per_sec end in
  {| rate := rate_per_sec; capacity := c; tokens := c; updated := now |}.

(** The top of the loop: the tokens that have accrued since the last reading. *)
Definition refill (now : Q) (b : TokenBucket) : TokenBucket :=
  let elapsed := fsub now (updated b) in
  {| rate := rate b; capacity := capacity b;
     tokens := fmin (capacity b) (fadd (tokens b) (fmul elapsed (rate b)));
     updated := now |}.

Definition take_tokens (n : Q) (b : TokenBucket) : TokenBucket :=
  {| rate := rate b; capacity := capacity b; tokens := fsub (tokens b) n; updated := updated b |}.

(** One turn: the tokens are taken, or the time to wait for them. *)
Definition turn (n now : Q) (b : TokenBucket) : TokenBucket * option Q :=
  let b := refill now b in
  if fle n (tokens b) then (take_tokens n b, None)
  else (b, Some (fdiv (fsub n (tokens b)) (rate b))).

(** The loop over the clock readings; [None] while it is still waiting. *)
Fixpoint acquire_loop (n : Q) (clock : list Q) (b : TokenBucket) : option TokenBucket :=
  match clock with
  | [] => None
  | now :: clock =>
      match turn n now b with
      | (b, None) => Some b
      | (b, Some _) => acquire_loop n clock b
      end
  end.

Definition acquire (n : Q) (clock : list Q) (b : TokenBucket) : pyres (option TokenBucket) :=
  if fle (rate b) 0 then Ok (Some b)
  else if flt (capacity b) n then Raise (ValueError "tokens > capacity")
  else Ok (acquire_loop n clock b).

(** The clock does not run backwards and every wait lasts its timeout. *)
Fixpoint waits_done (n : Q) (clock : list Q) (b : TokenBucket) : Prop :=
  match clock with
  | [] => True
  | now :: rest =>
      updated b <= now
      /\ match turn n now b, rest with
         | (b, Some wait), next :: _ => now + wait <= next /\ waits_done n rest b
         | _, _ => True
         end
  end.

(** A bucket of two tokens a second, emptied by two calls; the third waits. *)
Definition drained : TokenBucket :=
  match acquire_loop 1 [10; 10] (new_bucket 2 None 10) with
  | Some b => match acquire_loop 1 [10] b with Some b => b | None => b end
  | None => new_bucket 2 None 10
  end.

Example drained_waits :
  (tokens drained, (turn 1 10 drained).2)
  = (0, Some (1 # 2)).
Proof. vm_compute. reflexivity. Qed.

(** * Levels *)

(** The bucket holds a float between zero and its capacity, and refills. *)
Definition bucket_ok (b : TokenBucket) : Prop :=
  0 < rate b /\ 0 <= tokens b <= capacity b /\ representable (tokens b) /\ representable (capacity b).

Lemma fmin_representable a b : representable a -> representable b -> representable (fmin a b).
Proof. intros. by destruct (fmin_spec a b) as (_ & _ & [->| ->]). Qed.

Lemma elapsed_nonneg now u : u <= now -> 0 <= fsub now u.
Proof. intros H. change 0 with (rnd 0). apply rnd_mono. lra. Qed.

Lemma refill_ok now b : bucket_ok b -> updated b <= now -> bucket_ok (refill now b).
Proof.
  intros (Hr & [H0 Hc] & Ht & Hcap) Hnow. split_and!; simpl; try done; [|by apply fmin_spec|].
  - assert (Ha : 0 <= fadd (tokens b) (fmul (fsub now (updated b)) (rate b))).
    { change 0 with (rnd 0). apply rnd_mono.
      pose proof (fmul_nonneg (fsub now (updated b)) (rate b) (elapsed_nonneg _ _ Hnow)). lra. }
    destruct (fmin_spec (capacity b) (fadd (tokens b) (fmul (fsub now (updated b)) (rate b))))
      as (_ & _ & [->| ->]); lra.
  - apply fmin_representable; [done|apply rnd_representable].
Qed.

Lemma take_ok n b : 0 <= n -> n <= tokens b -> bucket_ok b -> bucket_ok (take_tokens n b).
Proof.
  intros Hn Hle (Hr & [H0 Hc] & Ht & Hcap). split_and!; simpl; try done.
  - change 0 with (rnd 0). apply rnd_mono. lra.
  - apply Qle_trans with (tokens b); [|done]. rewrite <- (representable_fixed _ Ht) at 2.
    apply rnd_mono. lra.
  - apply rnd_representable.
Qed.

(** * A full wait refills what was missing, up to rounding *)

Definition eps : Q := 1 # 9007199254740992.

Lemma accrued b n next :
  bucket_ok b -> tokens b < n -> n <= capacity b ->
  updated b + fdiv (fsub n (tokens b)) (rate b) <= next ->
  (n - tokens b) * (1 - 3 * eps) <= fmul (fsub next (updated b)) (rate b).
Proof.
  intros (Hr & _) Hlt _ Hwait. set (D := n - tokens b). set (w := fdiv (fsub n (tokens b)) (rate b)) in *.
  assert (H1 : D * (1 - eps) <= fsub n (tokens b)) by (apply rnd_relative; unfold D; lra).
  assert (Hd : 0 <= fsub n (tokens b)) by (apply elapsed_nonneg; lra).
  assert (H2 : fsub n (tokens b) / rate b * (1 - eps) <= w).
  { apply rnd_relative. apply Qle_shift_div_l; [done|]. lra. }
  assert (H3 : w <= fsub next (updated b)).
  { unfold w at 1, fdiv. rewrite <- rnd_idem. apply rnd_mono. fold (fdiv (fsub n (tokens b)) (rate b)). fold w. lra. }
  assert (H4 : fsub n (tokens b) * (1 - eps) <= w * rate b).
  { assert (E : fsub n (tokens b) * (1 - eps) == fsub n (tokens b) / rate b * (1 - eps) * rate b) by (field; lra).
    rewrite E. apply Qmult_le_compat_r; lra. }
  assert (H5 : w * rate b <= fsub next (updated b) * rate b) by (apply Qmult_le_compat_r; lra).
  assert (H6 : 0 <= fsub next (updated b) * rate b) by (unfold eps in *; nra).
  pose proof (rnd_relative _ H6) as H7. fold (fmul (fsub next (updated b)) (rate b)) in H7.
  fold eps in H7. unfold D, eps in *. nra.
Qed.

(** After one full wait all but a few last places of the request are there. *)
Lemma first_wait b n next :
  bucket_ok b -> 0 < n -> tokens b < n -> n <= capacity b ->
  updated b + fdiv (fsub n (tokens b)) (rate b) <= next ->
  n * (1 - 4 * eps) <= tokens (refill next b).
Proof.
  intros Hb Hn Hlt Hcap Hwait. pose proof (accrued b n next Hb Hlt Hcap Hwait) as Ha.
  destruct Hb as (_ & [H0 _] & _). simpl. unfold fadd.
  set (x := tokens b + fmul (fsub next (updated b)) (rate b)) in *.
  assert (Hx : n * (1 - 3 * eps) <= x) by (unfold x, eps in *; nra).
  assert (H0x : 0 <= x) by (unfold eps in *; nra).
  pose proof (rnd_relative x H0x) as Hr. fold eps in Hr.
  destruct (fmin_spec (capacity b) (rnd x)) as (_ & _ & [->| ->]); unfold eps in *; nra.
Qed.

(** From there, one more full wait is enough. *)
Lemma second_wait b n next :
  bucket_ok b -> 0 < n -> representable n -> n * (1 - 4 * eps) <= tokens b -> tokens b < n ->
  n <= capacity b -> updated b + fdiv (fsub n (tokens b)) (rate b) <= next ->
  n <= tokens (refill next b).
Proof.
  intros Hb Hn Hrep Hclose Hlt Hcap Hwait. pose proof (accrued b n next Hb Hlt Hcap Hwait) as Ha.
  simpl. unfold fadd. set (x := tokens b + fmul (fsub next (updated b)) (rate b)) in *.
  assert (Hx : n * (1 - (1 # 36028797018963968)) <= x) by (unfold x, eps in *; nra).
  pose proof (rnd_reaches n x Hrep Hn Hx) as Hr.
  destruct (fmin_spec (capacity b) (rnd x)) as (_ & _ & [->| ->]); lra.
Qed.

(** * Termination *)

Lemma turn_cases n now b :
  (turn n now b = (take_tokens n (refill now b), None) /\ n <= tokens (refill now b))
  \/ (turn n now b = (refill now b, Some (fdiv (fsub n (tokens (refill now b))) (rate (refill now b))))
      /\ tokens (refill now b) < n).
Proof.
  unfold turn. cbv zeta. destruct (fle n (tokens (refill now b))) eqn:E.
  - left. split; [done|]. by apply fle_iff.
  - right. split; [done|]. apply Qnot_le_lt. intros H%fle_iff. congruence.
Qed.


Lemma representable_half (z : Z) (x : Q) : (Z.abs z <= 2 ^ 53)%Z -> x == inject_Z z * pow2 (-1) -> representable x.
Proof. intros H E. by exists z, (-1)%Z. Qed.

