(* ===== verification/Siem.v ===== *)
(** The CEF formatter of the SIEM export: [src/quirk/siem/formatter.py].

    A finding is a dictionary; [to_cef_finding] takes the fields that may leave
    the program and [build_cef_event] writes them as one CEF line.  A reader of
    the format ([parse_cef]) is the reference the escaping is checked against. *)
From Stdlib Require Import ZArith QArith Lia Ascii.
From stdpp Require Import base tactics sets strings list pretty.
From S2P Require Import Prelude PyStr PyFloat PyVal.

Local Open Scope Z_scope.

Definition CEF_SEVERITY : list (string * Z) :=
  [("CRITICAL", 10); ("HIGH", 8); ("MEDIUM", 5); ("LOW", 3)].
Definition DEFAULT_SEVERITY : Z := 3.

(** * Escaping *)

Definition backslash : Ascii.ascii := "\"%char.
Definition CR : Ascii.ascii := chr 13.
Definition LF : Ascii.ascii := chr 10.
Definition CRLF : string := String CR (str1 LF).

Definition cef_escape_header (value : string) : string :=
  replace (str1 LF) "" (replace (str1 CR) "" (replace CRLF ""
    (replace "|" "\|" (replace "\" "\\" value)))).

Definition cef_escape_extension (value : string) : string :=
  replace " " "\s" (replace (str1 LF) "\n" (replace (str1 CR) "\n" (replace CRLF "\n"
    (replace "=" "\=" (replace "\" "\\" value))))).

Definition slug_char (c : Ascii.ascii) : bool := is_lower c || is_digit c.

Definition slugify (title : string) : string :=
  let is_dash c := bool_decide (c = "-"%char) in
  let slug := rstrip_by is_dash (lstrip_by is_dash (collapse slug_char "-" false (lower title))) in
  match slug with EmptyString => "unknown" | _ => slug end.

(** * The whitelist *)

Record cef_finding := {
  cf_severity : string;
  cf_host : string;
  cf_port : option Z;       (** [None] for the empty string *)
  cf_title : string;
  cf_category : string;
  cf_description : string;
  cf_recommendation : string
}.

(** [a or b] on values. *)
Definition py_or (a b : pyval) : pyval := if truthy a then a else b.
Definition get (f : pydict) (k : string) : pyval := get_or f k VNone.

Section Format.
(** [str] of a float, a list or a dictionary. *)
Context (repr : pyval -> string).

Definition py_str (v : pyval) : string :=
  match v with
  | VNone => "None"
  | VBool true => "True"
  | VBool false => "False"
  | VInt z => pretty z
  | VStr s => s
  | _ => repr v
  end.

Definition safe_port (v : pyval) : option Z :=
  match int_or_none v with
  | Some p => if (0 <? p) && (p <=? 65535) then Some p else None
  | None => None
  end.

Definition to_cef_finding (f : pydict) : cef_finding :=
  let title := py_str (py_or (get f "title") (VStr "Finding")) in
  let raw_category := py_or (py_or (get f "category") (get f "id")) (VStr (slugify title)) in
  {| cf_severity := upper (py_str (py_or (get f "severity") (VStr "LOW")));
     cf_host := py_str (py_or (get f "host") (VStr ""));
     cf_port := safe_port (get f "port");
     cf_title := title;
     cf_category := py_str raw_category;
     cf_description := str_take 256 (py_str (py_or (get f "description") (VStr "")));
     cf_recommendation := str_take 256 (py_str (py_or (get f "recommendation") (VStr ""))) |}.

(** * The event *)

Definition cef_severity (safe : cef_finding) : Z :=
  default DEFAULT_SEVERITY (alookup (cf_severity safe) CEF_SEVERITY).

Definition cef_message (safe : cef_finding) : string :=
  if truthy_str (Some (cf_recommendation safe)) then cf_recommendation safe else cf_description safe.

Definition cef_header (safe : cef_finding) (version : string) : string :=
  "CEF:0|QUIRK|scanner|" +:+ cef_escape_header version +:+ "|" +:+
  cef_escape_header (cf_category safe) +:+ "|" +:+ cef_escape_header (cf_title safe) +:+ "|" +:+
  pretty (cef_severity safe).

Definition cef_dpt (safe : cef_finding) : string :=
  match cf_port safe with Some p => "dpt=" +:+ pretty p +:+ " " | None => "" end.

Definition cef_extension (safe : cef_finding) : string :=
  "dhost=" +:+ cef_escape_extension (cf_host safe) +:+ " " +:+ cef_dpt safe +:+
  "cs1=" +:+ cef_escape_extension (cf_category safe) +:+ " cs1Label=Category " +:+
  "cs2=" +:+ cef_escape_extension (cf_description safe) +:+ " cs2Label=EvidenceSummary " +:+
  "msg=" +:+ cef_escape_extension (cef_message safe).

Definition build_cef_event (f : pydict) (version : string) : string :=
  let safe := to_cef_finding f in
  cef_header safe version +:+ "|" +:+ cef_extension safe.
End Format.

(** * Reading CEF

    A reader of one line: seven header fields end at an unescaped bar, the
    extension is [key=value] pairs separated by spaces. *)

Definition push (c : Ascii.ascii) (r : option (string * string)) : option (string * string) :=
  match r with Some (a, b) => Some (String c a, b) | None => None end.

Fixpoint read_field (s : string) : option (string * string) :=
  match s with
  | EmptyString => None
  | String c s' =>
      if bool_decide (c = "|"%char) then Some (EmptyString, s')
      else if bool_decide (c = backslash) then
        match s' with
        | String d s'' =>
            if bool_decide (d = backslash) || bool_decide (d = "|"%char) then push d (read_field s'')
            else None
        | EmptyString => None
        end
      else push c (read_field s')
  end.

Fixpoint read_fields (n : nat) (s : string) : option (list string * string) :=
  match n with
  | O => Some ([], s)
  | S n' =>
      match read_field s with
      | Some (field, rest) =>
          match read_fields n' rest with
          | Some (fields, ext) => Some (field :: fields, ext)
          | None => None
          end
      | None => None
      end
  end.

Definition unescape_char (d : Ascii.ascii) : option Ascii.ascii :=
  if bool_decide (d = backslash) then Some backslash
  else if bool_decide (d = "="%char) then Some "="%char
  else if bool_decide (d = "n"%char) then Some LF
  else if bool_decide (d = "s"%char) then Some " "%char
  else None.

(** A value: an escape for each backslash, and no bare [=], space or newline. *)
Fixpoint read_value (s : string) : option string :=
  match s with
  | EmptyString => Some EmptyString
  | String c s' =>
      if bool_decide (c = backslash) then
        match s' with
        | String d s'' =>
            match unescape_char d, read_value s'' with
            | Some x, Some v => Some (String x v)
            | _, _ => None
            end
        | EmptyString => None
        end
      else if bool_decide (c ∈ ["="%char; " "%char; CR; LF]) then None
      else match read_value s' with Some v => Some (String c v) | None => None end
  end.

Definition read_pair (token : string) : option (string * string) :=
  match split_once "=" token with
  | Some (k, v) => match read_value v with Some x => Some (k, x) | None => None end
  | None => None
  end.

Definition parse_cef (line : string) : option (list string * list (string * string)) :=
  match read_fields 7 line with
  | Some (header, ext) =>
      match mapM read_pair (split_on " " ext) with
      | Some pairs => Some (header, pairs)
      | None => None
      end
  | None => None
  end.

(** What the escaping does not keep: a header field loses its line breaks, a
    value has each line break as one newline. *)
Definition is_newline (c : Ascii.ascii) : bool := bool_decide (c = CR) || bool_decide (c = LF).
Definition one_line (s : string) : string := remove_chars is_newline s.

Fixpoint unix_newlines (s : string) : string :=
  match s with
  | EmptyString => EmptyString
  | String c s' =>
      if bool_decide (c = CR) then
        String LF (match s' with
                   | String d s'' => if bool_decide (d = LF) then unix_newlines s'' else unix_newlines s'
                   | EmptyString => EmptyString
                   end)
      else String c (unix_newlines s')
  end.

(** * The escaping, one character at a time *)

Definition header_char (c : Ascii.ascii) : string :=
  if bool_decide (c = backslash) then "\\"
  else if bool_decide (c = "|"%char) then "\|" else str1 c.

Definition value_char (c : Ascii.ascii) : string :=
  if bool_decide (c = backslash) then "\\"
  else if bool_decide (c = "="%char) then "\="
  else if is_newline c then "\n"
  else if bool_decide (c = " "%char) then "\s" else str1 c.

(** ** The newline replacements *)

Section Newlines.
Context (new : string) (Hnew : every (fun c => negb (is_newline c)) new = true).

Lemma crlf_hit s : replace CRLF new (String CR (String LF s)) = new +:+ replace CRLF new s.
Proof. unfold replace. by cbn [replace_from CRLF str1 startswith]; rewrite startswith_nil. Qed.

Lemma crlf_cr d s : d <> LF ->
  replace CRLF new (String CR (String d s)) = String CR (replace CRLF new (String d s)).
Proof.
  intros Hd. unfold replace at 1. cbn [replace_from CRLF str1 startswith].
  by rewrite (bool_decide_eq_false_2 (LF = d)) by done.
Qed.

Lemma crlf_other c s : c <> CR -> replace CRLF new (String c s) = String c (replace CRLF new s).
Proof.
  intros Hc. unfold replace at 1. cbn [replace_from CRLF startswith].
  by rewrite (bool_decide_eq_false_2 (CR = c)) by done.
Qed.

Definition break_char (c : Ascii.ascii) : string := if is_newline c then new else str1 c.

Lemma flat_str1 (f : Ascii.ascii -> string) s :
  every (fun c => bool_decide (f c = str1 c)) s = true -> flat f s = s.
Proof.
  induction s as [|c s IH]; [done|]. cbn [every flat]. rewrite andb_true_iff, bool_decide_eq_true.
  intros [-> H]. by rewrite IH.
Qed.

Lemma flat_new f : (forall c, is_newline c = false -> f c = str1 c) -> flat f new = new.
Proof.
  intros Hf. apply flat_str1. eapply every_impl; [|exact Hnew]. intros c Hc.
  apply bool_decide_eq_true, Hf. by apply negb_true_iff.
Qed.

Lemma is_newline_false c : is_newline c = false <-> c <> CR /\ c <> LF.
Proof. unfold is_newline. by rewrite orb_false_iff, !bool_decide_eq_false. Qed.

Lemma break_lf_cr c : flat (subst LF new) (subst CR new c) = break_char c.
Proof.
  unfold subst at 2, break_char, is_newline. rewrite (bool_decide_ext (c = CR) (CR = c)) by done.
  destruct (bool_decide (CR = c)) eqn:E; simpl.
  - apply flat_new. intros d [_ Hd]%is_newline_false. unfold subst.
    by rewrite bool_decide_eq_false_2.
  - rewrite append_nil. unfold subst. by rewrite (bool_decide_ext (c = LF) (LF = c)).
Qed.

(** Replacing CR LF, then CR, then LF by [new] is one newline character each. *)
Lemma replace_newlines s :
  replace (str1 LF) new (replace (str1 CR) new (replace CRLF new s))
  = flat break_char (unix_newlines s).
Proof.
  rewrite !replace_subst, flat_flat, (flat_ext _ _ _ break_lf_cr).
  assert (Hbn : flat break_char new = new).
  { apply flat_new. intros c Hc. unfold break_char. by rewrite Hc. }
  assert (Hcr : break_char CR = new) by done. assert (Hlf : break_char LF = new) by done.
  assert (Hone : forall c, flat break_char (replace CRLF new (str1 c)) = flat break_char (unix_newlines (str1 c))).
  { intros c. destruct (decide (c = CR)) as [->|Hc]; [done|].
    change (str1 c) with (String c ""). rewrite crlf_other by done.
    cbn [unix_newlines]. by rewrite bool_decide_eq_false_2. }
  induction s as [|c|c d s IH1 IH2] using string_ind2; [done|apply Hone|].
  cbn [unix_newlines]. destruct (decide (c = CR)) as [->|Hc].
  - rewrite bool_decide_eq_true_2 by done. destruct (decide (d = LF)) as [->|Hd].
    + rewrite (bool_decide_eq_true_2 (LF = LF)) by done.
      rewrite crlf_hit, flat_app, Hbn, IH1. cbn [flat]. by rewrite Hlf.
    + rewrite (bool_decide_eq_false_2 (d = LF)), crlf_cr by done. cbn [flat].
      rewrite Hcr, Hlf, IH2. done.
  - rewrite bool_decide_eq_false_2, crlf_other by done. cbn [flat]. by rewrite IH2.
Qed.
End Newlines.

Lemma unix_app s t : every (fun c => negb (is_newline c)) s = true ->
  unix_newlines (s +:+ t) = s +:+ unix_newlines t.
Proof.
  induction s as [|c s IH]; [done|]. cbn [every]. intros [Hc Hs]%andb_true_iff.
  apply negb_true_iff, is_newline_false in Hc as [Hc _].
  change (unix_newlines (String c (s +:+ t)) = String c (s +:+ unix_newlines t)).
  cbn [unix_newlines]. by rewrite bool_decide_eq_false_2, IH.
Qed.

Lemma unix_crlf s : unix_newlines (String CR (String LF s)) = String LF (unix_newlines s).
Proof. cbn [unix_newlines]. by rewrite !bool_decide_eq_true_2. Qed.

Lemma unix_cr c s : c <> LF ->
  unix_newlines (String CR (String c s)) = String LF (unix_newlines (String c s)).
Proof.
  intros Hc. cbn [unix_newlines]. by rewrite (bool_decide_eq_true_2 (CR = CR)), (bool_decide_eq_false_2 (c = LF)).
Qed.

Lemma unix_other c s : c <> CR -> unix_newlines (String c s) = String c (unix_newlines s).
Proof. intros Hc. cbn [unix_newlines]. by rewrite bool_decide_eq_false_2. Qed.

(** A map that keeps newlines and adds none commutes with their normalisation. *)
Section Commute.
Context (f : Ascii.ascii -> string).
Hypothesis f_newline : forall c, is_newline c = true -> f c = str1 c.
Hypothesis f_other : forall c, is_newline c = false ->
  f c <> "" /\ every (fun d => negb (is_newline d)) (f c) = true.

Lemma flat_unix s : unix_newlines (flat f s) = flat f (unix_newlines s).
Proof.
  assert (Hcr : f CR = str1 CR) by (apply f_newline; done).
  assert (Hlf : f LF = str1 LF) by (apply f_newline; done).
  assert (Hstep : forall c s, c <> CR -> unix_newlines (flat f s) = flat f (unix_newlines s) ->
    unix_newlines (flat f (String c s)) = flat f (unix_newlines (String c s))).
  { intros c t Hc IH. cbn [flat unix_newlines]. rewrite (bool_decide_eq_false_2 (c = CR)) by done.
    cbn [flat]. destruct (is_newline c) eqn:E.
    - rewrite f_newline by done. change (unix_newlines (String c (flat f t)) = String c (flat f (unix_newlines t))).
      cbn [unix_newlines]. by rewrite bool_decide_eq_false_2, IH.
    - rewrite unix_app by (by apply f_other). by rewrite IH. }
  induction s as [|c|c d s IH1 IH2] using string_ind2; [done| |].
  - destruct (decide (c = CR)) as [->|Hc]; [|by apply Hstep].
    cbn [flat unix_newlines str1]. rewrite Hcr, (bool_decide_eq_true_2 (CR = CR)) by done.
    cbn [flat]. by rewrite Hlf.
  - destruct (decide (c = CR)) as [->|Hc]; [|by apply Hstep].
    cbn [flat] in *. rewrite Hcr.
    change (unix_newlines (String CR (f d +:+ flat f s)) = flat f (unix_newlines (String CR (String d s)))).
    destruct (decide (d = LF)) as [->|Hd].
    + rewrite Hlf, unix_crlf. change (str1 LF +:+ flat f s) with (String LF (flat f s)).
      rewrite unix_crlf. cbn [flat]. by rewrite Hlf, IH1.
    + rewrite unix_cr by done. cbn [flat]. rewrite Hlf, <- IH2.
      destruct (f d +:+ flat f s) as [|e r] eqn:E.
      * destruct (is_newline d) eqn:Ed; [by rewrite f_newline in E|].
        destruct (f_other d Ed) as [Hne _]. by destruct (f d).
      * rewrite unix_cr; [done|]. intros ->. destruct (is_newline d) eqn:Ed.
        -- rewrite f_newline in E by done. change (String d (flat f s) = String LF r) in E. congruence.
        -- destruct (f_other d Ed) as [Hne Hno]. destruct (f d) as [|x y]; [done|].
           cbn [every] in Hno. apply andb_true_iff in Hno as [Hx _].
           change (String x (y +:+ flat f s) = String LF r) in E. injection E as -> _. done.
Qed.
End Commute.

(** Character functions agree: decide every comparison of the goal. *)
Ltac by_char :=
  unfold subst, break_char, is_newline; repeat (case_bool_decide; subst; simpl; try done).

Lemma escape_extension_spec s : cef_escape_extension s = flat value_char (unix_newlines s).
Proof.
  unfold cef_escape_extension. rewrite (replace_newlines "\n") by done.
  rewrite !replace_char, (flat_flat (subst "\" "\\")).
  rewrite (flat_unix (fun c => flat (subst "=" "\=") (subst "\" "\\" c))).
  - rewrite !flat_flat. apply flat_ext. intros c. unfold value_char. by_char.
  - intros c. by_char.
  - intros c. by_char.
Qed.

Lemma break_unix s : flat (break_char "") (unix_newlines s) = one_line s.
Proof.
  unfold one_line. rewrite remove_chars_flat. symmetry.
  induction s as [|c|c d s IH1 IH2] using string_ind2; [done| |].
  - destruct (decide (c = CR)) as [->|Hc]; [done|].
    change (str1 c) with (String c ""). by rewrite unix_other.
  - destruct (decide (c = CR)) as [->|Hc].
    + destruct (decide (d = LF)) as [->|Hd].
      * rewrite unix_crlf. exact IH1.
      * rewrite unix_cr by done. exact IH2.
    + rewrite unix_other by done. cbn [flat]. rewrite <- IH2. done.
Qed.

Lemma escape_header_spec s : cef_escape_header s = flat header_char (one_line s).
Proof.
  unfold cef_escape_header. rewrite (replace_newlines "") by done.
  rewrite !replace_char, (flat_flat (subst "\" "\\")).
  rewrite (flat_unix (fun c => flat (subst "|" "\|") (subst "\" "\\" c))).
  - rewrite <- break_unix, !flat_flat. apply flat_ext. intros c. unfold header_char. by_char.
  - intros c. by_char.
  - intros c. by_char.
Qed.

(** * Reading back *)

Lemma read_field_esc d t : d = backslash \/ d = "|"%char ->
  read_field (String backslash (String d t)) = push d (read_field t).
Proof. by intros [-> | ->]. Qed.

Lemma read_value_esc d x t v : unescape_char d = Some x -> read_value t = Some v ->
  read_value (String backslash (String d t)) = Some (String x v).
Proof. intros Hd Ht. cbn [read_value]. by rewrite bool_decide_eq_true_2, Hd, Ht. Qed.

Lemma read_field_escaped s rest :
  read_field (flat header_char s +:+ String "|" rest) = Some (s, rest).
Proof.
  induction s as [|c s IH]; [done|]. cbn [flat]. rewrite append_assoc. unfold header_char.
  destruct (bool_decide (c = backslash)) eqn:E1; [apply bool_decide_eq_true in E1 as ->|].
  { exact (eq_trans (read_field_esc _ _ (or_introl eq_refl)) (f_equal (push backslash) IH)). }
  destruct (bool_decide (c = "|"%char)) eqn:E2; [apply bool_decide_eq_true in E2 as ->|].
  { exact (eq_trans (read_field_esc _ _ (or_intror eq_refl)) (f_equal (push "|"%char) IH)). }
  change (read_field (String c (flat header_char s +:+ String "|" rest)) = Some (String c s, rest)).
  cbn [read_field]. by rewrite E1, E2, IH.
Qed.

Lemma read_escaped_header s rest :
  read_field (cef_escape_header s +:+ "|" +:+ rest) = Some (one_line s, rest).
Proof. rewrite escape_header_spec. apply read_field_escaped. Qed.

Lemma unix_no_cr s : every (char_not CR) (unix_newlines s) = true.
Proof.
  induction s as [|c|c d s IH1 IH2] using string_ind2; [done| |].
  - destruct (decide (c = CR)) as [->|Hc]; [done|].
    change (str1 c) with (String c ""). rewrite unix_other by done. cbn [every].
    unfold char_not. by rewrite bool_decide_eq_false_2.
  - destruct (decide (c = CR)) as [->|Hc].
    + destruct (decide (d = LF)) as [->|Hd]; [by rewrite unix_crlf|by rewrite unix_cr].
    + rewrite unix_other by done. cbn [every]. rewrite IH2. unfold char_not.
      by rewrite bool_decide_eq_false_2.
Qed.

Lemma read_value_escaped s : every (char_not CR) s = true -> read_value (flat value_char s) = Some s.
Proof.
  induction s as [|c s IH]; [done|]. cbn [every flat]. intros [Hc Hs]%andb_true_iff.
  unfold char_not in Hc. apply negb_true_iff, bool_decide_eq_false in Hc. specialize (IH Hs).
  unfold value_char, is_newline. rewrite (bool_decide_eq_false_2 (c = CR)) by done. simpl.
  destruct (decide (c = backslash)) as [->|H1]; [by apply (read_value_esc backslash)|rewrite bool_decide_eq_false_2 by done].
  destruct (decide (c = "="%char)) as [->|H2]; [by apply (read_value_esc "=")|rewrite bool_decide_eq_false_2 by done].
  destruct (decide (c = LF)) as [->|H3]; [by apply (read_value_esc "n")|rewrite bool_decide_eq_false_2 by done].
  destruct (decide (c = " "%char)) as [->|H4]; [by apply (read_value_esc "s")|rewrite bool_decide_eq_false_2 by done].
  change (read_value (String c (flat value_char s)) = Some (String c s)).
  cbn [read_value]. rewrite bool_decide_eq_false_2 by done.
  rewrite bool_decide_eq_false_2 by (rewrite !elem_of_cons, elem_of_nil; tauto). by rewrite IH.
Qed.

Lemma value_char_clean c :
  every (fun d => char_not " " d && negb (is_newline d)) (value_char c) = true.
Proof. unfold value_char, char_not. by_char. Qed.

Lemma escaped_clean s :
  every (fun d => char_not " " d && negb (is_newline d)) (cef_escape_extension s) = true.
Proof. rewrite escape_extension_spec. apply every_flat, value_char_clean. Qed.

Lemma escaped_no_space s : every (char_not " ") (cef_escape_extension s) = true.
Proof. eapply every_impl; [|apply escaped_clean]. by intros c [H _]%andb_true_iff. Qed.

Lemma escaped_one_line s : every (fun d => negb (is_newline d)) (cef_escape_extension s) = true.
Proof. eapply every_impl; [|apply escaped_clean]. by intros c [_ H]%andb_true_iff. Qed.

Lemma read_pair_escaped key s : every (char_not "=") key = true ->
  read_pair (key +:+ String "=" (cef_escape_extension s)) = Some (key, unix_newlines s).
Proof.
  intros Hk. unfold read_pair. rewrite split_once_app by done.
  by rewrite escape_extension_spec, read_value_escaped by apply unix_no_cr.
Qed.

Lemma read_pair_digits key n : every (char_not "=") key = true -> 0 <= n ->
  read_pair (key +:+ String "=" (pretty n)) = Some (key, pretty n).
Proof.
  intros Hk Hn. unfold read_pair. rewrite split_once_app by done.
  pose proof (pretty_Z_digits n Hn) as Hd. generalize dependent (pretty n). intros s Hd.
  assert (Hv : read_value s = Some s); [|by rewrite Hv].
  induction s as [|c s IH]; [done|]. cbn [every] in Hd. apply andb_true_iff in Hd as [Hc Hs].
  assert (Hno : forall d, is_digit d = false -> c <> d) by congruence.
  cbn [read_value]. rewrite bool_decide_eq_false_2 by (by apply Hno).
  rewrite bool_decide_eq_false_2 by (rewrite !elem_of_cons, elem_of_nil;
    intros [H|[H|[H|[H|[]]]]]; revert H; by apply Hno).
  by rewrite IH.
Qed.

(** * The event *)

Section Event.
Context (repr : pyval -> string).

(** The extension pairs a reader gets. *)
Definition cef_pairs (safe : cef_finding) : list (string * string) :=
  [("dhost", unix_newlines (cf_host safe))]
  ++ match cf_port safe with Some p => [("dpt", pretty p)] | None => [] end
  ++ [("cs1", unix_newlines (cf_category safe)); ("cs1Label", "Category");
      ("cs2", unix_newlines (cf_description safe)); ("cs2Label", "EvidenceSummary");
      ("msg", unix_newlines (cef_message safe))].

Lemma safe_port_range v p : safe_port v = Some p -> 0 < p <= 65535.
Proof. unfold safe_port. destruct (int_or_none v); [|done]. split_ifs; [|done]. bool_to_prop. intros [= <-]. lia. Qed.

Lemma port_range f p : cf_port (to_cef_finding repr f) = Some p -> 0 < p <= 65535.
Proof. apply safe_port_range. Qed.

Lemma cef_severity_range safe : 3 <= cef_severity safe <= 10.
Proof.
  unfold cef_severity. destruct (alookup (cf_severity safe) CEF_SEVERITY) as [z|] eqn:E; simpl; [|unfold DEFAULT_SEVERITY; lia].
  apply alookup_elem in E. unfold CEF_SEVERITY in E. rewrite !elem_of_cons, elem_of_nil in E.
  destruct_or! E; simplify_eq; lia.
Qed.

Lemma digits_clean p n : 0 <= n -> (forall c, is_digit c = true -> p c = true) -> every p (pretty n) = true.
Proof. intros Hn Hp. eapply every_impl; [exact Hp|]. by apply pretty_Z_digits. Qed.

(** Splitting off one token of the extension. *)
Lemma next_token tok rest : every (char_not " ") tok = true ->
  split_on " " (tok +:+ String " " rest) = tok :: split_on " " rest.
Proof. apply split_on_cons. Qed.

Lemma token_ok key v : every (char_not " ") key = true -> every (char_not " ") v = true ->
  every (char_not " ") (key +:+ String "=" v) = true.
Proof. intros Hk Hv. rewrite every_app, Hk. cbn [every]. by rewrite Hv. Qed.

Lemma extension_tokens safe : (forall p, cf_port safe = Some p -> 0 < p) ->
  mapM read_pair (split_on " " (cef_extension safe)) = Some (cef_pairs safe).
Proof.
  intros Hport.
  set (tok key v := key +:+ String "="%char (cef_escape_extension v)).
  assert (Hext : cef_extension safe =
    tok "dhost" (cf_host safe) +:+ String " " (cef_dpt safe +:+ (tok "cs1" (cf_category safe) +:+ String " "
      ("cs1Label=Category" +:+ String " " (tok "cs2" (cf_description safe) +:+ String " "
        ("cs2Label=EvidenceSummary" +:+ String " " (tok "msg" (cef_message safe)))))))).
  { unfold cef_extension, tok. by rewrite ?append_assoc. }
  assert (Htok : forall key v, every (char_not " ") key = true -> every (char_not " ") (tok key v) = true).
  { intros key v Hk. apply token_ok; [done|]. apply escaped_no_space. }
  assert (Htail : mapM read_pair (split_on " " (tok "cs1" (cf_category safe) +:+ String " "
      ("cs1Label=Category" +:+ String " " (tok "cs2" (cf_description safe) +:+ String " "
        ("cs2Label=EvidenceSummary" +:+ String " " (tok "msg" (cef_message safe)))))))
    = Some [("cs1", unix_newlines (cf_category safe)); ("cs1Label", "Category");
      ("cs2", unix_newlines (cf_description safe)); ("cs2Label", "EvidenceSummary");
      ("msg", unix_newlines (cef_message safe))]).
  { rewrite !next_token by (first [by apply Htok|done]). rewrite split_on_no by (by apply Htok).
    unfold tok. cbn [mapM]. by rewrite !read_pair_escaped by done. }
  rewrite Hext, next_token by (by apply Htok). unfold cef_pairs, cef_dpt.
  remember (tok "cs1" (cf_category safe) +:+ _) as tail eqn:Etail. clear Etail Hext.
  destruct (cf_port safe) as [p|] eqn:Ep.
  - rewrite !append_assoc.
    change (split_on " " ("dpt=" +:+ pretty p +:+ " " +:+ tail))
      with (split_on " " ("dpt=" +:+ (pretty p +:+ String " " tail))).
    rewrite <- append_assoc, next_token.
    2:{ change ("dpt=" +:+ pretty p) with ("dpt" +:+ String "=" (pretty p)).
        apply token_ok; [done|]. apply digits_clean; [specialize (Hport p eq_refl); lia|].
        intros c Hc. unfold char_not. apply negb_true_iff, bool_decide_eq_false. by intros ->. }
    cbn [mapM]. unfold tok at 1. rewrite read_pair_escaped by done.
    change ("dpt=" +:+ pretty p) with ("dpt" +:+ String "=" (pretty p)).
    rewrite read_pair_digits by (done || (specialize (Hport p eq_refl); lia)).
    simpl. by rewrite Htail.
  - cbn [mapM]. unfold tok at 1. rewrite read_pair_escaped by done.
    change ("" +:+ tail) with tail. simpl. by rewrite Htail.
Qed.

Lemma read_literals n rest :
  read_fields (S (S (S n))) ("CEF:0|QUIRK|scanner|" +:+ rest) =
  match read_fields n rest with
  | Some (fields, ext) => Some ("CEF:0" :: "QUIRK" :: "scanner" :: fields, ext)
  | None => None
  end.
Proof.
  cbn [read_fields].
  assert (read_field ("CEF:0|QUIRK|scanner|" +:+ rest) = Some ("CEF:0", "QUIRK|scanner|" +:+ rest)) as -> by done.
  assert (read_field ("QUIRK|scanner|" +:+ rest) = Some ("QUIRK", "scanner|" +:+ rest)) as -> by done.
  assert (read_field ("scanner|" +:+ rest) = Some ("scanner", rest)) as -> by done.
  by destruct (read_fields n rest) as [[fields ext]|].
Qed.

Lemma header_fields safe version :
  read_fields 7 (cef_header safe version +:+ "|" +:+ cef_extension safe)
  = Some (["CEF:0"; "QUIRK"; "scanner"; one_line version; one_line (cf_category safe);
           one_line (cf_title safe); pretty (cef_severity safe)], cef_extension safe).
Proof.
  assert (Hsev : read_field (pretty (cef_severity safe) +:+ "|" +:+ cef_extension safe)
                 = Some (pretty (cef_severity safe), cef_extension safe)).
  { pose proof (pretty_Z_digits (cef_severity safe) ltac:(pose proof (cef_severity_range safe); lia)) as Hd.
    rewrite <- (read_field_escaped (pretty (cef_severity safe)) (cef_extension safe)). f_equal. f_equal.
    symmetry. apply flat_str1. eapply every_impl; [|exact Hd]. intros c Hc. apply bool_decide_eq_true.
    unfold header_char. by rewrite !bool_decide_eq_false_2 by (by intros ->). }
  unfold cef_header. rewrite !append_assoc. etransitivity; [apply (read_literals 4)|].
  cbn [read_fields].
  rewrite (read_escaped_header version), (read_escaped_header (cf_category safe)),
    (read_escaped_header (cf_title safe)), Hsev. done.
Qed.

Lemma header_one_line s : every (fun d => negb (is_newline d)) (cef_escape_header s) = true.
Proof.
  rewrite escape_header_spec, <- break_unix, flat_flat. apply every_flat. intros c.
  unfold header_char. by_char.
Qed.

Lemma digits_one_line n : 0 <= n -> every (fun d => negb (is_newline d)) (pretty n) = true.
Proof.
  intros Hn. apply digits_clean; [done|]. intros c Hc. apply negb_true_iff, is_newline_false.
  split; by intros ->.
Qed.

Lemma event_one_line safe version : (forall p, cf_port safe = Some p -> 0 < p) ->
  every (fun d => negb (is_newline d)) (cef_header safe version +:+ "|" +:+ cef_extension safe) = true.
Proof.
  intros Hport. unfold cef_header, cef_extension, cef_dpt.
  rewrite !every_app, !header_one_line, !escaped_one_line, digits_one_line
    by (pose proof (cef_severity_range safe); lia).
  destruct (cf_port safe) as [p|]; [|done].
  rewrite !every_app, digits_one_line by (specialize (Hport p eq_refl); lia). done.
Qed.

(** C35: CEF round trip.  Whatever text a finding and the version carry, a reader
    of the format gets back from the emitted line exactly the eight CEF fields
    and the extension pairs: every value as the whitelist took it, except that a
    header field has lost its line breaks and a value has each of them as one
    newline.  The line itself has no line break, so no value can end the syslog
    record, and none can add a field or a pair. *)
Theorem cef_event_roundtrip (f : pydict) (version : string) :
  let safe := to_cef_finding repr f in
  parse_cef (build_cef_event repr f version)
    = Some (["CEF:0"; "QUIRK"; "scanner"; one_line version; one_line (cf_category safe);
             one_line (cf_title safe); pretty (cef_severity safe)], cef_pairs safe)
  /\ every (fun c => negb (is_newline c)) (build_cef_event repr f version) = true.
Proof.
  intros safe. pose proof (fun p H => proj1 (port_range f p H)) as Hport. split.
  - unfold parse_cef, build_cef_event. fold safe. by rewrite header_fields, extension_tokens.
  - by apply event_one_line.
Qed.

(** The keys of a finding that may leave the program. *)
Definition whitelist : list string :=
  ["title"; "category"; "id"; "description"; "recommendation"; "port"; "severity"; "host"].

(** The whitelist is exact.  Two findings that agree on the eight whitelisted
    keys give the same line, whatever else they carry: certificates, keys or
    compliance data never reach an event.  The port is a number of 1..65535 or
    absent, and description and recommendation have at most 256 characters. *)
Theorem cef_event_whitelisted (f g : pydict) (version : string)
    (Hagree : forall k, k ∈ whitelist -> dict_get f k = dict_get g k) :
  build_cef_event repr f version = build_cef_event repr g version
  /\ (forall p, cf_port (to_cef_finding repr f) = Some p -> 0 < p <= 65535)
  /\ (String.length (cf_description (to_cef_finding repr f)) <= 256)%nat
  /\ (String.length (cf_recommendation (to_cef_finding repr f)) <= 256)%nat.
Proof.
  split_and!; [|apply port_range|apply str_take_length..].
  assert (Hget : forall k, k ∈ whitelist -> get f k = get g k).
  { intros k Hk. unfold get, get_or. by rewrite Hagree. }
  assert (Hsame : to_cef_finding repr f = to_cef_finding repr g).
  { unfold to_cef_finding. rewrite !(Hget "title"), (Hget "category"), (Hget "id"), (Hget "description"),
      (Hget "recommendation"), (Hget "port"), (Hget "severity"), (Hget "host")
      by (unfold whitelist; set_solver). done. }
  unfold build_cef_event. by rewrite Hsame.
Qed.
End Event.

Lemma cef_event_whitelisted_witness :
  build_cef_event (fun _ => "") [("title", VStr "t"); ("cert_pem", VStr "SECRET")] "1.0"
  = build_cef_event (fun _ => "") [("title", VStr "t")] "1.0".
Proof.
  apply (cef_event_whitelisted (fun _ => "")
           [("title", VStr "t"); ("cert_pem", VStr "SECRET")] [("title", VStr "t")] "1.0").
  intros k Hk. unfold whitelist in Hk. rewrite !elem_of_cons, elem_of_nil in Hk.
  by destruct Hk as [-> | [-> | [-> | [-> | [-> | [-> | [-> | [-> | []]]]]]]]].
Defined.

(** A title with bars, backslashes and a line break, read back. *)
Example cef_sample :
  parse_cef (build_cef_event (fun _ => "")
    [("title", VStr ("a|b\" +:+ String LF "c=d")); ("severity", VStr "high"); ("host", VStr "h 1");
     ("port", VStr "443"); ("description", VStr "x=y z")] "1.0")
  = Some (["CEF:0"; "QUIRK"; "scanner"; "1.0"; "a-b-c-d"; "a|b\c=d"; "8"],
          [("dhost", "h 1"); ("dpt", "443"); ("cs1", "a-b-c-d"); ("cs1Label", "Category");
           ("cs2", "x=y z"); ("cs2Label", "EvidenceSummary"); ("msg", "x=y z")]).
Proof. vm_compute. reflexivity. Qed.
