(* ===== verification/Deadlines.v ===== *)
(** Algorithm classes and the deadlines of the post-quantum transition
    ([cbom/classifier.py], [scanner/pqc_deadlines.py]).

    [classify_algorithm] normalises a scanner's algorithm string and looks it up
    in one table; [deadline_for_algorithm] maps the class to the deadline that
    binds it.  [CryptoPrimitive] lists the members of the CycloneDX enumeration
    the two modules name. *)
From Stdlib Require Import ZArith Lia Ascii.
From stdpp Require Import base tactics strings list.
From S2P Require Import Prelude PyVal.

Local Open Scope Z_scope.

(** * The classifier *)

Inductive CryptoPrimitive :=
| KEM | KEY_AGREE | SIGNATURE | PKE | AE | BLOCK_CIPHER | HASH | MAC | STREAM_CIPHER | UNKNOWN.

#[global] Instance CryptoPrimitive_eq_dec : EqDecision CryptoPrimitive.
Proof. solve_decision. Defined.

(** A class: the primitive, the NIST quantum level and the classical level. *)
Definition algorithm_class : Type := CryptoPrimitive * option Z * option Z.

Definition ALGORITHM_TABLE : list (string * algorithm_class) :=
  [("curve25519-sha256", (KEY_AGREE, Some 0, Some 128));
   ("ecdh-sha2-nistp256", (KEY_AGREE, Some 0, Some 128));
   ("ecdh-sha2-nistp384", (KEY_AGREE, Some 0, Some 192));
   ("ecdh-sha2-nistp521", (KEY_AGREE, Some 0, Some 256));
   ("diffie-hellman-group14-sha256", (KEY_AGREE, Some 0, Some 112));
   ("diffie-hellman-group14-sha1", (KEY_AGREE, Some 0, Some 112));
   ("diffie-hellman-group16-sha512", (KEY_AGREE, Some 0, Some 128));
   ("diffie-hellman-group-exchange-sha256", (KEY_AGREE, Some 0, Some 112));
   ("sntrup761x25519-sha512", (KEM, Some 3, Some 128));
   ("mlkem768x25519-sha256", (KEM, Some 3, Some 192)); ("x25519mlkem768", (KEM, Some 3, Some 192));
   ("diffie-hellman-group1-sha1", (KEY_AGREE, Some 0, Some 80));
   ("ssh-rsa", (SIGNATURE, Some 0, Some 112)); ("rsa-sha2-256", (SIGNATURE, Some 0, Some 112));
   ("rsa-sha2-512", (SIGNATURE, Some 0, Some 112));
   ("ecdsa-sha2-nistp256", (SIGNATURE, Some 0, Some 128));
   ("ecdsa-sha2-nistp384", (SIGNATURE, Some 0, Some 192));
   ("ssh-ed25519", (SIGNATURE, Some 0, Some 128));
   ("sk-ssh-ed25519", (SIGNATURE, Some 0, Some 128)); ("ssh-dss", (SIGNATURE, Some 0, Some 80));
   ("aes128-ctr", (BLOCK_CIPHER, Some 1, Some 128));
   ("aes192-ctr", (BLOCK_CIPHER, Some 1, Some 192));
   ("aes256-ctr", (BLOCK_CIPHER, Some 1, Some 256)); ("aes128-gcm", (AE, Some 1, Some 128));
   ("aes256-gcm", (AE, Some 1, Some 256)); ("chacha20-poly1305", (AE, Some 1, Some 256));
   ("hmac-sha2-256", (HASH, Some 0, Some 128)); ("hmac-sha2-512", (HASH, Some 2, Some 256));
   ("hmac-sha1", (HASH, Some 0, Some 80)); ("hmac-md5", (HASH, Some 0, Some 64));
   ("hmac-md5-96", (HASH, Some 0, Some 64)); ("hmac-sha1-96", (HASH, Some 0, Some 80));
   ("rsa", (PKE, Some 0, Some 112)); ("rsa-1024", (PKE, Some 0, Some 80));
   ("rsa-2048", (PKE, Some 0, Some 112)); ("rsa-3072", (PKE, Some 0, Some 128));
   ("rsa-4096", (PKE, Some 0, Some 152)); ("rsa-kex", (PKE, Some 0, Some 112));
   ("ecdsa", (SIGNATURE, Some 0, Some 128)); ("ec", (SIGNATURE, Some 0, Some 128));
   ("ed25519", (SIGNATURE, Some 0, Some 128)); ("ed448", (SIGNATURE, Some 0, Some 224));
   ("dsa", (SIGNATURE, Some 0, Some 112)); ("dh-2048", (KEY_AGREE, Some 0, Some 112));
   ("dh-4096", (KEY_AGREE, Some 0, Some 128)); ("dh-groupexchange", (KEY_AGREE, Some 0, Some 112));
   ("x25519", (KEY_AGREE, Some 0, Some 128)); ("x448", (KEY_AGREE, Some 0, Some 224));
   ("aes-256-gcm", (AE, Some 1, Some 256)); ("aes-128-gcm", (AE, Some 1, Some 128));
   ("aes-256-ccm-8", (AE, Some 1, Some 256)); ("aes-128-ccm-8", (AE, Some 1, Some 128));
   ("aes-256-ccm", (AE, Some 1, Some 256)); ("aes-128-ccm", (AE, Some 1, Some 128));
   ("aes-256-cbc", (BLOCK_CIPHER, Some 3, Some 256));
   ("aes-128-cbc", (BLOCK_CIPHER, Some 1, Some 128)); ("aes-128", (BLOCK_CIPHER, Some 1, Some 128));
   ("aes-192", (BLOCK_CIPHER, Some 1, Some 192)); ("aes-256", (BLOCK_CIPHER, Some 1, Some 256));
   ("3des", (BLOCK_CIPHER, Some 0, Some 112)); ("des", (BLOCK_CIPHER, Some 0, Some 56));
   ("blowfish", (BLOCK_CIPHER, Some 0, Some 128)); ("rc4", (STREAM_CIPHER, Some 0, Some 128));
   ("md5", (HASH, Some 0, Some 64)); ("md4", (HASH, Some 0, Some 64));
   ("aes", (BLOCK_CIPHER, Some 1, Some 128)); ("sha-1", (HASH, Some 0, Some 80));
   ("sha-256", (HASH, Some 0, Some 128)); ("sha-384", (HASH, Some 2, Some 192));
   ("sha-512", (HASH, Some 2, Some 256)); ("rs256", (SIGNATURE, Some 0, Some 112));
   ("rs384", (SIGNATURE, Some 0, Some 112)); ("rs512", (SIGNATURE, Some 0, Some 112));
   ("es256", (SIGNATURE, Some 0, Some 128)); ("es384", (SIGNATURE, Some 0, Some 192));
   ("es512", (SIGNATURE, Some 0, Some 256)); ("hs256", (MAC, Some 0, Some 128));
   ("hs384", (MAC, Some 0, Some 192)); ("hs512", (MAC, Some 0, Some 256));
   ("ps256", (SIGNATURE, Some 0, Some 112)); ("ps384", (SIGNATURE, Some 0, Some 112));
   ("ps512", (SIGNATURE, Some 0, Some 112)); ("eddsa", (SIGNATURE, Some 0, Some 128));
   ("none", (UNKNOWN, Some 0, Some 0)); ("ml-kem-512", (KEM, Some 1, Some 128));
   ("ml-kem-768", (KEM, Some 3, Some 192)); ("ml-kem-1024", (KEM, Some 5, Some 256));
   ("ml-dsa-44", (SIGNATURE, Some 2, Some 128)); ("ml-dsa-65", (SIGNATURE, Some 3, Some 192));
   ("ml-dsa-87", (SIGNATURE, Some 5, Some 256)); ("slh-dsa-128", (SIGNATURE, Some 1, Some 128));
   ("slh-dsa-192", (SIGNATURE, Some 3, Some 192)); ("slh-dsa-256", (SIGNATURE, Some 5, Some 256));
   ("sntrup761x25519", (KEM, Some 3, Some 128)); ("ml-kem-768+x25519", (KEM, Some 3, Some 192));
   ("rsamd5", (PKE, None, None)); ("rsasha1", (PKE, None, None));
   ("dsa-nsec3-sha1", (SIGNATURE, None, None)); ("rsasha1-nsec3-sha1", (PKE, None, None));
   ("rsasha256", (PKE, None, None)); ("rsasha512", (PKE, None, None));
   ("ecc-gost", (SIGNATURE, None, None)); ("ecdsap256sha256", (SIGNATURE, Some 1, Some 128));
   ("ecdsap384sha384", (SIGNATURE, Some 3, Some 192)); ("sha1", (HASH, None, None));
   ("md5withrsaencryption", (SIGNATURE, Some 0, Some 64));
   ("sha1withrsaencryption", (SIGNATURE, Some 0, Some 80));
   ("sha256withrsaencryption", (SIGNATURE, Some 0, Some 112));
   ("sha384withrsaencryption", (SIGNATURE, Some 0, Some 112));
   ("sha512withrsaencryption", (SIGNATURE, Some 0, Some 112));
   ("ecdsa-with-sha256", (SIGNATURE, Some 0, Some 128));
   ("ecdsa-with-sha384", (SIGNATURE, Some 0, Some 192));
   ("ecdsa-with-sha512", (SIGNATURE, Some 0, Some 256));
   ("des-cbc-crc", (BLOCK_CIPHER, None, None)); ("des-cbc-md4", (BLOCK_CIPHER, None, None));
   ("des-cbc-md5", (BLOCK_CIPHER, None, None));
   ("aes128-cts-hmac-sha1-96", (BLOCK_CIPHER, Some 0, Some 128));
   ("aes256-cts-hmac-sha1-96", (BLOCK_CIPHER, Some 1, Some 256));
   ("aes256-cts-hmac-sha384-192", (BLOCK_CIPHER, Some 1, Some 256));
   ("rc4-hmac", (BLOCK_CIPHER, Some 0, Some 128))].

Definition FALLBACK : algorithm_class := (UNKNOWN, None, None).

Definition is_lower (c : ascii) : bool :=
  let n := nat_of_ascii c in (97 <=? n)%nat && (n <=? 122)%nat.

(** [re.sub(r"(p)(q)", r"\1-\2", s)] for two disjoint character classes: a hyphen
    between every adjacent pair. *)
Fixpoint hyphenate (p q : ascii -> bool) (s : string) : string :=
  match s with
  | String c ((String d _) as s') =>
      if p c && q d then String c (String "-"%char (hyphenate p q s')) else String c (hyphenate p q s')
  | _ => s
  end.

(** [name.split("@")[0]] *)
Definition strip_vendor (name : string) : string :=
  (break_at (fun c => bool_decide (c = "@"%char)) name).1.

Definition classify_algorithm (name : string) : algorithm_class :=
  if negb (truthy_str (Some name)) then FALLBACK
  else
    let key := lower (strip_vendor name) in
    match alookup key ALGORITHM_TABLE with
    | Some result => result
    | None =>
        let denormalized := hyphenate is_digit is_lower (hyphenate is_lower is_digit key) in
        if negb (str_eqb denormalized key)
        then default FALLBACK (alookup denormalized ALGORITHM_TABLE)
        else FALLBACK
    end.

Definition QUANTUM_VULNERABLE : string := "quantum-vulnerable".
Definition QUANTUM_SAFE : string := "quantum-safe".

Definition quantum_safety_label (nist_level : option Z) : string :=
  match nist_level with
  | None => "unknown"
  | Some l => if l =? 0 then QUANTUM_VULNERABLE else QUANTUM_SAFE
  end.

(** The documented example of the second lookup is not found by it: both
    boundaries get a hyphen, and [aes-128-ctr] is not in the table. *)
Example compact_name_is_unknown :
  hyphenate is_digit is_lower (hyphenate is_lower is_digit "aes128ctr") = "aes-128-ctr"
  /\ classify_algorithm "aes128ctr" = FALLBACK
  /\ classify_algorithm "aes128-ctr" = (BLOCK_CIPHER, Some 1, Some 128).
Proof. vm_compute. auto. Qed.

(** * Deadlines *)

Record deadline := {
  dl_date : string;
  dl_standard : option string;
  dl_description : string;
  dl_scope : string
}.

Definition PQC_DEADLINES : list (string * deadline) :=
  [("key_establishment",
    {| dl_date := "2030-12-31"; dl_standard := Some "FIPS 203 (ML-KEM)";
       dl_description := "Transition all HVAs and high impact systems to use PQC for key establishment by December 31, 2030.";
       dl_scope := "algorithm_class" |});
   ("digital_signature",
    {| dl_date := "2031-12-31"; dl_standard := Some "FIPS 186-5 (DSS)";
       dl_description := "Transition all HVAs and high impact systems to use PQC for digital signatures by December 31, 2031.";
       dl_scope := "algorithm_class" |});
   ("nist_subset",
    {| dl_date := "2027-12-31"; dl_standard := None;
       dl_description := "An appropriate subset of NIST-owned/operated systems must complete PQC transition no later than December 31, 2027.";
       dl_scope := "organisation" |});
   ("far_contractor",
    {| dl_date := "2030-12-31"; dl_standard := None;
       dl_description := "FAR amendment requiring covered contractors to comply with NIST FIPS including all applicable FIPS incorporating PQC-compliant algorithms, by December 31, 2030.";
       dl_scope := "organisation" |})].

Definition PKE_SENTINEL : string := "_pke_disambiguation".

(** [PRIMITIVE_DEADLINE.get(primitive)]: every member has an entry. *)
Definition PRIMITIVE_DEADLINE (primitive : CryptoPrimitive) : option string :=
  match primitive with
  | KEM => Some "key_establishment"
  | KEY_AGREE => Some "key_establishment"
  | SIGNATURE => Some "digital_signature"
  | PKE => Some PKE_SENTINEL
  | AE => None
  | BLOCK_CIPHER => None
  | HASH => None
  | MAC => None
  | STREAM_CIPHER => None
  | UNKNOWN => None
  end.

Definition PKE_DISAMBIGUATION : list (string * string) :=
  [("rsa-kex", "key_establishment");
   ("rsamd5", "digital_signature");
   ("rsasha1", "digital_signature");
   ("rsasha1-nsec3-sha1", "digital_signature");
   ("rsasha256", "digital_signature");
   ("rsasha512", "digital_signature");
   ("rsa", "digital_signature");
   ("rsa-1024", "digital_signature");
   ("rsa-2048", "digital_signature");
   ("rsa-3072", "digital_signature");
   ("rsa-4096", "digital_signature")].

(** The [family] argument is accepted and not read. *)
Definition deadline_for_algorithm (algorithm : string) (family : option string) : option string :=
  let '(primitive, _, _) := classify_algorithm algorithm in
  match PRIMITIVE_DEADLINE primitive with
  | None => None
  | Some bucket =>
      if str_eqb bucket PKE_SENTINEL
      then alookup (lower (strip_vendor algorithm)) PKE_DISAMBIGUATION
      else Some bucket
  end.

(** Only the two deadlines of an algorithm class are ever returned. *)
Lemma deadline_range algorithm family b :
  deadline_for_algorithm algorithm family = Some b -> b = "key_establishment" \/ b = "digital_signature".
Proof.
  unfold deadline_for_algorithm. destruct (classify_algorithm algorithm) as [[p q] c].
  destruct p; cbn [PRIMITIVE_DEADLINE]; try done.
  - intros H. change (str_eqb _ PKE_SENTINEL) with false in H. injection H as <-. auto.
  - intros H. change (str_eqb _ PKE_SENTINEL) with false in H. injection H as <-. auto.
  - intros H. change (str_eqb _ PKE_SENTINEL) with false in H. injection H as <-. auto.
  - rewrite (proj2 (str_eqb_eq _ _)) by done. intros H%alookup_elem.
    assert (Hall : Forall (fun kv => kv.2 = "key_establishment" \/ kv.2 = "digital_signature") PKE_DISAMBIGUATION)
      by (repeat constructor; auto).
    rewrite Forall_forall in Hall. exact (Hall _ H).
Qed.
