(* ===== verification/Burndown.v ===== *)
(** The burndown against the post-quantum deadlines ([intelligence/burndown.py]).

    A read-only view of the tables of [Closure]: every fingerprint row of a scan
    is counted in each deadline bucket its endpoint's algorithms resolve to, or
    in [unmapped].  The properties state the counts, that no bucket lookup can
    fail, and that no row is lost. *)
From Stdlib Require Import ZArith Lia.
From stdpp Require Import base tactics strings list.
From S2P Require Import Prelude PyVal Model Remediation ScopeSignature Closure Deadlines.

Local Open Scope Z_scope.
Local Open Scope quirk_scope.

(** * The view *)

Definition BURNDOWN_BUCKETS : list string := ["key_establishment"; "digital_signature"; "unmapped"].
Definition UNMAPPED : string := "unmapped".

(** A bucket: [bd_states] holds its entries for [ITEM_STATES]. *)
Record bucket := {
  bd_date : option string;
  bd_standard : option string;
  bd_fingerprints : Z;
  bd_states : list (string * Z);
  bd_open_like : Z
}.

Definition empty_bucket (bucket_name : string) : bucket :=
  let catalog_entry := alookup bucket_name PQC_DEADLINES in
  {| bd_date := option_map dl_date catalog_entry;
     bd_standard := mbind dl_standard catalog_entry;
     bd_fingerprints := 0;
     bd_states := map (fun state => (state, 0)) ITEM_STATES;
     bd_open_like := 0 |}.

(** [sorted] of the set of buckets the three columns resolve to. *)
Definition resolve_buckets_for_endpoint (endpoint : option endpoint_row) : list string :=
  match endpoint with
  | None => [UNMAPPED]
  | Some e =>
      let ep := er_ep e in
      let family := family_for_protocol (ep_protocol ep) in
      let candidate_values := [ep_cert_pubkey_alg ep; ep_cert_sig_alg ep; ep_cipher_suite ep] in
      let resolve value :=
        if truthy_str value then deadline_for_algorithm (str_or_empty value) family else None in
      match sorted_strings (remove_dups (omap resolve candidate_values)) with
      | [] => [UNMAPPED]
      | resolved => resolved
      end
  end.

(** [endpoints_by_key.get((host, port))]: the last row of a key wins. *)
Definition endpoint_at (endpoints : list endpoint_row) (host : option string) (port : option Z) : option endpoint_row :=
  last (List.filter (fun e => bool_decide (Some (ep_host (er_ep e)) = host)
                              && bool_decide (Some (ep_port (er_ep e)) = port)) endpoints).

(** [bucket["fingerprints"] += 1] and the state's counters, when it is known. *)
Definition count_row (row_state : string) (b : bucket) : bucket :=
  let known := str_in row_state ITEM_STATES in
  {| bd_date := bd_date b; bd_standard := bd_standard b;
     bd_fingerprints := bd_fingerprints b + 1;
     bd_states := if known then aset row_state (default 0 (alookup row_state (bd_states b)) + 1) (bd_states b)
                  else bd_states b;
     bd_open_like := if known && str_in row_state OPEN_LIKE_STATES then bd_open_like b + 1 else bd_open_like b |}.

Definition burndown := list (string * bucket).

Definition count_in_bucket (row_state : string) (result : burndown) (bucket_name : string) : pyres burndown :=
  match alookup bucket_name result with
  | None => Raise (KeyError bucket_name)
  | Some b => Ok (aset bucket_name (count_row row_state b) result)
  end.

Definition buckets_of_row (endpoints : list endpoint_row) (fp_row : RemediationItemFingerprint) : list string :=
  resolve_buckets_for_endpoint (endpoint_at endpoints (fr_host fp_row) (fr_port fp_row)).

Definition compute_burndown (d : db) (scan_run_id : string) : pyres burndown :=
  let endpoints := endpoints_of_scan scan_run_id d in
  pfold (fun result fp_row => pfold (count_in_bucket (fr_state fp_row)) result (buckets_of_row endpoints fp_row))
        (map (fun bucket_name => (bucket_name, empty_bucket bucket_name)) BURNDOWN_BUCKETS)
        (fps_of_scan scan_run_id d).

(** * Buckets of a row *)

Lemma resolved_spec e :
  let ep := er_ep e in
  let resolved := sorted_strings (remove_dups (omap (fun value =>
      if truthy_str value then deadline_for_algorithm (str_or_empty value) (family_for_protocol (ep_protocol ep))
      else None) [ep_cert_pubkey_alg ep; ep_cert_sig_alg ep; ep_cipher_suite ep])) in
  NoDup resolved /\ Forall (fun b => b = "key_establishment" \/ b = "digital_signature") resolved.
Proof.
  cbv zeta. split.
  - unfold sorted_strings. rewrite py_sorted_perm. apply NoDup_remove_dups.
  - apply Forall_forall. intros b. rewrite elem_of_sorted_strings, elem_of_remove_dups, list_elem_of_omap.
    intros (v & _ & Hb). destruct (truthy_str v); [|done]. by eapply deadline_range.
Qed.

Lemma resolve_buckets_spec endpoint :
  NoDup (resolve_buckets_for_endpoint endpoint) /\ resolve_buckets_for_endpoint endpoint <> []
  /\ Forall (fun b => b ∈ BURNDOWN_BUCKETS) (resolve_buckets_for_endpoint endpoint).
Proof.
  assert (Hu : NoDup [UNMAPPED] /\ [UNMAPPED] <> [] /\ Forall (fun b => b ∈ BURNDOWN_BUCKETS) [UNMAPPED]).
  { split_and!; [apply NoDup_singleton|done|]. repeat constructor. }
  unfold resolve_buckets_for_endpoint. destruct endpoint as [e|]; [|done]. cbv zeta.
  pose proof (resolved_spec e) as [Hn Hr]. cbv zeta in Hn, Hr.
  destruct (sorted_strings _) as [|b bs]; [done|]. split_and!; [done..|].
  eapply Forall_impl; [exact Hr|]. intros x [->| ->]; repeat constructor.
Qed.

(** * Counting *)

(** The bucket [name] after some rows. *)
Definition add_row (endpoints : list endpoint_row) (name : string) (b : bucket) (r : RemediationItemFingerprint) : bucket :=
  if str_in name (buckets_of_row endpoints r) then count_row (fr_state r) b else b.

Lemma count_names state names g :
  NoDup names -> Forall (fun b => b ∈ BURNDOWN_BUCKETS) names ->
  pfold (count_in_bucket state) (map (fun n => (n, g n)) BURNDOWN_BUCKETS) names
  = Ok (map (fun n => (n, if str_in n names then count_row state (g n) else g n)) BURNDOWN_BUCKETS).
Proof.
  revert g. induction names as [|name names IH]; intros g Hn Hb; [done|].
  apply NoDup_cons in Hn as [Hni Hn]. apply Forall_cons in Hb as [Hname Hb].
  set (g' := fun n => if str_eqb name n then count_row state (g n) else g n).
  assert (E : count_in_bucket state (map (fun n => (n, g n)) BURNDOWN_BUCKETS) name
              = Ok (map (fun n => (n, g' n)) BURNDOWN_BUCKETS)).
  { unfold g', BURNDOWN_BUCKETS in *. rewrite !elem_of_cons in Hname.
    destruct Hname as [->|[->|[->|H]]]; [reflexivity..|by apply elem_of_nil in H]. }
  cbn [pfold]. rewrite E. cbn [pbind]. rewrite IH by done. f_equal. apply map_ext. intros n. f_equal.
  unfold g', str_in. destruct (str_eqb name n) eqn:En.
  - apply str_eqb_eq in En as <-. rewrite (bool_decide_false (name ∈ names)) by done.
    by rewrite bool_decide_true by left.
  - apply str_eqb_neq in En. rewrite (bool_decide_ext (n ∈ name :: names) (n ∈ names)); [done|].
    rewrite elem_of_cons. naive_solver.
Qed.

Lemma burndown_rows endpoints rows g :
  pfold (fun result r => pfold (count_in_bucket (fr_state r)) result (buckets_of_row endpoints r))
        (map (fun n => (n, g n)) BURNDOWN_BUCKETS) rows
  = Ok (map (fun n => (n, foldl (add_row endpoints n) (g n) rows)) BURNDOWN_BUCKETS).
Proof.
  revert g. induction rows as [|r rows IH]; intros g; [done|]. cbn [pfold].
  destruct (resolve_buckets_spec (endpoint_at endpoints (fr_host r) (fr_port r))) as (Hn & _ & Hb).
  unfold buckets_of_row at 1. rewrite count_names by done. cbn [pbind].
  exact (IH (fun n => add_row endpoints n (g n) r)).
Qed.

Definition rows_where (f : RemediationItemFingerprint -> bool) (rows : list RemediationItemFingerprint) : Z :=
  Z.of_nat (length (List.filter f rows)).

Lemma rows_where_cons f r rows :
  rows_where f (r :: rows) = (if f r then 1 else 0) + rows_where f rows.
Proof. unfold rows_where. simpl. destruct (f r); simpl; lia. Qed.

Lemma rows_where_ext f g rows : (forall r, f r = g r) -> rows_where f rows = rows_where g rows.
Proof. intros H. induction rows as [|r rows IH]; [done|]. by rewrite !rows_where_cons, H, IH. Qed.

Definition keeps (s : string) (b : bucket) : Prop := exists n, alookup s (bd_states b) = Some n.

(** What a bucket counts, whatever it started from. *)
Lemma add_rows_census endpoints name rows b :
  let b' := foldl (add_row endpoints name) b rows in
  let here r := str_in name (buckets_of_row endpoints r) in
  bd_date b' = bd_date b /\ bd_standard b' = bd_standard b
  /\ bd_fingerprints b' = bd_fingerprints b + rows_where here rows
  /\ (forall s n, s ∈ ITEM_STATES -> alookup s (bd_states b) = Some n ->
        alookup s (bd_states b') = Some (n + rows_where (fun r => here r && str_eqb (fr_state r) s) rows))
  /\ bd_open_like b' = bd_open_like b + rows_where (fun r => here r && str_in (fr_state r) OPEN_LIKE_STATES) rows.
Proof.
  cbv zeta. revert b. induction rows as [|r rows IH]; intros b.
  - unfold rows_where. simpl. split_and!; [done..|lia|intros s n _ ->; f_equal; lia|lia].
  - simpl foldl. destruct (IH (add_row endpoints name b r)) as (H1 & H2 & H3 & H4 & H5).
    unfold add_row in H1, H2, H3, H4, H5 |- *. rewrite !rows_where_cons.
    destruct (str_in name (buckets_of_row endpoints r)) eqn:Eh; simpl andb.
    + unfold count_row in H1, H2, H3, H4, H5 |- *. cbv zeta in *. simpl in H1, H2, H3, H4, H5.
      split_and!; [done..|simpl; lia| |].
      * intros s n Hs Hl. rewrite rows_where_cons, Eh. simpl.
        destruct (str_in (fr_state r) ITEM_STATES) eqn:Ek.
        -- destruct (str_eqb (fr_state r) s) eqn:Es.
           ++ apply str_eqb_eq in Es as <-. rewrite (H4 (fr_state r) (n + 1) Hs); [f_equal; lia|].
              by rewrite alookup_aset_eq, Hl.
           ++ apply str_eqb_neq in Es. rewrite (H4 s n Hs); [f_equal; lia|]. by rewrite alookup_aset_ne.
        -- destruct (str_eqb (fr_state r) s) eqn:Es.
           ++ apply str_eqb_eq in Es as <-. unfold str_in in Ek. by rewrite bool_decide_true in Ek.
           ++ rewrite (H4 s n Hs Hl). f_equal; lia.
      * simpl in H5 |- *. rewrite H5. destruct (str_in (fr_state r) OPEN_LIKE_STATES) eqn:Eo.
        -- assert (Ek : str_in (fr_state r) ITEM_STATES = true).
           { unfold str_in in *. apply bool_decide_eq_true in Eo. apply bool_decide_eq_true.
             unfold OPEN_LIKE_STATES, ITEM_STATES in *. rewrite !elem_of_cons in *. naive_solver. }
           rewrite Ek. simpl. lia.
        -- rewrite andb_false_r. lia.
    + split_and!; [done..|simpl; lia| |rewrite H5; lia].
      intros s n Hs Hl. rewrite rows_where_cons, Eh. simpl. rewrite (H4 s n Hs Hl). f_equal.
Qed.

(** * Which rows a bucket is due *)

(** Some column of the row's endpoint names an algorithm of the deadline [name]. *)
Definition due (endpoints : list endpoint_row) (r : RemediationItemFingerprint) (name : string) : Prop :=
  exists e v, endpoint_at endpoints (fr_host r) (fr_port r) = Some e
              /\ Some v ∈ [ep_cert_pubkey_alg (er_ep e); ep_cert_sig_alg (er_ep e); ep_cipher_suite (er_ep e)]
              /\ deadline_for_algorithm v (family_for_protocol (ep_protocol (er_ep e))) = Some name.

Lemma deadline_empty family : deadline_for_algorithm "" family = None.
Proof. reflexivity. Qed.

Lemma buckets_due endpoints r name :
  name ∈ buckets_of_row endpoints r <->
  due endpoints r name \/ (name = UNMAPPED /\ forall n, ~ due endpoints r n).
Proof.
  assert (Hcol : forall e n, endpoint_at endpoints (fr_host r) (fr_port r) = Some e ->
    n ∈ sorted_strings (remove_dups (omap (fun value => if truthy_str value
          then deadline_for_algorithm (str_or_empty value) (family_for_protocol (ep_protocol (er_ep e))) else None)
        [ep_cert_pubkey_alg (er_ep e); ep_cert_sig_alg (er_ep e); ep_cipher_suite (er_ep e)]))
    <-> due endpoints r n).
  { intros e n He. rewrite elem_of_sorted_strings, elem_of_remove_dups, list_elem_of_omap. unfold due. split.
    - intros ([v|] & Hv & Hd); [|done]. destruct (truthy_str (Some v)); [|done]. eauto.
    - intros (e' & v & He' & Hv & Hd). replace e' with e in * by congruence. exists (Some v). split; [done|].
      destruct v as [|c v]; [by rewrite deadline_empty in Hd|done]. }
  unfold buckets_of_row, resolve_buckets_for_endpoint.
  destruct (endpoint_at endpoints (fr_host r) (fr_port r)) as [e|] eqn:He.
  - cbv zeta. specialize (fun n => Hcol e n eq_refl). destruct (sorted_strings _) as [|b bs].
    + rewrite list_elem_of_singleton. split.
      * intros ->. right. split; [done|]. intros n Hn%Hcol. by apply elem_of_nil in Hn.
      * intros [Hn%Hcol|[-> _]]; [by apply elem_of_nil in Hn|done].
    + rewrite Hcol. split; [by left|]. intros [Hn|[_ Hn]]; [done|]. exfalso. apply (Hn b), Hcol. left.
  - rewrite list_elem_of_singleton. split.
    + intros ->. right. split; [done|]. intros n (e & v & He' & _). congruence.
    + intros [(e & v & He' & _)|[-> _]]; [congruence|done].
Qed.

(** No row is lost: together the buckets count at least every row. *)
Lemma buckets_cover endpoints f rows :
  rows_where f rows <= foldr Z.add 0 (map (fun n => rows_where (fun r => str_in n (buckets_of_row endpoints r) && f r) rows) BURNDOWN_BUCKETS).
Proof.
  simpl. induction rows as [|r rows IH]; [by vm_compute|]. rewrite !rows_where_cons.
  assert (Hr : (if f r then 1 else 0)
    <= (if str_in "key_establishment" (buckets_of_row endpoints r) && f r then 1 else 0)
       + (if str_in "digital_signature" (buckets_of_row endpoints r) && f r then 1 else 0)
       + (if str_in "unmapped" (buckets_of_row endpoints r) && f r then 1 else 0)).
  { destruct (f r); [|by rewrite !andb_false_r]. rewrite !andb_true_r.
    destruct (resolve_buckets_spec (endpoint_at endpoints (fr_host r) (fr_port r))) as (_ & Hne & Hb).
    fold (buckets_of_row endpoints r) in Hne, Hb. destruct (buckets_of_row endpoints r) as [|b bs]; [done|].
    apply Forall_cons in Hb as [Hb _]. unfold BURNDOWN_BUCKETS in Hb. rewrite !elem_of_cons in Hb.
    assert (Hin : str_in b (b :: bs) = true) by (apply bool_decide_eq_true; left).
    destruct Hb as [->|[->|[->|Hb]]]; [..|by apply elem_of_nil in Hb]; rewrite Hin; split_ifs; lia. }
  lia.
Qed.

(** * Properties *)

(** C39: The burndown is a census of the scan's fingerprint rows.  It is always
    computed, with its three buckets in order; a bucket counts exactly the rows
    whose endpoint has a column naming an algorithm of that deadline
    ([unmapped]: none), by state and in total, under the catalogue's date; and
    together the buckets lose no row, so their open counts are at least the open
    count that closure reports. *)
Theorem burndown_is_census d scan :
  let endpoints := endpoints_of_scan scan d in
  let rows := fps_of_scan scan d in
  exists result here,
    compute_burndown d scan = Ok result
    /\ map fst result = BURNDOWN_BUCKETS
    /\ (forall name r, here name r = true <->
          due endpoints r name \/ (name = UNMAPPED /\ forall n, ~ due endpoints r n))
    /\ (forall name b, (name, b) ∈ result ->
          bd_date b = option_map dl_date (alookup name PQC_DEADLINES)
          /\ bd_fingerprints b = rows_where (here name) rows
          /\ (forall s, s ∈ ITEM_STATES ->
                alookup s (bd_states b) = Some (rows_where (fun r => here name r && str_eqb (fr_state r) s) rows))
          /\ bd_open_like b = rows_where (fun r => here name r && str_in (fr_state r) OPEN_LIKE_STATES) rows)
    /\ rows_where (fun r => str_in (fr_state r) OPEN_LIKE_STATES) rows
       <= foldr Z.add 0 (map (fun nb => bd_open_like nb.2) result)
    /\ Z.of_nat (length rows) <= foldr Z.add 0 (map (fun nb => bd_fingerprints nb.2) result).
Proof.
  intros endpoints rows. set (here := fun name r => str_in name (buckets_of_row endpoints r)).
  set (final := fun n => foldl (add_row endpoints n) (empty_bucket n) rows).
  assert (Hcensus : forall n, let b := final n in
    bd_date b = option_map dl_date (alookup n PQC_DEADLINES) /\ bd_fingerprints b = rows_where (here n) rows
    /\ (forall s, s ∈ ITEM_STATES ->
          alookup s (bd_states b) = Some (rows_where (fun r => here n r && str_eqb (fr_state r) s) rows))
    /\ bd_open_like b = rows_where (fun r => here n r && str_in (fr_state r) OPEN_LIKE_STATES) rows).
  { intros n. destruct (add_rows_census endpoints n rows (empty_bucket n)) as (H1 & _ & H3 & H4 & H5).
    split_and!; [done..| |done]. intros s Hs. apply (H4 s 0 Hs).
    unfold ITEM_STATES in Hs. rewrite !elem_of_cons in Hs.
    destruct Hs as [->|[->|[->|[->|Hs]]]]; [reflexivity..|by apply elem_of_nil in Hs]. }
  exists (map (fun n => (n, final n)) BURNDOWN_BUCKETS), here. split_and!.
  - apply burndown_rows.
  - done.
  - intros name r. unfold here, str_in. rewrite bool_decide_eq_true. apply buckets_due.
  - intros name b (n & [= -> ->] & _)%list_elem_of_fmap. apply Hcensus.
  - pose proof (buckets_cover endpoints (fun r => str_in (fr_state r) OPEN_LIKE_STATES) rows) as H.
    simpl in H |- *. destruct (Hcensus "key_establishment") as (_ & _ & _ & ->).
    destruct (Hcensus "digital_signature") as (_ & _ & _ & ->). destruct (Hcensus "unmapped") as (_ & _ & _ & ->). exact H.
  - pose proof (buckets_cover endpoints (fun _ => true) rows) as H.
    assert (Ht : rows_where (fun _ => true) rows = Z.of_nat (length rows)).
    { clear. induction rows as [|r rows IH]; [done|]. rewrite rows_where_cons, IH. simpl length. lia. }
    rewrite Ht in H. simpl in H |- *. destruct (Hcensus "key_establishment") as (_ & -> & _).
    destruct (Hcensus "digital_signature") as (_ & -> & _). destruct (Hcensus "unmapped") as (_ & -> & _).
    unfold here. erewrite !(rows_where_ext (fun r => str_in _ _ && true)) in H by (intros; apply andb_true_r). exact H.
Qed.

(** * Observations *)

(** Cipher-suite names as the TLS scanners store them name no deadline: no
    endpoint reaches [key_establishment] through its cipher suite. *)
Example tls_cipher_suites_have_no_deadline :
  map (fun name => deadline_for_algorithm name (Some "tls"))
      ["TLS_RSA_WITH_AES_256_GCM_SHA384"; "TLS_ECDHE_RSA_WITH_AES_256_GCM_SHA384"; "AES256-SHA";
       "ECDHE-RSA-AES256-GCM-SHA384"; "TLS_AES_256_GCM_SHA384"; "SSH"]
  = repeat None 6.
Proof. vm_compute. reflexivity. Qed.

(** Post-quantum algorithms are due like the ones they replace. *)
Example post_quantum_is_due :
  (deadline_for_algorithm "X25519MLKEM768" None, deadline_for_algorithm "ML-DSA-65" None)
  = (Some "key_establishment", Some "digital_signature")
  /\ quantum_safety_label (classify_algorithm "X25519MLKEM768").1.2 = QUANTUM_SAFE.
Proof. vm_compute. auto. Qed.

Definition observed (ep : CryptoEndpoint) : endpoint_row :=
  {| er_ep := ep; er_text := fun _ => None; er_flag := fun _ => None |}.

Definition rsa_row : endpoint_row :=
  observed {| ep_host := "h"; ep_port := 443; ep_protocol := Some "TLS"; ep_scanned_at := None;
     ep_tls_version := None; ep_cipher_suite := None; ep_cert_subject := None;
     ep_cert_issuer := None; ep_cert_sig_alg := None; ep_cert_pubkey_alg := Some "RSA";
     ep_cert_pubkey_size := None; ep_cert_spki_fingerprint := None; ep_cert_not_after := None;
     ep_scan_error := None; ep_tls_blocker_reason := None; ep_service_detail := None;
     ep_tls_supported_versions := None; ep_severity := None; ep_scan_run_id := Some "s" |}.

Definition http_row : endpoint_row := observed (bare_endpoint "h" 443 "HTTP").

(** Of two rows of one address only the last is consulted. *)
Example last_row_hides_algorithms :
  resolve_buckets_for_endpoint (endpoint_at [http_row; rsa_row] (Some "h") (Some 443)) = ["digital_signature"]
  /\ resolve_buckets_for_endpoint (endpoint_at [rsa_row; http_row] (Some "h") (Some 443)) = [UNMAPPED].
Proof. vm_compute. auto. Qed.
