(* ===== verification/KeyReuse.v ===== *)
(** Key reuse between TLS endpoints ([intelligence/key_reuse.py]) and the edges
    the exposure map draws from it ([derive_key_reuse_edges] of
    [intelligence/exposure_map.py]).

    Queries over the endpoint table of [Closure]; rows that tie in an ORDER BY
    keep the table's order. *)
From Stdlib Require Import ZArith Lia.
From stdpp Require Import base tactics sets strings list pretty.
From S2P Require Import Prelude PyVal Model Closure.

Local Open Scope Z_scope.

(** * Clusters *)

Record cluster := {
  cl_fingerprint : string;
  cl_member_count : Z;
  cl_cert_subject : option string;
  cl_cert_pubkey_alg : option string;
  cl_cert_pubkey_size : option Z;
  cl_members : list (string * Z)
}.

Record key_reuse := {
  kr_clusters : list cluster;
  kr_fingerprinted : Z;
  kr_total : Z
}.

(** [_in_scope], and the two filters the four queries share. *)
Definition in_scope (scan_run_id : option string) (e : endpoint_row) : bool :=
  match scan_run_id with
  | None => true
  | Some s => bool_decide (ep_scan_run_id (er_ep e) = Some s)
  end.

Definition is_tls (e : endpoint_row) : bool := bool_decide (ep_protocol (er_ep e) = Some "TLS").

Definition fp_of (e : endpoint_row) : option string := ep_cert_spki_fingerprint (er_ep e).

Definition tls_rows (scan_run_id : option string) (d : db) : list endpoint_row :=
  List.filter (fun e => is_tls e && in_scope scan_run_id e) (db_endpoints d).

Definition rows_with (fp : string) (rows : list endpoint_row) : list endpoint_row :=
  List.filter (fun e => bool_decide (fp_of e = Some fp)) rows.

Definition count_rows (rows : list endpoint_row) : Z := Z.of_nat (length rows).

(** [order_by(count desc, fingerprint asc)] *)
Definition bigger_first (a b : string * Z) : bool :=
  lex Z.eqb (fun x y => y <=? x) a.2 b.2 (str_leb a.1 b.1).

(** [group_by(fingerprint).having(count >= 2).order_by(...)] *)
Definition dupe_fingerprints (rows : list endpoint_row) : list (string * Z) :=
  py_sorted bigger_first
    (List.filter (fun g => 2 <=? g.2)
      (map (fun fp => (fp, count_rows (rows_with fp rows))) (remove_dups (omap fp_of rows)))).

Definition address (e : endpoint_row) : string * Z := (ep_host (er_ep e), ep_port (er_ep e)).

(** [order_by(host asc, port asc)] *)
Definition by_address (a b : endpoint_row) : bool :=
  lex str_eqb str_leb (ep_host (er_ep a)) (ep_host (er_ep b)) (ep_port (er_ep a) <=? ep_port (er_ep b)).

Definition cluster_of (rows : list endpoint_row) (g : string * Z) : cluster :=
  let members := py_sorted by_address (rows_with g.1 rows) in
  let identity := head members in
  {| cl_fingerprint := g.1;
     cl_member_count := g.2;
     cl_cert_subject := mbind (fun e => ep_cert_subject (er_ep e)) identity;
     cl_cert_pubkey_alg := mbind (fun e => ep_cert_pubkey_alg (er_ep e)) identity;
     cl_cert_pubkey_size := mbind (fun e => ep_cert_pubkey_size (er_ep e)) identity;
     cl_members := map address members |}.

Definition compute_key_reuse_clusters (d : db) (scan_run_id : option string) : key_reuse :=
  let rows := tls_rows scan_run_id d in
  {| kr_clusters := map (cluster_of rows) (dupe_fingerprints rows);
     kr_fingerprinted := count_rows (List.filter (fun e => bool_decide (is_Some (fp_of e))) rows);
     kr_total := count_rows rows |}.

(** * Edges *)

Record edge := {
  eg_source : string;
  eg_target : string;
  eg_type : string;
  eg_evidence : string
}.

(** [f"{host}:{port}"] *)
Definition node_id (a : string * Z) : string := a.1 +:+ ":" +:+ pretty a.2.

(** [for i in range(n): for j in range(i + 1, n)] *)
Fixpoint all_pairs {A} (l : list A) : list (A * A) :=
  match l with
  | [] => []
  | a :: l' => map (pair a) l' ++ all_pairs l'
  end.

Definition sorted_pair (a b : string) : string * string := if str_leb a b then (a, b) else (b, a).

Definition key_reuse_evidence (fingerprint : string) : string :=
  "Key reuse: these endpoints share SPKI fingerprint " +:+ String.substring 0 12 fingerprint
  +:+ ". Source: Phase 191 key-reuse derivation.".

Definition edge_state : Type := list edge * list (string * string).

Definition add_edge (evidence : string) (st : edge_state) (ab : (string * Z) * (string * Z)) : edge_state :=
  let '(edges, seen_pairs) := st in
  let source := node_id ab.1 in
  let target := node_id ab.2 in
  if str_eqb source target then st
  else
    let pair_key := sorted_pair source target in
    if bool_decide (pair_key ∈ seen_pairs) then st
    else (edges ++ [{| eg_source := source; eg_target := target; eg_type := "key_reuse"; eg_evidence := evidence |}],
          pair_key :: seen_pairs).

Definition add_cluster (st : edge_state) (c : cluster) : edge_state :=
  foldl (add_edge (key_reuse_evidence (cl_fingerprint c))) st (all_pairs (cl_members c)).

Definition derive_key_reuse_edges (d : db) (scan_run_id : option string) : list edge :=
  (foldl add_cluster ([], []) (kr_clusters (compute_key_reuse_clusters d scan_run_id))).1.

(** * Clusters *)

Lemma elem_of_rows_with fp rows e : e ∈ rows_with fp rows <-> e ∈ rows /\ fp_of e = Some fp.
Proof. unfold rows_with. rewrite !list_elem_of_In, filter_In, bool_decide_eq_true. done. Qed.

Lemma bigger_first_total a b : bigger_first a b = true \/ bigger_first b a = true.
Proof.
  unfold bigger_first, lex. destruct (Z.eqb_spec a.2 b.2) as [E|E].
  - rewrite (proj2 (Z.eqb_eq b.2 a.2)) by done. apply str_leb_total.
  - rewrite (proj2 (Z.eqb_neq b.2 a.2)) by done. lia.
Qed.

Lemma bigger_first_trans a b c : bigger_first a b = true -> bigger_first b c = true -> bigger_first a c = true.
Proof.
  unfold bigger_first, lex. destruct (Z.eqb_spec a.2 b.2), (Z.eqb_spec b.2 c.2), (Z.eqb_spec a.2 c.2);
    try lia; intros; try done; try lia. by eapply str_leb_trans.
Qed.

Lemma elem_of_dupes rows fp n :
  (fp, n) ∈ dupe_fingerprints rows <-> n = count_rows (rows_with fp rows) /\ 2 <= n.
Proof.
  unfold dupe_fingerprints. rewrite py_sorted_perm, list_elem_of_In, filter_In, in_map_iff. simpl.
  setoid_rewrite <- list_elem_of_In. setoid_rewrite elem_of_remove_dups. rewrite Z.leb_le. split.
  - intros [(fp' & [= -> <-] & _) Hn]. done.
  - intros [-> Hn]. split; [|done]. exists fp. split; [done|]. apply list_elem_of_omap.
    destruct (rows_with fp rows) as [|e es] eqn:E; [unfold count_rows in Hn; simpl in Hn; lia|].
    assert (He : e ∈ rows_with fp rows) by (rewrite E; left). apply elem_of_rows_with in He. eauto.
Qed.

Lemma dupes_nodup rows : NoDup (map fst (dupe_fingerprints rows)).
Proof.
  unfold dupe_fingerprints. rewrite py_sorted_perm. generalize (NoDup_remove_dups (omap fp_of rows)).
  induction 1 as [|fp fps Hfp Hn IH]; simpl; [constructor|]. destruct (2 <=? _); simpl; [|done].
  constructor; [|done]. rewrite list_elem_of_In, in_map_iff. intros (g & Hg & Hin).
  apply filter_In in Hin as [Hin _]. apply in_map_iff in Hin as (fp' & <- & Hin). simpl in Hg. subst.
  by apply Hfp, list_elem_of_In.
Qed.

Lemma cluster_members rows g : cl_members (cluster_of rows g) ≡ₚ map address (rows_with g.1 rows).
Proof. simpl. by rewrite py_sorted_perm. Qed.

Lemma elem_of_cluster rows g a :
  a ∈ cl_members (cluster_of rows g) <-> exists e, e ∈ rows /\ fp_of e = Some g.1 /\ a = address e.
Proof.
  rewrite cluster_members, list_elem_of_fmap. setoid_rewrite elem_of_rows_with. naive_solver.
Qed.

(** * Pairs *)

Lemma all_pairs_sub {A} (l : list A) a b : (a, b) ∈ all_pairs l -> a ∈ l /\ b ∈ l.
Proof.
  induction l as [|x l IH]; simpl; [by intros H%elem_of_nil|]. intros [(y & [= -> ->] & Hy)%list_elem_of_fmap|H]%elem_of_app.
  - split; [left|by right].
  - destruct (IH H). split; by right.
Qed.

Lemma all_pairs_complete {A} (l : list A) a b :
  a ∈ l -> b ∈ l -> a <> b -> (a, b) ∈ all_pairs l \/ (b, a) ∈ all_pairs l.
Proof.
  induction l as [|x l IH]; simpl; [by intros H%elem_of_nil|].
  rewrite !elem_of_cons, !elem_of_app, !list_elem_of_fmap. intros [->|Ha] [->|Hb] Hne; [done|eauto..|].
  destruct (IH Ha Hb Hne); auto.
Qed.

Lemma sorted_pair_comm a b : sorted_pair a b = sorted_pair b a.
Proof.
  unfold sorted_pair. destruct (str_leb a b) eqn:E1, (str_leb b a) eqn:E2; try done.
  - by rewrite (str_leb_antisym a b).
  - destruct (str_leb_total a b); congruence.
Qed.

Lemma sorted_pair_inj a b c d : sorted_pair a b = sorted_pair c d -> (a = c /\ b = d) \/ (a = d /\ b = c).
Proof. unfold sorted_pair. destruct (str_leb a b), (str_leb c d); intros [= -> ->]; auto. Qed.

(** ** The deduplicating fold *)

Definition pair_of (e : edge) : string * string := sorted_pair (eg_source e) (eg_target e).

(** The pairs of all clusters, each with its evidence. *)
Definition cited_pairs (cs : list cluster) : list (string * ((string * Z) * (string * Z))) :=
  List.flat_map (fun c => map (pair (key_reuse_evidence (cl_fingerprint c))) (all_pairs (cl_members c))) cs.

Lemma fold_clusters cs st :
  foldl add_cluster st cs = foldl (fun st p => add_edge p.1 st p.2) st (cited_pairs cs).
Proof.
  revert st. induction cs as [|c cs IH]; intros st; simpl; [done|]. rewrite IH, foldl_app. f_equal.
  unfold add_cluster. generalize st. induction (all_pairs (cl_members c)) as [|p ps IHp]; intros st'; simpl; [done|]. apply IHp.
Qed.

(** The edge of a cited pair, and that it is in the result or a duplicate is. *)
Definition edge_for (p : string * ((string * Z) * (string * Z))) (e : edge) : Prop :=
  eg_source e = node_id p.2.1 /\ eg_target e = node_id p.2.2 /\ eg_source e <> eg_target e
  /\ eg_evidence e = p.1 /\ eg_type e = "key_reuse".

Definition edges_ok (ps : list (string * ((string * Z) * (string * Z)))) (st : edge_state) : Prop :=
  NoDup (map pair_of st.1) /\ (forall k, k ∈ st.2 <-> k ∈ map pair_of st.1)
  /\ (forall e, e ∈ st.1 -> exists p, p ∈ ps /\ edge_for p e)
  /\ (forall p, p ∈ ps -> node_id p.2.1 <> node_id p.2.2 ->
        sorted_pair (node_id p.2.1) (node_id p.2.2) ∈ map pair_of st.1).

Lemma add_edge_ok ps st p : edges_ok ps st -> edges_ok (ps ++ [p]) (add_edge p.1 st p.2).
Proof.
  destruct st as [edges seen]. intros (H1 & H2 & H3 & H4). simpl in *.
  assert (H3' : forall e, e ∈ edges -> exists p0, p0 ∈ ps ++ [p] /\ edge_for p0 e).
  { intros e He. destruct (H3 e He) as (p0 & Hp & Hf). exists p0. split; [|done]. apply elem_of_app. by left. }
  unfold add_edge. cbv zeta. destruct (str_eqb _ _) eqn:E; [|case_bool_decide as Hin].
  - apply str_eqb_eq in E. split_and!; [done..|]. simpl. intros p0 [Hp|Hp]%elem_of_app Hne; [by apply H4|].
    apply list_elem_of_singleton in Hp. by subst.
  - split_and!; [done..|]. simpl. intros p0 [Hp|Hp]%elem_of_app Hne; [by apply H4|].
    apply list_elem_of_singleton in Hp. subst. by apply H2.
  - apply str_eqb_neq in E. split_and!; simpl.
    + rewrite map_app. apply NoDup_app. split_and!; [done| |apply NoDup_singleton].
      intros k Hk Hk'%list_elem_of_singleton. subst. by apply Hin, H2.
    + intros k. rewrite map_app. cbn [map]. rewrite elem_of_cons, elem_of_app, list_elem_of_singleton, H2. unfold pair_of at 3. simpl. naive_solver.
    + intros e [He|He]%elem_of_app; [by apply H3'|]. apply list_elem_of_singleton in He. subst.
      exists p. split; [apply elem_of_app; right; left|done].
    + intros p0 [Hp|Hp]%elem_of_app Hne; rewrite map_app, elem_of_app; [left; by apply H4|].
      apply list_elem_of_singleton in Hp. subst. right. left.
Qed.

Lemma edges_spec ps : edges_ok ps (foldl (fun st p => add_edge p.1 st p.2) ([], []) ps).
Proof.
  induction ps as [|p ps IH] using rev_ind.
  - split_and!; simpl; [constructor|done|by intros e He%elem_of_nil|by intros p Hp%elem_of_nil].
  - rewrite foldl_app. simpl. by apply add_edge_ok.
Qed.

(** * Properties *)

Lemma kr_clusters_spec d scan c :
  c ∈ kr_clusters (compute_key_reuse_clusters d scan) <->
  exists n, (cl_fingerprint c, n) ∈ dupe_fingerprints (tls_rows scan d)
            /\ c = cluster_of (tls_rows scan d) (cl_fingerprint c, n).
Proof.
  simpl. rewrite list_elem_of_fmap. split.
  - intros ([fp n] & -> & H). exists n. done.
  - intros (n & H & E). eexists. done.
Qed.

Lemma by_address_total a b : by_address a b = true \/ by_address b a = true.
Proof.
  unfold by_address, lex. destruct (str_eqb (ep_host (er_ep a)) (ep_host (er_ep b))) eqn:E.
  - apply str_eqb_eq in E. rewrite E, (proj2 (str_eqb_eq _ _)) by done. lia.
  - apply str_eqb_neq in E. rewrite (proj2 (str_eqb_neq _ _)) by done. apply str_leb_total.
Qed.

(** Key reuse is reported exactly.  Within a scan (or across all scans) there
    is one cluster for every fingerprint that two or more TLS rows carry and none
    for a NULL fingerprint; a cluster lists exactly those rows, as many as it
    counts; clusters come largest first, then by fingerprint. *)
Theorem key_reuse_clusters_exact d scan :
  let rows := tls_rows scan d in
  let clusters := kr_clusters (compute_key_reuse_clusters d scan) in
  NoDup (map cl_fingerprint clusters)
  /\ sorted_by bigger_first (map (fun c => (cl_fingerprint c, cl_member_count c)) clusters)
  /\ (forall fp, fp ∈ map cl_fingerprint clusters <-> 2 <= count_rows (rows_with fp rows))
  /\ (forall c, c ∈ clusters ->
        cl_members c ≡ₚ map address (rows_with (cl_fingerprint c) rows)
        /\ cl_member_count c = Z.of_nat (length (cl_members c))).
Proof.
  cbv zeta. set (rows := tls_rows scan d).
  assert (Efp : map cl_fingerprint (kr_clusters (compute_key_reuse_clusters d scan)) = map fst (dupe_fingerprints rows)).
  { simpl. by rewrite map_map. }
  rewrite Efp. split_and!.
  - apply dupes_nodup.
  - simpl. rewrite map_map. rewrite (map_ext _ (fun g => g)) by (intros [fp n]; reflexivity). rewrite map_id.
    apply py_sorted_sorted; [apply bigger_first_total|apply bigger_first_trans].
  - intros fp. rewrite list_elem_of_fmap. split.
    + intros ([fp' n] & -> & [-> Hn]%elem_of_dupes). done.
    + intros Hn. exists (fp, count_rows (rows_with fp rows)). split; [done|]. by apply elem_of_dupes.
  - intros c (n & Hn & ->)%kr_clusters_spec. apply elem_of_dupes in Hn as [-> _]. split; [apply cluster_members|].
    unfold count_rows. by rewrite cluster_members, length_map.
Qed.

Lemma derive_key_reuse_ok d scan :
  exists seen, edges_ok (cited_pairs (kr_clusters (compute_key_reuse_clusters d scan)))
                        (derive_key_reuse_edges d scan, seen).
Proof.
  unfold derive_key_reuse_edges. rewrite fold_clusters.
  pose proof (edges_spec (cited_pairs (kr_clusters (compute_key_reuse_clusters d scan)))) as Hok.
  match type of Hok with edges_ok _ ?st => destruct st as [edges seen] end. by exists seen.
Qed.

(** An edge cites a fingerprint that the TLS rows at its ends share. *)
Lemma key_reuse_edge_sound d scan e :
  e ∈ derive_key_reuse_edges d scan ->
  eg_type e = "key_reuse" /\ eg_source e <> eg_target e
  /\ exists a b fp, a ∈ tls_rows scan d /\ b ∈ tls_rows scan d /\ fp_of a = Some fp /\ fp_of b = Some fp
       /\ eg_source e = node_id (address a) /\ eg_target e = node_id (address b)
       /\ eg_evidence e = key_reuse_evidence fp.
Proof.
  destruct (derive_key_reuse_ok d scan) as (seen & _ & _ & H3 & _). intros He.
  destruct (H3 e He) as ([ev [a b]] & Hp & (Hs & Ht & Hne & Hev & Hty)). split_and!; [done..|].
  apply list_elem_of_In, in_flat_map in Hp as (c & Hc & Hp). apply in_map_iff in Hp as (ab & [= <- ->] & Hp).
  apply list_elem_of_In in Hc, Hp. apply all_pairs_sub in Hp as [Hin1 Hin2].
  apply kr_clusters_spec in Hc as (n & _ & Ec). rewrite Ec in Hin1, Hin2.
  apply elem_of_cluster in Hin1 as (ra & Hra & Hfa & ->), Hin2 as (rb & Hrb & Hfb & ->).
  exists ra, rb, (cl_fingerprint c). done.
Qed.

(** The key-reuse edges are exactly the verified ones.  An edge joins two
    distinct node ids and cites a fingerprint both their TLS rows carry in the
    scan; any two rows in the scan with one fingerprint and distinct node ids
    are joined; and no pair of nodes is joined twice, in either direction. *)
Theorem key_reuse_edges_exact d scan :
  let edges := derive_key_reuse_edges d scan in
  let shares a b fp := a ∈ tls_rows scan d /\ b ∈ tls_rows scan d /\ fp_of a = Some fp /\ fp_of b = Some fp in
  (forall e, e ∈ edges ->
     eg_source e <> eg_target e
     /\ exists a b fp, shares a b fp /\ eg_source e = node_id (address a) /\ eg_target e = node_id (address b)
                       /\ eg_evidence e = key_reuse_evidence fp)
  /\ (forall a b fp, shares a b fp -> node_id (address a) <> node_id (address b) ->
        exists e, e ∈ edges /\ pair_of e = sorted_pair (node_id (address a)) (node_id (address b)))
  /\ NoDup (map pair_of edges).
Proof.
  cbv zeta. set (rows := tls_rows scan d). set (cs := kr_clusters (compute_key_reuse_clusters d scan)).
  destruct (derive_key_reuse_ok d scan) as (seen & H1 & _ & _ & H4). simpl in H1, H4.
  split_and!; [|intros a b fp (Ha & Hb & Hfa & Hfb) Hne|done].
  - intros e He. destruct (key_reuse_edge_sound d scan e He) as (_ & Hne & a & b & fp & ? & ? & ? & ? & ? & ? & ?).
    split; [done|]. exists a, b, fp. done.
  - assert (Hn : 2 <= count_rows (rows_with fp rows)).
    { assert (Hna : a <> b) by congruence.
      assert (Ha' : a ∈ rows_with fp rows) by by apply elem_of_rows_with.
      assert (Hb' : b ∈ rows_with fp rows) by by apply elem_of_rows_with.
      unfold count_rows. destruct (rows_with fp rows) as [|x [|y l]]; simpl; [by apply elem_of_nil in Ha'| |lia].
      apply list_elem_of_singleton in Ha', Hb'. congruence. }
    set (c := cluster_of rows (fp, count_rows (rows_with fp rows))).
    assert (Hc : c ∈ cs).
    { apply list_elem_of_fmap. eexists. split; [done|]. by apply elem_of_dupes. }
    assert (Hpair : forall x y, (x, y) ∈ all_pairs (cl_members c) -> (key_reuse_evidence fp, (x, y)) ∈ cited_pairs cs).
    { intros x y Hxy. apply list_elem_of_In, in_flat_map. exists c. split; [by apply list_elem_of_In|].
      apply in_map_iff. exists (x, y). split; [done|]. by apply list_elem_of_In. }
    assert (Hma : address a ∈ cl_members c) by (apply elem_of_cluster; eauto).
    assert (Hmb : address b ∈ cl_members c) by (apply elem_of_cluster; eauto).
    destruct (all_pairs_complete (cl_members c) (address a) (address b) Hma Hmb) as [Hp|Hp]; [congruence|..].
    + specialize (H4 _ (Hpair _ _ Hp) Hne). apply list_elem_of_fmap in H4 as (e & He & Hin). eauto.
    + specialize (H4 _ (Hpair _ _ Hp) (not_eq_sym Hne)). simpl in H4. rewrite sorted_pair_comm in H4.
      apply list_elem_of_fmap in H4 as (e & He & Hin). eauto.
Qed.
