(* ===== verification/Bridge.v ===== *)
(** Crypto bridges between hardware devices ([cbom/bridge.py]).

    A post-quantum capable gateway and a legacy backend of one /24 form a
    candidate pair; only an address in the gateway's stored ARP evidence
    confirms it.  [json.loads] is a parameter, [None] where it raises
    [ValueError]. *)
From Stdlib Require Import ZArith Lia Ascii.
From stdpp Require Import base tactics strings list.
From S2P Require Import Prelude PyVal.

Local Open Scope Z_scope.
Local Open Scope quirk_scope.

Section Bridge.
Context (loads : string -> option pyval).

(** * Devices *)

(** A device dictionary; [hw_bridge] is its transient [bridge_status]. *)
Record hw_device := {
  hw_host : string;
  hw_pqc_status : string;
  hw_evidence : option string;
  hw_bridge : option string
}.

#[local] Instance hw_device_eq_dec : EqDecision hw_device.
Proof. solve_decision. Defined.

Definition with_bridge (s : option string) (dev : hw_device) : hw_device :=
  {| hw_host := hw_host dev; hw_pqc_status := hw_pqc_status dev; hw_evidence := hw_evidence dev; hw_bridge := s |}.

Definition PQC_CAPABLE : list string := ["partial"; "supported"].
Definition LEGACY_STATUS : list string := ["unsupported"; "vendor-silent"; "unknown"].

Definition capable (dev : hw_device) : bool := str_in (lower (hw_pqc_status dev)) PQC_CAPABLE.
Definition legacy (dev : hw_device) : bool := str_in (lower (hw_pqc_status dev)) LEGACY_STATUS.

(** [str.isdigit]: the superscripts two, three and one are digits to it, and
    not to [int]. *)
Definition digit_like (c : ascii) : bool :=
  let n := nat_of_ascii c in is_digit c || (n =? 178)%nat || (n =? 179)%nat || (n =? 185)%nat.

Fixpoint all_digit_like (s : string) : bool :=
  match s with EmptyString => true | String c s' => digit_like c && all_digit_like s' end.

Definition isdigit (s : string) : bool := truthy_str (Some s) && all_digit_like s.

(** [all(p.isdigit() and 0 <= int(p) <= 255 for p in parts)] *)
Fixpoint all_octets (parts : list string) : pyres bool :=
  match parts with
  | [] => Ok true
  | p :: parts =>
      if negb (isdigit p) then Ok false
      else match int_of_str p with
           | None => Raise (ValueError "invalid literal for int()")
           | Some v => if (0 <=? v) && (v <=? 255) then all_octets parts else Ok false
           end
  end.

Definition subnet_24 (ip : string) : pyres string :=
  match split_on "."%char ip with
  | [a; b; c; d] =>
      let! octets := all_octets [a; b; c; d] in
      Ok (if octets then a +:+ "." +:+ b +:+ "." +:+ c else ip)
  | _ => Ok ip
  end.

(** * Candidate pairs *)

(** Both sides of the pair are in the device's subnet group of two or more. *)
Definition bridge_assignment (group : list hw_device) (dev : hw_device) : option string :=
  if (2 <=? length group)%nat && existsb capable group && existsb legacy group && (capable dev || legacy dev)
  then Some "partial_only" else None.

Definition detect_crypto_bridges (hw_devices : list hw_device) : pyres (list hw_device) :=
  let! prefixes := ptraverse (fun dev => subnet_24 (hw_host dev)) hw_devices in
  let indexed := zip prefixes hw_devices in
  let group prefix := map snd (List.filter (fun pd => str_eqb pd.1 prefix) indexed) in
  Ok (map (fun pd => with_bridge (bridge_assignment (group pd.1) pd.2) pd.2) indexed).

(** * Evidence *)

Definition partial (dev : hw_device) : bool := bool_decide (hw_bridge dev = Some "partial_only").

(** The devices of the list that the comprehension keeps; the subnet of a device
    that is not a candidate is not computed. *)
Fixpoint partial_group (prefix : string) (hw_devices : list hw_device) : pyres (list hw_device) :=
  match hw_devices with
  | [] => Ok []
  | dev :: rest =>
      let! here := if partial dev then let! p := subnet_24 (hw_host dev) in Ok (str_eqb p prefix) else Ok false in
      let! group := partial_group prefix rest in
      Ok (if here then dev :: group else group)
  end.

(** The set [{fact.get("target_ip") for fact in facts if isinstance(fact, dict)}];
    a list or dictionary is not hashable. *)
Definition fact_ip (fact : pyval) : option pyval :=
  match fact with VDict m => Some (get_or m "target_ip" VNone) | _ => None end.

Definition hashable (v : pyval) : pyres pyval :=
  match v with
  | VList _ | VDict _ => Raise (TypeError "unhashable type")
  | _ => Ok v
  end.

Definition names_ip (ip : string) (fact_ips : list pyval) : bool :=
  existsb (fun v => match v with VStr s => str_eqb s ip | _ => false end) fact_ips.

(** The addresses in a gateway's evidence; [None] where the loop continues. *)
Definition evidence_ips (gw : hw_device) : pyres (option (list pyval)) :=
  if negb (truthy_str (hw_evidence gw)) then Ok None
  else match loads (str_or_empty (hw_evidence gw)) with
       | Some (VList facts) =>
           let! ips := ptraverse hashable (omap fact_ip facts) in Ok (Some ips)
       | _ => Ok None
       end.

Fixpoint search_gateways (is_gateway : bool) (dev_host : string) (legacy_ips : list string)
    (gateways : list hw_device) : pyres (option (hw_device * string)) :=
  match gateways with
  | [] => Ok None
  | gw :: rest =>
      let! ips := evidence_ips gw in
      match ips with
      | None => search_gateways is_gateway dev_host legacy_ips rest
      | Some fact_ips =>
          if is_gateway then
            match sorted_strings (List.filter (fun ip => names_ip ip fact_ips) legacy_ips) with
            | lowest :: _ =>
                if str_eqb (hw_host gw) dev_host then Ok (Some (gw, lowest))
                else search_gateways is_gateway dev_host legacy_ips rest
            | [] => search_gateways is_gateway dev_host legacy_ips rest
            end
          else if names_ip dev_host fact_ips then Ok (Some (gw, dev_host))
          else search_gateways is_gateway dev_host legacy_ips rest
      end
  end.

Definition find_matching_gateway (dev : hw_device) (hw_devices : list hw_device) : pyres (option (hw_device * string)) :=
  let! prefix := subnet_24 (hw_host dev) in
  let! group := partial_group prefix hw_devices in
  let gateways := List.filter capable group in
  let legacy_ips := remove_dups (map hw_host (List.filter legacy group)) in
  if bool_decide (gateways = []) || bool_decide (legacy_ips = []) then Ok None
  else search_gateways (capable dev) (hw_host dev) legacy_ips gateways.

Definition has_sufficient_evidence (dev : hw_device) (hw_devices : list hw_device) : pyres bool :=
  let! m := find_matching_gateway dev hw_devices in Ok (bool_decide (is_Some m)).

Definition confirm_upstream_mitigation (hw_devices : list hw_device) : pyres (list hw_device) :=
  ptraverse (fun dev =>
    if partial dev then
      let! enough := has_sufficient_evidence dev hw_devices in
      Ok (if enough then with_bridge (Some "upstream_mitigated") dev else dev)
    else Ok dev) hw_devices.

(** * What a match proves *)

(** The gateway's evidence lists [ip] as a target. *)
Definition evidence_lists (gw : hw_device) (ip : string) : Prop :=
  exists facts m, loads (str_or_empty (hw_evidence gw)) = Some (VList facts)
                  /\ VDict m ∈ facts /\ dict_get m "target_ip" = Some (VStr ip).

Lemma evidence_ips_sound gw ips ip :
  evidence_ips gw = Ok (Some ips) -> names_ip ip ips = true -> evidence_lists gw ip.
Proof.
  unfold evidence_ips. destruct (negb _); [done|].
  destruct (loads (str_or_empty (hw_evidence gw))) as [[| | | | |facts|]|] eqn:El; try done.
  intros (ips' & Hips & [= ->])%pbind_ok Hn. apply existsb_exists in Hn as (v & Hv & Hs).
  destruct v as [| | | |s| |]; try done. apply str_eqb_eq in Hs as ->. apply list_elem_of_In in Hv.
  apply ptraverse_ok in Hips. apply list_elem_of_lookup_1 in Hv as [i Hi].
  destruct (Forall2_lookup_r _ _ _ _ _ Hips Hi) as (v' & Hi' & Hh).
  assert (v' = VStr ip) as -> by (destruct v'; simpl in Hh; congruence).
  apply list_elem_of_lookup_2, list_elem_of_omap in Hi' as (fact & Hf & Hip).
  destruct fact as [| | | | | |m]; simpl in Hip; try done. exists facts, m. split_and!; [done..|].
  unfold get_or in Hip. destruct (dict_get m "target_ip"); simpl in Hip; congruence.
Qed.

Lemma partial_group_sound prefix devs group dev :
  partial_group prefix devs = Ok group -> dev ∈ group ->
  dev ∈ devs /\ partial dev = true /\ subnet_24 (hw_host dev) = Ok prefix.
Proof.
  revert group. induction devs as [|x devs IH]; intros group; simpl; [intros [= <-] H; by apply elem_of_nil in H|].
  intros (here & Hh & (g & Hg & [= <-])%pbind_ok)%pbind_ok Hin.
  assert (Hrest : dev ∈ g -> dev ∈ x :: devs /\ partial dev = true /\ subnet_24 (hw_host dev) = Ok prefix).
  { intros H. destruct (IH g Hg H) as (? & ? & ?). split_and!; [by right|done..]. }
  destruct here; [|by apply Hrest]. apply elem_of_cons in Hin as [->|Hin]; [|by apply Hrest].
  destruct (partial x) eqn:Ep; [|done]. apply pbind_ok in Hh as (p & Hp & [= Hpe]). apply str_eqb_eq in Hpe as ->.
  split_and!; [left|done..].
Qed.

Lemma search_sound is_gateway dev_host legacy_ips gateways gw ip :
  search_gateways is_gateway dev_host legacy_ips gateways = Ok (Some (gw, ip)) ->
  gw ∈ gateways /\ evidence_lists gw ip
  /\ if is_gateway then hw_host gw = dev_host /\ ip ∈ legacy_ips else ip = dev_host.
Proof.
  induction gateways as [|g gateways IH]; simpl; [done|].
  intros ([ips|] & Hips & H)%pbind_ok; [|destruct (IH H) as (? & ? & ?); split_and!; [by right|done..]].
  assert (Hrest : search_gateways is_gateway dev_host legacy_ips gateways = Ok (Some (gw, ip)) ->
    gw ∈ g :: gateways /\ evidence_lists gw ip
    /\ if is_gateway then hw_host gw = dev_host /\ ip ∈ legacy_ips else ip = dev_host).
  { intros Hr. destruct (IH Hr) as (? & ? & ?). split_and!; [by right|done..]. }
  destruct is_gateway.
  - destruct (sorted_strings _) as [|lowest l] eqn:Es; [by apply Hrest|].
    destruct (str_eqb (hw_host g) dev_host) eqn:Eh; [|by apply Hrest]. injection H as -> ->.
    assert (Hip : ip ∈ sorted_strings (List.filter (fun ip => names_ip ip ips) legacy_ips)) by (rewrite Es; left).
    apply elem_of_sorted_strings, list_elem_of_In, filter_In in Hip as [Hin Hn].
    split_and!; [left|by eapply evidence_ips_sound|by apply str_eqb_eq|by apply list_elem_of_In].
  - destruct (names_ip dev_host ips) eqn:En; [|by apply Hrest]. injection H as -> <-.
    split_and!; [left|by eapply evidence_ips_sound|done].
Qed.

(** A match is a gateway and a legacy address of one candidate subnet, the
    address in the gateway's own evidence. *)
Lemma match_sound dev devs gw ip :
  find_matching_gateway dev devs = Ok (Some (gw, ip)) ->
  gw ∈ devs /\ capable gw = true /\ partial gw = true /\ evidence_lists gw ip
  /\ subnet_24 (hw_host gw) = subnet_24 (hw_host dev)
  /\ (if capable dev then hw_host gw = hw_host dev
        /\ exists b, b ∈ devs /\ legacy b = true /\ hw_host b = ip /\ subnet_24 ip = subnet_24 (hw_host dev)
      else ip = hw_host dev).
Proof.
  intros (prefix & Hp & (group & Hg & H)%pbind_ok)%pbind_ok. cbv zeta in H.
  destruct (_ || _); [done|]. apply search_sound in H as (Hgw & Hev & H).
  apply list_elem_of_In, filter_In in Hgw as [Hgw Hc]. apply list_elem_of_In in Hgw.
  destruct (partial_group_sound _ _ _ _ Hg Hgw) as (H1 & H2 & H3). rewrite Hp.
  split_and!; [done..|]. destruct (capable dev); [|done]. destruct H as [Hh Hip]. split; [done|].
  apply elem_of_remove_dups, list_elem_of_fmap in Hip as (b & -> & Hb).
  apply list_elem_of_In, filter_In in Hb as [Hb Hl]. apply list_elem_of_In in Hb.
  destruct (partial_group_sound _ _ _ _ Hg Hb) as (H4 & _ & H6). exists b. split_and!; [done..|]. by rewrite H6.
Qed.

(** Detection only adds the status, and only to one side of a pair. *)
Lemma detect_sound devs out dev :
  detect_crypto_bridges devs = Ok out -> dev ∈ out ->
  exists orig, orig ∈ devs /\ dev = with_bridge (hw_bridge dev) orig
               /\ (partial dev = true -> capable dev || legacy dev = true).
Proof.
  intros (prefixes & _ & [= <-])%pbind_ok Hd.
  apply list_elem_of_fmap in Hd as ([p orig] & -> & Hin). exists orig. split_and!.
  - by apply elem_of_zip_r in Hin.
  - done.
  - unfold partial, bridge_assignment. simpl. unfold capable, legacy. simpl.
    destruct (_ && _) eqn:E; [|by rewrite bool_decide_false by done]. intros _.
    by apply andb_true_iff in E as [_ E].
Qed.

Lemma confirm_sound devs out dev :
  confirm_upstream_mitigation devs = Ok out -> dev ∈ out -> hw_bridge dev = Some "upstream_mitigated" ->
  (exists orig, orig ∈ devs /\ partial orig = true /\ dev = with_bridge (Some "upstream_mitigated") orig
                /\ exists m, find_matching_gateway orig devs = Ok (Some m))
  \/ (dev ∈ devs).
Proof.
  intros Hc%ptraverse_ok Hd Hs. apply list_elem_of_lookup_1 in Hd as [i Hi].
  destruct (Forall2_lookup_r _ _ _ _ _ Hc Hi) as (orig & Ho & H). apply list_elem_of_lookup_2 in Ho.
  destruct (partial orig) eqn:Ep; [|injection H as ->; by right].
  apply pbind_ok in H as (enough & He & [= <-]). destruct enough; [|by right]. left. exists orig. split_and!; [done..|].
  unfold has_sufficient_evidence in He. apply pbind_ok in He as (m & Hm & [= Hsome]).
  apply bool_decide_eq_true in Hsome as [x ->]. eauto.
Qed.
End Bridge.
