(* ===== verification/ExposureMap.v ===== *)
(** The exposure map ([intelligence/exposure_map.py], [models_util.py]).

    Nodes and edges derived from the endpoint table and the hardware inventory:
    shared keys ([KeyReuse]), shared certificate authorities, and confirmed
    crypto bridges ([Bridge]).  The property is the one the map is sold on:
    every edge is a verified relationship. *)
From Stdlib Require Import ZArith Lia Ascii.
From stdpp Require Import base tactics sets strings list pretty.
From S2P Require Import Prelude Json PyVal Model Hardware Closure KeyReuse Bridge.

Local Open Scope Z_scope.
Local Open Scope quirk_scope.

(** * Hardware bridge edges *)

Definition device_label (host : string) (vendor model : option string) : string :=
  match omap (fun p => if truthy_str p && negb (bool_decide (p = Some "Unknown")) then p else None) [vendor; model] with
  | [] => host
  | [a] => a
  | a :: b :: _ => a +:+ " " +:+ b
  end.

Definition bridge_dict (d : HardwareDevice) : hw_device :=
  {| hw_host := hd_host d;
     hw_pqc_status := if truthy_str (hd_pqc_status d) then str_or_empty (hd_pqc_status d) else "unknown";
     hw_evidence := hd_bridge_evidence_json d;
     hw_bridge := None |}.

(** [{d["host"]: d for d in detected}.get(host)]: the last one wins. *)
Definition by_host (host : string) (devs : list hw_device) : option hw_device :=
  last (List.filter (fun d => str_eqb (hw_host d) host) devs).

Definition label_by_host (devices : list HardwareDevice) (host : string) : string :=
  match last (List.filter (fun d => str_eqb (hd_host d) host) devices) with
  | Some d => device_label (hd_host d) (hd_vendor d) (hd_model d)
  | None => host
  end.

Definition bridge_evidence (device_name a b : string) : string :=
  "Confirmed hardware crypto-bridge: " +:+ device_name +:+ " bridges " +:+ a +:+ " to " +:+ b
  +:+ ". Source: hardware inventory table.".

Section Map.
Context (loads : string -> option pyval).

(** The body of the loop over the confirmed devices. *)
Definition bridge_step (devices : list HardwareDevice) (detected : list hw_device)
    (st : edge_state) (dev : hw_device) : pyres edge_state :=
  let '(edges, seen_pairs) := st in
  if negb (bool_decide (hw_bridge dev = Some "upstream_mitigated")) then Ok st
  else match by_host (hw_host dev) detected with
       | None => Ok st
       | Some pre_dev =>
           let! match_ := find_matching_gateway loads pre_dev detected in
           match match_ with
           | None => Ok st
           | Some (gateway, matched_ip) =>
               let gateway_host := hw_host gateway in
               let endpoint_b := if str_eqb (hw_host dev) gateway_host then matched_ip else hw_host dev in
               let pair_key := sorted_pair gateway_host endpoint_b in
               if bool_decide (pair_key ∈ seen_pairs) then Ok st
               else Ok (edges ++ [{| eg_source := gateway_host; eg_target := endpoint_b;
                                     eg_type := "hardware_bridge";
                                     eg_evidence := bridge_evidence (label_by_host devices gateway_host)
                                                                    gateway_host endpoint_b |}],
                        pair_key :: seen_pairs)
           end
       end.

Definition derive_hardware_bridge_edges (inventory : list HardwareDevice) : pyres (list edge) :=
  let devices := latest_successful_hardware_devices inventory in
  let! detected := detect_crypto_bridges (map bridge_dict devices) in
  let! confirmed := confirm_upstream_mitigation loads detected in
  let! st := pfold (bridge_step devices detected) ([], []) confirmed in
  Ok st.1.

(** * Shared certificate authorities *)

Record node := {
  nd_id : string;
  nd_label : string;
  nd_is_crown_jewel : bool;
  nd_type : string
}.

Definition ca_node_id (issuer : string) : string := "ca:" +:+ issuer.

(** [part[3:]] *)
Definition drop3 (s : string) : string :=
  match s with String _ (String _ (String _ r)) => r | _ => EmptyString end.

Fixpoint first_cn (issuer : string) (parts : list string) : string :=
  match parts with
  | [] => issuer
  | part :: parts =>
      let part := strip part in
      if startswith (upper part) "CN=" then
        let cn := strip (drop3 part) in if truthy_str (Some cn) then cn else issuer
      else first_cn issuer parts
  end.

Definition ca_label (issuer : string) : string := first_cn issuer (split_on ","%char issuer).

(** The rows of the query, and the distinct node ids of an issuer. *)
Definition issued_rows (scan_run_id : option string) (d : db) : list endpoint_row :=
  List.filter (fun e => truthy_str (ep_cert_issuer (er_ep e))) (tls_rows scan_run_id d).

Definition members_of (rows : list endpoint_row) (issuer : string) : list string :=
  remove_dups (map (fun e => node_id (address e))
                   (List.filter (fun e => bool_decide (ep_cert_issuer (er_ep e) = Some issuer)) rows)).

(** [key=lambda i: (-len(members_by_issuer[i]), i)] *)
Definition issuer_leb (rows : list endpoint_row) (a b : string) : bool :=
  lex Nat.eqb (fun x y => (y <=? x)%nat) (length (members_of rows a)) (length (members_of rows b)) (str_leb a b).

Definition issuers (rows : list endpoint_row) : list string :=
  py_sorted (issuer_leb rows) (remove_dups (omap (fun e => ep_cert_issuer (er_ep e)) rows)).

Definition shared_ca_evidence (n : nat) (issuer : string) : string :=
  "Shared certificate authority: " +:+ pretty (Z.of_nat n) +:+ " endpoints present certificates issued by "
  +:+ issuer +:+ ". Compromise of this CA's signing key allows forging a trusted certificate for every one of them.".

Definition ca_step (rows : list endpoint_row) (st : list node * list edge) (issuer : string) : list node * list edge :=
  let members := sorted_strings (members_of rows issuer) in
  if (length members <? 2)%nat then st
  else
    let hub_id := ca_node_id issuer in
    (st.1 ++ [{| nd_id := hub_id; nd_label := ca_label issuer; nd_is_crown_jewel := false; nd_type := "ca" |}],
     st.2 ++ map (fun m => {| eg_source := hub_id; eg_target := m; eg_type := "shared_ca";
                              eg_evidence := shared_ca_evidence (length members) issuer |}) members).

Definition derive_shared_ca_edges (d : db) (scan_run_id : option string) : list node * list edge :=
  let rows := issued_rows scan_run_id d in
  foldl (ca_step rows) ([], []) (issuers rows).

(** * The map *)

(** [max(scan_run_id)]; NULL is ignored. *)
Definition latest_scan_run_id (d : db) : option string :=
  last (sorted_strings (omap (fun e => ep_scan_run_id (er_ep e)) (db_endpoints d))).

(** [node_id.rsplit(":", 1)[0]]: what precedes the last colon, if there is one. *)
Fixpoint before_last_colon (s : string) : option string :=
  match s with
  | EmptyString => None
  | String c s' =>
      match before_last_colon s' with
      | Some p => Some (String c p)
      | None => if bool_decide (c = ":"%char) then Some EmptyString else None
      end
  end.

Definition host_part (node : string) : string := default node (before_last_colon node).

(** The ids of the edges' ends, in order of first appearance, hubs left out. *)
Definition add_id (st : list string * list string) (id : string) : list string * list string :=
  let '(node_ids, seen_ids) := st in
  if str_in id seen_ids then st else (node_ids ++ [id], id :: seen_ids).

Definition endpoint_ids (ca_ids : list string) (edges : list edge) : list string :=
  (foldl add_id ([], ca_ids) (List.flat_map (fun e => [eg_source e; eg_target e]) edges)).1.

Record exposure_map := { em_nodes : list node; em_edges : list edge }.

Definition derive_exposure_map (d : db) (inventory : list HardwareDevice)
    (scan_run_id : option string) (crown_jewels : list string) : pyres exposure_map :=
  let scan := match scan_run_id with Some s => Some s | None => latest_scan_run_id d end in
  let key_reuse_edges := derive_key_reuse_edges d scan in
  let '(ca_nodes, shared_ca_edges) := derive_shared_ca_edges d scan in
  let! hardware_bridge_edges := derive_hardware_bridge_edges inventory in
  let edges := key_reuse_edges ++ shared_ca_edges ++ hardware_bridge_edges in
  let declared := List.filter (fun h => truthy_str (Some h)) (map strip crown_jewels) in
  let endpoint_nodes :=
    map (fun id => {| nd_id := id; nd_label := id; nd_is_crown_jewel := str_in (host_part id) declared;
                      nd_type := "endpoint" |})
        (endpoint_ids (map nd_id ca_nodes) edges) in
  Ok {| em_nodes := ca_nodes ++ endpoint_nodes; em_edges := edges |}.
End Map.

(** * What each kind of edge proves *)

Section Verified.
Context (loads : string -> option pyval) (d : db) (scan : option string) (inventory : list HardwareDevice).

(** Two TLS rows of the scan carry the fingerprint the edge cites. *)
Definition shared_key (e : edge) : Prop :=
  exists a b fp, a ∈ tls_rows scan d /\ b ∈ tls_rows scan d /\ fp_of a = Some fp /\ fp_of b = Some fp
    /\ eg_source e = node_id (address a) /\ eg_target e = node_id (address b)
    /\ eg_evidence e = key_reuse_evidence fp.

(** The hub's issuer signed the certificate of the row at the end of the edge,
    and that of a row at another address of the scan. *)
Definition shared_issuer (e : edge) : Prop :=
  exists issuer a b, a ∈ tls_rows scan d /\ b ∈ tls_rows scan d
    /\ ep_cert_issuer (er_ep a) = Some issuer /\ ep_cert_issuer (er_ep b) = Some issuer
    /\ node_id (address a) <> node_id (address b)
    /\ eg_source e = ca_node_id issuer /\ eg_target e = node_id (address a).

(** A capable gateway and a legacy device of one subnet, the address of the
    latter in the ARP evidence of the former. *)
Definition confirmed_bridge (e : edge) : Prop :=
  exists gw b, gw ∈ map bridge_dict (latest_successful_hardware_devices inventory)
    /\ b ∈ map bridge_dict (latest_successful_hardware_devices inventory)
    /\ capable gw = true /\ legacy b = true /\ subnet_24 (hw_host gw) = subnet_24 (hw_host b)
    /\ evidence_lists loads gw (hw_host b) /\ hw_host gw <> hw_host b
    /\ eg_source e = hw_host gw /\ eg_target e = hw_host b.

(** ** Bridges *)

Lemma capable_not_legacy dev : capable dev = true -> legacy dev = true -> False.
Proof.
  unfold capable, legacy, str_in, PQC_CAPABLE, LEGACY_STATUS. rewrite !bool_decide_eq_true, !elem_of_cons.
  intros [->|[->|H]] H'; [..|by apply elem_of_nil in H].
  all: destruct H' as [H'|[H'|[H'|H']]]; try done; by apply elem_of_nil in H'.
Qed.

Lemma detect_hosts devs out : detect_crypto_bridges devs = Ok out -> map hw_host out = map hw_host devs.
Proof.
  intros (prefixes & Hp%ptraverse_ok & [= <-])%pbind_ok. rewrite map_map. cbn [hw_host with_bridge].
  clear -Hp. induction Hp as [|dev p devs prefixes _ _ IH]; simpl; [done|]. by rewrite IH.
Qed.

Lemma filter_none_nil {A} (f : A -> bool) l : (forall x, x ∈ l -> f x = false) -> List.filter f l = [].
Proof.
  induction l as [|x l IH]; intros H; simpl; [done|]. rewrite (H x) by left. apply IH. intros y Hy. apply H. by right.
Qed.

Lemma nodup_by_host devs dev : NoDup (map hw_host devs) -> dev ∈ devs -> by_host (hw_host dev) devs = Some dev.
Proof.
  unfold by_host. induction devs as [|x devs IH]; simpl; [by intros _ H%elem_of_nil|].
  intros [Hx Hn]%NoDup_cons [->|Hin]%elem_of_cons.
  - rewrite (proj2 (str_eqb_eq _ _)) by done. rewrite filter_none_nil; [done|].
    intros y Hy. apply str_eqb_neq. intros E. apply Hx. rewrite <- E. apply list_elem_of_fmap. eauto.
  - assert (Hne : hw_host x <> hw_host dev).
    { intros E. apply Hx. rewrite E. apply list_elem_of_fmap. eauto. }
    apply str_eqb_neq in Hne. rewrite Hne. by apply IH.
Qed.

Lemma detect_never_confirms devs out dev :
  detect_crypto_bridges devs = Ok out -> dev ∈ out -> hw_bridge dev <> Some "upstream_mitigated".
Proof.
  intros (prefixes & _ & [= <-])%pbind_ok ([p o] & -> & _)%list_elem_of_fmap. simpl.
  unfold bridge_assignment. by destruct (_ && _).
Qed.

(** A match for a candidate of an inventory without repeated hosts. *)
Lemma match_confirmed devs detected orig gw ip :
  detect_crypto_bridges devs = Ok detected -> NoDup (map hw_host detected) ->
  orig ∈ detected -> partial orig = true -> find_matching_gateway loads orig detected = Ok (Some (gw, ip)) ->
  exists g b, g ∈ devs /\ b ∈ devs /\ capable g = true /\ legacy b = true
    /\ subnet_24 (hw_host g) = subnet_24 (hw_host b) /\ evidence_lists loads g (hw_host b) /\ hw_host g <> hw_host b
    /\ hw_host g = hw_host gw
    /\ hw_host b = (if str_eqb (hw_host orig) (hw_host gw) then ip else hw_host orig).
Proof.
  intros Hdet Hnd Ho Hpart Hm. destruct (match_sound _ _ _ _ _ Hm) as (Hgw & Hcap & _ & Hev & Hsub & Hcase).
  destruct (detect_sound _ _ _ Hdet Hgw) as (g & Hg & Eg & _).
  destruct (detect_sound _ _ _ Hdet Ho) as (o & Hoin & Eo & Hside). specialize (Hside Hpart).
  assert (Hgcap : capable g = true) by (rewrite Eg in Hcap; exact Hcap).
  assert (Hgev : evidence_lists loads g ip) by (rewrite Eg in Hev; exact Hev).
  assert (Hgh : hw_host g = hw_host gw) by (rewrite Eg; done).
  destruct (capable orig) eqn:Ec.
  - destruct Hcase as (Hh & b & Hb & Hl & <- & Hsb).
    destruct (detect_sound _ _ _ Hdet Hb) as (b0 & Hb0 & Eb & _).
    assert (Hbl : legacy b0 = true) by (rewrite Eb in Hl; exact Hl).
    assert (Hbh : hw_host b0 = hw_host b) by (rewrite Eb; done).
    exists g, b0. rewrite Hbh, Hgh. split_and!; try done; [congruence| |by rewrite Hh, (proj2 (str_eqb_eq _ _))].
    intros E. pose proof (nodup_by_host _ _ Hnd Hgw) as H1. pose proof (nodup_by_host _ _ Hnd Hb) as H2.
    rewrite E, H2 in H1. injection H1 as ->. exact (capable_not_legacy _ Hcap Hl).
  - subst ip. simpl in Hside. assert (Hol : legacy o = true) by (rewrite Eo in Hside; exact Hside).
    assert (Hoh : hw_host o = hw_host orig) by (rewrite Eo; done).
    exists g, o. rewrite Hoh, Hgh. split_and!; try done; [|by destruct (str_eqb _ _)].
    intros E. pose proof (nodup_by_host _ _ Hnd Hgw) as H1. pose proof (nodup_by_host _ _ Hnd Ho) as H2.
    rewrite E, H2 in H1. injection H1 as ->. congruence.
Qed.

Lemma bridge_edges_confirmed edges :
  NoDup (map hd_host (latest_successful_hardware_devices inventory)) ->
  derive_hardware_bridge_edges loads inventory = Ok edges ->
  Forall (fun e => eg_type e = "hardware_bridge" /\ confirmed_bridge e) edges.
Proof.
  intros Hhosts (detected & Hdet & (confirmed & Hconf & (st & Hst & [= <-])%pbind_ok)%pbind_ok)%pbind_ok.
  assert (Hnd : NoDup (map hw_host detected)).
  { rewrite (detect_hosts _ _ Hdet), map_map. exact Hhosts. }
  assert (Hsub : forall dev, dev ∈ confirmed -> dev ∈ confirmed) by done.
  revert Hsub Hst. generalize confirmed at 1 3. intros todo.
  assert (H0 : Forall (fun e => eg_type e = "hardware_bridge" /\ confirmed_bridge e) (([] : list edge), ([] : list (string * string))).1)
    by constructor.
  revert H0. generalize (([] : list edge), ([] : list (string * string))). induction todo as [|dev todo IH]; intros s0 H0 Hsub; simpl.
  { by intros [= <-]. }
  intros (s1 & Hs1 & Hrest)%pbind_ok. apply (IH s1); [|intros x Hx; apply Hsub; by right|done]. clear IH Hrest.
  unfold bridge_step in Hs1. destruct s0 as [es seen]. simpl in H0.
  destruct (bool_decide_reflect (hw_bridge dev = Some "upstream_mitigated")) as [Hup|_]; [|by injection Hs1 as <-].
  simpl negb in Hs1. cbv iota in Hs1.
  destruct (confirm_sound _ _ _ _ Hconf (Hsub dev ltac:(left)) Hup) as [(orig & Ho & Hpart & Edev & _)|Hin];
    [|by destruct (detect_never_confirms _ _ _ Hdet Hin)].
  assert (Eh : hw_host dev = hw_host orig) by (rewrite Edev; done).
  rewrite Eh, (nodup_by_host _ _ Hnd Ho) in Hs1. apply pbind_ok in Hs1 as ([[gw ip]|] & Hm & Hs1); [|by injection Hs1 as <-].
  destruct (match_confirmed _ _ _ _ _ Hdet Hnd Ho Hpart Hm) as (g & b & Hg & Hb & H1 & H2 & H3 & H4 & H5 & H6 & H7).
  cbv zeta in Hs1. destruct (bool_decide _); injection Hs1 as <-; [done|]. simpl. apply Forall_app. split; [done|].
  constructor; [|constructor]. split; [done|]. exists g, b. simpl. rewrite H6, H7. rewrite H6, H7 in *. split_and!; done.
Qed.
End Verified.

(** ** Certificate authorities *)

Definition shared (rows : list endpoint_row) (issuer : string) : bool :=
  negb (length (sorted_strings (members_of rows issuer)) <? 2)%nat.

Definition hub (issuer : string) : node :=
  {| nd_id := ca_node_id issuer; nd_label := ca_label issuer; nd_is_crown_jewel := false; nd_type := "ca" |}.

Definition hub_edges (rows : list endpoint_row) (issuer : string) : list edge :=
  let members := sorted_strings (members_of rows issuer) in
  map (fun m => {| eg_source := ca_node_id issuer; eg_target := m; eg_type := "shared_ca";
                   eg_evidence := shared_ca_evidence (length members) issuer |}) members.

Lemma ca_fold rows l ns es :
  foldl (ca_step rows) (ns, es) l
  = (ns ++ map hub (List.filter (shared rows) l), es ++ List.flat_map (hub_edges rows) (List.filter (shared rows) l)).
Proof.
  revert ns es. induction l as [|issuer l IH]; intros ns es; simpl; [by rewrite !app_nil_r|].
  assert (E : ca_step rows (ns, es) issuer
              = if shared rows issuer then (ns ++ [hub issuer], es ++ hub_edges rows issuer) else (ns, es)).
  { unfold ca_step, shared. cbv zeta. by destruct (length _ <? 2)%nat. }
  rewrite E. destruct (shared rows issuer); [|apply IH]. rewrite IH. simpl. by rewrite <- !app_assoc.
Qed.

Lemma elem_of_members rows issuer id :
  id ∈ members_of rows issuer <->
  exists e, e ∈ rows /\ ep_cert_issuer (er_ep e) = Some issuer /\ id = node_id (address e).
Proof.
  unfold members_of. rewrite elem_of_remove_dups, list_elem_of_fmap. setoid_rewrite list_elem_of_In.
  setoid_rewrite filter_In. setoid_rewrite bool_decide_eq_true. setoid_rewrite <- list_elem_of_In. naive_solver.
Qed.

Lemma shared_two rows issuer id :
  shared rows issuer = true -> id ∈ members_of rows issuer -> exists id', id' ∈ members_of rows issuer /\ id <> id'.
Proof.
  unfold shared. intros H%negb_true_iff%Nat.ltb_ge Hid.
  assert (Hl : (2 <= length (members_of rows issuer))%nat) by (by rewrite <- (sorted_strings_perm (members_of rows issuer))).
  assert (Hn : NoDup (members_of rows issuer)) by apply NoDup_remove_dups.
  destruct (members_of rows issuer) as [|x [|y l]]; simpl in Hl; [lia..|].
  apply NoDup_cons in Hn as [Hx _]. destruct (decide (id = x)) as [->|Hne].
  - exists y. split; [right; left|]. intros ->. apply Hx. left.
  - exists x. split; [left|done].
Qed.

Lemma ca_edges_shared d scan e :
  e ∈ (derive_shared_ca_edges d scan).2 ->
  eg_type e = "shared_ca" /\ shared_issuer d scan e /\ eg_source e ∈ map nd_id (derive_shared_ca_edges d scan).1.
Proof.
  unfold derive_shared_ca_edges. cbv zeta. rewrite ca_fold. simpl. set (rows := issued_rows scan d).
  intros He%list_elem_of_In. apply in_flat_map in He as (issuer & Hi & He).
  apply in_map_iff in He as (m & <- & Hm). apply list_elem_of_In in Hm. rewrite elem_of_sorted_strings in Hm.
  pose proof Hi as [_ Hs]%filter_In. destruct (shared_two _ _ _ Hs Hm) as (m' & Hm' & Hne).
  apply elem_of_members in Hm as (a & Ha & Hia & ->), Hm' as (b & Hb & Hib & ->).
  assert (Hsub : forall x, x ∈ rows -> x ∈ tls_rows scan d).
  { intros x Hx%list_elem_of_In. apply filter_In in Hx as [Hx _]. by apply list_elem_of_In. }
  split_and!; [done| |].
  - exists issuer, a, b. split_and!; auto.
  - simpl. rewrite map_map. apply list_elem_of_fmap. exists issuer. split; [done|]. by apply list_elem_of_In.
Qed.

Lemma hubs_nodup d scan :
  NoDup (map nd_id (derive_shared_ca_edges d scan).1)
  /\ Forall (fun n => nd_is_crown_jewel n = false) (derive_shared_ca_edges d scan).1.
Proof.
  unfold derive_shared_ca_edges. cbv zeta. rewrite ca_fold. simpl. set (rows := issued_rows scan d).
  assert (Hn : NoDup (issuers rows)) by (unfold issuers; rewrite py_sorted_perm; apply NoDup_remove_dups). split.
  - induction Hn as [|x l Hx _ IH]; simpl; [constructor|]. destruct (shared rows x); simpl; [|done].
    constructor; [|done]. rewrite map_map. intros (y & Hy & Hin)%list_elem_of_fmap.
    apply list_elem_of_In, filter_In in Hin as [Hin _]. apply Hx. apply list_elem_of_In in Hin.
    apply append_inj_l in Hy as ->. done.
  - apply Forall_forall. intros n (i & -> & _)%list_elem_of_fmap. done.
Qed.

(** ** Nodes *)

Lemma add_ids_spec ca l :
  let st := foldl add_id ([], ca) l in
  NoDup st.1 /\ (forall x, x ∈ st.2 <-> x ∈ st.1 \/ x ∈ ca) /\ (forall x, x ∈ st.1 -> x ∉ ca)
  /\ (forall x, x ∈ l -> x ∈ st.2).
Proof.
  cbv zeta. induction l as [|x l IH] using rev_ind; simpl.
  { split_and!; [constructor| |by intros x Hx%elem_of_nil..]. intros x. rewrite elem_of_nil. naive_solver. }
  rewrite foldl_app. simpl. destruct (foldl add_id ([], ca) l) as [ids seen]. simpl in *.
  destruct IH as (H1 & H2 & H3 & H4). unfold str_in. case_bool_decide as Hin; simpl.
  - split_and!; [done..|]. intros y [Hy|Hy%list_elem_of_singleton]%elem_of_app; [by apply H4|by subst].
  - assert (Hx : x ∉ ids /\ x ∉ ca) by (rewrite H2 in Hin; naive_solver). destruct Hx as [Hx1 Hx2]. split_and!.
    + apply NoDup_app. split_and!; [done| |apply NoDup_singleton]. intros y Hy Hy'%list_elem_of_singleton. by subst.
    + intros y. rewrite elem_of_cons, H2, elem_of_app, list_elem_of_singleton. naive_solver.
    + intros y [Hy|Hy%list_elem_of_singleton]%elem_of_app; [by apply H3|by subst].
    + intros y [Hy|Hy%list_elem_of_singleton]%elem_of_app; [right; by apply H4|subst; left].
Qed.

(** * Properties *)

Definition chosen_scan (d : db) (scan_run_id : option string) : option string :=
  match scan_run_id with Some s => Some s | None => latest_scan_run_id d end.


(** * A sample estate *)

Definition sample_device (id : Z) (host : string) (port : Z) (pqc : string) (evidence : option string) : HardwareDevice :=
  {| hd_id := id; hd_host := host; hd_port := port; hd_vendor := Some "Unknown"; hd_model := None;
     hd_pqc_status := Some pqc; hd_bridge_evidence_json := evidence; hd_probe_status := Some "success";
     hd_scanned_at := Some 5 |}.

(** The parsed evidence of the sample gateway, whatever the text. *)
Definition sample_loads (_ : string) : option pyval :=
  Some (VList (map (fun ip => VDict [("target_ip", VStr ip)]) ["10.0.0.2"; "10.0.0.1"])).

Definition sample_endpoint (host : string) : endpoint_row :=
  {| er_ep := {| ep_host := host; ep_port := 443; ep_protocol := Some "TLS"; ep_scanned_at := None;
       ep_tls_version := None; ep_cipher_suite := None; ep_cert_subject := None;
       ep_cert_issuer := Some "CN=Root,O=Lab"; ep_cert_sig_alg := None; ep_cert_pubkey_alg := None;
       ep_cert_pubkey_size := None; ep_cert_spki_fingerprint := Some "abc"; ep_cert_not_after := None;
       ep_scan_error := None; ep_tls_blocker_reason := None; ep_service_detail := None;
       ep_tls_supported_versions := None; ep_severity := None; ep_scan_run_id := Some "s" |};
     er_text := fun _ => None; er_flag := fun _ => None |}.

Definition sample_db : db :=
  {| db_endpoints := [sample_endpoint "a"; sample_endpoint "b"]; db_items := []; db_fps := []; db_events := [];
     db_sigs := []; db_calls := 0 |}.

Definition sample_inventory : list HardwareDevice :=
  [sample_device 1 "10.0.0.1" 161 "supported" (Some "[]"); sample_device 2 "10.0.0.2" 161 "unknown" None].

Example sample_map :
  match derive_exposure_map sample_loads sample_db sample_inventory None ["b "] with
  | Ok m => map (fun e => (eg_type e, eg_source e, eg_target e)) (em_edges m)
            = [("key_reuse", "a:443", "b:443"); ("shared_ca", "ca:CN=Root,O=Lab", "a:443");
               ("shared_ca", "ca:CN=Root,O=Lab", "b:443"); ("hardware_bridge", "10.0.0.1", "10.0.0.2")]
            /\ map (fun n => (nd_label n, nd_is_crown_jewel n)) (em_nodes m)
               = [("Root", false); ("a:443", false); ("b:443", true); ("10.0.0.1", false); ("10.0.0.2", false)]
  | Raise _ => False
  end.
Proof. vm_compute. auto. Qed.


(** A failed probe of the same second with a higher id is what the helper
    returns: the outer query does not test [probe_status]. *)
Example failed_probe_displaces_success :
  map hd_probe_status (latest_successful_hardware_devices
    [sample_device 1 "h" 161 "supported" None;
     {| hd_id := 2; hd_host := "h"; hd_port := 161; hd_vendor := None; hd_model := None; hd_pqc_status := None;
        hd_bridge_evidence_json := None; hd_probe_status := Some "failed"; hd_scanned_at := Some 5 |}])
  = [Some "failed"].
Proof. vm_compute. reflexivity. Qed.

(** With two ports of one host in the inventory, the host is looked up instead
    of the device, and the map joins the host to itself. *)
Example repeated_host_self_edge :
  match derive_hardware_bridge_edges sample_loads
          (sample_inventory ++ [sample_device 3 "10.0.0.1" 162 "unknown" None]) with
  | Ok (e :: _) => (eg_source e, eg_target e) = ("10.0.0.1", "10.0.0.1")
  | _ => False
  end.
Proof. vm_compute. reflexivity. Qed.
