(* ===== verification/Trends.v ===== *)
(** Trends between scan sessions ([intelligence/trends.py]).

    A session is a scan run, or a millisecond of rows without one, named by its
    earliest instant.  [compute_trend_report] compares the endpoints of two
    sessions and their readiness scores.  The findings deriver is an argument,
    as in the code; [set_order] is the iteration order of a Python set. *)
From Stdlib Require Import ZArith Lia.
From stdpp Require Import base tactics sets strings list.
From S2P Require Import Prelude PyVal Model Scoring Evidence Closure.

Local Open Scope Z_scope.
Local Open Scope quirk_scope.

(** * Sessions *)

(** A stored instant is naive: its wall clock in microseconds. *)
Definition scanned_us (e : endpoint_row) : option Z := option_map dt_wall (ep_scanned_at (er_ep e)).

Definition floor_ms (us : Z) : Z := us - us mod 1000.

Inductive session_key :=
| RunId (scan_run_id : string)
| LegacyMs (us : Z).

#[global] Instance session_key_eq_dec : EqDecision session_key.
Proof. solve_decision. Defined.

Definition session_of (ts : Z) (scan_run_id : option string) : session_key :=
  if truthy_str scan_run_id then RunId (str_or_empty scan_run_id) else LegacyMs (floor_ms ts).

(** [earliest[key] = row_ts] for a new key or an earlier instant. *)
Fixpoint note_earliest (key : session_key) (ts : Z) (earliest : list (session_key * Z)) : list (session_key * Z) :=
  match earliest with
  | [] => [(key, ts)]
  | (k, prev) :: rest =>
      if bool_decide (k = key) then (k, if ts <? prev then ts else prev) :: rest
      else (k, prev) :: note_earliest key ts rest
  end.

Definition earliest_stamps (rows : list endpoint_row) : list (session_key * Z) :=
  foldl (fun acc e => match scanned_us e with
                      | Some ts => note_earliest (session_of ts (ep_scan_run_id (er_ep e))) ts acc
                      | None => acc
                      end) [] rows.

Definition list_session_timestamps (d : db) (limit : nat) : list Z :=
  take limit (py_sorted (fun x y => y <=? x) (map snd (earliest_stamps (db_endpoints d)))).

(** The run of the first row stamped [target_ts], or the legacy millisecond. *)
Definition fetch_session_endpoints (d : db) (target_ts : Z) : list endpoint_row :=
  let stamped e := bool_decide (scanned_us e = Some target_ts) in
  let keyed := head (omap (fun e => ep_scan_run_id (er_ep e)) (List.filter stamped (db_endpoints d))) in
  if truthy_str keyed then List.filter (fun e => bool_decide (ep_scan_run_id (er_ep e) = keyed)) (db_endpoints d)
  else
    let bucket_lo := floor_ms target_ts in
    List.filter (fun e => match scanned_us e with
                          | Some ts => (bucket_lo <=? ts) && (ts <? bucket_lo + 1000)
                                       && bool_decide (ep_scan_run_id (er_ep e) = None)
                          | None => false
                          end) (db_endpoints d).

(** * Severities *)

Definition ADVISORY_ONLY_CATEGORIES : list string := ["missing_extra"; "missing_binary"].

Definition SEVERITY_BUCKET : list (string * string) :=
  [("CRITICAL", "high"); ("HIGH", "high"); ("MEDIUM", "medium"); ("LOW", "low")].

Definition SEVERITY_RANK : list (string * Z) := [("CRITICAL", 0); ("HIGH", 1); ("MEDIUM", 2); ("LOW", 3)].

Definition bucket_for_severity (sev : option string) : option string :=
  mbind (fun s => alookup s SEVERITY_BUCKET) sev.

(** * The report *)

Definition ep_key : Type := string * Z * option string.

Definition key_of_row (e : endpoint_row) : ep_key :=
  (ep_host (er_ep e), ep_port (er_ep e), ep_protocol (er_ep e)).

Record SeverityTransitionItem := {
  st_key : ep_key;
  st_previous : option string;
  st_current : option string
}.

Record SampleFindingItem := { sf_key : ep_key; sf_severity : option string }.

Record TrendReport := {
  tr_current_score : option Z;
  tr_previous_score : option Z;
  tr_score_delta : option Z;
  tr_new : Z * Z * Z;            (** high, medium, low *)
  tr_resolved : Z * Z * Z;
  tr_errors_new : Z;
  tr_errors_resolved : Z;
  tr_new_sample : list SampleFindingItem;
  tr_resolved_sample : list SampleFindingItem;
  tr_transitions : list SeverityTransitionItem;
  tr_new_total : Z;
  tr_resolved_total : Z
}.

(** A dictionary from key to severity: the rows in order, the last of a key wins. *)
Definition sev_map := list (ep_key * option string).

Definition sev_get (k : ep_key) (m : sev_map) : option string :=
  match last (List.filter (fun kv => bool_decide (kv.1 = k)) m) with
  | Some kv => kv.2
  | None => None
  end.

Definition keys_of (m : sev_map) : list ep_key := remove_dups (map fst m).

Definition errored (e : endpoint_row) : bool := bool_decide (is_Some (ep_scan_error (er_ep e))).

Definition severities (rows : list endpoint_row) : sev_map :=
  map (fun e => (key_of_row e, ep_severity (er_ep e))) rows.

Definition minus (a b : list ep_key) : list ep_key := List.filter (fun k => negb (bool_decide (k ∈ b))) a.

Definition count_by_bucket (keys : list ep_key) (m : sev_map) : Z * Z * Z :=
  let count b := Z.of_nat (length (List.filter
                   (fun k => bool_decide (bucket_for_severity (sev_get k m) = Some b)) keys)) in
  (count "high", count "medium", count "low").

Definition severity_rank (sev : option string) : Z :=
  default 99 (mbind (fun s => alookup s SEVERITY_RANK) sev).

(** [(rank, host or "", port or 0)] *)
Definition sample_leb (a b : endpoint_row) : bool :=
  lex Z.eqb Z.leb (severity_rank (ep_severity (er_ep a))) (severity_rank (ep_severity (er_ep b)))
    (lex str_eqb str_leb (ep_host (er_ep a)) (ep_host (er_ep b)) (ep_port (er_ep a) <=? ep_port (er_ep b))).

Definition sample_findings (endpoints : list endpoint_row) (target_keys : list ep_key) : list SampleFindingItem :=
  let matched := List.filter (fun e => bool_decide (key_of_row e ∈ target_keys)) endpoints in
  map (fun e => {| sf_key := key_of_row e; sf_severity := ep_severity (er_ep e) |})
      (take 5 (py_sorted sample_leb matched)).

Definition transition_leb (a b : SeverityTransitionItem) : bool :=
  lex str_eqb str_leb (st_key a).1.1 (st_key b).1.1 ((st_key a).1.2 <=? (st_key b).1.2).

(** Rows that errored, other than by a missing extra or binary. *)
Definition scan_errors (eps : list endpoint_row) : Z :=
  Z.of_nat (length (List.filter (fun e =>
    errored e && negb (match er_text e "scan_error_category" with
                       | Some c => str_in c ADVISORY_ONLY_CATEGORIES
                       | None => false
                       end)) eps)).

Section Report.
Context (set_order : list ep_key -> list ep_key).
Context (findings_deriver : list endpoint_row -> pyres (list finding)).

(** The score of a session, with the default window and no reference instant. *)
Definition score_for_session (endpoints : list endpoint_row) : pyres (option Z) :=
  let! findings := findings_deriver endpoints in
  let evidence := build_evidence_summary (map er_ep endpoints) findings 30 None in
  let! score_dict := compute_readiness_score evidence None [] in
  Ok (r_score score_dict).

Definition session_score (endpoints : list endpoint_row) : pyres (option Z) :=
  match endpoints with [] => Ok None | _ => score_for_session endpoints end.

Definition current_error_hosts (current_eps : list endpoint_row) : list ep_key :=
  map key_of_row (List.filter errored current_eps).

Definition current_sev (current_eps : list endpoint_row) : sev_map :=
  severities (List.filter (fun e => negb (errored e)) current_eps).

Definition previous_sev (current_eps previous_eps : list endpoint_row) : sev_map :=
  severities (List.filter (fun e => negb (errored e)
    && negb (bool_decide (key_of_row e ∈ current_error_hosts current_eps))) previous_eps).

Definition severity_transitions (cur prev : sev_map) : list SeverityTransitionItem :=
  py_sorted transition_leb
    (map (fun k => {| st_key := k; st_previous := sev_get k prev; st_current := sev_get k cur |})
      (List.filter (fun k => negb (bool_decide (sev_get k cur = sev_get k prev)))
        (set_order (List.filter (fun k => bool_decide (k ∈ keys_of prev)) (keys_of cur))))).

Definition single_session (current_score : option Z) : TrendReport :=
  {| tr_current_score := current_score; tr_previous_score := None; tr_score_delta := None;
     tr_new := (0, 0, 0); tr_resolved := (0, 0, 0); tr_errors_new := 0; tr_errors_resolved := 0;
     tr_new_sample := []; tr_resolved_sample := []; tr_transitions := [];
     tr_new_total := 0; tr_resolved_total := 0 |}.

Definition compare_sessions (current_eps previous_eps : list endpoint_row)
    (current_score previous_score : option Z) : TrendReport :=
  let cur := current_sev current_eps in
  let prev := previous_sev current_eps previous_eps in
  let new_keys := minus (keys_of cur) (keys_of prev) in
  let resolved_keys := minus (keys_of prev) (keys_of cur) in
  let cur_err := scan_errors current_eps in
  let prev_err := scan_errors previous_eps in
  {| tr_current_score := current_score;
     tr_previous_score := previous_score;
     tr_score_delta := match current_score, previous_score with
                       | Some c, Some p => Some (c - p)
                       | _, _ => None
                       end;
     tr_new := count_by_bucket new_keys cur;
     tr_resolved := count_by_bucket resolved_keys prev;
     tr_errors_new := Z.max 0 (cur_err - prev_err);
     tr_errors_resolved := Z.max 0 (prev_err - cur_err);
     tr_new_sample := sample_findings current_eps new_keys;
     tr_resolved_sample := sample_findings previous_eps resolved_keys;
     tr_transitions := severity_transitions cur prev;
     tr_new_total := Z.of_nat (length new_keys);
     tr_resolved_total := Z.of_nat (length resolved_keys) |}.

Definition compute_trend_report (current_ts : Z) (previous_ts : option Z) (d : db) : pyres TrendReport :=
  let current_eps := fetch_session_endpoints d current_ts in
  let! current_score := session_score current_eps in
  match previous_ts with
  | None => Ok (single_session current_score)
  | Some previous_ts =>
      let previous_eps := fetch_session_endpoints d previous_ts in
      let! previous_score := session_score previous_eps in
      Ok (compare_sessions current_eps previous_eps current_score previous_score)
  end.
End Report.

(** * Lemmas on keys *)

Definition answers_at (rows : list endpoint_row) (k : ep_key) : Prop :=
  exists e, e ∈ rows /\ errored e = false /\ key_of_row e = k.

Definition fails_at (rows : list endpoint_row) (k : ep_key) : Prop :=
  exists e, e ∈ rows /\ errored e = true /\ key_of_row e = k.

Lemma elem_of_keys k rows : k ∈ keys_of (severities rows) <-> exists e, e ∈ rows /\ key_of_row e = k.
Proof.
  unfold keys_of, severities. rewrite elem_of_remove_dups, map_map, list_elem_of_fmap. naive_solver.
Qed.

Lemma elem_of_current k eps : k ∈ keys_of (current_sev eps) <-> answers_at eps k.
Proof.
  unfold current_sev, answers_at. rewrite elem_of_keys. setoid_rewrite elem_of_filter_bool.
  setoid_rewrite negb_true_iff. naive_solver.
Qed.

Lemma elem_of_errors k eps : k ∈ current_error_hosts eps <-> fails_at eps k.
Proof.
  unfold current_error_hosts, fails_at. rewrite list_elem_of_fmap. setoid_rewrite elem_of_filter_bool. naive_solver.
Qed.

Lemma elem_of_previous k cur prev :
  k ∈ keys_of (previous_sev cur prev) <-> answers_at prev k /\ ~ fails_at cur k.
Proof.
  unfold previous_sev, answers_at. rewrite elem_of_keys. setoid_rewrite elem_of_filter_bool.
  setoid_rewrite andb_true_iff. setoid_rewrite negb_true_iff. setoid_rewrite bool_decide_eq_false.
  setoid_rewrite elem_of_errors. naive_solver.
Qed.

Lemma elem_of_minus k a b : k ∈ minus a b <-> k ∈ a /\ k ∉ b.
Proof. unfold minus. by rewrite elem_of_filter_bool, negb_true_iff, bool_decide_eq_false. Qed.

Lemma buckets_le keys m :
  let '(h, md, l) := count_by_bucket keys m in h + md + l <= Z.of_nat (length keys).
Proof.
  unfold count_by_bucket. induction keys as [|k keys IH]; [by vm_compute|]. cbn [List.filter length].
  destruct (bucket_for_severity (sev_get k m)) as [b|]; cycle 1.
  { rewrite !bool_decide_false by done. lia. }
  destruct (bool_decide_reflect (Some b = Some "high")) as [H1|H1];
    destruct (bool_decide_reflect (Some b = Some "medium")) as [H2|H2];
    destruct (bool_decide_reflect (Some b = Some "low")) as [H3|H3]; try congruence; simpl; lia.
Qed.

Lemma elem_of_sample s eps keys :
  s ∈ sample_findings eps keys ->
  exists e, e ∈ eps /\ key_of_row e ∈ keys /\ s = {| sf_key := key_of_row e; sf_severity := ep_severity (er_ep e) |}.
Proof.
  unfold sample_findings. intros (e & -> & He)%list_elem_of_fmap.
  apply (list_elem_of_lookup_1 _ _) in He as [i Hi]. apply lookup_take_Some in Hi as [Hi _].
  apply list_elem_of_lookup_2 in Hi. rewrite py_sorted_perm, elem_of_filter_bool, bool_decide_eq_true in Hi.
  destruct Hi. eauto.
Qed.

Lemma sample_length eps keys : (length (sample_findings eps keys) <= 5)%nat.
Proof. unfold sample_findings. rewrite length_map, length_take. lia. Qed.

Lemma transitions_spec set_order cur prev :
  (forall l, set_order l ≡ₚ l) ->
  NoDup (map st_key (severity_transitions set_order cur prev))
  /\ forall t, t ∈ severity_transitions set_order cur prev <->
       st_key t ∈ keys_of cur /\ st_key t ∈ keys_of prev
       /\ st_previous t = sev_get (st_key t) prev /\ st_current t = sev_get (st_key t) cur
       /\ st_previous t <> st_current t.
Proof.
  intros Ho. unfold severity_transitions. split.
  - rewrite py_sorted_perm, map_map. simpl. rewrite map_id. apply nodup_filter. rewrite Ho.
    apply nodup_filter, NoDup_remove_dups.
  - intros t. rewrite py_sorted_perm, list_elem_of_fmap. setoid_rewrite elem_of_filter_bool.
    setoid_rewrite Ho. setoid_rewrite elem_of_filter_bool. setoid_rewrite negb_true_iff.
    setoid_rewrite bool_decide_eq_false. setoid_rewrite bool_decide_eq_true. split.
    + intros (k & -> & [H1 H2] & H3). simpl. split_and!; [done..|congruence].
    + intros (H1 & H2 & H3 & H4 & H5). exists (st_key t). split; [by destruct t; simpl in *; subst|].
      split; [done|congruence].
Qed.

(** * Properties *)

(** The delta between two sessions is exact.  New are the addresses that
    answer now and are not known to have answered before; resolved those that
    answered before and of which the current session has no row at all, not
    even a failed one; an address that answers in both is a transition exactly
    when its severity changed, and then neither new nor resolved.  Every
    address counts once, the severity counts never exceed the totals, and the
    samples are at most five rows of the counted addresses. *)
Theorem trend_delta_exact set_order cur prev cs ps :
  (forall l, set_order l ≡ₚ l) ->
  let r := compare_sessions set_order cur prev cs ps in
  exists new resolved,
    (NoDup new /\ tr_new_total r = Z.of_nat (length new)
     /\ forall k, k ∈ new <-> answers_at cur k /\ ~ (answers_at prev k /\ ~ fails_at cur k))
    /\ (NoDup resolved /\ tr_resolved_total r = Z.of_nat (length resolved)
        /\ forall k, k ∈ resolved <-> answers_at prev k /\ ~ answers_at cur k /\ ~ fails_at cur k)
    /\ (NoDup (map st_key (tr_transitions r))
        /\ forall k, (exists t, t ∈ tr_transitions r /\ st_key t = k) <->
             answers_at cur k /\ answers_at prev k /\ ~ fails_at cur k
             /\ sev_get k (previous_sev cur prev) <> sev_get k (current_sev cur))
    /\ (forall t, t ∈ tr_transitions r -> st_key t ∉ new /\ st_key t ∉ resolved)
    /\ (let '(h, m, l) := tr_new r in h + m + l <= tr_new_total r)
    /\ (let '(h, m, l) := tr_resolved r in h + m + l <= tr_resolved_total r)
    /\ (length (tr_new_sample r) <= 5)%nat /\ (length (tr_resolved_sample r) <= 5)%nat
    /\ (forall s, s ∈ tr_new_sample r -> sf_key s ∈ new)
    /\ (forall s, s ∈ tr_resolved_sample r -> sf_key s ∈ resolved).
Proof.
  intros Ho. cbv zeta. unfold compare_sessions. cbv zeta. simpl.
  set (c := current_sev cur). set (p := previous_sev cur prev).
  destruct (transitions_spec set_order c p Ho) as [Tn Ts].
  exists (minus (keys_of c) (keys_of p)), (minus (keys_of p) (keys_of c)). split_and!.
  - apply nodup_filter, NoDup_remove_dups.
  - done.
  - intros k. unfold c, p. by rewrite elem_of_minus, elem_of_current, elem_of_previous.
  - apply nodup_filter, NoDup_remove_dups.
  - done.
  - intros k. unfold c, p. rewrite elem_of_minus, elem_of_current, elem_of_previous. naive_solver.
  - done.
  - intros k. unfold c, p in *. split.
    + intros (t & (H1 & H2 & H3 & H4 & H5)%Ts & <-). rewrite elem_of_current in H1.
      rewrite elem_of_previous in H2. destruct H2. split_and!; [done..|congruence].
    + intros (H1 & H2 & H3 & H4). exists {| st_key := k; st_previous := sev_get k (previous_sev cur prev);
                                            st_current := sev_get k (current_sev cur) |}.
      split; [|done]. apply Ts. simpl. rewrite elem_of_current, elem_of_previous. done.
  - intros t (H1 & H2 & _)%Ts. rewrite !elem_of_minus. naive_solver.
  - apply buckets_le.
  - apply buckets_le.
  - apply sample_length.
  - apply sample_length.
  - intros s (e & _ & Hk & ->)%elem_of_sample. done.
  - intros s (e & _ & Hk & ->)%elem_of_sample. done.
Qed.

(** * Observations *)

Definition trend_row (host : string) (error : option string) (stamp : option Z) (run : option string) : endpoint_row :=
  {| er_ep := {| ep_host := host; ep_port := 443; ep_protocol := Some "TLS";
       ep_scanned_at := option_map naive stamp;
       ep_tls_version := None; ep_cipher_suite := None; ep_cert_subject := None;
       ep_cert_issuer := None; ep_cert_sig_alg := None; ep_cert_pubkey_alg := None;
       ep_cert_pubkey_size := None; ep_cert_spki_fingerprint := None; ep_cert_not_after := None;
       ep_scan_error := error; ep_tls_blocker_reason := None; ep_service_detail := None;
       ep_tls_supported_versions := None; ep_severity := Some "HIGH"; ep_scan_run_id := run |};
     er_text := fun _ => None; er_flag := fun _ => None |}.

Definition up (host : string) : endpoint_row := trend_row host None (Some 0) (Some "s").
Definition down (host : string) : endpoint_row := trend_row host (Some "timeout") (Some 0) (Some "s").

(** Three hosts before; one still answers, one times out, one is gone: only the
    last is resolved. *)
Lemma trend_delta_exact_witness :
  let r := compare_sessions (fun l => l) [up "a"; down "b"] [up "a"; up "b"; up "c"] None None in
  tr_resolved_total r = 1 /\ tr_new_total r = 0 /\ (length (tr_resolved_sample r) <= 5)%nat.
Proof.
  cbv zeta.
  destruct (trend_delta_exact (fun l => l) [up "a"; down "b"] [up "a"; up "b"; up "c"] None None
              (fun l => reflexivity l))
    as (new & resolved & _ & _ & _ & _ & _ & _ & _ & Hlen & _).
  split; [vm_compute; reflexivity|]. split; [vm_compute; reflexivity|exact Hlen].
Defined.

(** An address that answers in both sessions, with one failed row now, counts as
    new: the failure removes it from the previous side only. *)
Example failed_row_makes_address_new :
  (compare_sessions (fun l => l) [up "a"; down "a"] [up "a"] None None).(tr_new_total) = 1
  /\ (compare_sessions (fun l => l) [up "a"] [up "a"] None None).(tr_new_total) = 0.
Proof. vm_compute. auto. Qed.

(** The rows of a run are fetched with those that have no instant. *)
Example unstamped_rows_are_fetched :
  let d := {| db_endpoints := [trend_row "a" None (Some 7) (Some "s"); trend_row "b" None None (Some "s")];
              db_items := []; db_fps := []; db_events := []; db_sigs := []; db_calls := 0 |} in
  map (fun e => ep_host (er_ep e)) (fetch_session_endpoints d 7) = ["a"; "b"].
Proof. vm_compute. reflexivity. Qed.
