(* ===== verification/Sensors.v ===== *)
(** Sensors: enrolment and revocation ([cli/console_cmd.py]), the token
    authentication ([dashboard/api/middleware/sensor_auth.py]), the push route
    ([dashboard/api/routes/sensor.py]) and the ingest both transports share.

    The tables are lists of rows; a [session] has the committed tables and those
    with the pending writes.  Parameters: [sha256hex], the parsers of [ipaddress]
    and of [datetime] and [date], the decompression, the JSON of an envelope (with the
    text of the exception where they fail), and those of [HwDrift].  The values of a wire row have the types the sensor's exporter
    writes; a database error is not modelled.  [cert_not_before] and the request
    signature, which nothing reads, are left out. *)
From Stdlib Require Import ZArith Lia Ascii.
From stdpp Require Import base tactics sets gmap strings list pretty.
From S2P Require Import Prelude PyStr PyVal Model Hardware HwDrift.

Local Open Scope Z_scope.
Local Open Scope quirk_scope.

(** * Tables *)

Record Sensor := {
  sn_id : string; sn_segment : string; sn_engagement : option string;
  sn_enrolled_at : Z; sn_last_push_at : option Z;
  sn_cadence : option Z; sn_version : option string
}.

Record SensorToken := {
  tk_id : Z; tk_sensor : string; tk_hash : string; tk_created_at : Z; tk_revoked_at : option Z
}.

Record SensorPush := { sp_id : Z; sp_payload : string; sp_sensor : string; sp_received_at : Z }.

(** A [CryptoEndpoint] row with its push columns. *)
Record pushed_endpoint := {
  pe_id : Z; pe_row : endpoint_row;
  pe_sensor : option string; pe_segment : option string; pe_push : option string
}.

Record IntegrationDelivery := {
  dv_scan : string; dv_destination : string; dv_status : string;
  dv_attempted_at : Z; dv_error : option string;
  dv_client_ip : option string; dv_sensor : option string
}.

Record MergeRun := {
  mr_id : Z; mr_scan : string; mr_merged_at : Z; mr_endpoints : Z; mr_sensors : Z;
  mr_score : option Z; mr_warning : option (list string * string)
}.

Record console_db := {
  cdb_sensors : list Sensor;
  cdb_tokens : list SensorToken;
  cdb_pushes : list SensorPush;
  cdb_endpoints : list pushed_endpoint;
  cdb_deliveries : list IntegrationDelivery;
  cdb_merges : list MergeRun;
  cdb_hw : hw_db
}.

Definition set_sensors (l : list Sensor) (d : console_db) : console_db :=
  {| cdb_sensors := l; cdb_tokens := cdb_tokens d; cdb_pushes := cdb_pushes d;
     cdb_endpoints := cdb_endpoints d; cdb_deliveries := cdb_deliveries d;
     cdb_merges := cdb_merges d; cdb_hw := cdb_hw d |}.
Definition set_tokens (l : list SensorToken) (d : console_db) : console_db :=
  {| cdb_sensors := cdb_sensors d; cdb_tokens := l; cdb_pushes := cdb_pushes d;
     cdb_endpoints := cdb_endpoints d; cdb_deliveries := cdb_deliveries d;
     cdb_merges := cdb_merges d; cdb_hw := cdb_hw d |}.
Definition add_push (p : SensorPush) (d : console_db) : console_db :=
  {| cdb_sensors := cdb_sensors d; cdb_tokens := cdb_tokens d; cdb_pushes := cdb_pushes d ++ [p];
     cdb_endpoints := cdb_endpoints d; cdb_deliveries := cdb_deliveries d;
     cdb_merges := cdb_merges d; cdb_hw := cdb_hw d |}.
Definition add_endpoint (e : pushed_endpoint) (d : console_db) : console_db :=
  {| cdb_sensors := cdb_sensors d; cdb_tokens := cdb_tokens d; cdb_pushes := cdb_pushes d;
     cdb_endpoints := cdb_endpoints d ++ [e]; cdb_deliveries := cdb_deliveries d;
     cdb_merges := cdb_merges d; cdb_hw := cdb_hw d |}.
Definition add_delivery (v : IntegrationDelivery) (d : console_db) : console_db :=
  {| cdb_sensors := cdb_sensors d; cdb_tokens := cdb_tokens d; cdb_pushes := cdb_pushes d;
     cdb_endpoints := cdb_endpoints d; cdb_deliveries := cdb_deliveries d ++ [v];
     cdb_merges := cdb_merges d; cdb_hw := cdb_hw d |}.
Definition add_merge (m : MergeRun) (d : console_db) : console_db :=
  {| cdb_sensors := cdb_sensors d; cdb_tokens := cdb_tokens d; cdb_pushes := cdb_pushes d;
     cdb_endpoints := cdb_endpoints d; cdb_deliveries := cdb_deliveries d;
     cdb_merges := cdb_merges d ++ [m]; cdb_hw := cdb_hw d |}.
Definition set_hw (h : hw_db) (d : console_db) : console_db :=
  {| cdb_sensors := cdb_sensors d; cdb_tokens := cdb_tokens d; cdb_pushes := cdb_pushes d;
     cdb_endpoints := cdb_endpoints d; cdb_deliveries := cdb_deliveries d;
     cdb_merges := cdb_merges d; cdb_hw := h |}.

(** A session: what is committed, and what its own queries see. *)
Record session := { committed : console_db; visible : console_db }.

Definition open_session (d : console_db) : session := {| committed := d; visible := d |}.
Definition write (f : console_db -> console_db) (s : session) : session :=
  {| committed := committed s; visible := f (visible s) |}.
Definition commit (s : session) : session := {| committed := visible s; visible := visible s |}.
Definition rollback (s : session) : session := {| committed := committed s; visible := committed s |}.

Definition find_sensor (id : string) (d : console_db) : option Sensor :=
  List.find (fun s => str_eqb (sn_id s) id) (cdb_sensors d).

(** [strftime("%Y-%m-%dT%H:%M:%SZ")] *)
Definition utc_stamp (us : Z) : string := to_iso_z (us / 1000000 * 1000000).

(** * Wire data *)

Record wire_finding := {
  wf_host : option string; wf_port : option Z; wf_protocol : option string;
  wf_scanned_at : option string; wf_tls_version : option string; wf_cipher_suite : option string;
  wf_cert_subject : option string; wf_cert_issuer : option string; wf_cert_sans : option string;
  wf_cert_sig_alg : option string; wf_cert_pubkey_alg : option string; wf_cert_pubkey_size : option Z;
  wf_cert_spki_fingerprint : option string; wf_cert_not_after : option string
}.

Record wire_device := {
  wd_host : option string; wd_port : option Z; wd_vendor : option string; wd_model : option string;
  wd_pqc_status : option string; wd_eol_date : option string; wd_confidence : option string;
  wd_scanned_at : option string; wd_tier : option string; wd_bridge_evidence_json : option string;
  wd_bridge_confirmed_at : option string; wd_modbus_firmware : option string;
  wd_bacnet_firmware : option string; wd_probe_status : option string; wd_is_partial_scan : option bool
}.

(** [None] in a list stands for an entry that is no object. *)
Record PushEnvelope := {
  en_payload_id : string; en_pushed_at : string;
  en_sensor_version : string; en_sensor_id : string; en_segment : string;
  en_findings : list (option wire_finding);
  en_hardware : option (list (option wire_device))
}.

Definition PAYLOAD_ID_MAX_LEN : nat := 64.

Definition valid_payload_id (payload_id : string) : bool :=
  truthy_str (Some (strip payload_id)) && (String.length payload_id <=? PAYLOAD_ID_MAX_LEN)%nat.

Definition BODY_LIMIT : Z := 10 * 1024 * 1024.
Definition MAX_DECOMPRESS_BYTES : Z := 20 * 1024 * 1024.
Definition REPLAY_WINDOW : Z := 15 * 60 * 1000000.

(** * Enrolment and revocation *)

Section Enrolment.
Context (sha256hex : string -> string).

Inductive enrolled := AlreadyEnrolled | EnrolRefused | Enrolled (token : string).

(** [raw_token] is the freshly minted secret. *)
Definition cmd_enroll (sensor_id segment : string) (engagement : option string) (raw_token : string) (now : Z)
    (d : console_db) : enrolled * console_db :=
  match find_sensor sensor_id d with
  | Some _ => (AlreadyEnrolled, d)
  | None =>
      let token_hash := sha256hex raw_token in
      if bool_decide (token_hash ∈ map tk_hash (cdb_tokens d)) then (EnrolRefused, d)
      else
        (Enrolled raw_token,
         set_tokens (cdb_tokens d ++ [{| tk_id := next_id (map tk_id (cdb_tokens d)); tk_sensor := sensor_id;
                                         tk_hash := token_hash; tk_created_at := now; tk_revoked_at := None |}])
           (set_sensors (cdb_sensors d ++ [{| sn_id := sensor_id; sn_segment := segment; sn_engagement := engagement;
                                              sn_enrolled_at := now; sn_last_push_at := None;
                                              sn_cadence := Some 1440; sn_version := None |}]) d))
  end.

Definition active_token_of (sensor_id : string) (t : SensorToken) : bool :=
  str_eqb (tk_sensor t) sensor_id && bool_decide (tk_revoked_at t = None).

Definition revoke_at (now : Z) (t : SensorToken) : SensorToken :=
  {| tk_id := tk_id t; tk_sensor := tk_sensor t; tk_hash := tk_hash t; tk_created_at := tk_created_at t;
     tk_revoked_at := Some now |}.

(** [None]: no active token, exit status 1. *)
Definition cmd_revoke_sensor (sensor_id : string) (now : Z) (d : console_db) : option console_db :=
  if negb (existsb (active_token_of sensor_id) (cdb_tokens d)) then None
  else Some (set_tokens (map (fun t => if active_token_of sensor_id t then revoke_at now t else t) (cdb_tokens d)) d).

(** * Authentication *)

Context {net addr : Type}.
Context (ip_network : string -> option net) (ip_address : string -> option addr) (in_net : addr -> net -> bool).

(** [QUIRK_SENSOR_IP_ALLOWLIST] *)
Definition ip_allowlist (env : option string) : list net :=
  let raw := strip (str_or_empty env) in
  if negb (truthy_str (Some raw)) then []
  else omap (fun e => if truthy_str (Some e) then ip_network e else None) (map strip (split_on "," raw)).

Definition ip_allowed (client_host : option string) (nets : list net) : bool :=
  match nets with
  | [] => true
  | _ => if negb (truthy_str client_host) then false
         else match ip_address (str_or_empty client_host) with
              | None => false
              | Some ip => existsb (in_net ip) nets
              end
  end.

Definition push_delivery (scan status : string) (now : Z) (error client_ip sensor : option string)
  : IntegrationDelivery :=
  {| dv_scan := scan; dv_destination := "sensor_push"; dv_status := status; dv_attempted_at := now;
     dv_error := error; dv_client_ip := client_ip; dv_sensor := sensor |}.

Inductive reply :=
| Refused (status : Z) (detail : string)
| Replayed (console_utc : string)
| Accepted (sensor_id payload_id : string).

Record request := {
  rq_content_length : option string;
  rq_body : string;
  rq_bearer : option string;
  rq_client : option string
}.

Definition auth_refusal (allowlist : option string) (r : request) (d : console_db)
  : (Z * string * string) + string :=
  let nets := ip_allowlist allowlist in
  if negb (ip_allowed (rq_client r) nets) then
    inl (403, "sensor_ip_not_allowed", "Sensor source IP not permitted")
  else
    match rq_bearer r with
    | None => inl (401, "missing_sensor_token", "Sensor authentication required")
    | Some token =>
        match List.find (fun t => str_eqb (tk_hash t) (sha256hex token)) (cdb_tokens d) with
        | None => inl (401, "unknown_sensor_token", "Unknown sensor token")
        | Some row =>
            match tk_revoked_at row with
            | Some _ => inl (401, "revoked_sensor_token", "Sensor token revoked")
            | None => inr (tk_sensor row)
            end
        end
    end.

(** The refused reply with its audit row, or the sensor of the token. *)
Definition require_sensor_auth (allowlist : option string) (now : Z) (r : request) (d : console_db)
  : (reply * console_db) + string :=
  match auth_refusal allowlist r d with
  | inl (status, summary, detail) =>
      inl (Refused status detail,
           add_delivery (push_delivery (utc_stamp now) "failed" now (Some summary) (rq_client r) None) d)
  | inr sensor_id => inr sensor_id
  end.
End Enrolment.

(** * Ingest *)

Section Ingest.
(** [datetime.fromisoformat] and [date.fromisoformat], [None] where they raise. *)
Context (fromisoformat : string -> option datetime) (date_fromisoformat : string -> option Z).
Context (loads : string -> option pyval) (clock : Z -> Z).
Context (addr_order : list (string * Z) -> list (string * Z)) (vendor_order : list string -> list string).

(** [_parse_dt]: the wall clock; the offset is dropped, not applied. *)
Definition parse_dt (value : option string) : option Z :=
  if truthy_str value then dt_wall <$> fromisoformat (replace "Z" "+00:00" (str_or_empty value)) else None.

Definition finding_row (f : wire_finding) : endpoint_row :=
  {| er_ep :=
       {| ep_host := str_or_empty (wf_host f); ep_port := default 0 (wf_port f);
          ep_protocol := wf_protocol f; ep_scanned_at := naive <$> parse_dt (wf_scanned_at f);
          ep_tls_version := wf_tls_version f; ep_cipher_suite := wf_cipher_suite f;
          ep_cert_subject := wf_cert_subject f; ep_cert_issuer := wf_cert_issuer f;
          ep_cert_sig_alg := wf_cert_sig_alg f; ep_cert_pubkey_alg := wf_cert_pubkey_alg f;
          ep_cert_pubkey_size := wf_cert_pubkey_size f;
          ep_cert_spki_fingerprint := wf_cert_spki_fingerprint f;
          ep_cert_not_after := naive <$> parse_dt (wf_cert_not_after f);
          ep_scan_error := None; ep_tls_blocker_reason := None; ep_service_detail := None;
          ep_tls_supported_versions := None; ep_severity := None; ep_scan_run_id := None |};
     er_text := fun field => if str_eqb field "cert_sans" then wf_cert_sans f else None;
     er_flag := fun _ => None |}.

(** [a or dflt] for a nullable string. *)
Definition or_default (dflt : string) (o : option string) : string :=
  if truthy_str o then str_or_empty o else dflt.

Definition device_row (now : Z) (d : wire_device) : hw_row :=
  {| hr_dev :=
       {| hd_id := 0; hd_host := str_or_empty (wd_host d); hd_port := default 0 (wd_port d);
          hd_vendor := Some (or_default "Unknown" (wd_vendor d)); hd_model := wd_model d;
          hd_pqc_status := Some (or_default "unknown" (wd_pqc_status d));
          hd_bridge_evidence_json := wd_bridge_evidence_json d;
          hd_probe_status := wd_probe_status d;
          hd_scanned_at := Some (default now (parse_dt (wd_scanned_at d))) |};
     hr_confidence := Some (or_default "unknown" (wd_confidence d));
     hr_eol_date := if truthy_str (wd_eol_date d) then date_fromisoformat (str_or_empty (wd_eol_date d)) else None;
     hr_tier := Some (or_default "Tier N/A" (wd_tier d));
     hr_bridge_confirmed_at := parse_dt (wd_bridge_confirmed_at d);
     hr_modbus_firmware := wd_modbus_firmware d; hr_bacnet_firmware := wd_bacnet_firmware d;
     hr_is_partial_scan := wd_is_partial_scan d |}.

Inductive ingest_error := DuplicatePayload | UnknownSensor | InvalidPayload.

(** The update of [sensors] on an accepted push. *)
Definition touch_sensor (sensor_id sensor_version : string) (now : Z) (s : Sensor) : Sensor :=
  if str_eqb (sn_id s) sensor_id then
    {| sn_id := sn_id s; sn_segment := sn_segment s; sn_engagement := sn_engagement s;
       sn_enrolled_at := sn_enrolled_at s; sn_last_push_at := Some now; sn_cadence := sn_cadence s;
       sn_version := if truthy_str (Some sensor_version) then Some sensor_version else sn_version s |}
  else s.

Definition ingest_finding (env : PushEnvelope) (f : option wire_finding) (d : console_db) : console_db :=
  match f with
  | None => d
  | Some f =>
      add_endpoint {| pe_id := next_id (map pe_id (cdb_endpoints d)); pe_row := finding_row f;
                      pe_sensor := Some (en_sensor_id env); pe_segment := Some (en_segment env);
                      pe_push := Some (en_payload_id env) |} d
  end.

(** [persist_and_reconcile] commits the session unless it has no device; the
    retention is the default one. *)
Definition ingest_hardware (now today : Z) (devices : list (option wire_device)) (s : session) : session :=
  match omap (option_map (device_row now)) devices with
  | [] => s
  | rows =>
      let h := snd (persist_and_reconcile loads clock addr_order vendor_order now today None rows (cdb_hw (visible s))) in
      commit (write (set_hw h) s)
  end.

(** [_ingest_envelope] on the caller's session; the duplicate test is the UNIQUE
    constraint of the insert, the sensor test its foreign key. *)
Definition ingest_envelope (now today : Z) (env : PushEnvelope) (s : session) : session + (ingest_error * session) :=
  if negb (valid_payload_id (en_payload_id env)) then inr (InvalidPayload, s)
  else if bool_decide (en_payload_id env ∈ map sp_payload (cdb_pushes (visible s))) then
    inr (DuplicatePayload, rollback s)
  else match find_sensor (en_sensor_id env) (visible s) with
       | None => inr (UnknownSensor, rollback s)
       | Some _ =>
           let s := write (fun d => add_push {| sp_id := next_id (map sp_id (cdb_pushes d));
                                                sp_payload := en_payload_id env; sp_sensor := en_sensor_id env;
                                                sp_received_at := now |} d) s in
           let s := write (fun d => set_sensors (map (touch_sensor (en_sensor_id env) (en_sensor_version env) now)
                                                     (cdb_sensors d)) d) s in
           let s := write (fun d => foldl (fun d f => ingest_finding env f d) d (en_findings env)) s in
           inl (match en_hardware env with
                | None => s
                | Some devices => ingest_hardware now today devices s
                end)
       end.

(** The air-gap import after the file is decoded and its keys are checked: its
    own session, no token and no replay window; [None] is exit status 1. *)
Definition import_results (now today : Z) (env : PushEnvelope) (d : console_db) : option console_db :=
  if negb (valid_payload_id (en_payload_id env)) then None
  else match ingest_envelope now today env (open_session d) with
       | inl s => Some (committed (commit s))
       | inr _ => None
       end.

(** * The push route *)

(** The bytes decompressed from a body, the envelope of the bytes; the text is
    [safe_str] of the exception. *)
Context (decompress : string -> string + string) (parse_envelope : string -> PushEnvelope + string).
Context (invalid_envelope : PushEnvelope -> string).

Definition is_hex (c : Ascii.ascii) : bool :=
  is_digit c || (let n := Ascii.nat_of_ascii c in ((97 <=? n) && (n <=? 102) || (65 <=? n) && (n <=? 70))%nat).

(** [n] hexadecimal digits, and the rest. *)
Fixpoint hex_run (n : nat) (s : string) : option string :=
  match n, s with
  | O, _ => Some s
  | S n', String c s' => if is_hex c then hex_run n' s' else None
  | S _, EmptyString => None
  end.

(** The groups of hexadecimal digits, with a dash between two of them. *)
Fixpoint hex_groups (sizes : list nat) (s : string) : option string :=
  match sizes with
  | [] => Some s
  | [n] => hex_run n s
  | n :: sizes' =>
      match hex_run n s with
      | Some (String "-"%char s') => hex_groups sizes' s'
      | _ => None
      end
  end.

(** [_UUID_RE.match]; [$] also matches before a final newline. *)
Definition uuid_re (s : string) : bool :=
  match hex_groups [8; 4; 4; 4; 12]%nat s with
  | Some rest => str_in rest [EmptyString; str1 (chr 10)]
  | None => false
  end.

(** The readings of the clock in one request: on entry, when the push is
    ingested and when the audit row is written; and the date of the reconciliation. *)
Record readings := { rd_received : Z; rd_ingest : Z; rd_audit : Z; rd_today : Z }.

(** Why a push of the sensor [sensor_id] is refused before its ingest: the audit
    scan id, the error and the reply; or the envelope to ingest. *)
Definition push_refusal (t : readings) (sensor_id : string) (r : request) (d : console_db)
  : (string * string * reply) + (string * PushEnvelope) :=
  let received_at := rd_received t in
  let scan_id := utc_stamp received_at in
  let too_large := inl (scan_id, "payload_too_large", Refused 413 "Payload too large (10 MB limit)") in
  if truthy_str (rq_content_length r)
     && (BODY_LIMIT <? default 0 (int_or_none (VStr (str_or_empty (rq_content_length r))))) then too_large
  else if BODY_LIMIT <? Z.of_nat (String.length (rq_body r)) then too_large
  else
    match decompress (rq_body r) with
    | inr text => inl (scan_id, text, Refused 400 "Body is not valid zstd-compressed data")
    | inl raw =>
        if MAX_DECOMPRESS_BYTES <? Z.of_nat (String.length raw) then
          inl (scan_id, "decompressed_payload_too_large", Refused 413 "Decompressed payload exceeds 20 MB limit")
        else
          let unparsed text := inl (scan_id, text, Refused 400 "Body could not be parsed as a push envelope") in
          match parse_envelope raw with
          | inr text => unparsed text
          | inl env =>
              if negb (valid_payload_id (en_payload_id env)) then unparsed (invalid_envelope env)
              else
                let scan_id := str_take 64 (if truthy_str (Some (en_pushed_at env)) then en_pushed_at env else scan_id) in
                match fromisoformat (replace "Z" "+00:00" (en_pushed_at env)) with
                | None => inl (scan_id, "unparseable_pushed_at",
                               Refused 422 "pushed_at is not a valid ISO-8601 timestamp")
                | Some pushed_at =>
                    if REPLAY_WINDOW <? Z.abs (received_at - dt_wall pushed_at) then
                      inl (scan_id, "replay_window_exceeded", Replayed (utc_stamp received_at))
                    else if negb (uuid_re sensor_id) then
                      inl (scan_id, "invalid_sensor_id_shape", Refused 400 "Invalid sensor_id shape")
                    else match find_sensor sensor_id d with
                         | None => inl (scan_id, "unknown_sensor_id", Refused 404 "Unknown sensor_id")
                         | Some _ =>
                             if negb (str_eqb (en_sensor_id env) sensor_id) then
                               inl (scan_id, "sensor_id_mismatch",
                                    Refused 403 "sensor_id mismatch: token does not match envelope")
                             else inr (scan_id, env)
                         end
                end
          end
    end.

Definition audit (t : readings) (r : request) (sensor_id scan_id status : string) (error : option string)
    (s : session) : session :=
  write (add_delivery (push_delivery scan_id status (rd_audit t) error (rq_client r) (Some sensor_id))) s.

(** [sensor_push], for the sensor of the token. *)
Definition sensor_push (t : readings) (sensor_id : string) (r : request) (d : console_db) : reply * console_db :=
  let failed scan_id error s := committed (commit (audit t r sensor_id scan_id "failed" (Some error) s)) in
  match push_refusal t sensor_id r d with
  | inl (scan_id, error, answer) => (answer, failed scan_id error (open_session d))
  | inr (scan_id, env) =>
      match ingest_envelope (rd_ingest t) (rd_today t) env (open_session d) with
      | inr (DuplicatePayload, s) =>
          (Refused 409 "Duplicate payload_id", failed scan_id "duplicate_payload_id" (rollback s))
      | inr (UnknownSensor, s) =>
          (Refused 404 "Unknown sensor_id", failed scan_id "unknown_sensor_id" (rollback s))
      | inr (InvalidPayload, s) => (Refused 500 "Ingest failed", failed scan_id "ValueError: invalid payload_id" (rollback s))
      | inl s =>
          (Accepted (en_sensor_id env) (en_payload_id env),
           committed (commit (audit t r sensor_id scan_id "ok" None s)))
      end
  end.

Context (sha256hex : string -> string) {net addr : Type}.
Context (ip_network : string -> option net) (ip_address : string -> option addr) (in_net : addr -> net -> bool).

(** A request through the authentication and the handler. *)
Definition push_request (allowlist : option string) (t : readings) (r : request) (d : console_db)
  : reply * console_db :=
  match require_sensor_auth sha256hex ip_network ip_address in_net allowlist (rd_received t) r d with
  | inl refused => refused
  | inr sensor_id => sensor_push t sensor_id r d
  end.
End Ingest.
