(* ===== verification/SensorsProps.v ===== *)
(** Properties of the sensor console ([Sensors]): what every push attempt leaves
    behind, what an accepted push writes, the invariants of the tables over any
    sequence of operations, and that a revoked sensor stays out. *)
From Stdlib Require Import ZArith Lia Ascii Sorted.
From stdpp Require Import base tactics sets gmap strings list pretty.
From S2P Require Import Prelude PyStr PyVal Model Hardware HwDrift HwDriftProps Sensors.

Local Open Scope Z_scope.
Local Open Scope quirk_scope.

Section Push.
Context (fromisoformat : string -> option datetime) (date_fromisoformat : string -> option Z).
Context (loads : string -> option pyval) (clock : Z -> Z).
Context (addr_order : list (string * Z) -> list (string * Z)) (vendor_order : list string -> list string).
Context (decompress : string -> string + string) (parse_envelope : string -> PushEnvelope + string).
Context (invalid_envelope : PushEnvelope -> string).
Context (sha256hex : string -> string) {net addr : Type}.
Context (ip_network : string -> option net) (ip_address : string -> option addr) (in_net : addr -> net -> bool).

Notation ingest := (ingest_envelope fromisoformat date_fromisoformat loads clock addr_order vendor_order).
Notation push := (push_request fromisoformat date_fromisoformat loads clock addr_order vendor_order
  decompress parse_envelope invalid_envelope sha256hex ip_network ip_address in_net).
Notation refusal := (push_refusal fromisoformat decompress parse_envelope invalid_envelope).
Notation import := (import_results fromisoformat date_fromisoformat loads clock addr_order vendor_order).
Notation hw_after now today devices h :=
  (snd (persist_and_reconcile loads clock addr_order vendor_order now today None
          (omap (option_map (device_row fromisoformat date_fromisoformat now)) devices) h)).

(** ** What an ingest writes *)

(** The endpoint rows of a list of findings, under consecutive ids. *)
Definition tagged_rows (env : PushEnvelope) : list endpoint_row :=
  omap (option_map (finding_row fromisoformat)) (en_findings env).

Definition tagged_as (sid seg pid : string) (e : pushed_endpoint) : Prop :=
  pe_sensor e = Some sid /\ pe_segment e = Some seg /\ pe_push e = Some pid.

(** Ids that grow along a list, all above [n]. *)
Fixpoint ids_from (n : Z) (l : list pushed_endpoint) : Prop :=
  match l with [] => True | e :: l' => n <= pe_id e /\ ids_from (pe_id e + 1) l' end.

Lemma ids_from_weaken n m l : m <= n -> ids_from n l -> ids_from m l.
Proof. destruct l as [|e l]; simpl; [done|]. intros ? []. split; [lia|done]. Qed.

(** The tables other than the endpoints are those of [d]. *)
Definition same_but_endpoints (d d' : console_db) : Prop :=
  cdb_sensors d' = cdb_sensors d /\ cdb_tokens d' = cdb_tokens d /\ cdb_pushes d' = cdb_pushes d
  /\ cdb_deliveries d' = cdb_deliveries d /\ cdb_merges d' = cdb_merges d /\ cdb_hw d' = cdb_hw d.

Lemma ingest_findings_spec env fs d :
  let d' := foldl (fun d f => ingest_finding fromisoformat env f d) d fs in
  same_but_endpoints d d' /\
  exists new, cdb_endpoints d' = cdb_endpoints d ++ new
  /\ map pe_row new = omap (option_map (finding_row fromisoformat)) fs
  /\ Forall (tagged_as (en_sensor_id env) (en_segment env) (en_payload_id env)) new
  /\ ids_from (next_id (map pe_id (cdb_endpoints d))) new.
Proof.
  revert d. induction fs as [|[f|] fs IH]; intros d; cbn [foldl].
  - split; [done|]. exists []. by rewrite app_nil_r.
  - destruct (IH (ingest_finding fromisoformat env (Some f) d)) as [Hsame (new & He & Hm & Ht & Hi)].
    split; [done|]. cbn [ingest_finding add_endpoint cdb_endpoints] in He, Hi.
    rewrite <- app_assoc in He. eexists. split; [exact He|]. split_and!.
    + cbn [app map pe_row omap list_omap option_map option_fmap]. unfold omap in Hm. by rewrite Hm.
    + constructor; [done|exact Ht].
    + cbn [app ids_from pe_id]. split; [lia|]. eapply ids_from_weaken; [|exact Hi].
      assert (next_id (map pe_id (cdb_endpoints d)) < next_id (map pe_id (cdb_endpoints d ++
        [{| pe_id := next_id (map pe_id (cdb_endpoints d)); pe_row := finding_row fromisoformat f;
            pe_sensor := Some (en_sensor_id env); pe_segment := Some (en_segment env);
            pe_push := Some (en_payload_id env) |}]))); [|lia].
      apply next_id_above. rewrite map_app. apply elem_of_app. right. left.
  - apply (IH d).
Qed.

(** [d'] is [d] with the push of [env] ingested at [now]. *)
Record ingested (now today : Z) (env : PushEnvelope) (d d' : console_db) : Prop := {
  in_sensors : cdb_sensors d' = map (touch_sensor (en_sensor_id env) (en_sensor_version env) now) (cdb_sensors d);
  in_tokens : cdb_tokens d' = cdb_tokens d;
  in_pushes : cdb_pushes d' = cdb_pushes d ++
    [{| sp_id := next_id (map sp_id (cdb_pushes d)); sp_payload := en_payload_id env;
        sp_sensor := en_sensor_id env; sp_received_at := now |}];
  in_endpoints : exists new, cdb_endpoints d' = cdb_endpoints d ++ new
    /\ map pe_row new = tagged_rows env
    /\ Forall (tagged_as (en_sensor_id env) (en_segment env) (en_payload_id env)) new
    /\ ids_from (next_id (map pe_id (cdb_endpoints d))) new;
  in_deliveries : cdb_deliveries d' = cdb_deliveries d;
  in_merges : cdb_merges d' = cdb_merges d;
  in_hw : cdb_hw d' = match en_hardware env with
                      | None => cdb_hw d
                      | Some devices => hw_after now today devices (cdb_hw d)
                      end
}.

Lemma ingest_hardware_visible now today devices s :
  visible (ingest_hardware fromisoformat date_fromisoformat loads clock addr_order vendor_order now today devices s)
  = set_hw (hw_after now today devices (cdb_hw (visible s))) (visible s).
Proof.
  unfold ingest_hardware. destruct (omap _ devices) as [|row rows]; [|done]. by destruct s as [c []].
Qed.

Lemma ingest_ok now today env d s :
  ingest now today env (open_session d) = inl s -> ingested now today env d (visible s)
  /\ valid_payload_id (en_payload_id env) = true
  /\ en_payload_id env ∉ map sp_payload (cdb_pushes d) /\ is_Some (find_sensor (en_sensor_id env) d).
Proof.
  unfold ingest_envelope. destruct (valid_payload_id (en_payload_id env)) eqn:Ev; [|done]. cbn [negb].
  case_bool_decide as Hdup; [done|].
  destruct (find_sensor (en_sensor_id env) (visible (open_session d))) as [sn|] eqn:Ef; [|done].
  intros [= <-]. split; [|split_and!; [done..|by exists sn]].
  unfold write, open_session. cbn [committed visible].
  match goal with |- context [foldl _ ?d0 (en_findings env)] => set (d1 := d0) end.
  destruct (ingest_findings_spec env (en_findings env) d1) as [(H1&H2&H3&H4&H5&H6) Hnew].
  assert (Hd1 : ingested now today env d
    (visible (match en_hardware env with
              | Some devices => ingest_hardware fromisoformat date_fromisoformat loads clock addr_order vendor_order now today devices
                  {| committed := d; visible := foldl (fun d f => ingest_finding fromisoformat env f d) d1 (en_findings env) |}
              | None => {| committed := d; visible := foldl (fun d f => ingest_finding fromisoformat env f d) d1 (en_findings env) |}
              end))); [|exact Hd1].
  destruct (en_hardware env) as [devices|] eqn:Eh; rewrite ?ingest_hardware_visible;
    (constructor; cbn [visible set_hw cdb_sensors cdb_tokens cdb_pushes cdb_endpoints cdb_deliveries cdb_merges cdb_hw];
     rewrite ?H1, ?H2, ?H3, ?H4, ?H5, ?H6, ?Eh; done).
Qed.

Lemma ingest_error_state now today env d e s :
  ingest now today env (open_session d) = inr (e, s) -> committed s = d /\ visible s = d.
Proof. unfold ingest_envelope. split_ifs; intros [= <- <-]; done. Qed.

(** ** The refusals *)

Lemma refusal_accepts t sid r d scan env :
  refusal t sid r d = inr (scan, env) ->
  en_sensor_id env = sid /\ is_Some (find_sensor sid d) /\ uuid_re sid = true
  /\ valid_payload_id (en_payload_id env) = true
  /\ Z.of_nat (String.length (rq_body r)) <= BODY_LIMIT
  /\ (exists raw, decompress (rq_body r) = inl raw /\ Z.of_nat (String.length raw) <= MAX_DECOMPRESS_BYTES
        /\ parse_envelope raw = inl env)
  /\ exists pushed_at, fromisoformat (replace "Z" "+00:00" (en_pushed_at env)) = Some pushed_at
     /\ Z.abs (rd_received t - dt_wall pushed_at) <= REPLAY_WINDOW.
Proof.
  unfold push_refusal. intros H.
  repeat match type of H with
  | (if ?b then inl _ else _) = _ => destruct b eqn:?; [discriminate H|]
  | match ?x with inl _ => _ | inr _ => inl _ end = _ => destruct x eqn:?; [|discriminate H]
  | match ?x with Some _ => _ | None => inl _ end = _ => destruct x eqn:?; [|discriminate H]
  end.
  injection H as <- <-. bool_to_prop.
  match goal with H : str_eqb _ _ = true |- _ => apply str_eqb_eq in H as -> end.
  split_and!; try done; eauto.
Qed.

Lemma refusal_refuses t sid r d scan error answer sn pid :
  refusal t sid r d = inl (scan, error, answer) -> answer <> Accepted sn pid.
Proof.
  unfold push_refusal. intros H ->. revert H.
  repeat match goal with
  | |- context [match ?x with _ => _ end] => destruct x; try (intros; discriminate)
  end.
Qed.

(** ** Every attempt *)

Definition refused_with (d d' : console_db) (v : IntegrationDelivery) : Prop :=
  dv_status v = "failed" /\ is_Some (dv_error v) /\ d' = add_delivery v d.

Lemma sensor_push_outcome t sid r d answer d' :
  sensor_push fromisoformat date_fromisoformat loads clock addr_order vendor_order
    decompress parse_envelope invalid_envelope t sid r d = (answer, d') ->
  (exists scan env d1, refusal t sid r d = inr (scan, env)
     /\ answer = Accepted (en_sensor_id env) (en_payload_id env)
     /\ ingested (rd_ingest t) (rd_today t) env d d1
     /\ en_payload_id env ∉ map sp_payload (cdb_pushes d)
     /\ d' = add_delivery (push_delivery scan "ok" (rd_audit t) None (rq_client r) (Some sid)) d1)
  \/ ((forall a b, answer <> Accepted a b)
      /\ exists v, dv_destination v = "sensor_push" /\ dv_client_ip v = rq_client r /\ refused_with d d' v).
Proof.
  unfold sensor_push. destruct (refusal t sid r d) as [[[scan error] ans]|[scan env]] eqn:Er.
  - intros [= <- <-]. right. split; [intros a b; by eapply refusal_refuses|].
    eexists. split_and!; [..|split_and!; [| |reflexivity]]; [done..|by eexists].
  - destruct (ingest (rd_ingest t) (rd_today t) env (open_session d)) as [s|[e s]] eqn:Ei.
    + intros [= <- <-]. left. apply ingest_ok in Ei as (Hin & _ & Hfresh & _).
      exists scan, env, (visible s). by split_and!.
    + pose proof (ingest_error_state _ _ _ _ _ _ Ei) as [Hc _].
      destruct e; intros [= <- <-]; right; (split; [done|]); unfold audit, rollback, write, commit;
        cbn [committed visible]; rewrite Hc;
        (eexists; split_and!; [..|split_and!; [| |reflexivity]]; [done..|by eexists]).
Qed.

Lemma push_attempt_outcome allowlist t r d answer d' :
  push allowlist t r d = (answer, d') ->
  (exists d1 v env, ingested (rd_ingest t) (rd_today t) env d d1
     /\ en_payload_id env ∉ map sp_payload (cdb_pushes d) /\ is_Some (find_sensor (en_sensor_id env) d)
     /\ d' = add_delivery v d1)
  \/ exists v, d' = add_delivery v d.
Proof.
  unfold push_request, require_sensor_auth.
  destruct (auth_refusal _ _ _ _ _ _ _) as [[[status summary] detail]|sid].
  { intros [= <- <-]. right. by eexists. }
  intros H. apply sensor_push_outcome in H as [(scan & env & d1 & Hr & _ & Hin & Hfresh & ->)|(_ & v & _ & _ & _ & _ & ->)].
  - left. apply refusal_accepts in Hr as (Hsid & Hs & _). rewrite <- Hsid in Hs. eauto 10.
  - right. by eexists.
Qed.

(** Every push attempt leaves exactly one audit row, and a refused one
    leaves nothing else.  Whatever the request, the token and the state, the
    tables afterwards have one more delivery, for "sensor_push" and from the
    client's address; it says "ok" exactly when the push was accepted, and when
    it says "failed" every other table is untouched. *)
Theorem push_attempt_audited (allowlist : option string) (t : readings) (r : request) (d : console_db) :
  exists v, dv_destination v = "sensor_push" /\ dv_client_ip v = rq_client r
  /\ cdb_deliveries (snd (push allowlist t r d)) = cdb_deliveries d ++ [v]
  /\ match fst (push allowlist t r d) with
     | Accepted _ _ => dv_status v = "ok" /\ dv_error v = None
     | _ => dv_status v = "failed" /\ is_Some (dv_error v) /\ snd (push allowlist t r d) = add_delivery v d
     end.
Proof.
  unfold push_request, require_sensor_auth.
  destruct (auth_refusal _ _ _ _ _ _ _) as [[[status summary] detail]|sid].
  { exists (push_delivery (utc_stamp (rd_received t)) "failed" (rd_received t) (Some summary) (rq_client r) None).
    do 3 (split; [reflexivity|]). cbn [fst snd]. split; [done|]. split; [by eexists|done]. }
  destruct (sensor_push _ _ _ _ _ _ _ _ _ t sid r d) as [answer d'] eqn:E. cbn [fst snd].
  apply sensor_push_outcome in E as [(scan & env & d1 & _ & -> & Hin & _ & ->)|(Hno & v & Hd & Hip & Hs & He & ->)].
  - exists (push_delivery scan "ok" (rd_audit t) None (rq_client r) (Some sid)).
    do 2 (split; [done|]). split; [|done]. cbn [add_delivery cdb_deliveries].
    by rewrite (in_deliveries _ _ _ _ _ Hin).
  - exists v. do 3 (split; [done|]). destruct answer; try done. by destruct (Hno sensor_id payload_id).
Qed.

Lemma auth_accepts allowlist r d sid :
  auth_refusal sha256hex ip_network ip_address in_net allowlist r d = inr sid ->
  exists token row, rq_bearer r = Some token /\ row ∈ cdb_tokens d /\ tk_hash row = sha256hex token
    /\ tk_revoked_at row = None /\ tk_sensor row = sid.
Proof.
  unfold auth_refusal. destruct (negb _); [done|]. destruct (rq_bearer r) as [token|]; [|done].
  destruct (List.find _ _) as [row|] eqn:Ef; [|done].
  apply find_some in Ef as [Hin Hh]. apply list_elem_of_In in Hin. apply str_eqb_eq in Hh.
  destruct (tk_revoked_at row) eqn:Er; [done|]. intros [= <-]. eauto 10.
Qed.


Lemma push_accepts allowlist t r d d' sid pid :
  push allowlist t r d = (Accepted sid pid, d') ->
  exists raw env d1 v, decompress (rq_body r) = inl raw /\ parse_envelope raw = inl env
  /\ en_sensor_id env = sid /\ en_payload_id env = pid /\ pid ∉ map sp_payload (cdb_pushes d)
  /\ ingested (rd_ingest t) (rd_today t) env d d1 /\ d' = add_delivery v d1.
Proof.
  unfold push_request, require_sensor_auth. intros H.
  destruct (auth_refusal _ _ _ _ _ _ _) as [[[status summary] detail]|sid']; [done|].
  apply sensor_push_outcome in H as [(scan & env & d1 & Hr & [= -> ->] & Hin & Hfresh & ->)|(Hno & _)];
    [|by destruct (Hno sid pid)].
  apply refusal_accepts in Hr as (Hsid & _ & _ & _ & _ & (raw & Hd & _ & Hp) & _).
  exists raw, env, d1. eexists. by split_and!.
Qed.

(** ** Sequences of operations *)

(** One operation on the console's tables: the commands and requests above, a
    row of a local scan, an audit row or a merge of another component. *)
Inductive console_step : console_db -> console_db -> Prop :=
| step_enroll d sid segment engagement token now :
    console_step d (snd (cmd_enroll sha256hex sid segment engagement token now d))
| step_revoke d d' sid now : cmd_revoke_sensor sid now d = Some d' -> console_step d d'
| step_push d allowlist t r : console_step d (snd (push allowlist t r d))
| step_import d d' now today env : import now today env d = Some d' -> console_step d d'
| step_local d row :
    console_step d (add_endpoint {| pe_id := next_id (map pe_id (cdb_endpoints d)); pe_row := row;
                                    pe_sensor := None; pe_segment := None; pe_push := None |} d)
| step_delivery d v : console_step d (add_delivery v d)
| step_merge d m : console_step d (add_merge m d).

Definition empty_console : console_db :=
  {| cdb_sensors := []; cdb_tokens := []; cdb_pushes := []; cdb_endpoints := []; cdb_deliveries := [];
     cdb_merges := []; cdb_hw := {| hw_rows := []; hw_events := []; hw_vendor_events := [] |} |}.

Definition id_lt (a b : pushed_endpoint) : Prop := pe_id a < pe_id b.

(** The tables agree: unique sensors, token hashes and payload ids; tokens and
    pushes of enrolled sensors; tagged rows of an accepted push of their sensor;
    row ids in order. *)
Record console_wf (d : console_db) : Prop := {
  wf_sensors : NoDup (map sn_id (cdb_sensors d));
  wf_hashes : NoDup (map tk_hash (cdb_tokens d));
  wf_token_sensor : forall t, t ∈ cdb_tokens d -> tk_sensor t ∈ map sn_id (cdb_sensors d);
  wf_payloads : NoDup (map sp_payload (cdb_pushes d));
  wf_push_sensor : forall p, p ∈ cdb_pushes d -> sp_sensor p ∈ map sn_id (cdb_sensors d);
  wf_tags : forall e pid, e ∈ cdb_endpoints d -> pe_push e = Some pid ->
    exists p, p ∈ cdb_pushes d /\ sp_payload p = pid /\ pe_sensor e = Some (sp_sensor p);
  wf_ids : StronglySorted id_lt (cdb_endpoints d)
}.

Lemma find_sensor_none sid d : find_sensor sid d = None -> sid ∉ map sn_id (cdb_sensors d).
Proof.
  unfold find_sensor. intros Hn Hin. apply list_elem_of_fmap in Hin as (s & -> & Hs).
  apply list_elem_of_In in Hs. apply (find_none _ _ Hn) in Hs. by rewrite str_eqb_refl in Hs.
Qed.

Lemma find_sensor_elem sid d : is_Some (find_sensor sid d) -> sid ∈ map sn_id (cdb_sensors d).
Proof.
  unfold find_sensor. intros [s Hs]. apply find_some in Hs as [Hin He]. apply str_eqb_eq in He as <-.
  apply list_elem_of_fmap_2. by apply list_elem_of_In.
Qed.

Lemma touch_ids sid v now l : map sn_id (map (touch_sensor sid v now) l) = map sn_id l.
Proof.
  rewrite map_map. apply map_ext. intros s. unfold touch_sensor. by destruct (str_eqb _ _).
Qed.

Lemma ids_from_above n l : ids_from n l -> Forall (fun e => n <= pe_id e) l.
Proof.
  revert n. induction l as [|e l IH]; intros n; [constructor|]. intros [Hn Hl]. constructor; [done|].
  apply IH in Hl. eapply Forall_impl; [exact Hl|]. intros e'. simpl. lia.
Qed.

Lemma ids_from_sorted n l : ids_from n l -> StronglySorted id_lt l.
Proof.
  revert n. induction l as [|e l IH]; intros n; [constructor|]. intros [_ Hl]. constructor; [by eapply IH|].
  apply ids_from_above in Hl. eapply Forall_impl; [exact Hl|]. unfold id_lt. intros e'. simpl. lia.
Qed.

Lemma sorted_app l k :
  StronglySorted id_lt l -> StronglySorted id_lt k ->
  (forall a b, a ∈ l -> b ∈ k -> id_lt a b) -> StronglySorted id_lt (l ++ k).
Proof.
  intros Hl Hk Hlk. induction Hl as [|e l Hl IH He]; cbn [app]; [done|]. constructor.
  - apply IH. intros a b Ha. apply Hlk. by right.
  - rewrite Forall_app. split; [done|]. apply Forall_forall. intros b Hb. apply Hlk; [left|done].
Qed.

Lemma append_ids l k :
  StronglySorted id_lt l -> ids_from (next_id (map pe_id l)) k -> StronglySorted id_lt (l ++ k).
Proof.
  intros Hl Hk. apply sorted_app; [done|by eapply ids_from_sorted|]. intros a b Ha Hb.
  apply ids_from_above in Hk. rewrite Forall_forall in Hk. specialize (Hk _ Hb). unfold id_lt.
  assert (pe_id a < next_id (map pe_id l)); [|lia]. apply next_id_above. by apply list_elem_of_fmap_2.
Qed.

(** An ingest keeps the tables consistent. *)
Lemma ingested_wf now today env d d' :
  console_wf d -> ingested now today env d d' -> en_payload_id env ∉ map sp_payload (cdb_pushes d) ->
  is_Some (find_sensor (en_sensor_id env) d) -> console_wf d'.
Proof.
  intros [] [] Hfresh Hs. destruct in_endpoints0 as (new & He & _ & Ht & Hi). apply find_sensor_elem in Hs.
  constructor.
  - by rewrite in_sensors0, touch_ids.
  - by rewrite in_tokens0.
  - rewrite in_sensors0, touch_ids, in_tokens0. done.
  - rewrite in_pushes0, map_app. apply NoDup_app. split_and!; [done| |apply NoDup_singleton].
    intros x Hx Hx'. apply list_elem_of_singleton in Hx' as ->. done.
  - rewrite in_sensors0, touch_ids, in_pushes0. intros p [Hp|Hp]%elem_of_app; [auto|].
    by apply list_elem_of_singleton in Hp as ->.
  - rewrite He, in_pushes0. intros e pid [Hin|Hin]%elem_of_app Hpid.
    + destruct (wf_tags0 _ _ Hin Hpid) as (p & Hp & ?). exists p. split; [|done]. apply elem_of_app. by left.
    + rewrite Forall_forall in Ht. destruct (Ht _ Hin) as (Hsid & _ & Hpush).
      eexists. split; [apply elem_of_app; right; left|]. simpl. rewrite Hpush in Hpid.
      split; [congruence|done].
  - rewrite He. by apply append_ids.
Qed.

Lemma delivery_wf v d : console_wf d -> console_wf (add_delivery v d).
Proof. intros []. by constructor. Qed.

Lemma enroll_wf sid segment engagement token now d :
  console_wf d -> console_wf (snd (cmd_enroll sha256hex sid segment engagement token now d)).
Proof.
  intros Hwf. unfold cmd_enroll. destruct (find_sensor sid d) eqn:Ef; [done|].
  case_bool_decide as Hh; [done|]. apply find_sensor_none in Ef. destruct Hwf.
  unfold set_tokens, set_sensors. constructor;
    cbn [snd cdb_sensors cdb_tokens cdb_pushes cdb_endpoints]; rewrite ?map_app; cbn [map sn_id tk_hash]; try done.
  - apply NoDup_app. split_and!; [done| |apply NoDup_singleton].
    intros x Hx Hx'. by apply list_elem_of_singleton in Hx' as ->.
  - apply NoDup_app. split_and!; [done| |apply NoDup_singleton].
    intros x Hx Hx'. by apply list_elem_of_singleton in Hx' as ->.
  - intros t [Ht|Ht]%elem_of_app; apply elem_of_app; [left; auto|right].
    apply list_elem_of_singleton in Ht as ->. left.
  - intros p Hp. apply elem_of_app. left. auto.
Qed.

Lemma revoke_wf sid now d d' : cmd_revoke_sensor sid now d = Some d' -> console_wf d -> console_wf d'.
Proof.
  unfold cmd_revoke_sensor. destruct (negb _); [done|]. intros [= <-] [].
  constructor; cbn [set_tokens cdb_sensors cdb_tokens cdb_pushes cdb_endpoints]; try done.
  - rewrite map_map. erewrite map_ext; [done|]. intros t. by destruct (active_token_of sid t).
  - intros t Ht. apply list_elem_of_fmap in Ht as (t0 & -> & Ht0).
    destruct (active_token_of sid t0); cbn [revoke_at tk_sensor]; auto.
Qed.

Lemma push_step allowlist t r d :
  (exists d1 v env, ingested (rd_ingest t) (rd_today t) env d d1
     /\ en_payload_id env ∉ map sp_payload (cdb_pushes d) /\ is_Some (find_sensor (en_sensor_id env) d)
     /\ snd (push allowlist t r d) = add_delivery v d1)
  \/ exists v, snd (push allowlist t r d) = add_delivery v d.
Proof.
  destruct (push allowlist t r d) as [answer d'] eqn:E. cbn [snd].
  destruct (push_attempt_outcome allowlist t r d answer d' E) as [?|?]; auto.
Qed.

Lemma import_step now today env d d' :
  import now today env d = Some d' ->
  ingested now today env d d' /\ en_payload_id env ∉ map sp_payload (cdb_pushes d)
  /\ is_Some (find_sensor (en_sensor_id env) d).
Proof.
  unfold import_results. destruct (negb _); [done|].
  destruct (ingest now today env (open_session d)) as [s|] eqn:E; [|done]. intros [= <-].
  apply ingest_ok in E as (? & _ & ? & ?). done.
Qed.

Lemma console_step_wf d d' : console_step d d' -> console_wf d -> console_wf d'.
Proof.
  intros [d0 sid seg eng token now|d0 d1 sid now H|d0 allowlist t r|d0 d1 now today env H|d0 row|d0 v|d0 m] Hwf.
  - by apply enroll_wf.
  - by eapply revoke_wf.
  - destruct (push_step allowlist t r d0) as [(d1 & v & env & Hin & Hf & Hs & ->)|[v ->]];
      apply delivery_wf; [by eapply ingested_wf|done].
  - apply import_step in H as (? & ? & ?). by eapply ingested_wf.
  - destruct Hwf. constructor; cbn [add_endpoint cdb_sensors cdb_tokens cdb_pushes cdb_endpoints]; try done.
    + intros e pid [He|He]%elem_of_app Hp; [by eapply wf_tags0|].
      by apply list_elem_of_singleton in He as ->.
    + apply append_ids; [done|]. split; [simpl; lia|done].
  - by apply delivery_wf.
  - destruct Hwf. by constructor.
Qed.

Lemma empty_console_wf : console_wf empty_console.
Proof. constructor; simpl; try constructor; try (intros ? ?%elem_of_nil; done); intros ? ? ?%elem_of_nil; done. Qed.

Lemma console_tables_reach d : rtc console_step empty_console d -> console_wf d.
Proof.
  intros Hreach. pose proof empty_console_wf as Hwf. revert Hwf. generalize empty_console, Hreach. clear Hreach.
  induction 1 as [|a b c Hs _ IH]; [done|]. intros Ha. apply IH. by eapply console_step_wf.
Qed.

(** C25: The console's tables stay consistent.  After any sequence of enrolments,
    revocations, pushes, air-gap imports, local scans and merges: sensor ids,
    token hashes and payload ids are unique, every token and push belongs to an
    enrolled sensor, and every tagged endpoint row belongs to an accepted push of
    the sensor it names.  So no payload is ever ingested twice. *)
Theorem console_tables_consistent (d : console_db) (Hreach : rtc console_step empty_console d) : console_wf d.
Proof.
  by apply console_tables_reach.
Qed.

(** The sensor is enrolled and every token of it is revoked. *)
Definition shut_out (sid : string) (d : console_db) : Prop :=
  sid ∈ map sn_id (cdb_sensors d) /\ forall t, t ∈ cdb_tokens d -> tk_sensor t = sid -> is_Some (tk_revoked_at t).

Lemma ingested_shut_out now today env d d' sid : ingested now today env d d' -> shut_out sid d -> shut_out sid d'.
Proof. intros [] [Hs Ht]. split; [by rewrite in_sensors0, touch_ids|by rewrite in_tokens0]. Qed.

Lemma step_shut_out sid d d' : console_step d d' -> shut_out sid d -> shut_out sid d'.
Proof.
  intros [d0 sid' seg eng token now|d0 d1 sid' now H|d0 allowlist t r|d0 d1 now today env H|d0 row|d0 v|d0 m] [Hs Ht];
    try by split.
  - unfold cmd_enroll. destruct (find_sensor sid' d0) eqn:Ef; [by split|]. apply find_sensor_none in Ef.
    case_bool_decide; [by split|]. cbn [snd]. split; cbn [set_tokens set_sensors cdb_sensors cdb_tokens].
    + rewrite map_app. apply elem_of_app. by left.
    + intros t [Hin|Hin]%elem_of_app Hsid; [auto|]. apply list_elem_of_singleton in Hin as ->.
      simpl in Hsid. by subst.
  - revert H. unfold cmd_revoke_sensor. destruct (negb _); [done|]. intros [= <-]. split; [done|].
    cbn [set_tokens cdb_tokens]. intros t Hin Hsid. apply list_elem_of_fmap in Hin as (t0 & -> & Ht0).
    destruct (active_token_of sid' t0); [by eexists|]. by apply Ht.
  - destruct (push_step allowlist t r d0) as [(d1 & v & env & Hin & _ & _ & ->)|[v ->]]; [|by split].
    eapply ingested_shut_out in Hin; [exact Hin|by split].
  - apply import_step in H as (Hin & _). eapply ingested_shut_out; [exact Hin|by split].
Qed.

(** Revocation is final.  Once the operator has revoked a sensor of a
    console in use, no later push is accepted as that sensor's, whatever happens
    in between: re-enrolling its id is refused, and no token of it is ever active
    again. *)
Theorem revoked_sensor_stays_out (d d1 d2 : console_db) (sid : string) (now : Z)
    (Hreach : rtc console_step empty_console d) (Hrev : cmd_revoke_sensor sid now d = Some d1)
    (Hlater : rtc console_step d1 d2) (allowlist : option string) (t : readings) (r : request) (pid : string) :
  fst (push allowlist t r d2) <> Accepted sid pid.
Proof.
  assert (Hout : shut_out sid d1).
  { apply console_tables_reach in Hreach as []. revert Hrev. unfold cmd_revoke_sensor.
    destruct (existsb (active_token_of sid) (cdb_tokens d)) eqn:Ex; [|done]. intros [= <-].
    apply existsb_exists in Ex as (t0 & Hin0 & Ha). apply list_elem_of_In in Hin0. split.
    - cbn [set_tokens cdb_sensors]. unfold active_token_of in Ha. bool_to_prop.
      match goal with H : str_eqb _ _ = true |- _ => apply str_eqb_eq in H as <- end. auto.
    - cbn [set_tokens cdb_tokens]. intros t1 Hin Hsid. apply list_elem_of_fmap in Hin as (t' & -> & Ht').
      destruct (active_token_of sid t') eqn:Ea; [by eexists|]. unfold active_token_of in Ea.
      apply str_eqb_eq in Hsid. rewrite Hsid in Ea. apply bool_decide_eq_false in Ea.
      by destruct (tk_revoked_at t') eqn:?; [eexists|]. }
  assert (Hout2 : shut_out sid d2).
  { clear Hreach Hrev. induction Hlater as [|a b c Hs _ IH]; [done|]. apply IH. by eapply step_shut_out. }
  destruct (push allowlist t r d2) as [answer d'] eqn:E. cbn [fst]. intros ->.
  unfold push_request, require_sensor_auth in E.
  destruct (auth_refusal _ _ _ _ _ _ _) as [[[? ?] ?]|sid'] eqn:Ea; [done|].
  apply sensor_push_outcome in E as [(scan & env & d3 & Hr & [= -> ->] & _)|(Hno & _)]; [|by destruct (Hno sid pid)].
  apply refusal_accepts in Hr as (Hsid & _).
  apply auth_accepts in Ea as (token & row & _ & Hrow & _ & Hrevoked & Hts).
  destruct Hout2 as [_ Hall]. destruct (Hall row Hrow) as [x Hx]; congruence.
Qed.
End Push.

(** * A concrete console *)

Module Sample.
Definition sid : string := "0a1b2c3d-0000-4000-8000-00000000000a".
Definition iso (_ : string) : option datetime := Some (naive 1000000).
Definition no_date (_ : string) : option Z := None.
Definition no_json (_ : string) : option pyval := None.
Definition clock0 (_ : Z) : Z := 0.
Definition finding : wire_finding :=
  {| wf_host := Some "10.1.0.7"; wf_port := Some 443; wf_protocol := Some "TLS";
     wf_scanned_at := Some "1970-01-01T00:00:01Z"; wf_tls_version := Some "TLSv1.2"; wf_cipher_suite := None;
     wf_cert_subject := None; wf_cert_issuer := None; wf_cert_sans := None; wf_cert_sig_alg := None;
     wf_cert_pubkey_alg := None; wf_cert_pubkey_size := None; wf_cert_spki_fingerprint := None;
     wf_cert_not_after := None |}.
Definition env : PushEnvelope :=
  {| en_payload_id := "p1"; en_pushed_at := "1970-01-01T00:00:01Z"; en_sensor_version := "5.5";
     en_sensor_id := sid; en_segment := "dmz"; en_findings := [None; Some finding]; en_hardware := None |}.
Definition inflate (s : string) : string + string := inl s.
Definition parse (_ : string) : PushEnvelope + string := inl env.
Definition invalid (_ : PushEnvelope) : string := "ValidationError".
Definition sha (s : string) : string := s.
Definition no_net (_ : string) : option unit := None.
Definition in_no_net (_ _ : unit) : bool := false.
Definition times : readings := {| rd_received := 2000000; rd_ingest := 2000001; rd_audit := 2000002; rd_today := 0 |}.
Definition req : request :=
  {| rq_content_length := Some "4"; rq_body := "body"; rq_bearer := Some "tok"; rq_client := Some "192.0.2.1" |}.
Definition enroll (d : console_db) : console_db := snd (cmd_enroll sha sid "dmz" None "tok" 0 d).
Definition push (d : console_db) : reply * console_db :=
  push_request iso no_date no_json clock0 (fun l => l) (fun l => l) inflate parse invalid sha no_net no_net in_no_net
    None times req d.
Definition step := console_step iso no_date no_json clock0 (fun l => l) (fun l => l) inflate parse invalid sha
  no_net no_net in_no_net.

Lemma enrolled_reachable : rtc step empty_console (enroll empty_console).
Proof. apply rtc_once. apply step_enroll. Qed.
End Sample.


Lemma console_tables_consistent_witness :
  map sp_payload (cdb_pushes (snd (Sample.push (Sample.enroll empty_console)))) = ["p1"]
  /\ console_wf (snd (Sample.push (Sample.enroll empty_console))).
Proof.
  split; [vm_compute; reflexivity|].
  apply (console_tables_consistent Sample.iso Sample.no_date Sample.no_json Sample.clock0
    (fun l => l) (fun l => l) Sample.inflate Sample.parse Sample.invalid Sample.sha Sample.no_net Sample.no_net
    Sample.in_no_net).
  eapply rtc_l; [apply step_enroll with (sid := Sample.sid) (segment := "dmz") (engagement := None)
                  (token := "tok") (now := 0)|].
  apply rtc_once. apply step_push.
Defined.

Lemma revoked_sensor_stays_out_witness :
  exists d1, cmd_revoke_sensor Sample.sid 5 (Sample.enroll empty_console) = Some d1
  /\ fst (Sample.push d1) <> Accepted Sample.sid "p1".
Proof.
  set (d1 := default empty_console (cmd_revoke_sensor Sample.sid 5 (Sample.enroll empty_console))).
  exists d1. split; [vm_compute; reflexivity|].
  apply (revoked_sensor_stays_out Sample.iso Sample.no_date Sample.no_json Sample.clock0
    (fun l => l) (fun l => l) Sample.inflate Sample.parse Sample.invalid Sample.sha Sample.no_net Sample.no_net
    Sample.in_no_net (Sample.enroll empty_console) d1 d1 Sample.sid 5).
  - exact Sample.enrolled_reachable.
  - vm_compute. reflexivity.
  - apply rtc_refl.
Defined.

(** The replay window compares wall clocks: a push stamped five hours ago, in a
    zone five hours ahead of UTC, is accepted as fresh. *)
Example offset_defeats_replay_window :
  let five_hours := 5 * 3600 * 1000000 in
  let iso _ := Some {| dt_wall := 2000000; dt_offset := Some five_hours |} in
  as_utc_naive {| dt_wall := 2000000; dt_offset := Some five_hours |} = rd_received Sample.times - five_hours
  /\ fst (push_request iso Sample.no_date Sample.no_json Sample.clock0 (fun l => l) (fun l => l)
       Sample.inflate Sample.parse Sample.invalid Sample.sha Sample.no_net Sample.no_net Sample.in_no_net
       None Sample.times Sample.req (Sample.enroll empty_console)) = Accepted Sample.sid "p1".
Proof. split; vm_compute; reflexivity. Qed.

(** The air-gap import asks for no token: it still takes the results of a
    sensor that is revoked. *)
Example revoked_sensor_still_imports :
  exists d1, cmd_revoke_sensor Sample.sid 5 (Sample.enroll empty_console) = Some d1
  /\ is_Some (import_results Sample.iso Sample.no_date Sample.no_json Sample.clock0 (fun l => l) (fun l => l)
       6 0 Sample.env d1).
Proof. eexists. split; [vm_compute; reflexivity|]. vm_compute. by eexists. Qed.
