(* ===== verification/Merge.v ===== *)
(** The cross-sensor merge: the union of the endpoint rows and its score
    ([merge/scan.py]), the push status of a sensor and the automatic merge
    ([dashboard/api/routes/sensor.py]), the merged result per segment
    ([dashboard/api/routes/merge.py]).

    The findings of rows are a parameter, as in [Trends]; the CBOM that
    [merge_scan] writes to disk is not modelled.  Text that JSON stores and reads
    back is kept as data.  A [timedelta] overflow needs a cadence of millions of
    years. *)
From Stdlib Require Import ZArith QArith Lia Ascii.
From stdpp Require Import base tactics sets gmap strings list pretty.
From S2P Require Import Prelude PyStr PyFloat PyVal Scoring Model Evidence Hardware HwDrift Trends Sensors.

Local Open Scope Z_scope.
Local Open Scope quirk_scope.

Definition MERGE_BRACKET : Z := 5 * 60 * 1000000.
Definition DEFAULT_STALE_DAYS : Z := 30.
Definition US_PER_MINUTE : Z := 60 * 1000000.

(** * Coverage *)

(** Twice the expected cadence; 24 hours when it is NULL. *)
Definition two_cadences (s : Sensor) : Z := 2 * (default 1440 (sn_cadence s) * US_PER_MINUTE).

(** The body of the loop: the sensor is reported. *)
Definition overdue (now stale_days : Z) (s : Sensor) : bool :=
  let stale_cutoff := stale_days * US_PER_DAY in
  match sn_last_push_at s with
  | None => negb (stale_cutoff <? now - sn_enrolled_at s)
  | Some last_push =>
      if stale_cutoff <? now - last_push then false
      else last_push + two_cadences s <? now
  end.

(** [missing_sensors] and [reason]. *)
Definition build_coverage_warning (sensors : list Sensor) (now stale_days : Z) : option (list string * string) :=
  match map sn_id (List.filter (overdue now stale_days) sensors) with
  | [] => None
  | overdue_ids =>
      Some (overdue_ids,
            pretty (Z.of_nat (length overdue_ids)) +:+ " enrolled sensor(s) have not pushed within "
            +:+ "2× their expected cadence: " +:+ str_join ", " overdue_ids)
  end.

Definition sensor_status (s : Sensor) (now : Z) : string :=
  match sn_last_push_at s with
  | None => "unknown"
  | Some last_push => if last_push + two_cadences s <? now then "stale" else "current"
  end.

(** The rows of the registry, newest enrolment first. *)
Definition enrolled_later (a b : Sensor) : bool := sn_enrolled_at b <=? sn_enrolled_at a.

Definition sensor_registry (now : Z) (d : console_db) : list (Sensor * string) :=
  map (fun s => (s, sensor_status s now)) (py_sorted enrolled_later (cdb_sensors d)).

(** * The union *)

(** [ORDER BY sensor_id, received_at, id] *)
Definition push_leb (a b : SensorPush) : bool :=
  if str_eqb (sp_sensor a) (sp_sensor b)
  then (sp_received_at a <? sp_received_at b)
       || ((sp_received_at a =? sp_received_at b) && (sp_id a <=? sp_id b))
  else str_leb (sp_sensor a) (sp_sensor b).

(** [latest[sid] = pid] over the sorted pushes: the last one wins. *)
Definition latest_payloads (d : console_db) : list (string * string) :=
  foldl (fun latest p => aset (sp_sensor p) (sp_payload p) latest) [] (py_sorted push_leb (cdb_pushes d)).

Definition from_sensor (sid : string) (e : pushed_endpoint) : bool := bool_decide (pe_sensor e = Some sid).

(** The sensors with a tagged row. *)
Definition is_tagged (d : console_db) (sid : string) : bool :=
  existsb (fun e => from_sensor sid e && bool_decide (is_Some (pe_push e))) (cdb_endpoints d).

Definition all_sensors (d : console_db) : list string :=
  sorted_strings (remove_dups (omap pe_sensor (cdb_endpoints d))).

Definition by_id (a b : pushed_endpoint) : bool := pe_id a <=? pe_id b.

Definition pe_time (e : pushed_endpoint) : option Z := scanned_us (pe_row e).

(** [func.max(scanned_at)]; NULL is ignored. *)
Definition max_time (rows : list pushed_endpoint) : option Z := foldr max_opt None (map pe_time rows).

(** The rows within the bracket before the last instant. *)
Definition bracketed (rows : list pushed_endpoint) : list pushed_endpoint :=
  match max_time rows with
  | None => []
  | Some max_ts =>
      py_sorted by_id
        (List.filter (fun e => match pe_time e with
                               | Some t => (max_ts - MERGE_BRACKET <=? t) && (t <=? max_ts)
                               | None => false
                               end) rows)
  end.

Definition sensor_rows (d : console_db) (sid : string) : list pushed_endpoint :=
  if is_tagged d sid then
    match alookup sid (latest_payloads d) with
    | None => []
    | Some pid =>
        py_sorted by_id
          (List.filter (fun e => from_sensor sid e && bool_decide (pe_push e = Some pid)) (cdb_endpoints d))
    end
  else bracketed (List.filter (from_sensor sid) (cdb_endpoints d)).

Definition is_local (e : pushed_endpoint) : bool := bool_decide (pe_sensor e = None).

Definition assemble_union (d : console_db) : list pushed_endpoint :=
  concat (map (sensor_rows d) (all_sensors d)) ++ bracketed (List.filter is_local (cdb_endpoints d)).

(** * The merge *)

(** [now.isoformat(sep=" ")] *)
Definition merge_scan_id (now : Z) : string := replace "T" " " (isoformat now).

Section MergeScan.
(** [findings_deriver], [derive_report_findings] by default. *)
Context (findings_deriver : list endpoint_row -> pyres (list finding)).

Record merge_result := {
  mg_scan_id : string;
  mg_score : option score_result;
  mg_coverage_warning : option (list string * string);
  mg_endpoint_count : Z;
  mg_sensor_count : Z
}.

Definition merge_run (d : console_db) (now endpoints : Z) (score : option Z) (warning : option (list string * string))
  : MergeRun :=
  {| mr_id := next_id (map mr_id (cdb_merges d)); mr_scan := merge_scan_id now; mr_merged_at := now;
     mr_endpoints := endpoints; mr_sensors := Z.of_nat (length (cdb_sensors d));
     mr_score := score; mr_warning := warning |}.

Definition NO_DATA : list string * string :=
  ([], "No endpoints found — no sensors enrolled and no local scan data.").

Definition score_of_rows (rows : list endpoint_row) : pyres score_result :=
  let! findings := findings_deriver rows in
  compute_readiness_score (build_evidence_summary (map er_ep rows) findings 30 None) None [].

Definition merge_scan (now stale_days : Z) (d : console_db) : pyres (merge_result * console_db) :=
  let union := assemble_union d in
  let coverage_warning := build_coverage_warning (cdb_sensors d) now stale_days in
  let sensor_count := Z.of_nat (length (cdb_sensors d)) in
  match union with
  | [] =>
      let warning := default NO_DATA coverage_warning in
      Ok ({| mg_scan_id := merge_scan_id now; mg_score := None; mg_coverage_warning := Some warning;
             mg_endpoint_count := 0; mg_sensor_count := sensor_count |},
          add_merge (merge_run d now 0 None (Some warning)) d)
  | _ =>
      let! score := score_of_rows (map pe_row union) in
      let count := Z.of_nat (length union) in
      Ok ({| mg_scan_id := merge_scan_id now; mg_score := Some score; mg_coverage_warning := coverage_warning;
             mg_endpoint_count := count; mg_sensor_count := sensor_count |},
          add_merge (merge_run d now count (r_score score) coverage_warning) d)
  end.

(** * The automatic merge *)

(** [ORDER BY merged_at DESC ... .first()]; SQLite keeps the order of ties. *)
Definition merged_later (a b : MergeRun) : bool := mr_merged_at b <=? mr_merged_at a.
Definition latest_merge (d : console_db) : option MergeRun := head (py_sorted merged_later (cdb_merges d)).

(** [func.max(Sensor.last_push_at)] *)
Definition latest_push_of (sensors : list Sensor) : option Z := foldr max_opt None (map sn_last_push_at sensors).

Definition is_active (d : console_db) (s : Sensor) : bool := existsb (active_token_of (sn_id s)) (cdb_tokens d).

(** The exact value of a Python number. *)
Definition number_of (v : pyval) : option Q :=
  match v with
  | VInt z => Some (inject_Z z)
  | VBool b => Some (inject_Z (Z.b2z b))
  | VFloat q => Some q
  | _ => None
  end.

(** [console.auto_merge] of the configuration file over the defaults; [block] is
    [None] where there is none or it cannot be read. *)
Definition load_auto_merge_config (block : option pydict) : pydict :=
  foldl (fun cfg kv => aset kv.1 kv.2 cfg)
    [("enabled", VBool true); ("trigger_condition", VStr "all-sensors-in")] (default [] block).

Definition is_text (s : string) (v : pyval) : bool := match v with VStr t => str_eqb t s | _ => false end.

(** [(now - merged_at).total_seconds() / 60] *)
Definition elapsed_minutes (now merged_at : Z) : Q := fdiv (int_truediv (now - merged_at) 1000000) 60.

Definition eval_trigger_condition (block : option pydict) (now : Z) (d : console_db) : pyres bool :=
  let cfg := load_auto_merge_config block in
  if negb (truthy (get_or cfg "enabled" (VBool true))) then Ok false
  else
    let condition := get_or cfg "trigger_condition" (VStr "all-sensors-in") in
    if is_text "all-sensors-in" condition then
      match List.filter (is_active d) (cdb_sensors d) with
      | [] => Ok false
      | active =>
          if existsb (fun s => bool_decide (sn_last_push_at s = None)) active then Ok false
          else match latest_merge d with
               | None => Ok true
               | Some m => Ok (match latest_push_of active with
                               | Some p => mr_merged_at m <? p
                               | None => false
                               end)
               end
      end
    else if is_text "cadence-window" condition then
      match latest_merge d with
      | None => Ok true
      | Some m =>
          let window :=
            match dict_get cfg "cadence_window_minutes" with
            | Some VNone | None =>
                VInt (match cdb_sensors d with
                      | s :: _ => match sn_cadence s with Some c => if c =? 0 then 1440 else c | None => 1440 end
                      | [] => 1440
                      end)
            | Some w => w
            end in
          match number_of window with
          | None => Raise (TypeError "'>=' not supported")
          | Some w => Ok (Qle_bool w (elapsed_minutes now (mr_merged_at m)))
          end
      end
    else Ok false.

(** [safe_str] of an exception. *)
Context (exn_text : pyexn -> string).

Definition merge_delivery (scan status : string) (now : Z) (error : option string) : IntegrationDelivery :=
  {| dv_scan := scan; dv_destination := "auto_merge"; dv_status := status; dv_attempted_at := now;
     dv_error := error; dv_client_ip := None; dv_sensor := None |}.

(** The background task; [now] and [audit_now] are its two readings of the clock. *)
Definition run_auto_merge (now audit_now : Z) (d : console_db) : console_db :=
  let covered := match latest_merge d with
                 | None => false
                 | Some m => match latest_push_of (cdb_sensors d) with
                             | Some p => p <=? mr_merged_at m
                             | None => false
                             end
                 end in
  if covered then d
  else match merge_scan now DEFAULT_STALE_DAYS d with
       | Ok (result, d') => add_delivery (merge_delivery (mg_scan_id result) "ok" audit_now None) d'
       | Raise e => add_delivery (merge_delivery (utc_stamp audit_now) "failed" audit_now (Some (exn_text e))) d
       end.

(** * The merged result *)

(** The segments in order of their first row, with their rows. *)
Definition add_to_segment (by_segment : list (string * list endpoint_row)) (e : pushed_endpoint)
  : list (string * list endpoint_row) :=
  match pe_segment e with
  | None => by_segment
  | Some seg => aset seg (default [] (alookup seg by_segment) ++ [pe_row e]) by_segment
  end.

Definition segment_eps (endpoints : list pushed_endpoint) : list (string * list endpoint_row) :=
  foldl add_to_segment [] endpoints.

Record merge_data := {
  md_scan_id : string; md_merged_at : Z; md_score : option Z;
  md_endpoint_count : Z; md_sensor_count : Z;
  md_coverage_warning : option (list string * string);
  md_per_segment_scores : list (string * option Z)
}.

(** A score, or [dflt] where computing it raises. *)
Definition score_or (dflt : option Z) (c : pyres score_result) : option Z :=
  match c with Ok r => r_score r | Raise _ => dflt end.

Definition get_merge_latest (d : console_db) : option merge_data :=
  match latest_merge d with
  | None => None
  | Some run =>
      let endpoints := assemble_union d in
      Some {| md_scan_id := mr_scan run; md_merged_at := mr_merged_at run;
              md_score := match endpoints with
                          | [] => mr_score run
                          | _ => score_or (mr_score run) (score_of_rows (map pe_row endpoints))
                          end;
              md_endpoint_count := mr_endpoints run; md_sensor_count := mr_sensors run;
              md_coverage_warning := mr_warning run;
              md_per_segment_scores :=
                map (fun kv => (kv.1, score_or None (score_of_rows kv.2))) (segment_eps endpoints) |}
  end.
End MergeScan.
