(* ===== verification/MergeProps.v ===== *)
(** Properties of the merge ([Merge]): the union holds exactly the last push of
    each sensor, what the coverage warning names, what a merge records, and that
    the automatic merge settles. *)
From Stdlib Require Import ZArith QArith Lia Ascii Sorted.
From stdpp Require Import base tactics sets gmap strings list pretty.
From S2P Require Import Prelude PyStr PyVal Scoring Model Evidence Hardware HwDrift HwDriftProps Trends Sensors SensorsProps Merge.

Local Open Scope Z_scope.
Local Open Scope quirk_scope.

(** * Sorting *)

Lemma py_sorted_fixed {A} (leb : A -> A -> bool) l :
  all_above leb l -> py_sorted leb l = l.
Proof.
  induction l as [|x l IH]; simpl; [done|]. intros [Hx Hl]. rewrite (IH Hl).
  destruct l as [|y l]; [done|]. apply Forall_cons in Hx as [Hxy _]. simpl. by rewrite Hxy.
Qed.

Lemma all_above_last {A} (leb : A -> A -> bool) l x y :
  all_above leb l -> last l = Some y -> x ∈ l -> x = y \/ leb x y = true.
Proof.
  induction l as [|a l IH]; intros Hs Hlast Hx; [by apply elem_of_nil in Hx|].
  destruct Hs as [Ha Hl]. apply elem_of_cons in Hx as [->|Hx].
  - destruct l as [|b l]; [injection Hlast as <-; by left|]. right.
    rewrite Forall_forall in Ha. apply Ha. rewrite last_cons_cons in Hlast. by apply last_Some_elem_of.
  - destruct l as [|b l]; [by apply elem_of_nil in Hx|]. rewrite last_cons_cons in Hlast. auto.
Qed.

Lemma push_leb_total a b : push_leb a b = true \/ push_leb b a = true.
Proof.
  unfold push_leb. destruct (str_eqb (sp_sensor a) (sp_sensor b)) eqn:E.
  - apply str_eqb_eq in E as ->. rewrite str_eqb_refl. lia.
  - destruct (str_eqb (sp_sensor b) (sp_sensor a)) eqn:E'; [apply str_eqb_eq in E'; by rewrite E', str_eqb_refl in E|].
    apply str_leb_total.
Qed.

Lemma push_leb_trans a b c : push_leb a b = true -> push_leb b c = true -> push_leb a c = true.
Proof.
  unfold push_leb. destruct (str_eqb (sp_sensor a) (sp_sensor b)) eqn:E1.
  - apply str_eqb_eq in E1 as ->. destruct (str_eqb (sp_sensor b) (sp_sensor c)) eqn:E2; [lia|done].
  - destruct (str_eqb (sp_sensor b) (sp_sensor c)) eqn:E2.
    + apply str_eqb_eq in E2 as <-. by rewrite E1.
    + intros H1 H2. destruct (str_eqb (sp_sensor a) (sp_sensor c)) eqn:E3.
      * apply str_eqb_eq in E3. rewrite <- E3 in H2.
        assert (Heq : sp_sensor a = sp_sensor b) by by apply str_leb_antisym.
        rewrite Heq, str_eqb_refl in E1. done.
      * by eapply str_leb_trans.
Qed.

(** * The latest push *)

Definition of_sensor (sid : string) (p : SensorPush) : bool := str_eqb (sp_sensor p) sid.

Lemma latest_fold sid l acc :
  alookup sid (foldl (fun latest p => aset (sp_sensor p) (sp_payload p) latest) acc l)
  = match last (List.filter (of_sensor sid) l) with
    | Some p => Some (sp_payload p)
    | None => alookup sid acc
    end.
Proof.
  revert acc. induction l as [|p l IH]; intros acc; [done|]. cbn [foldl List.filter]. rewrite IH.
  unfold of_sensor at 2. destruct (str_eqb (sp_sensor p) sid) eqn:E.
  - apply str_eqb_eq in E. rewrite last_cons. destruct (last _); [done|]. subst sid.
    by rewrite alookup_aset_eq.
  - destruct (last _); [done|]. apply alookup_aset_ne. by apply str_eqb_neq.
Qed.

(** The payload last received from a sensor, if its later pushes come last. *)
Lemma latest_payload_of d pushes new :
  cdb_pushes d = pushes ++ [new] ->
  (forall p, p ∈ pushes -> sp_id p < sp_id new) ->
  (forall p, p ∈ pushes -> sp_sensor p = sp_sensor new -> sp_received_at p <= sp_received_at new) ->
  alookup (sp_sensor new) (latest_payloads d) = Some (sp_payload new).
Proof.
  intros Hd Hid Htime. unfold latest_payloads. rewrite latest_fold, Hd.
  set (l := List.filter _ _).
  assert (Hin : forall p, p ∈ l <-> p ∈ pushes ++ [new] /\ sp_sensor p = sp_sensor new).
  { intros p. unfold l, of_sensor. by rewrite elem_of_filter_bool, py_sorted_perm, str_eqb_eq. }
  assert (Hnew : new ∈ l) by (apply Hin; split; [apply elem_of_app; right; left|done]).
  destruct (last l) as [y|] eqn:El; [|apply last_None in El; rewrite El in Hnew; by apply elem_of_nil in Hnew].
  assert (Hs : all_above push_leb l)
    by (apply all_above_filter, py_sorted_above; [apply push_leb_total|apply push_leb_trans]).
  destruct (all_above_last _ _ _ _ Hs El Hnew) as [->|Hle]; [done|].
  apply last_Some_elem_of, Hin in El as [Hy Hsy]. apply elem_of_app in Hy as [Hy|Hy].
  - exfalso. specialize (Hid _ Hy). specialize (Htime _ Hy Hsy). unfold push_leb in Hle.
    rewrite Hsy, str_eqb_refl in Hle. lia.
  - by apply list_elem_of_singleton in Hy as ->.
Qed.

(** * The union *)

Lemma sensor_rows_from d sid e : e ∈ sensor_rows d sid -> e ∈ cdb_endpoints d /\ pe_sensor e = Some sid.
Proof.
  unfold sensor_rows, bracketed, from_sensor. destruct (is_tagged d sid).
  - destruct (alookup sid _); [|by intros ?%elem_of_nil].
    rewrite py_sorted_perm, elem_of_filter_bool, andb_true_iff. intros (He & Hs & _).
    by apply bool_decide_eq_true in Hs.
  - destruct (max_time _); [|by intros ?%elem_of_nil].
    rewrite py_sorted_perm, !elem_of_filter_bool. intros [[He Hs] _]. by apply bool_decide_eq_true in Hs.
Qed.

Lemma bracketed_from rows e : e ∈ bracketed rows -> e ∈ rows.
Proof.
  unfold bracketed. destruct (max_time rows); [|by intros ?%elem_of_nil].
  rewrite py_sorted_perm, elem_of_filter_bool. tauto.
Qed.

Lemma filter_all {A} (p : A -> bool) l : (forall x, x ∈ l -> p x = true) -> List.filter p l = l.
Proof.
  induction l as [|x l IH]; simpl; intros H; [done|]. rewrite (H x) by left. f_equal. apply IH.
  intros y Hy. apply H. by right.
Qed.

Lemma filter_none {A} (p : A -> bool) l : (forall x, x ∈ l -> p x = false) -> List.filter p l = [].
Proof.
  induction l as [|x l IH]; simpl; intros H; [done|]. rewrite (H x) by left. apply IH.
  intros y Hy. apply H. by right.
Qed.

Lemma filter_concat d sid sids : NoDup sids ->
  List.filter (from_sensor sid) (concat (map (sensor_rows d) sids))
  = if bool_decide (sid ∈ sids) then sensor_rows d sid else [].
Proof.
  induction sids as [|s sids IH]; intros Hd; [done|]. apply NoDup_cons in Hd as [Hs Hd].
  cbn [map concat]. rewrite List.filter_app, (IH Hd).
  destruct (decide (s = sid)) as [->|Hne].
  - rewrite (bool_decide_eq_true_2 (sid ∈ sid :: sids)) by left.
    rewrite (bool_decide_eq_false_2 (sid ∈ sids)) by done. rewrite app_nil_r. apply filter_all.
    intros e He. apply sensor_rows_from in He as [_ He]. by apply bool_decide_eq_true.
  - rewrite filter_none.
    + cbn [app]. by rewrite (bool_decide_ext (sid ∈ s :: sids) (sid ∈ sids)) by (rewrite elem_of_cons; naive_solver).
    + intros e He. apply sensor_rows_from in He as [_ He]. apply bool_decide_eq_false. congruence.
Qed.

Lemma union_of_sensor d sid :
  List.filter (from_sensor sid) (assemble_union d)
  = if bool_decide (sid ∈ all_sensors d) then sensor_rows d sid else [].
Proof.
  unfold assemble_union. rewrite List.filter_app, filter_concat.
  - rewrite (filter_none _ (bracketed _)); [apply app_nil_r|]. intros e He. apply bracketed_from in He.
    apply elem_of_filter_bool in He as [_ Hl]. unfold is_local in Hl. apply bool_decide_eq_true in Hl.
    apply bool_decide_eq_false. congruence.
  - unfold all_sensors. rewrite sorted_strings_perm. apply NoDup_remove_dups.
Qed.

Lemma elem_of_all_sensors d sid : sid ∈ all_sensors d <-> exists e, e ∈ cdb_endpoints d /\ pe_sensor e = Some sid.
Proof. unfold all_sensors. by rewrite elem_of_sorted_strings, elem_of_remove_dups, list_elem_of_omap. Qed.

Lemma by_id_above l : StronglySorted id_lt l -> all_above by_id l.
Proof.
  induction 1 as [|e l _ IH He]; [done|]. split; [|done]. eapply Forall_impl; [exact He|].
  unfold id_lt, by_id. intros e'. lia.
Qed.

Section Composition.
Context (fromisoformat : string -> option datetime) (date_fromisoformat : string -> option Z).
Context (loads : string -> option pyval) (clock : Z -> Z).
Context (addr_order : list (string * Z) -> list (string * Z)) (vendor_order : list string -> list string).
Context (decompress : string -> string + string) (parse_envelope : string -> PushEnvelope + string).
Context (invalid_envelope : PushEnvelope -> string).
Context (sha256hex : string -> string) {net addr : Type}.
Context (ip_network : string -> option net) (ip_address : string -> option addr) (in_net : addr -> net -> bool).

Notation ingested := (ingested fromisoformat date_fromisoformat loads clock addr_order vendor_order).
Notation push := (push_request fromisoformat date_fromisoformat loads clock addr_order vendor_order
  decompress parse_envelope invalid_envelope sha256hex ip_network ip_address in_net).
Notation console_step := (console_step fromisoformat date_fromisoformat loads clock addr_order vendor_order
  decompress parse_envelope invalid_envelope sha256hex ip_network ip_address in_net).

Lemma union_after_ingest now today env d d' :
  console_wf d -> ingested now today env d d' -> en_payload_id env ∉ map sp_payload (cdb_pushes d) ->
  (forall p, p ∈ cdb_pushes d -> sp_sensor p = en_sensor_id env -> sp_received_at p <= now) ->
  tagged_rows fromisoformat env <> [] ->
  map pe_row (List.filter (from_sensor (en_sensor_id env)) (assemble_union d')) = tagged_rows fromisoformat env.
Proof.
  intros Hwf Hin Hfresh Htime Hsome. destruct (in_endpoints _ _ _ _ _ _ _ _ _ _ _ Hin) as (new & He & Hm & Ht & Hi).
  set (sid := en_sensor_id env) in *. set (pid := en_payload_id env) in *. rewrite Forall_forall in Ht.
  assert (Hnew : exists e, e ∈ new).
  { destruct new as [|e new]; [by rewrite <- Hm in Hsome|]. exists e. left. }
  destruct Hnew as [e0 He0]. destruct (Ht _ He0) as (Hsid0 & _ & Hpid0).
  rewrite union_of_sensor, bool_decide_eq_true_2.
  2: { apply elem_of_all_sensors. exists e0. split; [|done]. rewrite He. apply elem_of_app. by right. }
  unfold sensor_rows.
  assert (is_tagged d' sid = true) as ->.
  { unfold is_tagged. apply existsb_exists. exists e0. split; [apply list_elem_of_In; rewrite He; apply elem_of_app; by right|].
    unfold from_sensor. rewrite Hsid0, Hpid0. by rewrite !bool_decide_eq_true_2 by (done || by eexists). }
  assert (alookup sid (latest_payloads d') = Some pid) as ->.
  { pose (np := {| sp_id := next_id (map sp_id (cdb_pushes d)); sp_payload := pid; sp_sensor := sid;
                   sp_received_at := now |}).
    apply (latest_payload_of d' (cdb_pushes d) np); [by rewrite (in_pushes _ _ _ _ _ _ _ _ _ _ _ Hin)|..].
    - intros p Hp. apply next_id_above. by apply list_elem_of_fmap_2.
    - intros p Hp Hs. by apply Htime. }
  rewrite He, List.filter_app, filter_none, filter_all; cbn [app].
  - rewrite py_sorted_fixed; [done|]. apply by_id_above. by eapply ids_from_sorted.
  - intros e Hen. destruct (Ht _ Hen) as (Hs & _ & Hp). unfold from_sensor. rewrite Hs, Hp.
    by rewrite !bool_decide_eq_true_2.
  - intros e Heo. apply andb_false_iff. right. apply bool_decide_eq_false. intros Hp. apply Hfresh.
    destruct (wf_tags _ Hwf _ _ Heo Hp) as (p & Hpin & <- & _). by apply list_elem_of_fmap_2.
Qed.

End Composition.


(** An empty push of a sensor whose rows are older than the tags leaves those
    rows in the merge, where a tagged sensor's empty push removes its rows. *)
Definition legacy_row : pushed_endpoint :=
  {| pe_id := 1; pe_row := finding_row Sample.iso Sample.finding; pe_sensor := Some Sample.sid;
     pe_segment := Some "dmz"; pe_push := None |}.

Definition empty_push (pid : string) : PushEnvelope :=
  {| en_payload_id := pid; en_pushed_at := "1970-01-01T00:00:01Z"; en_sensor_version := "5.5";
     en_sensor_id := Sample.sid; en_segment := "dmz"; en_findings := []; en_hardware := None |}.

Definition import_sample (env : PushEnvelope) (d : console_db) : option console_db :=
  import_results Sample.iso Sample.no_date Sample.no_json Sample.clock0 (fun l => l) (fun l => l) 5 0 env d.

Example empty_push_keeps_legacy_rows :
  assemble_union <$> import_sample (empty_push "p2") (add_endpoint legacy_row (Sample.enroll empty_console))
  = Some [legacy_row]
  /\ assemble_union <$> (import_sample Sample.env (Sample.enroll empty_console) ≫= import_sample (empty_push "p2"))
     = Some [].
Proof. split; vm_compute; reflexivity. Qed.

(** * Coverage *)

(** A sensor is reported when it was heard within the stale window and the
    registry calls it stale, or never pushed but enrolled within that window. *)
Lemma overdue_spec now stale_days s :
  overdue now stale_days s = true <->
  match sn_last_push_at s with
  | None => now - sn_enrolled_at s <= stale_days * US_PER_DAY
  | Some p => now - p <= stale_days * US_PER_DAY /\ sensor_status s now = "stale"
  end.
Proof.
  unfold overdue, sensor_status. destruct (sn_last_push_at s) as [p|]; [|rewrite negb_true_iff; lia].
  destruct (stale_days * US_PER_DAY <? now - p) eqn:E1, (p + two_cadences s <? now) eqn:E2;
    bool_to_prop; split; intros; try done; try lia; try (split; [lia|done]); by destruct H.
Qed.

Lemma no_warning sensors now stale_days :
  build_coverage_warning sensors now stale_days = None <-> forall s, s ∈ sensors -> overdue now stale_days s = false.
Proof.
  unfold build_coverage_warning. destruct (map sn_id _) as [|i ids] eqn:E.
  - apply map_eq_nil in E. split; [|done]. intros _ s Hs. destruct (overdue now stale_days s) eqn:Eo; [|done].
    exfalso. assert (H : s ∈ List.filter (overdue now stale_days) sensors) by by apply elem_of_filter_bool.
    rewrite E in H. by apply elem_of_nil in H.
  - split; [done|]. intros H. rewrite filter_none in E by done. done.
Qed.

(** * A merge *)

Section MergeTheorems.
Context (findings_deriver : list endpoint_row -> pyres (list finding)).
Context (exn_text : pyexn -> string).

(** A merge scores what it merged and says what it misses.  A merge that
    returns has added one run and changed nothing else; the run records the
    number of rows of the union and the readiness score computed once over all
    of them; with no row there is no score and always a warning; and without a
    warning every enrolled sensor is current or silent beyond the window. *)
Theorem merge_scan_exact (now stale_days : Z) (d d' : console_db) (m : merge_result)
    (Hok : merge_scan findings_deriver now stale_days d = Ok (m, d')) :
  exists run, d' = add_merge run d
  /\ mr_merged_at run = now /\ mr_warning run = mg_coverage_warning m
  /\ mr_endpoints run = Z.of_nat (length (assemble_union d))
  /\ (match mg_score m with
      | Some score => score_of_rows findings_deriver (map pe_row (assemble_union d)) = Ok score
                      /\ mr_score run = r_score score
      | None => assemble_union d = [] /\ mr_score run = None /\ is_Some (mg_coverage_warning m)
      end)
  /\ (mg_coverage_warning m = None -> forall s, s ∈ cdb_sensors d -> overdue now stale_days s = false).
Proof.
  unfold merge_scan in Hok. destruct (assemble_union d) as [|e union] eqn:E.
  - injection Hok as <- <-. eexists. split; [reflexivity|]. cbn -[default]. split_and!; [done..|by eexists|done].
  - apply pbind_ok in Hok as (score & Hs & [= <- <-]). eexists. split; [reflexivity|].
    cbn [mr_merged_at mr_warning mr_endpoints mr_score merge_run mg_score mg_coverage_warning].
    split_and!; [done..|]. by rewrite no_warning.
Qed.

Lemma merge_scan_run now stale_days d d' m : merge_scan findings_deriver now stale_days d = Ok (m, d') ->
  exists run, d' = add_merge run d /\ mr_merged_at run = now.
Proof.
  unfold merge_scan. destruct (assemble_union d); [intros [= _ <-]; by eexists|].
  intros H. apply pbind_ok in H as (score & _ & [= _ <-]). by eexists.
Qed.

Lemma head_sorted_max {A} (f : A -> Z) (leb := fun a b => f b <=? f a) l x :
  head (py_sorted leb l) = Some x -> x ∈ l /\ forall y, y ∈ l -> f y <= f x.
Proof.
  intros H. assert (Hs : all_above leb (py_sorted leb l)).
  { apply py_sorted_above; unfold leb; intros; [lia|]. bool_to_prop. lia. }
  pose proof (py_sorted_perm leb l) as Hp.
  destruct (py_sorted leb l) as [|y k]; [done|]. injection H as ->. destruct Hs as [Hx _].
  split; [rewrite <- Hp; left|]. intros y. rewrite <- Hp. intros [->|Hy]%elem_of_cons; [done|].
  rewrite Forall_forall in Hx. specialize (Hx _ Hy). unfold leb in Hx. lia.
Qed.

Lemma latest_merge_max d m : latest_merge d = Some m ->
  m ∈ cdb_merges d /\ forall m', m' ∈ cdb_merges d -> mr_merged_at m' <= mr_merged_at m.
Proof. apply (head_sorted_max mr_merged_at). Qed.

Lemma latest_merge_some d m : m ∈ cdb_merges d -> exists m', latest_merge d = Some m' /\ mr_merged_at m <= mr_merged_at m'.
Proof.
  intros Hm. destruct (latest_merge d) as [m'|] eqn:E.
  - exists m'. split; [done|]. by apply (latest_merge_max d m' E).
  - exfalso. unfold latest_merge in E. pose proof (py_sorted_perm merged_later (cdb_merges d)) as Hp.
    destruct (py_sorted merged_later (cdb_merges d)); [|done]. rewrite <- Hp in Hm. by apply elem_of_nil in Hm.
Qed.

(** The automatic merge settles.  Once it has merged at an instant no push
    is after, running it again does nothing, until the next push: the second
    background task of two scheduled for the same pushes leaves the tables as
    they are. *)
Theorem auto_merge_settles (now audit now2 audit2 p : Z) (d d' : console_db) (m : merge_result)
    (Hok : merge_scan findings_deriver now DEFAULT_STALE_DAYS d = Ok (m, d'))
    (Hpush : latest_push_of (cdb_sensors d) = Some p) (Hpast : p <= now) :
  run_auto_merge findings_deriver exn_text now2 audit2 (run_auto_merge findings_deriver exn_text now audit d)
  = run_auto_merge findings_deriver exn_text now audit d.
Proof.
  assert (Hcovered : forall d0, cdb_sensors d0 = cdb_sensors d ->
    (exists m0, m0 ∈ cdb_merges d0 /\ p <= mr_merged_at m0) -> run_auto_merge findings_deriver exn_text now2 audit2 d0 = d0).
  { intros d0 Hs (m0 & Hm0 & Hle). unfold run_auto_merge.
    destruct (latest_merge_some d0 m0 Hm0) as (m1 & -> & Hm1). rewrite Hs, Hpush.
    assert (p <=? mr_merged_at m1 = true) as -> by lia. done. }
  unfold run_auto_merge at 2 3. rewrite Hpush.
  destruct (match latest_merge d with Some m0 => p <=? mr_merged_at m0 | None => false end) eqn:Ec.
  - apply Hcovered; [done|]. destruct (latest_merge d) as [m0|] eqn:El; [|done].
    exists m0. split; [by apply latest_merge_max in El as [? _]|lia].
  - rewrite Hok. apply merge_scan_run in Hok as (run & -> & Hrun). apply Hcovered; [done|].
    exists run. split; [cbn; apply elem_of_app; right; left|]. by rewrite Hrun.
Qed.
End MergeTheorems.

Definition no_findings (_ : list endpoint_row) : pyres (list finding) := Ok [].
Definition pushed : console_db := snd (Sample.push (Sample.enroll empty_console)).
Notation merged := (merge_scan no_findings 3000000 DEFAULT_STALE_DAYS pushed).

Lemma merge_scan_exact_witness :
  exists m d', merged = Ok (m, d') /\ mg_endpoint_count m = 1
  /\ exists run, d' = add_merge run pushed /\ mr_endpoints run = 1.
Proof.
  destruct merged as [[m d']|] eqn:E; [|vm_compute in E; discriminate E].
  exists m, d'. split; [reflexivity|].
  destruct (merge_scan_exact no_findings 3000000 DEFAULT_STALE_DAYS pushed d' m E) as (run & Hd & _ & _ & Hn & _).
  split; [|exists run; split; [exact Hd|rewrite Hn; vm_compute; reflexivity]].
  vm_compute in E. injection E as <- _. reflexivity.
Defined.

Lemma auto_merge_settles_witness :
  let once := run_auto_merge no_findings (fun _ => EmptyString) 3000000 3000001 pushed in
  length (cdb_merges once) = 1%nat
  /\ run_auto_merge no_findings (fun _ => EmptyString) 4000000 4000001 once = once.
Proof.
  intros once. split; [vm_compute; reflexivity|].
  destruct merged as [[m d']|] eqn:E; [|vm_compute in E; discriminate E].
  apply (auto_merge_settles no_findings (fun _ => EmptyString) 3000000 3000001 4000000 4000001 2000001 pushed d' m E).
  - vm_compute. reflexivity.
  - lia.
Defined.

(** A window given as text raises, after the push is committed: the sensor sees
    an error for a push that was accepted. *)
Example text_window_raises :
  is_ok (eval_trigger_condition (Some [("trigger_condition", VStr "cadence-window"); ("cadence_window_minutes", VStr "60")])
    5000000 (add_merge (merge_run pushed 3000000 0 None None) pushed)) = false.
Proof. vm_compute. reflexivity. Qed.
