(* ===== verification/Jobs.v ===== *)
(** Dashboard scan jobs: the life of a [scan_jobs] row between the server
    ([dashboard/api/routes/jobs.py], [dashboard/api/app.py]) and the scan process
    ([cli/job_progress.py]).

    The world has the committed rows, the process handles this server holds
    ([_PROCS]), and the scan processes with their exit codes.  The server and the
    processes interleave freely: a transition is one committed write, and a poll
    may act on a row it read earlier.  A database error, which the scan process
    swallows, is not modelled; nor are the files of a job. *)
From Stdlib Require Import ZArith Lia Ascii.
From stdpp Require Import base tactics fin_maps gmap strings list pretty.
From S2P Require Import Prelude PyStr Model.

Local Open Scope Z_scope.

Record ScanJob := {
  sj_id : string;
  sj_pid : option Z;
  sj_status : string;
  sj_stage : option string;
  sj_target : string;
  sj_started_at : option Z;
  sj_completed_at : option Z;
  sj_scan_run_id : option string;
  sj_error : option string;
  sj_batch : option (Z * Z * Z)
}.

Definition STAGE_ORDER : list string :=
  ["discovery"; "tls"; "ssh"; "api"; "identity"; "data_at_rest"; "reports"].
Definition STAGE_TOTAL : Z := 7.

Record world := {
  w_rows : gmap string ScanJob;
  w_procs : gmap string Z;
  w_children : gmap string (option Z)
}.

Definition set_rows (rows : gmap string ScanJob) (w : world) : world :=
  {| w_rows := rows; w_procs := w_procs w; w_children := w_children w |}.

(** [row = db.get(ScanJob, job_id)] and a change of it, when there is one. *)
Definition update_row (job : string) (f : ScanJob -> ScanJob) (w : world) : world :=
  set_rows (alter f job (w_rows w)) w.

(** * The scan process *)

Definition with_stage (stage : string) (r : ScanJob) : ScanJob :=
  {| sj_id := sj_id r; sj_pid := sj_pid r; sj_status := sj_status r; sj_stage := Some stage;
     sj_target := sj_target r; sj_started_at := sj_started_at r; sj_completed_at := sj_completed_at r;
     sj_scan_run_id := sj_scan_run_id r; sj_error := sj_error r; sj_batch := sj_batch r |}.

Definition with_batch (index total hosts : Z) (r : ScanJob) : ScanJob :=
  {| sj_id := sj_id r; sj_pid := sj_pid r; sj_status := sj_status r; sj_stage := sj_stage r;
     sj_target := sj_target r; sj_started_at := sj_started_at r; sj_completed_at := sj_completed_at r;
     sj_scan_run_id := sj_scan_run_id r; sj_error := sj_error r; sj_batch := Some (index, total, hosts) |}.

(** A terminal status with its columns; [None] leaves the column. *)
Definition finished (status : string) (now : Z) (scan_run_id error : option string) (r : ScanJob) : ScanJob :=
  {| sj_id := sj_id r; sj_pid := sj_pid r; sj_status := status; sj_stage := sj_stage r;
     sj_target := sj_target r; sj_started_at := sj_started_at r; sj_completed_at := Some now;
     sj_scan_run_id := match scan_run_id with Some i => Some i | None => sj_scan_run_id r end;
     sj_error := match error with Some e => Some e | None => sj_error r end;
     sj_batch := sj_batch r |}.

Definition update_job_stage (job stage : string) (w : world) : world := update_row job (with_stage stage) w.

Definition update_batch_progress (job : string) (index total hosts : Z) (w : world) : world :=
  update_row job (with_batch index total hosts) w.

Definition mark_job_completed (job scan_run_id : string) (now : Z) (w : world) : world :=
  update_row job (finished "completed" now (Some scan_run_id) None) w.

Definition mark_job_failed (job error_message : string) (now : Z) (w : world) : world :=
  update_row job (finished "failed" now None (Some (str_take 4096 error_message))) w.

(** * The server *)

(** A job that is created: the row is flushed as "queued" and committed as
    "running", after the process is spawned and its handle kept. *)
Definition create_job (job target : string) (pid now : Z) (w : world) : world :=
  {| w_rows := <[job := {| sj_id := job; sj_pid := Some pid; sj_status := "running"; sj_stage := None;
                           sj_target := target; sj_started_at := Some now; sj_completed_at := None;
                           sj_scan_run_id := None; sj_error := None; sj_batch := None |}]> (w_rows w);
     w_procs := <[job := pid]> (w_procs w);
     w_children := <[job := None]> (w_children w) |}.

Definition stage_index (current_stage : option string) (status : string) : Z :=
  if str_eqb status "completed" then STAGE_TOTAL
  else match current_stage with
       | None => 0
       | Some stage =>
           match list_find (eq stage) STAGE_ORDER with
           | Some (i, _) => Z.of_nat i + 1
           | None => 0
           end
       end.

Record JobStatusResponse := {
  js_job_id : string; js_status : string; js_current_stage : option string;
  js_started_at : option string; js_completed_at : option string;
  js_scan_run_id : option string; js_error_message : option string;
  js_stage_index : Z; js_stage_total : Z; js_batch : option (Z * Z * Z)
}.

Definition to_response (r : ScanJob) : JobStatusResponse :=
  {| js_job_id := sj_id r; js_status := sj_status r; js_current_stage := sj_stage r;
     js_started_at := stamp_utc_iso (sj_started_at r); js_completed_at := stamp_utc_iso (sj_completed_at r);
     js_scan_run_id := sj_scan_run_id r; js_error_message := sj_error r;
     js_stage_index := stage_index (sj_stage r) (sj_status r); js_stage_total := STAGE_TOTAL;
     js_batch := sj_batch r |}.

Section Server.
(** The absolute path of a job's log. *)
Context (log_path : string -> string).

Definition exit_message (pid : option Z) (returncode : Z) (job : string) : string :=
  "Scan process (pid " +:+ match pid with Some p => pretty p | None => "None" end
  +:+ ") exited without completing (exit code " +:+ pretty returncode +:+ "). See "
  +:+ log_path job +:+ " for captured output.".

(** [UPDATE ... WHERE job_id = ... AND status = 'running'] *)
Definition fail_if_running (error : string) (now : Z) (r : ScanJob) : ScanJob :=
  if str_eqb (sj_status r) "running" then finished "failed" now None (Some error) r else r.

(** [_reconcile_if_dead]; [row] is as the poll read it. *)
Definition reconcile_if_dead (row : ScanJob) (now : Z) (w : world) : world :=
  if negb (str_eqb (sj_status row) "running") then w
  else match w_procs w !! sj_id row with
       | None => w
       | Some _ =>
           match w_children w !! sj_id row with
           | Some (Some returncode) =>
               update_row (sj_id row) (fail_if_running (exit_message (sj_pid row) returncode (sj_id row)) now)
                 {| w_rows := w_rows w; w_procs := delete (sj_id row) (w_procs w); w_children := w_children w |}
           | _ => w
           end
       end.

(** [GET /jobs/{job_id}]; [None] is 404. *)
Definition get_job (job : string) (now : Z) (w : world) : option (JobStatusResponse * world) :=
  match w_rows w !! job with
  | None => None
  | Some row =>
      let w' := reconcile_if_dead row now w in
      Some (to_response (default row (w_rows w' !! job)), w')
  end.

(** [DELETE /jobs/{job_id}]; [true] says the process was sent SIGTERM. *)
Definition cancel_job (job : string) (now : Z) (w : world) : option (bool * world) :=
  match w_rows w !! job with
  | None => None
  | Some row =>
      Some (match sj_pid row with Some p => negb (p =? 0) | None => false end && str_eqb (sj_status row) "running",
            update_row job (finished "cancelled" now None None) w)
  end.

(** [_recover_stale_jobs], when a server starts: it has no handles. *)
Definition recover_stale_jobs (now : Z) (w : world) : world :=
  {| w_rows := fail_if_running "API restarted — job lost" now <$> w_rows w;
     w_procs := ∅; w_children := w_children w |}.

(** * The interleaving *)

Inductive job_step : world -> world -> Prop :=
| step_create w job target pid now :
    w_rows w !! job = None -> w_children w !! job = None -> job_step w (create_job job target pid now w)
| step_stage w job stage : w_children w !! job = Some None -> job_step w (update_job_stage job stage w)
| step_batch w job i n h : w_children w !! job = Some None -> job_step w (update_batch_progress job i n h w)
| step_completed w job run now : w_children w !! job = Some None -> job_step w (mark_job_completed job run now w)
| step_failed w job error now : w_children w !! job = Some None -> job_step w (mark_job_failed job error now w)
| step_exit w job code :
    w_children w !! job = Some None ->
    job_step w {| w_rows := w_rows w; w_procs := w_procs w; w_children := <[job := Some code]> (w_children w) |}
| step_poll w row now : job_step w (reconcile_if_dead row now w)
| step_cancel w job sent now w' : cancel_job job now w = Some (sent, w') -> job_step w w'
| step_restart w now : job_step w (recover_stale_jobs now w).

Definition no_jobs : world := {| w_rows := ∅; w_procs := ∅; w_children := ∅ |}.

(** * Invariants *)

Definition is_terminal (status : string) : Prop := status ∈ ["completed"; "failed"; "cancelled"].

(** A committed row is running, with a process id, or over, with its instant; a
    failed one says why and a completed one names its scan. *)
Record job_wf (job : string) (r : ScanJob) : Prop := {
  jw_id : sj_id r = job;
  jw_status : sj_status r = "running" \/ is_terminal (sj_status r);
  jw_pid : is_Some (sj_pid r);
  jw_completed_at : is_terminal (sj_status r) -> is_Some (sj_completed_at r);
  jw_error : sj_status r = "failed" -> is_Some (sj_error r);
  jw_run : sj_status r = "completed" -> is_Some (sj_scan_run_id r)
}.

Record world_wf (w : world) : Prop := {
  ww_rows : map_Forall job_wf (w_rows w);
  ww_handles : forall job r, w_rows w !! job = Some r -> sj_status r = "running" -> is_Some (w_procs w !! job);
  ww_children : forall job, is_Some (w_rows w !! job) -> is_Some (w_children w !! job)
}.

Lemma terminal_completed : is_terminal "completed". Proof. unfold is_terminal. set_solver. Qed.
Lemma terminal_failed : is_terminal "failed". Proof. unfold is_terminal. set_solver. Qed.
Lemma terminal_cancelled : is_terminal "cancelled". Proof. unfold is_terminal. set_solver. Qed.
#[local] Hint Resolve terminal_completed terminal_failed terminal_cancelled : core.

Lemma finished_wf job r status now run error :
  job_wf job r -> is_terminal status ->
  (status = "failed" -> is_Some error) -> (status = "completed" -> is_Some run) ->
  job_wf job (finished status now run error r).
Proof.
  intros [] Ht Hf Hc. constructor; cbn; auto.
  - intros E. destruct (Hf E) as [e ->]. by eexists.
  - intros E. destruct (Hc E) as [i ->]. by eexists.
Qed.

Lemma fail_if_running_wf job r error now : job_wf job r -> job_wf job (fail_if_running error now r).
Proof.
  intros H. unfold fail_if_running. destruct (str_eqb _ _); [|done].
  apply finished_wf; [done|auto|intros _; by eexists|discriminate].
Qed.

Lemma not_running status : is_terminal status -> status <> "running".
Proof. intros H ->. unfold is_terminal in H. rewrite !elem_of_cons, elem_of_nil in H. naive_solver. Qed.

Lemma update_row_wf job f w :
  world_wf w ->
  (forall r, job_wf job r -> job_wf job (f r)) ->
  (forall r, sj_status (f r) = "running" -> sj_status r = "running") ->
  world_wf (update_row job f w).
Proof.
  intros [Hr Hh Hc] Hf Hrun. constructor; cbn [update_row set_rows w_rows w_procs w_children].
  - intros j r Hj. destruct (decide (j = job)) as [->|Hne].
    + rewrite lookup_alter_eq in Hj. destruct (w_rows w !! job) as [r0|] eqn:E; [|done].
      injection Hj as <-. apply Hf. by apply (Hr job).
    + rewrite lookup_alter_ne in Hj by done. by apply (Hr j).
  - intros j r Hj Hs. destruct (decide (j = job)) as [->|Hne].
    + rewrite lookup_alter_eq in Hj. destruct (w_rows w !! job) as [r0|] eqn:E; [|done].
      injection Hj as <-. apply Hrun in Hs. by eapply Hh.
    + rewrite lookup_alter_ne in Hj by done. by eapply Hh.
  - intros j Hj. apply Hc. destruct (decide (j = job)) as [->|Hne].
    + rewrite lookup_alter_eq in Hj. by apply fmap_is_Some in Hj.
    + by rewrite lookup_alter_ne in Hj.
Qed.


Lemma fail_if_running_stopped error now r : sj_status (fail_if_running error now r) = "running" -> False.
Proof.
  unfold fail_if_running. destruct (str_eqb (sj_status r) "running") eqn:E; [done|].
  unfold str_eqb in E. by apply bool_decide_eq_false in E.
Qed.

Lemma drop_handle_wf job rows procs children :
  world_wf {| w_rows := rows; w_procs := procs; w_children := children |} ->
  (forall r, rows !! job = Some r -> sj_status r <> "running") ->
  world_wf {| w_rows := rows; w_procs := delete job procs; w_children := children |}.
Proof.
  intros [Hr Hh Hc] Hs. constructor; cbn in *; [done| |done].
  intros j r Hj Hrun. destruct (decide (j = job)) as [->|Hne]; [by destruct (Hs r Hj)|].
  rewrite lookup_delete_ne by done. by eapply Hh.
Qed.

Lemma job_step_wf w w' : job_step w w' -> world_wf w -> world_wf w'.
Proof.
  intros [w0 job target pid now Hr Hc|w0 job stage Ha|w0 job i n h Ha|w0 job run now Ha|w0 job error now Ha
         |w0 job code Ha|w0 row now|w0 job sent now w1 Hcan|w0 now] Hwf.
  - destruct Hwf as [Hrows Hh Hch]. constructor; cbn [create_job w_rows w_procs w_children].
    + apply map_Forall_insert; [done|]. split; [|done].
      constructor; cbn; [done|by left|by eexists|intros H; by apply not_running in H|discriminate..].
    + intros j r. destruct (decide (j = job)) as [->|Hne].
      * intros _ _. rewrite lookup_insert_eq. by eexists.
      * rewrite !lookup_insert_ne by done. apply Hh.
    + intros j. destruct (decide (j = job)) as [->|Hne].
      * intros _. rewrite lookup_insert_eq. by eexists.
      * rewrite !lookup_insert_ne by done. apply Hch.
  - apply update_row_wf; [done| |done]. intros r []. by constructor.
  - apply update_row_wf; [done| |done]. intros r []. by constructor.
  - apply update_row_wf; [done| |discriminate]. intros r H. apply finished_wf; [done|auto|discriminate|intros _; by eexists].
  - apply update_row_wf; [done| |discriminate]. intros r H. apply finished_wf; [done|auto|intros _; by eexists|discriminate].
  - destruct Hwf as [Hrows Hh Hch]. constructor; cbn [w_rows w_procs w_children]; try done.
    intros j Hj. destruct (decide (j = job)) as [->|Hne].
    + rewrite lookup_insert_eq. by eexists.
    + rewrite lookup_insert_ne by done. auto.
  - unfold reconcile_if_dead. destruct (negb _); [done|]. destruct (w_procs w0 !! sj_id row); [|done].
    destruct (w_children w0 !! sj_id row) as [[code|]|]; try done.
    set (f := fail_if_running (exit_message (sj_pid row) code (sj_id row)) now).
    apply (drop_handle_wf (sj_id row) (alter f (sj_id row) (w_rows w0)) (w_procs w0) (w_children w0)).
    + apply (update_row_wf (sj_id row) f w0); [done|intros r; apply fail_if_running_wf|].
      intros r Hr. by apply fail_if_running_stopped in Hr.
    + intros r Hj. rewrite lookup_alter_eq in Hj. destruct (w_rows w0 !! sj_id row) as [r0|]; [|done].
      injection Hj as <-. exact (fail_if_running_stopped _ _ _).
  - unfold cancel_job in Hcan. destruct (w_rows w0 !! job); [|done]. injection Hcan as _ <-.
    apply update_row_wf; [done| |discriminate]. intros r H. apply finished_wf; [done|auto|discriminate|discriminate].
  - destruct Hwf as [Hrows Hh Hch]. constructor; cbn [recover_stale_jobs w_rows w_procs w_children].
    + intros j r. rewrite lookup_fmap. destruct (w_rows w0 !! j) as [r0|] eqn:E; [|done].
      intros [= <-]. by apply fail_if_running_wf, (Hrows j).
    + intros j r. rewrite lookup_fmap. destruct (w_rows w0 !! j) as [r0|] eqn:E; [|done].
      intros [= <-] Hs. by apply fail_if_running_stopped in Hs.
    + intros j. rewrite lookup_fmap. intros Hj. apply fmap_is_Some in Hj. auto.
Qed.

Lemma reachable_jobs_wf w : rtc job_step no_jobs w -> world_wf w.
Proof.
  assert (Hgen : forall a b, rtc job_step a b -> world_wf a -> world_wf b)
    by (induction 1 as [|a b c Hs _ IH]; [done|]; intros Ha; apply IH; by eapply job_step_wf).
  intros H. apply (Hgen _ _ H). constructor; cbn; [apply map_Forall_empty|..].
  - intros j r Hj. by rewrite lookup_empty in Hj.
  - intros j [r Hj]. by rewrite lookup_empty in Hj.
Qed.


(** A dead scan is reported.  In every reachable state, the next status
    request for a job whose process has exited answers with a terminal status,
    never "running": the process's own verdict when it wrote one, and otherwise
    "failed" with the exit code and the log. *)
Theorem poll_reports_death (w : world) (job : string) (r : ScanJob) (code now : Z)
    (Hreach : rtc job_step no_jobs w) (Hrow : w_rows w !! job = Some r)
    (Hdead : w_children w !! job = Some (Some code)) :
  exists answer w', get_job job now w = Some (answer, w') /\ is_terminal (js_status answer)
  /\ (sj_status r <> "running" -> answer = to_response r /\ w' = w)
  /\ (sj_status r = "running" ->
        js_status answer = "failed" /\ js_error_message answer = Some (exit_message (sj_pid r) code job)
        /\ w_rows w' !! job = Some (finished "failed" now None (Some (exit_message (sj_pid r) code job)) r)).
Proof.
  destruct (reachable_jobs_wf w Hreach) as [Hrows Hh _]. destruct (Hrows _ _ Hrow) as [Hid Hst _ _ _ _].
  unfold get_job. rewrite Hrow. unfold reconcile_if_dead. rewrite Hid.
  destruct (str_eqb (sj_status r) "running") eqn:E; unfold str_eqb in E; cbn [negb].
  - apply bool_decide_eq_true in E. destruct (Hh _ _ Hrow E) as [pid ->]. rewrite Hdead.
    eexists _, _. split; [reflexivity|]. cbn [update_row set_rows w_rows]. rewrite lookup_alter_eq, Hrow.
    cbn [fmap option_fmap option_map from_option default]. unfold fail_if_running, str_eqb.
    rewrite bool_decide_eq_true_2 by done. unfold id. split_and!; [auto|done|]. by intros _.
  - apply bool_decide_eq_false in E. eexists _, _. split; [reflexivity|]. rewrite Hrow. cbn [from_option].
    unfold id. split_and!; [|done|done]. by destruct Hst.
Qed.

Lemma reconcile_keeps row now w job r :
  w_rows w !! job = Some r -> sj_status r <> "running" -> w_rows (reconcile_if_dead row now w) !! job = Some r.
Proof.
  intros Hr Hs. unfold reconcile_if_dead. destruct (negb _); [done|].
  destruct (w_procs w !! sj_id row); [|done]. destruct (w_children w !! sj_id row) as [[code|]|]; try done.
  cbn [update_row set_rows w_rows]. destruct (decide (sj_id row = job)) as [->|Hne].
  - rewrite lookup_alter_eq, Hr. cbn. unfold fail_if_running, str_eqb. by rewrite bool_decide_eq_false_2.
  - by rewrite lookup_alter_ne.
Qed.

(** The sweeps never overwrite a verdict.  A row that is over is left as it
    is by every poll, whatever and however old the row it read, and by the sweep
    of a server restart; so the scan's own terminal status wins the race against
    the reconciliation. *)
Theorem sweeps_keep_verdicts (w : world) (job : string) (r row : ScanJob) (now : Z)
    (Hrow : w_rows w !! job = Some r) (Hover : is_terminal (sj_status r)) :
  w_rows (reconcile_if_dead row now w) !! job = Some r /\ w_rows (recover_stale_jobs now w) !! job = Some r.
Proof.
  apply not_running in Hover. split; [by apply reconcile_keeps|].
  cbn [recover_stale_jobs w_rows]. rewrite lookup_fmap, Hrow. cbn. unfold fail_if_running, str_eqb.
  by rewrite bool_decide_eq_false_2.
Qed.

Lemma stage_index_bounds stage status : 0 <= stage_index stage status <= STAGE_TOTAL.
Proof.
  unfold stage_index, STAGE_TOTAL. destruct (str_eqb status "completed"); [lia|].
  destruct stage as [stage|]; [|lia]. destruct (list_find (eq stage) STAGE_ORDER) as [[i x]|] eqn:E; [|lia].
  apply list_find_Some in E as (E & _). apply lookup_lt_Some in E. simpl in E. lia.
Qed.
End Server.

(** * A concrete job *)

Module SampleJob.
Definition log (job : string) : string := "/srv/output/jobs/" +:+ job +:+ "/run.log".
Definition created : world := create_job "j1" "10.0.0.0/24" 4242 1000 no_jobs.
Definition died : world :=
  {| w_rows := w_rows created; w_procs := w_procs created; w_children := <["j1" := Some 2]> (w_children created) |}.
Definition row : ScanJob :=
  {| sj_id := "j1"; sj_pid := Some 4242; sj_status := "running"; sj_stage := None; sj_target := "10.0.0.0/24";
     sj_started_at := Some 1000; sj_completed_at := None; sj_scan_run_id := None; sj_error := None; sj_batch := None |}.

Lemma created_reachable : rtc (job_step log) no_jobs created.
Proof. apply rtc_once. by apply step_create. Qed.

Lemma died_reachable : rtc (job_step log) no_jobs died.
Proof. eapply rtc_r; [apply created_reachable|]. by apply step_exit. Qed.
End SampleJob.


Lemma poll_reports_death_witness :
  exists answer w', get_job SampleJob.log "j1" 2000 SampleJob.died = Some (answer, w')
  /\ js_error_message answer = Some
       "Scan process (pid 4242) exited without completing (exit code 2). See /srv/output/jobs/j1/run.log for captured output.".
Proof.
  destruct (poll_reports_death SampleJob.log SampleJob.died "j1" SampleJob.row 2 2000 SampleJob.died_reachable
    eq_refl eq_refl) as (answer & w' & Hg & _ & _ & Hrun).
  exists answer, w'. split; [exact Hg|]. exact (proj1 (proj2 (Hrun eq_refl))).
Defined.

Lemma sweeps_keep_verdicts_witness :
  let w := mark_job_completed "j1" "run-7" 1500 SampleJob.created in
  exists r, w_rows w !! "j1" = Some r /\ w_rows (reconcile_if_dead SampleJob.log SampleJob.row 2000 w) !! "j1" = Some r.
Proof.
  intros w. eexists. split; [reflexivity|].
  refine (proj1 (sweeps_keep_verdicts SampleJob.log w "j1" _ SampleJob.row 2000 eq_refl _)).
  apply terminal_completed.
Defined.

(** Cancelling is not guarded: it turns a completed job into a cancelled one. *)
Example cancel_overwrites_completed :
  (fun x => sj_status <$> (w_rows x.2 !! "j1")) <$>
    cancel_job "j1" 2000 (mark_job_completed "j1" "run-7" 1500 SampleJob.created)
  = Some (Some "cancelled").
Proof. reflexivity. Qed.

(** A scan that outlives a server restart completes a job the restart failed;
    the error stays. *)
Example restart_then_completed :
  (fun r => (sj_status r, sj_error r)) <$>
    (w_rows (mark_job_completed "j1" "run-7" 3000 (recover_stale_jobs 2000 SampleJob.created)) !! "j1")
  = Some ("completed", Some "API restarted — job lost").
Proof. reflexivity. Qed.

(** The handle of a job that completed is never dropped: later polls return
    before they look at the process. *)
Example completed_handle_kept :
  let w := mark_job_completed "j1" "run-7" 1500 SampleJob.created in
  let dead := {| w_rows := w_rows w; w_procs := w_procs w; w_children := <["j1" := Some 0]> (w_children w) |} in
  (fun x => w_procs x.2 !! "j1") <$> get_job SampleJob.log "j1" 2000 dead = Some (Some 4242).
Proof. reflexivity. Qed.
