(* ===== verification/JobConfig.v ===== *)
(** Dashboard scan submissions: the validation of the connector overlay and of
    credential names ([dashboard/api/schemas.py]), the configuration of a job
    ([dashboard/api/routes/jobs.py]) and the split of credentials into environment
    variables and names ([_build_credential_env]).

    A JSON or YAML value is a [pyval]; [repr] of a string is a parameter. *)
From Stdlib Require Import ZArith QArith Lia Ascii.
From stdpp Require Import base tactics sets strings list pretty.
From S2P Require Import Prelude PyStr PyFloat PyVal PortSpec Findings.

Local Open Scope Z_scope.
Local Open Scope quirk_scope.

(** [{**a, **b}] *)
Definition merge_dict (a b : pydict) : pydict := foldl (fun d kv => aset kv.1 kv.2 d) a b.

(** [CONSULTING_TLS_PORTS] *)
Definition CONSULTING_TLS_PORTS : list Z :=
  WELL_KNOWN_TLS_PORTS ++ [636; 3269; 993; 995; 465; 6443; 2376; 5432; 3306; 1433; 8200].

(** * The connector overlay *)

(** The fields of [ConnectorsCfg]. *)
Definition KNOWN_CONNECTOR_KEYS : list string :=
  ["enable_aws"; "enable_azure"; "enable_jwt"; "enable_container"; "enable_source"; "enable_nmap";
   "aws_region"; "aws_profile"; "azure_subscription_id"; "azure_keyvault_urls"; "jwt_targets";
   "container_targets"; "source_targets"; "enable_kerberos"; "enable_saml"; "enable_dnssec"; "enable_smime";
   "kerberos_targets"; "kerberos_probe_principal"; "saml_targets"; "dnssec_targets"; "dnssec_resolver";
   "smime_targets"; "smime_search_base"; "smime_timeout"; "enable_adcs"; "adcs_targets"; "adcs_search_base";
   "adcs_user"; "adcs_password"; "adcs_timeout"; "enable_codesign"; "codesign_targets";
   "codesign_search_base"; "codesign_timeout"; "enable_gcp"; "gcp_project_id"; "enable_db"; "pg_targets";
   "pg_scanner_user"; "pg_scanner_password"; "mysql_targets"; "mysql_scanner_user";
   "mysql_scanner_password"; "enable_s3"; "enable_blob"; "aws_endpoint_url"; "enable_k8s"; "k8s_provider";
   "k8s_cluster_name"; "k8s_namespace"; "k8s_kubeconfig"; "k8s_context"; "gke_clusters"; "aks_clusters";
   "enable_vault"; "vault_addr"; "vault_token"; "vault_transit_mount"; "vault_tls_verify"; "enable_email";
   "enable_broker"; "broker_azure_namespaces"; "broker_sqs_regions"; "broker_targets";
   "enable_authenticated_mode"; "enable_snmp"; "snmp_community"; "enable_modbus"; "enable_bacnet";
   "enable_recurring_otics"; "snmp_v3_credentials"; "_user_set_fields"].

Inductive detail_type := TList | TStr | TInt | TBool.

#[export] Instance detail_type_eq_dec : EqDecision detail_type.
Proof. solve_decision. Defined.

Definition CONNECTOR_DETAIL_KEY_TYPES : list (string * detail_type) :=
  map (fun k => (k, TList))
    ["jwt_targets"; "container_targets"; "source_targets"; "kerberos_targets"; "saml_targets"; "dnssec_targets";
     "smime_targets"; "adcs_targets"; "azure_keyvault_urls"; "pg_targets"; "mysql_targets"; "broker_targets";
     "broker_azure_namespaces"; "broker_sqs_regions"; "gke_clusters"; "aks_clusters"]
  ++ map (fun k => (k, TStr))
    ["aws_region"; "aws_profile"; "aws_endpoint_url"; "azure_subscription_id"; "gcp_project_id"; "dnssec_resolver";
     "smime_search_base"; "adcs_search_base"; "adcs_user"; "pg_scanner_user"; "mysql_scanner_user"; "k8s_provider";
     "k8s_cluster_name"; "k8s_namespace"; "k8s_kubeconfig"; "k8s_context"; "vault_addr"; "vault_transit_mount"]
  ++ [("smime_timeout", TInt); ("adcs_timeout", TInt); ("vault_tls_verify", TBool)].

Definition K8S_CLUSTER_DICT_KEYS : list (string * list string) :=
  [("gke_clusters", ["location"; "name"]); ("aks_clusters", ["name"; "resource_group"])].

Definition CONNECTOR_STR_MAX_LENGTH : nat := 512.
Definition CONNECTOR_LIST_MAX_LENGTH : nat := 256.
Definition CONNECTOR_TIMEOUT_MIN : Z := 1.
Definition CONNECTOR_TIMEOUT_MAX : Z := 300.

Definition guard_ok (b : bool) (msg : string) : pyres unit := if b then Ok tt else Raise (ValueError msg).

(** [repr] of a string without quotes or escapes. *)
Definition quoted (s : string) : string := "'" +:+ s +:+ "'".

Definition fits (s : string) : bool := (String.length s <=? CONNECTOR_STR_MAX_LENGTH)%nat.

(** An element of [gke_clusters] or [aks_clusters]. *)
Definition cluster_element (key : string) (dict_keys : list string) (element : pyval) : pyres unit :=
  let! _ := guard_ok
    (match element with
     | VDict d => forallb (fun k => str_in k dict_keys) (map fst d) && forallb (fun k => str_in k (map fst d)) dict_keys
                  && forallb (fun kv => match kv.2 with VStr _ => true | _ => false end) d
     | _ => false
     end)
    (quoted key +:+ " elements must be objects with keys [" +:+ str_join ", " (map quoted dict_keys)
     +:+ "] and string values") in
  match element with
  | VDict d =>
      pfold (fun _ kv => guard_ok (match kv.2 with VStr s => fits s | _ => true end)
        (quoted key +:+ " element " +:+ quoted kv.1 +:+ " must be at most 512 characters")) tt d
  | _ => Ok tt
  end.

Definition text_element (key : string) (element : pyval) : pyres unit :=
  match element with
  | VStr s => guard_ok (fits s) (quoted key +:+ " elements must be at most 512 characters")
  | _ => Raise (ValueError (quoted key +:+ " elements must be strings"))
  end.

Definition detail_value (key : string) (expected : detail_type) (value : pyval) : pyres unit :=
  match expected with
  | TBool => guard_ok (match value with VBool _ => true | _ => false end) (quoted key +:+ " must be a boolean")
  | TInt =>
      match value with
      | VInt z => guard_ok ((CONNECTOR_TIMEOUT_MIN <=? z) && (z <=? CONNECTOR_TIMEOUT_MAX))
                    (quoted key +:+ " must be between 1 and 300")
      | _ => Raise (ValueError (quoted key +:+ " must be an integer"))
      end
  | TStr =>
      match value with
      | VStr s => guard_ok (fits s) (quoted key +:+ " must be at most 512 characters")
      | _ => Raise (ValueError (quoted key +:+ " must be a string"))
      end
  | TList =>
      match value with
      | VList l =>
          let! _ := guard_ok (length l <=? CONNECTOR_LIST_MAX_LENGTH)%nat
                      (quoted key +:+ " must have at most 256 elements") in
          match alookup key K8S_CLUSTER_DICT_KEYS with
          | Some dict_keys => pfold (fun _ e => cluster_element key dict_keys e) tt l
          | None => pfold (fun _ e => text_element key e) tt l
          end
      | _ => Raise (ValueError (quoted key +:+ " must be a list"))
      end
  end.

(** The body of the loop over the items. *)
Definition overlay_item (kv : string * pyval) : pyres unit :=
  let '(key, value) := kv in
  if startswith key "enable_" then
    guard_ok (match value with VBool _ => true | _ => false end) (quoted key +:+ " must be a boolean toggle")
  else match alookup key CONNECTOR_DETAIL_KEY_TYPES with
       | None => Raise (ValueError (quoted key +:+ " is not a recognized connector overlay field (must "
                   +:+ "be a known enable_* toggle or one of the supported connector detail fields)"))
       | Some expected => detail_value key expected value
       end.

Definition validate_connectors_overlay (v : pydict) : pyres pydict :=
  let! _ := guard_ok (length v <=? length KNOWN_CONNECTOR_KEYS)%nat
    ("connectors payload has " +:+ pretty (Z.of_nat (length v)) +:+ " entries, more than the "
     +:+ pretty (Z.of_nat (length KNOWN_CONNECTOR_KEYS)) +:+ " known connector fields") in
  match sorted_strings (List.filter (fun k => negb (str_in k KNOWN_CONNECTOR_KEYS)) (map fst v)) with
  | [] => let! _ := pfold (fun _ kv => overlay_item kv) tt v in Ok v
  | unknown => Raise (ValueError ("Unknown connector key(s): " +:+ str_join ", " unknown))
  end.

(** * Credential names *)

Record CredentialField := { cf_section : string; cf_name : string; cf_env_fallback : option string }.

Definition CREDENTIAL_REGISTRY : list CredentialField :=
  map (fun x => {| cf_section := x.1.1; cf_name := x.1.2; cf_env_fallback := Some x.2 |})
    [("connectors", "vault_token", "VAULT_TOKEN");
     ("connectors", "adcs_password", "QUIRK_ADCS_PASSWORD");
     ("connectors", "pg_scanner_password", "QUIRK_PG_SCANNER_PASSWORD");
     ("connectors", "mysql_scanner_password", "QUIRK_MYSQL_SCANNER_PASSWORD");
     ("connectors", "snmp_community", "QUIRK_SNMP_COMMUNITY");
     ("security", "api_token", "QUIRK_API_TOKEN")].

Definition connector_credentials : list CredentialField :=
  List.filter (fun e => str_eqb (cf_section e) "connectors") CREDENTIAL_REGISTRY.

Definition registry_by_name (name : string) : option CredentialField :=
  List.find (fun e => str_eqb (cf_name e) name) connector_credentials.

(** [^snmpv3:.+:(auth|priv|username)$]; [$] also matches before a final newline. *)
Definition snmpv3_re (key : string) : bool :=
  let newline := str1 (chr 10) in
  let key := if endswith key newline then str_drop_end 1 key else key in
  startswith key "snmpv3:"
  && existsb (fun suffix =>
       let middle := str_drop 7 (str_drop_end (String.length suffix) key) in
       endswith key suffix && (7 + String.length suffix <? String.length key)%nat
       && every (fun c => negb (bool_decide (c = chr 10))) middle) [":auth"; ":priv"; ":username"].

Definition known_credential (key : string) : bool :=
  negb (str_eqb key "api_token")
  && (bool_decide (is_Some (registry_by_name key)) || startswith key "broker:" || snmpv3_re key).

Definition validate_credential_names (names : list string) : pyres (list string) :=
  let! _ := guard_ok (length names <=? 64)%nat
    ("credentials payload has " +:+ pretty (Z.of_nat (length names)) +:+ " entries, more than the 64-entry cap") in
  match sorted_strings (List.filter (fun k => negb (known_credential k)) names) with
  | [] => Ok names
  | unknown => Raise (ValueError ("Unknown credential key(s): " +:+ str_join ", " unknown))
  end.

(** * Advanced fields *)

(** What the model accepts for a field that is set; [None] always is. *)
Inductive field_kind :=
| FInt (low high : Z)
| FText (max : nat)
| FLiteral (choices : list string)
| FBool
| FPositive.

Definition ADVANCED_FIELDS : list (string * field_kind) :=
  [("ports_tls", FText 512); ("tls_enum_mode", FLiteral ["fast"; "deep"]); ("include_sni", FBool);
   ("timeout_default_seconds", FInt 1 300); ("timeout_tls_seconds", FInt 1 300); ("timeout_ssh_seconds", FInt 1 300);
   ("retry_count", FInt 0 10);
   ("data_classification", FLiteral ["public"; "internal"; "confidential"; "regulated"]);
   ("timeout_fingerprint_seconds", FInt 1 600); ("timeout_jwt_seconds", FInt 1 600);
   ("timeout_container_seconds", FInt 1 600); ("timeout_source_seconds", FInt 1 600);
   ("timeout_dnssec_seconds", FInt 1 600); ("timeout_saml_seconds", FInt 1 600);
   ("timeout_kerberos_seconds", FInt 1 600); ("timeout_vault_seconds", FInt 1 600);
   ("timeout_db_connect_seconds", FInt 1 600); ("timeout_broker_seconds", FInt 1 600);
   ("timeout_email_seconds", FInt 1 600);
   ("retry_backoff_base_seconds", FPositive); ("retry_backoff_max_seconds", FPositive);
   ("scan_concurrency", FInt 1 500); ("fingerprint_concurrency", FInt 1 500); ("tls_concurrency", FInt 1 500);
   ("ssh_concurrency", FInt 1 500); ("motion_concurrency", FInt 1 500); ("tls_designated_ports", FText 512)].

Definition field_accepts (k : field_kind) (v : pyval) : bool :=
  match k, v with
  | _, VNone => true
  | FInt low high, VInt z => (low <=? z) && (z <=? high)
  | FText max, VStr s => (String.length s <=? max)%nat
  | FLiteral choices, VStr s => str_in s choices
  | FBool, VBool _ => true
  | FPositive, VFloat q => flt 0 q
  | _, _ => false
  end.

(** The fields that were set, once the model has accepted them. *)
Definition advanced_valid (values : pydict) : bool :=
  forallb (fun kv => match alookup kv.1 ADVANCED_FIELDS with Some k => field_accepts k kv.2 | None => false end) values
  && match alookup "retry_backoff_base_seconds" values, alookup "retry_backoff_max_seconds" values with
     | Some (VFloat base), Some (VFloat max) => fle base max
     | _, _ => true
     end.

Definition TIMEOUT_FIELDS : list (string * string) :=
  [("timeout_default_seconds", "default_seconds"); ("timeout_tls_seconds", "tls_seconds");
   ("timeout_ssh_seconds", "ssh_seconds"); ("timeout_fingerprint_seconds", "fingerprint_seconds");
   ("timeout_jwt_seconds", "jwt_seconds"); ("timeout_container_seconds", "container_seconds");
   ("timeout_source_seconds", "source_seconds"); ("timeout_dnssec_seconds", "dnssec_seconds");
   ("timeout_saml_seconds", "saml_seconds"); ("timeout_kerberos_seconds", "kerberos_seconds");
   ("timeout_vault_seconds", "vault_seconds"); ("timeout_db_connect_seconds", "db_connect_seconds");
   ("timeout_broker_seconds", "broker_seconds"); ("timeout_email_seconds", "email_seconds")].

Definition RETRY_FIELDS : list (string * string) :=
  [("retry_count", "retry_count"); ("retry_backoff_base_seconds", "backoff_base_seconds");
   ("retry_backoff_max_seconds", "backoff_max_seconds")].

Definition CONCURRENCY_FIELDS : list (string * string) :=
  [("scan_concurrency", "concurrency"); ("fingerprint_concurrency", "fingerprint_concurrency");
   ("tls_concurrency", "tls_concurrency"); ("ssh_concurrency", "ssh_concurrency");
   ("motion_concurrency", "motion_concurrency")].

(** [if field in values: block[key] = values[field]], for each pair. *)
Definition copy_fields (fields : list (string * string)) (values : pydict) : pydict :=
  omap (fun fk => (fun v => (fk.2, v)) <$> alookup fk.1 values) fields.

(** [parse_port_spec(values[field])]; [None] is refused like an empty text. *)
Definition port_field (field key : string) (values : pydict) : pyres pydict :=
  match alookup field values with
  | None => Ok []
  | Some v =>
      let! ports := parse_port_spec (match v with VStr s => s | _ => EmptyString end) in
      Ok [(key, VList (map VInt ports))]
  end.

(** [if block: overlay[key] = block] *)
Definition sub_block (key : string) (block : pydict) : pydict :=
  match block with [] => [] | _ => [(key, VDict block)] end.

Definition build_advanced_overlays (advanced : option pydict) : pyres (pydict * pydict) :=
  match advanced with
  | None => Ok ([], [])
  | Some values =>
      let! ports_tls := port_field "ports_tls" "ports_tls" values in
      let! designated := port_field "tls_designated_ports" "tls_designated_ports" values in
      Ok (ports_tls
          ++ copy_fields [("tls_enum_mode", "tls_enum_mode"); ("include_sni", "include_sni")] values
          ++ sub_block "timeouts" (copy_fields TIMEOUT_FIELDS values)
          ++ sub_block "retry" (copy_fields RETRY_FIELDS values)
          ++ copy_fields CONCURRENCY_FIELDS values ++ designated,
          copy_fields [("data_classification", "data_classification")] values)
  end.

(** * The job configuration *)

Definition KNOWN_SCAN_OVERLAY_KEYS : list string :=
  ["ports_tls"; "tls_enum_mode"; "include_sni"; "timeouts"; "retry"; "concurrency"; "fingerprint_concurrency";
   "tls_concurrency"; "ssh_concurrency"; "motion_concurrency"; "tls_designated_ports"].
Definition SCAN_OVERLAY_SUBTABLE_KEYS : list string := ["timeouts"; "retry"].
Definition KNOWN_ASSESSMENT_OVERLAY_KEYS : list string := ["data_classification"].

Definition port_list (ports : list Z) : pyval := VList (map VInt ports).
Definition texts (l : list string) : pyval := VList (map VStr l).

(** The stripped non-empty targets. *)
Definition target_list (targets : string) : list string :=
  List.filter (fun t => truthy_str (Some t)) (map strip (split_on "," targets)).

Definition has_slash (t : string) : bool := contains t "/".

(** The scan block and the connector suppression of a port scope. *)
Definition scope_blocks (port_scope : string) (custom_ports : option string) : pyres (pydict * option pydict) :=
  let block ports := [("concurrency", VInt 100); ("ports_tls", port_list ports); ("include_sni", VBool true)] in
  if str_eqb port_scope "common" then Ok (block CONSULTING_TLS_PORTS, None)
  else if str_eqb port_scope "custom" then
    let! ports := parse_port_spec (str_or_empty custom_ports) in
    Ok (block ports, Some [("enable_email", VBool false); ("enable_broker", VBool false)])
  else Ok (block CONSULTING_TLS_PORTS ++ [("nmap_port_scope", VStr port_scope)], None).

(** [for key in overlay: if key not in known: raise] *)
Definition known_overlay (known : list string) (overlay : pydict) : pyres unit :=
  pfold (fun _ kv => guard_ok (str_in kv.1 known) (quoted kv.1 +:+ " is not a recognized advanced scan field"))
    tt overlay.

(** One key of the scan overlay; a sub-table is merged into the one there. *)
Definition merge_scan_key (block : pydict) (kv : string * pyval) : pydict :=
  if str_in kv.1 SCAN_OVERLAY_SUBTABLE_KEYS
  then aset kv.1 (VDict (merge_dict (sub_mapping block kv.1) (match kv.2 with VDict d => d | _ => [] end))) block
  else aset kv.1 kv.2 block.

Definition build_job_config_dict (output_dir targets db_path calibration : string) (allow_internal_targets : bool)
    (port_scope : string) (custom_ports : option string) (connectors_overlay : pydict)
    (scan_overlay assessment_overlay : pydict) (trusted_targets : list string) : pyres pydict :=
  let tokens := target_list targets in
  let! blocks := scope_blocks port_scope custom_ports in
  let! connectors_block :=
    match connectors_overlay with
    | [] => Ok (snd blocks)
    | _ => let! filtered := validate_connectors_overlay connectors_overlay in
           Ok (Some (merge_dict (default [] (snd blocks)) filtered))
    end in
  let! _ := known_overlay KNOWN_SCAN_OVERLAY_KEYS scan_overlay in
  let! _ := known_overlay KNOWN_ASSESSMENT_OVERLAY_KEYS assessment_overlay in
  let assessment := [("name", VStr "Dashboard Scan"); ("data_classification", VStr "confidential");
                     ("report_owner", VStr "Dashboard"); ("timezone", VStr "UTC")] in
  let security := [("allow_internal_targets", VBool allow_internal_targets)]
                  ++ match trusted_targets with [] => [] | _ => [("trusted_targets", texts trusted_targets)] end in
  Ok ([("assessment", VDict (merge_dict assessment assessment_overlay));
       ("scan", VDict (foldl merge_scan_key (fst blocks) scan_overlay));
       ("targets", VDict [("fqdns", texts (List.filter (fun t => negb (has_slash t)) tokens));
                          ("cidrs", texts (List.filter has_slash tokens));
                          ("include_ips", VList []); ("exclude_ips", VList [])]);
       ("output", VDict [("directory", VStr output_dir); ("db_path", VStr db_path)]);
       ("intelligence", VDict [("intelligence_version", VStr "4.8.0"); ("profile", VStr calibration)]);
       ("security", VDict security)]
      ++ match connectors_block with Some c => [("connectors", VDict c)] | None => [] end).

(** * Credentials *)

Definition env_char (c : Ascii.ascii) : bool := is_upper c || is_digit c || bool_decide (c = "_"%char).

Definition sanitize_host_for_env (host : string) : string :=
  smap (fun c => if env_char c then c else "_"%char) (upper host).

(** Where the value of a credential goes: a user name in the file, or a secret
    in the environment, named in the file unless it is one of the registry's. *)
Inductive credential_slot :=
| SlotIgnored
| SlotUser (section host field : string)
| SlotSecret (section host field env_name : string)
| SlotRegistry (env_name : string)
| SlotUnknownKind.

Definition credential_slot_of (key : string) : credential_slot :=
  if startswith key "broker:" then
    let remainder := str_drop 7 key in
    if endswith remainder ":user" then SlotUser "broker_credentials" (str_drop_end 5 remainder) "user"
    else SlotSecret "broker_credentials" remainder "pass_env"
           ("QUIRK_JOB_BROKER_" +:+ sanitize_host_for_env remainder)
  else if startswith key "snmpv3:" then
    match rsplit_once ":" key with
    | None => SlotUnknownKind
    | Some (prefix_host, kind) =>
        let host := str_drop 7 prefix_host in
        let env suffix := "QUIRK_JOB_SNMPV3_" +:+ sanitize_host_for_env host +:+ suffix in
        if str_eqb kind "auth" then SlotSecret "snmp_v3_credentials" host "auth_key_env" (env "_AUTH")
        else if str_eqb kind "priv" then SlotSecret "snmp_v3_credentials" host "priv_key_env" (env "_PRIV")
        else if str_eqb kind "username" then SlotUser "snmp_v3_credentials" host "username"
        else SlotUnknownKind
    end
  else match registry_by_name key with
       | Some {| cf_env_fallback := Some env_name |} =>
           if truthy_str (Some env_name) then SlotRegistry env_name else SlotIgnored
       | _ => SlotIgnored
       end.

(** [section.setdefault(host, {})[field] = value] *)
Definition set_field (section host field value : string) (fragment : pydict) : pydict :=
  let hosts := sub_mapping fragment section in
  aset section (VDict (aset host (VDict (aset field (VStr value) (sub_mapping hosts host))) hosts)) fragment.

Record credential_env := { ce_env : list (string * string); ce_claims : list (string * string); ce_fragment : pydict }.

Section Credentials.
Context (repr : string -> string).

Definition add_credential (st : credential_env) (kv : string * string) : pyres credential_env :=
  let '(key, value) := kv in
  if negb (truthy_str (Some value)) then Ok st
  else match credential_slot_of key with
       | SlotIgnored => Ok st
       | SlotUnknownKind =>
           Raise (ValueError ("Unrecognized snmpv3 credential kind in " +:+ repr key
                              +:+ " — expected 'auth' or 'priv'"))
       | SlotUser section host field =>
           Ok {| ce_env := ce_env st; ce_claims := ce_claims st;
                 ce_fragment := set_field section host field value (ce_fragment st) |}
       | SlotRegistry env_name =>
           Ok {| ce_env := aset env_name value (ce_env st); ce_claims := ce_claims st; ce_fragment := ce_fragment st |}
       | SlotSecret section host field env_name =>
           match alookup env_name (ce_claims st) with
           | Some prior =>
               if str_eqb prior key then
                 Ok {| ce_env := aset env_name value (ce_env st); ce_claims := ce_claims st;
                       ce_fragment := set_field section host field env_name (ce_fragment st) |}
               else Raise (ValueError ("Credential env-var name collision: " +:+ repr key +:+ " and " +:+ repr prior
                             +:+ " both sanitize to " +:+ repr env_name +:+ " — use distinguishable host names"))
           | None =>
               Ok {| ce_env := aset env_name value (ce_env st); ce_claims := aset env_name key (ce_claims st);
                     ce_fragment := set_field section host field env_name (ce_fragment st) |}
           end
       end.

(** The environment and the fragment of the job file. *)
Definition build_credential_env (credentials : list (string * string)) : pyres (list (string * string) * pydict) :=
  let! st := pfold add_credential {| ce_env := []; ce_claims := []; ce_fragment := [] |} credentials in
  let section name := sub_block name (sub_mapping (ce_fragment st) name) in
  Ok (ce_env st, section "broker_credentials" ++ section "snmp_v3_credentials").

(** The configuration that is written: the broker fragment at the top level, the
    others under the connectors. *)
Definition with_credentials (fragment config : pydict) : pydict :=
  let config := match sub_mapping fragment "broker_credentials" with
                | [] => config
                | broker => aset "broker_credentials" (VDict broker) config
                end in
  match List.filter (fun kv => negb (str_eqb kv.1 "broker_credentials")) fragment with
  | [] => config
  | connectors => aset "connectors" (VDict (merge_dict (sub_mapping config "connectors") connectors)) config
  end.
End Credentials.

Example sample_credentials :
  build_credential_env (fun s => s)
    [("broker:mq.corp", "pw1"); ("broker:mq.corp:user", "svc"); ("snmpv3:10.0.0.1:auth", "a"); ("adcs_password", "p");
     ("broker:other", "")]
  = Ok ([("QUIRK_JOB_BROKER_MQ_CORP", "pw1"); ("QUIRK_JOB_SNMPV3_10_0_0_1_AUTH", "a"); ("QUIRK_ADCS_PASSWORD", "p")],
        [("broker_credentials", VDict [("mq.corp", VDict [("pass_env", VStr "QUIRK_JOB_BROKER_MQ_CORP"); ("user", VStr "svc")])]);
         ("snmp_v3_credentials", VDict [("10.0.0.1", VDict [("auth_key_env", VStr "QUIRK_JOB_SNMPV3_10_0_0_1_AUTH")])])]).
Proof. vm_compute. reflexivity. Qed.

Example colliding_hosts :
  is_ok (build_credential_env (fun s => s) [("broker:a.b", "1"); ("broker:a_b", "2")]) = false.
Proof. vm_compute. reflexivity. Qed.
