(* ===== verification/JobConfigProps.v ===== *)
(** Properties of scan submissions ([JobConfig]): the job file never depends on
    a secret, each secret reaches its own variable, and nothing the client sends
    changes the server's policy. *)
From Stdlib Require Import ZArith QArith Lia Ascii.
From stdpp Require Import base tactics sets strings list pretty.
From S2P Require Import Prelude PyStr PyFloat PyVal PortSpec Findings JobConfig.

Local Open Scope Z_scope.
Local Open Scope quirk_scope.

(** * Secrets stay out of the file *)

Section Secrets.
Context (repr : string -> string).

(** The same submission but for the values of its secrets. *)
Definition same_but_secrets (a b : string * string) : Prop :=
  a.1 = b.1 /\ truthy_str (Some a.2) = truthy_str (Some b.2)
  /\ match credential_slot_of a.1 with SlotUser _ _ _ => a.2 = b.2 | _ => True end.

Definition low_equal (s t : credential_env) : Prop :=
  map fst (ce_env s) = map fst (ce_env t) /\ ce_claims s = ce_claims t /\ ce_fragment s = ce_fragment t.

Lemma add_credential_low s t a b : low_equal s t -> same_but_secrets a b ->
  match add_credential repr s a, add_credential repr t b with
  | Ok s', Ok t' => low_equal s' t'
  | Raise e, Raise e' => e = e'
  | _, _ => False
  end.
Proof.
  destruct a as [key v], b as [key' w]. intros (He & Hc & Hf) (Hk & Ht & Hu). cbn [fst snd] in *. subst key'.
  unfold add_credential. rewrite <- Ht, <- Hc, <- Hf. destruct (truthy_str (Some v)); cbn [negb]; [|done].
  destruct (credential_slot_of key) as [|section host field|section host field env_name|env_name|]; try done.
  - by subst w.
  - destruct (alookup env_name (ce_claims s)) as [prior|]; [destruct (str_eqb prior key)|]; [|done|];
      split_and!; cbn; try done; by apply aset_fst.
  - split_and!; cbn; try done. by apply aset_fst.
Qed.


(** * Each secret in its own variable *)

Definition variable_of (key : string) : option string :=
  match credential_slot_of key with
  | SlotSecret _ _ _ env_name | SlotRegistry env_name => Some env_name
  | _ => None
  end.

Definition is_job_variable (n : string) : bool := startswith n "QUIRK_JOB_".

Lemma secret_is_job_variable key section host field n :
  credential_slot_of key = SlotSecret section host field n -> is_job_variable n = true.
Proof.
  unfold credential_slot_of, is_job_variable. destruct (startswith key "broker:").
  - destruct (endswith _ ":user"); [done|]. by intros [= _ _ _ <-].
  - destruct (startswith key "snmpv3:").
    + destruct (rsplit_once ":" key) as [[pre kind]|]; [|done].
      destruct (str_eqb kind "auth"); [by intros [= _ _ _ <-]|].
      destruct (str_eqb kind "priv"); [by intros [= _ _ _ <-]|]. by destruct (str_eqb kind "username").
    + destruct (registry_by_name key) as [[? ? [e|]]|]; try done. by destruct (truthy_str (Some e)).
Qed.

Definition registry_variables : list (string * string) :=
  omap (fun e => (fun v => (cf_name e, v)) <$> cf_env_fallback e) connector_credentials.

Lemma registry_variable key n : credential_slot_of key = SlotRegistry n -> (key, n) ∈ registry_variables.
Proof.
  unfold credential_slot_of. destruct (startswith key "broker:"); [by destruct (endswith _ ":user")|].
  destruct (startswith key "snmpv3:").
  { destruct (rsplit_once ":" key) as [[pre kind]|]; [|done].
    destruct (str_eqb kind "auth"), (str_eqb kind "priv"), (str_eqb kind "username"); done. }
  destruct (registry_by_name key) as [e|] eqn:E; [|done]. destruct e as [sec name [v|]]; [|done].
  destruct (truthy_str (Some v)); [|done]. intros [= <-].
  unfold registry_by_name in E. apply find_some in E as [Hin Hn]. apply str_eqb_eq in Hn. cbn in Hn. subst name.
  unfold registry_variables. apply list_elem_of_omap. eexists. split; [by apply list_elem_of_In|done].
Qed.

Lemma registry_variables_distinct :
  NoDup (map snd registry_variables) /\ Forall (fun kv => is_job_variable kv.2 = false) registry_variables.
Proof. split; [by apply (bool_decide_unpack _)|]. by apply (bool_decide_unpack _). Qed.

(** What has been added: the claims are the variables of the secrets seen, and
    every variable of a credential seen holds its value. *)
Record delivered (seen : list (string * string)) (st : credential_env) : Prop := {
  dl_claims : forall n key, alookup n (ce_claims st) = Some key ->
    exists section host field, credential_slot_of key = SlotSecret section host field n;
  dl_claimed : forall key v section host field n, (key, v) ∈ seen -> truthy_str (Some v) = true ->
    credential_slot_of key = SlotSecret section host field n -> alookup n (ce_claims st) = Some key;
  dl_env : forall key v n, (key, v) ∈ seen -> truthy_str (Some v) = true -> variable_of key = Some n ->
    alookup n (ce_env st) = Some v
}.

Lemma variables_agree key key' n :
  variable_of key = Some n -> variable_of key' = Some n ->
  (exists section host field, credential_slot_of key = SlotSecret section host field n)
  \/ key = key'.
Proof.
  destruct registry_variables_distinct as [Hnd Hjob]. rewrite Forall_forall in Hjob.
  unfold variable_of. destruct (credential_slot_of key) as [|a b c|sec host field m|m|] eqn:E; try done.
  - intros [= ->] _. left. by exists sec, host, field.
  - intros [= ->]. apply registry_variable in E. destruct (credential_slot_of key') as [|a b c|sec host field m'|m'|] eqn:E'; try done.
    + intros [= ->]. apply secret_is_job_variable in E'. apply Hjob in E. cbn [snd] in E. congruence.
    + intros [= ->]. apply registry_variable in E'. right. clear Hjob. revert Hnd E E'.
      induction registry_variables as [|[k0 v0] l IH]; [by intros _ ?%elem_of_nil|].
      cbn [map snd]. intros [Hv Hnd]%NoDup_cons. rewrite !elem_of_cons.
      intros [E|E] [E'|E']; [congruence|..|auto]; destruct Hv.
      * injection E as _ <-. apply list_elem_of_fmap. by exists (key', n).
      * injection E' as _ <-. apply list_elem_of_fmap. by exists (key, n).
Qed.

Lemma add_delivered seen st st' key v :
  delivered seen st -> add_credential repr st (key, v) = Ok st' -> key ∉ map fst seen ->
  delivered (seen ++ [(key, v)]) st'.
Proof.
  intros [Hc Hcl He] Hadd Hnew.
  assert (Hold : forall k w, (k, w) ∈ seen -> k <> key).
  { intros k w Hin ->. apply Hnew. apply list_elem_of_fmap. by exists (key, w). }
  assert (Hlast : forall k w, (k, w) ∈ seen ++ [(key, v)] -> (k, w) ∈ seen \/ (k = key /\ w = v)).
  { intros k w [H|H]%elem_of_app; [by left|right]. apply list_elem_of_singleton in H. by injection H. }
  unfold add_credential in Hadd. destruct (truthy_str (Some v)) eqn:Ev; cbn [negb] in Hadd.
  2: { injection Hadd as <-. constructor; [done|..].
       - intros k w sc h f m Hin Hw Hs. destruct (Hlast _ _ Hin) as [?|[-> ->]]; [by eauto|congruence].
       - intros k w m Hin Hw Hs. destruct (Hlast _ _ Hin) as [?|[-> ->]]; [by eauto|congruence]. }
  destruct (credential_slot_of key) as [|section host field|section host field n|n|] eqn:Es; try done.
  - injection Hadd as <-. constructor; [done|..].
    + intros k w sc h f m Hin Hw Hs. destruct (Hlast _ _ Hin) as [?|[-> ->]]; [by eauto|congruence].
    + intros k w m Hin Hw Hs. destruct (Hlast _ _ Hin) as [?|[-> ->]]; [by eauto|].
      unfold variable_of in Hs. by rewrite Es in Hs.
  - injection Hadd as <-. constructor; [done|..].
    + intros k w sc h f m Hin Hw Hs. destruct (Hlast _ _ Hin) as [?|[-> ->]]; [by eauto|congruence].
    + intros k w m Hin Hw Hs. destruct (Hlast _ _ Hin) as [?|[-> ->]]; [by eauto|].
      unfold variable_of in Hs. by rewrite Es in Hs.
  - destruct (alookup n (ce_claims st)) as [prior|] eqn:Ec.
    + destruct (str_eqb prior key) eqn:Ep; [|done]. apply str_eqb_eq in Ep as ->. injection Hadd as <-.
      constructor; cbn [ce_claims ce_env]; [done|..].
      * intros k w sc h f m Hin Hw Hs. destruct (Hlast _ _ Hin) as [?|[-> ->]]; [by eauto|]. congruence.
      * intros k w m Hin Hw Hs. rewrite alookup_aset. case_decide as Hm.
        -- subst m. destruct (Hlast _ _ Hin) as [Hi|[-> ->]]; [|done]. exfalso.
           assert (Hv : variable_of key = Some n) by (unfold variable_of; by rewrite Es).
           destruct (variables_agree _ _ _ Hs Hv) as [(sc & h & f & Hk)|Hk]; [|by destruct (Hold _ _ Hi)].
           specialize (Hcl _ _ _ _ _ _ Hi Hw Hk). rewrite Ec in Hcl. injection Hcl as ->. by destruct (Hold _ _ Hi).
        -- destruct (Hlast _ _ Hin) as [?|[-> ->]]; [by eauto|]. unfold variable_of in Hs. rewrite Es in Hs. congruence.
    + injection Hadd as <-. constructor; cbn [ce_claims ce_env].
      * intros m k. rewrite alookup_aset. case_decide as Hm; [|apply Hc]. intros [= <-]. subst m. eauto.
      * intros k w sc h f m Hin Hw Hs. rewrite alookup_aset. destruct (Hlast _ _ Hin) as [Hi|[-> ->]].
        -- case_decide as Hm; [|by eauto]. subst m. specialize (Hcl _ _ _ _ _ _ Hi Hw Hs). congruence.
        -- rewrite Es in Hs. injection Hs as _ _ _ ->. by case_decide.
      * intros k w m Hin Hw Hs. rewrite alookup_aset. destruct (Hlast _ _ Hin) as [Hi|[-> ->]].
        -- case_decide as Hm; [|by eauto]. subst m. exfalso.
           assert (Hv : variable_of key = Some n) by (unfold variable_of; by rewrite Es).
           destruct (variables_agree _ _ _ Hs Hv) as [(sc & h & f & Hk)|Hk]; [|by destruct (Hold _ _ Hi)].
           specialize (Hcl _ _ _ _ _ _ Hi Hw Hk). congruence.
        -- unfold variable_of in Hs. rewrite Es in Hs. injection Hs as ->. by case_decide.
  - injection Hadd as <-. constructor; cbn [ce_claims ce_env]; [done|..].
    + intros k w sc h f m Hin Hw Hs. destruct (Hlast _ _ Hin) as [?|[-> ->]]; [by eauto|congruence].
    + intros k w m Hin Hw Hs. rewrite alookup_aset.
      assert (Hv : variable_of key = Some n) by (unfold variable_of; by rewrite Es).
      destruct (Hlast _ _ Hin) as [Hi|[-> ->]].
      * case_decide as Hm; [|by eauto]. subst m. exfalso.
        destruct (variables_agree _ _ _ Hv Hs) as [(sc & h & f & Hk)|Hk]; [congruence|].
        by destruct (Hold _ _ Hi).
      * rewrite Hv in Hs. injection Hs as ->. by case_decide.
Qed.

(** Each secret reaches exactly its own variable.  When a submission's
    credentials are accepted, every secret that is not blank is the value of the
    environment variable its connector reads, so no other host's or connector's
    secret has replaced it; names that would coincide are refused. *)
Theorem secrets_reach_their_variables (creds env : list (string * string)) (fragment : pydict)
    (key value n : string) (Hkeys : NoDup (map fst creds))
    (Hok : build_credential_env repr creds = Ok (env, fragment))
    (Hin : (key, value) ∈ creds) (Hset : truthy_str (Some value) = true) (Hvar : variable_of key = Some n) :
  alookup n env = Some value.
Proof.
  assert (Hgen : forall rest seen st st', delivered seen st -> NoDup (map fst (seen ++ rest)) ->
    pfold (add_credential repr) st rest = Ok st' -> delivered (seen ++ rest) st').
  { clear. induction rest as [|[k v] rest IH]; intros seen st st' Hd Hnd.
    - intros [= <-]. by rewrite app_nil_r.
    - cbn [pfold]. intros H. apply pbind_ok in H as (st1 & H1 & H2).
      assert (Hsplit : seen ++ (k, v) :: rest = (seen ++ [(k, v)]) ++ rest) by by rewrite <- app_assoc.
      rewrite Hsplit in *. eapply IH; [|exact Hnd|exact H2]. eapply add_delivered; [done..|].
      rewrite <- Hsplit, map_app in Hnd. apply NoDup_app in Hnd as (_ & Hnd & _). intros Hk.
      apply (Hnd _ Hk). left. }
  unfold build_credential_env in Hok. apply pbind_ok in Hok as (st & Hst & [= <- _]).
  assert (H0 : delivered [] {| ce_env := []; ce_claims := []; ce_fragment := [] |})
    by (constructor; [done|by intros ? ? ? ? ? ? ?%elem_of_nil|by intros ? ? ? ?%elem_of_nil]).
  by eapply (dl_env _ _ (Hgen creds [] _ _ H0 Hkeys Hst)).
Qed.
End Secrets.

(** * The server's policy *)

Lemma pfold_each {A} (f : A -> pyres unit) l u :
  pfold (fun _ a => f a) tt l = Ok u -> forall a, a ∈ l -> is_ok (f a) = true.
Proof.
  induction l as [|b l IH]; cbn [pfold]; intros H a Ha; [by apply elem_of_nil in Ha|].
  apply pbind_ok in H as ([] & Hb & Hl). apply elem_of_cons in Ha as [->|Ha]; [by rewrite Hb|by apply IH].
Qed.

Lemma merge_dict_keys a b k : k ∈ map fst (merge_dict a b) -> k ∈ map fst a \/ k ∈ map fst b.
Proof.
  unfold merge_dict. revert a. induction b as [|[k1 v1] b IH]; intros a; cbn [foldl map fst]; [by left|].
  intros H. destruct (IH _ H) as [Ha|Hb]; [|right; by right].
  assert (Hk : forall d, k ∈ map fst (aset k1 v1 d) -> k = k1 \/ k ∈ map fst d).
  { clear. induction d as [|[k2 v2] d IHd]; cbn [aset map fst].
    - rewrite elem_of_cons. naive_solver.
    - destruct (str_eqb k2 k1) eqn:E; cbn [map fst]; rewrite !elem_of_cons; naive_solver. }
  destruct (Hk _ Ha) as [->|?]; [right; left|by left].
Qed.

(** The names of the registry's secrets. *)
Definition is_secret_field (k : string) : bool := bool_decide (is_Some (registry_by_name k)).

Lemma enable_not_secret k : startswith k "enable_" = true -> is_secret_field k = false.
Proof.
  intros H. unfold is_secret_field, registry_by_name. apply bool_decide_eq_false. intros [e He].
  apply find_some in He as [Hin Hn]. apply str_eqb_eq in Hn. subst k.
  cbn in Hin. repeat (destruct Hin as [<-|Hin]; [discriminate H|]). done.
Qed.

Lemma detail_not_secret k t : alookup k CONNECTOR_DETAIL_KEY_TYPES = Some t -> is_secret_field k = false.
Proof.
  intros H. apply alookup_elem in H. apply (list_elem_of_fmap_2 fst) in H. cbn [fst] in H. revert H. generalize k.
  apply Forall_forall. by apply (bool_decide_unpack _).
Qed.

Lemma overlay_keys v v' : validate_connectors_overlay v = Ok v' ->
  v' = v /\ forall k, k ∈ map fst v -> is_secret_field k = false.
Proof.
  unfold validate_connectors_overlay. intros Hok. apply pbind_ok in Hok as ([] & _ & Hok).
  destruct (sorted_strings _) as [|u us]; [|done]. apply pbind_ok in Hok as ([] & Hitems & [= <-]).
  split; [done|]. intros k Hk. apply list_elem_of_fmap in Hk as ([k0 x] & -> & Hin). cbn [fst].
  pose proof (pfold_each _ _ _ Hitems _ Hin) as Hitem. unfold overlay_item in Hitem.
  destruct (startswith k0 "enable_") eqn:Es; [by apply enable_not_secret|].
  destruct (alookup k0 CONNECTOR_DETAIL_KEY_TYPES) as [t|] eqn:Ed; [by eapply detail_not_secret|done].
Qed.



Section Policy.
Context (repr : string -> string).
Context (output_dir targets db_path calibration : string) (allow_internal : bool).
Context (port_scope : string) (custom_ports : option string).
Context (connectors_overlay scan_overlay assessment_overlay : pydict) (trusted_targets : list string).

Notation config := (build_job_config_dict output_dir targets db_path calibration allow_internal port_scope custom_ports
  connectors_overlay scan_overlay assessment_overlay trusted_targets).

Definition server_security : pydict :=
  [("allow_internal_targets", VBool allow_internal)]
  ++ match trusted_targets with [] => [] | _ => [("trusted_targets", texts trusted_targets)] end.

Lemma with_credentials_other fragment c k :
  k <> "broker_credentials" -> k <> "connectors" -> alookup k (with_credentials fragment c) = alookup k c.
Proof.
  intros Hb Hc. unfold with_credentials. set (c' := match sub_mapping fragment _ with [] => c | _ => _ end).
  assert (alookup k c' = alookup k c) as <-
    by (unfold c'; destruct (sub_mapping fragment "broker_credentials"); [done|by apply alookup_aset_ne]).
  destruct (List.filter _ fragment); [done|]. by apply alookup_aset_ne.
Qed.

(** The sections of the job file are what the code writes into them. *)
Lemma config_sections c : config = Ok c ->
  alookup "security" c = Some (VDict server_security)
  /\ alookup "output" c = Some (VDict [("directory", VStr output_dir); ("db_path", VStr db_path)])
  /\ alookup "targets" c = Some (VDict
       [("fqdns", texts (List.filter (fun t => negb (has_slash t)) (target_list targets)));
        ("cidrs", texts (List.filter has_slash (target_list targets)));
        ("include_ips", VList []); ("exclude_ips", VList [])])
  /\ forall k, k ∈ map fst (sub_mapping c "connectors") -> is_secret_field k = false.
Proof.
  unfold build_job_config_dict. intros H. apply pbind_ok in H as ([scan suppressed] & Hscope & H).
  apply pbind_ok in H as (connectors & Hconn & H). apply pbind_ok in H as ([] & _ & H).
  apply pbind_ok in H as ([] & _ & [= <-]). split_and!; [reflexivity..|].
  intros k. unfold sub_mapping, dict_get.
  assert (Hsup : forall d k, suppressed = Some d -> k ∈ map fst d -> is_secret_field k = false).
  { revert Hscope. unfold scope_blocks. destruct (str_eqb port_scope "common"); [by intros [= <- <-]|].
    destruct (str_eqb port_scope "custom"); [|by intros [= <- <-]].
    intros Hs. apply pbind_ok in Hs as (ports & _ & [= _ <-]). intros d k0 [= <-]. revert k0.
    apply Forall_forall. by apply (bool_decide_unpack _). }
  destruct connectors as [d|]; [|by intros ?%elem_of_nil].
  change (alookup "connectors" _) with (Some (VDict d)). cbn iota.
  destruct connectors_overlay as [|kv overlay] eqn:Eo; [injection Hconn as Hd; by apply Hsup|].
  rewrite <- Eo in *. apply pbind_ok in Hconn as (filtered & Hv & [= <-]).
  apply overlay_keys in Hv as [-> Hkeys]. intros Hk. apply merge_dict_keys in Hk as [Hk|Hk].
  - destruct suppressed as [d0|]; [by eapply Hsup|by apply elem_of_nil in Hk].
  - by apply Hkeys.
Qed.

Lemma fragment_keys creds env fragment :
  build_credential_env repr creds = Ok (env, fragment) ->
  forall k, k ∈ map fst fragment -> k = "broker_credentials" \/ k = "snmp_v3_credentials".
Proof.
  unfold build_credential_env. intros H. apply pbind_ok in H as (st & _ & [= _ <-]). intros k.
  rewrite map_app, elem_of_app. unfold sub_block.
  intros [Hk|Hk]; [destruct (sub_mapping _ "broker_credentials")|destruct (sub_mapping _ "snmp_v3_credentials")];
    cbn in Hk; rewrite ?elem_of_cons, elem_of_nil in Hk; naive_solver.
Qed.

(** A submission cannot change the server's policy.  Whatever overlays and
    credentials a client sends, if a job file is written its security section
    holds the server's settings and nothing else, its output section the server's
    paths, its targets exactly the submitted tokens, split by whether they are
    networks; and no secret field is among its connector settings. *)
Theorem submission_keeps_policy (c fragment : pydict) (creds env : list (string * string))
    (Hconfig : config = Ok c) (Hcreds : build_credential_env repr creds = Ok (env, fragment)) :
  let file := with_credentials fragment c in
  alookup "security" file = Some (VDict server_security)
  /\ alookup "output" file = Some (VDict [("directory", VStr output_dir); ("db_path", VStr db_path)])
  /\ alookup "targets" file = Some (VDict
       [("fqdns", texts (List.filter (fun t => negb (has_slash t)) (target_list targets)));
        ("cidrs", texts (List.filter has_slash (target_list targets)));
        ("include_ips", VList []); ("exclude_ips", VList [])])
  /\ forall k, k ∈ map fst (sub_mapping file "connectors") -> is_secret_field k = false.
Proof.
  intros file. destruct (config_sections c Hconfig) as (Hs & Ho & Ht & Hk). unfold file.
  rewrite !with_credentials_other by done. split_and!; [done..|].
  unfold with_credentials. set (c' := match sub_mapping fragment _ with [] => c | _ => _ end).
  assert (Hc' : sub_mapping c' "connectors" = sub_mapping c "connectors").
  { unfold c', sub_mapping at 1, dict_get. destruct (sub_mapping fragment "broker_credentials"); [done|].
    by rewrite alookup_aset_ne. }
  destruct (List.filter _ fragment) as [|kv rest] eqn:Ef; [by rewrite Hc'|]. rewrite <- Ef.
  intros k. unfold sub_mapping at 1, dict_get. rewrite alookup_aset_eq. cbn iota. rewrite Hc'.
  intros [Hin|Hin]%merge_dict_keys; [by apply Hk|].
  apply list_elem_of_fmap in Hin as ([k0 v0] & -> & Hin). apply elem_of_filter_bool in Hin as [Hin _].
  apply (list_elem_of_fmap_2 fst) in Hin. cbn [fst] in Hin |- *.
  destruct (fragment_keys _ _ _ Hcreds _ Hin) as [->| ->]; reflexivity.
Qed.
End Policy.

(** * A concrete submission *)

Definition plain (s : string) : string := s.

Definition sample_creds (pw : string) : list (string * string) :=
  [("broker:mq.corp", pw); ("broker:mq.corp:user", "svc"); ("adcs_password", pw)].


Lemma secrets_reach_their_variables_witness :
  exists env fragment, build_credential_env plain (sample_creds "hunter2") = Ok (env, fragment)
  /\ alookup "QUIRK_ADCS_PASSWORD" env = Some "hunter2".
Proof.
  do 2 eexists. split; [vm_compute; reflexivity|].
  eapply (secrets_reach_their_variables plain (sample_creds "hunter2") _ _ "adcs_password" "hunter2").
  - apply (bool_decide_unpack _). vm_compute. exact I.
  - vm_compute. reflexivity.
  - apply (bool_decide_unpack _). vm_compute. exact I.
  - reflexivity.
  - vm_compute. reflexivity.
Defined.

Lemma submission_keeps_policy_witness :
  exists c, build_job_config_dict "output/jobs/j1" "db.corp, 10.0.0.0/24" "quirk.db" "balanced" false "custom"
              (Some "443") [("enable_email", VBool true)] [("concurrency", VInt 7)] [] ["corp"] = Ok c
  /\ alookup "security" (with_credentials [] c)
     = Some (VDict [("allow_internal_targets", VBool false); ("trusted_targets", VList [VStr "corp"])]).
Proof.
  eexists. split; [vm_compute; reflexivity|].
  refine (proj1 (submission_keeps_policy plain "output/jobs/j1" "db.corp, 10.0.0.0/24" "quirk.db" "balanced" false
    "custom" (Some "443") [("enable_email", VBool true)] [("concurrency", VInt 7)] [] ["corp"] _ [] [] [] _ eq_refl)).
  vm_compute. reflexivity.
Defined.
