(* ===== verification/Qramm.v ===== *)
(** The QRAMM maturity assessment: the scores ([qramm/scoring.py]), the state of
    a dimension ([qramm/assessment_state.py]), the framework weights
    ([qramm/compliance_map.py]) and the routes over the sessions
    ([dashboard/api/routes/qramm.py]).

    The catalogue keeps number, dimension and practice of its questions; their
    texts are left out.  The text of a JSON column is kept as the value
    [json.loads] reads from it, [None] where it raises.  A request reads the clock
    once.  Sessions of the database do not flush by themselves: a query sees the
    stored rows, an object loaded twice is one object. *)
From Stdlib Require Import ZArith QArith Lia.
From stdpp Require Import base tactics strings list sorting.
From S2P Require Import Prelude PyFloat PyVal HwDrift.

Local Open Scope Z_scope.
Local Open Scope quirk_scope.

(** * Catalogue *)

Definition DIMENSIONS : list string := ["CVI"; "SGRM"; "DPE"; "ITR"].

(** Ten questions per practice, in this order. *)
Definition PRACTICE_AREA_TO_DIMENSION : list (string * string) :=
  [("1.1", "CVI"); ("1.2", "CVI"); ("1.3", "CVI"); ("2.1", "SGRM"); ("2.2", "SGRM"); ("2.3", "SGRM");
   ("3.1", "DPE"); ("3.2", "DPE"); ("3.3", "DPE"); ("4.1", "ITR"); ("4.2", "ITR"); ("4.3", "ITR")].

(** Practice and dimension of a question, [None] for [IndexError]. *)
Definition get_question (n : Z) : option (string * string) :=
  if (1 <=? n) && (n <=? 120) then nth_error PRACTICE_AREA_TO_DIMENSION (Z.to_nat ((n - 1) / 10)) else None.

Definition question_dimension (n : Z) : option string := snd <$> get_question n.

(** [_EXPECTED_PRACTICES_PER_DIM] *)
Definition expected_practices (dim : string) : list string :=
  map fst (List.filter (fun p => str_eqb p.2 dim) PRACTICE_AREA_TO_DIMENSION).

(** * Scores *)

Definition compute_practice_score (answers : list Z) : pyres Q :=
  if forallb (fun a => (0 <=? a) && (a <=? 4)) answers then
    match answers with
    | [] => Ok 0%Q
    | _ => Ok (round_nd (int_truediv (foldr Z.add 0 answers) (Z.of_nat (length answers))) 4)
    end
  else Raise (ValueError "Practice score answer out of range [0, 4]").

Definition compute_dimension_score (practice_scores : list Q) : Q :=
  match practice_scores with
  | [] => 0%Q
  | s :: rest => foldl fmin s rest
  end.

Definition OVERALL_MATURITY_LEVELS : list (Q * string) :=
  [(rnd (395 # 100), "Optimizing"); ((7 # 2)%Q, "Advanced"); ((5 # 2)%Q, "Established"); ((3 # 2)%Q, "Developing");
   (1%Q, "Basic"); (0%Q, "Below Basic")].

Definition maturity_label (score : option Q) : string :=
  match score with
  | None => "Indeterminate"
  | Some s => match List.find (fun l => fle l.1 s) OVERALL_MATURITY_LEVELS with
              | Some l => l.2
              | None => "Below Basic"
              end
  end.

Record overall_block := {
  ov_overall : option Q; ov_dimensions : list (string * Q); ov_maturity : string; ov_assessed : list string
}.

Definition weighted_score (multiplier score : Q) : Q := round_nd (fmin 4 (fmul score multiplier)) 4.

Definition mean_score (weighted : list Q) : Q :=
  round_nd (fmin 4 (fdiv (fsum weighted) (of_int (Z.of_nat (length weighted))))) 4.

Definition compute_overall_score (dimension_scores : list (string * Q)) (multiplier : Q) (assessed : list string)
  : overall_block :=
  let weighted := map (fun d => (d, weighted_score multiplier (default 0%Q (alookup d dimension_scores)))) DIMENSIONS in
  let included := List.filter (fun d => str_in d assessed) DIMENSIONS in
  let overall := match included with
                 | [] => None
                 | _ => Some (mean_score (map (fun d => default 0%Q (alookup d weighted)) included))
                 end in
  {| ov_overall := overall; ov_dimensions := weighted; ov_maturity := maturity_label overall; ov_assessed := included |}.

(** * State of a dimension *)

Definition count_answer (counts : list (string * Z)) (qn : Z) : list (string * Z) :=
  match question_dimension qn with
  | Some dim => aset dim (default 0 (alookup dim counts) + 1) counts
  | None => counts
  end.

Definition answered_by_dimension (answered_question_numbers : list Z) : list (string * Z) :=
  foldl count_answer (map (fun d => (d, 0)) DIMENSIONS) (remove_dups answered_question_numbers).

Definition is_dimension_assessed (answered : Z) : bool := 1 <=? answered.

Definition SCANNER_COVERAGE : list (string * Q) := [("CVI", 1%Q); ("SGRM", 0%Q); ("DPE", 0%Q); ("ITR", 0%Q)].
Definition SCANNER_COVERAGE_STATUS : list (string * string) :=
  [("CVI", "covered"); ("SGRM", "pending"); ("DPE", "pending"); ("ITR", "pending")].

Definition row_coverage_status (dimension : string) (answered : Z) (scored_answered : option Z) (score_has_counts : bool)
  : string :=
  if negb (is_dimension_assessed answered) then "pending"
  else if negb score_has_counts then "stale"
  else if (match scored_answered with Some n => negb (n =? answered) | None => false end) then "stale"
  else match alookup dimension SCANNER_COVERAGE_STATUS with
       | Some static => if str_in static ["covered"; "partial"] then static
                        else if str_eqb static "n/a" then "n/a" else "self-assessed"
       | None => "self-assessed"
       end.

(** The count persisted for a dimension; a boolean, a text or a fraction is none. *)
Definition persisted_count (v : option pyval) : option Z :=
  match v with
  | Some (VInt z) => Some z
  | Some (VFloat q) => if Qeq_bool (inject_Z (int_of_float q)) q then Some (int_of_float q) else None
  | _ => None
  end.

Definition score_answered_counts (score_data : option pyval) : option (list (string * Z)) :=
  match score_data with
  | Some (VDict d) =>
      match dict_get d "answered_by_dimension" with
      | Some (VDict raw) => Some (omap (fun dim => pair dim <$> persisted_count (dict_get raw dim)) DIMENSIONS)
      | _ => None
      end
  | _ => None
  end.

Definition overall_state (score_data : option pyval) (stale : bool) : option string :=
  match score_data with
  | None => None
  | Some _ => Some (match score_answered_counts score_data with
                    | None => "recalculate"
                    | Some _ => if stale then "stale" else "current"
                    end)
  end.

Definition is_score_stale (answered : list (string * Z)) (scored_answered : option (list (string * Z)))
    (score_has_counts : bool) : bool :=
  let live d := default 0 (alookup d answered) in
  let live_assessed := List.filter (fun d => is_dimension_assessed (live d)) DIMENSIONS in
  if negb score_has_counts then match live_assessed with [] => false | _ => true end
  else match scored_answered with
       | None => false
       | Some scored => existsb (fun d => negb (bool_decide (alookup d scored = Some (live d)))) live_assessed
       end.

(** * Tables *)

Record QRAMMSession := {
  qs_id : Z; qs_org_name : option string; qs_created_at : Z; qs_updated_at : Z;
  qs_model_version : string; qs_profile_id : option Z; qs_status : string;
  qs_score_json : option (option pyval)
}.

Record QRAMMAnswer := {
  qa_id : Z; qa_session : Z; qa_question : Z; qa_dimension : string; qa_practice : string;
  qa_value : option Z; qa_suggested : option Z; qa_confirmed_at : option Z;
  qa_evidence_source : option string; qa_evidence_note : option string
}.

Record QRAMMProfile := {
  qp_id : Z; qp_session : Z; qp_industry : string; qp_org_size : string; qp_geographic_scope : string;
  qp_data_sensitivity : string; qp_obligations : list string; qp_multiplier : Q; qp_created_at : Z
}.

Record qramm_db := {
  qdb_sessions : list QRAMMSession; qdb_answers : list QRAMMAnswer; qdb_profiles : list QRAMMProfile
}.

Definition set_sessions (f : list QRAMMSession -> list QRAMMSession) (d : qramm_db) : qramm_db :=
  {| qdb_sessions := f (qdb_sessions d); qdb_answers := qdb_answers d; qdb_profiles := qdb_profiles d |}.
Definition set_answers (f : list QRAMMAnswer -> list QRAMMAnswer) (d : qramm_db) : qramm_db :=
  {| qdb_sessions := qdb_sessions d; qdb_answers := f (qdb_answers d); qdb_profiles := qdb_profiles d |}.
Definition set_profiles (f : list QRAMMProfile -> list QRAMMProfile) (d : qramm_db) : qramm_db :=
  {| qdb_sessions := qdb_sessions d; qdb_answers := qdb_answers d; qdb_profiles := f (qdb_profiles d) |}.

(** What a route answers: its result, or the status of an error; an exception
    that the route does not catch is a 500.  An error leaves the tables alone. *)
Inductive http (A : Type) := Answer (a : A) (d : qramm_db) | HttpError (status : Z).
Arguments Answer {A} a d.
Arguments HttpError {A} status.

Definition get_session (session_id : Z) (d : qramm_db) : option QRAMMSession :=
  List.find (fun s => qs_id s =? session_id) (qdb_sessions d).

Definition with_id (id : Z) (r : QRAMMAnswer) : QRAMMAnswer :=
  {| qa_id := id; qa_session := qa_session r; qa_question := qa_question r; qa_dimension := qa_dimension r;
     qa_practice := qa_practice r; qa_value := qa_value r; qa_suggested := qa_suggested r;
     qa_confirmed_at := qa_confirmed_at r; qa_evidence_source := qa_evidence_source r;
     qa_evidence_note := qa_evidence_note r |}.

(** The insertion of the pending rows at a flush. *)
Definition insert_answer (rows : list QRAMMAnswer) (r : QRAMMAnswer) : list QRAMMAnswer :=
  rows ++ [with_id (next_id (map qa_id rows)) r].

Definition touch (now : Z) (s : QRAMMSession) : QRAMMSession :=
  {| qs_id := qs_id s; qs_org_name := qs_org_name s; qs_created_at := qs_created_at s; qs_updated_at := now;
     qs_model_version := qs_model_version s; qs_profile_id := qs_profile_id s; qs_status := qs_status s;
     qs_score_json := qs_score_json s |}.

Definition update_session (session_id : Z) (f : QRAMMSession -> QRAMMSession) : qramm_db -> qramm_db :=
  set_sessions (map (fun s => if qs_id s =? session_id then f s else s)).

(** * Sessions and answers *)

Definition QRAMM_VERSION : string := "1.0".

Definition blank_answer (session_id qn : Z) (practice dimension : string) (value : option Z) (note : option string)
  : QRAMMAnswer :=
  {| qa_id := 0; qa_session := session_id; qa_question := qn; qa_dimension := dimension; qa_practice := practice;
     qa_value := value; qa_suggested := None; qa_confirmed_at := None; qa_evidence_source := None;
     qa_evidence_note := note |}.

(** The blank rows of a new session. *)
Definition cvi_rows (session_id : Z) : list QRAMMAnswer :=
  omap (fun qn => match get_question qn with
                  | Some (practice, dimension) =>
                      if str_eqb dimension "CVI" then Some (blank_answer session_id qn practice dimension None None) else None
                  | None => None
                  end) (seqZ 1 120).

(** [create_session] up to the evidence bridge. *)
Definition create_session (org_name model_version : option string) (now : Z) (d : qramm_db) : http Z :=
  let id := next_id (map qs_id (qdb_sessions d)) in
  let session := {| qs_id := id; qs_org_name := org_name; qs_created_at := now; qs_updated_at := now;
                    qs_model_version := if truthy_str model_version then str_or_empty model_version else QRAMM_VERSION;
                    qs_profile_id := None; qs_status := "draft"; qs_score_json := None |} in
  Answer id (set_answers (fun rows => foldl insert_answer rows (cvi_rows id))
               (set_sessions (fun l => l ++ [session]) d)).

Definition is_answer_of (session_id qn : Z) (r : QRAMMAnswer) : bool :=
  (qa_session r =? session_id) && (qa_question r =? qn).

(** A human wrote [value]; it confirms a suggestion. *)
Definition answered (value now : Z) (r : QRAMMAnswer) : QRAMMAnswer :=
  {| qa_id := qa_id r; qa_session := qa_session r; qa_question := qa_question r; qa_dimension := qa_dimension r;
     qa_practice := qa_practice r; qa_value := Some value; qa_suggested := qa_suggested r;
     qa_confirmed_at := if bool_decide (qa_suggested r = None) then qa_confirmed_at r else Some now;
     qa_evidence_source := qa_evidence_source r; qa_evidence_note := qa_evidence_note r |}.

Definition in_practice (practice dimension : string) (r : QRAMMAnswer) : QRAMMAnswer :=
  {| qa_id := qa_id r; qa_session := qa_session r; qa_question := qa_question r; qa_dimension := dimension;
     qa_practice := practice; qa_value := qa_value r; qa_suggested := qa_suggested r;
     qa_confirmed_at := qa_confirmed_at r; qa_evidence_source := qa_evidence_source r;
     qa_evidence_note := qa_evidence_note r |}.

(** One item of [save_answers] over the stored and the pending rows; [None] is
    an exception ([MultipleResultsFound], or [IndexError] for no question). *)
Definition save_item (session_id now : Z) (st : list QRAMMAnswer * list QRAMMAnswer) (item : Z * Z)
  : option (list QRAMMAnswer * list QRAMMAnswer) :=
  let '(stored, pending) := st in
  let '(qn, value) := item in
  match get_question qn with
  | None => None
  | Some (practice, dimension) =>
      match List.filter (is_answer_of session_id qn) stored with
      | [] => Some (stored, pending ++ [blank_answer session_id qn practice dimension (Some value) None])
      | [_] => Some (map (fun r => if is_answer_of session_id qn r
                                   then in_practice practice dimension (answered value now r) else r) stored, pending)
      | _ => None
      end
  end.

Fixpoint save_items (session_id now : Z) (st : list QRAMMAnswer * list QRAMMAnswer) (items : list (Z * Z))
  : option (list QRAMMAnswer * list QRAMMAnswer) :=
  match items with
  | [] => Some st
  | i :: items' => match save_item session_id now st i with
                   | Some st' => save_items session_id now st' items'
                   | None => None
                   end
  end.

(** [AnswerItem] *)
Definition answer_item_ok (item : Z * Z) : bool :=
  (1 <=? item.1) && (item.1 <=? 120) && (1 <=? item.2) && (item.2 <=? 4).

Definition is_answered (session_id : Z) (r : QRAMMAnswer) : bool :=
  (qa_session r =? session_id) && bool_decide (is_Some (qa_value r)).

Definition answered_rows (session_id : Z) (d : qramm_db) : list QRAMMAnswer :=
  List.filter (is_answered session_id) (qdb_answers d).

(** The number saved and the number of answered rows. *)
Definition save_answers (session_id : Z) (items : list (Z * Z)) (now : Z) (d : qramm_db) : http (Z * Z) :=
  if negb (forallb answer_item_ok items && (length items <=? 120)%nat) then HttpError 422
  else match get_session session_id d with
       | None => HttpError 404
       | Some _ =>
           match save_items session_id now (qdb_answers d, []) items with
           | None => HttpError 500
           | Some (stored, pending) =>
               let d' := update_session session_id (touch now)
                           (set_answers (fun _ => foldl insert_answer stored pending) d) in
               Answer (Z.of_nat (length items), Z.of_nat (length (answered_rows session_id d'))) d'
           end
       end.

Definition with_note (note : option string) (r : QRAMMAnswer) : QRAMMAnswer :=
  {| qa_id := qa_id r; qa_session := qa_session r; qa_question := qa_question r; qa_dimension := qa_dimension r;
     qa_practice := qa_practice r; qa_value := qa_value r; qa_suggested := qa_suggested r;
     qa_confirmed_at := qa_confirmed_at r; qa_evidence_source := qa_evidence_source r;
     qa_evidence_note := if bool_decide (note = None) then qa_evidence_note r else note |}.

(** [value] is [None] where only the note changes. *)
Definition draft_answer (session_id qn : Z) (value : option Z) (note : option string) (now : Z) (d : qramm_db)
  : http unit :=
  if negb (match value with Some v => answer_item_ok (qn, v) | None => answer_item_ok (qn, 1) end) then HttpError 422
  else match get_session session_id d, get_question qn with
       | None, _ => HttpError 404
       | _, None => HttpError 500
       | Some _, Some (practice, dimension) =>
           match List.filter (is_answer_of session_id qn) (qdb_answers d) with
           | [] => Answer tt (set_answers (fun rows =>
                     insert_answer rows (blank_answer session_id qn practice dimension value note)) d)
           | [_] => Answer tt (set_answers (map (fun r => if is_answer_of session_id qn r then
                      with_note note (match value with Some v => answered v now r | None => r end) else r)) d)
           | _ => HttpError 500
           end
       end.

Definition delete_session (session_id : Z) (d : qramm_db) : http unit :=
  match get_session session_id d with
  | None => HttpError 404
  | Some _ =>
      Answer tt
        {| qdb_sessions := List.filter (fun s => negb (qs_id s =? session_id)) (qdb_sessions d);
           qdb_answers := List.filter (fun r => negb (qa_session r =? session_id)) (qdb_answers d);
           qdb_profiles := List.filter (fun p => negb (qp_session p =? session_id)) (qdb_profiles d) |}
  end.

(** * Profile *)

Definition MULTIPLIER_MIN : Q := rnd (8 # 10).
Definition MULTIPLIER_MAX : Q := 3 # 2.
Definition MULTIPLIER_LOW_STEP : Q := rnd (1 # 10).
Definition MULTIPLIER_HIGH_STEP : Q := rnd (2 # 10).

Definition INDUSTRY_BASE : list (string * Q) :=
  [("financial_services", rnd (12 # 10)); ("healthcare", rnd (115 # 100)); ("government", rnd (12 # 10));
   ("technology", rnd (105 # 100)); ("retail", rnd (95 # 100)); ("energy", rnd (11 # 10)); ("other", 1%Q)].
Definition SENSITIVITY_DELTA : list (string * Q) :=
  [("public", fneg MULTIPLIER_LOW_STEP); ("internal", 0%Q); ("confidential", MULTIPLIER_LOW_STEP);
   ("restricted_secret", MULTIPLIER_HIGH_STEP); ("restricted", MULTIPLIER_HIGH_STEP)].

Definition compute_multiplier (industry data_sensitivity : string) : Q :=
  let value := fadd (default 1%Q (alookup industry INDUSTRY_BASE))
                    (default 0%Q (alookup data_sensitivity SENSITIVITY_DELTA)) in
  round_nd (fmax MULTIPLIER_MIN (fmin MULTIPLIER_MAX value)) 2.

Record profile_request := {
  pq_session : Z; pq_industry : string; pq_org_size : string; pq_geographic_scope : string;
  pq_data_sensitivity : string; pq_obligations : list string
}.

Definition profile_row (id created : Z) (p : profile_request) : QRAMMProfile :=
  {| qp_id := id; qp_session := pq_session p; qp_industry := pq_industry p; qp_org_size := pq_org_size p;
     qp_geographic_scope := pq_geographic_scope p; qp_data_sensitivity := pq_data_sensitivity p;
     qp_obligations := pq_obligations p; qp_multiplier := compute_multiplier (pq_industry p) (pq_data_sensitivity p);
     qp_created_at := created |}.

Definition link_profile (id : Z) (s : QRAMMSession) : QRAMMSession :=
  {| qs_id := qs_id s; qs_org_name := qs_org_name s; qs_created_at := qs_created_at s; qs_updated_at := qs_updated_at s;
     qs_model_version := qs_model_version s; qs_profile_id := Some id; qs_status := qs_status s;
     qs_score_json := qs_score_json s |}.

(** The profile's id and its multiplier. *)
Definition create_profile (p : profile_request) (now : Z) (d : qramm_db) : http (Z * Q) :=
  let multiplier := compute_multiplier (pq_industry p) (pq_data_sensitivity p) in
  let ours := fun x => qp_session x =? pq_session p in
  match get_session (pq_session p) d with
  | None => HttpError 404
  | Some _ =>
      match List.filter ours (qdb_profiles d) with
      | [x] => Answer (qp_id x, multiplier)
                 (set_profiles (map (fun y => if ours y then profile_row (qp_id y) (qp_created_at y) p else y)) d)
      | [] => let id := next_id (map qp_id (qdb_profiles d)) in
              Answer (id, multiplier)
                (update_session (pq_session p) (link_profile id) (set_profiles (fun l => l ++ [profile_row id now p]) d))
      | _ => HttpError 500
      end
  end.

(** * Scoring a session *)

(** [practice_buckets.setdefault(practice, []).append(value)] *)
Definition add_to_bucket (buckets : list (string * list Z)) (r : QRAMMAnswer) : list (string * list Z) :=
  aset (qa_practice r) (default [] (alookup (qa_practice r) buckets) ++ [default 0 (qa_value r)]) buckets.

Definition practice_buckets (rows : list QRAMMAnswer) : list (string * list Z) := foldl add_to_bucket [] rows.
Definition practice_to_dim (rows : list QRAMMAnswer) : list (string * string) :=
  foldl (fun m r => aset (qa_practice r) (qa_dimension r) m) [] rows.

Definition score_practice (scores : list (string * Q)) (bucket : string * list Z) : pyres (list (string * Q)) :=
  let! s := compute_practice_score bucket.2 in Ok (scores ++ [(bucket.1, s)]).

(** The scores of the practices of a dimension; an expected one without an
    answer scores zero.  The order of those is that of a Python set. *)
Definition dim_to_practices (rows : list QRAMMAnswer) (practice_scores : list (string * Q)) (dim : string)
  : list (string * Q) :=
  let found := List.filter (fun p => bool_decide (alookup p.1 (practice_to_dim rows) = Some dim)) practice_scores in
  found ++ map (fun pa => (pa, 0%Q)) (List.filter (fun pa => negb (str_in pa (map fst found))) (expected_practices dim)).

Record dim_breakdown := { db_dimension : string; db_score : Q; db_weighted : Q; db_practices : list (string * Q) }.

Record QrammScoreResponse := {
  sr_session : Z; sr_overall : option Q; sr_maturity : string; sr_dimensions : list dim_breakdown;
  sr_multiplier : Q; sr_answered : list (string * Z); sr_assessed : list string
}.

Definition score_rows (session_id : Z) (multiplier : Q) (rows : list QRAMMAnswer) : pyres QrammScoreResponse :=
  let! practice_scores := pfold score_practice [] (practice_buckets rows) in
  let practices := dim_to_practices rows practice_scores in
  let dimension_scores := map (fun dim => (dim, compute_dimension_score (map snd (practices dim)))) DIMENSIONS in
  let answered := answered_by_dimension (map qa_question rows) in
  let assessed := List.filter (fun d => is_dimension_assessed (default 0 (alookup d answered))) DIMENSIONS in
  let block := compute_overall_score dimension_scores multiplier assessed in
  Ok {| sr_session := session_id; sr_overall := ov_overall block; sr_maturity := ov_maturity block;
        sr_dimensions := map (fun dim => {| db_dimension := dim;
                                            db_score := round_nd (default 0%Q (alookup dim dimension_scores)) 4;
                                            db_weighted := default 0%Q (alookup dim (ov_dimensions block));
                                            db_practices := practices dim |}) DIMENSIONS;
        sr_multiplier := multiplier; sr_answered := answered; sr_assessed := ov_assessed block |}.

(** [response.model_dump()] *)
Definition model_dump (r : QrammScoreResponse) : pyval :=
  VDict
    [("session_id", VInt (sr_session r));
     ("overall", match sr_overall r with Some q => VFloat q | None => VNone end);
     ("maturity", VStr (sr_maturity r));
     ("dimensions", VDict (map (fun b => (db_dimension b, VDict
        [("score", VFloat (db_score b)); ("weighted", VFloat (db_weighted b));
         ("practices", VDict (map (fun p => (p.1, VFloat p.2)) (db_practices b)))])) (sr_dimensions r)));
     ("profile_multiplier", VFloat (sr_multiplier r));
     ("answered_by_dimension", VDict (map (fun c => (c.1, VInt c.2)) (sr_answered r)));
     ("assessed_dimensions", VList (map VStr (sr_assessed r)));
     ("dimensions_assessed", VInt (Z.of_nat (length (sr_assessed r))));
     ("dimensions_total", VInt (Z.of_nat (length DIMENSIONS)))].

Definition scored (blob : pyval) (now : Z) (s : QRAMMSession) : QRAMMSession :=
  {| qs_id := qs_id s; qs_org_name := qs_org_name s; qs_created_at := qs_created_at s; qs_updated_at := now;
     qs_model_version := qs_model_version s; qs_profile_id := qs_profile_id s; qs_status := "scored";
     qs_score_json := Some (Some blob) |}.

Definition multiplier_accepted (m : Q) : bool := fle MULTIPLIER_MIN m && fle m MULTIPLIER_MAX.

Definition score_session (session_id : Z) (profile_multiplier : option Q) (now : Z) (d : qramm_db)
  : http QrammScoreResponse :=
  if negb (match profile_multiplier with Some m => multiplier_accepted m | None => true end) then HttpError 400
  else match get_session session_id d with
       | None => HttpError 404
       | Some _ =>
           match answered_rows session_id d with
           | [] => HttpError 422
           | rows => match score_rows session_id (default 1%Q profile_multiplier) rows with
                     | Raise _ => HttpError 500
                     | Ok response =>
                         Answer response (update_session session_id (scored (model_dump response) now) d)
                     end
           end
       end.

(** * Reading a session *)

Definition live_answered (session_id : Z) (d : qramm_db) : list (string * Z) :=
  answered_by_dimension (map qa_question (answered_rows session_id d)).

Record SessionRead := {
  rs_session : QRAMMSession; rs_score : option pyval; rs_answers : Z; rs_stale : bool; rs_state : option string
}.

Definition read_session (session_id : Z) (d : qramm_db) : http SessionRead :=
  match get_session session_id d with
  | None => HttpError 404
  | Some s =>
      match qs_score_json s with
      | Some None => HttpError 422
      | json =>
          let score := match json with Some o => o | None => None end in
          let counts := score_answered_counts score in
          let stale := match score with
                       | Some _ => is_score_stale (live_answered session_id d) counts (bool_decide (is_Some counts))
                       | None => false
                       end in
          Answer {| rs_session := s; rs_score := score; rs_answers := Z.of_nat (length (answered_rows session_id d));
                    rs_stale := stale; rs_state := overall_state score stale |} d
      end
  end.

(** [GET /qramm/sessions]: the latest sessions, with their numbers of answered rows. *)
Definition later_session (a b : QRAMMSession) : bool :=
  (qs_created_at b <? qs_created_at a) || ((qs_created_at a =? qs_created_at b) && (qs_id b <=? qs_id a)).

Definition list_sessions (limit : nat) (d : qramm_db) : http (list (QRAMMSession * Z)) :=
  if negb ((1 <=? limit) && (limit <=? 200))%nat then HttpError 422
  else Answer (map (fun s => (s, Z.of_nat (length (answered_rows (qs_id s) d))))
                 (take limit (py_sorted later_session (qdb_sessions d)))) d.

Record AnswerRead := {
  ar_question : Z; ar_value : option Z; ar_suggested : option Z; ar_confirmed_at : option Z; ar_note : option string
}.

Definition read_answers (session_id : Z) (d : qramm_db) : http (list AnswerRead) :=
  match get_session session_id d with
  | None => HttpError 404
  | Some _ => Answer (map (fun r => {| ar_question := qa_question r; ar_value := qa_value r; ar_suggested := qa_suggested r;
                                       ar_confirmed_at := qa_confirmed_at r; ar_note := qa_evidence_note r |})
                        (List.filter (fun r => qa_session r =? session_id) (qdb_answers d))) d
  end.

(** * Compliance map *)

Definition FRAMEWORK_KEYS : list string :=
  ["NIST_PQC"; "NSM10"; "CNSA2"; "ISO27001"; "ETSI_QS"; "PCI_DSS"; "CC"; "BSI_TR"].

(** Tenths of the weights, in the order of the frameworks. *)
Definition QRAMM_COMPLIANCE_WEIGHTS : list (string * list Z) :=
  [("1.1", [9; 8; 9; 7; 8; 5; 4; 7]); ("1.2", [9; 9; 9; 6; 9; 4; 5; 7]); ("1.3", [7; 7; 7; 6; 7; 5; 5; 6]);
   ("2.1", [4; 5; 5; 9; 4; 6; 6; 7]); ("2.2", [4; 5; 5; 9; 4; 8; 7; 8]); ("2.3", [4; 5; 5; 8; 4; 7; 6; 7]);
   ("3.1", [5; 6; 6; 8; 5; 8; 6; 7]); ("3.2", [7; 7; 7; 7; 7; 9; 7; 8]); ("3.3", [8; 8; 8; 7; 8; 9; 7; 8]);
   ("4.1", [7; 7; 8; 7; 7; 6; 6; 8]); ("4.2", [9; 8; 9; 6; 9; 6; 7; 8]); ("4.3", [7; 7; 7; 6; 7; 7; 9; 9])].

Record ComplianceMapRow := {
  cm_practice : string; cm_dimension : string; cm_framework : string; cm_weight : Q;
  cm_relevance : option Q; cm_scanner_informed : bool; cm_status : string
}.

(** [float(score_data["dimensions"][dimension]["score"])], [None] where it raises. *)
Definition dim_score_of (score_data : option pyval) (dimension : string) : option Q :=
  match score_data with
  | Some (VDict d) =>
      match dict_get d "dimensions" with
      | Some (VDict dims) =>
          match dict_get dims dimension with
          | Some (VDict b) => dict_get b "score" ≫= to_float
          | _ => None
          end
      | _ => None
      end
  | _ => None
  end.

Definition relevance (status : string) (ceiling static_weight dim_score : Q) : option Q :=
  if str_in status ["pending"; "n/a"; "stale"] then None
  else if str_eqb status "self-assessed" then Some (fmul static_weight (fdiv dim_score 4))
  else let capped := fmin (fmul static_weight (fdiv dim_score 4)) (fmul ceiling static_weight) in
       Some (if str_eqb status "partial" then fmul capped (1 # 2) else capped).

Definition row_status (score_data : option pyval) (answered : list (string * Z)) (dimension : string) : string :=
  let counts := score_answered_counts score_data in
  let scored_answered := counts ≫= alookup dimension in
  let has_counts := match score_data with Some _ => bool_decide (is_Some scored_answered) | None => true end in
  row_coverage_status dimension (default 0 (alookup dimension answered)) scored_answered has_counts.

Definition practice_rows (score_data : option pyval) (answered : list (string * Z)) (entry : string * list Z)
  : list ComplianceMapRow :=
  let dimension := default EmptyString (alookup entry.1 PRACTICE_AREA_TO_DIMENSION) in
  let ceiling := default 0%Q (alookup dimension SCANNER_COVERAGE) in
  let status := row_status score_data answered dimension in
  map (fun fw => let static_weight := rnd (fw.2 # 10) in
         {| cm_practice := entry.1; cm_dimension := dimension; cm_framework := fw.1; cm_weight := static_weight;
            cm_relevance := dim_score_of score_data dimension ≫= relevance status ceiling static_weight;
            cm_scanner_informed := flt 0 ceiling; cm_status := status |}) (zip FRAMEWORK_KEYS entry.2).

Definition build_compliance_rows (score_data : option pyval) (answered : list (string * Z)) : list ComplianceMapRow :=
  List.flat_map (practice_rows score_data answered) QRAMM_COMPLIANCE_WEIGHTS.

Definition get_compliance_map (session_id : Z) (d : qramm_db) : http (list ComplianceMapRow) :=
  match get_session session_id d with
  | None => HttpError 404
  | Some s => Answer (build_compliance_rows (match qs_score_json s with Some o => o | None => None end)
                        (live_answered session_id d)) d
  end.
