(* ===== verification/QrammProps.v ===== *)
(** Properties of the QRAMM assessment ([Qramm]). *)
From Stdlib Require Import ZArith QArith Lia Lqa.
From stdpp Require Import base tactics relations strings list sorting.
From S2P Require Import Prelude PyFloat PyVal HwDrift Qramm.

Local Open Scope Z_scope.
Local Open Scope quirk_scope.

(** * Rounded arithmetic *)

Lemma round_nd_mono n x y : 0 <= n -> (x <= y)%Q -> (round_nd x n <= round_nd y n)%Q.
Proof.
  intros Hn Hxy. unfold round_nd. assert (Hp : (0 < inject_Z (10 ^ n))%Q).
  { change 0%Q with (inject_Z 0). rewrite <- Zlt_Qlt. lia. }
  apply rnd_mono. apply Qmult_le_compat_r; [| apply Qlt_le_weak, Qinv_lt_0_compat, Hp].
  rewrite <- Zle_Qle. apply rne_mono. apply Qmult_le_compat_r; [exact Hxy | lra].
Qed.

Lemma round4_range x : (0 <= x <= 4)%Q -> (0 <= round_nd x 4 <= 4)%Q.
Proof.
  intros [H0 H4]. apply (round_nd_mono 4) in H0; [| lia]. apply (round_nd_mono 4) in H4; [| lia].
  assert (E0 : (round_nd 0 4 == 0)%Q) by (vm_compute; reflexivity).
  assert (E4 : (round_nd 4 4 == 4)%Q) by (vm_compute; reflexivity). lra.
Qed.

Lemma weighted_range m s : (0 <= m)%Q -> (0 <= s)%Q -> (0 <= weighted_score m s <= 4)%Q.
Proof.
  intros Hm Hs. apply round4_range. pose proof (fmin_spec 4 (fmul s m)) as (H1 & _ & H3).
  split; [| exact H1]. destruct H3 as [-> | ->]; [lra | apply fmul_nonneg; assumption].
Qed.

Lemma weighted_mono m s t : (0 <= m)%Q -> (s <= t)%Q -> (weighted_score m s <= weighted_score m t)%Q.
Proof.
  intros Hm Hst. apply round_nd_mono; [lia |]. apply fmin_mono; [lra |]. apply fmul_mono_l; assumption.
Qed.

Lemma of_int_length_pos {A} (l : list A) : (length l <= 4)%nat -> l <> [] -> (0 < of_int (Z.of_nat (length l)))%Q.
Proof. destruct l as [| a [| b [| c [| e [|]]]]]; simpl; intros; try lia; [congruence | vm_compute; reflexivity ..]. Qed.

Lemma fold_fadd_nonneg xs a : (0 <= a)%Q -> Forall (fun x => 0 <= x)%Q xs -> (0 <= List.fold_left fadd xs a)%Q.
Proof.
  intros Ha Hx. revert a Ha. induction Hx as [| x xs Hx _ IH]; intros a Ha; simpl; [exact Ha |].
  apply IH. rewrite <- rnd_0. apply rnd_mono. lra.
Qed.

Lemma mean_range ws : (length ws <= 4)%nat -> ws <> [] -> Forall (fun x => 0 <= x)%Q ws -> (0 <= mean_score ws <= 4)%Q.
Proof.
  intros Hl Hne Hw. apply round4_range. pose proof (fmin_spec 4 (fdiv (fsum ws) (of_int (Z.of_nat (length ws))))) as (H1 & _ & H3).
  split; [| exact H1]. destruct H3 as [-> | ->]; [lra |]. rewrite <- rnd_0. apply rnd_mono.
  apply Qle_shift_div_l; [apply of_int_length_pos; assumption |].
  pose proof (fold_fadd_nonneg ws 0 ltac:(lra) Hw). unfold fsum. lra.
Qed.

Lemma mean_mono ws vs : (length ws <= 4)%nat -> ws <> [] -> Forall2 Qle ws vs -> (mean_score ws <= mean_score vs)%Q.
Proof.
  intros Hl Hne H. unfold mean_score. rewrite <- (Forall2_length _ _ _ H).
  apply round_nd_mono; [lia |]. apply fmin_mono; [lra |].
  apply fdiv_mono_l; [apply of_int_length_pos; assumption | apply fsum_mono, H].
Qed.

(** * Practices and dimensions *)

Lemma foldr_add_range l : Forall (fun a => 0 <= a <= 4) l -> 0 <= foldr Z.add 0 l <= 4 * Z.of_nat (length l).
Proof. induction 1; simpl; lia. Qed.

Lemma foldr_add_mono l k : Forall2 Z.le l k -> foldr Z.add 0 l <= foldr Z.add 0 k.
Proof. induction 1; simpl; lia. Qed.

Lemma ratio_range t n : 0 < n -> 0 <= t <= 4 * n -> (0 <= int_truediv t n <= 4)%Q.
Proof.
  intros Hn Ht. unfold int_truediv. assert (Hq : (0 < inject_Z n)%Q) by (change 0%Q with (inject_Z 0); rewrite <- Zlt_Qlt; lia).
  assert (E0 : (rnd 0 == 0)%Q) by (vm_compute; reflexivity). assert (E4 : (rnd 4 == 4)%Q) by (vm_compute; reflexivity).
  split.
  - rewrite <- E0. apply rnd_mono, Qle_shift_div_l; [exact Hq |]. rewrite Qmult_0_l. change 0%Q with (inject_Z 0). rewrite <- Zle_Qle. lia.
  - rewrite <- E4. apply rnd_mono, Qle_shift_div_r; [exact Hq |]. change 4%Q with (inject_Z 4). rewrite <- inject_Z_mult, <- Zle_Qle. lia.
Qed.

Lemma compute_practice_score_spec answers s :
  compute_practice_score answers = Ok s ->
  Forall (fun a => 0 <= a <= 4) answers
  /\ s = match answers with [] => 0%Q | _ => round_nd (int_truediv (foldr Z.add 0 answers) (Z.of_nat (length answers))) 4 end.
Proof.
  unfold compute_practice_score. intros H. destruct (forallb _ answers) eqn:Hin; [| discriminate].
  rewrite forallb_forall in Hin. split.
  - apply Forall_forall. intros x Hx. apply list_elem_of_In in Hx. specialize (Hin x Hx). bool_to_prop. lia.
  - destruct answers; injection H as <-; reflexivity.
Qed.

Lemma compute_practice_score_range answers s : compute_practice_score answers = Ok s -> (0 <= s <= 4)%Q.
Proof.
  intros H. destruct (compute_practice_score_spec _ _ H) as [Hr ->]. destruct answers as [| a l]; [lra |].
  apply foldr_add_range in Hr. apply round4_range, ratio_range; [simpl; lia | exact Hr].
Qed.

(** The weakest link: a lower bound that is reached. *)
Lemma fold_fmin_spec l a : (foldl fmin a l <= a)%Q /\ Forall (fun x => foldl fmin a l <= x)%Q l /\ In (foldl fmin a l) (a :: l).
Proof.
  revert a. induction l as [| x l IH]; intros a; simpl.
  - split; [lra |]. split; [constructor | left; reflexivity].
  - destruct (IH (fmin a x)) as (H1 & H2 & H3). pose proof (fmin_spec a x) as (Ha & Hx & Hor). split; [lra |]. split.
    + constructor; [lra | exact H2].
    + destruct H3 as [H3 | H3]; [| right; right; exact H3].
      destruct Hor as [E | E]; rewrite E in H3; [left; congruence | right; left; congruence].
Qed.

Lemma dimension_score_spec l : l <> [] ->
  Forall (fun x => compute_dimension_score l <= x)%Q l /\ In (compute_dimension_score l) l.
Proof.
  destruct l as [| a l]; [congruence |]. intros _. destruct (fold_fmin_spec l a) as (H1 & H2 & H3).
  split; [constructor; assumption | exact H3].
Qed.

(** * The score of a list of answer rows *)

Lemma pfold_score_practice buckets acc scores :
  pfold score_practice acc buckets = Ok scores ->
  exists new, scores = acc ++ new
  /\ Forall2 (fun b s => b.1 = s.1 /\ compute_practice_score b.2 = Ok s.2) buckets new.
Proof.
  revert acc. induction buckets as [|[pa l] buckets IH]; intros acc; cbn [pfold].
  - intros [= <-]. exists []. by rewrite app_nil_r.
  - unfold score_practice at 1. simpl. destruct (compute_practice_score l) as [s|] eqn:Hs; [simpl|done].
    intros H. destruct (IH _ H) as (new & -> & Hnew). exists ((pa, s) :: new). rewrite <- app_assoc. by split; [|constructor].
Qed.

(** The rows of a practice, and their values. *)
Definition values_of (pa : string) (rows : list QRAMMAnswer) : list Z :=
  map (fun r => default 0 (qa_value r)) (List.filter (fun r => str_eqb (qa_practice r) pa) rows).

Definition mean_of (l : list Z) : Q :=
  match l with [] => 0%Q | _ => round_nd (int_truediv (foldr Z.add 0 l) (Z.of_nat (length l))) 4 end.

(** The reference score of a practice: the rounded mean of its answers, zero
    where there is none. *)
Definition practice_mean (pa : string) (rows : list QRAMMAnswer) : Q :=
  mean_of (values_of pa rows).

Lemma values_of_snoc pa rows r :
  values_of pa (rows ++ [r]) = values_of pa rows ++ (if str_eqb (qa_practice r) pa then [default 0 (qa_value r)] else []).
Proof. unfold values_of. rewrite List.filter_app, map_app. simpl. by destruct (str_eqb (qa_practice r) pa). Qed.

Lemma practice_buckets_snoc rows r : practice_buckets (rows ++ [r]) = add_to_bucket (practice_buckets rows) r.
Proof. unfold practice_buckets. by rewrite foldl_app. Qed.

Lemma practice_buckets_spec rows pa :
  alookup pa (practice_buckets rows) = match values_of pa rows with [] => None | l => Some l end.
Proof.
  induction rows as [|r rows IH] using rev_ind; [done|]. rewrite practice_buckets_snoc, values_of_snoc.
  unfold add_to_bucket. rewrite alookup_aset. case_decide as Hd.
  - subst pa. rewrite str_eqb_refl, IH. destruct (values_of _ rows) as [|v l]; [done|]. by simpl.
  - assert (str_eqb (qa_practice r) pa = false) as -> by (by apply str_eqb_neq). by rewrite app_nil_r.
Qed.

Lemma practice_buckets_nodup rows : NoDup ((practice_buckets rows).*1).
Proof.
  induction rows as [|r rows IH] using rev_ind; [constructor|]. rewrite practice_buckets_snoc. by apply aset_keys_nodup.
Qed.

Lemma practice_to_dim_snoc rows r :
  practice_to_dim (rows ++ [r]) = aset (qa_practice r) (qa_dimension r) (practice_to_dim rows).
Proof. unfold practice_to_dim. by rewrite foldl_app. Qed.

(** What the catalogue says of a row. *)
Definition catalogued (r : QRAMMAnswer) : Prop :=
  get_question (qa_question r) = Some (qa_practice r, qa_dimension r).

Lemma get_question_practice n pa dim :
  get_question n = Some (pa, dim) -> alookup pa PRACTICE_AREA_TO_DIMENSION = Some dim.
Proof.
  unfold get_question. destruct (_ && _); [|done]. intros H%nth_error_In.
  apply alookup_nodup; [|by apply list_elem_of_In]. by apply (bool_decide_unpack (NoDup _)).
Qed.

Lemma practice_to_dim_spec rows pa dim :
  Forall catalogued rows -> alookup pa (practice_to_dim rows) = Some dim ->
  alookup pa PRACTICE_AREA_TO_DIMENSION = Some dim.
Proof.
  induction rows as [|r rows IH] using rev_ind; [done|]. intros [Hr Hcat]%Forall_app. rewrite practice_to_dim_snoc, alookup_aset.
  case_decide as Hd; [|auto]. intros [= <-]. subst pa. apply Forall_inv in Hcat. by apply get_question_practice in Hcat.
Qed.

Lemma practice_to_dim_some rows pa : values_of pa rows <> [] -> is_Some (alookup pa (practice_to_dim rows)).
Proof.
  induction rows as [|r rows IH] using rev_ind; [done|]. rewrite values_of_snoc, practice_to_dim_snoc, alookup_aset.
  case_decide as Hd; [by eauto|]. assert (str_eqb (qa_practice r) pa = false) as -> by (by apply str_eqb_neq).
  by rewrite app_nil_r.
Qed.

Lemma scored_practices rows scores pa s :
  pfold score_practice [] (practice_buckets rows) = Ok scores ->
  (pa, s) ∈ scores <-> values_of pa rows <> [] /\ s = practice_mean pa rows.
Proof.
  intros (new & -> & H)%pfold_score_practice. simpl. pose proof (practice_buckets_nodup rows) as Hnd.
  assert (Hval : forall k l, (k, l) ∈ practice_buckets rows -> l = values_of k rows /\ l <> []).
  { intros k l Hin. apply alookup_nodup in Hin; [|done]. rewrite practice_buckets_spec in Hin.
    destruct (values_of k rows); [done|]. by injection Hin as <-. }
  assert (Hmean : forall k l t, (k, l) ∈ practice_buckets rows -> compute_practice_score l = Ok t -> t = practice_mean k rows).
  { intros k l t Hin [_ ->]%compute_practice_score_spec. apply Hval in Hin as [-> Hne]. done. }
  split.
  - intros Hin. apply list_elem_of_lookup in Hin as [i Hi].
    destruct (Forall2_lookup_r _ _ _ _ _ H Hi) as ([k l] & Hb & Hk & Hl). simpl in Hk, Hl. subst k.
    apply list_elem_of_lookup_2 in Hb. split; [|by eapply Hmean]. by apply Hval in Hb as [-> ?].
  - intros [Hne ->]. assert (Hin : (pa, values_of pa rows) ∈ practice_buckets rows).
    { apply alookup_elem. rewrite practice_buckets_spec. by destruct (values_of pa rows). }
    apply list_elem_of_lookup in Hin as [i Hi]. destruct (Forall2_lookup_l _ _ _ _ _ H Hi) as ([k t] & Hs & Hk & Ht).
    simpl in Hk, Ht. subst k. apply list_elem_of_lookup_2 in Hi. rewrite <- (Hmean _ _ _ Hi Ht). by eapply list_elem_of_lookup_2.
Qed.

Lemma expected_practices_spec dim pa :
  pa ∈ expected_practices dim <-> alookup pa PRACTICE_AREA_TO_DIMENSION = Some dim.
Proof.
  unfold expected_practices. rewrite list_elem_of_fmap. split.
  - intros ([k d] & -> & [Hin Hd]%elem_of_filter_bool). apply str_eqb_eq in Hd as <-. apply alookup_nodup; [|done].
    by apply (bool_decide_unpack (NoDup _)).
  - intros H%alookup_elem. exists (pa, dim). split; [done|]. apply elem_of_filter_bool. by rewrite str_eqb_refl.
Qed.

Lemma dim_to_practices_spec rows scores dim pa s :
  Forall catalogued rows -> pfold score_practice [] (practice_buckets rows) = Ok scores ->
  (pa, s) ∈ dim_to_practices rows scores dim <-> pa ∈ expected_practices dim /\ s = practice_mean pa rows.
Proof.
  intros Hcat Hs. unfold dim_to_practices.
  set (found := List.filter _ scores).
  assert (Hfound : forall k t, (k, t) ∈ found <-> values_of k rows <> [] /\ k ∈ expected_practices dim /\ t = practice_mean k rows).
  { intros k t. unfold found. rewrite elem_of_filter_bool, (scored_practices _ _ _ _ Hs), bool_decide_eq_true. simpl.
    rewrite expected_practices_spec. split.
    - intros [[Hne ->] Hd]. split_and!; [done| |done]. by eapply practice_to_dim_spec.
    - intros (Hne & Hd & ->). split; [done|]. destruct (practice_to_dim_some _ _ Hne) as [d Hd2].
      rewrite Hd2. apply practice_to_dim_spec in Hd2; [congruence|done]. }
  rewrite elem_of_app, Hfound. split.
  - intros [(_ & H)|Hin]; [done|]. apply list_elem_of_fmap in Hin as (k & [= -> ->] & [Hk Hno]%elem_of_filter_bool).
    split; [done|]. unfold practice_mean. destruct (values_of k rows) eqn:Hv; [done|].
    assert (Hin : (k, practice_mean k rows) ∈ found) by (apply Hfound; rewrite Hv; done).
    apply negb_true_iff, not_true_iff_false in Hno. destruct Hno. apply str_in_elem, list_elem_of_fmap. by exists (k, practice_mean k rows).
  - intros [Hk ->]. destruct (decide (values_of pa rows = [])) as [E|Hne]; [right|by left].
    apply list_elem_of_fmap. exists pa. unfold practice_mean at 1. rewrite E. split; [done|].
    apply elem_of_filter_bool. split; [done|]. apply negb_true_iff, not_true_iff_false. intros Hin.
    apply str_in_elem, list_elem_of_fmap in Hin as ([k t] & -> & Hin). apply Hfound in Hin as [Hne _]. done.
Qed.

(** * Counting answers *)

Lemma alookup_count_answer counts q dim :
  alookup dim (count_answer counts q) =
  if bool_decide (question_dimension q = Some dim) then Some (default 0 (alookup dim counts) + 1) else alookup dim counts.
Proof.
  unfold count_answer. destruct (question_dimension q) as [d|] eqn:Hq; [|by rewrite bool_decide_false].
  rewrite alookup_aset. case_decide as Hd.
  - subst d. by rewrite bool_decide_true.
  - rewrite bool_decide_false; [done|]. by intros [= ->].
Qed.

Lemma count_answers counts qs dim n :
  alookup dim counts = Some n ->
  alookup dim (foldl count_answer counts qs) =
  Some (n + Z.of_nat (length (List.filter (fun q => bool_decide (question_dimension q = Some dim)) qs))).
Proof.
  revert counts n. induction qs as [|q qs IH]; intros counts n Hn; simpl; [by rewrite Z.add_0_r|].
  destruct (bool_decide (question_dimension q = Some dim)) eqn:Hq.
  - rewrite (IH _ (n + 1)).
    + f_equal. simpl. lia.
    + by rewrite alookup_count_answer, Hq, Hn.
  - apply IH. by rewrite alookup_count_answer, Hq.
Qed.

(** The count of a dimension: its distinct answered questions. *)
Lemma answered_by_dimension_spec qs dim :
  dim ∈ DIMENSIONS ->
  alookup dim (answered_by_dimension qs) =
  Some (Z.of_nat (length (List.filter (fun q => bool_decide (question_dimension q = Some dim)) (remove_dups qs)))).
Proof.
  intros Hd. unfold answered_by_dimension. rewrite (count_answers _ _ _ 0); [f_equal; lia|].
  unfold DIMENSIONS in Hd |- *. repeat (apply elem_of_cons in Hd as [->|Hd]; [done|]). by apply elem_of_nil in Hd.
Qed.

Lemma answered_keys qs : (answered_by_dimension qs).*1 = DIMENSIONS.
Proof.
  unfold answered_by_dimension. assert (H : forall c, c.*1 = DIMENSIONS -> (foldl count_answer c (remove_dups qs)).*1 = DIMENSIONS).
  { induction (remove_dups qs) as [|q l IH]; intros c Hc; simpl; [done|]. apply IH. unfold count_answer.
    destruct (question_dimension q) as [d|] eqn:Hq; [|done]. rewrite aset_keys; [done|]. apply alookup_in. rewrite Hc.
    unfold question_dimension in Hq. apply fmap_Some in Hq as ([pa d'] & Hq & ->). apply get_question_practice, alookup_elem in Hq.
    simpl. unfold PRACTICE_AREA_TO_DIMENSION in Hq. unfold DIMENSIONS.
    repeat (apply elem_of_cons in Hq as [[= -> ->]|Hq]; [by apply (bool_decide_unpack (_ ∈ _))|]). by apply elem_of_nil in Hq. }
  by apply H.
Qed.

(** A dimension is assessed when one of its questions is answered. *)
Lemma assessed_iff qs dim :
  dim ∈ DIMENSIONS ->
  is_dimension_assessed (default 0 (alookup dim (answered_by_dimension qs))) = true
  <-> exists q, q ∈ qs /\ question_dimension q = Some dim.
Proof.
  intros Hd. rewrite answered_by_dimension_spec by done. simpl. unfold is_dimension_assessed. rewrite Z.leb_le. split.
  - intros H. destruct (List.filter _ _) as [|q l] eqn:E; [simpl in H; lia|]. exists q.
    assert (Hq : q ∈ List.filter (fun q => bool_decide (question_dimension q = Some dim)) (remove_dups qs)) by (rewrite E; left).
    apply elem_of_filter_bool in Hq as [Hq Hb]. rewrite elem_of_remove_dups in Hq. by apply bool_decide_eq_true in Hb.
  - intros (q & Hq & Hb). assert (Hin : q ∈ List.filter (fun q => bool_decide (question_dimension q = Some dim)) (remove_dups qs)).
    { apply elem_of_filter_bool. rewrite bool_decide_eq_true. split; [by apply elem_of_remove_dups|done]. }
    destruct (List.filter _ _); [by apply elem_of_nil in Hin|]. simpl. lia.
Qed.

(** * The score of a session *)

Definition best_of (dim : string) (rows : list QRAMMAnswer) (s : Q) : Prop :=
  (forall pa, pa ∈ expected_practices dim -> (s <= practice_mean pa rows)%Q)
  /\ exists pa, pa ∈ expected_practices dim /\ s = practice_mean pa rows.

Lemma expected_nonempty dim : dim ∈ DIMENSIONS -> exists pa, pa ∈ expected_practices dim.
Proof.
  unfold DIMENSIONS. intros Hd.
  repeat (apply elem_of_cons in Hd as [->|Hd]; [eexists; vm_compute; left|]). by apply elem_of_nil in Hd.
Qed.

Lemma dimension_score_best rows scores dim :
  Forall catalogued rows -> pfold score_practice [] (practice_buckets rows) = Ok scores -> dim ∈ DIMENSIONS ->
  best_of dim rows (compute_dimension_score (map snd (dim_to_practices rows scores dim))).
Proof.
  intros Hcat Hs Hd. set (l := map snd (dim_to_practices rows scores dim)).
  assert (Hl : forall s, s ∈ l <-> exists pa, pa ∈ expected_practices dim /\ s = practice_mean pa rows).
  { intros s. unfold l. rewrite list_elem_of_fmap. split.
    - intros ([pa t] & -> & Hin). apply (dim_to_practices_spec _ _ _ _ _ Hcat Hs) in Hin. eauto.
    - intros (pa & Hpa & ->). exists (pa, practice_mean pa rows). split; [done|].
      by apply (dim_to_practices_spec _ _ _ _ _ Hcat Hs). }
  destruct (dimension_score_spec l) as [Hmin Hin].
  - destruct (expected_nonempty dim Hd) as [pa Hpa]. intros E.
    assert (practice_mean pa rows ∈ l) by (apply Hl; eauto). rewrite E in *. by apply elem_of_nil in H.
  - split; [|apply Hl, list_elem_of_In, Hin]. intros pa Hpa. rewrite Forall_forall in Hmin. apply Hmin, Hl. eauto.
Qed.

Lemma practice_mean_range pa rows :
  Forall (fun r => 0 <= default 0 (qa_value r) <= 4) rows -> (0 <= practice_mean pa rows <= 4)%Q.
Proof.
  intros H. unfold practice_mean, mean_of. destruct (values_of pa rows) as [|v l] eqn:E; [lra|].
  assert (Hr : Forall (fun a => 0 <= a <= 4) (v :: l)).
  { rewrite <- E. unfold values_of. apply Forall_map, Forall_forall. intros r [Hr _]%elem_of_filter_bool.
    rewrite Forall_forall in H. by apply H. }
  apply foldr_add_range in Hr. apply round4_range, ratio_range; [simpl; lia|exact Hr].
Qed.

(** What [score_rows] computes, dimension by dimension. *)
Definition breakdown (m : Q) (rows : list QRAMMAnswer) (scores : list (string * Q)) (dim : string) : dim_breakdown :=
  let s := compute_dimension_score (map snd (dim_to_practices rows scores dim)) in
  {| db_dimension := dim; db_score := round_nd s 4; db_weighted := weighted_score m s;
     db_practices := dim_to_practices rows scores dim |}.

Definition assessed_dims (rows : list QRAMMAnswer) : list string :=
  List.filter (fun d => is_dimension_assessed (default 0 (alookup d (answered_by_dimension (map qa_question rows))))) DIMENSIONS.

Lemma filter_assessed (p : string -> bool) l :
  List.filter (fun d => str_in d (List.filter p l)) l = List.filter p l.
Proof.
  apply List.filter_ext_in. intros a Ha. apply list_elem_of_In in Ha.
  destruct (p a) eqn:E.
  - apply str_in_elem, elem_of_filter_bool. done.
  - apply not_true_iff_false. intros H%str_in_elem%elem_of_filter_bool. destruct H as [_ H]. congruence.
Qed.

Lemma alookup_table {V} (f : string -> V) l d : d ∈ l -> alookup d (map (fun x => (x, f x)) l) = Some (f d).
Proof.
  induction l as [|x l IH]; intros Hd; simpl; [by apply elem_of_nil in Hd|]. destruct (str_eqb x d) eqn:E.
  - by apply str_eqb_eq in E as ->.
  - apply IH. apply elem_of_cons in Hd as [->|Hd]; [by rewrite str_eqb_refl in E|done].
Qed.

Lemma Ok_inj {A} (x y : A) : Ok x = Ok y -> x = y.
Proof. by injection 1. Qed.

Lemma score_rows_spec sid m rows r :
  score_rows sid m rows = Ok r ->
  exists scores, pfold score_practice [] (practice_buckets rows) = Ok scores
  /\ sr_multiplier r = m /\ sr_answered r = answered_by_dimension (map qa_question rows)
  /\ sr_assessed r = assessed_dims rows
  /\ sr_dimensions r = map (breakdown m rows scores) DIMENSIONS
  /\ sr_overall r = match assessed_dims rows with
                    | [] => None
                    | l => Some (mean_score (map (fun d => db_weighted (breakdown m rows scores d)) l))
                    end.
Proof.
  unfold score_rows. destruct (pfold score_practice [] (practice_buckets rows)) as [scores|] eqn:Hs; [|done].
  intros H. apply Ok_inj in H. subst r. exists scores. split; [done|]. cbn [sr_multiplier sr_answered sr_assessed sr_dimensions sr_overall].
  unfold compute_overall_score. cbn [ov_overall ov_dimensions ov_assessed].
  rewrite !filter_assessed. fold (assessed_dims rows). do 3 (split; [reflexivity|]).
  set (f := fun dim => compute_dimension_score (map snd (dim_to_practices rows scores dim))).
  set (scored_dims := map (fun dim => (dim, compute_dimension_score (map snd (dim_to_practices rows scores dim)))) DIMENSIONS).
  pose proof (alookup_table f DIMENSIONS : forall d, d ∈ DIMENSIONS -> alookup d scored_dims = Some (f d)) as Hf.
  set (weighted := map (fun d => (d, weighted_score m (default 0%Q (alookup d scored_dims)))) DIMENSIONS).
  pose proof (alookup_table (fun d => weighted_score m (default 0%Q (alookup d scored_dims))) DIMENSIONS
    : forall d, d ∈ DIMENSIONS -> alookup d weighted = Some (weighted_score m (default 0%Q (alookup d scored_dims)))) as Hg.
  assert (Hw : forall d, d ∈ DIMENSIONS -> default 0%Q (alookup d weighted) = db_weighted (breakdown m rows scores d)).
  { intros d Hd. by rewrite (Hg d Hd), (Hf d Hd). }
  split.
  - apply List.map_ext_in. intros d Hd%list_elem_of_In. rewrite (Hw d Hd), (Hf d Hd). reflexivity.
  - assert (Hsub : forall d, d ∈ assessed_dims rows -> d ∈ DIMENSIONS) by (intros d Hd; by apply elem_of_filter_bool in Hd as [Hd _]).
    assert (E : map (fun d => default 0%Q (alookup d weighted)) (assessed_dims rows)
                = map (fun d => db_weighted (breakdown m rows scores d)) (assessed_dims rows)).
    { apply List.map_ext_in. intros d Hd. by apply Hw, Hsub, list_elem_of_In. }
    rewrite E. by destruct (assessed_dims rows).
Qed.

(** * Invariant of the tables *)

Record qramm_wf (d : qramm_db) : Prop := {
  w_catalogued : forall r, r ∈ qdb_answers d -> catalogued r;
  w_values : forall r v, r ∈ qdb_answers d -> qa_value r = Some v -> 1 <= v <= 4;
  w_unique : NoDup (map (fun r => (qa_session r, qa_question r)) (qdb_answers d));
  w_answer_ids : NoDup (map qa_id (qdb_answers d));
  w_session_ids : NoDup (map qs_id (qdb_sessions d));
  w_answers_owned : forall r, r ∈ qdb_answers d -> qa_session r ∈ map qs_id (qdb_sessions d);
  w_profiles_owned : forall p, p ∈ qdb_profiles d -> qp_session p ∈ map qs_id (qdb_sessions d);
  w_one_profile : NoDup (map qp_session (qdb_profiles d));
  w_multipliers : forall p, p ∈ qdb_profiles d -> multiplier_accepted (qp_multiplier p) = true
}.

Lemma answered_rows_elem sid d r :
  r ∈ answered_rows sid d <-> r ∈ qdb_answers d /\ qa_session r = sid /\ is_Some (qa_value r).
Proof.
  unfold answered_rows, is_answered. rewrite elem_of_filter_bool, andb_true_iff, Z.eqb_eq, bool_decide_eq_true. tauto.
Qed.

Lemma answered_rows_wf sid d : qramm_wf d ->
  Forall catalogued (answered_rows sid d) /\ Forall (fun r => 0 <= default 0 (qa_value r) <= 4) (answered_rows sid d).
Proof.
  intros Hwf. split; apply Forall_forall; intros r (Hin & _ & v & Hv)%answered_rows_elem.
  - by apply (w_catalogued d Hwf).
  - rewrite Hv. simpl. pose proof (w_values d Hwf r v Hin Hv). lia.
Qed.

Lemma score_session_inv sid pm now d r d' :
  score_session sid pm now d = Answer r d' ->
  multiplier_accepted (default 1%Q pm) = true /\ answered_rows sid d <> []
  /\ score_rows sid (default 1%Q pm) (answered_rows sid d) = Ok r
  /\ d' = update_session sid (scored (model_dump r) now) d.
Proof.
  unfold score_session. destruct (negb _) eqn:Hm; [discriminate|]. apply negb_false_iff in Hm.
  destruct (get_session sid d); [|discriminate].
  destruct (answered_rows sid d) as [|a l]; [discriminate|].
  destruct (score_rows _ _ _) as [r0|] eqn:Hr; [|discriminate].
  intros H. assert (r0 = r /\ update_session sid (scored (model_dump r0) now) d = d') as [-> Hd] by (by inversion H).
  split; [|split; [discriminate|split; [reflexivity|symmetry; exact Hd]]].
  destruct pm; [exact Hm|by vm_compute].
Qed.

Lemma multiplier_nonneg m : multiplier_accepted m = true -> (0 <= m)%Q.
Proof.
  unfold multiplier_accepted. rewrite andb_true_iff, !fle_iff. intros [H _].
  assert (0 <= MULTIPLIER_MIN)%Q by (vm_compute; discriminate). lra.
Qed.

Lemma in_dimension r : catalogued r -> question_dimension (qa_question r) = Some (qa_dimension r).
Proof. unfold catalogued, question_dimension. by intros ->. Qed.

Lemma dimension_known r : catalogued r -> qa_dimension r ∈ DIMENSIONS.
Proof.
  intros H. apply get_question_practice, alookup_elem in H. unfold PRACTICE_AREA_TO_DIMENSION in H. unfold DIMENSIONS.
  repeat (apply elem_of_cons in H as [[= Hp Hd]|H]; [rewrite Hd; by apply (bool_decide_unpack (_ ∈ _))|]). by apply elem_of_nil in H.
Qed.

Lemma assessed_dims_iff rows dim : Forall catalogued rows ->
  dim ∈ assessed_dims rows <-> exists row, row ∈ rows /\ qa_dimension row = dim.
Proof.
  intros Hcat. rewrite Forall_forall in Hcat. unfold assessed_dims. rewrite elem_of_filter_bool. split.
  - intros [Hd (q & Hq & Hqd)%assessed_iff]; [|done]. apply list_elem_of_fmap in Hq as (row & -> & Hrow).
    exists row. split; [done|]. rewrite (in_dimension row) in Hqd by auto. by injection Hqd.
  - intros (row & Hrow & <-). pose proof (dimension_known row (Hcat _ Hrow)) as Hd. split; [done|].
    apply assessed_iff; [done|]. exists (qa_question row). split; [|by apply in_dimension, Hcat].
    apply list_elem_of_fmap. eauto.
Qed.

Lemma assessed_some rows : Forall catalogued rows -> rows <> [] -> exists a l, assessed_dims rows = a :: l.
Proof.
  intros Hcat Hne. destruct rows as [|row rest] eqn:E; [done|]. rewrite <- E in *.
  assert (H : qa_dimension row ∈ assessed_dims rows).
  { apply assessed_dims_iff; [done|]. exists row. split; [rewrite E; left|done]. }
  destruct (assessed_dims rows); [by apply elem_of_nil in H|eauto].
Qed.

Lemma overall_some d d' sid now pm r :
  qramm_wf d -> score_session sid pm now d = Answer r d' -> exists o, sr_overall r = Some o.
Proof.
  intros Hwf (_ & Hne & Hr & _)%score_session_inv. destruct (answered_rows_wf sid d Hwf) as [Hcat _].
  destruct (score_rows_spec _ _ _ _ Hr) as (sc & _ & _ & _ & _ & _ & ->).
  destruct (assessed_some _ Hcat Hne) as (a & l & ->). eauto.
Qed.

(** Answers of the scale never make the scoring raise. *)
Lemma bucket_values rows pa l : (pa, l) ∈ practice_buckets rows -> l = values_of pa rows.
Proof.
  intros H. apply alookup_nodup in H; [|apply practice_buckets_nodup]. rewrite practice_buckets_spec in H.
  destruct (values_of pa rows); [done|]. by injection H as <-.
Qed.

Lemma score_practices_total buckets acc :
  Forall (fun b : string * list Z => Forall (fun a => 0 <= a <= 4) b.2) buckets -> is_ok (pfold score_practice acc buckets) = true.
Proof.
  intros H. revert acc. induction H as [|[pa l] buckets Hl _ IH]; intros acc; cbn [pfold]; [done|].
  unfold score_practice at 1. simpl in *. unfold compute_practice_score.
  assert (forallb (fun a => (0 <=? a) && (a <=? 4)) l = true) as ->.
  { apply forallb_forall. intros a Ha%list_elem_of_In. rewrite Forall_forall in Hl. apply Hl in Ha. bool_to_prop. lia. }
  destruct l; apply IH.
Qed.

Lemma score_rows_total sid m rows :
  Forall (fun r => 0 <= default 0 (qa_value r) <= 4) rows -> forall e, score_rows sid m rows <> Raise e.
Proof.
  intros H e. unfold score_rows. assert (Hok : is_ok (pfold score_practice [] (practice_buckets rows)) = true).
  { apply score_practices_total, Forall_forall. intros [pa l] ->%bucket_values. simpl. unfold values_of.
    apply Forall_map, Forall_forall. intros r [Hr _]%elem_of_filter_bool. rewrite Forall_forall in H. by apply H. }
  by destruct (pfold _ _ _).
Qed.

(** * Properties *)

(** C8: The score of a session is the weakest link.  When a session is scored,
    each dimension scores the least of the rounded means of its practices, a
    practice without an answer counting zero; a dimension counts as assessed
    exactly when it has an answer; and the overall is the mean of the weighted
    scores of the assessed dimensions alone, between 0 and 4. *)
Theorem qramm_score_exact (d d' : qramm_db) (sid now : Z) (pm : option Q) (r : QrammScoreResponse)
  (Hwf : qramm_wf d) (Hok : score_session sid pm now d = Answer r d') :
  let rows := answered_rows sid d in
  map db_dimension (sr_dimensions r) = DIMENSIONS
  /\ (forall b, b ∈ sr_dimensions r -> exists s,
        best_of (db_dimension b) rows s /\ db_score b = round_nd s 4
        /\ db_weighted b = weighted_score (sr_multiplier r) s /\ (0 <= db_weighted b <= 4)%Q)
  /\ (forall dim, dim ∈ sr_assessed r <-> exists row, row ∈ rows /\ qa_dimension row = dim)
  /\ exists o, sr_overall r = Some o /\ (0 <= o <= 4)%Q
       /\ o = mean_score (map db_weighted (List.filter (fun b => str_in (db_dimension b) (sr_assessed r)) (sr_dimensions r))).
Proof.
  intros rows. apply score_session_inv in Hok as (Hm & Hne & Hr & _). fold rows in Hne, Hr.
  destruct (answered_rows_wf sid d Hwf) as [Hcat Hval]. fold rows in Hcat, Hval.
  destruct (score_rows_spec _ _ _ _ Hr) as (scores & Hs & -> & _ & -> & -> & ->).
  assert (Hb : forall dim, dim ∈ DIMENSIONS -> exists s, best_of dim rows s
    /\ s = compute_dimension_score (map snd (dim_to_practices rows scores dim)) /\ (0 <= s)%Q).
  { intros dim Hd. pose proof (dimension_score_best rows scores dim Hcat Hs Hd) as Hbest. eexists. split; [exact Hbest|].
    split; [done|]. destruct Hbest as [_ (pa & _ & ->)]. by apply practice_mean_range. }
  assert (Hw : forall dim, dim ∈ DIMENSIONS -> (0 <= db_weighted (breakdown (default 1%Q pm) rows scores dim) <= 4)%Q).
  { intros dim Hd. destruct (Hb dim Hd) as (s & _ & E & H0). unfold breakdown. cbn [db_weighted]. rewrite <- E.
    apply weighted_range; [by apply multiplier_nonneg|done]. }
  split; [by rewrite map_map, map_id|]. split; [|split].
  - intros b (dim & -> & Hd)%list_elem_of_fmap. destruct (Hb dim Hd) as (s & Hbest & E & _). exists s.
    split; [exact Hbest|]. unfold breakdown at 1 2. cbn [db_score db_weighted]. rewrite E. split; [done|]. split; [done|]. by apply Hw.
  - intros dim. by apply assessed_dims_iff.
  - destruct (assessed_some rows Hcat Hne) as (a & l & E). rewrite E. eexists. split; [done|].
    assert (Hsub : forall x, x ∈ a :: l -> x ∈ DIMENSIONS) by (rewrite <- E; intros x Hx; by apply elem_of_filter_bool in Hx as [Hx _]).
    split.
    + apply mean_range; [|done|].
      * rewrite length_map, <- E. unfold assessed_dims. etrans; [apply List.filter_length_le|done].
      * apply Forall_map, Forall_forall. intros x Hx. by apply Hw, Hsub.
    + f_equal. rewrite <- E. unfold assessed_dims. rewrite filter_map_swap, map_map. cbn [db_dimension breakdown].
      by rewrite filter_assessed.
Qed.

(** * The invariant is preserved *)

Definition key (r : QRAMMAnswer) : Z * Z := (qa_session r, qa_question r).
Definition answer_ok (r : QRAMMAnswer) : Prop := catalogued r /\ forall v, qa_value r = Some v -> 1 <= v <= 4.

Lemma is_answer_of_key sid q r : is_answer_of sid q r = true <-> key r = (sid, q).
Proof. unfold is_answer_of, key. rewrite andb_true_iff, !Z.eqb_eq. by split; [intros [-> ->]|intros [= -> ->]]. Qed.

Lemma no_answer_of sid q rows : List.filter (is_answer_of sid q) rows = [] <-> (sid, q) ∉ map key rows.
Proof.
  split.
  - intros H Hin. apply list_elem_of_fmap in Hin as (r & Hk & Hr).
    assert (Hin : r ∈ List.filter (is_answer_of sid q) rows) by (apply elem_of_filter_bool; by rewrite is_answer_of_key).
    rewrite H in Hin. by apply elem_of_nil in Hin.
  - intros Hno. destruct (List.filter _ rows) as [|r l] eqn:E; [done|]. destruct Hno.
    assert (Hin : r ∈ List.filter (is_answer_of sid q) rows) by (rewrite E; left).
    apply elem_of_filter_bool in Hin as [Hr Hk%is_answer_of_key]. apply list_elem_of_fmap. eauto.
Qed.

(** Keys are unique: a question has at most one row. *)
Lemma one_answer_of sid q rows r1 r2 l :
  NoDup (map key rows) -> List.filter (is_answer_of sid q) rows <> r1 :: r2 :: l.
Proof.
  intros Hnd E. assert (H : NoDup (map key (List.filter (is_answer_of sid q) rows))).
  { clear E. induction rows as [|r rows IH]; simpl; [constructor|]. apply NoDup_cons in Hnd as [Hr Hnd].
    destruct (is_answer_of sid q r); [|by apply IH]. simpl. constructor; [|by apply IH].
    intros (x & Hx & Hin)%list_elem_of_fmap. apply Hr, list_elem_of_fmap. exists x. split; [done|].
    by apply elem_of_filter_bool in Hin as [? _]. }
  assert (Hk : forall r, r ∈ List.filter (is_answer_of sid q) rows -> key r = (sid, q)).
  { intros r [_ Hr]%elem_of_filter_bool. by apply is_answer_of_key. }
  rewrite E in H, Hk. simpl in H. apply NoDup_cons in H as [H _]. apply H. rewrite (Hk r1), (Hk r2); [left|right; left|left].
Qed.

Lemma filter_key_elem sid q rows r l : List.filter (is_answer_of sid q) rows = r :: l -> r ∈ rows /\ key r = (sid, q).
Proof.
  intros E. assert (Hin : r ∈ List.filter (is_answer_of sid q) rows) by (rewrite E; left).
  apply elem_of_filter_bool in Hin as [Hr Hk]. split; [done|by apply is_answer_of_key].
Qed.

(** Inserting pending rows. *)
Lemma insert_answers_spec new rows :
  NoDup (map qa_id rows) ->
  let all := foldl insert_answer rows new in
  map key all = map key rows ++ map key new /\ NoDup (map qa_id all)
  /\ forall r, r ∈ all -> r ∈ rows \/ exists n id, n ∈ new /\ r = with_id id n.
Proof.
  revert rows. induction new as [|n new IH]; intros rows Hids; simpl; [rewrite app_nil_r; auto|].
  destruct (IH (insert_answer rows n)) as (Hk & Hnd & Hel).
  - unfold insert_answer. rewrite map_app. apply NoDup_app. split_and!; [done| |apply NoDup_singleton].
    intros x Hx ->%list_elem_of_singleton. by apply next_id_fresh in Hx.
  - split_and!; [|done|].
    + rewrite Hk. unfold insert_answer at 1. by rewrite map_app, <- app_assoc.
    + intros r Hr. destruct (Hel r Hr) as [Hin|(m & id & Hm & ->)].
      * unfold insert_answer in Hin. apply elem_of_app in Hin as [Hin| ->%list_elem_of_singleton]; [by left|].
        right. exists n. eexists. split; [left|done].
      * right. exists m, id. split; [by right|done].
Qed.

Lemma with_id_ok id r : answer_ok r -> answer_ok (with_id id r).
Proof. done. Qed.

(** What a batch of items does to the stored rows, and what it leaves pending. *)
Record batch_ok (sid : Z) (done : list Z) (stored0 : list QRAMMAnswer) (st : list QRAMMAnswer * list QRAMMAnswer) : Prop := {
  b_ids : map qa_id st.1 = map qa_id stored0;
  b_keys : map key st.1 = map key stored0;
  b_ok : Forall answer_ok (st.1 ++ st.2);
  b_unique : NoDup (map key (st.1 ++ st.2));
  b_pending : forall r, r ∈ st.2 -> qa_session r = sid /\ qa_question r ∈ done
}.

Lemma map_if_same {A} (f : QRAMMAnswer -> A) p (g : QRAMMAnswer -> QRAMMAnswer) rows :
  (forall r, p r = true -> f (g r) = f r) -> map f (map (fun r => if p r then g r else r) rows) = map f rows.
Proof. intros H. rewrite map_map. apply map_ext. intros r. destruct (p r) eqn:E; auto. Qed.

Lemma save_item_ok sid now seen stored0 st item st' :
  batch_ok sid seen stored0 st -> answer_item_ok item = true -> item.1 ∉ seen ->
  save_item sid now st item = Some st' -> batch_ok sid (item.1 :: seen) stored0 st'.
Proof.
  destruct st as [stored pending], item as [qn v]. intros [Hids Hkeys Hok Huniq Hpend] Hit Hnew. simpl in *.
  destruct (get_question qn) as [[pa dim]|] eqn:Hq; [|done].
  assert (Hv : 1 <= v <= 4) by (unfold answer_item_ok in Hit; simpl in Hit; bool_to_prop; lia).
  destruct (List.filter (is_answer_of sid qn) stored) as [|r [|]] eqn:Hf; [| |done]; intros [= <-].
  - apply no_answer_of in Hf. split; simpl; [done|done| | |].
    + rewrite app_assoc. apply Forall_app. split; [done|]. constructor; [|done]. split; [done|]. simpl. by intros w [= <-].
    + rewrite app_assoc, map_app. apply NoDup_app. split_and!; [done| |apply NoDup_singleton].
      intros k Hk ->%list_elem_of_singleton. rewrite map_app in Hk. apply elem_of_app in Hk as [Hk|Hk]; [done|].
      apply list_elem_of_fmap in Hk as (r & Hk & Hr). apply Hpend in Hr as [_ Hr]. injection Hk as _ ->. done.
    + intros r [Hr| ->%list_elem_of_singleton]%elem_of_app; [|split; [done|left]].
      destruct (Hpend r Hr). split; [done|by right].
  - split; simpl.
    + by rewrite map_if_same.
    + by rewrite map_if_same.
    + apply Forall_app in Hok as [Hs Hp]. apply Forall_app. split; [|done]. apply Forall_map.
      eapply Forall_impl; [exact Hs|]. intros x [Hc Hx]. destruct (is_answer_of sid qn x) eqn:E; [|done].
      apply is_answer_of_key in E. injection E as _ E. split; [by unfold catalogued; simpl; rewrite E|].
      simpl. by intros w [= <-].
    + rewrite map_app, map_if_same, <- map_app; done.
    + intros x Hx. destruct (Hpend x Hx). split; [done|by right].
Qed.

Lemma save_items_ok sid now items seen stored0 st st' :
  batch_ok sid seen stored0 st -> forallb answer_item_ok items = true ->
  NoDup (map fst items) -> (forall q, q ∈ map fst items -> q ∉ seen) ->
  save_items sid now st items = Some st' -> exists seen', batch_ok sid seen' stored0 st'.
Proof.
  revert seen st. induction items as [|i items IH]; intros seen st Hst Hit Hnd Hfresh; simpl; [intros [= <-]; eauto|].
  simpl in Hit. apply andb_true_iff in Hit as [Hi Hit]. simpl in Hnd. apply NoDup_cons in Hnd as [Hi2 Hnd].
  destruct (save_item sid now st i) as [st1|] eqn:E; [|done].
  apply (IH (i.1 :: seen)); [|done|done|].
  - eapply save_item_ok; eauto. apply Hfresh. left.
  - intros q Hq [->|Hs]%elem_of_cons; [done|]. by apply (Hfresh q); [right|].
Qed.

Lemma update_session_wf sid f d : (forall s, qs_id (f s) = qs_id s) -> qramm_wf d -> qramm_wf (update_session sid f d).
Proof.
  intros Hf [? ? ? ? Hs ? ? ? ?].
  assert (E : map qs_id (qdb_sessions (update_session sid f d)) = map qs_id (qdb_sessions d)).
  { simpl. rewrite map_map. apply map_ext. intros s. by destruct (qs_id s =? sid). }
  split; rewrite ?E; auto.
Qed.

(** Tables whose answers are replaced by rows that are in order. *)
Lemma set_answers_wf g d :
  qramm_wf d -> Forall answer_ok (g (qdb_answers d)) -> NoDup (map key (g (qdb_answers d))) ->
  NoDup (map qa_id (g (qdb_answers d))) ->
  (forall r, r ∈ g (qdb_answers d) -> qa_session r ∈ map qs_id (qdb_sessions d)) -> qramm_wf (set_answers g d).
Proof.
  intros [] Hok Hk Hi Ho. rewrite Forall_forall in Hok. split; simpl; auto.
  - intros r Hr. by apply Hok.
  - intros r v Hr. by apply (Hok r Hr).
Qed.

Lemma wf_answers_ok d : qramm_wf d -> Forall answer_ok (qdb_answers d).
Proof. intros []. apply Forall_forall. intros r Hr. split; [auto|]. intros v Hv. eauto. Qed.

(** Rows of one session inserted behind the others. *)
Lemma insert_rows_wf sid new d :
  qramm_wf d -> Forall answer_ok new -> NoDup (map key (qdb_answers d ++ new)) ->
  (forall r, r ∈ new -> qa_session r = sid) -> sid ∈ map qs_id (qdb_sessions d) ->
  qramm_wf (set_answers (fun rows => foldl insert_answer rows new) d).
Proof.
  intros Hwf Hok Huniq Hsid Hin. pose proof (wf_answers_ok d Hwf) as Hold.
  destruct (insert_answers_spec new (qdb_answers d) (w_answer_ids d Hwf)) as (Hk & Hi & Hel).
  apply set_answers_wf; [done| | |done|].
  - rewrite Forall_forall in Hok, Hold. apply Forall_forall. intros r [Hr|(n & id & Hn & ->)]%Hel; [auto|].
    by apply with_id_ok, Hok.
  - by rewrite Hk, <- map_app.
  - intros r [Hr|(n & id & Hn & ->)]%Hel; [by apply (w_answers_owned d Hwf)|]. simpl. by rewrite (Hsid n Hn).
Qed.

Lemma get_session_in sid d s : get_session sid d = Some s -> sid ∈ map qs_id (qdb_sessions d).
Proof. intros [Hin E%Z.eqb_eq]%List.find_some. apply list_elem_of_fmap. exists s. split; [done|by apply list_elem_of_In]. Qed.

Lemma cvi_rows_spec sid r : r ∈ cvi_rows sid -> answer_ok r /\ qa_session r = sid.
Proof.
  unfold cvi_rows. intros (q & _ & H)%list_elem_of_omap. destruct (get_question q) as [[pa dim]|] eqn:Hq; [|done].
  destruct (str_eqb dim "CVI"); [|done]. injection H as <-. done.
Qed.

Lemma cvi_rows_questions sid : map qa_question (cvi_rows sid) = seqZ 1 30.
Proof. vm_compute. reflexivity. Qed.

Lemma cvi_rows_unique sid : NoDup (map key (cvi_rows sid)).
Proof.
  assert (H : NoDup (map qa_question (cvi_rows sid))) by (rewrite cvi_rows_questions; apply NoDup_seqZ).
  eapply (NoDup_fmap_1 snd). by rewrite <- list_fmap_compose.
Qed.

Lemma Answer_inj {A} (a b : A) d e : Answer a d = Answer b e -> a = b /\ d = e.
Proof. by injection 1. Qed.

Lemma create_session_wf org ver now d id d' : qramm_wf d -> create_session org ver now d = Answer id d' -> qramm_wf d'.
Proof.
  unfold create_session. set (id0 := next_id _). set (s := {| qs_id := id0 |}). intros Hwf H.
  apply Answer_inj in H as [_ <-]. clear id. rename id0 into id. assert (Hwf1 : qramm_wf (set_sessions (fun l => l ++ [s]) d)).
  { destruct Hwf. split; simpl; try done; try (intros; rewrite map_app; apply elem_of_app; left; by auto).
    rewrite map_app. apply NoDup_app. split_and!; [done| |apply NoDup_singleton].
    intros x Hx ->%list_elem_of_singleton. by apply next_id_fresh in Hx. }
  refine (insert_rows_wf id (cvi_rows id) _ Hwf1 _ _ _ _); simpl.
  - apply Forall_forall. intros r Hr. by apply (cvi_rows_spec id).
  - rewrite map_app. apply NoDup_app. split_and!; [apply (w_unique d Hwf)| |apply cvi_rows_unique].
    intros k (r & -> & Hr)%list_elem_of_fmap (c & Hk & Hc)%list_elem_of_fmap. injection Hk as Hs _.
    apply cvi_rows_spec in Hc as [_ Hc]. rewrite Hc in Hs.
    apply (next_id_fresh (map qs_id (qdb_sessions d))). fold id. rewrite <- Hs. by apply (w_answers_owned d Hwf).
  - intros r Hr. by apply cvi_rows_spec.
  - rewrite map_app. apply elem_of_app. right. left.
Qed.

Lemma save_answers_wf sid items now d res d' :
  qramm_wf d -> NoDup (map fst items) -> save_answers sid items now d = Answer res d' -> qramm_wf d'.
Proof.
  intros Hwf Hnd. unfold save_answers. destruct (forallb answer_item_ok items) eqn:Hit; [|done].
  destruct (length items <=? 120)%nat; [|done]. cbn [negb andb].
  destruct (get_session sid d) as [s|] eqn:Hs; [|done].
  destruct (save_items sid now (qdb_answers d, []) items) as [[stored pending]|] eqn:E; [|done].
  intros H. apply Answer_inj in H as [_ <-]. apply update_session_wf; [done|].
  destruct (save_items_ok sid now items [] (qdb_answers d) (qdb_answers d, []) (stored, pending)) as (seen & [Hids Hkeys Hok Huniq Hpend]); auto.
  { pose proof (w_unique d Hwf). split; simpl; rewrite ?app_nil_r; auto using wf_answers_ok. intros r Hr. by apply elem_of_nil in Hr. }
  { intros q _ Hq. by apply elem_of_nil in Hq. }
  simpl in *. assert (Hwf1 : qramm_wf (set_answers (fun _ => stored) d)).
  { apply Forall_app in Hok as [Hok _]. rewrite map_app in Huniq. apply NoDup_app in Huniq as [Hu _].
    apply set_answers_wf; simpl; [done|done|done|by rewrite Hids; apply w_answer_ids|].
    intros r Hr. assert (Hk : key r ∈ map key (qdb_answers d)) by (rewrite <- Hkeys; by apply list_elem_of_fmap_2).
    apply list_elem_of_fmap in Hk as (r0 & Hk & Hr0). injection Hk as -> _. by apply (w_answers_owned d Hwf). }
  apply (insert_rows_wf sid pending _ Hwf1); simpl.
  - by apply Forall_app in Hok as [_ Hok].
  - done.
  - intros r Hr. by apply Hpend.
  - by apply get_session_in in Hs.
Qed.

Lemma draft_answer_wf sid qn v note now d res d' :
  qramm_wf d -> draft_answer sid qn v note now d = Answer res d' -> qramm_wf d'.
Proof.
  intros Hwf. unfold draft_answer. destruct (negb _) eqn:Hit; [done|]. apply negb_false_iff in Hit.
  destruct (get_session sid d) as [s|] eqn:Hs; [|done]. destruct (get_question qn) as [[pa dim]|] eqn:Hq; [|done].
  assert (Hv : forall w, v = Some w -> 1 <= w <= 4).
  { intros w ->. unfold answer_item_ok in Hit. simpl in Hit. bool_to_prop. lia. }
  destruct (List.filter _ _) as [|r [|]] eqn:Hf; [| |done]; intros H; apply Answer_inj in H as [_ <-].
  - apply no_answer_of in Hf.
    refine (insert_rows_wf sid [blank_answer sid qn pa dim v note] d Hwf _ _ _ (get_session_in _ _ _ Hs)).
    + constructor; [|done]. split; [done|]. simpl. auto.
    + rewrite map_app. apply NoDup_app. split_and!; [apply (w_unique d Hwf)| |apply NoDup_singleton].
      intros k Hk ->%list_elem_of_singleton. done.
    + by intros r ->%list_elem_of_singleton.
  - apply set_answers_wf; [done| | | |].
    + apply Forall_map. eapply Forall_impl; [by apply wf_answers_ok|]. intros x [Hc Hx].
      destruct (is_answer_of sid qn x); [|done]. destruct v as [w|]; [|done]. split; [done|]. simpl. intros u [= <-]. auto.
    + rewrite map_if_same; [apply (w_unique d Hwf)|]. intros x _. by destruct v.
    + rewrite map_if_same; [apply (w_answer_ids d Hwf)|]. intros x _. by destruct v.
    + intros x (y & -> & Hy)%list_elem_of_fmap. apply (w_answers_owned d Hwf) in Hy.
      by destruct (is_answer_of sid qn y); destruct v.
Qed.

(** Every multiplier a profile gets is one the score route accepts. *)
Lemma multiplier_always_accepted industry sensitivity : multiplier_accepted (compute_multiplier industry sensitivity) = true.
Proof.
  unfold compute_multiplier.
  assert (Hi : default 1%Q (alookup industry INDUSTRY_BASE) ∈ 1%Q :: map snd INDUSTRY_BASE).
  { destruct (alookup industry INDUSTRY_BASE) as [b|] eqn:E; [|left]. right. apply alookup_elem in E.
    apply list_elem_of_fmap. by exists (industry, b). }
  assert (Hs : default 0%Q (alookup sensitivity SENSITIVITY_DELTA) ∈ 0%Q :: map snd SENSITIVITY_DELTA).
  { destruct (alookup sensitivity SENSITIVITY_DELTA) as [b|] eqn:E; [|left]. right. apply alookup_elem in E.
    apply list_elem_of_fmap. by exists (sensitivity, b). }
  revert Hi Hs. generalize (default 1%Q (alookup industry INDUSTRY_BASE)) (default 0%Q (alookup sensitivity SENSITIVITY_DELTA)).
  intros b delta Hb Hd.
  assert (H : forallb (fun b => forallb (fun d => multiplier_accepted (round_nd (fmax MULTIPLIER_MIN (fmin MULTIPLIER_MAX (fadd b d))) 2))
                (0%Q :: map snd SENSITIVITY_DELTA)) (1%Q :: map snd INDUSTRY_BASE) = true) by (vm_compute; reflexivity).
  rewrite forallb_forall in H. specialize (H b ltac:(by apply list_elem_of_In)). rewrite forallb_forall in H.
  by apply H, list_elem_of_In.
Qed.

Lemma create_profile_wf p now d res d' : qramm_wf d -> create_profile p now d = Answer res d' -> qramm_wf d'.
Proof.
  intros Hwf. unfold create_profile. destruct (get_session _ d) as [s|] eqn:Hs; [|done].
  apply get_session_in in Hs. pose proof (multiplier_always_accepted (pq_industry p) (pq_data_sensitivity p)) as Hm.
  destruct (List.filter _ _) as [|x [|]] eqn:Hf; [| |done]; intros H; apply Answer_inj in H as [_ <-].
  - apply update_session_wf; [done|]. assert (Hno : pq_session p ∉ map qp_session (qdb_profiles d)).
    { intros (y & Hy & Hin)%list_elem_of_fmap. assert (Hin2 : y ∈ List.filter (fun x => qp_session x =? pq_session p) (qdb_profiles d)).
      { apply elem_of_filter_bool. split; [done|]. by apply Z.eqb_eq. }
      rewrite Hf in Hin2. by apply elem_of_nil in Hin2. }
    destruct Hwf. split; simpl; auto.
    + intros q [Hq| ->%list_elem_of_singleton]%elem_of_app; auto.
    + rewrite map_app. apply NoDup_app. split_and!; [done| |apply NoDup_singleton].
      intros k Hk E%list_elem_of_singleton. simpl in E. subst k. exact (Hno Hk).
    + intros q [Hq| ->%list_elem_of_singleton]%elem_of_app; auto.
  - destruct Hwf. split; simpl; auto.
    + intros q (y & -> & Hy)%list_elem_of_fmap. destruct (qp_session y =? pq_session p); auto.
    + rewrite map_map. erewrite map_ext; [done|]. intros y. simpl. destruct (qp_session y =? pq_session p) eqn:E; [|done].
      by apply Z.eqb_eq in E.
    + intros q (y & -> & Hy)%list_elem_of_fmap. destruct (qp_session y =? pq_session p); auto.
Qed.

Lemma delete_session_wf sid d res d' : qramm_wf d -> delete_session sid d = Answer res d' -> qramm_wf d'.
Proof.
  intros Hwf. unfold delete_session. destruct (get_session sid d); [|done]. intros H. apply Answer_inj in H as [_ <-].
  destruct Hwf. assert (Hkeep : forall x, x ∈ map qs_id (qdb_sessions d) -> x <> sid ->
    x ∈ map qs_id (List.filter (fun s => negb (qs_id s =? sid)) (qdb_sessions d))).
  { intros x (s & -> & Hs)%list_elem_of_fmap Hne. apply list_elem_of_fmap. exists s. split; [done|].
    apply elem_of_filter_bool. split; [done|]. by apply negb_true_iff, Z.eqb_neq. }
  split; simpl; auto using nodup_map_filter.
  - intros r [Hr _]%elem_of_filter_bool. auto.
  - intros r v [Hr _]%elem_of_filter_bool. eauto.
  - intros r [Hr Hne]%elem_of_filter_bool. apply Hkeep; [auto|]. by apply negb_true_iff, Z.eqb_neq in Hne.
  - intros r [Hr Hne]%elem_of_filter_bool. apply Hkeep; [auto|]. by apply negb_true_iff, Z.eqb_neq in Hne.
  - intros r [Hr _]%elem_of_filter_bool. auto.
Qed.

(** The requests to the routes, in any order; a batch of answers names no
    question twice. *)
Inductive qramm_step (d d' : qramm_db) : Prop :=
| step_create org version now id : create_session org version now d = Answer id d' -> qramm_step d d'
| step_save sid items now res : NoDup (map fst items) -> save_answers sid items now d = Answer res d' -> qramm_step d d'
| step_draft sid qn v note now : draft_answer sid qn v note now d = Answer tt d' -> qramm_step d d'
| step_profile p now res : create_profile p now d = Answer res d' -> qramm_step d d'
| step_score sid m now r : score_session sid m now d = Answer r d' -> qramm_step d d'
| step_delete sid : delete_session sid d = Answer tt d' -> qramm_step d d'.

Definition no_sessions : qramm_db := {| qdb_sessions := []; qdb_answers := []; qdb_profiles := [] |}.

Lemma no_sessions_wf : qramm_wf no_sessions.
Proof. split; simpl; try apply NoDup_nil_2; intros; exfalso; by eapply elem_of_nil. Qed.

Lemma qramm_step_wf d d' : qramm_wf d -> qramm_step d d' -> qramm_wf d'.
Proof.
  intros Hwf [org ver now id H|sid items now res Hnd H|sid qn v note now H|p now res H|sid m now r H|sid H].
  - exact (create_session_wf _ _ _ _ _ _ Hwf H).
  - exact (save_answers_wf _ _ _ _ _ _ Hwf Hnd H).
  - exact (draft_answer_wf _ _ _ _ _ _ _ _ Hwf H).
  - exact (create_profile_wf _ _ _ _ _ Hwf H).
  - apply score_session_inv in H as (_ & _ & _ & ->). by apply update_session_wf.
  - exact (delete_session_wf _ _ _ _ Hwf H).
Qed.

Lemma reachable_wf d : rtc qramm_step no_sessions d -> qramm_wf d.
Proof.
  intros H. apply (rtc_ind_r (R := qramm_step) qramm_wf no_sessions); [apply no_sessions_wf| |done].
  intros d1 d2 _ Hs Hwf. by eapply qramm_step_wf.
Qed.

Lemma save_items_total sid now items seen stored0 st :
  batch_ok sid seen stored0 st -> forallb answer_item_ok items = true ->
  NoDup (map fst items) -> (forall q, q ∈ map fst items -> q ∉ seen) -> is_Some (save_items sid now st items).
Proof.
  revert seen st. induction items as [|i items IH]; intros seen st Hst Hit Hnd Hfresh; simpl; [by eexists|].
  simpl in Hit. apply andb_true_iff in Hit as [Hi Hit]. simpl in Hnd. apply NoDup_cons in Hnd as [Hi2 Hnd].
  destruct (save_item sid now st i) as [st1|] eqn:E.
  - apply (IH (i.1 :: seen)); [|done|done|].
    + eapply save_item_ok; eauto. apply Hfresh. left.
    + intros q Hq [->|Hs]%elem_of_cons; [done|]. by apply (Hfresh q); [right|].
  - exfalso. destruct st as [stored pending], i as [qn v]. unfold save_item in E.
    destruct (get_question qn) as [[pa dim]|] eqn:Hq.
    + destruct (List.filter (is_answer_of sid qn) stored) as [|r1 [|r2 l]] eqn:Hf; [done|done|].
      eapply one_answer_of; [|exact Hf]. pose proof (b_unique _ _ _ _ Hst) as H. simpl in H. rewrite map_app in H.
      by apply NoDup_app in H as [H _].
    + unfold answer_item_ok in Hi. simpl in Hi. bool_to_prop. unfold get_question in Hq.
      assert ((1 <=? qn) && (qn <=? 120) = true) as Hr by (apply andb_true_iff; rewrite !Z.leb_le; lia). rewrite Hr in Hq.
      apply nth_error_None in Hq. simpl in Hq. assert ((qn - 1) / 10 < 12) by (apply Z.div_lt_upper_bound; lia).
      assert (0 <= (qn - 1) / 10) by (apply Z.div_pos; lia). lia.
Qed.

(** A session in use never fails on the server's side.  After any sequence of
    requests whose batches name no question twice: every answer row belongs to a
    session and to the practice the catalogue gives its question, a question has
    one row, a session one profile; and no further such request, a score
    included, is answered with a server error. *)
Theorem qramm_requests_never_fail (d : qramm_db) (Hreach : rtc qramm_step no_sessions d) :
  qramm_wf d
  /\ (forall sid items now, NoDup (map fst items) -> save_answers sid items now d <> HttpError 500)
  /\ (forall sid qn v note now, draft_answer sid qn v note now d <> HttpError 500)
  /\ (forall p now, create_profile p now d <> HttpError 500)
  /\ (forall sid m now, score_session sid m now d <> HttpError 500).
Proof.
  pose proof (reachable_wf d Hreach) as Hwf. split; [done|]. split; [|split; [|split]].
  - intros sid items now Hnd. unfold save_answers. destruct (forallb answer_item_ok items) eqn:Hit; [|done].
    destruct (length items <=? 120)%nat; [|done]. cbn [negb andb]. destruct (get_session sid d); [|done].
    destruct (save_items_total sid now items [] (qdb_answers d) (qdb_answers d, [])) as [[? ?] ->]; [|done|done| |done].
    + pose proof (w_unique d Hwf). split; simpl; rewrite ?app_nil_r; auto using wf_answers_ok. intros r Hr. by apply elem_of_nil in Hr.
    + intros q0 _ Hq. by apply elem_of_nil in Hq.
  - intros sid qn v note now. unfold draft_answer. destruct (negb _) eqn:Hit; [done|]. apply negb_false_iff in Hit.
    destruct (get_session sid d); [|done]. assert (Hq : answer_item_ok (qn, default 1 v) = true) by (by destruct v).
    destruct (save_items_total sid now [(qn, default 1 v)] [] (qdb_answers d) (qdb_answers d, [])) as [st Hst].
    + pose proof (w_unique d Hwf). split; simpl; rewrite ?app_nil_r; auto using wf_answers_ok. intros r Hr. by apply elem_of_nil in Hr.
    + cbn [forallb]. by rewrite Hq.
    + apply NoDup_singleton.
    + intros q0 _ H. by apply elem_of_nil in H.
    + cbn [save_items save_item] in Hst. destruct (get_question qn) as [[pa dim]|]; [|done].
      by destruct (List.filter _ _) as [|r1 [|r2 l]].
  - intros p now. unfold create_profile. destruct (get_session _ d); [|done].
    destruct (List.filter _ _) as [|x [|y l]] eqn:Hf; [done|done|]. exfalso.
    pose proof (nodup_map_filter qp_session (fun x => qp_session x =? pq_session p) _ (w_one_profile d Hwf)) as H. rewrite Hf in H.
    simpl in H. apply NoDup_cons in H as [H _]. apply H.
    assert (Hx : forall z, z ∈ x :: y :: l -> qp_session z = pq_session p).
    { intros z Hz. rewrite <- Hf in Hz. apply elem_of_filter_bool in Hz as [_ Hz]. by apply Z.eqb_eq. }
    rewrite (Hx x), (Hx y) by (first [left | right; left]). left.
  - intros sid m now. unfold score_session. destruct (negb _); [done|]. destruct (get_session sid d); [|done].
    destruct (answered_rows_wf sid d Hwf) as [_ Hval]. destruct (answered_rows sid d) as [|r l]; [done|].
    destruct (score_rows _ _ _) eqn:Hs; [done|]. exfalso. apply (score_rows_total _ _ _ Hval _ Hs).
Qed.

(** The same questions, each answered at least as well. *)
Definition answer_le (a b : QRAMMAnswer) : Prop :=
  qa_practice a = qa_practice b /\ qa_dimension a = qa_dimension b /\ qa_question a = qa_question b
  /\ default 0 (qa_value a) <= default 0 (qa_value b).

Lemma values_of_mono pa rows rows' : Forall2 answer_le rows rows' -> Forall2 Z.le (values_of pa rows) (values_of pa rows').
Proof.
  unfold values_of. induction 1 as [|a b rows rows' (Hp & _ & _ & Hv) _ IH]; simpl; [constructor|].
  rewrite <- Hp. destruct (str_eqb (qa_practice a) pa); simpl; [by constructor|done].
Qed.

Lemma mean_of_mono (l k : list Z) : Forall2 Z.le l k ->
  (mean_of l <= mean_of k)%Q.
Proof.
  intros H. pose proof (Forall2_length _ _ _ H) as Hlen. pose proof (foldr_add_mono _ _ H) as Hsum.
  destruct H as [|a b l k Hab H]; [apply Qle_refl|]. unfold mean_of. rewrite <- Hlen. apply round_nd_mono; [lia|].
  apply rnd_mono, Qmult_le_compat_r; [rewrite <- Zle_Qle; exact Hsum|].
  apply Qlt_le_weak, Qinv_lt_0_compat. change 0%Q with (inject_Z 0). rewrite <- Zlt_Qlt. simpl. lia.
Qed.

Lemma practice_mean_mono pa rows rows' : Forall2 answer_le rows rows' -> (practice_mean pa rows <= practice_mean pa rows')%Q.
Proof. intros H. exact (mean_of_mono _ _ (values_of_mono pa _ _ H)). Qed.

Lemma best_of_mono dim rows rows' s s' :
  Forall2 answer_le rows rows' -> best_of dim rows s -> best_of dim rows' s' -> (s <= s')%Q.
Proof. intros H [Hs _] [_ (pa & Hpa & ->)]. apply (Qle_trans _ (practice_mean pa rows)); [by apply Hs|by apply practice_mean_mono]. Qed.

Lemma same_questions rows rows' : Forall2 answer_le rows rows' -> map qa_question rows = map qa_question rows'.
Proof. induction 1 as [|a b rows rows' (_ & _ & Hq & _) _ IH]; simpl; [done|]. by rewrite Hq, IH. Qed.

(** Maturity is monotone in the answers.  Of two states of an assessment with
    the same questions answered, each at least as well in the second, the second
    has the same assessed dimensions and neither its overall nor any of its
    dimension scores is lower. *)
Theorem better_answers_never_lower (d1 d2 e1 e2 : qramm_db) (sid now1 now2 : Z) (pm : option Q) (r1 r2 : QrammScoreResponse)
  (Hwf1 : qramm_wf d1) (Hwf2 : qramm_wf d2)
  (Hle : Forall2 answer_le (answered_rows sid d1) (answered_rows sid d2))
  (Hok1 : score_session sid pm now1 d1 = Answer r1 e1) (Hok2 : score_session sid pm now2 d2 = Answer r2 e2) :
  sr_assessed r1 = sr_assessed r2
  /\ Forall2 (fun a b => db_dimension a = db_dimension b /\ (db_score a <= db_score b)%Q /\ (db_weighted a <= db_weighted b)%Q)
       (sr_dimensions r1) (sr_dimensions r2)
  /\ exists o1 o2, sr_overall r1 = Some o1 /\ sr_overall r2 = Some o2 /\ (o1 <= o2)%Q.
Proof.
  pose proof (overall_some _ _ _ _ _ _ Hwf1 Hok1) as (o1 & Ho1). pose proof (overall_some _ _ _ _ _ _ Hwf2 Hok2) as (o2 & Ho2).
  apply score_session_inv in Hok1 as (Hm & _ & Hr1 & _). apply score_session_inv in Hok2 as (_ & _ & Hr2 & _).
  destruct (answered_rows_wf sid d1 Hwf1) as [Hcat1 _]. destruct (answered_rows_wf sid d2 Hwf2) as [Hcat2 _].
  apply multiplier_nonneg in Hm. set (m := default 1%Q pm) in *.
  set (rows1 := answered_rows sid d1) in *. set (rows2 := answered_rows sid d2) in *.
  destruct (score_rows_spec _ _ _ _ Hr1) as (sc1 & Hs1 & _ & _ & Ha1 & Hd1 & Hov1).
  destruct (score_rows_spec _ _ _ _ Hr2) as (sc2 & Hs2 & _ & _ & Ha2 & Hd2 & Hov2).
  assert (Hassess : assessed_dims rows1 = assessed_dims rows2) by (unfold assessed_dims; by rewrite (same_questions _ _ Hle)).
  assert (Hdim : forall dim, dim ∈ DIMENSIONS ->
    (db_score (breakdown m rows1 sc1 dim) <= db_score (breakdown m rows2 sc2 dim))%Q
    /\ (db_weighted (breakdown m rows1 sc1 dim) <= db_weighted (breakdown m rows2 sc2 dim))%Q).
  { intros dim Hd. pose proof (best_of_mono _ _ _ _ _ Hle (dimension_score_best _ _ _ Hcat1 Hs1 Hd) (dimension_score_best _ _ _ Hcat2 Hs2 Hd)).
    split; [by apply round_nd_mono|by apply weighted_mono]. }
  split; [by rewrite Ha1, Ha2|]. split.
  - rewrite Hd1, Hd2. unfold DIMENSIONS in Hdim |- *. repeat (constructor; [split; [reflexivity|apply Hdim; by apply (bool_decide_unpack (_ ∈ _))]|]).
    constructor.
  - exists o1, o2. split; [done|]. split; [done|]. rewrite Hov1 in Ho1. rewrite Hov2 in Ho2. rewrite <- Hassess in Ho2.
    assert (Hsub : forall x, x ∈ assessed_dims rows1 -> x ∈ DIMENSIONS) by (intros x Hx; by apply elem_of_filter_bool in Hx as [Hx _]).
    assert (Hlen : (length (assessed_dims rows1) <= 4)%nat) by (etrans; [apply List.filter_length_le|done]).
    destruct (assessed_dims rows1) as [|a l] eqn:E; [done|]. apply Some_inj in Ho1 as <-. apply Some_inj in Ho2 as <-.
    apply mean_mono; [by rewrite length_map|done|]. apply Forall2_fmap_2, Forall_Forall2_diag, Forall_forall.
    intros x Hx. by apply Hdim, Hsub.
Qed.

(** * Stale scores and the compliance map *)

(** The distinct questions of a dimension that are answered. *)
Definition answered_count (sid : Z) (dim : string) (d : qramm_db) : Z :=
  Z.of_nat (length (List.filter (fun q => bool_decide (question_dimension q = Some dim))
                      (remove_dups (map qa_question (answered_rows sid d))))).

Lemma live_count sid dim d : dim ∈ DIMENSIONS -> alookup dim (live_answered sid d) = Some (answered_count sid dim d).
Proof. apply answered_by_dimension_spec. Qed.

Lemma alookup_omap {V W} (f : string -> V -> option W) (g : string -> option V) l dim :
  dim ∈ l -> alookup dim (omap (fun x => pair x <$> (g x ≫= f x)) l) = g dim ≫= f dim.
Proof.
  induction l as [|x l IH]; intros Hd; [by apply elem_of_nil in Hd|]. cbn [omap list_omap].
  destruct (decide (x = dim)) as [->|Hne].
  - destruct (g dim ≫= f dim) as [w|] eqn:E; simpl; [by rewrite str_eqb_refl|].
    clear IH Hd. induction l as [|y l IH]; [done|]. cbn [omap list_omap].
    destruct (g y ≫= f y) as [u|] eqn:Eu; simpl; [|done]. destruct (str_eqb y dim) eqn:Ey; [|done].
    apply str_eqb_eq in Ey as ->. congruence.
  - apply elem_of_cons in Hd as [Hd|Hd]; [done|].
    destruct (g x ≫= f x); simpl; [|by apply IH]. apply str_eqb_neq in Hne. rewrite Hne. by apply IH.
Qed.

(** The counts read back from a persisted score. *)
Lemma persisted_counts r : exists counts,
  score_answered_counts (Some (model_dump r)) = Some counts
  /\ forall dim, dim ∈ DIMENSIONS -> alookup dim counts = alookup dim (sr_answered r).
Proof.
  eexists. split; [reflexivity|]. intros dim Hd. cbn [snd].
  etrans; [apply (alookup_omap (fun _ v => persisted_count (Some v)) (dict_get (map (fun c => (c.1, VInt c.2)) (sr_answered r)))); exact Hd|].
  unfold dict_get. rewrite (alookup_map VInt). by destruct (alookup dim (sr_answered r)).
Qed.

Lemma is_score_stale_iff answered counts :
  let live d := default 0 (alookup d answered) in
  is_score_stale answered (Some counts) true = true
  <-> exists dim, dim ∈ DIMENSIONS /\ 1 <= live dim /\ alookup dim counts <> Some (live dim).
Proof.
  intros live. unfold is_score_stale. cbn [negb]. rewrite existsb_exists. split.
  - intros (dim & [Hd Ha]%list_elem_of_In%elem_of_filter_bool & Hs). exists dim. split; [done|].
    unfold is_dimension_assessed in Ha. apply Z.leb_le in Ha. split; [done|]. by apply negb_true_iff, bool_decide_eq_false in Hs.
  - intros (dim & Hd & Ha & Hs). exists dim. split.
    + apply list_elem_of_In, elem_of_filter_bool. split; [done|]. by apply Z.leb_le.
    + by apply negb_true_iff, bool_decide_eq_false.
Qed.

(** A row is stale exactly where its dimension makes the session's score stale. *)
Lemma row_status_stale score counts answered dim :
  score_answered_counts (Some score) = Some counts ->
  row_status (Some score) answered dim = "stale"
  <-> 1 <= default 0 (alookup dim answered) /\ alookup dim counts <> Some (default 0 (alookup dim answered)).
Proof.
  intros Hc. unfold row_status. rewrite Hc. cbn [mbind option_bind]. unfold row_coverage_status, is_dimension_assessed.
  set (live := default 0 (alookup dim answered)). destruct (1 <=? live) eqn:Hl; cbn [negb].
  - apply Z.leb_le in Hl. destruct (alookup dim counts) as [n|].
    + rewrite (bool_decide_true (is_Some (Some n))) by eauto. cbn [negb]. destruct (n =? live) eqn:E; cbn [negb].
      * apply Z.eqb_eq in E as ->. split; [|intros [_ H]; by destruct H]. intros H. exfalso.
        destruct (alookup dim SCANNER_COVERAGE_STATUS) as [s|] eqn:Es; [|done].
        assert (Hs : s ∈ ["covered"; "pending"]).
        { apply alookup_elem in Es. unfold SCANNER_COVERAGE_STATUS in Es.
          repeat (apply elem_of_cons in Es as [[= _ ->]|Es]; [by apply (bool_decide_unpack (_ ∈ _))|]). by apply elem_of_nil in Es. }
        repeat (apply elem_of_cons in Hs as [->|Hs]; [by vm_compute in H|]). by apply elem_of_nil in Hs.
      * apply Z.eqb_neq in E. split; [intros _; split; [done|congruence]|done].
    + rewrite (bool_decide_false (is_Some None)) by (by intros []). by split.
  - apply Z.leb_gt in Hl. split; [done|]. intros [? _]. lia.
Qed.

Lemma compliance_row_elem score answered row :
  row ∈ build_compliance_rows score answered <->
  exists entry fw, entry ∈ QRAMM_COMPLIANCE_WEIGHTS /\ fw ∈ zip FRAMEWORK_KEYS entry.2
  /\ let dim := default EmptyString (alookup entry.1 PRACTICE_AREA_TO_DIMENSION) in
     let status := row_status score answered dim in
     row = {| cm_practice := entry.1; cm_dimension := dim; cm_framework := fw.1; cm_weight := rnd (fw.2 # 10);
              cm_relevance := dim_score_of score dim ≫= relevance status (default 0%Q (alookup dim SCANNER_COVERAGE)) (rnd (fw.2 # 10));
              cm_scanner_informed := flt 0 (default 0%Q (alookup dim SCANNER_COVERAGE)); cm_status := status |}.
Proof.
  unfold build_compliance_rows. rewrite list_elem_of_In, in_flat_map. split.
  - intros (entry & He & Hr%list_elem_of_In). apply list_elem_of_fmap in Hr as (fw & -> & Hf). exists entry, fw.
    split; [by apply list_elem_of_In|done].
  - intros (entry & fw & He & Hf & ->). exists entry. split; [by apply list_elem_of_In|].
    apply list_elem_of_In. unfold practice_rows. apply list_elem_of_fmap. by exists fw.
Qed.

(** Every practice of the weights belongs to a dimension, and every dimension has one. *)
Lemma weights_cover entry : entry ∈ QRAMM_COMPLIANCE_WEIGHTS ->
  default EmptyString (alookup entry.1 PRACTICE_AREA_TO_DIMENSION) ∈ DIMENSIONS.
Proof.
  intros H. assert (Hall : forallb (fun e => str_in (default EmptyString (alookup e.1 PRACTICE_AREA_TO_DIMENSION)) DIMENSIONS)
    QRAMM_COMPLIANCE_WEIGHTS = true) by (vm_compute; reflexivity).
  rewrite forallb_forall in Hall. apply str_in_elem, Hall. by apply list_elem_of_In.
Qed.

Lemma dimension_has_row score answered dim : dim ∈ DIMENSIONS ->
  exists row, row ∈ build_compliance_rows score answered /\ cm_dimension row = dim /\ cm_status row = row_status score answered dim.
Proof.
  intros Hd. assert (He : exists entry fw, entry ∈ QRAMM_COMPLIANCE_WEIGHTS /\ fw ∈ zip FRAMEWORK_KEYS entry.2
    /\ default EmptyString (alookup entry.1 PRACTICE_AREA_TO_DIMENSION) = dim).
  { unfold DIMENSIONS in Hd.
    apply elem_of_cons in Hd as [->|Hd]; [exists ("1.1", [9; 8; 9; 7; 8; 5; 4; 7]), ("NIST_PQC", 9); by split_and!; [apply (bool_decide_unpack (_ ∈ _))..|]|].
    apply elem_of_cons in Hd as [->|Hd]; [exists ("2.1", [4; 5; 5; 9; 4; 6; 6; 7]), ("NIST_PQC", 4); by split_and!; [apply (bool_decide_unpack (_ ∈ _))..|]|].
    apply elem_of_cons in Hd as [->|Hd]; [exists ("3.1", [5; 6; 6; 8; 5; 8; 6; 7]), ("NIST_PQC", 5); by split_and!; [apply (bool_decide_unpack (_ ∈ _))..|]|].
    apply list_elem_of_singleton in Hd as ->. exists ("4.1", [7; 7; 8; 7; 7; 6; 6; 8]), ("NIST_PQC", 7); by split_and!; [apply (bool_decide_unpack (_ ∈ _))..|]. }
  destruct He as (entry & fw & He & Hf & Hdim). eexists. split; [apply compliance_row_elem; exists entry, fw; split; [done|split; [done|reflexivity]]|].
  cbn [cm_dimension cm_status]. by rewrite Hdim.
Qed.

(** A score is current exactly as long as its answers are.  When a session
    still has the score of an earlier state, reading it flags the score as stale
    exactly when some dimension with answers has another number of answered
    questions than then; a stale score is never shown as a level; and the
    compliance map has a stale row exactly when the session is flagged. *)
Theorem stale_iff_answers_changed (d d1 d2 : qramm_db) (sid now : Z) (pm : option Q) (r : QrammScoreResponse)
  (s : QRAMMSession) (v : SessionRead)
  (Hok : score_session sid pm now d = Answer r d1)
  (Hs : get_session sid d2 = Some s) (Hj : qs_score_json s = Some (Some (model_dump r)))
  (Hread : read_session sid d2 = Answer v d2) :
  (rs_stale v = true <->
     exists dim, dim ∈ DIMENSIONS /\ 1 <= answered_count sid dim d2 /\ answered_count sid dim d2 <> answered_count sid dim d)
  /\ rs_state v = Some (if rs_stale v then "stale" else "current")
  /\ (rs_stale v = true <->
        exists row, row ∈ build_compliance_rows (rs_score v) (live_answered sid d2) /\ cm_status row = "stale").
Proof.
  apply score_session_inv in Hok as (_ & _ & Hr & _). destruct (score_rows_spec _ _ _ _ Hr) as (_ & _ & _ & Hans & _).
  destruct (persisted_counts r) as (counts & Hc & Hlook).
  unfold read_session in Hread. rewrite Hs, Hj in Hread. apply Answer_inj in Hread as [<- _]. cbn [rs_stale rs_state rs_score].
  assert (Hst : is_score_stale (live_answered sid d2) (score_answered_counts (Some (model_dump r)))
                  (bool_decide (is_Some (score_answered_counts (Some (model_dump r)))))
                = is_score_stale (live_answered sid d2) (Some counts) true) by (rewrite Hc; by rewrite bool_decide_true by eauto).
  rewrite Hst. pose proof (is_score_stale_iff (live_answered sid d2) counts) as Hiff.
  split; [|split].
  - rewrite Hiff. apply exist_proper. intros dim. split; intros (Hd & H); split; try done; rewrite (live_count _ _ _ Hd), (Hlook _ Hd), Hans in *.
    + destruct H as [H1 H2]. split; [done|]. intros E. apply H2. cbn [default]. rewrite E. by apply live_count.
    + destruct H as [H1 H2]. split; [done|]. cbn [default]. intros E. apply H2. change (answered_by_dimension _) with (live_answered sid d) in E.
      rewrite (live_count _ _ _ Hd) in E. by injection E.
  - unfold overall_state. by rewrite Hc.
  - rewrite Hiff. split.
    + intros (dim & Hd & H). destruct (dimension_has_row (Some (model_dump r)) (live_answered sid d2) dim Hd) as (row & Hrow & _ & Hstat).
      exists row. split; [done|]. rewrite Hstat. by apply (row_status_stale _ _ _ _ Hc).
    + intros (row & Hrow & Hstat). apply compliance_row_elem in Hrow as (entry & fw & He & _ & ->). cbn [cm_status] in Hstat.
      eexists. split; [by apply weights_cover|]. by apply (row_status_stale _ _ _ _ Hc).
Qed.

(** Reading changes nothing. *)
Lemma read_session_same sid d v e : read_session sid d = Answer v e -> e = d.
Proof.
  unfold read_session. destruct (get_session sid d) as [s|]; [|discriminate].
  destruct (qs_score_json s) as [[b|]|]; [|discriminate|]; intros H; apply Answer_inj in H as [_ H]; symmetry; exact H.
Qed.

(** The score of a dimension read back from a persisted score. *)
Lemma dim_score_dump r dim b :
  map db_dimension (sr_dimensions r) = DIMENSIONS -> b ∈ sr_dimensions r -> db_dimension b = dim ->
  dim_score_of (Some (model_dump r)) dim = Some (db_score b).
Proof.
  intros Hdims Hb <-.
  set (f := fun b => VDict [("score", VFloat (db_score b)); ("weighted", VFloat (db_weighted b));
         ("practices", VDict (map (fun p => (p.1, VFloat p.2)) (db_practices b)))]).
  assert (H : dict_get (map (fun b => (db_dimension b, f b)) (sr_dimensions r)) (db_dimension b) = Some (f b)).
  { apply alookup_nodup.
    - rewrite <- list_fmap_compose. change (NoDup (map db_dimension (sr_dimensions r))). rewrite Hdims. by apply (bool_decide_unpack (NoDup _)).
    - apply list_elem_of_fmap. by exists b. }
  transitivity (match dict_get (map (fun b => (db_dimension b, f b)) (sr_dimensions r)) (db_dimension b) with
                | Some (VDict x) => dict_get x "score" ≫= to_float
                | _ => None
                end); [reflexivity|]. rewrite H. reflexivity.
Qed.

Lemma relevance_range status ceiling w s x :
  representable w -> (0 <= w)%Q -> (0 <= ceiling)%Q -> (0 <= s <= 4)%Q -> status <> "partial" ->
  relevance status ceiling w s = Some x -> (0 <= x <= w)%Q.
Proof.
  intros Hw H0 Hc Hs Hp. unfold relevance. destruct (str_in _ _); [done|].
  assert (Hraw : (0 <= fmul w (fdiv s 4) <= w)%Q).
  { assert (Hd : (0 <= fdiv s 4 <= 1)%Q).
    { unfold fdiv. split.
      - rewrite <- rnd_0. apply rnd_mono, Qle_shift_div_l; lra.
      - assert (E : (rnd 1 == 1)%Q) by (vm_compute; reflexivity). rewrite <- E. apply rnd_mono, Qle_shift_div_r; lra. }
    split; [apply fmul_nonneg; [done|apply Hd]|].
    apply (Qle_trans _ (rnd w)); [apply rnd_mono; nra|]. rewrite (representable_fixed w Hw). apply Qle_refl. }
  destruct (str_eqb status "self-assessed"); [intros E; apply Some_inj in E as <-; done|].
  rewrite (proj2 (str_eqb_neq status "partial") Hp). intros E. apply Some_inj in E as <-.
  pose proof (fmin_spec (fmul w (fdiv s 4)) (fmul ceiling w)) as (H1 & _ & [-> | E]); [done|]. rewrite E in *.
  split; [by apply fmul_nonneg|lra].
Qed.

Lemma row_status_cases score answered dim : row_status score answered dim ∈ ["pending"; "stale"; "covered"; "self-assessed"].
Proof.
  unfold row_status, row_coverage_status. destruct (negb (is_dimension_assessed _)); [left|].
  destruct (negb _); [right; left|]. destruct (match _ with Some n => _ | None => _ end); [right; left|].
  destruct (alookup dim SCANNER_COVERAGE_STATUS) as [s|] eqn:Es; [|do 3 right; left].
  apply alookup_elem in Es. unfold SCANNER_COVERAGE_STATUS in Es.
  repeat (apply elem_of_cons in Es as [[= _ ->]|Es]; [by apply (bool_decide_unpack (_ ∈ _))|]). by apply elem_of_nil in Es.
Qed.

Lemma not_partial status : status ∈ ["pending"; "stale"; "covered"; "self-assessed"] -> status <> "partial".
Proof. intros H ->. repeat (apply elem_of_cons in H as [?|H]; [done|]). by apply elem_of_nil in H. Qed.

Lemma relevance_some status c w s : status ∈ ["pending"; "stale"; "covered"; "self-assessed"] ->
  is_Some (relevance status c w s) <-> status <> "pending" /\ status <> "stale".
Proof.
  intros H. unfold relevance.
  apply elem_of_cons in H as [->|H]; [split; [by intros []|by intros []]|].
  apply elem_of_cons in H as [->|H]; [split; [by intros []|by intros []]|].
  apply elem_of_cons in H as [->|H]; [split; [done|by eexists]|].
  apply list_elem_of_singleton in H as ->. split; [done|by eexists].
Qed.

Lemma weights_range entry fw : entry ∈ QRAMM_COMPLIANCE_WEIGHTS -> fw ∈ zip FRAMEWORK_KEYS entry.2 -> (0 < rnd (fw.2 # 10) <= 1)%Q.
Proof.
  intros He Hf. assert (H : forallb (fun e => forallb (fun f => flt 0 (rnd (f.2 # 10)) && fle (rnd (f.2 # 10)) 1) (zip FRAMEWORK_KEYS e.2))
    QRAMM_COMPLIANCE_WEIGHTS = true) by (vm_compute; reflexivity).
  rewrite forallb_forall in H. specialize (H entry ltac:(by apply list_elem_of_In)). rewrite forallb_forall in H.
  specialize (H fw ltac:(by apply list_elem_of_In)). apply andb_true_iff in H as [H1 H2]. split; [by apply flt_iff|by apply fle_iff].
Qed.

Lemma coverage_nonneg dim : (0 <= default 0%Q (alookup dim SCANNER_COVERAGE))%Q.
Proof.
  destruct (alookup dim SCANNER_COVERAGE) as [c|] eqn:E; [|by vm_compute]. apply alookup_elem in E. unfold SCANNER_COVERAGE in E. cbn [default].
  repeat (apply elem_of_cons in E as [[= _ ->]|E]; [by vm_compute|]). by apply elem_of_nil in E.
Qed.

(** The compliance map stays within its weights.  Over the score of a session
    it has a row for each of the 12 practices and 8 frameworks; a row has a
    relevance exactly when its dimension is answered and its score not stale, and
    a relevance lies between zero and the row's weight. *)
Theorem relevance_within_weight (d d1 : qramm_db) (sid now : Z) (pm : option Q) (r : QrammScoreResponse) (answered : list (string * Z))
  (Hwf : qramm_wf d) (Hok : score_session sid pm now d = Answer r d1) :
  let rows := build_compliance_rows (Some (model_dump r)) answered in
  length rows = 96%nat
  /\ forall row, row ∈ rows ->
       (0 < cm_weight row <= 1)%Q
       /\ (is_Some (cm_relevance row) <-> cm_status row <> "pending" /\ cm_status row <> "stale")
       /\ (forall x, cm_relevance row = Some x -> (0 <= x <= cm_weight row)%Q).
Proof.
  intros rows. split.
  { unfold rows, build_compliance_rows, QRAMM_COMPLIANCE_WEIGHTS. cbn [List.flat_map]. rewrite !length_app.
    unfold practice_rows. by rewrite !length_map. }
  intros row Hrow. unfold rows in Hrow. apply compliance_row_elem in Hrow as (entry & fw & He & Hf & ->).
  cbn [cm_weight cm_relevance cm_status]. set (dim := default EmptyString (alookup entry.1 PRACTICE_AREA_TO_DIMENSION)).
  pose proof (weights_range _ _ He Hf) as Hw. split; [done|].
  apply score_session_inv in Hok as (Hm & _ & Hr & _). destruct (answered_rows_wf sid d Hwf) as [Hcat Hval].
  destruct (score_rows_spec _ _ _ _ Hr) as (scores & Hs & _ & _ & _ & Hdims & _).
  pose proof (weights_cover _ He : dim ∈ DIMENSIONS) as Hd. set (b := breakdown (default 1%Q pm) (answered_rows sid d) scores dim).
  assert (Hscore : dim_score_of (Some (model_dump r)) dim = Some (db_score b)).
  { apply dim_score_dump; [by rewrite Hdims, map_map, map_id| |done]. rewrite Hdims. apply list_elem_of_fmap. exists dim. split; [reflexivity|exact Hd]. }
  assert (Hrange : (0 <= db_score b <= 4)%Q).
  { apply round4_range. destruct (dimension_score_best _ _ _ Hcat Hs Hd) as [_ (pa & _ & ->)]. by apply practice_mean_range. }
  rewrite Hscore. cbn [mbind option_bind]. pose proof (row_status_cases (Some (model_dump r)) answered dim) as Hstat.
  set (status := row_status (Some (model_dump r)) answered dim) in *. split.
  - by apply relevance_some.
  - intros x. apply relevance_range; [apply rnd_representable|lra|apply coverage_nonneg|exact Hrange|].
    by apply not_partial.
Qed.

(** * Examples *)

Module SampleQramm.
Definition tables {A} (d : qramm_db) (h : http A) : qramm_db := match h with Answer _ e => e | HttpError _ => d end.
Definition opened : qramm_db := tables no_sessions (create_session None None 1 no_sessions).
(** CVI complete but for the practice 1.3; SGRM begun. *)
Definition items : list (Z * Z) := [(1, 3); (2, 4); (11, 2); (31, 1)].
Definition begun : qramm_db := tables opened (save_answers 1 items 2 opened).
Definition better : qramm_db := tables begun (draft_answer 1 11 (Some 4) None 3 begun).
Definition more : qramm_db := tables better (draft_answer 1 21 (Some 2) None 4 better).
Definition response (d : qramm_db) : option QrammScoreResponse :=
  match score_session 1 None 5 d with Answer r _ => Some r | HttpError _ => None end.

Lemma opened_reached : rtc qramm_step no_sessions opened.
Proof. eapply rtc_l; [by apply (step_create _ _ None None 1 1)|apply rtc_refl]. Qed.

Lemma begun_reached : rtc qramm_step no_sessions begun.
Proof.
  eapply rtc_r; [apply opened_reached|]. apply (step_save _ _ 1 items 2 (4, 4)).
  - by apply (bool_decide_unpack (NoDup _)).
  - vm_compute. reflexivity.
Qed.

Lemma better_reached : rtc qramm_step no_sessions better.
Proof. eapply rtc_r; [apply begun_reached|]. apply (step_draft _ _ 1 11 (Some 4) None 3). vm_compute. reflexivity. Qed.

Lemma begun_wf : qramm_wf begun. Proof. apply reachable_wf, begun_reached. Qed.
Lemma better_wf : qramm_wf better. Proof. apply reachable_wf, better_reached. Qed.
End SampleQramm.

(** A batch that names a new question twice inserts two rows for it; from then on
    no answer to that question can be saved. *)
Example duplicate_answer_wedges_question :
  let d := SampleQramm.tables SampleQramm.opened (save_answers 1 [(40, 2); (40, 3)] 2 SampleQramm.opened) in
  length (List.filter (is_answer_of 1 40) (qdb_answers d)) = 2%nat
  /\ save_answers 1 [(40, 1)] 3 d = HttpError 500 /\ draft_answer 1 40 (Some 1) None 3 d = HttpError 500.
Proof. vm_compute. auto. Qed.

Import SampleQramm.

Lemma qramm_score_exact_witness : exists r d',
  score_session 1 None 5 begun = Answer r d' /\ option_map sr_assessed (Some r) = Some ["CVI"; "SGRM"]
  /\ exists o, sr_overall r = Some o /\ (0 <= o <= 4)%Q.
Proof.
  destruct (score_session 1 None 5 begun) as [r d'|] eqn:E; [|vm_compute in E; discriminate E].
  exists r, d'. split; [reflexivity|]. split.
  - assert (H : response begun = Some r) by (unfold response; rewrite E; reflexivity).
    assert (H2 : option_map sr_assessed (response begun) = Some ["CVI"; "SGRM"]) by (vm_compute; reflexivity).
    rewrite H in H2. exact H2.
  - destruct (qramm_score_exact begun d' 1 5 None r begun_wf E) as (_ & _ & _ & o & Ho & Hr & _). exists o. split; assumption.
Defined.

Lemma better_answers_never_lower_witness : exists r1 r2 e1 e2,
  score_session 1 None 5 begun = Answer r1 e1 /\ score_session 1 None 5 better = Answer r2 e2
  /\ exists o1 o2, sr_overall r1 = Some o1 /\ sr_overall r2 = Some o2 /\ (o1 <= o2)%Q.
Proof.
  destruct (score_session 1 None 5 begun) as [r1 e1|] eqn:E1; [|vm_compute in E1; discriminate E1].
  destruct (score_session 1 None 5 better) as [r2 e2|] eqn:E2; [|vm_compute in E2; discriminate E2].
  exists r1, r2, e1, e2. split; [reflexivity|]. split; [reflexivity|].
  apply (better_answers_never_lower begun better e1 e2 1 5 5 None r1 r2 begun_wf better_wf); [|exact E1|exact E2].
  vm_compute. repeat (constructor; [repeat split; discriminate|]). constructor.
Defined.

(** A score taken at [better], and an answer more in a practice without one. *)
Definition scored_then_more : qramm_db :=
  let d := tables better (score_session 1 None 5 better) in tables d (draft_answer 1 21 (Some 2) None 6 d).

Lemma stale_iff_answers_changed_witness : exists r d1 s v,
  score_session 1 None 5 better = Answer r d1 /\ get_session 1 scored_then_more = Some s
  /\ qs_score_json s = Some (Some (model_dump r)) /\ read_session 1 scored_then_more = Answer v scored_then_more
  /\ rs_stale v = true.
Proof.
  destruct (score_session 1 None 5 better) as [r d1|] eqn:E; [|vm_compute in E; discriminate E].
  destruct (get_session 1 scored_then_more) as [s|] eqn:Es; [|vm_compute in Es; discriminate Es].
  destruct (read_session 1 scored_then_more) as [v e|] eqn:Er; [|vm_compute in Er; discriminate Er].
  assert (Hj : qs_score_json s = Some (Some (model_dump r))).
  { assert (Hr : response better = Some r) by (unfold response; rewrite E; reflexivity).
    assert (H : qs_score_json <$> get_session 1 scored_then_more = (fun r => Some (Some (model_dump r))) <$> response better)
      by (vm_compute; reflexivity).
    rewrite Es, Hr in H. injection H as H. exact H. }
  assert (He : e = scored_then_more) by (exact (read_session_same _ _ _ _ Er)). subst e. exists r, d1, s, v. split; [reflexivity|]. split; [reflexivity|]. split; [exact Hj|]. split; [reflexivity|].
  apply (proj1 (stale_iff_answers_changed better d1 scored_then_more 1 5 None r s v E Es Hj Er)).
  exists "CVI". split; [left|]. split; vm_compute; discriminate.
Defined.

Lemma relevance_within_weight_witness : exists r d1,
  score_session 1 None 5 begun = Answer r d1
  /\ length (build_compliance_rows (Some (model_dump r)) (live_answered 1 begun)) = 96%nat.
Proof.
  destruct (score_session 1 None 5 begun) as [r d1|] eqn:E; [|vm_compute in E; discriminate E].
  exists r, d1. split; [reflexivity|].
  apply (relevance_within_weight begun d1 1 5 None r (live_answered 1 begun) begun_wf E).
Defined.

Lemma qramm_requests_never_fail_witness :
  rtc qramm_step no_sessions begun /\ qramm_wf begun /\ score_session 1 None 5 begun <> HttpError 500.
Proof.
  split; [apply begun_reached|]. destruct (qramm_requests_never_fail begun begun_reached) as (Hwf & _ & _ & _ & Hs).
  split; [exact Hwf|apply Hs].
Defined.
