(* ===== verification/QrammBridge.v ===== *)
(** The evidence bridge of the QRAMM assessment ([qramm/evidence_bridge.py]): the
    suggestions for the CVI questions, derived from the scan rows of the day of the
    last scan; and the word matcher and migration advice it shares
    ([assessment/migration_advisor.py]).

    [json.loads] ([None] where it raises) and [math.log10] are parameters.  Texts are
    ASCII where a pattern ignores case or looks for a word boundary. *)
From Stdlib Require Import ZArith QArith Lia Lqa Ascii.
From stdpp Require Import base tactics strings list sorting.
From S2P Require Import Prelude PyFloat PyStr PyVal Model Hardware Deadlines Trends Qramm QrammProps.

Local Open Scope Z_scope.
Local Open Scope quirk_scope.

(** * Words *)

Definition CANONICAL_ALG_SYNONYMS : list (string * list string) :=
  [("DES", ["DES"; "DES-EDE"; "DES-CBC"]); ("3DES", ["3DES"; "TripleDES"; "DES-EDE3"]); ("RC4", ["RC4"; "ARCFOUR"]);
   ("MD5", ["MD5"]); ("SHA1", ["SHA1"; "SHA-1"])].

Definition is_word (c : ascii) : bool := is_alnum c || bool_decide (c = "_"%char).

(** A variant, which starts and ends in a word character, here as a whole word;
    [prev]: the character before is one of a word. *)
Fixpoint word_at (variant : string) (prev : bool) (s : string) : bool :=
  (negb prev && startswith (lower s) (lower variant)
   && match str_drop (String.length variant) s with String c _ => negb (is_word c) | EmptyString => true end)
  || match s with String c s' => word_at variant (is_word c) s' | EmptyString => false end.

Definition alg_matches (canonical text : string) : bool :=
  existsb (fun v => word_at v false text) (default [canonical] (alookup canonical CANONICAL_ALG_SYNONYMS)).

(** * Migration advice *)

Record migration_rec := {
  mr_host : pyval; mr_port : pyval; mr_severity : pyval; mr_path : string; mr_recommendation : pyval
}.

(** The rules in order: the words looked for in the title, the path and the advice. *)
Definition MIGRATION_RULES : list (string * string * string) :=
  [("legacy tls", "Hygiene → Modernization",
    "Upgrade to TLS 1.2+ immediately; prefer TLS 1.3. Standardize termination configs and block legacy versions at gateways/LBs.");
   ("plaintext http", "Hygiene",
    "Migrate HTTP→HTTPS. If legacy, front with TLS-terminating reverse proxy and enforce redirects + HSTS where applicable.");
   ("quantum", "Modernization → PQC Preparation",
    "Stabilize on modern classical crypto baselines (TLS 1.3, standardized configs) and prepare for hybrid/PQC vendor upgrades. Prioritize long-lived sensitive data flows and trust anchors.");
   ("ssh", "Modernization → PQC Preparation",
    "Inventory SSH host keys/KEX algorithms, rotate off legacy RSA where feasible, and plan for vendor support of hybrid/PQC approaches as they mature.")].

Definition DEFAULT_ADVICE : string := "Standardize crypto baselines and plan phased upgrades.".

(** The title of a finding is a string or absent. *)
Definition finding_title (f : pydict) : string :=
  match dict_get f "title" with Some (VStr s) => lower s | _ => EmptyString end.

Definition recommend (f : pydict) : option migration_rec :=
  let severity := get_or f "severity" VNone in
  let rec path advice := Some {| mr_host := get_or f "host" VNone; mr_port := get_or f "port" VNone;
                                 mr_severity := severity; mr_path := path; mr_recommendation := advice |} in
  if match severity with VStr s => str_eqb s "INFO" | _ => false end then None
  else match List.find (fun rule => word_at rule.1.1 false (finding_title f)) MIGRATION_RULES with
       | Some rule => rec rule.1.2 (VStr rule.2)
       | None => rec "Modernization"
                   (let own := get_or f "recommendation" VNone in if truthy own then own else VStr DEFAULT_ADVICE)
       end.

Definition recommend_migration_paths (findings : list pydict) : list migration_rec := omap recommend findings.

(** * Names *)

Definition ALG_KEYS : list string := ["algorithm"; "alg"; "name"; "keyAlgorithm"; "key_algorithm"].

Definition text_name (key value : string) : list string :=
  if negb (truthy_str (Some value)) then []
  else if str_in key ALG_KEYS then [value]
  else if existsb (fun c => alg_matches c value) (map fst CANONICAL_ALG_SYNONYMS) then [value] else [].

Fixpoint walk_json_for_alg_strings (obj : pyval) : list string :=
  match obj with
  | VDict d =>
      (fix items (d : list (string * pyval)) : list string :=
         match d with
         | [] => []
         | (key, value) :: d' =>
             (match value with
              | VStr s => text_name key s
              | VDict _ | VList _ => walk_json_for_alg_strings value
              | _ => []
              end) ++ items d'
         end) d
  | VList l =>
      (fix elements (l : list pyval) : list string :=
         match l with
         | [] => []
         | item :: l' =>
             (match item with
              | VStr s => if truthy_str (Some s) then [s] else []
              | VDict _ | VList _ => walk_json_for_alg_strings item
              | _ => []
              end) ++ elements l'
         end) l
  | _ => []
  end.

Section Bridge.
Context (loads : string -> option pyval) (log10 : Z -> Q).

Definition parse_json_blob (blob : option string) : option pyval :=
  if truthy_str blob then loads (str_or_empty blob) else None.

Definition extract_algorithm_names (e : endpoint_row) : list string :=
  let ep := er_ep e in
  List.filter (fun s => truthy_str (Some s))
    (omap id [ep_tls_version ep; ep_cipher_suite ep; ep_cert_sig_alg ep; ep_cert_pubkey_alg ep])
  ++ List.flat_map (fun field => match parse_json_blob (er_text e field) with
                                 | Some v => walk_json_for_alg_strings v
                                 | None => []
                                 end)
       ["ssh_audit_json"; "jwt_scan_json"; "container_scan_json"; "cloud_scan_json"; "kerberos_scan_json"; "saml_scan_json"].

(** * Suggestions *)

Definition discovery_factor (endpoint_count : Z) : Q :=
  fmin 1 (fmax (1 # 4) (fdiv (log10 (Z.max endpoint_count 1)) 3)).

(** The stored instants up to the session's creation, and the day of the last. *)
Definition scanned_before (created : option Z) (e : endpoint_row) : bool :=
  match ep_scanned_at (er_ep e) with
  | Some t => match created with Some c => dt_wall t <=? c | None => true end
  | None => false
  end.

Definition scan_day (e : endpoint_row) : option Z := (fun t => dt_wall t / US_PER_DAY) <$> ep_scanned_at (er_ep e).

Definition cohort (created : option Z) (rows : list endpoint_row) : option (Z * list endpoint_row) :=
  let rows := List.filter (scanned_before created) rows in
  match foldr max_opt None (map scan_day rows) with
  | None => None
  | Some day => Some (day, List.filter (fun e => bool_decide (scan_day e = Some day)) rows)
  end.

(** The algorithms the classifier knows, and whether one of them is broken. *)
Definition known_algorithms (e : endpoint_row) : list string :=
  List.filter (fun n => bool_decide (is_Some (classify_algorithm n).1.2)) (extract_algorithm_names e).

Definition has_vulnerable (e : endpoint_row) : bool :=
  existsb (fun n => bool_decide ((classify_algorithm n).1.2 = Some 0)) (extract_algorithm_names e).

Definition distinct (l : list string) : Z := Z.of_nat (length (remove_dups l)).

Definition score_1_1 (endpoints : list endpoint_row) : Z :=
  let protocols := distinct (omap (fun e => if truthy_str (ep_protocol (er_ep e))
                                            then Some (upper (str_or_empty (ep_protocol (er_ep e)))) else None) endpoints) in
  let total := Z.of_nat (length endpoints) in
  let level := if total =? 0 then 1 else if protocols <=? 1 then 2 else if protocols <=? 3 then 3 else 4 in
  int_of_float (fmul (of_int level) (discovery_factor total)).

Definition algorithm_count (endpoints : list endpoint_row) : Z :=
  distinct (map lower (List.flat_map known_algorithms endpoints)).

Definition score_1_2 (endpoints : list endpoint_row) : option Z :=
  let total := Z.of_nat (length endpoints) in
  if (algorithm_count endpoints =? 0) || (total =? 0) then None
  else
    let vuln_pct := fmul (int_truediv (Z.of_nat (length (List.filter has_vulnerable endpoints))) total) 100 in
    Some (if fle vuln_pct 25 then 4 else if fle vuln_pct 50 then 3 else if fle vuln_pct 75 then 2 else 1).

Definition score_1_3 (endpoints : list endpoint_row) : Z :=
  let n := algorithm_count endpoints in
  if n =? 0 then 1 else if n <=? 2 then 2 else if n <=? 5 then 3 else 4.

Definition suggest (suggested : option Z) (source : string) (r : QRAMMAnswer) : QRAMMAnswer :=
  {| qa_id := qa_id r; qa_session := qa_session r; qa_question := qa_question r; qa_dimension := qa_dimension r;
     qa_practice := qa_practice r; qa_value := qa_value r; qa_suggested := suggested;
     qa_confirmed_at := qa_confirmed_at r; qa_evidence_source := Some source; qa_evidence_note := qa_evidence_note r |}.

Definition is_cvi_row (session_id : Z) (practice : string) (r : QRAMMAnswer) : bool :=
  (qa_session r =? session_id) && str_eqb (qa_dimension r) "CVI" && str_eqb (qa_practice r) practice.

(** One practice: rows already as wanted are not written. *)
Definition suggest_practice (session_id : Z) (source : string) (d : qramm_db) (entry : string * option Z) : qramm_db :=
  let existing := List.filter (is_cvi_row session_id entry.1) (qdb_answers d) in
  if negb (bool_decide (existing = []))
     && forallb (fun r => bool_decide (qa_suggested r = entry.2) && bool_decide (qa_evidence_source r = Some source)) existing
  then d
  else set_answers (map (fun r => if is_cvi_row session_id entry.1 r then suggest entry.2 source r else r)) d.

Definition evidence_source (day : Z) : string :=
  "evidence_bridge:scan:" +:+ str_take 10 (isoformat (day * US_PER_DAY)) +:+ ":v1".

Definition populate_cvi_suggestions (session_id : Z) (created : option Z) (rows : list endpoint_row) (d : qramm_db) : qramm_db :=
  match cohort created rows with
  | None => d
  | Some (_, []) => d
  | Some (day, endpoints) =>
      foldl (suggest_practice session_id (evidence_source day)) d
        [("1.1", Some (score_1_1 endpoints)); ("1.2", score_1_2 endpoints); ("1.3", Some (score_1_3 endpoints))]
  end.

(** [POST /qramm/sessions]: the session, then the bridge. *)
Definition open_session_with_evidence (org_name model_version : option string) (now : Z) (rows : list endpoint_row) (d : qramm_db)
  : http Z :=
  match create_session org_name model_version now d with
  | Answer id d' => Answer id (populate_cvi_suggestions id (Some now) rows d')
  | HttpError s => HttpError s
  end.
End Bridge.

(** * Properties *)

(** The reference of [suggest_practice], without the test that skips the write. *)
Definition put (session_id : Z) (source : string) (entry : string * option Z) (r : QRAMMAnswer) : QRAMMAnswer :=
  if is_cvi_row session_id entry.1 r then suggest entry.2 source r else r.

Lemma suggest_noop s source r : qa_suggested r = s -> qa_evidence_source r = Some source -> suggest s source r = r.
Proof. intros <- E. destruct r. simpl in *. unfold suggest. simpl. by rewrite E. Qed.

Lemma suggest_practice_put sid source d entry :
  suggest_practice sid source d entry = set_answers (map (put sid source entry)) d.
Proof.
  unfold suggest_practice. destruct (_ && _) eqn:E; [|done].
  apply andb_true_iff in E as [_ E]. rewrite forallb_forall in E.
  assert (H : map (put sid source entry) (qdb_answers d) = qdb_answers d).
  { rewrite <- (map_id (qdb_answers d)) at 2. apply List.map_ext_in. intros r Hr. unfold put.
    destruct (is_cvi_row sid entry.1 r) eqn:Ec; [|done]. specialize (E r (proj2 (List.filter_In _ _ _) (conj Hr Ec))).
    apply andb_true_iff in E as [E1%bool_decide_eq_true E2%bool_decide_eq_true]. by apply suggest_noop. }
  unfold set_answers. rewrite H. by destruct d.
Qed.

Definition put_all (sid : Z) (source : string) (entries : list (string * option Z)) (r : QRAMMAnswer) : QRAMMAnswer :=
  foldl (fun r e => put sid source e r) r entries.

Lemma suggest_practices_put sid source entries d :
  foldl (suggest_practice sid source) d entries = set_answers (map (put_all sid source entries)) d.
Proof.
  revert d. induction entries as [|e entries IH]; intros d; simpl.
  - unfold set_answers, put_all. simpl. rewrite map_id. by destruct d.
  - rewrite IH, suggest_practice_put. unfold set_answers. simpl. by rewrite map_map.
Qed.

(** What the human wrote of a row: all but the suggestion. *)
Definition strip_suggestion (r : QRAMMAnswer) : QRAMMAnswer :=
  {| qa_id := qa_id r; qa_session := qa_session r; qa_question := qa_question r; qa_dimension := qa_dimension r;
     qa_practice := qa_practice r; qa_value := qa_value r; qa_suggested := None; qa_confirmed_at := qa_confirmed_at r;
     qa_evidence_source := None; qa_evidence_note := qa_evidence_note r |}.

Lemma strip_put sid source e r : strip_suggestion (put sid source e r) = strip_suggestion r.
Proof. unfold put. by destruct (is_cvi_row sid e.1 r). Qed.

Lemma strip_put_all sid source es r : strip_suggestion (put_all sid source es r) = strip_suggestion r.
Proof. unfold put_all. revert r. induction es as [|e es IH]; intros r; simpl; [done|]. by rewrite IH, strip_put. Qed.

Lemma put_all_other sid source es r : qa_session r <> sid -> put_all sid source es r = r.
Proof.
  intros Hne. unfold put_all. induction es as [|e es IH]; simpl; [done|]. unfold put at 2, is_cvi_row.
  by rewrite (proj2 (Z.eqb_neq _ _) Hne).
Qed.

(** A function of what the human wrote. *)
Lemma strip_fields {A} (f : QRAMMAnswer -> A) sid source es r :
  (forall r, f r = f (strip_suggestion r)) -> f (put_all sid source es r) = f r.
Proof. intros H. by rewrite (H (put_all _ _ _ _)), strip_put_all, <- H. Qed.

Lemma put_all_keys sid source es d :
  qramm_wf d -> qramm_wf (set_answers (map (put_all sid source es)) d).
Proof.
  intros Hwf. pose proof (wf_answers_ok d Hwf) as Hok. destruct Hwf.
  apply set_answers_wf; [by split| | | |].
  - apply Forall_map. eapply Forall_impl; [exact Hok|]. intros r [Hc Hv]. split.
    + by rewrite (strip_fields catalogued) by done.
    + rewrite (strip_fields qa_value) by done. exact Hv.
  - rewrite map_map. erewrite map_ext; [exact w_unique|]. intros r. by apply (strip_fields key).
  - rewrite map_map. erewrite map_ext; [exact w_answer_ids|]. intros r. by apply (strip_fields qa_id).
  - intros r (x & -> & Hx)%list_elem_of_fmap. rewrite (strip_fields qa_session) by done. auto.
Qed.

(** The score reads only what the human wrote. *)
Lemma score_rows_stripped sid m rows : score_rows sid m (map strip_suggestion rows) = score_rows sid m rows.
Proof.
  unfold score_rows.
  assert (H : forall A (f : A -> QRAMMAnswer -> A) acc, (forall a r, f a (strip_suggestion r) = f a r) ->
    foldl f acc (map strip_suggestion rows) = foldl f acc rows).
  { intros A f acc Hf. revert acc. induction rows as [|r l IH]; intros acc; simpl; [done|]. by rewrite Hf, IH. }
  assert (Hb : practice_buckets (map strip_suggestion rows) = practice_buckets rows) by (by apply H).
  assert (Hd : practice_to_dim (map strip_suggestion rows) = practice_to_dim rows) by (by apply H).
  unfold dim_to_practices. rewrite Hb, Hd, map_map. reflexivity.
Qed.

Lemma score_rows_strip_eq sid m l l' :
  map strip_suggestion l = map strip_suggestion l' -> score_rows sid m l = score_rows sid m l'.
Proof. intros H. by rewrite <- (score_rows_stripped sid m l), H, score_rows_stripped. Qed.

Lemma answered_rows_put sid0 sid source es d :
  map strip_suggestion (answered_rows sid0 (set_answers (map (put_all sid source es)) d))
  = map strip_suggestion (answered_rows sid0 d).
Proof.
  unfold answered_rows. simpl. induction (qdb_answers d) as [|r rows IH]; simpl; [done|].
  rewrite (strip_fields (is_answered sid0)) by done. destruct (is_answered sid0 r); simpl; [|done].
  by rewrite strip_put_all, IH.
Qed.

(** The bridge only suggests.  Whatever scan rows it reads, of the answers of a
    database in order only the suggestions of the opened session's CVI questions
    change: sessions, profiles and all that a human wrote are as before, rows of
    other sessions are untouched, and every session scores exactly as before. *)
Theorem bridge_only_suggests (loads : string -> option pyval) (log10 : Z -> Q) (sid : Z) (created : option Z)
  (rows : list endpoint_row) (d : qramm_db) (Hwf : qramm_wf d) :
  let d' := populate_cvi_suggestions loads log10 sid created rows d in
  qramm_wf d' /\ qdb_sessions d' = qdb_sessions d /\ qdb_profiles d' = qdb_profiles d
  /\ Forall2 (fun a b => strip_suggestion a = strip_suggestion b /\ (qa_session a <> sid \/ qa_dimension a <> "CVI" -> a = b))
       (qdb_answers d) (qdb_answers d')
  /\ forall sid0 pm now,
       match score_session sid0 pm now d, score_session sid0 pm now d' with
       | Answer r _, Answer r' _ => r = r'
       | HttpError s, HttpError s' => s = s'
       | _, _ => False
       end.
Proof.
  intros d'. assert (H : exists source es, d' = set_answers (map (put_all sid source es)) d).
  { unfold d', populate_cvi_suggestions. destruct (cohort created rows) as [[day [|e l]]|].
    - exists EmptyString, []. exact (suggest_practices_put sid EmptyString [] d).
    - eexists _, _. apply suggest_practices_put.
    - exists EmptyString, []. exact (suggest_practices_put sid EmptyString [] d). }
  destruct H as (source & es & ->). split; [by apply put_all_keys|]. split; [done|]. split; [done|]. split.
  - simpl. apply Forall2_fmap_r, Forall_Forall2_diag, Forall_true. intros r. split; [by rewrite strip_put_all|].
    intros Hne. symmetry. clear Hwf. unfold put_all. induction es as [|e es IH]; simpl; [done|].
    unfold put at 2, is_cvi_row. assert ((qa_session r =? sid) && str_eqb (qa_dimension r) "CVI" = false) as ->.
    { apply andb_false_iff. destruct Hne as [Hne|Hne]; [left; by apply Z.eqb_neq|right; by apply str_eqb_neq]. }
    exact IH.
  - intros sid0 pm now. unfold score_session. destruct (negb _); [done|].
    change (get_session sid0 (set_answers _ d)) with (get_session sid0 d). destruct (get_session sid0 d); [|done].
    pose proof (answered_rows_put sid0 sid source es d) as Hrows.
    destruct (answered_rows sid0 d) as [|r l], (answered_rows sid0 (set_answers _ d)) as [|r' l']; try discriminate.
    + reflexivity.
    + rewrite (score_rows_strip_eq _ _ _ _ Hrows). destruct (score_rows _ _ (r :: l)); reflexivity.
Qed.

(** * Examples *)

Definition no_json (_ : string) : option pyval := None.
(** A curve through the documented points: 0 below ten endpoints. *)
Definition whole_log10 (n : Z) : Q := inject_Z (if n <? 10 then 0 else if n <? 100 then 1 else if n <? 1000 then 2 else 3).

(** The suggested answer of a practice, in the first row of it. *)
Definition suggested (practice : string) (d : qramm_db) : option (option Z) :=
  qa_suggested <$> List.find (is_cvi_row 1 practice) (qdb_answers d).

(** Answers run from 1 to 4; a scan of one endpoint has the bridge suggest 0 for
    every question of Discovery and Inventory. *)
Example small_scan_suggests_zero :
  let d := populate_cvi_suggestions no_json whole_log10 1 (Some 1) [Trends.up "h"] SampleQramm.opened in
  suggested "1.1" d = Some (Some 0) /\ answer_item_ok (1, 0) = false.
Proof. vm_compute. split; reflexivity. Qed.

Lemma bridge_only_suggests_witness :
  let d' := populate_cvi_suggestions no_json whole_log10 1 (Some 1) [Trends.up "h"] SampleQramm.begun in
  suggested "1.3" d' = Some (Some 1) /\ qramm_wf d'.
Proof.
  split; [vm_compute; reflexivity|].
  exact (proj1 (bridge_only_suggests no_json whole_log10 1 (Some 1) [Trends.up "h"] SampleQramm.begun SampleQramm.begun_wf)).
Defined.
