(* ===== verification/IpAddr.v ===== *)
(** IP addresses as [ipaddress] of the standard library reads, prints and classifies
    them, for the guards that decide what may be contacted: [util/url_allowlist.py],
    [util/target_trust.py], [util/hosts.py], [util/targets.py].

    The library is that of CPython 3.11, the version of the image and of the tests; an
    address is an integer of 32 or 128 bits, with a scope for IPv6. *)
From Stdlib Require Import ZArith Lia Ascii.
From stdpp Require Import base tactics strings list pretty.
From S2P Require Import Prelude PyStr PyVal.

Local Open Scope Z_scope.

(** * Addresses *)

Inductive ip_address := IPv4 (n : Z) | IPv6 (n : Z) (scope : option string).

#[export] Instance ip_address_eq_dec : EqDecision ip_address.
Proof. solve_decision. Defined.

Definition ip_int (a : ip_address) : Z := match a with IPv4 n | IPv6 n _ => n end.
Definition is_v4 (a : ip_address) : bool := match a with IPv4 _ => true | IPv6 _ _ => false end.

(** ** Reading *)

(** [_parse_octet]: one to three digits, no leading zero, at most 255. *)
Definition parse_octet (s : string) : option Z :=
  if truthy_str (Some s) && every is_digit s && (String.length s <=? 3)%nat
     && (str_eqb s "0" || negb (startswith s "0"))
  then match int_of_str s with
       | Some v => if v <=? 255 then Some v else None
       | None => None
       end
  else None.

Definition ipv4_int (s : string) : option Z :=
  match split_on "."%char s with
  | [a; b; c; d] =>
      a ← parse_octet a; b ← parse_octet b; c ← parse_octet c; d ← parse_octet d;
      Some (((a * 256 + b) * 256 + c) * 256 + d)
  | _ => None
  end.

Definition hex_val (c : ascii) : option Z :=
  if is_digit c then Some (digit_val c)
  else let n := Z.of_nat (nat_of_ascii (ascii_lower c)) in
       if (97 <=? n) && (n <=? 102) then Some (n - 87) else None.

Definition is_hex_digit (c : ascii) : bool := match hex_val c with Some _ => true | None => false end.

Fixpoint hex_int (acc : Z) (s : string) : Z :=
  match s with
  | EmptyString => acc
  | String c s' => hex_int (acc * 16 + default 0 (hex_val c)) s'
  end.

(** [_parse_hextet] *)
Definition parse_hextet (s : string) : option Z :=
  if truthy_str (Some s) && every is_hex_digit s && (String.length s <=? 4)%nat then Some (hex_int 0 s) else None.

(** A part of an IPv6 text: a field, or a value an embedded IPv4 text gave. *)
Notation part := (string + Z)%type.

Definition part_value (p : part) : option Z := match p with inl s => parse_hextet s | inr v => Some v end.
Definition part_empty (p : part) : bool := match p with inl s => str_eqb s EmptyString | inr _ => false end.

(** The last field may be an IPv4 address, which stands for two. *)
Definition ipv6_parts (s : string) : option (list part) :=
  let fields := split_on ":"%char s in
  if (length fields <? 3)%nat then None
  else let final := default EmptyString (last fields) in
       let front := map inl (take (length fields - 1) fields) in
       if contains final "." then
         v ← ipv4_int final; Some (front ++ [inr (v / 65536); inr (v mod 65536)])
       else Some (front ++ [inl final]).

(** The positions between the first and the last field that are empty. *)
Definition skip_indices (parts : list part) : list nat :=
  List.filter (fun i => match parts !! i with Some p => part_empty p | None => false end) (seq 1 (length parts - 2)).

Definition fold16 (hextets : list Z) : Z := foldl (fun acc h => acc * 65536 + h) 0 hextets.

(** The fields of one side of [::]; an empty one at the end is part of the [::] and
    allowed only next to it. *)
Definition side (empty_end : bool) (fields : list part) : option (list part) :=
  if empty_end then match fields with [_] => Some [] | _ => None end else Some fields.

Definition ipv6_int (s : string) : option Z :=
  parts ← ipv6_parts s;
  if (9 <? length parts)%nat then None
  else
    let first_empty := match head parts with Some p => part_empty p | None => false end in
    let last_empty := match last parts with Some p => part_empty p | None => false end in
    match skip_indices parts with
    | [] => if (length parts =? 8)%nat && negb first_empty && negb last_empty
            then hextets ← mapM part_value parts; Some (fold16 hextets) else None
    | [i] =>
        hi ← side first_empty (take i parts);
        lo ← side last_empty (drop (S i) parts);
        let skipped := (8 - (length hi + length lo))%nat in
        if (skipped =? 0)%nat then None
        else hs ← mapM part_value hi; ls ← mapM part_value lo; Some (fold16 (hs ++ replicate skipped 0 ++ ls))
    | _ => None
    end.

(** The text before the first [%] and the scope after it, which is not empty and holds
    no other [%]. *)
Definition split_scope (s : string) : option (string * option string) :=
  match split_once "%"%char s with
  | None => Some (s, None)
  | Some (addr, scope) =>
      if truthy_str (Some scope) && negb (contains scope "%") then Some (addr, Some scope) else None
  end.

(** [ipaddress.ip_address], [None] where it raises [ValueError]. *)
Definition parse_ip (s : string) : option ip_address :=
  if contains s "/" then None
  else match ipv4_int s with
       | Some n => Some (IPv4 n)
       | None => a ← split_scope s; n ← ipv6_int a.1; Some (IPv6 n a.2)
       end.

(** ** Printing *)

Definition octet (n i : Z) : Z := Z.land (Z.shiftr n (8 * i)) 255.

Definition ipv4_text (n : Z) : string :=
  pretty (octet n 3) +:+ "." +:+ pretty (octet n 2) +:+ "." +:+ pretty (octet n 1) +:+ "." +:+ pretty (octet n 0).

Definition hex_char (d : Z) : ascii :=
  ascii_of_nat (Z.to_nat (if d <? 10 then 48 + d else 87 + d)).

(** [%x] of a number of 16 bits. *)
Definition hextet_text (h : Z) : string :=
  let d i := str1 (hex_char (Z.land (Z.shiftr h (4 * i)) 15)) in
  if h <? 16 then d 0
  else if h <? 256 then d 1 +:+ d 0
  else if h <? 4096 then d 2 +:+ d 1 +:+ d 0
  else d 3 +:+ d 2 +:+ d 1 +:+ d 0.

Definition hextets_of (n : Z) : list Z := map (fun i => Z.land (Z.shiftr n (16 * i)) 65535) [7; 6; 5; 4; 3; 2; 1; 0].

(** The length of the run of zeroes at each position. *)
Fixpoint zero_runs (hextets : list Z) : list nat :=
  match hextets with
  | [] => []
  | h :: rest => (if h =? 0 then S (default 0%nat (head (zero_runs rest))) else 0%nat) :: zero_runs rest
  end.

(** The first of the longest runs, as its start and its length. *)
Fixpoint longest_run (i : nat) (runs : list nat) : nat * nat :=
  match runs with
  | [] => (i, 0%nat)
  | r :: rest => let best := longest_run (S i) rest in if (best.2 <=? r)%nat then (i, r) else best
  end.

(** [_compress_hextets]: the longest run of two or more zeroes becomes [::]. *)
Definition compress_hextets (hextets : list Z) : list string :=
  let '(start, len) := longest_run 0 (zero_runs hextets) in
  let texts := map hextet_text hextets in
  if (1 <? len)%nat then
    (if (start =? 0)%nat then [EmptyString] else []) ++ take start texts ++ [EmptyString]
    ++ drop (start + len) texts ++ (if (start + len =? length hextets)%nat then [EmptyString] else [])
  else texts.

Definition ip_text (a : ip_address) : string :=
  match a with
  | IPv4 n => ipv4_text n
  | IPv6 n scope => str_join ":" (compress_hextets (hextets_of n))
                    +:+ (if truthy_str scope then "%" +:+ str_or_empty scope else EmptyString)
  end.

(** * Networks *)

(** An IPv4 ([nw_v4]) or IPv6 prefix. *)
Record ip_network := { nw_v4 : bool; nw_address : Z; nw_plen : Z }.

Definition width (v4 : bool) : Z := if v4 then 32 else 128.

Definition netmask (v4 : bool) (plen : Z) : Z := Z.shiftl (Z.ones plen) (width v4 - plen).

(** [ip in network] *)
Definition in_network (a : ip_address) (w : ip_network) : bool :=
  eqb (is_v4 a) (nw_v4 w) && (Z.land (ip_int a) (netmask (nw_v4 w) (nw_plen w)) =? nw_address w).

Definition in_any (a : ip_address) (nets : list ip_network) : bool := existsb (in_network a) nets.

(** [_prefix_from_prefix_string] *)
Definition prefix_of_digits (max : Z) (s : string) : option Z :=
  if truthy_str (Some s) && every is_digit s then
    match int_of_str s with Some p => if p <=? max then Some p else None | None => None end
  else None.

(** [_prefix_from_ip_int]: a netmask is ones followed by zeroes. *)
Definition prefix_of_mask (mask : Z) : option Z :=
  List.find (fun p => netmask true p =? mask) (map Z.of_nat (seq 0 33)).

(** The length in a netmask or, inverted, in a host mask. *)
Definition prefix_of_ip_text (s : string) : option Z :=
  m ← ipv4_int s;
  match prefix_of_mask m with Some p => Some p | None => prefix_of_mask (Z.lxor m (Z.ones 32)) end.

(** [_split_optional_netmask] *)
Definition split_netmask (s : string) : option (string * option string) :=
  match split_on "/"%char s with
  | [addr] => Some (addr, None)
  | [addr; mask] => Some (addr, Some mask)
  | _ => None
  end.

Definition network_of (v4 : bool) (n plen : Z) : ip_network :=
  {| nw_v4 := v4; nw_address := Z.land n (netmask v4 plen); nw_plen := plen |}.

Definition ipv4_network (s : string) : option ip_network :=
  a ← split_netmask s;
  n ← ipv4_int a.1;
  plen ← match a.2 with
         | None => Some 32
         | Some mask => match prefix_of_digits 32 mask with Some p => Some p | None => prefix_of_ip_text mask end
         end;
  Some (network_of true n plen).

Definition ipv6_network (s : string) : option ip_network :=
  a ← split_netmask s;
  t ← split_scope a.1;
  n ← ipv6_int t.1;
  plen ← match a.2 with None => Some 128 | Some mask => prefix_of_digits 128 mask end;
  Some (network_of false n plen).

(** [ipaddress.ip_network(s, strict=False)], [None] where it raises [ValueError]. *)
Definition parse_network (s : string) : option ip_network :=
  match ipv4_network s with Some w => Some w | None => ipv6_network s end.

(** [len(list(network.hosts()))]: without the network and broadcast addresses of IPv4
    and the subnet-router address of IPv6, save in the two longest prefixes. *)
Definition host_count (w : ip_network) : Z :=
  let hosts := width (nw_v4 w) - nw_plen w in
  if hosts <=? 1 then 2 ^ hosts else if nw_v4 w then 2 ^ hosts - 2 else 2 ^ hosts - 1.

(** * Classes *)

Definition v4net (a b c d plen : Z) : ip_network :=
  {| nw_v4 := true; nw_address := ((a * 256 + b) * 256 + c) * 256 + d; nw_plen := plen |}.
Definition v6net (n plen : Z) : ip_network := {| nw_v4 := false; nw_address := n; nw_plen := plen |}.

Definition V4_LOOPBACK : ip_network := v4net 127 0 0 0 8.
Definition V4_LINK_LOCAL : ip_network := v4net 169 254 0 0 16.
Definition V4_RESERVED : ip_network := v4net 240 0 0 0 4.

Definition V4_PRIVATE : list ip_network :=
  [v4net 0 0 0 0 8; v4net 10 0 0 0 8; v4net 127 0 0 0 8; v4net 169 254 0 0 16; v4net 172 16 0 0 12; v4net 192 0 0 0 24;
   v4net 192 0 0 170 31; v4net 192 0 2 0 24; v4net 192 168 0 0 16; v4net 198 18 0 0 15; v4net 198 51 100 0 24;
   v4net 203 0 113 0 24; v4net 240 0 0 0 4; v4net 255 255 255 255 32].

Definition V4_PRIVATE_EXCEPTIONS : list ip_network := [v4net 192 0 0 9 32; v4net 192 0 0 10 32].

Definition V6_LINK_LOCAL : ip_network := v6net 0xfe800000000000000000000000000000 10.

Definition V6_PRIVATE : list ip_network :=
  [v6net 1 128; v6net 0 128; v6net 0xffff00000000 96; v6net 0x0064ff9b000100000000000000000000 48;
   v6net 0x01000000000000000000000000000000 64; v6net 0x20010000000000000000000000000000 23;
   v6net 0x20010db8000000000000000000000000 32; v6net 0xfc000000000000000000000000000000 7; V6_LINK_LOCAL].

Definition V6_PRIVATE_EXCEPTIONS : list ip_network :=
  [v6net 0x20010001000000000000000000000001 128; v6net 0x20010001000000000000000000000002 128;
   v6net 0x20010003000000000000000000000000 32; v6net 0x20010004011200000000000000000000 48;
   v6net 0x20010020000000000000000000000000 28; v6net 0x20010030000000000000000000000000 28].

Definition V6_RESERVED : list ip_network :=
  [v6net 0 8; v6net 0x01000000000000000000000000000000 8; v6net 0x02000000000000000000000000000000 7;
   v6net 0x04000000000000000000000000000000 6; v6net 0x08000000000000000000000000000000 5;
   v6net 0x10000000000000000000000000000000 4; v6net 0x40000000000000000000000000000000 3;
   v6net 0x60000000000000000000000000000000 3; v6net 0x80000000000000000000000000000000 3;
   v6net 0xa0000000000000000000000000000000 3; v6net 0xc0000000000000000000000000000000 3;
   v6net 0xe0000000000000000000000000000000 4; v6net 0xf0000000000000000000000000000000 5;
   v6net 0xf8000000000000000000000000000000 6; v6net 0xfe000000000000000000000000000000 9].

(** [ipv4_mapped], [sixtofour] and [teredo] *)
Definition ipv4_mapped (n : Z) : option Z := if Z.shiftr n 32 =? 0xffff then Some (Z.land n 0xffffffff) else None.
Definition sixtofour (n : Z) : option Z :=
  if Z.shiftr n 112 =? 0x2002 then Some (Z.land (Z.shiftr n 80) 0xffffffff) else None.
Definition teredo (n : Z) : option (Z * Z) :=
  if Z.shiftr n 96 =? 0x20010000
  then Some (Z.land (Z.shiftr n 64) 0xffffffff, Z.land (Z.lnot n) 0xffffffff) else None.

Definition is_loopback (a : ip_address) : bool :=
  match a with IPv4 _ => in_network a V4_LOOPBACK | IPv6 n _ => n =? 1 end.

Definition is_link_local (a : ip_address) : bool :=
  match a with IPv4 _ => in_network a V4_LINK_LOCAL | IPv6 _ _ => in_network a V6_LINK_LOCAL end.

Definition is_reserved (a : ip_address) : bool :=
  match a with IPv4 _ => in_network a V4_RESERVED | IPv6 _ _ => in_any a V6_RESERVED end.

Definition is_private_v4 (a : ip_address) : bool := in_any a V4_PRIVATE && negb (in_any a V4_PRIVATE_EXCEPTIONS).

Definition is_private (a : ip_address) : bool :=
  match a with
  | IPv4 _ => is_private_v4 a
  | IPv6 n _ => match ipv4_mapped n with
                | Some m => is_private_v4 (IPv4 m)
                | None => in_any a V6_PRIVATE && negb (in_any a V6_PRIVATE_EXCEPTIONS)
                end
  end.

(** * Lemmas *)

Example parse_examples :
  map parse_ip ["127.0.0.1"; "::1"; "fd00:ec2::254%eth0"; "::ffff:10.0.0.1"; "010.0.0.1"; "1::2::3"; "fe80::%"]
  = [Some (IPv4 2130706433); Some (IPv6 1 None); Some (IPv6 0xfd000ec2000000000000000000000254 (Some "eth0"));
     Some (IPv6 0xffff0a000001 None); None; None; None].
Proof. vm_compute. reflexivity. Qed.

Example text_examples :
  map ip_text [IPv4 2130706433; IPv6 1 None; IPv6 0 None; IPv6 0xfd000ec2000000000000000000000254 (Some "eth0");
               IPv6 0x00010002000000000005000600000008 None]
  = ["127.0.0.1"; "::1"; "::"; "fd00:ec2::254%eth0"; "1:2::5:6:0:8"].
Proof. vm_compute. reflexivity. Qed.

Example network_examples :
  map parse_network ["10.1.2.3/8"; "10.0.0.0/255.0.0.0"; "10.0.0.0/0.255.255.255"; "2001:db8::1/32"; "10.0.0.0/33"; "h/8"]
  = [Some (v4net 10 0 0 0 8); Some (v4net 10 0 0 0 8); Some (v4net 10 0 0 0 8);
     Some (v6net 0x20010db8000000000000000000000000 32); None; None].
Proof. vm_compute. reflexivity. Qed.
