(* ===== verification/UrlGuard.v ===== *)
(** The guard on outbound URLs, [util/url_allowlist.py]: a URL is parsed, its host
    resolved, and every address, with every IPv4 address hidden in it, compared with
    the lists of what may not be contacted.

    [urlparse] is the one of CPython 3.11, on ASCII text.  The resolver and the
    environment are parameters: [resolve host] is the list of the address texts
    [getaddrinfo] returns, [None] when it raises; an entry without a text, which the
    code skips, is not in the list. *)
From Stdlib Require Import ZArith Lia Ascii.
From stdpp Require Import base tactics strings list pretty.
From S2P Require Import Prelude PyStr PyVal IpAddr.

Local Open Scope Z_scope.
Local Open Scope quirk_scope.

(** * [urllib.parse] *)

Record url_parts := { u_scheme : string; u_netloc : string; u_path : string }.

Definition is_c0_or_space (c : ascii) : bool := (nat_of_ascii c <=? 32)%nat.
Definition is_unsafe_byte (c : ascii) : bool := match nat_of_ascii c with 9 | 10 | 13 => true | _ => false end%nat.
Definition is_alpha (c : ascii) : bool := is_lower c || is_upper c.
Definition is_scheme_char (c : ascii) : bool := is_alpha c || is_digit c || contains "+-." (str1 c).

(** The scheme, lower-cased, and the rest of the URL. *)
Definition split_scheme (url : string) : string * string :=
  match split_once ":"%char url, url with
  | Some (pre, rest), String c _ =>
      if truthy_str (Some pre) && is_alpha c && every is_scheme_char pre then (lower pre, rest) else (EmptyString, url)
  | _, _ => (EmptyString, url)
  end.

Definition is_netloc_end (c : ascii) : bool := contains "/?#" (str1 c).

(** The part before the first character satisfying [p], and the rest from it on. *)
Fixpoint span_until (p : ascii -> bool) (s : string) : string * string :=
  match s with
  | EmptyString => (EmptyString, EmptyString)
  | String c s' => if p c then (EmptyString, s) else let '(a, b) := span_until p s' in (String c a, b)
  end.

(** [str.partition] and what follows the last separator, [str.rpartition(sep)[2]]. *)
Definition before (sep : ascii) (s : string) : string :=
  match split_once sep s with Some (a, _) => a | None => s end.
Definition after (sep : ascii) (s : string) : string :=
  match split_once sep s with Some (_, b) => b | None => EmptyString end.
Definition after_last (sep : ascii) (s : string) : string :=
  match rsplit_once sep s with Some (_, b) => b | None => s end.

Definition INVALID_IPV6_URL : pyexn := ValueError "Invalid IPv6 URL".

(** [_check_bracketed_host]: an address of version 6, or of a future version. *)
Definition check_bracketed_host (h : string) : pyres unit :=
  if startswith h "v" then
    let v := before "."%char (str_drop 1 h) in
    if truthy_str (Some v) && every is_hex_digit v && truthy_str (Some (after "."%char h)) then Ok tt
    else Raise (ValueError "IPvFuture address is invalid")
  else match parse_ip h with
       | Some (IPv6 _ _) => Ok tt
       | Some (IPv4 _) => Raise (ValueError "An IPv4 address cannot be in brackets")
       | None => Raise (ValueError "does not appear to be an IPv4 or IPv6 address")
       end.

(** [_check_bracketed_netloc] *)
Definition check_bracketed_netloc (netloc : string) : pyres unit :=
  let hostinfo := after_last "@"%char netloc in
  match split_once "["%char hostinfo with
  | Some (before_bracket, bracketed) =>
      let port := after "]"%char bracketed in
      if truthy_str (Some before_bracket) then Raise INVALID_IPV6_URL
      else if truthy_str (Some port) && negb (startswith port ":") then Raise INVALID_IPV6_URL
      else check_bracketed_host (before "]"%char bracketed)
  | None => check_bracketed_host (before ":"%char hostinfo)
  end.

(** [_splitparams]: the parameters of the last segment of the path. *)
Definition path_without_params (path : string) : string :=
  match rsplit_once "/"%char path with
  | Some (front, segment) => front +:+ "/" +:+ before ";"%char segment
  | None => before ";"%char path
  end.

Definition uses_params : list string :=
  [EmptyString; "ftp"; "hdl"; "prospero"; "http"; "imap"; "https"; "shttp"; "rtsp"; "rtspu"; "sip"; "sips"; "mms";
   "sftp"; "tel"].

Definition urlparse (url : string) : pyres url_parts :=
  let url := remove_chars is_unsafe_byte (lstrip_by is_c0_or_space url) in
  let '(scheme, rest) := split_scheme url in
  let '(netloc, rest) := if startswith rest "//" then span_until is_netloc_end (str_drop 2 rest) else (EmptyString, rest) in
  let opens := contains netloc "[" in
  let closes := contains netloc "]" in
  let! _ := if xorb opens closes then Raise INVALID_IPV6_URL
            else if opens then check_bracketed_netloc netloc else Ok tt in
  let path := before "?"%char (before "#"%char rest) in
  Ok {| u_scheme := scheme; u_netloc := netloc;
        u_path := if str_in scheme uses_params then path_without_params path else path |}.

(** [_hostinfo] *)
Definition hostinfo (u : url_parts) : string * string :=
  let h := after_last "@"%char (u_netloc u) in
  match split_once "["%char h with
  | Some (_, bracketed) => (before "]"%char bracketed, after ":"%char (after "]"%char bracketed))
  | None => (before ":"%char h, after ":"%char h)
  end.

(** [hostname]: lower-cased up to the zone; empty where the code has [None]. *)
Definition hostname (u : url_parts) : string :=
  let h := (hostinfo u).1 in
  match split_once "%"%char h with
  | Some (name, zone) => lower name +:+ "%" +:+ zone
  | None => lower h
  end.

Definition port (u : url_parts) : pyres (option Z) :=
  let p := (hostinfo u).2 in
  if negb (truthy_str (Some p)) then Ok None
  else if every is_digit p then
    match int_of_str p with
    | Some n => if n <=? 65535 then Ok (Some n) else Raise (ValueError "Port out of range 0-65535")
    | None => Raise (ValueError "Exceeds the limit for integer string conversion")
    end
  else Raise (ValueError "Port could not be cast to integer value").

(** * The verdict *)

Record ValidationResult := { ok : bool; reason : string; redacted_preview : string; resolved_ip : string }.

#[export] Instance ValidationResult_eq_dec : EqDecision ValidationResult.
Proof. solve_decision. Defined.

Definition RC_INTERNAL_IP : string := "internal_ip".
Definition RC_LOOPBACK : string := "loopback".
Definition RC_LINK_LOCAL : string := "link_local".
Definition RC_METADATA_SERVICE_IP : string := "metadata_service_ip".
Definition RC_SCHEME_PREFIX : string := "scheme_prefix".
Definition RC_DNS_FAILURE : string := "dns_failure".
Definition RC_CONSOLE_ENDPOINT : string := "console_endpoint".

Definition METADATA_IPS : list ip_address :=
  [IPv4 0xa9fea9fe; IPv6 0xfd000ec2000000000000000000000254 None; IPv4 0x646464c8].
Definition METADATA_HOSTS : list string := ["metadata.google.internal"; "metadata"; "metadata.goog"].
Definition ALLOWED_SCHEMES : list string := ["http"; "https"].

Definition NAT64_WKP : ip_network := v6net 0x0064ff9b000000000000000000000000 96.
Definition NAT64_LOCAL : ip_network := v6net 0x0064ff9b000100000000000000000000 48.
Definition V4_COMPATIBLE : ip_network := v6net 0 96.
Definition V4_TRANSLATED : ip_network := v6net 0xffff000000000000 96.
Definition RFC6052_LAYOUTS : list (Z * list (Z * Z)) :=
  [(48, [(48, 16); (72, 16)]); (56, [(56, 8); (72, 24)]); (64, [(72, 32)]); (96, [(96, 32)])].

(** ** The preview *)

Definition is_ctrl (c : ascii) : bool := ((nat_of_ascii c <=? 31) || (nat_of_ascii c =? 127))%nat.

(** The characters [[^/@]*@] takes from here, where it matches. *)
Fixpoint userinfo_length (s : string) : option nat :=
  match s with
  | EmptyString => None
  | String c s' => if bool_decide (c = "@"%char) then Some 1%nat
                   else if bool_decide (c = "/"%char) then None else S <$> userinfo_length s'
  end.

(** [re.sub(r"//[^/@]*@", "//", s)]; [skip] characters of the last match are still to
    be passed. *)
Fixpoint strip_userinfo (skip : nat) (s : string) : string :=
  match s with
  | EmptyString => EmptyString
  | String c s' =>
      match skip with
      | S k => strip_userinfo k s'
      | O => match (if startswith s "//" then userinfo_length (str_drop 2 s) else None) with
             | Some n => "//" +:+ strip_userinfo (n + 1) s'
             | None => String c (strip_userinfo 0 s')
             end
      end
  end.

Definition PREVIEW_LEN : nat := 32.

(** The scheme, host, port and path of a URL that has a scheme and a host; [None] where
    the code falls back. *)
Definition rebuilt (cleaned : string) : pyres (option string) :=
  let! parsed := urlparse cleaned in
  if negb (truthy_str (Some (u_scheme parsed))) || negb (truthy_str (Some (hostname parsed))) then Ok None
  else
    let! p := port parsed in
    let netloc := match p with Some n => hostname parsed +:+ ":" +:+ pretty n | None => hostname parsed end in
    Ok (Some (u_scheme parsed +:+ "://" +:+ netloc +:+ u_path parsed)).

Definition redact_url_preview (raw : string) : string :=
  let cleaned := strip_userinfo 0 (remove_chars is_ctrl raw) in
  match rebuilt cleaned with
  | Ok (Some s) => str_take PREVIEW_LEN s
  | Ok None | Raise _ => str_take PREVIEW_LEN cleaned
  end.

Definition reject (rc url : string) : ValidationResult :=
  {| ok := false; reason := rc; redacted_preview := redact_url_preview url; resolved_ip := EmptyString |}.

(** ** The addresses inside an address *)

Definition strip_zone_id (addr : string) : string := before "%"%char addr.

Definition bits (value first count : Z) : Z := Z.land (Z.shiftr value (128 - first - count)) (Z.ones count).

Definition layout_value (value : Z) (parts : list (Z * Z)) : Z :=
  foldl (fun v4 p => Z.lor (Z.shiftl v4 p.2) (bits value p.1 p.2)) 0 parts.

Definition low32 (value : Z) : Z := Z.land value 0xffffffff.

(** [list(dict.fromkeys(l))]: the first of each value, in order. *)
Fixpoint first_of_each (seen l : list Z) : list Z :=
  match l with
  | [] => []
  | x :: rest => if bool_decide (x ∈ seen) then first_of_each seen rest else x :: first_of_each (x :: seen) rest
  end.

Definition embedded_ipv4s (ip : ip_address) : list ip_address :=
  match ip with
  | IPv4 _ => []
  | IPv6 value _ =>
      let out :=
        match ipv4_mapped value with Some n => [n] | None => [] end
        ++ match sixtofour value with Some n => [n] | None => [] end
        ++ match teredo value with Some (server, client) => [server; client] | None => [] end
        ++ (if in_network ip NAT64_WKP || in_network ip V4_TRANSLATED then [low32 value] else [])
        ++ (if in_network ip V4_COMPATIBLE && (1 <? value) then [low32 value] else [])
        ++ (if in_network ip NAT64_LOCAL then map (fun l => layout_value value l.2) RFC6052_LAYOUTS else []) in
      map IPv4 (first_of_each [] out)
  end.

Definition candidates (ip : ip_address) : list ip_address := ip :: embedded_ipv4s ip.

Section Guard.
Context (env : string -> option string) (resolve : string -> option (list string)).

(** ** The console's own endpoint *)

Definition get_console_endpoint : option (string * Z) :=
  let host := strip (str_or_empty (env "QUIRK_SERVE_HOST")) in
  let port_raw := strip (str_or_empty (env "QUIRK_SERVE_PORT")) in
  if negb (truthy_str (Some host)) || negb (truthy_str (Some port_raw)) then None
  else match int_of_str port_raw with Some p => Some (host, p) | None => None end.

(** The addresses of the console's host: none from the resolver if one cannot be read,
    and the host itself when it is an address. *)
Definition console_ips (host : string) : list ip_address :=
  match resolve host with
  | Some texts => default [] (mapM (fun t => parse_ip (strip_zone_id t)) texts)
  | None => []
  end ++ match parse_ip host with Some a => [a] | None => [] end.

Definition is_console (url_port : Z) (cs : list ip_address) : bool :=
  match get_console_endpoint with
  | Some (host, p) => (url_port =? p) && existsb (fun c => bool_decide (c ∈ console_ips host)) cs
  | None => false
  end.

Definition classify_ip (ip : ip_address) (url : string) (allow_internal : bool) (url_port : Z) : option ValidationResult :=
  let cs := candidates ip in
  if existsb (fun c => bool_decide (c ∈ METADATA_IPS)) cs then Some (reject RC_METADATA_SERVICE_IP url)
  else if is_console url_port cs then Some (reject RC_CONSOLE_ENDPOINT url)
  else if allow_internal then None
  else if existsb is_loopback cs then Some (reject RC_LOOPBACK url)
  else if existsb is_link_local cs then Some (reject RC_LINK_LOCAL url)
  else if existsb (fun c => is_private c || is_reserved c) cs then Some (reject RC_INTERNAL_IP url)
  else None.

(** ** The validation *)

(** The addresses to check: the literal, or all the resolver returns; [None] when there
    are none or one cannot be read. *)
Definition addresses_of (host : string) : option (list ip_address) :=
  match parse_ip host with
  | Some a => Some [a]
  | None =>
      texts ← resolve host;
      addrs ← mapM (fun t => parse_ip (strip_zone_id t)) texts;
      match addrs with [] => None | _ => Some addrs end
  end.

Definition url_host (parsed : url_parts) : string := lower (hostname parsed).

Definition url_port (parsed : url_parts) : pyres Z :=
  let! p := port parsed in
  Ok (default (if str_eqb (u_scheme parsed) "https" then 443 else 80) p).

(** The first rejection of the addresses in turn. *)
Fixpoint first_rejection (url : string) (allow_internal : bool) (p : Z) (addrs : list ip_address) : option ValidationResult :=
  match addrs with
  | [] => None
  | a :: rest => match classify_ip a url allow_internal p with
                 | Some r => Some r
                 | None => first_rejection url allow_internal p rest
                 end
  end.

Definition validate_external_url (url : string) (allow_internal : bool) : pyres ValidationResult :=
  let! parsed := urlparse url in
  if negb (str_in (u_scheme parsed) ALLOWED_SCHEMES) then Ok (reject RC_SCHEME_PREFIX url)
  else if str_in (url_host parsed) METADATA_HOSTS then Ok (reject RC_METADATA_SERVICE_IP url)
  else match addresses_of (url_host parsed) with
       | None => Ok (reject RC_DNS_FAILURE url)
       | Some addrs =>
           match url_port parsed with
           | Raise _ => Ok (reject RC_SCHEME_PREFIX url)
           | Ok p => match first_rejection url allow_internal p addrs with
                     | Some r => Ok r
                     | None => Ok {| ok := true; reason := EmptyString; redacted_preview := EmptyString;
                                     resolved_ip := match addrs with a :: _ => ip_text a | [] => EmptyString end |}
                     end
           end
       end.
End Guard.
