(* ===== verification/UrlGuardProps.v ===== *)
(** What the guard on outbound URLs promises: no accepted URL reaches, under any of the
    ways an IPv6 address carries an IPv4 address, an address the guard must keep out. *)
From Stdlib Require Import ZArith Lia Ascii.
From stdpp Require Import base tactics strings list pretty.
From S2P Require Import Prelude PyStr PyVal IpAddr UrlGuard.

Local Open Scope Z_scope.
Local Open Scope quirk_scope.

(** * Bits *)

Lemma land_low32 x : Z.land x 0xffffffff = x mod 2 ^ 32.
Proof. exact (Z.land_ones x 32 ltac:(lia)). Qed.

Lemma low32_mod x : low32 x = x mod 2 ^ 32.
Proof. apply land_low32. Qed.

(** A netmask keeps the high bits. *)
Lemma land_netmask v p k : 0 <= p -> 0 <= k -> 0 <= v < 2 ^ (p + k) ->
  Z.land v (Z.shiftl (Z.ones p) k) = v / 2 ^ k * 2 ^ k.
Proof.
  intros Hp Hk Hv.
  rewrite <- Z.shiftl_mul_pow2, <- Z.shiftr_div_pow2 by lia.
  replace (Z.shiftr v k) with (Z.land (Z.shiftr v k) (Z.ones p)).
  2: { rewrite Z.land_ones, Z.shiftr_div_pow2 by lia. apply Z.mod_small. split; [apply Z.div_pos; lia|].
       apply Z.div_lt_upper_bound; [lia|]. rewrite <- Z.pow_add_r by lia. rewrite (Z.add_comm k p). lia. }
  rewrite Z.shiftl_land. apply Z.bits_inj'. intros i Hi. rewrite !Z.land_spec.
  destruct (Z.lt_ge_cases i k) as [H|H].
  - by rewrite !(Z.shiftl_spec_low _ _ _ H), andb_false_r.
  - rewrite !Z.shiftl_spec, Z.shiftr_spec by lia. by rewrite Z.sub_add.
Qed.

Lemma in_v6net v scope n p : 0 <= p <= 128 -> 0 <= v < 2 ^ 128 ->
  in_network (IPv6 v scope) (v6net n p) = (v / 2 ^ (128 - p) * 2 ^ (128 - p) =? n).
Proof.
  intros Hp Hv. change (in_network _ _) with (Z.land v (Z.shiftl (Z.ones p) (128 - p)) =? n).
  rewrite land_netmask; [reflexivity|lia|lia|]. by replace (p + (128 - p)) with 128 by lia.
Qed.

Lemma bits_div v first count : 0 <= count -> first + count <= 128 ->
  bits v first count = (v / 2 ^ (128 - first - count)) mod 2 ^ count.
Proof. intros. unfold bits. by rewrite Z.land_ones, Z.shiftr_div_pow2 by lia. Qed.

Lemma lor_shiftl a b k : 0 <= k -> 0 <= b < 2 ^ k -> Z.lor (Z.shiftl a k) b = a * 2 ^ k + b.
Proof.
  intros Hk Hb. rewrite <- Z.shiftl_mul_pow2 by lia.
  assert (H0 : Z.land (Z.shiftl a k) b = 0).
  { replace b with (Z.land b (Z.ones k)) by (rewrite Z.land_ones, Z.mod_small; lia).
    apply Z.bits_inj'. intros i Hi. rewrite !Z.land_spec, Z.bits_0. destruct (Z.lt_ge_cases i k) as [H|H].
    - by rewrite (Z.shiftl_spec_low _ _ _ H).
    - rewrite (Z.ones_spec_high k i) by lia. by rewrite !andb_false_r. }
  by rewrite Z.add_nocarry_lxor, Z.lxor_lor by exact H0.
Qed.

Lemma in_first_of_each seen l x : x ∈ l -> x ∉ seen -> x ∈ first_of_each seen l.
Proof.
  revert seen. induction l as [|y l IH]; intros seen Hx Hs; [by apply not_elem_of_nil in Hx|]. simpl.
  apply elem_of_cons in Hx as [<-|Hx].
  - rewrite bool_decide_false by done. left.
  - case_bool_decide; [by apply IH|]. destruct (decide (x = y)) as [->|Hne]; [left|]. right. apply IH; [done|].
    intros [?|?]%elem_of_cons; done.
Qed.

(** * The ways an IPv6 address carries an IPv4 address

    The layouts of RFC 4291 (mapped, compatible), RFC 2765 (translated), RFC 3056 (6to4),
    RFC 4380 (Teredo, server and client) and RFC 6052 (NAT64, the well-known prefix and
    each prefix length of the local one), written as the numbers they are; the bits that
    do not belong to the IPv4 address are arbitrary. *)
Definition LOCAL : Z := 0x64ff9b0001 * 2 ^ 80.

Inductive carries (n : Z) : Z -> Prop :=
| mapped : carries n (0xffff * 2 ^ 32 + n)
| compatible : 1 < n -> carries n n
| translated : carries n (0xffff0000 * 2 ^ 32 + n)
| nat64 : carries n (0x64ff9b * 2 ^ 96 + n)
| in_6to4 low : 0 <= low < 2 ^ 80 -> carries n (0x2002 * 2 ^ 112 + n * 2 ^ 80 + low)
| teredo_server low : 0 <= low < 2 ^ 64 -> carries n (0x20010000 * 2 ^ 96 + n * 2 ^ 64 + low)
| teredo_client mid : 0 <= mid < 2 ^ 64 -> carries n (0x20010000 * 2 ^ 96 + mid * 2 ^ 32 + (2 ^ 32 - 1 - n))
| local_48 u low : 0 <= u < 2 ^ 8 -> 0 <= low < 2 ^ 40 ->
    carries n (LOCAL + n / 2 ^ 16 * 2 ^ 64 + u * 2 ^ 56 + n mod 2 ^ 16 * 2 ^ 40 + low)
| local_56 a u low : 0 <= a < 2 ^ 8 -> 0 <= u < 2 ^ 8 -> 0 <= low < 2 ^ 32 ->
    carries n (LOCAL + a * 2 ^ 72 + n / 2 ^ 24 * 2 ^ 64 + u * 2 ^ 56 + n mod 2 ^ 24 * 2 ^ 32 + low)
| local_64 a u low : 0 <= a < 2 ^ 16 -> 0 <= u < 2 ^ 8 -> 0 <= low < 2 ^ 24 ->
    carries n (LOCAL + a * 2 ^ 64 + u * 2 ^ 56 + n * 2 ^ 24 + low)
| local_96 a : 0 <= a < 2 ^ 48 -> carries n (LOCAL + a * 2 ^ 32 + n).

(** The result of a division by a constant, found by [lia]. *)
Ltac div_lia := Z.to_euclidean_division_equations; lia.

Lemma carries_range n v : 0 <= n < 2 ^ 32 -> carries n v -> 0 <= v < 2 ^ 128.
Proof. intros Hn H. destruct H; unfold LOCAL; div_lia. Qed.

Lemma layout_two v a ca b cb : 0 <= ca -> 0 <= cb -> a + ca <= 128 -> b + cb <= 128 ->
  layout_value v [(a, ca); (b, cb)]
  = (v / 2 ^ (128 - a - ca)) mod 2 ^ ca * 2 ^ cb + (v / 2 ^ (128 - b - cb)) mod 2 ^ cb.
Proof.
  intros. unfold layout_value. simpl. rewrite !bits_div by lia. rewrite lor_shiftl.
  - rewrite Z.shiftl_0_l, Z.lor_0_l. done.
  - done.
  - apply Z.mod_pos_bound. lia.
Qed.

Lemma layout_one v a ca : 0 <= ca -> a + ca <= 128 ->
  layout_value v [(a, ca)] = (v / 2 ^ (128 - a - ca)) mod 2 ^ ca.
Proof. intros. unfold layout_value. simpl. by rewrite bits_div, Z.shiftl_0_l, Z.lor_0_l by lia. Qed.

(** The sources of the candidates, one lemma each. *)
Section Sources.
Context (v : Z) (scope : option string).
Hypothesis Hv : 0 <= v < 2 ^ 128.

Ltac source k :=
  apply list_elem_of_fmap; eexists; split; [reflexivity|];
  apply in_first_of_each; [rewrite !elem_of_app; k|apply not_elem_of_nil].

Lemma from_mapped n : v / 2 ^ 32 = 0xffff -> v mod 2 ^ 32 = n -> IPv4 n ∈ embedded_ipv4s (IPv6 v scope).
Proof.
  intros H <-. source ltac:(left). unfold ipv4_mapped. rewrite Z.shiftr_div_pow2, H, land_low32 by lia. left.
Qed.

Lemma from_6to4 n : v / 2 ^ 112 = 0x2002 -> (v / 2 ^ 80) mod 2 ^ 32 = n -> IPv4 n ∈ embedded_ipv4s (IPv6 v scope).
Proof.
  intros H <-. source ltac:(right; left). unfold sixtofour. rewrite !Z.shiftr_div_pow2, H, land_low32 by lia. left.
Qed.

Lemma from_teredo n : v / 2 ^ 96 = 0x20010000 -> n = (v / 2 ^ 64) mod 2 ^ 32 \/ n = (- v - 1) mod 2 ^ 32 ->
  IPv4 n ∈ embedded_ipv4s (IPv6 v scope).
Proof.
  intros H Hn. source ltac:(do 2 right; left). unfold teredo. rewrite !Z.shiftr_div_pow2, H, !land_low32 by lia.
  rewrite Z.lnot_eq_pred_opp. change (Z.pred (- v)) with (- v - 1) || replace (Z.pred (- v)) with (- v - 1) by lia.
  destruct Hn as [->| ->]; [left|right; left].
Qed.

Lemma from_low32 n : v / 2 ^ 32 = 0x64ff9b * 2 ^ 64 \/ v / 2 ^ 32 = 0xffff0000 -> v mod 2 ^ 32 = n ->
  IPv4 n ∈ embedded_ipv4s (IPv6 v scope).
Proof.
  intros H <-. source ltac:(do 3 right; left). unfold NAT64_WKP, V4_TRANSLATED. rewrite !in_v6net by lia.
  change (128 - 96) with 32. destruct H as [-> | ->]; rewrite low32_mod; left.
Qed.

Lemma from_compatible : v / 2 ^ 32 = 0 -> 1 < v -> IPv4 v ∈ embedded_ipv4s (IPv6 v scope).
Proof.
  intros H H1. source ltac:(do 4 right; left). unfold V4_COMPATIBLE. rewrite !in_v6net by lia.
  change (128 - 96) with 32. rewrite H, (proj2 (Z.ltb_lt 1 v) H1), low32_mod.
  replace (v mod 2 ^ 32) with v by div_lia. left.
Qed.

Lemma from_local n plen parts : v / 2 ^ 80 * 2 ^ 80 = LOCAL -> (plen, parts) ∈ RFC6052_LAYOUTS ->
  layout_value v parts = n -> IPv4 n ∈ embedded_ipv4s (IPv6 v scope).
Proof.
  intros Hp Hin <-. source ltac:(do 5 right). unfold NAT64_LOCAL. rewrite in_v6net by lia.
  change (128 - 48) with 80. rewrite Hp. change (LOCAL =? _) with true.
  apply list_elem_of_fmap. by exists (plen, parts).
Qed.
End Sources.

(** Every carried address is among those the guard looks at. *)
Lemma carried_is_embedded n v scope : 0 <= n < 2 ^ 32 -> carries n v -> IPv4 n ∈ embedded_ipv4s (IPv6 v scope).
Proof.
  intros Hn H. pose proof (carries_range _ _ Hn H) as Hv.
  destruct H as [|H1| | |low Hl|low Hl|mid Hm|u low Hu Hl|a u low Ha Hu Hl|a u low Ha Hu Hl|a Ha].
  - apply from_mapped; div_lia.
  - apply from_compatible; [exact Hv|div_lia|exact H1].
  - apply from_low32; [exact Hv|right|]; div_lia.
  - apply from_low32; [exact Hv|left|]; div_lia.
  - apply from_6to4; div_lia.
  - apply from_teredo; [div_lia|left; div_lia].
  - apply from_teredo; [div_lia|right; div_lia].
  - eapply (from_local _ scope Hv _ 48); [unfold LOCAL; div_lia|left|rewrite layout_two by lia; unfold LOCAL; div_lia].
  - eapply (from_local _ scope Hv _ 56); [unfold LOCAL; div_lia|right; left|rewrite layout_two by lia; unfold LOCAL; div_lia].
  - eapply (from_local _ scope Hv _ 64); [unfold LOCAL; div_lia|do 2 right; left|rewrite layout_one by lia; unfold LOCAL; div_lia].
  - eapply (from_local _ scope Hv _ 96); [unfold LOCAL; div_lia|do 3 right; left|rewrite layout_one by lia; unfold LOCAL; div_lia].
Qed.

(** * The verdict *)

Section Guard.
Context (env : string -> option string) (resolve : string -> option (list string)).

(** What an accepted address and the IPv4 addresses it carries are not. *)
Record admissible (allow_internal : bool) (p : Z) (c : ip_address) : Prop := {
  ad_metadata : c ∉ METADATA_IPS;
  ad_console : forall host, get_console_endpoint env = Some (host, p) -> c ∉ console_ips resolve host;
  ad_external : allow_internal = false ->
    is_loopback c = false /\ is_link_local c = false /\ is_private c = false /\ is_reserved c = false }.

Lemma existsb_none {A} (q : A -> bool) l x : existsb q l = false -> x ∈ l -> q x = false.
Proof.
  intros H Hx. destruct (q x) eqn:E; [|done]. rewrite <- H. symmetry. apply existsb_exists.
  exists x. by rewrite <- list_elem_of_In.
Qed.

Lemma classify_passes ip url allow p : classify_ip env resolve ip url allow p = None ->
  forall c, c ∈ candidates ip -> admissible allow p c.
Proof.
  unfold classify_ip. intros H c Hc.
  destruct (existsb _ _) eqn:E1 in H; [done|]. destruct (is_console _ _ _ _) eqn:E2 in H; [done|]. split.
  - pose proof (existsb_none _ _ _ E1 Hc) as Hm. by apply bool_decide_eq_false in Hm.
  - intros host Hh. unfold is_console in E2. rewrite Hh, Z.eqb_refl in E2.
    pose proof (existsb_none _ _ _ E2 Hc) as Hm. by apply bool_decide_eq_false in Hm.
  - intros ->. destruct (existsb _ _) eqn:E3 in H; [done|]. destruct (existsb _ _) eqn:E4 in H; [done|].
    destruct (existsb _ _) eqn:E5 in H; [done|].
    pose proof (existsb_none _ _ _ E3 Hc). pose proof (existsb_none _ _ _ E4 Hc).
    pose proof (existsb_none _ _ _ E5 Hc) as [? ?]%orb_false_iff. auto.
Qed.

Lemma first_rejection_none url allow p addrs : first_rejection env resolve url allow p addrs = None ->
  forall ip c, ip ∈ addrs -> c ∈ candidates ip -> admissible allow p c.
Proof.
  induction addrs as [|a addrs IH]; simpl; intros H ip c Hip Hc; [by apply not_elem_of_nil in Hip|].
  destruct (classify_ip env resolve a url allow p) eqn:E; [done|]. apply elem_of_cons in Hip as [->|Hip]; [|by eapply IH].
  by eapply classify_passes.
Qed.

Lemma first_rejection_ok url allow p addrs r : first_rejection env resolve url allow p addrs = Some r -> ok r = false.
Proof.
  induction addrs as [|a addrs IH]; simpl; [done|].
  destruct (classify_ip env resolve a url allow p) eqn:E; [|done]. intros [= <-]. revert E. unfold classify_ip.
  repeat case_match; intros [= <-]; done.
Qed.

(** What acceptance means. *)
Lemma accepted_spec url allow r : validate_external_url env resolve url allow = Ok r -> ok r = true ->
  exists parsed addrs p, urlparse url = Ok parsed /\ u_scheme parsed ∈ ALLOWED_SCHEMES
    /\ url_host parsed ∉ METADATA_HOSTS /\ addresses_of resolve (url_host parsed) = Some addrs
    /\ url_port parsed = Ok p /\ first_rejection env resolve url allow p addrs = None
    /\ resolved_ip r = match addrs with a :: _ => ip_text a | [] => EmptyString end.
Proof.
  unfold validate_external_url. intros [parsed [Hp H]]%pbind_ok Hok. exists parsed.
  destruct (str_in (u_scheme parsed) ALLOWED_SCHEMES) eqn:E1; cbn [negb] in H; [|by injection H as <-].
  destruct (str_in (url_host parsed) METADATA_HOSTS) eqn:E2; [by injection H as <-|].
  destruct (addresses_of _ _) as [addrs|] eqn:E3; [|by injection H as <-].
  destruct (url_port parsed) as [p|] eqn:E4; [|by injection H as <-].
  destruct (first_rejection _ _ _ _ _ _) eqn:E5.
  - injection H as <-. apply first_rejection_ok in E5. congruence.
  - injection H as <-. exists addrs, p. apply str_in_elem in E1. unfold str_in in E2.
    apply bool_decide_eq_false in E2. done.
Qed.

(** The IPv4 address [n] can be reached at one of the addresses. *)
Definition reaches (addrs : list ip_address) (n : Z) : Prop :=
  IPv4 n ∈ addrs \/ exists v scope, IPv6 v scope ∈ addrs /\ carries n v.

(** An accepted URL: fetched over HTTP, from a host that is no alias of a metadata
    service, at addresses none of which is, or carries, one to keep out. *)
Record safe_at (url : string) (allow_internal : bool) (pinned : string) (parsed : url_parts) (addrs : list ip_address)
    (p : Z) : Prop := {
  sd_url : urlparse url = Ok parsed /\ url_port parsed = Ok p;
  sd_scheme : u_scheme parsed ∈ ALLOWED_SCHEMES;
  sd_host : url_host parsed ∉ METADATA_HOSTS;
  sd_addresses : addresses_of resolve (url_host parsed) = Some addrs;
  sd_pinned : ip_text <$> head addrs = Some pinned;
  sd_checked : forall a, a ∈ addrs -> admissible allow_internal p a;
  sd_carried : forall n, 0 <= n < 2 ^ 32 -> reaches addrs n -> admissible allow_internal p (IPv4 n) }.

Definition safe_destination (url : string) (allow_internal : bool) (pinned : string) : Prop :=
  exists parsed addrs p, safe_at url allow_internal pinned parsed addrs p.

Lemma addresses_nonempty host : addresses_of resolve host <> Some [].
Proof.
  unfold addresses_of. destruct (parse_ip host); [done|]. destruct (resolve host) as [ts|]; [|done]. simpl.
  by destruct (mapM _ ts) as [[|a l]|].
Qed.

End Guard.


(** The disguises of the metadata address, each rejected although internal targets are
    allowed. *)
Example disguises_rejected :
  forallb (fun h => match validate_external_url (fun _ => None) (fun _ => None) ("http://[" +:+ h +:+ "]/latest") true with
                    | Ok r => str_eqb (reason r) RC_METADATA_SERVICE_IP
                    | Raise _ => false
                    end)
    ["::ffff:169.254.169.254"; "::a9fe:a9fe"; "2002:a9fe:a9fe::1"; "64:ff9b::a9fe:a9fe"; "64:ff9b:1:a9fe:a9:fe00::";
     "2001:0:a9fe:a9fe::"; "fd00:ec2::254"] = true.
Proof. vm_compute. reflexivity. Qed.

(** A zone makes a literal unequal to the metadata address: with internal targets
    allowed, the address that is always to be rejected is accepted. *)
Example scoped_metadata_accepted :
  validate_external_url (fun _ => None) (fun _ => None) "http://[fd00:ec2::254%1]/latest" true
  = Ok {| ok := true; reason := ""; redacted_preview := ""; resolved_ip := "fd00:ec2::254%1" |}.
Proof. vm_compute. reflexivity. Qed.

(** A URL [urlparse] refuses makes the guard itself raise. *)
Example malformed_url_raises :
  validate_external_url (fun _ => None) (fun _ => None) "http://[::1/" false = Raise INVALID_IPV6_URL.
Proof. vm_compute. reflexivity. Qed.

(** The preview of a URL with an invalid port keeps the end of a password with an at
    sign. *)
Example preview_shows_password_tail :
  redact_url_preview "http://user:p@ss@host:99999/x" = "http://ss@host:99999/x".
Proof. vm_compute. reflexivity. Qed.

(** No preview is longer than its bound. *)
Lemma preview_bounded raw : (String.length (redact_url_preview raw) <= PREVIEW_LEN)%nat.
Proof. unfold redact_url_preview. destruct (rebuilt _) as [[s|]|]; apply str_take_length. Qed.
