(* ===== verification/Targets.v ===== *)
(** What a scan may be pointed at: [util/targets.py] (reading target lists),
    [util/target_trust.py] (the allowlist of trusted targets), [util/hosts.py] (loopback
    hosts) and [util/subprocess_input.py] (arguments of external tools).

    The file system, the resolver and the YAML reader are parameters: [realpath],
    [getcwd], [getsize] and [read_lines] ([None] where there is no such file), [resolve]
    as in [UrlGuard], and [load_kubeconfig path], the document of a regular file of at
    most a megabyte that parses, else [None]. *)
From Stdlib Require Import ZArith Lia Ascii.
From stdpp Require Import base tactics strings list pretty.
From S2P Require Import Prelude PyStr PyVal IpAddr UrlGuard.

Local Open Scope Z_scope.
Local Open Scope quirk_scope.

(** * Text *)

Definition hex_escape (n : nat) : string :=
  "\x" +:+ str1 (hex_char (Z.of_nat (n / 16)%nat)) +:+ str1 (hex_char (Z.of_nat (n mod 16)%nat)).

(** One character of [repr(s)], in quotes [q]. *)
Definition repr_char (q c : ascii) : string :=
  let n := nat_of_ascii c in
  if bool_decide (c = "\"%char) then "\\"
  else if bool_decide (c = q) then "\" +:+ str1 c
  else if (n =? 9)%nat then "\t" else if (n =? 10)%nat then "\n" else if (n =? 13)%nat then "\r"
  else if ((n <? 32) || (n =? 127))%nat then hex_escape n
  else str1 c.

(** [repr(s)] of ASCII text: in single quotes, unless it holds one and no double one. *)
Definition repr_str (s : string) : string :=
  let q := if contains s "'" && negb (contains s (str1 (chr 34))) then chr 34 else "'"%char in
  str1 q +:+ flat (repr_char q) s +:+ str1 q.

(** * Loopback hosts *)

Definition unbracket (h : string) : string := if startswith h "[" && endswith h "]" then str_drop 1 (str_drop_end 1 h) else h.

Definition is_loopback_host (host : string) : bool :=
  let h := lower (strip (unbracket (strip host))) in
  if negb (truthy_str (Some h)) then false
  else if str_eqb h "localhost" then true
  else match parse_ip (strip_zone_id h) with
       | None => false
       | Some ip => is_loopback ip || match ip with
                                      | IPv6 n _ => match ipv4_mapped n with Some m => is_loopback (IPv4 m) | None => false end
                                      | IPv4 _ => false
                                      end
       end.

(** * Target lists *)

Definition is_alnum (c : ascii) : bool := is_alpha c || is_digit c.

(** A label of [_HOSTNAME_RE]: 1 to 63 letters, digits and hyphens, no hyphen at an end. *)
Definition label_ok (l : string) : bool :=
  truthy_str (Some l) && (String.length l <=? 63)%nat && every (fun c => is_alnum c || bool_decide (c = "-"%char)) l
  && negb (startswith l "-") && negb (endswith l "-").

Definition hostname_ok (s : string) : bool := forallb label_ok (split_on "."%char s).

Definition RC_PATH_TRAVERSAL : string := "path_traversal".
Definition RC_PATH_NOT_ALLOWED_PREFIX : string := "path_not_allowed_prefix".
Definition RC_TARGET_FILE_TOO_LARGE : string := "target_file_too_large".
Definition RC_TARGET_FILE_TOO_MANY_LINES : string := "target_file_too_many_lines".

Definition BLOCKED_PREFIXES : list string := ["/etc"; "/proc"; "/sys"; "/dev"].
Definition MAX_FILE_SIZE : Z := 1048576.
Definition MAX_LINE_COUNT : Z := 10000.

(** The ways reading targets fails. *)
Inductive target_error :=
| InvalidTarget (token : string)
| InvalidHost (token : string)
| FileRejected (path reason : string)
| FileMissing (path : string).

#[export] Instance target_error_eq_dec : EqDecision target_error.
Proof. solve_decision. Defined.

Notation targets := (list string * list string)%type.

Definition add_targets (a b : targets) : targets := (a.1 ++ b.1, a.2 ++ b.2).

Section Files.
Context (realpath : string -> string) (getcwd : string) (getsize : string -> option Z)
  (read_lines : string -> option (list string)).

Definition load_targets_file (path : string) : target_error + string :=
  match read_lines path with
  | None => inl (FileMissing path)
  | Some lines =>
      inr (str_join "," (List.filter (fun t => truthy_str (Some t) && negb (startswith t "#")) (map strip lines)))
  end.

(** The checks on the path of an @file, in order. *)
Definition file_refusal (path : string) : option string :=
  let real := realpath path in
  let cwd := realpath getcwd in
  if negb (startswith real (cwd +:+ "/") || str_eqb real cwd) then Some RC_PATH_TRAVERSAL
  else if existsb (startswith real) BLOCKED_PREFIXES then Some RC_PATH_NOT_ALLOWED_PREFIX
  else if match getsize path with Some n => MAX_FILE_SIZE <? n | None => false end then Some RC_TARGET_FILE_TOO_LARGE
  else if match read_lines path with Some ls => MAX_LINE_COUNT <? Z.of_nat (length ls) | None => false end
  then Some RC_TARGET_FILE_TOO_MANY_LINES
  else None.

(** A token that is not an @file: a network, or a host; [in_file] tokens that begin with
    an at sign are hosts. *)
Definition parse_plain (token : string) : target_error + targets :=
  if startswith token "@" then inr ([token], [])
  else if contains token "/" then
    match parse_network token with Some _ => inr ([], [token]) | None => inl (InvalidTarget token) end
  else if hostname_ok token then inr ([token], [])
  else match parse_ip token with Some _ => inr ([token], []) | None => inl (InvalidHost token) end.

Definition tokens_of (raw : string) : list string :=
  List.filter (fun t => truthy_str (Some t)) (map strip (split_on ","%char raw)).

(** The loop over the tokens, which stops at the first error. *)
Fixpoint parse_all (parse : string -> target_error + targets) (tokens : list string) : target_error + targets :=
  match tokens with
  | [] => inr ([], [])
  | t :: rest => match parse t with
                 | inl e => inl e
                 | inr a => match parse_all parse rest with inl e => inl e | inr b => inr (add_targets a b) end
                 end
  end.

(** [parse_target_tokens(raw, _in_file=True)] *)
Definition parse_file_tokens (raw : string) : target_error + targets := parse_all parse_plain (tokens_of raw).

Definition parse_token (token : string) : target_error + targets :=
  if startswith token "@" then
    let path := str_drop 1 token in
    match file_refusal path with
    | Some reason => inl (FileRejected path reason)
    | None => match load_targets_file path with inl e => inl e | inr raw => parse_file_tokens raw end
    end
  else parse_plain token.

Definition parse_target_tokens (raw : string) : target_error + targets := parse_all parse_token (tokens_of raw).

(** [--targets-file]: the targets of the configuration are replaced. *)
Definition apply_targets_file_override (path : string) : target_error + targets :=
  match load_targets_file path with inl e => inl e | inr raw => parse_target_tokens raw end.
End Files.

(** ** The probe budget *)

Definition host_count_of (t : string) : Z :=
  if contains t "/" then match parse_network t with Some w => host_count w | None => 1 end else 1.

Definition projected_probe_count (targets : list string) (ports : list Z) : Z :=
  foldr (fun t n => host_count_of t + n) 0 targets * Z.of_nat (length ports).

Definition PROBE_THRESHOLD : Z := 10000.

(** Whether the scan goes on: [answer] is what the operator typed, [None] off a terminal. *)
Definition maybe_confirm_probe_budget (targets : list string) (ports : list Z) (answer : option string) : bool :=
  if projected_probe_count targets ports <=? PROBE_THRESHOLD then true
  else match answer with
       | Some a => str_in (lower (strip a)) ["y"; "yes"]
       | None => true
       end.

(** * Arguments of external tools *)

Record input_verdict := { v_ok : bool; v_reason : string; v_preview : string }.

#[export] Instance verdict_eq_dec : EqDecision input_verdict.
Proof. solve_decision. Defined.

Definition accept : input_verdict := {| v_ok := true; v_reason := EmptyString; v_preview := EmptyString |}.

Definition truncate_preview (raw : string) : string := str_take PREVIEW_LEN (remove_chars is_ctrl raw).

Definition refuse (reason raw : string) : input_verdict :=
  {| v_ok := false; v_reason := reason; v_preview := truncate_preview raw |}.

(** A character of [[;|&$`<>*?()\\\s]]. *)
Definition is_metachar (c : ascii) : bool := contains ";|&$`<>*?()\" (str1 c) || is_space c.

Definition has_metachar (s : string) : bool := negb (every (fun c => negb (is_metachar c)) s).

Definition RC_SHELL_METACHAR : string := "shell_metachar".
Definition RC_NONEXISTENT_PATH : string := "nonexistent_path".
Definition RC_INVALID_IMAGE_REF : string := "invalid_image_ref".
Definition RC_LEADING_DASH : string := "leading_dash".
Definition RC_PATH_SHAPED_REF : string := "path_shaped_ref".
Definition LOCAL_REF_PREFIXES : list string := ["dir:"; "file:"; "oci:"; "docker-daemon:"; "podman:"; "docker-archive:"].

Definition validate_repo_path (realpath : string -> string) (isdir : string -> bool) (p : string) : input_verdict :=
  if startswith p "-" then refuse RC_LEADING_DASH p
  else if contains p ".." || str_eqb p EmptyString then refuse RC_PATH_TRAVERSAL p
  else if has_metachar p then refuse RC_SHELL_METACHAR p
  else if contains (realpath p) ".." then refuse RC_PATH_TRAVERSAL p
  else if negb (isdir (realpath p)) then refuse RC_NONEXISTENT_PATH p
  else accept.

(** [_IMAGE_REF_RE], on text without white space. *)
Definition is_ref_char (c : ascii) : bool := is_alnum c || contains "._-/:@" (str1 c).

Definition image_ref_shaped (r : string) : bool :=
  match r with
  | String c _ => is_alnum c && every is_ref_char r && (String.length r <=? 255)%nat
  | EmptyString => false
  end.

Definition names_registry (segment : string) : bool :=
  contains segment "." || contains segment ":" || str_eqb segment "localhost".

Definition validate_image_ref (r : string) : input_verdict :=
  if startswith r "-" then refuse RC_LEADING_DASH r
  else if existsb (startswith r) LOCAL_REF_PREFIXES then refuse RC_INVALID_IMAGE_REF r
  else if has_metachar r then refuse RC_SHELL_METACHAR r
  else if negb (image_ref_shaped r) then refuse RC_INVALID_IMAGE_REF r
  else if contains r "/" && negb (names_registry (before "/"%char r)) then refuse RC_PATH_SHAPED_REF r
  else accept.

(** * Trusted targets *)

Definition RC_NOT_IN_ALLOWLIST : string := "not_in_trusted_targets".

(** How a connector field is checked. *)
Inductive disposition := Checked | CheckedRegistry | CheckedKubeconfig | Exempt.

Definition CONNECTOR_HOST_FIELD_DISPOSITION : list (string * disposition) :=
  [("jwt_targets", Checked); ("saml_targets", Checked); ("kerberos_targets", Checked); ("dnssec_targets", Checked);
   ("smime_targets", Checked); ("adcs_targets", Checked); ("codesign_targets", Checked); ("pg_targets", Checked);
   ("mysql_targets", Checked); ("broker_targets", Checked); ("vault_addr", Checked); ("aws_endpoint_url", Checked);
   ("azure_keyvault_urls", Checked); ("container_targets", CheckedRegistry); ("k8s_kubeconfig", CheckedKubeconfig);
   ("dnssec_resolver", Exempt); ("source_targets", Exempt); ("broker_azure_namespaces", Exempt);
   ("broker_sqs_regions", Exempt); ("gke_clusters", Exempt); ("aks_clusters", Exempt)].

(** [x or y] on texts. *)
Definition text_or (x y : string) : string := if truthy_str (Some x) then x else y.

(** The host of a text: of a URL, of [[v6]:port], of [host:port]; else the text. *)
Definition host_in_text (value : string) : option string :=
  let candidate := strip value in
  if negb (truthy_str (Some candidate)) then None
  else Some
    (if contains candidate "://" then
       text_or (match urlparse candidate with Ok u => hostname u | Raise _ => EmptyString end) candidate
     else if startswith candidate "[" then
       (* up to the bracket, else the whole *)
       text_or (match split_once "]"%char candidate with Some (a, _) => strip (str_drop 1 a) | None => candidate end) candidate
     else match split_on ":"%char candidate with
          | [h; _] => text_or (strip h) candidate
          | _ => candidate
          end).

(** [_extract_host]: a text, or the host of a mapping or an object, whose attributes are
    its entries. *)
Definition extract_host (v : pyval) : option string :=
  match v with
  | VStr s => host_in_text s
  | VDict d => match dict_get d "host" with Some (VStr s) => host_in_text s | _ => None end
  | _ => None
  end.

Definition registry_host (v : pyval) : option string :=
  match v with
  | VStr s =>
      match split_once "/"%char (strip s) with
      | Some (first, _) =>
          if names_registry first then
            Some (match rsplit_once ":"%char first with
                  | Some (h, _) => if startswith first "[" then first else h
                  | None => first
                  end)
          else None
      | None => None
      end
  | _ => None
  end.

Section Trust.
Context (resolve : string -> option (list string)) (load_kubeconfig : string -> option pyval).

(** The addresses of a host: itself, or all the resolver returns, each readable. *)
Definition candidate_ips (host : string) : option (list ip_address) :=
  match parse_ip host with
  | Some a => Some [a]
  | None => texts ← resolve host; mapM parse_ip texts
  end.

Definition trust_refusal (host : string) : input_verdict :=
  {| v_ok := false; v_reason := RC_NOT_IN_ALLOWLIST; v_preview := str_take PREVIEW_LEN host |}.

(** The network of an entry that has a slash and reads as one. *)
Definition entry_network (entry : string) : option ip_network :=
  if contains entry "/" then parse_network entry else None.

Definition is_target_trusted (host : string) (trusted : list string) : input_verdict :=
  match trusted with
  | [] => accept
  | _ =>
      if str_in host trusted then accept
      else match candidate_ips host with
           | None => trust_refusal host
           | Some ips =>
               if existsb (fun w => existsb (fun a => in_network a w) ips) (omap entry_network trusted) then accept
               else trust_refusal host
           end
  end.

(** The servers of a kubeconfig; a file that is not one counts as its own path. *)
Definition cluster_host (path : string) (entry : pyval) : string :=
  match entry with
  | VDict e => match dict_get e "cluster" with
               | Some (VDict c) => match dict_get c "server" with
                                   | Some (VStr s) => text_or (str_or_empty (host_in_text s)) path
                                   | _ => path
                                   end
               | _ => path
               end
  | _ => path
  end.

Definition kubeconfig_server_hosts (v : pyval) : list string :=
  match v with
  | VStr s =>
      let path := strip s in
      if negb (truthy_str (Some path)) then []
      else match load_kubeconfig path with
           | Some (VDict d) => match dict_get d "clusters" with
                               | Some (VList (e :: es)) => map (cluster_host path) (e :: es)
                               | _ => [path]
                               end
           | _ => [path]
           end
  | _ => []
  end.

Definition field_values (connectors : pydict) (name : string) : list pyval :=
  match dict_get connectors name with
  | None | Some VNone => []
  | Some (VList l) => l
  | Some v => [v]
  end.

Definition hosts_of_value (d : disposition) (v : pyval) : list string :=
  match d with
  | Checked => List.filter (fun h => truthy_str (Some h)) (option_list (extract_host v))
  | CheckedRegistry => List.filter (fun h => truthy_str (Some h)) (option_list (registry_host v))
  | CheckedKubeconfig => kubeconfig_server_hosts v
  | Exempt => []
  end.

Definition connector_host_values (connectors : pydict) : list (string * string) :=
  concat (map (fun f => concat (map (fun v => map (pair f.1) (hosts_of_value f.2 v)) (field_values connectors f.1)))
              CONNECTOR_HOST_FIELD_DISPOSITION).

(** The targets of a configuration the gate looks at. *)
Record gate_config := {
  gc_trusted : list string;
  gc_fqdns : list string;
  gc_cidrs : list string;
  gc_include_ips : list string;
  gc_connectors : pydict }.

Definition NOT_TRUSTED : string := " is not in the trusted-targets allowlist (security.trusted_targets in config.yaml).".

Definition check_target (trusted : list string) (where_ : string) (host : string) : pyres unit :=
  let r := is_target_trusted host trusted in
  if v_ok r then Ok tt else Raise (ValueError ("Target " +:+ repr_str (v_preview r) +:+ where_ +:+ NOT_TRUSTED)).

Definition plain_targets (cfg : gate_config) : list string := gc_fqdns cfg ++ gc_cidrs cfg ++ gc_include_ips cfg.

Definition enforce_trusted_targets (cfg : gate_config) : pyres unit :=
  match gc_trusted cfg with
  | [] => Ok tt
  | trusted =>
      let! _ := ptraverse (check_target trusted EmptyString) (plain_targets cfg) in
      let! _ := ptraverse (fun p => check_target trusted (" (connectors." +:+ p.1 +:+ ")") p.2)
                          (connector_host_values (gc_connectors cfg)) in
      Ok tt
  end.
End Trust.
