(* ===== verification/TargetsProps.v ===== *)
(** What reading targets yields, and what the gate of trusted targets lets through. *)
From Stdlib Require Import ZArith Lia Ascii.
From stdpp Require Import base tactics strings list pretty.
From S2P Require Import Prelude PyStr PyVal IpAddr UrlGuard Targets.

Local Open Scope Z_scope.
Local Open Scope quirk_scope.

(** * Reading *)

(** A host as the reader accepts it, from the command line and from a file. *)
Definition host_shaped (t : string) : Prop := hostname_ok t = true \/ is_Some (parse_ip t).

Definition network_shaped (t : string) : Prop := contains t "/" = true /\ is_Some (parse_network t).

Section Reading.
Context (realpath : string -> string) (getcwd : string) (getsize : string -> option Z)
  (read_lines : string -> option (list string)).

Notation parse_token := (parse_token realpath getcwd getsize read_lines).
Notation parse_target_tokens := (parse_target_tokens realpath getcwd getsize read_lines).

Lemma parse_plain_spec t a : parse_plain t = inr a ->
  (startswith t "@" = true /\ a = ([t], [])) \/ (network_shaped t /\ a = ([], [t])) \/ (host_shaped t /\ a = ([t], [])).
Proof.
  unfold parse_plain, network_shaped, host_shaped. intros H.
  destruct (startswith t "@"); [left; by injection H as <-|].
  destruct (contains t "/"); [destruct (parse_network t) eqn:E; [|done]; injection H as <-; right; left; eauto|].
  destruct (hostname_ok t); [injection H as <-; right; right; eauto|].
  destruct (parse_ip t) eqn:E; [|done]. injection H as <-. right; right; eauto.
Qed.

Lemma parse_plain_ok t : startswith t "@" = false ->
  is_ok (match parse_plain t with inr _ => Ok tt | inl _ => Raise INVALID_IPV6_URL end) = true
  <-> network_shaped t \/ (contains t "/" = false /\ host_shaped t).
Proof.
  intros Hat. unfold parse_plain, network_shaped, host_shaped. rewrite Hat.
  destruct (contains t "/").
  - destruct (parse_network t); simpl; split; [eauto|done|done|]. by intros [[_ [? ?]]|[? _]].
  - destruct (hostname_ok t); [simpl; split; eauto|]. destruct (parse_ip t); simpl; split; [eauto|done|done|].
    by intros [[? _]|[_ [?|[? ?]]]].
Qed.

(** What each token contributes adds up to the result, in order. *)
Lemma parse_all_ok parse tokens r :
  parse_all parse tokens = inr r <->
  exists parts, Forall2 (fun t a => parse t = inr a) tokens parts
                /\ r = (concat (map fst parts), concat (map snd parts)).
Proof.
  revert r. induction tokens as [|t tokens IH]; intros r; simpl.
  - split; [intros [= <-]; by exists []|]. intros (parts & Hf & ->). by apply Forall2_nil_inv_l in Hf as ->.
  - destruct (parse t) as [e|a] eqn:Ht.
    { split; [done|]. intros (parts & Hf & _). apply Forall2_cons_inv_l in Hf as (a & ? & Ha & _). congruence. }
    destruct (parse_all parse tokens) as [e|b] eqn:Hr.
    + split; [done|]. intros (parts & Hf & _). apply Forall2_cons_inv_l in Hf as (a' & ps & Ha & Hps & ->).
      assert (Hb : inl e = inr (concat (map fst ps), concat (map snd ps))) by (apply IH; eauto). done.
    + destruct (proj1 (IH b) eq_refl) as (ps & Hps & Hb). split.
      * intros [= <-]. exists (a :: ps). split; [by constructor|]. by rewrite Hb.
      * intros (parts & Hf & ->). apply Forall2_cons_inv_l in Hf as (a' & ps' & Ha & Hps' & ->).
        assert (a' = a) as -> by congruence. f_equal.
        assert (E : inr b = inr (concat (map fst ps'), concat (map snd ps'))) by (apply IH; eauto).
        by injection E as ->.
Qed.

Lemma plain_parts tokens parts : Forall2 (fun t a => parse_plain t = inr a) tokens parts ->
  concat (map fst parts) ++ concat (map snd parts) ≡ₚ tokens.
Proof.
  induction 1 as [|t a tokens parts Ha _ IH]; [done|]. simpl. rewrite <- IH.
  apply parse_plain_spec in Ha as [[_ ->]|[[_ ->]|[_ ->]]]; simpl; [done| |done]. by rewrite <- Permutation_middle.
Qed.

Lemma plain_shapes tokens parts : Forall2 (fun t a => parse_plain t = inr a) tokens parts ->
  (forall h, h ∈ concat (map fst parts) -> startswith h "@" = true \/ host_shaped h)
  /\ (forall c, c ∈ concat (map snd parts) -> network_shaped c).
Proof.
  induction 1 as [|t a tokens parts Ha _ [IH1 IH2]]; simpl; [split; intros ? H; by apply not_elem_of_nil in H|].
  split; intros x [Hx|Hx]%elem_of_app; auto; apply parse_plain_spec in Ha as [[? ->]|[[? ->]|[? ->]]]; simpl in Hx;
    try (by apply not_elem_of_nil in Hx); apply list_elem_of_singleton in Hx as ->; auto.
Qed.

(** Reading a list of targets without @files succeeds exactly when every token is
    a host name, an address or a network, and then each token is in one of the two
    lists: the networks in one, the hosts in the other, none lost and none added. *)
Theorem parse_targets_exact raw :
  (forall t, t ∈ tokens_of raw -> startswith t "@" = false) ->
  (is_ok (match parse_target_tokens raw with inr _ => Ok tt | inl _ => Raise INVALID_IPV6_URL end) = true
   <-> forall t, t ∈ tokens_of raw -> network_shaped t \/ (contains t "/" = false /\ host_shaped t))
  /\ forall fqdns cidrs, parse_target_tokens raw = inr (fqdns, cidrs) ->
       fqdns ++ cidrs ≡ₚ tokens_of raw
       /\ (forall h, h ∈ fqdns -> host_shaped h) /\ (forall c, c ∈ cidrs -> network_shaped c).
Proof.
  intros Hat.
  assert (Hsame : forall tokens, (forall t, t ∈ tokens -> startswith t "@" = false) ->
            parse_all parse_token tokens = parse_all parse_plain tokens).
  { induction tokens as [|t tokens IH]; intros H; [done|]. simpl. unfold Targets.parse_token at 1.
    rewrite (H t) by left. by rewrite IH by (intros u Hu; apply H; by right). }
  unfold Targets.parse_target_tokens. rewrite (Hsame _ Hat). split.
  - generalize dependent (tokens_of raw). clear. intros tokens Hat. induction tokens as [|t tokens IH]; simpl.
    { split; [|done]. intros _ t Ht. by apply not_elem_of_nil in Ht. }
    assert (Ht : is_ok (match parse_plain t with inr _ => Ok tt | inl _ => Raise INVALID_IPV6_URL end) = true
                 <-> network_shaped t \/ (contains t "/" = false /\ host_shaped t)).
    { apply parse_plain_ok, Hat. left. }
    destruct (parse_plain t) as [e|a]; simpl in Ht.
    + split; [done|]. intros H. apply Ht, H. left.
    + specialize (IH (fun u Hu => Hat u ltac:(by right))). destruct (parse_all parse_plain tokens) as [e|b]; simpl in IH |- *.
      * split; [done|]. intros H. apply IH. intros u Hu. apply H. by right.
      * split; [|done]. intros _ u [->|Hu]%elem_of_cons; [by apply Ht|by apply IH].
  - intros fqdns cidrs (parts & Hf & E)%parse_all_ok. injection E as -> ->.
    pose proof (plain_parts _ _ Hf) as Hp. destruct (plain_shapes _ _ Hf) as [H1 H2]. split; [done|]. split; [|done].
    intros h Hh. destruct (H1 h Hh) as [Hc|?]; [|done]. rewrite (Hat h) in Hc; [done|].
    rewrite <- Hp. apply elem_of_app. by left.
Qed.
End Reading.

(** The tokens of a file are not read as files, but those of [--targets-file] are: a line
    of that file names another one. *)
Definition two_files (path : string) : option (list string) :=
  if str_eqb path "list.txt" then Some ["@inner.txt"]
  else if str_eqb path "inner.txt" then Some ["db.example.com"; "# note"; "10.0.0.0/30"] else None.

Definition in_work (path : string) : string := if startswith path "/" then path else "/work/" +:+ path.

Example targets_file_nests :
  apply_targets_file_override in_work "/work" (fun _ => Some 20) two_files "list.txt"
  = inr (["db.example.com"], ["10.0.0.0/30"]).
Proof. vm_compute. reflexivity. Qed.

Example file_token_stays_a_host :
  parse_target_tokens in_work "/work" (fun _ => Some 20) two_files "@list.txt" = inr (["@inner.txt"], []).
Proof. vm_compute. reflexivity. Qed.

(** An image reference may climb out of its registry. *)
Example traversing_ref_accepted : validate_image_ref "x.y/../../etc/passwd" = accept.
Proof. vm_compute. reflexivity. Qed.

Lemma parse_targets_exact_witness :
  (forall t, t ∈ tokens_of "a.example.com, 10.0.0.0/8,::1" -> startswith t "@" = false)
  /\ exists fqdns cidrs, parse_target_tokens (fun p => p) "/" (fun _ => None) (fun _ => None) "a.example.com, 10.0.0.0/8,::1"
                         = inr (fqdns, cidrs) /\ fqdns ++ cidrs ≡ₚ tokens_of "a.example.com, 10.0.0.0/8,::1".
Proof.
  assert (H : forall t, t ∈ tokens_of "a.example.com, 10.0.0.0/8,::1" -> startswith t "@" = false).
  { change (tokens_of _) with ["a.example.com"; "10.0.0.0/8"; "::1"]. intros t Ht.
    repeat (apply elem_of_cons in Ht as [->|Ht]; [reflexivity|]). by apply not_elem_of_nil in Ht. }
  split; [exact H|]. eexists _, _. split; [vm_compute; reflexivity|].
  apply (parse_targets_exact (fun p => p) "/" (fun _ => None) (fun _ => None) _ H). vm_compute. reflexivity.
Defined.

(** * The gate *)

Section Gate.
Context (resolve : string -> option (list string)) (load_kubeconfig : string -> option pyval).

(** A host on the list, or one of whose addresses is in a network on the list. *)
Definition covered (trusted : list string) (host : string) : Prop :=
  host ∈ trusted
  \/ exists ips a entry w, candidate_ips resolve host = Some ips /\ a ∈ ips /\ entry ∈ trusted
                          /\ entry_network entry = Some w /\ in_network a w = true.

Lemma trusted_iff_covered host trusted : trusted <> [] ->
  v_ok (is_target_trusted resolve host trusted) = true <-> covered trusted host.
Proof.
  intros Hne. unfold is_target_trusted. destruct trusted as [|t ts]; [done|]. generalize (t :: ts). clear. intros l.
  unfold covered. destruct (str_in host l) eqn:Hin.
  { apply str_in_elem in Hin. simpl. split; [by left|done]. }
  assert (Hn : host ∉ l) by (intros H; apply str_in_elem in H; congruence).
  destruct (candidate_ips resolve host) as [ips|] eqn:Hc.
  2: { simpl. split; [done|]. by intros [?|(ips & a & e & w & ? & _)]. }
  destruct (existsb _ _) eqn:He; simpl; split; try done.
  - intros _. right. apply existsb_exists in He as (w & Hw & He). apply existsb_exists in He as (a & Ha & He).
    apply list_elem_of_In, list_elem_of_omap in Hw as (e & Hel & Hw). apply list_elem_of_In in Ha. eauto 10.
  - intros [?|(ips' & a & e & w & [= <-] & Ha & Hel & Hw & Hi)]; [done|]. apply not_true_iff_false in He. destruct He.
    apply existsb_exists. exists w. split; [apply list_elem_of_In, list_elem_of_omap; eauto|].
    apply existsb_exists. exists a. by rewrite <- list_elem_of_In.
Qed.

Lemma check_target_ok trusted where_ host u : check_target resolve trusted where_ host = Ok u <->
  u = tt /\ v_ok (is_target_trusted resolve host trusted) = true.
Proof. unfold check_target. destruct (v_ok _), u; split; try done; by intros [_ ?]. Qed.

Lemma ptraverse_unit {A} (f : A -> pyres unit) l : (exists us, ptraverse f l = Ok us) <-> forall x, x ∈ l -> f x = Ok tt.
Proof.
  split.
  - intros [us H]. apply ptraverse_ok in H. intros x Hx. apply list_elem_of_lookup in Hx as [i Hx].
    destruct (Forall2_lookup_l _ _ _ _ _ H Hx) as ([] & _ & E). exact E.
  - induction l as [|x l IH]; intros H; [by exists []|]. destruct IH as [us Hus]; [intros y Hy; apply H; by right|].
    exists (tt :: us). simpl. rewrite (H x) by left. simpl. by rewrite Hus.
Qed.

(** Every host a configuration names: its targets and those of its connectors. *)
Definition named_hosts (cfg : gate_config) : list string :=
  plain_targets cfg ++ map snd (connector_host_values load_kubeconfig (gc_connectors cfg)).

End Gate.

(** One address in a trusted network is enough: the others of the same name may be
    anywhere. *)
Example one_address_is_enough :
  v_ok (is_target_trusted (fun _ => Some ["10.0.0.5"; "203.0.113.9"]) "db.example.com" ["10.0.0.0/8"]) = true.
Proof. vm_compute. reflexivity. Qed.
