(* ===== verification/Server.v ===== *)
(** The dashboard server's doors: the reader of its configuration file
    ([util/server_config.py]), the startup check of [dashboard/server.py], the two
    dependencies every route carries ([middleware/auth.py], [middleware/csrf.py]), the
    response headers ([middleware/security_headers.py]) and the choice of the database
    ([deps.py]).

    What lies at the configuration's path is a value of [path_state]; the process's
    memory of populated paths is threaded.  [repr] is [str] of values that are not
    text, numbers or booleans; header texts are as Starlette decodes them (Latin-1). *)
From Stdlib Require Import ZArith Lia Ascii.
From stdpp Require Import base tactics strings list pretty.
From S2P Require Import Prelude PyStr PyVal IpAddr UrlGuard Siem.

Local Open Scope Z_scope.
Local Open Scope quirk_scope.

(** * The configuration file *)

(** What [stat], [open] and [yaml.safe_load] find; the reasons name the exception. *)
Inductive path_state :=
| Absent
| DanglingLink
| Unreachable (reason : string)
| Irregular
| Unreadable (reason : string)
| Parsed (v : pyval).

(** [(data, error)]: no file, an error, or the settings. *)
Inductive config_reading :=
| NoFile
| ReadError (reason : string)
| Settings (d : pydict).

Section Config.
Context (repr : pyval -> string) (env : string -> option string).

Definition server_config_path : string := default "./config.yaml" (env "QUIRK_CONFIG_PATH").

Definition read_once (path : string) (st : path_state) : config_reading :=
  match st with
  | Absent => NoFile
  | DanglingLink => ReadError (path +:+ ": dangling symbolic link")
  | Unreachable r | Unreadable r => ReadError (path +:+ ": " +:+ r)
  | Irregular => ReadError (path +:+ ": not a regular file")
  | Parsed VNone => Settings []
  | Parsed (VDict d) => Settings d
  | Parsed _ => ReadError (path +:+ ": top level is not a mapping")
  end.

(** The absolute paths read as populated so far; [abspath] is the one of [path]. *)
Notation memory := (list string).

Definition forgotten (path state : string) : config_reading :=
  ReadError (path +:+ ": " +:+ state +:+ " after this process read it with settings; restore the file or restart").

Definition read_server_config (abspath : string -> string) (path : string) (st : path_state) (m : memory)
    : config_reading * memory :=
  match read_once path st with
  | ReadError r => (ReadError r, m)
  | Settings ((_ :: _) as d) => (Settings d, if str_in (abspath path) m then m else abspath path :: m)
  | Settings [] => (if str_in (abspath path) m then forgotten path "empty" else Settings [], m)
  | NoFile => (if str_in (abspath path) m then forgotten path "missing" else NoFile, m)
  end.

Record TokenState := { token : string; ts_error : option string }.

Definition no_token : TokenState := {| token := EmptyString; ts_error := None |}.
Definition token_error (r : string) : TokenState := {| token := EmptyString; ts_error := Some r |}.

(** The token the [security] block names. *)
Definition token_in (path : string) (d : pydict) : TokenState :=
  match dict_get d "security" with
  | None | Some VNone => no_token
  | Some (VDict s) =>
      {| token := py_str repr (py_or (get_or s "api_token" (VStr EmptyString)) (VStr EmptyString)); ts_error := None |}
  | Some _ => token_error (path +:+ ": 'security' is not a mapping")
  end.

Definition resolve_operator_token (abspath : string -> string) (st : path_state) (m : memory) : TokenState * memory :=
  match env "QUIRK_API_TOKEN" with
  | Some (String _ _ as t) => ({| token := t; ts_error := None |}, m)
  | _ =>
      let path := server_config_path in
      let '(r, m) := read_server_config abspath path st m in
      (match r with
       | ReadError e => token_error e
       | NoFile | Settings [] => no_token
       | Settings d => token_in path d
       end, m)
  end.

Record ServerSecurity := { allow_internal_targets : bool; trusted_targets : list pyval; ss_error : option string }.

Definition default_security : ServerSecurity :=
  {| allow_internal_targets := false; trusted_targets := []; ss_error := None |}.
Definition security_error (r : string) : ServerSecurity :=
  {| allow_internal_targets := false; trusted_targets := []; ss_error := Some r |}.

(** [list(v)]: the elements, the keys or the characters; a number is not iterable. *)
Definition py_list (v : pyval) : pyres (list pyval) :=
  match v with
  | VList l => Ok l
  | VDict d => Ok (map (fun e => VStr e.1) d)
  | VStr s => Ok (map (fun c => VStr (str1 c)) (String.list_ascii_of_string s))
  | _ => Raise (TypeError "object is not iterable")
  end.

Definition load_server_security (abspath : string -> string) (st : path_state) (m : memory)
    : pyres ServerSecurity * memory :=
  let path := server_config_path in
  let '(r, m) := read_server_config abspath path st m in
  (match r with
   | ReadError e => Ok (security_error e)
   | NoFile | Settings [] => Ok default_security
   | Settings d =>
       match dict_get d "security" with
       | None | Some VNone => Ok default_security
       | Some (VDict s) =>
           let! l := py_list (py_or (get_or s "trusted_targets" VNone) (VList [])) in
           Ok {| allow_internal_targets := truthy (get_or s "allow_internal_targets" (VBool false));
                 trusted_targets := l; ss_error := None |}
       | Some _ => Ok (security_error (path +:+ ": 'security' is not a mapping"))
       end
   end, m).
End Config.

(** * Requests *)

(** The headers of a request the doors read; a missing [X-API-Key] is empty. *)
Record http_request := { rq_method : string; x_api_key : string; bearer : option string; csrf_header : option string }.

Definition is_ascii_char (c : ascii) : bool := (nat_of_ascii c <? 128)%nat.

(** [hmac.compare_digest] on texts, which must be ASCII. *)
Definition compare_digest (a b : string) : pyres bool :=
  if every is_ascii_char a && every is_ascii_char b then Ok (str_eqb a b)
  else Raise (TypeError "comparing strings with non-ASCII characters is not supported").

(** A dependency lets the request through ([None]) or answers with a status. *)
Definition check_token (given configured : string) : pyres (option Z) :=
  let! same := compare_digest given configured in Ok (if same then None else Some 401).

Definition require_auth (ts : TokenState) (rq : http_request) : pyres (option Z) :=
  match ts_error ts with
  | Some (String _ _) => Ok (Some 503)
  | _ =>
      if negb (truthy_str (Some (token ts))) then Ok None
      else if truthy_str (Some (x_api_key rq)) then check_token (x_api_key rq) (token ts)
      else match bearer rq with
           | None => Ok (Some 401)
           | Some given => check_token given (token ts)
           end
  end.

Definition CSRF_METHODS : list string := ["POST"; "PUT"; "DELETE"; "PATCH"].

Definition require_csrf (rq : http_request) : option Z :=
  if str_in (rq_method rq) CSRF_METHODS && negb (bool_decide (csrf_header rq = Some "1")) then Some 403 else None.

(** The dependencies of a router, in order: the first answer, else the route. *)
Definition admit_request (ts : TokenState) (rq : http_request) : pyres (option Z) :=
  let! a := require_auth ts rq in
  Ok (match a with Some s => Some s | None => require_csrf rq end).

(** * Starting *)

Definition LOOPBACK_HOSTS : list string := ["127.0.0.1"; "::1"; "localhost"].

Definition serves_loopback (host : string) : bool :=
  let h := lower (strip host) in
  str_in h LOOPBACK_HOSTS
  || match parse_ip (strip_zone_id h) with Some a => is_loopback a | None => false end.

Definition forwarded_allow_ips (env : string -> option string) : string :=
  let v := strip (str_or_empty (env "QUIRK_TRUST_PROXY")) in
  if truthy_str (Some v) then v else "127.0.0.1".

(** [os.environ[k] = v] *)
Definition set_env (k v : string) (env : string -> option string) : string -> option string :=
  fun k' => if str_eqb k' k then Some v else env k'.

(** The server exits, or runs with the environment it set. *)
Inductive started :=
| Exits (code : Z)
| Runs (env : string -> option string) (proxies : string).

Definition serve (env : string -> option string) (ts : TokenState) (port : Z) (host : string) (insecure : bool) : started :=
  match ts_error ts with
  | Some (String _ _) => Exits 2
  | _ =>
      let auth_on := truthy_str (Some (token ts)) in
      if negb (serves_loopback host) && negb auth_on && negb insecure then Exits 2
      else Runs (set_env "QUIRK_DASHBOARD_PORT" (pretty port)
                   (set_env "QUIRK_SERVE_HOST" host (set_env "QUIRK_SERVE_PORT" (pretty port) env)))
                (forwarded_allow_ips env)
  end.

(** * Response headers *)

Definition STATIC_HEADERS : list (string * string) :=
  [("X-Content-Type-Options", "nosniff"); ("X-Frame-Options", "DENY"); ("Referrer-Policy", "no-referrer");
   ("Permissions-Policy", "geolocation=(), microphone=(), camera=()");
   ("Content-Security-Policy", "default-src 'self'; script-src 'self'; style-src 'self' 'unsafe-inline'; object-src 'none'; base-uri 'self'")].

Definition HSTS_VALUE : string := "max-age=31536000; includeSubDomains".

Definition hsts_enabled (env : string -> option string) : bool :=
  str_in (lower (strip (str_or_empty (env "QUIRK_HSTS")))) ["1"; "true"; "yes"; "on"].

(** [headers.setdefault], by the name in any case. *)
Definition setdefault (headers : list (string * string)) (h : string * string) : list (string * string) :=
  if existsb (fun g => str_eqb (lower g.1) (lower h.1)) headers then headers else headers ++ [h].

Definition with_security_headers (env : string -> option string) (headers : list (string * string)) : list (string * string) :=
  let headers := foldl setdefault headers STATIC_HEADERS in
  if hsts_enabled env then setdefault headers ("Strict-Transport-Security", HSTS_VALUE) else headers.

(** * The database *)

Definition CANONICAL_DB : string := "./quirk-output/quirk.db".

(** [_default_db_path], [None] when it raises: several files exist. *)
Definition default_db_path (env : string -> option string) (isfile : string -> bool) : option string :=
  match env "QUIRK_DB_PATH" with
  | Some (String _ _ as v) => Some v
  | _ => match List.filter isfile ["./quirk.db"; "./output/quirk.db"; CANONICAL_DB] with
         | [] => Some CANONICAL_DB
         | [p] => Some p
         | _ => None
         end
  end.
