(* ===== verification/ServerProps.v ===== *)
(** The doors of the dashboard server stay shut: a server bound to the network asks
    every request for its token, whatever becomes of its configuration file, and the
    guard on outbound URLs knows the server's own endpoint. *)
From Stdlib Require Import ZArith Lia Ascii.
From stdpp Require Import base tactics strings list pretty.
From S2P Require Import Prelude PyStr PyVal PortSpec IpAddr UrlGuard UrlGuardProps Siem Server.

Local Open Scope Z_scope.
Local Open Scope quirk_scope.

(** A port reads back from its text. *)
Lemma port_numeral port : 0 <= port <= 65535 -> numeral (pretty port) port.
Proof.
  intros H. destruct (decide (port = 0)) as [->|Hne]; [by vm_compute|].
  apply numeral_pretty. unfold PORT_MIN, PORT_MAX. lia.
Qed.

Lemma port_text port : 0 <= port <= 65535 ->
  truthy_str (Some (strip (pretty port))) = true /\ int_of_str (strip (pretty port)) = Some port.
Proof.
  intros H. pose proof (port_numeral port H) as Hn. pose proof (proj1 Hn) as Hd.
  pose proof Hd as [Ht Hs]%andb_true_iff. rewrite strip_digits by done. split; [done|]. by apply int_of_digits.
Qed.

Section Doors.
Context (repr : pyval -> string) (abspath : string -> string).

(** The memory of a process after reads that found [sts], the latest last. *)
Definition memory_after (env : string -> option string) (sts : list path_state) (m : list string) : list string :=
  foldl (fun m st => (resolve_operator_token repr env abspath st m).2) m sts.

Lemma read_keeps path st m p : p ∈ m -> p ∈ (read_server_config abspath path st m).2.
Proof.
  intros H. unfold read_server_config. destruct (read_once path st) as [|r|[|e d]]; try done.
  change (p ∈ (if str_in (abspath path) m then m else abspath path :: m)). destruct (str_in _ _); [done|by right].
Qed.

Lemma resolve_keeps env st m p : p ∈ m -> p ∈ (resolve_operator_token repr env abspath st m).2.
Proof.
  intros H. unfold resolve_operator_token.
  pose proof (read_keeps (server_config_path env) st m p H) as Hk.
  destruct (env "QUIRK_API_TOKEN") as [[|c t]|]; [|done|];
    by destruct (read_server_config abspath (server_config_path env) st m).
Qed.

Lemma memory_keeps env sts m p : p ∈ m -> p ∈ memory_after env sts m.
Proof. revert m. induction sts as [|st sts IH]; intros m H; [done|]. apply IH. by apply resolve_keeps. Qed.

(** No token in the environment. *)
Definition from_file (env : string -> option string) : Prop :=
  env "QUIRK_API_TOKEN" = None \/ env "QUIRK_API_TOKEN" = Some EmptyString.

Lemma resolve_from_file env st m : from_file env ->
  resolve_operator_token repr env abspath st m =
  let '(r, m) := read_server_config abspath (server_config_path env) st m in
  (match r with
   | ReadError e => token_error e
   | NoFile | Settings [] => no_token
   | Settings d => token_in repr (server_config_path env) d
   end, m).
Proof. unfold resolve_operator_token. by intros [-> | ->]. Qed.

(** A path that was populated is read as populated settings, or as an error. *)
Lemma populated_read path st m : abspath path ∈ m ->
  (exists e d, st = Parsed (VDict (e :: d)) /\ (read_server_config abspath path st m).1 = Settings (e :: d))
  \/ exists r, r <> EmptyString /\ (read_server_config abspath path st m).1 = ReadError r.
Proof.
  intros Hm. apply str_in_elem in Hm. unfold read_server_config.
  assert (Hne : forall a b, a +:+ ": " +:+ b <> EmptyString) by (intros [|? ?] b; discriminate).
  destruct st as [| |r| |r|v]; simpl; rewrite ?Hm; try (right; eexists; split; [|reflexivity]; apply Hne).
  destruct v as [| | | | |l|[|e d]]; simpl; rewrite ?Hm; try (right; eexists; split; [|reflexivity]; apply Hne).
  left. eauto.
Qed.

(** What a request presents. *)
Definition presented (rq : http_request) : option string :=
  if truthy_str (Some (x_api_key rq)) then Some (x_api_key rq) else bearer rq.

Lemma check_token_pass given configured : check_token given configured = Ok None -> given = configured.
Proof.
  unfold check_token, compare_digest. destruct (_ && _); simpl; [|done].
  destruct (str_eqb given configured) eqn:E; [|done]. intros _. by apply str_eqb_eq.
Qed.

(** The token check passes a request without a token configured, or with the token. *)
Lemma require_auth_pass ts rq : require_auth ts rq = Ok None ->
  (ts_error ts = None \/ ts_error ts = Some EmptyString)
  /\ (token ts = EmptyString \/ presented rq = Some (token ts)).
Proof.
  unfold require_auth, presented. intros H. destruct (ts_error ts) as [[|? ?]|]; [|done|].
  all: split; [auto|]; destruct (token ts) as [|c t]; [by left|right]; cbn [truthy_str negb] in H.
  all: destruct (x_api_key rq) as [|k ks]; cbn [truthy_str] in H |- *; [|by f_equal; apply check_token_pass].
  all: destruct (bearer rq) as [b|]; [|done]; by f_equal; apply check_token_pass.
Qed.

(** The environment a running server has. *)
Lemma serve_env env ts port host insecure env' px : serve env ts port host insecure = Runs env' px ->
  (forall k, str_in k ["QUIRK_DASHBOARD_PORT"; "QUIRK_SERVE_HOST"; "QUIRK_SERVE_PORT"] = false -> env' k = env k)
  /\ env' "QUIRK_SERVE_HOST" = Some host /\ env' "QUIRK_SERVE_PORT" = Some (pretty port)
  /\ (serves_loopback host = true \/ insecure = true \/ token ts <> EmptyString)
  /\ (ts_error ts = None \/ ts_error ts = Some EmptyString).
Proof.
  unfold serve. intros H.
  assert (H' : (ts_error ts = None \/ ts_error ts = Some EmptyString)
    /\ (if negb (serves_loopback host) && negb (truthy_str (Some (token ts))) && negb insecure then Exits 2
        else Runs (set_env "QUIRK_DASHBOARD_PORT" (pretty port)
                   (set_env "QUIRK_SERVE_HOST" host (set_env "QUIRK_SERVE_PORT" (pretty port) env)))
                (forwarded_allow_ips env)) = Runs env' px)
    by (destruct (ts_error ts) as [[|? ?]|]; [auto|done|auto]).
  clear H. destruct H' as [He H]. destruct (_ && _) eqn:E in H; [done|]. injection H as <- _. split_and!.
  - intros k Hk. unfold str_in in Hk. apply bool_decide_eq_false in Hk.
    rewrite !not_elem_of_cons in Hk. destruct Hk as (H1 & H2 & H3 & _). unfold set_env.
    apply str_eqb_neq in H1, H2, H3. by rewrite H1, H2, H3.
  - reflexivity.
  - reflexivity.
  - destruct (serves_loopback host); [auto|]. destruct insecure; [auto|]. destruct (token ts); [done|]. right. by right.
  - done.
Qed.

(** C10: a server that started on a network interface without [--insecure] lets a
    request past the token check only with the token, however its configuration file is
    moved, emptied, broken or made unreadable later; the one exception is a file that
    was rewritten with settings that name no token. *)
Theorem network_server_keeps_its_token env st0 host port env' px sts st rq :
  serves_loopback host = false ->
  serve env (resolve_operator_token repr env abspath st0 []).1 port host false = Runs env' px ->
  let m := memory_after env' sts (resolve_operator_token repr env abspath st0 []).2 in
  let ts := (resolve_operator_token repr env' abspath st m).1 in
  require_auth ts rq = Ok None ->
  (token ts <> EmptyString /\ presented rq = Some (token ts))
  \/ (from_file env /\ exists e d, st = Parsed (VDict (e :: d)) /\ token ts = EmptyString).
Proof.
  intros Hlo Hs m ts Ha.
  destruct (serve_env _ _ _ _ _ _ _ Hs) as (Henv & _ & _ & Hopen & Herr). destruct Hopen as [?|[?|Htok]]; [congruence|done|].
  assert (Htoken : env' "QUIRK_API_TOKEN" = env "QUIRK_API_TOKEN") by (by apply Henv).
  assert (Hpath : server_config_path env' = server_config_path env)
    by (unfold server_config_path; by rewrite Henv).
  destruct (require_auth_pass _ _ Ha) as [Hte Hp].
  destruct (decide (token ts = EmptyString)) as [Hz|Hz]; [|left; split; [done|]; by destruct Hp].
  right. assert (Hff : from_file env).
  { unfold from_file. destruct (env "QUIRK_API_TOKEN") as [[|c t]|] eqn:E; auto. exfalso. revert Hz. subst ts.
    unfold resolve_operator_token. rewrite Htoken. discriminate. }
  split; [done|].
  assert (Hff' : from_file env') by (by unfold from_file in *; rewrite Htoken).
  (* the settings at start were populated *)
  assert (Hm0 : abspath (server_config_path env') ∈ m).
  { apply memory_keeps. rewrite Hpath. revert Htok. rewrite resolve_from_file by done. unfold read_server_config.
    destruct (read_once _ _) as [|r|[|e d]]; simpl; try done. intros _. left. }
  destruct (populated_read (server_config_path env') st m Hm0) as [(e & d & -> & _)|(r & Hr & E)]; [eauto|].
  exfalso. revert Hte. subst ts. rewrite resolve_from_file by done.
  destruct (read_server_config abspath (server_config_path env') st m) as [x m']. simpl in E. subst x. simpl.
  intros [?|[= ?]]; done.
Qed.

End Doors.

(** A server on every interface, its token in its file; the file then vanishes. *)
Module SampleServer.
Definition env (k : string) : option string := None.
Definition file : path_state := Parsed (VDict [("security", VDict [("api_token", VStr "s3cret")])]).
Definition repr (v : pyval) : string := "".
Definition abspath (p : string) : string := "/srv/" +:+ p.
Definition ts0 : TokenState * list string := resolve_operator_token repr env abspath file [].
Definition env' : string -> option string :=
  match serve env ts0.1 8512 "0.0.0.0" false with Runs e _ => e | Exits _ => env end.
Definition good : http_request := {| rq_method := "GET"; x_api_key := "s3cret"; bearer := None; csrf_header := None |}.
Definition bare : http_request := {| rq_method := "GET"; x_api_key := ""; bearer := None; csrf_header := None |}.
End SampleServer.

Lemma network_server_keeps_its_token_witness :
  let ts := (resolve_operator_token SampleServer.repr SampleServer.env' SampleServer.abspath SampleServer.file
               (memory_after SampleServer.repr SampleServer.abspath SampleServer.env' [Absent; SampleServer.file]
                  SampleServer.ts0.2)).1 in
  require_auth ts SampleServer.good = Ok None
  /\ ((token ts <> EmptyString /\ presented SampleServer.good = Some (token ts))
      \/ (from_file SampleServer.env /\ exists e d, SampleServer.file = Parsed (VDict (e :: d)) /\ token ts = EmptyString)).
Proof.
  intros ts. split; [vm_compute; reflexivity|].
  apply (network_server_keeps_its_token SampleServer.repr SampleServer.abspath SampleServer.env SampleServer.file "0.0.0.0" 8512
           SampleServer.env' "127.0.0.1" [Absent; SampleServer.file] SampleServer.file SampleServer.good).
  - vm_compute. reflexivity.
  - vm_compute. reflexivity.
  - vm_compute. reflexivity.
Defined.

Example vanished_file_refuses :
  map (fun st => require_auth (resolve_operator_token SampleServer.repr SampleServer.env' SampleServer.abspath st SampleServer.ts0.2).1
                   SampleServer.bare) [Absent; Parsed VNone; DanglingLink; Parsed (VInt 1); SampleServer.file]
  = [Ok (Some 503); Ok (Some 503); Ok (Some 503); Ok (Some 503); Ok (Some 401)].
Proof. vm_compute. reflexivity. Qed.

(** A key with a character beyond ASCII makes the check raise instead of refusing. *)
Example non_ascii_key_raises :
  is_ok (require_auth SampleServer.ts0.1
           {| rq_method := "GET"; x_api_key := str1 (chr 233); bearer := None; csrf_header := None |}) = false.
Proof. vm_compute. reflexivity. Qed.

(** The URL of the console itself, on a host bound to one address. *)
Definition console_env : string -> option string :=
  match serve SampleServer.env SampleServer.ts0.1 8512 "10.0.0.7" false with Runs e _ => e | Exits _ => SampleServer.env end.


(** Bound to every interface, the console is not recognised at a loopback address when
    internal targets are allowed. *)
Example wildcard_console_fetched :
  match validate_external_url SampleServer.env' (fun _ => None) "http://127.0.0.1:8512/api/jobs" true with
  | Ok r => ok r
  | Raise _ => false
  end = true.
Proof. vm_compute. reflexivity. Qed.

(** Two database files stop the server, although one is at the canonical path. *)
Example legacy_database_blocks_canonical :
  default_db_path (fun _ => None) (fun p => str_in p ["./quirk.db"; CANONICAL_DB]) = None.
Proof. vm_compute. reflexivity. Qed.
