(* ===== verification/Scheduler.v ===== *)
(** Recurring scans: the dispatch loop of [cli/scheduler_cmd.py], the cadence control of
    operational-technology probing in [otics_cadence.py], and the two ways schedules are
    written, [dashboard/api/routes/schedules.py] and [cli/schedule_cmd.py].

    Instants are naive UTC, in microseconds.  Cron expressions are the business of
    [croniter], a parameter: [next_fire e b] is the first firing after [b] ([None] when it
    raises), [cron_valid] its validation.  The YAML reader, the configuration loader
    ([load_config]) and the server's security settings are parameters too, the last
    as [Server.load_server_security] returns them. *)
From Stdlib Require Import ZArith QArith Lia Ascii.
From stdpp Require Import base tactics strings list pretty.
From S2P Require Import Prelude PyStr PyFloat PyVal Model IpAddr UrlGuard Targets Siem Server.

Local Open Scope Z_scope.
Local Open Scope quirk_scope.

(** * The cadence of OT probing *)

Definition OTICS_MIN_INTERVAL_HOURS : Z := 168.
Definition OTICS_CONNECTOR_KEYS : list string := ["enable_modbus"; "enable_bacnet"].
Definition OTICS_CRON_SAMPLE_COUNT : nat := 10.

(** [timedelta.total_seconds() / 3600.0] *)
Definition hours_of (us : Z) : Q := fdiv (int_truediv us 1000000) 3600.

Fixpoint gaps (l : list Z) : list Q :=
  match l with
  | a :: ((b :: _) as rest) => hours_of (b - a) :: gaps rest
  | _ => []
  end.

Section Cadence.
Context (next_fire : string -> Z -> option Z).

Fixpoint firings (n : nat) (e : string) (base : Z) : option (list Z) :=
  match n with
  | O => Some []
  | S n' => t ← next_fire e base; l ← firings n' e t; Some (t :: l)
  end.

Definition min_gap_hours (e : string) (base : Z) : option Q :=
  l ← firings OTICS_CRON_SAMPLE_COUNT e base;
  match gaps l with g :: gs => Some (foldl fmin g gs) | [] => None end.

Definition violates_otics_floor (e : string) (base : Z) : bool :=
  match min_gap_hours e base with
  | None => true
  | Some gap => flt gap (of_int OTICS_MIN_INTERVAL_HOURS)
  end.

(** The advisory, as the gap it renders in a template, when there is one. *)
Definition floor_advisory (e : string) (base : Z) : option Q :=
  if violates_otics_floor e base then Some (default 0%Q (min_gap_hours e base)) else None.
End Cadence.

(** [base["connectors"]], if it is a mapping. *)
Definition connectors_of (base : pydict) : option pydict :=
  match dict_get base "connectors" with Some (VDict d) => Some d | _ => None end.

Definition connector_on (key : string) (base : pydict) : bool :=
  match connectors_of base with Some d => truthy (get_or d key VNone) | None => false end.

Definition otics_enabled_in_config (base : pydict) : bool := existsb (fun k => connector_on k base) OTICS_CONNECTOR_KEYS.
Definition recurring_otics_opted_in (base : pydict) : bool := connector_on "enable_recurring_otics" base.

(** [d.pop(k)] *)
Definition dict_pop (k : string) (d : pydict) : pydict := List.filter (fun e => negb (str_eqb e.1 k)) d.

(** The mapping without the keys, and the keys that were there. *)
Definition strip_otics_keys (base : pydict) : pydict * list string :=
  match connectors_of base with
  | None => (base, [])
  | Some d => (dict_set base "connectors" (VDict (foldr dict_pop d OTICS_CONNECTOR_KEYS)),
               List.filter (fun k => match dict_get d k with Some _ => true | None => false end) OTICS_CONNECTOR_KEYS)
  end.

Definition suppression_log_line (name cron : string) (removed : list string) (reason : string) : string :=
  "OT/ICS probing suppressed for schedule " +:+ repr_str name +:+ " (cron=" +:+ repr_str cron +:+ "): removed keys ["
  +:+ str_join ", " (map repr_str removed) +:+ "] — reason: " +:+ reason.

(** * Rows *)

Record ScheduledScan := {
  sc_id : Z; sc_name : string; sc_cron_expr : string; sc_target : string; sc_profile : option string;
  sc_enabled : bool; sc_last_run_at : option Z; sc_created_at : Z; sc_check_in : option bool }.

Record ScheduledRun := {
  sr_id : Z; sr_schedule_id : Z; sr_dispatched_at : Z; sr_completed_at : option Z; sr_status : string;
  sr_scan_output_path : option string }.

Record sched_db := { sd_schedules : list ScheduledScan; sd_runs : list ScheduledRun }.

Definition is_check_in (s : ScheduledScan) : bool := default false (sc_check_in s).

(** * The loop *)

Definition MINUTE : Z := 60000000.
Definition STALE_THRESHOLD : Z := 2 * 60 * MINUTE.

Definition compute_next_run (next_fire : string -> Z -> option Z) (now : Z) (s : ScheduledScan) : option Z :=
  next_fire (sc_cron_expr s) (match sc_last_run_at s with Some t => t | None => now - 2 * MINUTE end).

Definition with_outcome (status : string) (path : option string) (done_at : Z) (r : ScheduledRun) : ScheduledRun :=
  {| sr_id := sr_id r; sr_schedule_id := sr_schedule_id r; sr_dispatched_at := sr_dispatched_at r;
     sr_completed_at := Some done_at; sr_status := status; sr_scan_output_path := path |}.

Definition is_stale (cutoff : Z) (r : ScheduledRun) : bool :=
  str_in (sr_status r) ["pending"; "running"] && (sr_dispatched_at r <? cutoff).

Definition recover_stale_runs (now : Z) (d : sched_db) : sched_db :=
  {| sd_schedules := sd_schedules d;
     sd_runs := map (fun r => if is_stale (now - STALE_THRESHOLD) r
                              then with_outcome "failed" (Some "INTERRUPTED") now r else r) (sd_runs d) |}.

(** ** The generated configuration *)

Definition texts (l : list string) : pyval := VList (map VStr l).

Definition MINIMAL_SCAN_CONFIG : pydict :=
  [("assessment", VDict [("name", VStr "scheduled-scan"); ("data_classification", VStr "internal");
                         ("report_owner", VStr "quirk-scheduler"); ("timezone", VStr "UTC")]);
   ("scan", VDict [("concurrency", VInt 10); ("ports_tls", VList [VInt 443; VInt 8443])]);
   ("targets", VDict [("fqdns", VList []); ("cidrs", VList []); ("include_ips", VList []); ("exclude_ips", VList [])]);
   ("connectors", VDict []);
   ("output", VDict [("directory", VStr "output"); ("db_path", VStr "quirk.db")])].

Definition classify_target (target : string) : string :=
  let t := strip target in
  if contains t "/" && match parse_network t with Some _ => true | None => false end then "cidrs"
  else match parse_ip t with Some _ => "include_ips" | None => "fqdns" end.

(** The scheduler's own exception: the server's settings cannot be read. *)
Inductive generated := ServerConfigUnreadable (reason : string) | Generated (base : pydict) (log : list string).

(** A parsed file as the mapping the code treats it as. *)
Definition as_mapping (v : pyval) : pyres pydict :=
  match v with
  | VDict d => Ok d
  | v => if truthy v then Raise (TypeError "not a mapping") else Ok []
  end.

Definition with_security (sec : ServerSecurity) (base : pydict) : pydict :=
  if negb (match trusted_targets sec with [] => false | _ => true end) && negb (allow_internal_targets sec) then base
  else
    let s := match trusted_targets sec with [] => [] | l => [("trusted_targets", VList l)] end
             ++ (if allow_internal_targets sec then [("allow_internal_targets", VBool true)] else []) in
    dict_set base "security" (VDict s).

Definition with_defaults (base : pydict) : pydict :=
  foldl (fun b e => match dict_get b e.1 with Some _ => b | None => dict_set b e.1 e.2 end) base MINIMAL_SCAN_CONFIG.

Section Generate.
Context (repr : pyval -> string) (next_fire : string -> Z -> option Z).

(** [existing = section.get(bucket) or []], as a list. *)
Definition existing_targets (section : pydict) (bucket : string) : list pyval :=
  match py_or (get_or section bucket VNone) (VList []) with
  | VList l => l
  | v => [VStr (py_str repr v)]
  end.

Definition names_target (t : string) (v : pyval) : bool := match v with VStr s => str_eqb s t | _ => false end.

Definition inject_target (target : string) (base : pydict) : pyres pydict :=
  if negb (truthy_str (Some target)) then Ok base
  else match get_or base "targets" (VDict []) with
       | VDict section =>
           let bucket := classify_target target in
           let existing := existing_targets section bucket in
           let l := if existsb (names_target target) existing then existing else existing ++ [VStr target] in
           Ok (dict_set base "targets" (VDict (dict_set section bucket (VList l))))
       | _ => Raise (AttributeError "get")
       end.

(** The gate: OT probing stays only when opted in and at or above the floor. *)
Definition gate_otics (now : Z) (s : ScheduledScan) (base : pydict) : pydict * list string :=
  if otics_enabled_in_config base then
    let suppress reason :=
      let '(base, removed) := strip_otics_keys base in
      (base, match removed with [] => [] | _ => [suppression_log_line (sc_name s) (sc_cron_expr s) removed reason] end) in
    if negb (recurring_otics_opted_in base) then suppress "opt-in not enabled"
    else if violates_otics_floor next_fire (sc_cron_expr s) now then suppress "cadence floor"
    else (base, [])
  else (base, []).

Definition strip_authenticated (s : ScheduledScan) (base : pydict) : pydict * list string :=
  match connectors_of base with
  | Some d =>
      if truthy (get_or d "enable_authenticated_mode" VNone) then
        (dict_set base "connectors" (VDict (dict_set d "enable_authenticated_mode" (VBool false))),
         ["Scheduled scan " +:+ sc_name s +:+ ": connectors.enable_authenticated_mode stripped "
          +:+ "(authenticated mode is not allowed for recurring scans)"])
      else (base, [])
  | None => (base, [])
  end.

Definition anchor_output (output_dir : string) (base : pydict) : pyres pydict :=
  match get_or base "output" (VDict []) with
  | VDict d => Ok (dict_set base "output" (VDict (dict_set d "directory" (VStr output_dir))))
  | _ => Raise (TypeError "object does not support item assignment")
  end.

(** What is done to the mapping, whatever it started from. *)
Definition finish_config (s : ScheduledScan) (output_dir : string) (now : Z) (base : pydict) : pyres generated :=
  let! base := inject_target (strip (sc_target s)) (with_defaults base) in
  let '(base, log1) := gate_otics now s base in
  let '(base, log2) := strip_authenticated s base in
  let! base := anchor_output output_dir base in
  Ok (Generated base (log1 ++ log2)).

(** [source] is the document of the configuration file given to the scheduler, if one
    was; [security] the server's settings, read only without one. *)
Definition materialize_scan_config (s : ScheduledScan) (source : option (pyres pyval)) (security : pyres ServerSecurity)
    (output_dir : string) (now : Z) : pyres generated :=
  match source with
  | Some doc => let! v := doc in let! base := as_mapping v in finish_config s output_dir now base
  | None =>
      let! sec := security in
      match ss_error sec with
      | Some (String _ _ as e) => Ok (ServerConfigUnreadable e)
      | _ => finish_config s output_dir now (with_security sec MINIMAL_SCAN_CONFIG)
      end
  end.
End Generate.

(** ** One dispatch *)

Definition build_scan_argv (executable : string) (s : ScheduledScan) (config : string) : list string :=
  [executable; "-m"; "run_scan"; "--config"; config]
  ++ (if is_check_in s then ["--check-in"]
      else ["--profile"; match sc_profile s with Some (String _ _ as p) => p | _ => "standard" end]).

(** [_SAFE_NAME_RE.match], whose [$] also matches before a final newline. *)
Definition is_name_char (c : ascii) : bool := is_alnum c || contains "_-" (str1 c).

Definition safe_name (name : string) : string :=
  let body := if endswith name (str1 (chr 10)) then str_drop_end 1 name else name in
  if truthy_str (Some body) && every is_name_char body && (String.length body <=? 128)%nat then name else "unnamed".

(** [str(Path(s))]: without empty and dot components. *)
Definition path_text (s : string) : string :=
  let parts := List.filter (fun p => truthy_str (Some p) && negb (str_eqb p ".")) (split_on "/"%char s) in
  let root := if startswith s "///" then "/" else if startswith s "//" then "//" else if startswith s "/" then "/" else "" in
  let t := root +:+ str_join "/" parts in
  if truthy_str (Some t) then t else ".".

(** [strftime("%Y%m%d-%H%M%S")] *)
Definition stamp (us : Z) : string :=
  let '(y, m, d) := civil_of_days (us / US_PER_DAY) in
  let t := us mod US_PER_DAY / 1000000 in
  zpad 4 y +:+ zpad 2 m +:+ zpad 2 d +:+ "-" +:+ zpad 2 (t / 3600) +:+ zpad 2 (t / 60 mod 60) +:+ zpad 2 (t mod 60).

Definition join_path (base name : string) : string := if endswith base "/" then base +:+ name else base +:+ "/" +:+ name.

(** What the world does during one dispatch: the clocks, the base of the output (or the exception of finding it),
    the settings, and the exit status of the scan ([None]: it could not be started). *)
Record surroundings := {
  w_started : Z; w_finished : Z; w_output_base : pyres string; w_security : pyres ServerSecurity;
  w_exit : option Z }.

Section Dispatch.
Context (repr : pyval -> string) (next_fire : string -> Z -> option Z) (executable : string)
  (source : option (pyres pyval)).

(** The commands run and the configurations written, with the rows. *)
Record dispatched := { dp_run : ScheduledRun; dp_ran : bool; dp_argv : list string; dp_config : pydict }.

Definition unstarted (run : ScheduledRun) : dispatched :=
  {| dp_run := run; dp_ran := false; dp_argv := []; dp_config := [] |}.

Definition output_dir_of (base : string) (s : ScheduledScan) (now : Z) : string :=
  join_path (join_path (join_path (path_text base) "scheduled") (safe_name (sc_name s))) (stamp now).

(** The row of a dispatch, as it is when the dispatch ends; an exception leaves none. *)
Definition dispatch_schedule (w : surroundings) (run_id : Z) (s : ScheduledScan) : pyres dispatched :=
  let now := w_started w in
  let run := {| sr_id := run_id; sr_schedule_id := sc_id s; sr_dispatched_at := now; sr_completed_at := None;
                sr_status := "pending"; sr_scan_output_path := None |} in
  if (match source with None => true | Some _ => false end) && negb (truthy_str (Some (strip (sc_target s)))) then
    Ok (unstarted (with_outcome "failed" None (w_finished w) run))
  else
    let! base := w_output_base w in
    let dir := output_dir_of base s now in
    let! g := materialize_scan_config repr next_fire s source (w_security w) dir now in
    match g with
    | ServerConfigUnreadable _ => Ok (unstarted (with_outcome "failed" None (w_finished w) run))
    | Generated cfg _ =>
        let status := match w_exit w with Some 0 => "completed" | _ => "failed" end in
        Ok {| dp_run := with_outcome status (Some dir) (w_finished w) run; dp_ran := true;
              dp_argv := build_scan_argv executable s (join_path dir "scan-config.generated.yaml"); dp_config := cfg |}
    end.

(** [schedule.last_run_at = now], for a dispatch that got as far as its command. *)
Definition touch_schedule (id t : Z) (s : ScheduledScan) : ScheduledScan :=
  if sc_id s =? id then
    {| sc_id := sc_id s; sc_name := sc_name s; sc_cron_expr := sc_cron_expr s; sc_target := sc_target s;
       sc_profile := sc_profile s; sc_enabled := sc_enabled s; sc_last_run_at := Some t;
       sc_created_at := sc_created_at s; sc_check_in := sc_check_in s |}
  else s.

Definition record_dispatch (s : ScheduledScan) (p : dispatched) (d : sched_db) : sched_db :=
  {| sd_schedules := if dp_ran p then map (touch_schedule (sc_id s) (sr_dispatched_at (dp_run p))) (sd_schedules d) else sd_schedules d;
     sd_runs := sd_runs d ++ [dp_run p] |}.

(** An iteration: the rows, the dispatches in order, and the exception that ended it, if
    one did.  What was committed before the exception stays. *)
Record iteration := { it_db : sched_db; it_log : list dispatched; it_exn : option pyexn }.

Fixpoint dispatch_due (surround : Z -> surroundings) (now : Z) (due : list ScheduledScan) (d : sched_db) : iteration :=
  match due with
  | [] => {| it_db := d; it_log := []; it_exn := None |}
  | s :: rest =>
      match dispatch_schedule (surround (sc_id s)) (next_id (map sr_id (sd_runs d))) s with
      | Raise e => {| it_db := d; it_log := []; it_exn := Some e |}
      | Ok p => let it := dispatch_due surround now rest (record_dispatch s p d) in
                {| it_db := it_db it; it_log := p :: it_log it; it_exn := it_exn it |}
      end
  end.

(** Whether a schedule is due at [now]; one whose expression cannot be read is skipped. *)
Definition is_due (now : Z) (s : ScheduledScan) : bool :=
  match compute_next_run next_fire now s with Some t => t <=? now | None => false end.

Definition due_schedules (now : Z) (d : sched_db) : list ScheduledScan :=
  List.filter (is_due now) (List.filter sc_enabled (sd_schedules d)).

Definition check_and_dispatch_due (surround : Z -> surroundings) (now : Z) (d : sched_db) : iteration :=
  dispatch_due surround now (due_schedules now d) d.
End Dispatch.

(** * Writing schedules *)

Definition CHECK_IN_TARGET_SENTINEL : string := "(known fleet)".

(** Replies of the routes: an HTTP status, or the row. *)
Notation reply := (Z + ScheduledScan)%type.

Section Routes.
Context (resolve : string -> option (list string)) (cron_valid : string -> bool).

(** The texts among the trusted targets; the code raises on an entry of another kind. *)
Definition trusted_texts (l : list pyval) : pyres (list string) :=
  ptraverse (fun v => match v with VStr s => Ok s | _ => Raise (TypeError "argument is not iterable") end) l.

(** The status to refuse a target with, if it is refused. *)
Definition trusted_refusal (security : pyres ServerSecurity) (target : string) : pyres (option Z) :=
  let! sec := security in
  match ss_error sec with
  | Some (String _ _) => Ok (Some 503)
  | _ => let! l := trusted_texts (trusted_targets sec) in
         Ok (if v_ok (is_target_trusted resolve target l) then None else Some 422)
  end.

Record ScheduleCreateRequest := {
  cr_name : string; cr_cron_expr : string; cr_target : option string; cr_profile : option string; cr_check_in : bool }.

Definition new_schedule (id now : Z) (p : ScheduleCreateRequest) (target : string) : ScheduledScan :=
  {| sc_id := id; sc_name := cr_name p; sc_cron_expr := cr_cron_expr p; sc_target := target; sc_profile := cr_profile p;
     sc_enabled := true; sc_last_run_at := None; sc_created_at := now; sc_check_in := Some (cr_check_in p) |}.

(** The unique name: an insert with a name in use is rolled back. *)
Definition insert_schedule (now : Z) (p : ScheduleCreateRequest) (target : string) (d : sched_db) : reply * sched_db :=
  if str_in (cr_name p) (map sc_name (sd_schedules d)) then (inl 409, d)
  else let row := new_schedule (next_id (map sc_id (sd_schedules d))) now p target in
       (inr row, {| sd_schedules := sd_schedules d ++ [row]; sd_runs := sd_runs d |}).

(** The target of a request, or a refusal. *)
Definition target_of_request (security : pyres ServerSecurity) (p : ScheduleCreateRequest) : pyres (Z + string) :=
  if cr_check_in p then Ok (inr (text_or (str_or_empty (cr_target p)) CHECK_IN_TARGET_SENTINEL))
  else if negb (truthy_str (Some (strip (str_or_empty (cr_target p))))) then Ok (inl 400)
  else let! r := trusted_refusal security (str_or_empty (cr_target p)) in
       Ok (match r with Some st => inl st | None => inr (str_or_empty (cr_target p)) end).

Definition create_schedule (security : pyres ServerSecurity) (now : Z) (p : ScheduleCreateRequest) (d : sched_db)
    : pyres (reply * sched_db) :=
  if negb (cron_valid (cr_cron_expr p)) then Ok (inl 400, d)
  else let! t := target_of_request security p in
       Ok (match t with inl st => (inl st, d) | inr target => insert_schedule now p target d end).

Definition find_schedule (id : Z) (d : sched_db) : option ScheduledScan :=
  List.find (fun s => sc_id s =? id) (sd_schedules d).

Definition with_enabled (b : bool) (s : ScheduledScan) : ScheduledScan :=
  {| sc_id := sc_id s; sc_name := sc_name s; sc_cron_expr := sc_cron_expr s; sc_target := sc_target s;
     sc_profile := sc_profile s; sc_enabled := b; sc_last_run_at := sc_last_run_at s; sc_created_at := sc_created_at s;
     sc_check_in := sc_check_in s |}.

Definition set_enabled (id : Z) (b : bool) (d : sched_db) : sched_db :=
  {| sd_schedules := map (fun s => if sc_id s =? id then with_enabled b s else s) (sd_schedules d); sd_runs := sd_runs d |}.

Definition update_schedule (security : pyres ServerSecurity) (id : Z) (b : bool) (d : sched_db) : pyres (reply * sched_db) :=
  match find_schedule id d with
  | None => Ok (inl 404, d)
  | Some row =>
      let! r := if b && negb (is_check_in row) then trusted_refusal security (sc_target row) else Ok None in
      Ok (match r with
          | Some st => (inl st, d)
          | None => (inr (with_enabled b row), set_enabled id b d)
          end)
  end.

Definition delete_schedule (id : Z) (d : sched_db) : Z * sched_db :=
  match find_schedule id d with
  | None => (404, d)
  | Some _ => (204, {| sd_schedules := List.filter (fun s => negb (sc_id s =? id)) (sd_schedules d);
                       sd_runs := List.filter (fun r => negb (sr_schedule_id r =? id)) (sd_runs d) |})
  end.

(** ** The command line *)

(** [_NAME_RE.match], whose [$] also matches before a final newline. *)
Definition cli_name_ok (name : string) : bool :=
  let body := if endswith name (str1 (chr 10)) then str_drop_end 1 name else name in
  truthy_str (Some body) && every (fun c => is_alnum c || contains "_-." (str1 c)) body && (String.length body <=? 255)%nat.

(** [quirk schedule add]: [auth] says whether the file given asks for authenticated mode;
    a refusal is the exit status. *)
Definition cmd_add (security : pyres ServerSecurity) (auth : bool) (now : Z) (p : ScheduleCreateRequest) (d : sched_db)
    : pyres (reply * sched_db) :=
  if negb (cli_name_ok (cr_name p)) || negb (cron_valid (cr_cron_expr p)) || auth then Ok (inl 2, d)
  else
    let! t := if cr_check_in p then Ok (inr (text_or (str_or_empty (cr_target p)) CHECK_IN_TARGET_SENTINEL))
              else if negb (truthy_str (cr_target p)) then Ok (inl 2)
              else let! r := trusted_refusal security (str_or_empty (cr_target p)) in
                   Ok (match r with Some _ => inl 2 | None => inr (str_or_empty (cr_target p)) end) in
    Ok (match t with
        | inl st => (inl st, d)
        | inr target => match insert_schedule now p target d with
                        | (inl _, d) => (inl 2, d)
                        | r => r
                        end
        end).

Definition find_by_name (name : string) (d : sched_db) : option ScheduledScan :=
  List.find (fun s => str_eqb (sc_name s) name) (sd_schedules d).

Definition cmd_enable_disable (name : string) (b : bool) (d : sched_db) : Z * sched_db :=
  match find_by_name name d with
  | None => (2, d)
  | Some row => (0, set_enabled (sc_id row) b d)
  end.

Definition cmd_remove (name : string) (d : sched_db) : Z * sched_db :=
  match find_by_name name d with
  | None => (2, d)
  | Some row => (0, {| sd_schedules := List.filter (fun s => negb (sc_id s =? sc_id row)) (sd_schedules d);
                       sd_runs := sd_runs d |})
  end.
End Routes.

(** ** What the dashboard shows *)

Definition run_recent (a b : ScheduledRun) : bool := sr_dispatched_at b <=? sr_dispatched_at a.

Definition last_run_status (d : sched_db) (id : Z) : option string :=
  sr_status <$> head (py_sorted run_recent (List.filter (fun r => sr_schedule_id r =? id) (sd_runs d))).

Record ScheduleResponse := {
  so_id : Z; so_name : string; so_cron_expr : string; so_target : string; so_profile : option string; so_check_in : bool;
  so_enabled : bool; so_last_run_at : option string; so_next_run_at : option string; so_last_run_status : option string;
  so_created_at : string }.

Definition schedule_response (next_fire : string -> Z -> option Z) (now : Z) (d : sched_db) (s : ScheduledScan) : ScheduleResponse :=
  {| so_id := sc_id s; so_name := sc_name s; so_cron_expr := sc_cron_expr s; so_target := sc_target s;
     so_profile := sc_profile s; so_check_in := is_check_in s; so_enabled := sc_enabled s;
     so_last_run_at := stamp_utc_iso (sc_last_run_at s);
     so_next_run_at := if sc_enabled s then stamp_utc_iso (next_fire (sc_cron_expr s) (default now (sc_last_run_at s))) else None;
     so_last_run_status := last_run_status d (sc_id s); so_created_at := str_or_empty (stamp_utc_iso (Some (sc_created_at s))) |}.

Definition list_schedules (next_fire : string -> Z -> option Z) (now : Z) (d : sched_db) : list ScheduleResponse :=
  map (schedule_response next_fire now d) (py_sorted (fun a b => sc_id a <=? sc_id b) (sd_schedules d)).
