(* ===== verification/SchedulerProps.v ===== *)
(** What the scheduler guarantees of the configurations it generates and of the rows it
    writes. *)
From Stdlib Require Import ZArith QArith Lia Ascii.
From stdpp Require Import base tactics strings list pretty.
From S2P Require Import Prelude PyStr PyFloat PyVal Model IpAddr UrlGuard Targets Siem Server Scheduler.

Local Open Scope Z_scope.
Local Open Scope quirk_scope.

(** * The generated configuration *)

Lemma dict_get_pop k k' d : dict_get (dict_pop k d) k' = if str_eqb k' k then None else dict_get d k'.
Proof.
  unfold dict_get, dict_pop. induction d as [|[a v] d IH]; simpl; [by destruct (str_eqb k' k)|].
  destruct (str_eqb a k) eqn:E; simpl.
  - rewrite IH. destruct (str_eqb k' k) eqn:E'; [done|]. apply str_eqb_eq in E as ->.
    destruct (str_eqb k k') eqn:E2; [apply str_eqb_eq in E2 as ->; by rewrite str_eqb_refl in E'|done].
  - rewrite IH. destruct (str_eqb a k') eqn:E'; [|done]. apply str_eqb_eq in E' as ->. by rewrite E.
Qed.

Lemma get_after_set k v d k' : dict_get (dict_set d k v) k' = if str_eqb k k' then Some v else dict_get d k'.
Proof.
  unfold dict_get, dict_set. rewrite alookup_aset. unfold str_eqb. by case_decide; [rewrite bool_decide_true|rewrite bool_decide_false].
Qed.

Lemma connectors_set_ne k v base : str_eqb k "connectors" = false -> connectors_of (dict_set base k v) = connectors_of base.
Proof. intros H. unfold connectors_of. by rewrite get_after_set, H. Qed.

Lemma connector_on_ne k v base key : str_eqb k "connectors" = false -> connector_on key (dict_set base k v) = connector_on key base.
Proof. intros H. unfold connector_on. by rewrite connectors_set_ne. Qed.

Lemma connectors_set_eq d base : connectors_of (dict_set base "connectors" (VDict d)) = Some d.
Proof. unfold connectors_of. by rewrite get_after_set. Qed.

Section Generated.
Context (repr : pyval -> string) (next_fire : string -> Z -> option Z).

(** The keys that do not concern the connectors stay what they were. *)
Definition same_elsewhere (a b : pydict) : Prop := forall k, str_eqb "connectors" k = false -> dict_get b k = dict_get a k.

Lemma same_set_connectors v base : same_elsewhere base (dict_set base "connectors" v).
Proof. intros k H. by rewrite get_after_set, H. Qed.

Lemma stripped_off base : otics_enabled_in_config (strip_otics_keys base).1 = false.
Proof.
  unfold otics_enabled_in_config, strip_otics_keys, connector_on. destruct (connectors_of base) as [d|] eqn:E; simpl.
  - rewrite connectors_set_eq. unfold get_or, OTICS_CONNECTOR_KEYS. simpl. by rewrite !dict_get_pop.
  - by rewrite E.
Qed.

Lemma stripped_elsewhere base : same_elsewhere base (strip_otics_keys base).1.
Proof. unfold strip_otics_keys. destruct (connectors_of base); [apply same_set_connectors|done]. Qed.

Definition otics_permitted (now : Z) (s : ScheduledScan) (cfg : pydict) : Prop :=
  otics_enabled_in_config cfg = true ->
  recurring_otics_opted_in cfg = true /\ violates_otics_floor next_fire (sc_cron_expr s) now = false.

Lemma gate_permits now s base : otics_permitted now s (gate_otics next_fire now s base).1.
Proof.
  unfold otics_permitted, gate_otics. pose proof (stripped_off base) as Hoff.
  destruct (otics_enabled_in_config base) eqn:E; [|simpl; congruence].
  destruct (strip_otics_keys base) as [b' removed].
  destruct (recurring_otics_opted_in base) eqn:Eo; simpl in *; [|congruence].
  destruct (violates_otics_floor _ _ _) eqn:Ev; simpl; [congruence|done].
Qed.

Lemma gate_elsewhere now s base : same_elsewhere base (gate_otics next_fire now s base).1.
Proof.
  unfold gate_otics. pose proof (stripped_elsewhere base) as Hs. destruct (otics_enabled_in_config base); [|done].
  destruct (strip_otics_keys base) as [b' removed]. destruct (negb _); [done|]. by destruct (violates_otics_floor _ _ _).
Qed.

(** Turning authenticated mode off touches no other connector. *)
Lemma strip_authenticated_spec s base :
  connector_on "enable_authenticated_mode" (strip_authenticated s base).1 = false
  /\ same_elsewhere base (strip_authenticated s base).1
  /\ forall key, str_eqb "enable_authenticated_mode" key = false ->
       connector_on key (strip_authenticated s base).1 = connector_on key base.
Proof.
  unfold strip_authenticated, connector_on. destruct (connectors_of base) as [d|] eqn:E; [|by cbn [fst]; rewrite E].
  destruct (truthy (get_or d "enable_authenticated_mode" VNone)) eqn:Et; cbn [fst].
  - rewrite connectors_set_eq. unfold get_or. split_and!; [by rewrite get_after_set|apply same_set_connectors|].
    intros key Hk. by rewrite get_after_set, Hk.
  - by rewrite E, Et.
Qed.

Lemma inject_target_spec target base base' : inject_target repr target base = Ok base' ->
  (target <> EmptyString -> exists section l, dict_get base' "targets" = Some (VDict section)
     /\ dict_get section (classify_target target) = Some (VList l) /\ VStr target ∈ l)
  /\ forall k, str_eqb "targets" k = false -> dict_get base' k = dict_get base k.
Proof.
  unfold inject_target. destruct target as [|c t]; cbn [truthy_str negb]; [by intros [= <-]|]. set (target := String c t).
  destruct (get_or base "targets" (VDict [])) as [| | | | | |section]; try done. intros [= <-]. split.
  - intros _. eexists _, _. split; [by rewrite get_after_set|]. split; [by rewrite get_after_set, str_eqb_refl|].
    destruct (existsb (names_target target) _) eqn:E; [|apply elem_of_app; right; left].
    apply existsb_exists in E as (v & Hv & Ht). apply list_elem_of_In in Hv.
    destruct v; try done. simpl in Ht. apply str_eqb_eq in Ht as ->. done.
  - intros k Hk. by rewrite get_after_set, Hk.
Qed.

Lemma with_defaults_keeps base k v : dict_get base k = Some v -> dict_get (with_defaults base) k = Some v.
Proof.
  unfold with_defaults. generalize MINIMAL_SCAN_CONFIG. intros l. revert base.
  induction l as [|e l IH]; intros base H; simpl; [done|]. apply IH.
  destruct (dict_get base e.1) eqn:E; [done|]. rewrite get_after_set.
  destruct (str_eqb e.1 k) eqn:E'; [|done]. apply str_eqb_eq in E'. congruence.
Qed.

(** What every generated configuration is. *)
Lemma finish_config_spec s dir now cfg log base :
  finish_config repr next_fire s dir now base = Ok (Generated cfg log) ->
  otics_permitted now s cfg /\ connector_on "enable_authenticated_mode" cfg = false
  /\ (strip (sc_target s) <> EmptyString -> exists section l, dict_get cfg "targets" = Some (VDict section)
        /\ dict_get section (classify_target (strip (sc_target s))) = Some (VList l) /\ VStr (strip (sc_target s)) ∈ l)
  /\ (exists o, dict_get cfg "output" = Some (VDict o) /\ dict_get o "directory" = Some (VStr dir))
  /\ dict_get cfg "security" = dict_get (with_defaults base) "security".
Proof.
  intros Hb. unfold finish_config in Hb. apply pbind_ok in Hb as (b1 & H1 & Hb).
  destruct (inject_target_spec _ _ _ H1) as [Ht He1].
  pose proof (gate_permits now s b1) as Hg. pose proof (gate_elsewhere now s b1) as He2.
  destruct (gate_otics next_fire now s b1) as [b2 log1]. cbn [fst] in Hg, He2.
  destruct (strip_authenticated_spec s b2) as (Ha & He3 & Hc).
  destruct (strip_authenticated s b2) as [b3 log2]. cbn [fst] in Ha, He3, Hc.
  apply pbind_ok in Hb as (b4 & H4 & Hb). injection Hb as <- _.
  unfold anchor_output in H4. destruct (get_or b3 "output" (VDict [])) as [| | | | | |o]; try done. injection H4 as <-.
  split_and!.
  - unfold otics_permitted, otics_enabled_in_config, recurring_otics_opted_in, OTICS_CONNECTOR_KEYS in *.
    cbn [existsb] in *. rewrite !connector_on_ne by done. rewrite !Hc by done. exact Hg.
  - by rewrite connector_on_ne.
  - intros Hne. destruct (Ht Hne) as (section & l & Hs & Hl). exists section, l. split; [|done].
    rewrite get_after_set. change (str_eqb "output" "targets") with false. cbn iota. by rewrite He3, He2.
  - exists (dict_set o "directory" (VStr dir)). by rewrite !get_after_set.
  - rewrite get_after_set. change (str_eqb "output" "security") with false. cbn iota. by rewrite He3, He2, He1.
Qed.

(** C11: whatever the configuration a schedule starts from, the one its scan runs with
    probes operational technology only if that was opted into and the cron expression
    keeps the cadence floor, never uses authenticated mode, contains the schedule's
    target under the kind it is, writes below the schedule's own directory, and, when
    generated from nothing, carries the server's trusted targets. *)
Theorem generated_config_is_safe s source security dir now cfg log :
  materialize_scan_config repr next_fire s source security dir now = Ok (Generated cfg log) ->
  otics_permitted now s cfg
  /\ connector_on "enable_authenticated_mode" cfg = false
  /\ (strip (sc_target s) <> EmptyString -> exists section l, dict_get cfg "targets" = Some (VDict section)
        /\ dict_get section (classify_target (strip (sc_target s))) = Some (VList l) /\ VStr (strip (sc_target s)) ∈ l)
  /\ (exists o, dict_get cfg "output" = Some (VDict o) /\ dict_get o "directory" = Some (VStr dir))
  /\ (source = None -> exists sec, security = Ok sec /\ (trusted_targets sec <> [] ->
        exists sd, dict_get cfg "security" = Some (VDict sd)
          /\ dict_get sd "trusted_targets" = Some (VList (trusted_targets sec)))).
Proof.
  unfold materialize_scan_config. intros H.
  destruct source as [doc|].
  - apply pbind_ok in H as (v & _ & H). apply pbind_ok in H as (base & _ & H).
    destruct (finish_config_spec _ _ _ _ _ _ H) as (? & ? & ? & ? & _). done.
  - apply pbind_ok in H as (sec & -> & H).
    assert (H' : finish_config repr next_fire s dir now (with_security sec MINIMAL_SCAN_CONFIG) = Ok (Generated cfg log)).
    { revert H. destruct (ss_error sec) as [[|c e]|]; intros H; [exact H|discriminate H|exact H]. }
    destruct (finish_config_spec _ _ _ _ _ _ H') as (H1 & H2 & H3 & H4 & H5). split_and!; try done. intros _. exists sec. split; [done|].
    intros Hne. unfold with_security in H5. destruct (trusted_targets sec) as [|t ts]; [done|].
    cbn [negb andb] in H5. eexists. rewrite H5. split; [apply with_defaults_keeps; by rewrite get_after_set|reflexivity].
Qed.
End Generated.

(** * The rows of an iteration *)

Section Rows.
Context (repr : pyval -> string) (next_fire : string -> Z -> option Z) (executable : string) (source : option (pyres pyval)).

Notation dispatch_schedule := (dispatch_schedule repr next_fire executable source).
Notation dispatch_due := (dispatch_due repr next_fire executable source).
Notation check_and_dispatch_due := (check_and_dispatch_due repr next_fire executable source).

(** A run that ended: with its instant, and completed or failed. *)
Definition ended (r : ScheduledRun) : Prop :=
  is_Some (sr_completed_at r) /\ (sr_status r = "completed" \/ sr_status r = "failed").

Lemma dispatch_schedule_spec w i s p : dispatch_schedule w i s = Ok p ->
  sr_id (dp_run p) = i /\ sr_schedule_id (dp_run p) = sc_id s /\ ended (dp_run p).
Proof.
  unfold Scheduler.dispatch_schedule, ended. intros H. destruct (_ && _); [injection H as <-; simpl; eauto|].
  apply pbind_ok in H as (base & _ & H). apply pbind_ok in H as (g & _ & H).
  destruct g as [r|cfg log]; injection H as <-; simpl; [eauto|].
  split_and!; [done|done|eauto|]. destruct (w_exit w) as [[| |]|]; auto.
Qed.

(** A schedule after the dispatches in a log. *)
Definition touched (log : list dispatched) (s : ScheduledScan) : ScheduledScan :=
  foldl (fun s p => if dp_ran p then touch_schedule (sr_schedule_id (dp_run p)) (sr_dispatched_at (dp_run p)) s else s) s log.

Lemma dispatch_due_spec surround now due d : NoDup (map sr_id (sd_runs d)) ->
  let it := dispatch_due surround now due d in
  sd_runs (it_db it) = sd_runs d ++ map dp_run (it_log it)
  /\ NoDup (map sr_id (sd_runs (it_db it)))
  /\ Forall ended (map dp_run (it_log it))
  /\ (exists rest, map sc_id due = map sr_schedule_id (map dp_run (it_log it)) ++ rest /\ (it_exn it = None -> rest = []))
  /\ sd_schedules (it_db it) = map (touched (it_log it)) (sd_schedules d).
Proof.
  revert d. induction due as [|s due IH]; intros d Hnd; simpl.
  - rewrite app_nil_r, map_id. split_and!; [done|done|constructor|by exists []|done].
  - destruct (Scheduler.dispatch_schedule _ _ _ _ _ _ _) as [p|e] eqn:E; simpl.
    2: { rewrite app_nil_r, map_id. split_and!; [done|done|constructor|by eexists|done]. }
    destruct (dispatch_schedule_spec _ _ _ _ E) as (Hi & Hs & Hp).
    destruct (IH (record_dispatch s p d)) as (H1 & H2 & H3 & (rest & H4 & H4') & H5).
    { simpl. rewrite map_app. apply NoDup_app. split; [done|]. split; [|simpl; apply NoDup_singleton].
      intros x Hx Hx'. simpl in Hx'. apply list_elem_of_singleton in Hx' as ->. rewrite Hi in Hx. by apply next_id_fresh in Hx. }
    split_and!.
    + rewrite H1. simpl. by rewrite <- app_assoc.
    + done.
    + by constructor.
    + exists rest. by rewrite H4, Hs.
    + rewrite H5. unfold touched at 2. cbn [foldl]. rewrite Hs. unfold record_dispatch. cbn [sd_schedules].
      destruct (dp_ran p); [by rewrite map_map|done].
Qed.

Lemma touched_ids log s : sc_id (touched log s) = sc_id s.
Proof.
  revert s. induction log as [|p log IH]; intros s; [done|]. simpl. rewrite IH.
  destruct (dp_ran p); [|done]. unfold touch_schedule. by destruct (_ =? _).
Qed.

Lemma touched_other log s : sc_id s ∉ map (fun p => sr_schedule_id (dp_run p)) log -> touched log s = s.
Proof.
  revert s. induction log as [|p log IH]; intros s; [done|]. simpl. rewrite not_elem_of_cons. intros [Hne Hin].
  destruct (dp_ran p); [|by apply IH]. unfold touch_schedule. rewrite (proj2 (Z.eqb_neq _ _) Hne). by apply IH.
Qed.

(** The one dispatch of a schedule in a log decides when it last ran. *)
Lemma touched_last log s p : NoDup (map (fun p => sr_schedule_id (dp_run p)) log) -> p ∈ log -> dp_ran p = true ->
  sr_schedule_id (dp_run p) = sc_id s ->
  sc_last_run_at (touched log s) = Some (sr_dispatched_at (dp_run p)) /\ sc_cron_expr (touched log s) = sc_cron_expr s.
Proof.
  revert s. induction log as [|q log IH]; intros s Hnd Hp Hr Hs; [by apply not_elem_of_nil in Hp|].
  simpl in Hnd. apply NoDup_cons in Hnd as [Hq Hnd]. simpl. apply elem_of_cons in Hp as [<-|Hp].
  - rewrite Hr. unfold touch_schedule. rewrite (proj2 (Z.eqb_eq _ _) (eq_sym Hs)).
    rewrite touched_other; [done|]. simpl. by rewrite <- Hs.
  - assert (Hne : sr_schedule_id (dp_run q) <> sc_id s).
    { intros E. apply Hq. rewrite E, <- Hs. apply list_elem_of_fmap. eauto. }
    destruct (dp_ran q); [|by apply IH]. unfold touch_schedule. rewrite (proj2 (Z.eqb_neq _ _)) by congruence. by apply IH.
Qed.

Lemma due_ids_nodup now d : NoDup (map sc_id (sd_schedules d)) -> NoDup (map sc_id (due_schedules next_fire now d)).
Proof. intros H. unfold due_schedules. by apply nodup_map_filter, nodup_map_filter. Qed.

End Rows.

(** * Samples *)

Module SampleSchedules.
Definition HOUR : Z := 60 * MINUTE.
Definition hourly (e : string) (b : Z) : option Z := Some ((b / HOUR + 1) * HOUR).
Definition repr (v : pyval) : string := "".
Definition no_dns (h : string) : option (list string) := None.

Definition schedule (id : Z) (name target : string) (last : option Z) : ScheduledScan :=
  {| sc_id := id; sc_name := name; sc_cron_expr := "0 * * * *"; sc_target := target; sc_profile := None;
     sc_enabled := true; sc_last_run_at := last; sc_created_at := 0; sc_check_in := None |}.

Definition file : pyval :=
  VDict [("connectors", VDict [("enable_modbus", VBool true); ("enable_authenticated_mode", VBool true)])].

Definition open_security : ServerSecurity :=
  {| allow_internal_targets := false; trusted_targets := [VStr "10.0.0.0/8"]; ss_error := None |}.
Definition unreadable : ServerSecurity :=
  {| allow_internal_targets := false; trusted_targets := []; ss_error := Some "config.yaml: ScannerError" |}.

Definition surround (sec : ServerSecurity) (now : Z) (id : Z) : surroundings :=
  {| w_started := now; w_finished := now + HOUR; w_output_base := Ok "output"; w_security := Ok sec; w_exit := Some 0 |}.

Definition db : sched_db :=
  {| sd_schedules := [schedule 1 "lan" "10.0.0.0/24" (Some 0); schedule 2 "dmz" "10.1.0.0/24" (Some 0)]; sd_runs := [] |}.

Definition materialize (s : ScheduledScan) (source : option (pyres pyval)) : pyres generated :=
  materialize_scan_config repr hourly s source (Ok open_security) "output/scheduled/lan/x" 0.
End SampleSchedules.

Lemma generated_config_is_safe_witness :
  exists cfg log,
    SampleSchedules.materialize (SampleSchedules.schedule 1 "lan" "10.0.0.0/24" None) (Some (Ok SampleSchedules.file))
    = Ok (Generated cfg log)
    /\ otics_permitted SampleSchedules.hourly 0 (SampleSchedules.schedule 1 "lan" "10.0.0.0/24" None) cfg
    /\ connector_on "enable_authenticated_mode" cfg = false.
Proof.
  eexists _, _. split; [vm_compute; reflexivity|].
  edestruct (generated_config_is_safe SampleSchedules.repr SampleSchedules.hourly
               (SampleSchedules.schedule 1 "lan" "10.0.0.0/24" None) (Some (Ok SampleSchedules.file))
               (Ok SampleSchedules.open_security) "output/scheduled/lan/x" 0) as (H1 & H2 & _);
    [vm_compute; reflexivity|].
  split; [exact H1|exact H2].
Defined.


(** A schedule that never ran and fires hourly is not due at half past: it waits for the
    hour, unlike what the scheduler's comment says. *)
Example never_run_waits :
  is_due SampleSchedules.hourly (SampleSchedules.HOUR / 2) (SampleSchedules.schedule 1 "lan" "10.0.0.0/24" None) = false.
Proof. vm_compute. reflexivity. Qed.

(** A run that fails because the settings cannot be read leaves its schedule due: the next
    iteration, a minute later, inserts another. *)
Example unreadable_settings_repeat :
  let iterate now d := it_db (check_and_dispatch_due SampleSchedules.repr SampleSchedules.hourly "python" None
                                (SampleSchedules.surround SampleSchedules.unreadable now) now d) in
  map (fun r => (sr_schedule_id r, sr_status r))
      (sd_runs (iterate (SampleSchedules.HOUR * 2 + MINUTE) (iterate (SampleSchedules.HOUR * 2) SampleSchedules.db)))
  = [(1, "failed"); (2, "failed"); (1, "failed"); (2, "failed")].
Proof. vm_compute. reflexivity. Qed.

(** A configuration with an empty targets section raises, and no schedule after the
    first is looked at. *)
Example one_exception_stops_all :
  let it := check_and_dispatch_due SampleSchedules.repr SampleSchedules.hourly "python"
              (Some (Ok (VDict [("targets", VNone)]))) (SampleSchedules.surround SampleSchedules.open_security 7200000000)
              7200000000 SampleSchedules.db in
  (it_log it, it_exn it) = ([], Some (AttributeError "get")).
Proof. vm_compute. reflexivity. Qed.

(** The sentinel target of a check-in is written into the generated configuration with
    the server's trusted targets, and the gate of the scan refuses it. *)
Definition check_in_row : ScheduledScan :=
  {| sc_id := 3; sc_name := "fleet"; sc_cron_expr := "0 * * * *"; sc_target := CHECK_IN_TARGET_SENTINEL;
     sc_profile := None; sc_enabled := true; sc_last_run_at := None; sc_created_at := 0; sc_check_in := Some true |}.

Example check_in_refused_by_gate :
  (match SampleSchedules.materialize check_in_row None with
   | Ok (Generated cfg _) =>
       match dict_get cfg "targets", dict_get cfg "security" with
       | Some (VDict t), Some (VDict sec) => (dict_get t "fqdns", dict_get sec "trusted_targets")
       | _, _ => (None, None)
       end
   | _ => (None, None)
   end) = (Some (VList [VStr "(known fleet)"]), Some (VList [VStr "10.0.0.0/8"]))
  /\ is_ok (enforce_trusted_targets SampleSchedules.no_dns (fun _ => None)
              {| gc_trusted := ["10.0.0.0/8"]; gc_fqdns := ["(known fleet)"]; gc_cidrs := []; gc_include_ips := [];
                 gc_connectors := [] |}) = false.
Proof. vm_compute. split; reflexivity. Qed.

(** The command line's removal keeps the runs, and the next schedule gets their number:
    it shows the status of runs that were not its own. *)
Example removed_runs_are_inherited :
  let d := {| sd_schedules := [SampleSchedules.schedule 1 "lan" "10.0.0.0/24" (Some 0)];
              sd_runs := [{| sr_id := 1; sr_schedule_id := 1; sr_dispatched_at := 0; sr_completed_at := Some 1;
                             sr_status := "completed"; sr_scan_output_path := None |}] |} in
  let d := (cmd_remove "lan" d).2 in
  match cmd_add SampleSchedules.no_dns (fun _ => true) (Ok default_security) false 5
          {| cr_name := "dmz"; cr_cron_expr := "0 * * * *"; cr_target := Some "10.9.0.0/24"; cr_profile := Some "balanced";
             cr_check_in := false |} d with
  | Ok (inr row, d) => (sc_id row, last_run_status d (sc_id row), build_scan_argv "python" row "c.yaml")
  | _ => (0, None, [])
  end = (1, Some "completed", ["python"; "-m"; "run_scan"; "--config"; "c.yaml"; "--profile"; "balanced"]).
Proof. vm_compute. reflexivity. Qed.
