(* ===== verification/Dashboard.v ===== *)
(** The findings of the dashboard ([dashboard/api/routes/scan.py]): what each
    endpoint row yields, the identity, motion and data-at-rest views, and the one
    recipe behind every dashboard score.

    A stored row is the [pushed_endpoint] of [Sensors]: its columns with its id,
    sensor and segment.  [now1] and [now2] are the successive readings of the clock
    by the two evaluators that read it, [loads] is [json.loads], [repr] the text of a
    value that is neither a string nor an integer. *)
From Stdlib Require Import ZArith QArith Lia Ascii.
From stdpp Require Import base tactics strings list pretty.
From S2P Require Import Prelude PyFloat PyStr PyVal Model FindingText Catalog Compliance Evidence Findings Deadlines Siem Sensors.

Local Open Scope Z_scope.
Local Open Scope quirk_scope.

(** * Findings of a row *)

Record FindingItem := {
  fi_id : option Z; fi_host : string; fi_port : Z; fi_severity : string; fi_title : string;
  fi_protocol : option string; fi_description : option string; fi_remediation : option string;
  fi_quantum_risk : option string; fi_source : option string; fi_category : option string;
  fi_sensor : option string; fi_segment : option string
}.

(** [model_dump()], as far as the evidence builder reads it. *)
Definition item_as_finding (f : FindingItem) : finding :=
  {| f_title := Some (fi_title f); f_severity := Some (fi_severity f); f_category := fi_category f;
     f_host := Some (fi_host f); f_port := Some (fi_port f) |}.

(** What the checks of a row fill in. *)
Record verdict := {
  vd_severity : string; vd_title : string; vd_protocol : option string; vd_description : string;
  vd_remediation : string; vd_quantum_risk : option string; vd_category : option string; vd_source : string
}.

Definition tls_verdict (severity title description remediation : string) (quantum_risk : option string) : verdict :=
  {| vd_severity := severity; vd_title := title; vd_protocol := Some "TLS"; vd_description := description;
     vd_remediation := remediation; vd_quantum_risk := quantum_risk; vd_category := None; vd_source := "tls" |}.

Definition item_of (pe : pushed_endpoint) (v : verdict) : FindingItem :=
  {| fi_id := Some (pe_id pe); fi_host := ep_host (er_ep (pe_row pe)); fi_port := ep_port (er_ep (pe_row pe));
     fi_severity := vd_severity v; fi_title := vd_title v; fi_protocol := vd_protocol v;
     fi_description := Some (vd_description v); fi_remediation := Some (vd_remediation v);
     fi_quantum_risk := vd_quantum_risk v; fi_source := Some (vd_source v); fi_category := vd_category v;
     fi_sensor := pe_sensor pe; fi_segment := pe_segment pe |}.

Definition QS_DISPLAY : list (string * string) :=
  [("quantum-safe", "Safe"); ("quantum-vulnerable", "Vulnerable"); ("hybrid", "At Risk"); ("unknown", "Unknown")].

Definition quantum_display (alg : string) : string :=
  default "Unknown" (alookup (quantum_safety_label (classify_algorithm alg).1.2) QS_DISPLAY).

Definition jwks_check (ep : CryptoEndpoint) : list verdict :=
  if str_eqb (proto_of ep) "ADVISORY" && column_is (ep_service_detail ep) ADVISORY_JWKS_VERIFY_DISABLED then
    [{| vd_severity := "HIGH"; vd_title := "JWKS fetched with TLS certificate verification disabled";
        vd_protocol := Some "ADVISORY";
        vd_description := "The JWKS was fetched with TLS certificate verification disabled (allow_insecure_jwks), so the keys could have been supplied by a network attacker.";
        vd_remediation := "Install a certificate the scanner trusts on the JWKS endpoint and remove the allow_insecure_jwks setting.";
        vd_quantum_risk := None; vd_category := Some "config_advisory"; vd_source := "jwt" |}]
  else [].

Definition http_check (ep : CryptoEndpoint) : list verdict :=
  if str_eqb (proto_of ep) "HTTP" then
    [{| vd_severity := "HIGH"; vd_title := "Unencrypted HTTP service"; vd_protocol := Some "HTTP";
        vd_description := "Service is accessible over plaintext HTTP without TLS.";
        vd_remediation := "Enable TLS and redirect HTTP to HTTPS.";
        vd_quantum_risk := None; vd_category := None; vd_source := "tls" |}]
  else [].

Definition legacy_check (ep : CryptoEndpoint) : list verdict :=
  let v := str_or_empty (ep_tls_version ep) in
  if truthy_str (ep_tls_version ep) && str_in v ["TLSv1"; "TLSv1.1"; "TLS 1.0"; "TLS 1.1"] then
    [tls_verdict "HIGH" ("Legacy TLS version: " +:+ v)
       ("Server accepts " +:+ v +:+ " which is deprecated and insecure.")
       "Disable TLSv1.0 and TLSv1.1. Enforce TLS 1.2 minimum, prefer TLS 1.3." None]
  else [].

Definition weak_cipher_check (e : endpoint_row) : list verdict :=
  if default false (er_flag e "tls_weak_ciphers_present") then
    [tls_verdict "HIGH" "Weak cipher suites enabled"
       "Server accepts cipher suites with known weaknesses (RC4, DES, NULL, EXPORT, etc.)."
       "Restrict cipher suites to ECDHE/DHE forward-secret suites with AES-GCM or ChaCha20." None]
  else [].

(** [(cert_expiry - now).days]: whole days, rounded down. *)
Definition expiry_check (now : Z) (ep : CryptoEndpoint) : list verdict :=
  match ep_cert_not_after ep with
  | None => []
  | Some d =>
      let days_to_expiry := (as_utc_naive d - now) / US_PER_DAY in
      if days_to_expiry <? 0 then
        [tls_verdict "CRITICAL" "Certificate expired"
           ("Certificate expired " +:+ pretty (Z.abs days_to_expiry) +:+ " day(s) ago.")
           "Renew the certificate immediately." None]
      else if days_to_expiry <? 30 then
        [tls_verdict "MEDIUM" ("Certificate expiring in " +:+ pretty days_to_expiry +:+ " day(s)")
           "Certificate expires within 30 days."
           "Renew certificate before expiry to avoid service interruption." None]
      else []
  end.

Definition is_rsa_named (ep : CryptoEndpoint) : bool := startswith (upper (str_or_empty (ep_cert_pubkey_alg ep))) "RSA".

Definition rsa_check (ep : CryptoEndpoint) : list verdict :=
  match ep_cert_pubkey_size ep with
  | Some size =>
      if truthy_str (ep_cert_pubkey_alg ep) && is_rsa_named ep && negb (size =? 0) && (size <? 2048) then
        [tls_verdict "HIGH" "TLS certificate uses undersized RSA key"
           ("Certificate uses a " +:+ pretty size +:+ "-bit RSA key, below the classical 2048-bit minimum.")
           ("RSA-" +:+ pretty size +:+ " is below the 2048-bit classical minimum. Migrate to RSA-2048+ or ECDSA P-256 immediately.")
           (Some "Vulnerable")]
      else []
  | None => []
  end.

Definition quantum_check (ep : CryptoEndpoint) : list verdict :=
  if truthy_str (ep_cert_pubkey_alg ep) && negb (is_rsa_named ep) then
    let alg := str_or_empty (ep_cert_pubkey_alg ep) in
    let qs := quantum_display alg in
    if str_in qs ["Vulnerable"; "At Risk"] then
      [{| vd_severity := "MEDIUM"; vd_title := "Quantum-" +:+ lower qs +:+ " algorithm: " +:+ alg;
          vd_protocol := ep_protocol ep;
          vd_description := alg +:+ " is classified as quantum-" +:+ lower qs +:+ " under NIST PQC evaluation.";
          vd_remediation := "Plan migration to a post-quantum algorithm per the NIST PQC roadmap.";
          vd_quantum_risk := Some qs; vd_category := None; vd_source := "tls" |}]
    else []
  else [].

(** Identity protocols have findings of their own. *)
Definition IDENTITY_PROTOCOLS : list string := ["KERBEROS"; "SAML"; "DNSSEC"].

(** [{"CRITICAL": 0, ...}.get(severity, 99)] *)
Definition SEVERITY_ORDER : list (string * Z) :=
  [("CRITICAL", 0); ("HIGH", 1); ("MEDIUM", 2); ("LOW", 3); ("INFO", 4)].

Definition severity_index (severity : string) : Z := default 99 (alookup severity SEVERITY_ORDER).

Definition by_severity {A} (severity : A -> string) : list A -> list A :=
  py_sorted (fun a b => severity_index (severity a) <=? severity_index (severity b)).

(** * Motion *)

Definition MOTION_EMAIL_PROTOCOLS : list string :=
  ["SMTP-STARTTLS"; "SMTPS"; "IMAP-STARTTLS"; "IMAPS"; "POP3-STARTTLS"; "POP3S"].
Definition MOTION_BROKER_PLAIN : list string := ["KAFKA-PLAIN"; "AMQP-PLAIN"; "REDIS-PLAIN"].
Definition MOTION_BROKER_TLS : list string :=
  ["KAFKA-TLS"; "AMQPS"; "AMQPS/Azure-ServiceBus"; "HTTPS/AWS-SQS"; "REDIS-TLS"].
Definition MOTION_PROTOCOLS : list string := MOTION_EMAIL_PROTOCOLS ++ MOTION_BROKER_PLAIN ++ MOTION_BROKER_TLS.
Definition MOTION_LEGACY_TLS : list string := ["TLSv1"; "TLSv1.0"; "TLSv1.1"].

Record MotionFinding := {
  mf_host : string; mf_port : Z; mf_severity : string; mf_title : string; mf_protocol : string;
  mf_description : string; mf_remediation : string; mf_tls_version : option string; mf_cipher_suite : option string;
  mf_cert_not_after : option string; mf_quantum_risk : string; mf_plaintext : bool; mf_starttls_warning : bool
}.

(** A column that is empty counts as absent. *)
Definition or_none (o : option string) : option string := if truthy_str o then o else None.

(** Severity, title, quantum risk, description and remediation. *)
Definition motion_texts (proto : string) (port : Z) (tls_version cipher_suite : option string)
  : string * string * string * string * string :=
  if str_in proto MOTION_BROKER_PLAIN then
    ("HIGH", proto +:+ " plaintext listener exposed", "n/a (plaintext)",
     proto +:+ " listener accepts plaintext traffic — credentials and message bodies traverse the network unencrypted.",
     "Disable plaintext listener; require TLS-only with modern ciphers and plan PQC migration.")
  else if (port =? 25) && str_eqb proto "SMTP-STARTTLS" then
    ("MEDIUM", "SMTP STARTTLS susceptible to stripping (port 25)", "depends on negotiated cipher",
     "Port 25 SMTP with opportunistic STARTTLS can be downgraded to plaintext by an active attacker (STARTTLS stripping).",
     "Enforce MTA-STS / DANE, prefer submission on 587 with required STARTTLS, and monitor for downgrade attempts.")
  else if str_in proto MOTION_BROKER_TLS && match tls_version with Some v => str_in v MOTION_LEGACY_TLS | None => false end then
    let v := str_or_empty tls_version in
    ("HIGH", proto +:+ " legacy TLS version (" +:+ v +:+ ")", "quantum-vulnerable",
     proto +:+ " endpoint negotiated legacy TLS version " +:+ v
       +:+ ", which is deprecated and exposes traffic to known protocol weaknesses.",
     "Upgrade broker/client to TLS 1.2+ (prefer TLS 1.3), disable legacy versions, and plan PQC migration.")
  else
    ("LOW", proto +:+ " TLS endpoint",
     if contains (str_or_empty cipher_suite) "RSA" then "quantum-vulnerable" else "quantum-unknown",
     proto +:+ " is using TLS. Verify cipher suite and certificate strength.",
     "Enforce TLS 1.2+, disable weak ciphers, and plan PQC migration.").

Definition motion_finding (ep : CryptoEndpoint) : option MotionFinding :=
  let proto := str_or_empty (ep_protocol ep) in
  if negb (str_in proto MOTION_PROTOCOLS) then None
  else
    let tls_version := or_none (ep_tls_version ep) in
    let cipher_suite := or_none (ep_cipher_suite ep) in
    let '(severity, title, quantum_risk, description, remediation) :=
      motion_texts proto (ep_port ep) tls_version cipher_suite in
    Some {| mf_host := ep_host ep; mf_port := ep_port ep; mf_severity := severity; mf_title := title;
            mf_protocol := proto; mf_description := description; mf_remediation := remediation;
            mf_tls_version := tls_version; mf_cipher_suite := cipher_suite;
            mf_cert_not_after := stamp_utc_iso (as_utc_naive <$> ep_cert_not_after ep);
            mf_quantum_risk := quantum_risk; mf_plaintext := str_in proto MOTION_BROKER_PLAIN;
            mf_starttls_warning := (ep_port ep =? 25) && str_eqb proto "SMTP-STARTTLS" |}.

Definition derive_motion_findings (endpoints : list CryptoEndpoint) : list MotionFinding :=
  by_severity mf_severity (omap motion_finding endpoints).

(** * Data at rest *)

Definition DAR_PROTOCOLS : list string :=
  ["POSTGRESQL"; "MYSQL"; "RDS"; "S3"; "AZURE_BLOB"; "KUBERNETES"; "VAULT"].

Record DarFinding := {
  df_host : string; df_port : Z; df_severity : string; df_title : string; df_protocol : string; df_category : string;
  df_encryption_at_rest : option bool; df_tls_in_transit : option bool; df_encryption_mode : option string;
  df_kms_key_id : option string; df_namespace : option string; df_secret_type : option string;
  df_encryption_provider : option string; df_mount_type : option string; df_remediation : option string
}.

(** What the helpers share: an address, a severity, a title, a protocol and a category. *)
Definition dar_base (ep : CryptoEndpoint) (title protocol category : string) : DarFinding :=
  {| df_host := ep_host ep; df_port := ep_port ep;
     df_severity := if truthy_str (ep_severity ep) then str_or_empty (ep_severity ep) else "INFO";
     df_title := title; df_protocol := protocol; df_category := category;
     df_encryption_at_rest := None; df_tls_in_transit := None; df_encryption_mode := None; df_kms_key_id := None;
     df_namespace := None; df_secret_type := None; df_encryption_provider := None; df_mount_type := None;
     df_remediation := None |}.

Definition with_encryption (enc tls : option bool) (mode kms : option string) (f : DarFinding) : DarFinding :=
  {| df_host := df_host f; df_port := df_port f; df_severity := df_severity f; df_title := df_title f;
     df_protocol := df_protocol f; df_category := df_category f; df_encryption_at_rest := enc;
     df_tls_in_transit := tls; df_encryption_mode := mode; df_kms_key_id := kms; df_namespace := df_namespace f;
     df_secret_type := df_secret_type f; df_encryption_provider := df_encryption_provider f;
     df_mount_type := df_mount_type f; df_remediation := df_remediation f |}.

Definition with_cluster (enc : option bool) (namespace secret_type provider : option string) (f : DarFinding) : DarFinding :=
  {| df_host := df_host f; df_port := df_port f; df_severity := df_severity f; df_title := df_title f;
     df_protocol := df_protocol f; df_category := df_category f; df_encryption_at_rest := enc;
     df_tls_in_transit := df_tls_in_transit f; df_encryption_mode := df_encryption_mode f;
     df_kms_key_id := df_kms_key_id f; df_namespace := namespace; df_secret_type := secret_type;
     df_encryption_provider := provider; df_mount_type := df_mount_type f; df_remediation := df_remediation f |}.

Definition with_mount (mount_type remediation : option string) (f : DarFinding) : DarFinding :=
  {| df_host := df_host f; df_port := df_port f; df_severity := df_severity f; df_title := df_title f;
     df_protocol := df_protocol f; df_category := df_category f; df_encryption_at_rest := df_encryption_at_rest f;
     df_tls_in_transit := df_tls_in_transit f; df_encryption_mode := df_encryption_mode f;
     df_kms_key_id := df_kms_key_id f; df_namespace := df_namespace f; df_secret_type := df_secret_type f;
     df_encryption_provider := df_encryption_provider f; df_mount_type := mount_type; df_remediation := remediation |}.

Definition dar_db (ep : CryptoEndpoint) (proto : string) : DarFinding :=
  let sd := detail_of ep in
  let '(enc, tls) :=
    if contains sd "ssl-enforced" then (Some true, Some true)
    else if contains sd "ssl-off" || contains sd "plaintext-connections-allowed" then (Some false, Some false)
    else if contains sd "-weak" || contains sd "-ok" then (Some true, Some true)
    else (None, None) in
  with_encryption enc tls None None (dar_base ep (proto +:+ " encryption posture") proto "database").

Definition dar_rds (ep : CryptoEndpoint) : DarFinding :=
  let sd := detail_of ep in
  let '(enc, kms) :=
    if str_eqb sd "RDS/none" then (Some false, None)
    else if str_eqb sd "RDS/sse-rds" then (Some true, None)
    else if str_eqb sd "RDS/sse-kms-aws" then (Some true, Some "AWS-managed")
    else if str_eqb sd "RDS/sse-kms-cmk" then (Some true, Some "CMK")
    else (None, None) in
  with_encryption enc None None kms (dar_base ep "RDS encryption-at-rest" "RDS" "database").

(** [(dat.get(key) or "").lower()] *)
Definition lower_entry (dat : pydict) (key : string) : pyres string :=
  let v := get_or dat key VNone in
  if negb (truthy v) then Ok EmptyString
  else match v with VStr s => Ok (lower s) | _ => Raise (AttributeError "lower") end.

Section Dar.
Context (loads : string -> option pyval) (repr : pyval -> string).

Definition dar_s3 (ep : CryptoEndpoint) (dat : pydict) : pyres DarFinding :=
  let! sd := lower_entry dat "service_detail" in
  let '(enc, mode, kms) :=
    if str_eqb sd "s3/unencrypted" then (Some false, Some "none", None)
    else if str_eqb sd "s3/sse-s3" then (Some true, Some "SSE-S3", None)
    else if str_eqb sd "s3/sse-kms-aws" then (Some true, Some "SSE-KMS", Some "AWS-managed")
    else if str_eqb sd "s3/sse-kms-cmk" then (Some true, Some "SSE-KMS", Some "CMK")
    else (None, None, None) in
  let bucket := py_str repr (get_or dat "bucket" (VStr "")) in
  Ok (with_encryption enc None mode kms (dar_base ep (strip ("S3 bucket " +:+ bucket)) "S3" "object_storage")).

Definition dar_azure_blob (ep : CryptoEndpoint) (dat : pydict) : pyres DarFinding :=
  let! key_source := lower_entry dat "key_source" in
  let mode := if str_eqb key_source "microsoft.keyvault" then "CMK" else "SSE-S3" in
  let text k := py_str repr (get_or dat k (VStr "")) in
  Ok (with_encryption (Some true) None (Some mode) None
        (dar_base ep ("Azure Blob " +:+ text "account" +:+ "/" +:+ text "container") "AZURE_BLOB" "object_storage")).

(** An optional text field of the schema refuses other values. *)
Definition optional_text (v : pyval) : pyres (option string) :=
  match v with
  | VNone => Ok None
  | VStr s => Ok (Some s)
  | _ => Raise (ValueError "Input should be a valid string")
  end.

(** [-x[1]] *)
Definition count_value (v : pyval) : pyres Q :=
  match v with
  | VInt z => Ok (inject_Z z)
  | VBool b => Ok (if b then 1 else 0)%Q
  | VFloat q => Ok q
  | _ => Raise (TypeError "bad operand type for unary -")
  end.

(** The counts, larger first. *)
Definition secret_types (counts : pydict) : pyres (option string) :=
  let! keyed := ptraverse (fun kv => let! n := count_value kv.2 in Ok (n, kv)) counts in
  let sorted := map snd (py_sorted (fun a b => Qle_bool b.1 a.1) keyed) in
  Ok (or_none (Some (str_join ", " (map (fun kv => kv.1 +:+ ":" +:+ py_str repr kv.2) sorted)))).

Definition k8s_namespace (ep : CryptoEndpoint) (dat : pydict) : pyres DarFinding :=
  let ns := get_or dat "namespace" (VStr "") in
  let counts := get_or dat "secret_type_counts" (VDict []) in
  let! secret_type := if negb (truthy counts) then Ok None
                      else match counts with
                           | VDict c => secret_types c
                           | _ => Raise (AttributeError "items")
                           end in
  let! namespace := if truthy ns then optional_text ns else Ok None in
  Ok (with_cluster None namespace secret_type None
        (dar_base ep ("K8s secrets in namespace " +:+ py_str repr ns) "KUBERNETES" "kubernetes")).

(** Some entry of [encryptionConfig] covers the secrets; the first hit ends the search. *)
Fixpoint covers_secrets (entries : list pyval) : pyres bool :=
  match entries with
  | [] => Ok false
  | VDict entry :: rest =>
      let resources := get_or entry "resources" VNone in
      let! hit := if truthy resources then member "secrets" resources else Ok false in
      if hit then Ok true else covers_secrets rest
  | _ :: rest => covers_secrets rest
  end.

Definition eks_encrypted (dat : pydict) : pyres bool :=
  let cfg := get_or dat "encryptionConfig" VNone in
  if negb (truthy cfg) then Ok false
  else match iterate cfg with
       | Some entries => covers_secrets entries
       | None => Raise (TypeError "object is not iterable")
       end.

(** [dat.get("current_state") == 2] *)
Definition is_two (v : pyval) : bool :=
  match v with VInt z => z =? 2 | VFloat q => Qeq_bool q 2 | _ => false end.

Definition k8s_cluster (ep : CryptoEndpoint) (dat : pydict) : pyres DarFinding :=
  let provider := let v := get_or dat "provider" (VStr "") in if truthy v then v else VStr "" in
  let provider_is name := match provider with VStr s => str_eqb s name | _ => false end in
  let made encrypted enc_provider :=
    with_cluster encrypted None None enc_provider
      (dar_base ep ((if truthy provider then py_str repr provider else "K8s") +:+ " cluster etcd encryption") "KUBERNETES" "kubernetes") in
  let named label (b : bool) := made (Some b) (if b then Some label else None) in
  if provider_is "EKS" then let! b := eks_encrypted dat in Ok (named "EKS/KMS" b)
  else if provider_is "GKE" then Ok (named "GKE/Cloud-KMS" (is_two (get_or dat "current_state" VNone)))
  else if provider_is "AKS" then Ok (named "AKS/Key-Vault" (truthy (get_or dat "kv_kms_enabled" VNone)))
  else Ok (made None None).

Definition dar_k8s (ep : CryptoEndpoint) (dat : pydict) : pyres DarFinding :=
  if bool_decide (is_Some (dict_get dat "namespace")) then k8s_namespace ep dat else k8s_cluster ep dat.

(** [.strip(": ")] *)
Definition strip_colons (s : string) : string :=
  let drop c := bool_decide (c = ":"%char) || bool_decide (c = " "%char) in rstrip_by drop (lstrip_by drop s).

Definition dar_vault (ep : CryptoEndpoint) (dat : pydict) : pyres DarFinding :=
  let has k := bool_decide (is_Some (dict_get dat k)) in
  let text k := py_str repr (get_or dat k (VStr "")) in
  let '(mount_type, title) :=
    if has "key_name" then (Some "transit", strip_colons ("Vault transit key: " +:+ text "key_type"))
    else if has "mount_point" then (Some "pki", "Vault PKI: " +:+ text "mount_point")
    else if has "auth_path" then (Some "auth", "Vault auth: " +:+ text "auth_type")
    else (None, "Vault endpoint") in
  let! remediation := optional_text (get_or dat "remediation" VNone) in
  Ok (with_mount mount_type remediation (dar_base ep title "VAULT" "vault")).

(** The parsed [dat_scan_json] is used as a dictionary. *)
Definition on_dict (f : pydict -> pyres DarFinding) (dat : pyval) : pyres DarFinding :=
  match dat with VDict d => f d | _ => Raise (AttributeError "get") end.

Definition dar_of (ep : CryptoEndpoint) (proto : string) (dat : pyval) : pyres DarFinding :=
  if str_in proto ["POSTGRESQL"; "MYSQL"] then Ok (dar_db ep proto)
  else if str_eqb proto "RDS" then Ok (dar_rds ep)
  else if str_eqb proto "S3" then on_dict (dar_s3 ep) dat
  else if str_eqb proto "AZURE_BLOB" then on_dict (dar_azure_blob ep) dat
  else if str_eqb proto "KUBERNETES" then on_dict (dar_k8s ep) dat
  else on_dict (dar_vault ep) dat.

(** A row that errored, is of another protocol or carries a blob that does not
    parse yields nothing. *)
Definition dar_finding (e : endpoint_row) : pyres (option DarFinding) :=
  let ep := er_ep e in
  let proto := proto_of ep in
  if has_error ep || negb (str_in proto DAR_PROTOCOLS) then Ok None
  else
    let raw := er_text e "dat_scan_json" in
    if truthy_str raw then
      match loads (str_or_empty raw) with
      | None => Ok None
      | Some dat => let! f := dar_of ep proto dat in Ok (Some f)
      end
    else let! f := dar_of ep proto (VDict []) in Ok (Some f).

Definition derive_dar_findings (endpoints : list endpoint_row) : pyres (list DarFinding) :=
  let! found := ptraverse dar_finding endpoints in
  Ok (by_severity df_severity (omap id found)).
End Dar.

(** * Identity *)

Record IdentityFinding := {
  if_host : string; if_port : Z; if_severity : string; if_title : string; if_protocol : option string;
  if_description : option string; if_remediation : option string; if_quantum_risk : option string;
  if_source : option string; if_algorithm : string
}.

(** The dictionary of a report evaluator, adapted. *)
Definition identity_of_report (f : report_finding) : IdentityFinding :=
  let extra k := alookup k (rf_extras f) in
  {| if_host := rf_host f; if_port := rf_port f; if_severity := rf_severity f; if_title := rf_title f;
     if_protocol := extra "protocol"; if_description := Some (rf_description f);
     if_remediation := Some (rf_recommendation f); if_quantum_risk := Some (rf_quantum_risk f);
     if_source := extra "source"; if_algorithm := str_or_empty (extra "algorithm") |}.

(** [service_detail] is [etype:id:name:severity]. *)
Definition kerberos_finding (ep : CryptoEndpoint) : option IdentityFinding :=
  match split_on ":"%char (detail_of ep) with
  | tag :: etype_id :: name :: severity :: _ =>
      if str_eqb tag "etype" && str_in severity ["CRITICAL"; "HIGH"] then
        Some {| if_host := ep_host ep; if_port := ep_port ep; if_severity := severity;
                if_title := "Kerberos weak etype: " +:+ name; if_protocol := Some "KERBEROS";
                if_description := Some ("KDC accepts etype " +:+ etype_id +:+ " (" +:+ name +:+ ") which is classified as "
                  +:+ severity +:+ ". RC4 and DES etypes are cryptographically weak and quantum-vulnerable.");
                if_remediation := Some "Disable RC4-HMAC and DES etypes in KDC configuration. Enforce AES-256 (etype 18/20) as minimum.";
                if_quantum_risk := Some "Vulnerable"; if_source := Some "kerberos"; if_algorithm := name |}
      else None
  | _ => None
  end.

Definition DNSSEC_WEAK_MAP : list (string * (string * string)) :=
  [("RSASHA1", ("CRITICAL", "RSASHA1 (algorithm 5) uses SHA-1 which is collision-vulnerable"));
   ("RSASHA1-NSEC3-SHA1", ("CRITICAL", "RSASHA1-NSEC3-SHA1 (algorithm 7) uses SHA-1"));
   ("RSAMD5", ("CRITICAL", "RSAMD5 (algorithm 1) uses MD5 which is broken"));
   ("DSA", ("CRITICAL", "DSA (algorithm 3) is deprecated by NIST"));
   ("DSA-NSEC3-SHA1", ("CRITICAL", "DSA-NSEC3-SHA1 (algorithm 6) is deprecated"));
   ("NONE", ("HIGH", "Zone has no DNSSEC signing — DNS responses are unauthenticated"));
   ("SHA1-DS", ("HIGH", "DS record uses SHA-1 digest — vulnerable to collision attacks"));
   ("DS-MISMATCH", ("HIGH", "DS record key tag does not match any DNSKEY — broken chain of trust"));
   ("NSEC", ("MEDIUM", "Zone uses NSEC records — enables zone enumeration by walking"))].

Definition dnssec_remediation (alg severity : string) : string :=
  if str_eqb alg "NONE" then "Deploy DNSSEC signing with a strong algorithm."
  else if str_eqb alg "SHA1-DS" then "Replace SHA-1 DS digest with SHA-256 (digest type 2)."
  else if str_eqb alg "DS-MISMATCH" then "Verify DS records match published DNSKEYs."
  else if str_eqb severity "CRITICAL" then "Migrate to ECDSAP256SHA256 (algorithm 13) or Ed25519 (algorithm 15) per RFC 8624."
  else "Consider using NSEC3 with opt-out to prevent zone walking.".

Definition dnssec_finding (ep : CryptoEndpoint) : option IdentityFinding :=
  let alg := upper (str_or_empty (ep_cert_pubkey_alg ep)) in
  match alookup alg DNSSEC_WEAK_MAP with
  | None => None
  | Some (severity, desc) =>
      Some {| if_host := ep_host ep; if_port := ep_port ep; if_severity := severity;
              if_title := "DNSSEC: " +:+ replace "_" " " (replace "-" " " alg); if_protocol := Some "DNSSEC";
              if_description := Some desc; if_remediation := Some (dnssec_remediation alg severity);
              if_quantum_risk := if str_eqb severity "CRITICAL" then Some "Vulnerable" else None;
              if_source := Some "dnssec"; if_algorithm := str_or_empty (ep_cert_pubkey_alg ep) |}
  end.

(** The SAML findings first, then the rows in order. *)
Definition identity_finding (ep : CryptoEndpoint) : option IdentityFinding :=
  if str_eqb (proto_of ep) "KERBEROS" then kerberos_finding ep
  else if str_eqb (proto_of ep) "DNSSEC" then dnssec_finding ep
  else None.

Definition derive_identity_findings (endpoints : list endpoint_row) : pyres (list IdentityFinding) :=
  let! saml := evaluate_identity_endpoints (List.filter (fun e => str_eqb (proto_of (er_ep e)) "SAML") endpoints) in
  Ok (by_severity if_severity (map identity_of_report saml ++ omap (fun e => identity_finding (er_ep e)) endpoints)).

(** * The one recipe *)

Definition item_of_identity (f : IdentityFinding) : FindingItem :=
  {| fi_id := None; fi_host := if_host f; fi_port := if_port f; fi_severity := if_severity f; fi_title := if_title f;
     fi_protocol := if_protocol f; fi_description := if_description f; fi_remediation := if_remediation f;
     fi_quantum_risk := if_quantum_risk f; fi_source := if_source f; fi_category := None; fi_sensor := None;
     fi_segment := None |}.

Definition item_of_report (f : report_finding) : FindingItem :=
  {| fi_id := None; fi_host := rf_host f; fi_port := rf_port f; fi_severity := rf_severity f; fi_title := rf_title f;
     fi_protocol := alookup "protocol" (rf_extras f); fi_description := Some (rf_description f);
     fi_remediation := Some (rf_recommendation f); fi_quantum_risk := Some (rf_quantum_risk f);
     fi_source := alookup "source" (rf_extras f); fi_category := None; fi_sensor := None; fi_segment := None |}.

Section Recipe.
Context (loads : string -> option pyval) (now1 now2 : nat -> Z).

Definition issuer_check (e : endpoint_row) : list verdict :=
  let issuer := strip (str_or_empty (ep_cert_issuer (er_ep e))) in
  let subject := strip (str_or_empty (ep_cert_subject (er_ep e))) in
  let both := negb (str_eqb issuer EmptyString) && negb (str_eqb subject EmptyString) in
  if both && str_eqb issuer subject then
    [tls_verdict "HIGH" "TLS certificate is self-signed"
       "This certificate is self-signed and is not issued by a trusted certificate authority. Clients cannot verify the server's identity and are exposed to man-in-the-middle interception."
       "Replace with a certificate issued by a trusted CA (public or internal PKI)." None]
  else if both && bool_decide (chain_verified loads e = Some false) then
    [tls_verdict "MEDIUM" "TLS certificate issued by untrusted CA"
       "This certificate chains to a certificate authority not in the system trust store. Clients cannot verify the server's identity."
       "Replace with a certificate from a publicly trusted CA, or add the issuing CA to the system trust store if it is an internal PKI." None]
  else [].

(** The checks in order; those of a certificate only for a TLS row. *)
Definition row_verdicts (now : Z) (e : endpoint_row) : list verdict :=
  let ep := er_ep e in
  jwks_check ep ++ http_check ep
  ++ (if runs_tls_certificate_checks ep then
        legacy_check ep ++ weak_cipher_check e ++ expiry_check now ep ++ rsa_check ep ++ issuer_check e ++ quantum_check ep
      else []).

Definition findings_for_endpoint (now : Z) (pe : pushed_endpoint) : list FindingItem :=
  map (item_of pe) (row_verdicts now (pe_row pe)).

Definition derive_findings (endpoints : list pushed_endpoint) : list FindingItem :=
  by_severity fi_severity
    (concat (imap (fun i pe => if str_in (proto_of (er_ep (pe_row pe))) IDENTITY_PROTOCOLS then []
                               else findings_for_endpoint (now1 i) pe) endpoints)).

Definition derive_dashboard_finding_items (endpoints : list pushed_endpoint) : pyres (list FindingItem) :=
  let rows := map pe_row endpoints in
  let! identity := derive_identity_findings rows in
  let! service := evaluate_protocol_service_endpoints loads now2 rows in
  Ok (derive_findings endpoints ++ map item_of_identity identity ++ map item_of_report service).

Definition derive_dashboard_scoring_findings (endpoints : list pushed_endpoint) : pyres (list finding) :=
  let! items := derive_dashboard_finding_items endpoints in Ok (map item_as_finding items).

(** The endpoint with an id, and its finding of a title. *)
Definition finding_by_id_and_title (table : list pushed_endpoint) (endpoint_id : Z) (title : string)
  : option pushed_endpoint * option FindingItem :=
  match List.find (fun pe => pe_id pe =? endpoint_id) table with
  | None => (None, None)
  | Some pe => (Some pe, List.find (fun f => str_eqb (fi_title f) title) (findings_for_endpoint (now1 0%nat) pe))
  end.
End Recipe.
