(* ===== verification/DashboardProps.v ===== *)
(** Properties of the dashboard's findings: they agree with the report's, a shown
    finding can be looked up again, and nothing is lost on the way to the list. *)
From Stdlib Require Import ZArith Lia Ascii.
From stdpp Require Import base tactics sets strings list pretty.
From S2P Require Import Prelude PyStr PyVal Model FindingText Evidence Scoring Findings FindingsProps Sensors Dashboard.

Local Open Scope Z_scope.

(** * Parity with the report *)

(** The conditions both engines test, by the report's title. *)
Definition SHARED_TITLES : list string :=
  ["TLS certificate expired"; "TLS certificate expiring within 30 days"; "TLS certificate uses undersized RSA key";
   "TLS certificate is self-signed"; "TLS certificate issued by untrusted CA"].

Definition shared_of_verdict (v : verdict) : option (string * string) :=
  match canonical_cli_title (vd_title v) with
  | Some t => if str_in t SHARED_TITLES then Some (t, vd_severity v) else None
  | None => None
  end.

Definition shared_of_draft (d : draft) : option (string * string) :=
  if str_in (dr_title d) SHARED_TITLES then Some (dr_title d, dr_severity d) else None.

(** A key whose algorithm both engines read the same way. *)
Definition key_read_alike (ep : CryptoEndpoint) : bool :=
  let alg := str_or_empty (ep_cert_pubkey_alg ep) in
  Bool.eqb (startswith (upper alg) "RSA") (str_eqb (upper (strip alg)) "RSA")
  && negb (bool_decide (ep_cert_pubkey_size ep = Some 0)).

Lemma canonical_expiring n :
  canonical_cli_title ("Certificate expiring in " +:+ n +:+ " day(s)") = Some "TLS certificate expiring within 30 days".
Proof. destruct n; vm_compute; reflexivity. Qed.

Lemma canonical_legacy v :
  canonical_cli_title ("Legacy TLS version: " +:+ v) = Some "Legacy TLS versions allowed (TLS 1.0/1.1)".
Proof. destruct v; vm_compute; reflexivity. Qed.

Lemma canonical_quantum qs alg : canonical_cli_title ("Quantum-" +:+ qs +:+ " algorithm: " +:+ alg) = None.
Proof. destruct qs; vm_compute; reflexivity. Qed.

Lemma days_expired a now : ((a - now) / US_PER_DAY <? 0) = (a <? now).
Proof.
  unfold US_PER_DAY. destruct (a <? now) eqn:E; [apply Z.ltb_lt in E|apply Z.ltb_ge in E].
  - apply Z.ltb_lt. apply Z.div_lt_upper_bound; lia.
  - apply Z.ltb_ge. apply Z.div_le_lower_bound; lia.
Qed.

Lemma days_expiring a now : ((a - now) / US_PER_DAY <? 30) = (a <? now + EXPIRING_WINDOW).
Proof.
  unfold EXPIRING_WINDOW, US_PER_DAY. destruct (a <? _) eqn:E; [apply Z.ltb_lt in E|apply Z.ltb_ge in E].
  - apply Z.ltb_lt. apply Z.div_lt_upper_bound; lia.
  - apply Z.ltb_ge. apply Z.div_le_lower_bound; lia.
Qed.

Lemma expiry_parity now ep :
  omap shared_of_verdict (expiry_check now ep) = omap shared_of_draft (expiry_drafts now ep).
Proof.
  unfold expiry_check, expiry_drafts. destruct (ep_cert_not_after ep) as [d|]; [|done].
  rewrite days_expired, days_expiring. destruct (_ <? now); [done|]. destruct (_ <? _); [|done].
  cbn [omap list_omap]. unfold shared_of_verdict. cbn [vd_title tls_verdict]. by rewrite canonical_expiring.
Qed.

Lemma issuer_parity loads e :
  omap shared_of_verdict (issuer_check loads e) = omap shared_of_draft (issuer_drafts loads e).
Proof.
  unfold issuer_check, issuer_drafts. destruct (negb _ && negb _); [|done]. cbn [andb].
  destruct (str_eqb _ _); [done|]. cbn [negb andb]. by destruct (bool_decide _).
Qed.

Lemma key_parity ep :
  key_read_alike ep = true -> omap shared_of_verdict (rsa_check ep) = omap shared_of_draft (key_drafts ep).
Proof.
  unfold key_read_alike, rsa_check, key_drafts, is_rsa_named. intros [E1%Bool.eqb_prop E2%negb_true_iff]%andb_true_iff.
  apply bool_decide_eq_false in E2. rewrite E1. set (alg := upper (strip _)).
  destruct (str_eqb alg "RSA") eqn:Er.
  - assert (truthy_str (ep_cert_pubkey_alg ep) = true) as ->.
    { destruct (ep_cert_pubkey_alg ep) as [[|c s]|]; [discriminate Er|reflexivity|discriminate Er]. }
    destruct (ep_cert_pubkey_size ep) as [size|]; [|done].
    assert (size =? 0 = false) as -> by (apply Z.eqb_neq; intros ->; by apply E2).
    cbn [andb negb]. by destruct (size <? 2048).
  - assert (omap shared_of_draft (if str_eqb alg "ECDSA" then
              match ep_cert_pubkey_size ep with
              | Some size => if size <? 256 then [ecdsa_undersized size] else [ecdsa_quantum]
              | None => [ecdsa_quantum]
              end else []) = []) as ->.
    { destruct (str_eqb alg "ECDSA"); [|done]. destruct (ep_cert_pubkey_size ep) as [size|]; [|done]. by destruct (size <? 256). }
    destruct (ep_cert_pubkey_size ep) as [size|]; [|done]. by rewrite andb_false_r.
Qed.

Lemma quantum_unshared ep : omap shared_of_verdict (quantum_check ep) = [].
Proof.
  unfold quantum_check. destruct (_ && _); [|done]. destruct (str_in _ _); [|done].
  cbn [omap list_omap]. unfold shared_of_verdict. cbn [vd_title]. by rewrite canonical_quantum.
Qed.

Lemma legacy_unshared ep : omap shared_of_verdict (legacy_check ep) = [].
Proof.
  unfold legacy_check. destruct (_ && _); [|done]. cbn [omap list_omap]. unfold shared_of_verdict.
  cbn [vd_title tls_verdict]. by rewrite canonical_legacy.
Qed.


(** * Looking a finding up *)

Lemma nodup_tagged {A} (tag : A -> nat) (ls : list (list A)) k :
  (forall i l, ls !! i = Some l -> (length l <= 1)%nat /\ forall x, x ∈ l -> tag x = (k + i)%nat) -> NoDup (concat ls).
Proof.
  revert k. induction ls as [|l ls IH]; intros k H; simpl; [constructor|]. apply NoDup_app. split; [|split].
  - destruct (H 0%nat l eq_refl) as [Hl _]. destruct l as [|x [|y l]]; [constructor|by apply NoDup_singleton|simpl in Hl; lia].
  - intros x Hx (l' & Hx' & [i Hi]%list_elem_of_lookup)%elem_of_concat.
    pose proof (proj2 (H 0%nat l eq_refl) x Hx). pose proof (proj2 (H (S i) l' Hi) x Hx'). lia.
  - apply (IH (S k)). intros i l' Hi. destruct (H (S i) l' Hi) as [Hl Ht]. split; [done|]. intros x Hx. rewrite (Ht x Hx). lia.
Qed.

(** The check a title comes from. *)
Definition check_of (title : string) : nat :=
  match title with
  | String c _ =>
      if bool_decide (c = "J"%char) then 0 else if bool_decide (c = "U"%char) then 1
      else if bool_decide (c = "L"%char) then 2 else if bool_decide (c = "W"%char) then 3
      else if bool_decide (c = "C"%char) then 4
      else if bool_decide (c = "T"%char) then if startswith title "TLS certificate uses" then 5 else 6
      else 7
  | EmptyString => 8
  end.

Definition checks (loads : string -> option pyval) (now : Z) (e : endpoint_row) : list (list verdict) :=
  let ep := er_ep e in
  let tls (l : list verdict) := if runs_tls_certificate_checks ep then l else [] in
  [jwks_check ep; http_check ep; tls (legacy_check ep); tls (weak_cipher_check e); tls (expiry_check now ep);
   tls (rsa_check ep); tls (issuer_check loads e); tls (quantum_check ep)].

Lemma row_verdicts_checks loads now e : row_verdicts loads now e = concat (checks loads now e).
Proof.
  unfold row_verdicts, checks. simpl. destruct (runs_tls_certificate_checks _); [|done]. by rewrite app_nil_r.
Qed.

Lemma check_titled loads now e i l v :
  checks loads now e !! i = Some l -> (length l <= 1)%nat /\ (v ∈ l -> check_of (vd_title v) = i).
Proof.
  assert (Hnil : forall i, (length (@nil verdict) <= 1)%nat /\ (v ∈ @nil verdict -> check_of (vd_title v) = i))
    by (intros; split; [simpl; lia|by intros ?%elem_of_nil]).
  assert (Hone : forall x i, check_of (vd_title x) = i ->
    (length [x] <= 1)%nat /\ (v ∈ [x] -> check_of (vd_title v) = i)) by (intros x j Hx; split; [simpl; lia|by intros ->%list_elem_of_singleton]).
  unfold checks. destruct (runs_tls_certificate_checks (er_ep e));
    destruct i as [|[|[|[|[|[|[|[|i]]]]]]]]; simpl; try (intros; discriminate); intros H; apply (inj Some) in H as <-; try apply Hnil.
  all: unfold jwks_check, http_check, legacy_check, weak_cipher_check, expiry_check, rsa_check, issuer_check, quantum_check.
  all: repeat case_match; try apply Hnil; apply Hone; reflexivity.
Qed.

Lemma titles_distinct loads now e : NoDup (map vd_title (row_verdicts loads now e)).
Proof.
  rewrite row_verdicts_checks, concat_map. apply (nodup_tagged check_of _ 0). intros i l Hl. rewrite list_lookup_fmap in Hl.
  destruct (checks loads now e !! i) as [vs|] eqn:E; [|done]. injection Hl as <-. split.
  - rewrite length_map. apply (check_titled loads now e i vs {| vd_severity := ""; vd_title := ""; vd_protocol := None;
      vd_description := ""; vd_remediation := ""; vd_quantum_risk := None; vd_category := None; vd_source := "" |} E).
  - intros t (v & -> & Hv)%list_elem_of_fmap. by apply (check_titled loads now e i vs v E).
Qed.

Lemma find_by_key {A B} `{EqDecision B} (key : A -> B) (p : A -> bool) x l :
  NoDup (map key l) -> x ∈ l -> (forall y, p y = true <-> key y = key x) -> List.find p l = Some x.
Proof.
  intros Hnd Hx Hp. induction l as [|y l IH]; [by apply elem_of_nil in Hx|]. simpl in *. apply NoDup_cons in Hnd as [Hy Hnd].
  apply elem_of_cons in Hx as [->|Hx].
  - by rewrite (proj2 (Hp y) eq_refl).
  - destruct (p y) eqn:E; [|by apply IH]. exfalso. apply Hy. apply Hp in E. rewrite E. apply list_elem_of_fmap. eauto.
Qed.

(** A finding that was shown can be looked up.  Over a table with unique ids,
    every finding of the dashboard's list comes from one row, and looking it up by
    its id and title at the same instant gives back that row and that very finding. *)
Theorem shown_finding_resolves (loads : string -> option pyval) (now : Z) (table : list pushed_endpoint) (f : FindingItem)
  (Hids : NoDup (map pe_id table)) (Hf : f ∈ derive_findings loads (fun _ => now) table) :
  exists pe id, pe ∈ table /\ fi_id f = Some id /\ pe_id pe = id
  /\ finding_by_id_and_title loads (fun _ => now) table id (fi_title f) = (Some pe, Some f).
Proof.
  unfold derive_findings, by_severity in Hf. rewrite py_sorted_perm in Hf.
  apply elem_of_concat in Hf as (l & Hf & [i Hi]%list_elem_of_lookup). rewrite list_lookup_imap in Hi.
  destruct (table !! i) as [pe|] eqn:E; [|done]. simpl in Hi. injection Hi as <-.
  destruct (str_in _ _); [by apply elem_of_nil in Hf|]. assert (Hpe : pe ∈ table) by (apply list_elem_of_lookup; eauto).
  exists pe, (pe_id pe). split; [done|]. split; [by apply list_elem_of_fmap in Hf as (v & -> & _)|]. split; [done|].
  unfold finding_by_id_and_title. rewrite (find_by_key pe_id _ pe table Hids Hpe) by (intros y; apply Z.eqb_eq).
  f_equal. apply (find_by_key fi_title); [|done|intros y; apply str_eqb_eq].
  unfold findings_for_endpoint. rewrite map_map. apply titles_distinct.
Qed.

(** * The score *)

(** An expired certificate holds the dashboard's score.  When a TLS row's
    certificate has expired at the reading of the clock for it, the score of the
    dashboard's findings is 34 or less and rated POOR, whatever else was found and
    whatever the profile: as in the report. *)
Theorem expired_certificate_rates_poor (loads : string -> option pyval) (now1 now2 : nat -> Z) (table : list pushed_endpoint)
  (fs : list finding) (i : nat) (pe : pushed_endpoint) (d : datetime) (days : Z) (ref : option datetime)
  (profile : option string) (overrides : pydict) (r : score_result) (s : Z)
  (Hfs : derive_dashboard_scoring_findings loads now1 now2 table = Ok fs)
  (Hpe : table !! i = Some pe) (Htls : runs_tls_certificate_checks (er_ep (pe_row pe)) = true)
  (Hna : ep_cert_not_after (er_ep (pe_row pe)) = Some d) (Hexp : as_utc_naive d < now1 i)
  (Hr : compute_readiness_score (build_evidence_summary (map (fun x => er_ep (pe_row x)) table) fs days ref) profile overrides = Ok r)
  (Hs : r_score r = Some s) :
  s <= 34 /\ r_rating r = "POOR".
Proof.
  unfold derive_dashboard_scoring_findings in Hfs. apply pbind_ok in Hfs as (items & Hitems & Hfs). injection Hfs as <-.
  unfold derive_dashboard_finding_items in Hitems. apply pbind_ok in Hitems as (idf & _ & Hitems).
  apply pbind_ok in Hitems as (srv & _ & Hitems). injection Hitems as <-.
  set (v := tls_verdict "CRITICAL" "Certificate expired"
              ("Certificate expired " +:+ pretty (Z.abs ((as_utc_naive d - now1 i) / US_PER_DAY)) +:+ " day(s) ago.")
              "Renew the certificate immediately." None).
  assert (Hv : v ∈ row_verdicts loads (now1 i) (pe_row pe)).
  { unfold row_verdicts. rewrite Htls. rewrite !elem_of_app. do 4 right. left. unfold expiry_check. rewrite Hna, days_expired.
    rewrite (proj2 (Z.ltb_lt _ _) Hexp). by left. }
  assert (Hf : item_of pe v ∈ derive_findings loads now1 table).
  { unfold derive_findings, by_severity. rewrite py_sorted_perm. apply elem_of_concat.
    exists (findings_for_endpoint loads (now1 i) pe). split; [apply list_elem_of_fmap; eauto|].
    apply list_elem_of_lookup. exists i. rewrite list_lookup_imap, Hpe. simpl. f_equal.
    unfold runs_tls_certificate_checks, proto_is, proto_of in *. destruct (ep_protocol _) as [p|]; [|done].
    by apply str_eqb_eq in Htls as ->. }
  eapply critical_count_rates_poor; [exact Hr|exact Hs|].
  apply (critical_finding_counted _ _ (item_as_finding (item_of pe v))); [|reflexivity|reflexivity].
  apply list_elem_of_fmap. exists (item_of pe v). split; [done|]. apply elem_of_app. by left.
Qed.

(** * Samples *)

Definition shown_row (alg : string) (size not_after : Z) : endpoint_row :=
  FindingsProps.sample_row "h" 443 "TLS" None (Some "TLSv1.3") (Some not_after) (Some (alg, size)).
Definition stored (id : Z) (e : endpoint_row) : pushed_endpoint :=
  {| pe_id := id; pe_row := e; pe_sensor := None; pe_segment := None; pe_push := None |}.
Definition noon (_ : nat) : Z := 20000 * US_PER_DAY.
Definition silent (_ : string) : option pyval := None.
Definition weak_row : endpoint_row := shown_row "RSA" 1024 (19999 * US_PER_DAY).


(** The engines read a key's algorithm differently: the report the exact name, the
    dashboard a prefix of it. *)
Example rsa_pss_key_only_on_dashboard :
  let e := shown_row "RSASSA-PSS" 1024 (21000 * US_PER_DAY) in
  omap shared_of_verdict (row_verdicts silent (noon 0) e) = [("TLS certificate uses undersized RSA key", "HIGH")]
  /\ omap shared_of_draft (map snd (row_drafts silent (noon 0) e)) = [].
Proof. vm_compute. split; reflexivity. Qed.

Lemma shown_finding_resolves_witness : exists f pe,
  f ∈ derive_findings silent (fun _ => noon 0) [stored 7 weak_row] /\ fi_title f = "Certificate expired"
  /\ finding_by_id_and_title silent (fun _ => noon 0) [stored 7 weak_row] 7 (fi_title f) = (Some pe, Some f).
Proof.
  destruct (derive_findings silent (fun _ => noon 0) [stored 7 weak_row]) as [|f l] eqn:E; [vm_compute in E; discriminate E|].
  assert (Hf : f ∈ derive_findings silent (fun _ => noon 0) [stored 7 weak_row]) by (rewrite E; left).
  assert (Ht : fi_title f = "Certificate expired").
  { apply (f_equal (fun l => match l with x :: _ => fi_title x | [] => EmptyString end)) in E. symmetry. vm_compute in E. exact E. }
  assert (Hids : NoDup (map pe_id [stored 7 weak_row])) by (apply NoDup_singleton).
  destruct (shown_finding_resolves silent (noon 0) [stored 7 weak_row] f Hids Hf) as (pe & id & Hpe & _ & Hid & Hlook).
  exists f, pe. split; [by rewrite <- E|]. split; [exact Ht|].
  apply list_elem_of_singleton in Hpe. rewrite Hpe in Hid. simpl in Hid. rewrite <- Hid in Hlook. exact Hlook.
Defined.

Lemma expired_certificate_rates_poor_witness : exists fs r s,
  derive_dashboard_scoring_findings silent noon noon [stored 7 weak_row] = Ok fs
  /\ compute_readiness_score (build_evidence_summary [er_ep weak_row] fs 30 None) None [] = Ok r
  /\ r_score r = Some s /\ s <= 34.
Proof.
  destruct (derive_dashboard_scoring_findings silent noon noon [stored 7 weak_row]) as [fs|] eqn:E;
    [|vm_compute in E; discriminate E].
  destruct (compute_readiness_score (build_evidence_summary [er_ep weak_row] fs 30 None) None []) as [r|] eqn:Er;
    [|vm_compute in E; injection E as <-; vm_compute in Er; discriminate Er].
  destruct (r_score r) as [s|] eqn:Es;
    [|exfalso; vm_compute in E; injection E as <-; vm_compute in Er; injection Er as <-; vm_compute in Es; discriminate Es].
  exists fs, r, s. split; [reflexivity|]. split; [exact Er|]. split; [exact Es|].
  refine (proj1 (expired_certificate_rates_poor silent noon noon [stored 7 weak_row] fs 0 (stored 7 weak_row)
    (naive (19999 * US_PER_DAY)) 30 None None [] r s E eq_refl eq_refl eq_refl _ Er Es)).
  vm_compute. reflexivity.
Defined.
