(* ===== verification/ScanView.v ===== *)
(** The scan routes of the dashboard ([dashboard/api/routes/scan.py]): which rows a
    session is, the list of sessions, and the parts of the page of one scan that
    are read from its endpoints.

    The tables are read, never written.  Clock readings within one request agree:
    [now] is the instant of the request.  [fromisoformat] is [datetime.fromisoformat]
    ([None] where it raises), [stored_profile] the profile of the last intelligence
    file.  Instants are far enough from the ends of the calendar for the windows. *)
From Stdlib Require Import ZArith QArith Lia Ascii.
From stdpp Require Import base tactics strings list pretty.
From S2P Require Import Prelude PyFloat PyStr PyVal Model Hardware HwDrift Compliance Scoring Evidence Findings Confidence Remediation Roadmap ScoreLift Closure Deadlines Burndown Bridge ExposureMap Trends Siem Sensors Jobs Dashboard.

Local Open Scope Z_scope.
Local Open Scope quirk_scope.

(** * Tables *)

(** A job's row, with the columns its lifecycle does not read. *)
Record job_view := { jv_row : ScanJob; jv_profile : option string; jv_calibration : option string }.

(** A device's row, with its other text columns by name. *)
Record hw_view := { hv_row : hw_row; hv_text : string -> option string }.

Record ScanCheckpoint := {
  ck_scan : string; ck_stage : string; ck_partial_failure : bool; ck_error_summary : option string
}.

Record view_db := {
  vd_endpoints : list pushed_endpoint; vd_items : list RemediationItem; vd_fps : list RemediationItemFingerprint;
  vd_jobs : list job_view; vd_devices : list hw_view; vd_drift : list HardwareDriftEvent;
  vd_checkpoints : list ScanCheckpoint
}.

(** The tables the burndown reads. *)
Definition core_db (d : view_db) : db :=
  {| db_endpoints := map pe_row (vd_endpoints d); db_items := vd_items d; db_fps := vd_fps d; db_events := [];
     db_sigs := []; db_calls := 0%nat |}.

(** A route's result, or the status of its error. *)
Inductive route (A : Type) := Reply (a : A) | Status (code : Z).
Arguments Reply {A} a.
Arguments Status {A} code.

Definition run_id_of (pe : pushed_endpoint) : option string := ep_scan_run_id (er_ep (pe_row pe)).
Definition stamp_of (pe : pushed_endpoint) : option Z := scanned_us (pe_row pe).

(** [scan_run_id = key]; NULL equals nothing. *)
Definition in_run (key : string) (pe : pushed_endpoint) : bool := bool_decide (run_id_of pe = Some key).
Definition unkeyed (pe : pushed_endpoint) : bool := bool_decide (run_id_of pe = None).

Definition stamped_within (lo hi : Z) (pe : pushed_endpoint) : bool :=
  match stamp_of pe with Some t => (lo <=? t) && (t <=? hi) | None => false end.

Definition floor_s (us : Z) : Z := us - us mod 1000000.

(** [isoformat()] of an instant with an offset. *)
Definition offset_text (us : Z) : string :=
  let s := Z.abs us / 1000000 in
  (if us <? 0 then "-" else "+") +:+ zpad 2 (s / 3600) +:+ ":" +:+ zpad 2 (s / 60 mod 60)
  +:+ (if s mod 60 =? 0 then EmptyString else ":" +:+ zpad 2 (s mod 60)).

Definition iso_datetime (t : datetime) : string :=
  isoformat (dt_wall t) +:+ match dt_offset t with Some o => offset_text o | None => EmptyString end.

(** * Sessions *)

(** [_fetch_session_endpoints_1s] *)
Definition fetch_session_endpoints_1s (d : view_db) (ts : Z) : list pushed_endpoint :=
  List.filter (fun pe => match stamp_of pe with
                         | Some t => (ts <=? t) && (t <? ts + 1000000) && unkeyed pe
                         | None => false
                         end) (vd_endpoints d).

(** A row without a run id is grouped by its second. *)
Definition session_name (ts : Z) (run_id : option string) : string :=
  if truthy_str run_id then str_or_empty run_id else replace "T" " " (isoformat (floor_s ts)).

(** The rows and the earliest instant of each session, in order of appearance. *)
Definition add_to_group (groups : list (string * (Z * Z))) (pe : pushed_endpoint) : list (string * (Z * Z)) :=
  match stamp_of pe with
  | None => groups
  | Some ts =>
      let key := session_name ts (run_id_of pe) in
      aset key (match alookup key groups with
                | None => (1, ts)
                | Some (n, earliest) => (n + 1, Z.min earliest ts)
                end) groups
  end.

Definition session_groups (d : view_db) : list (string * (Z * Z)) := foldl add_to_group [] (vd_endpoints d).

(** The job that ran a session: by its run id, else the first whose run id starts
    like the session's earliest instant. *)
Definition job_of_session (name : string) (ts : Z) (jobs : list job_view) : option job_view :=
  let run j := sj_scan_run_id (jv_row j) in
  match List.find (fun j => bool_decide (run j = Some name)) jobs with
  | Some j => Some j
  | None => List.find (fun j => match run j with
                                | Some r => startswith r (str_take 19 (isoformat ts))
                                | None => false
                                end) jobs
  end.

Definition host_of (pe : pushed_endpoint) : string := ep_host (er_ep (pe_row pe)).

(** [sorted({ep.host for ep in eps if ep.host})] *)
Definition hosts_of (eps : list pushed_endpoint) : list string :=
  sorted_strings (remove_dups (List.filter (fun h => truthy_str (Some h)) (map host_of eps))).

(** The graded rows that answered. *)
Definition graded (pe : pushed_endpoint) : bool :=
  negb (errored (pe_row pe)) && truthy_str (ep_severity (er_ep (pe_row pe))).

Record ScanSession := {
  sv_scan_id : string; sv_scanned_at : Z; sv_total_endpoints : Z; sv_score : option Z; sv_profile : option string;
  sv_calibration : option string; sv_target : option string; sv_counts : Z * Z * Z; sv_rating : string;
  sv_cap_reason : option string
}.

Section Scans.
Context (loads : string -> option pyval) (repr : pyval -> string) (fromisoformat : string -> option datetime).
Context (now : Z).

Definition fetch_session_endpoints_by_id (d : view_db) (scan_id : string) : list pushed_endpoint :=
  match List.filter (in_run scan_id) (vd_endpoints d) with
  | [] => match fromisoformat scan_id with
          | None => []
          | Some ts => fetch_session_endpoints_1s d (dt_wall ts)
          end
  | eps => eps
  end.

Definition clock (_ : nat) : Z := now.

Definition evidence_of (eps : list pushed_endpoint) (findings : list finding) : pydict :=
  build_evidence_summary (map (fun pe => er_ep (pe_row pe)) eps) findings 30 None.

(** The one score of a set of rows. *)
Definition dashboard_score (eps : list pushed_endpoint) (profile : option string) : pyres score_result :=
  let! findings := derive_dashboard_scoring_findings loads clock clock eps in
  compute_readiness_score (evidence_of eps findings) profile [].

Definition session_view (d : view_db) (group : string * (Z * Z)) : pyres ScanSession :=
  let '(name, (n, ts)) := group in
  let eps := fetch_session_endpoints_by_id d name in
  let job := job_of_session name ts (vd_jobs d) in
  let calibration := job ≫= jv_calibration in
  let keyed := map (fun pe => (key_of_row (pe_row pe), ep_severity (er_ep (pe_row pe)))) (List.filter graded eps) in
  let made score rating reason :=
    {| sv_scan_id := name; sv_scanned_at := ts; sv_total_endpoints := n; sv_score := score;
       sv_profile := job ≫= jv_profile; sv_calibration := calibration;
       sv_target := match job with
                    | Some j => Some (sj_target (jv_row j))
                    | None => match hosts_of eps with [] => None | hosts => Some (str_join ", " hosts) end
                    end;
       sv_counts := count_by_bucket (map fst keyed) keyed; sv_rating := rating; sv_cap_reason := reason |} in
  match eps with
  | [] => Ok (made None EmptyString None)
  | _ => let! r := dashboard_score eps calibration in
         Ok (made (r_score r) (r_rating r) (r_rating_cap_reason r))
  end.

(** [GET /scans]: newest first. *)
Definition list_scans (d : view_db) : pyres (list ScanSession) :=
  ptraverse (session_view d) (py_sorted (fun a b => b.2.2 <=? a.2.2) (session_groups d)).

(** ** The rows of one scan *)

Definition SESSION_BRACKET : Z := 300000000.

(** The lifetime of the job that ran the scan. *)
Definition job_window_rows (d : view_db) (scan_id : string) : list pushed_endpoint :=
  match List.find (fun j => bool_decide (sj_scan_run_id (jv_row j) = Some scan_id)) (vd_jobs d) with
  | Some j => match sj_started_at (jv_row j) with
              | Some started => List.filter (fun pe => stamped_within started (default now (sj_completed_at (jv_row j))) pe
                                                       && unkeyed pe) (vd_endpoints d)
              | None => []
              end
  | None => []
  end.

Definition first_nonempty {A} (l : list A) (other : list A) : list A := match l with [] => other | _ => l end.

(** By run id, else the rows without one of the same second, else of the job's lifetime. *)
Definition rows_of_scan (d : view_db) (scan_id : string) (target_ts : Z) : list pushed_endpoint :=
  let second := floor_s target_ts in
  first_nonempty (List.filter (in_run scan_id) (vd_endpoints d))
    (first_nonempty (List.filter (fun pe => stamped_within second (second + 999999) pe && unkeyed pe) (vd_endpoints d))
       (job_window_rows d scan_id)).

(** The row [ORDER BY scanned_at DESC] gives first; NULL is last. *)
Definition stamp_desc (a b : pushed_endpoint) : bool :=
  match stamp_of a, stamp_of b with
  | Some x, Some y => y <=? x
  | Some _, None | None, None => true
  | None, Some _ => false
  end.

Definition latest_row (d : view_db) : option pushed_endpoint := head (py_sorted stamp_desc (vd_endpoints d)).

(** The run of the latest row, else the rows of the five minutes up to it; [None]
    is the [TypeError] of a table without instants. *)
Definition latest_rows (d : view_db) (latest : pushed_endpoint) : option (list pushed_endpoint) :=
  match run_id_of latest with
  | Some run => Some (List.filter (in_run run) (vd_endpoints d))
  | None => match stamp_of latest with
            | Some ts => Some (List.filter (stamped_within (ts - SESSION_BRACKET) ts) (vd_endpoints d))
            | None => None
            end
  end.

Definition in_segment (segment : option string) (eps : list pushed_endpoint) : list pushed_endpoint :=
  match segment with
  | Some s => List.filter (fun pe => bool_decide (pe_segment pe = Some s)) eps
  | None => eps
  end.

(** The instant shown and the rows of the page. *)
Definition resolve_scan (d : view_db) (scan_id segment : option string) : route (option datetime * list pushed_endpoint) :=
  let finish ts eps := match in_segment segment eps with [] => Status 404 | eps => Reply (ts, eps) end in
  match scan_id with
  | Some id =>
      match fromisoformat id with
      | None => Status 400
      | Some ts => finish (Some ts) (rows_of_scan d id (dt_wall ts))
      end
  | None =>
      match latest_row d with
      | None => Status 404
      | Some latest => match latest_rows d latest with
                       | None => Status 500
                       | Some eps => finish (ep_scanned_at (er_ep (pe_row latest))) eps
                       end
      end
  end.

(** * The page of one scan *)

Record CertItem := {
  ci_host : string; ci_port : Z; ci_subject : option string; ci_issuer : option string; ci_not_after : option datetime;
  ci_pubkey_alg : option string; ci_pubkey_size : option Z; ci_quantum_safety : option string
}.

(** A failed handshake is no certificate. *)
Definition is_real_cert_endpoint (ep : CryptoEndpoint) : bool :=
  truthy_str (ep_cert_subject ep) && negb (truthy_str (ep_scan_error ep)).

Definition cert_quantum_safety (algorithm : option string) : option string :=
  if truthy_str algorithm then Some (quantum_display (str_or_empty algorithm)) else None.

Definition cert_item (ep : CryptoEndpoint) : CertItem :=
  {| ci_host := ep_host ep; ci_port := ep_port ep; ci_subject := ep_cert_subject ep; ci_issuer := ep_cert_issuer ep;
     ci_not_after := ep_cert_not_after ep; ci_pubkey_alg := ep_cert_pubkey_alg ep;
     ci_pubkey_size := ep_cert_pubkey_size ep; ci_quantum_safety := cert_quantum_safety (ep_cert_pubkey_alg ep) |}.

(** [datetime.max] without a date. *)
Definition cert_expiry_key (c : CertItem) : option Z := as_utc_naive <$> ci_not_after c.

Definition sooner (a b : CertItem) : bool :=
  match cert_expiry_key a, cert_expiry_key b with
  | Some x, Some y => x <=? y
  | _, None => true
  | None, Some _ => false
  end.

(** The certificates, and the number of TLS rows that are none. *)
Definition certificates_of (eps : list pushed_endpoint) : list CertItem * Z :=
  let tls := List.filter (fun ep => str_eqb (proto_of ep) "TLS") (map (fun pe => er_ep (pe_row pe)) eps) in
  let real := List.filter is_real_cert_endpoint tls in
  (py_sorted sooner (map cert_item real), Z.of_nat (length tls) - Z.of_nat (length real)).

(** ** Algorithms *)

Record algo_info := {
  ai_quantum_safety : string; ai_key_size : pyval; ai_type : string; ai_sources : list string;
  ai_segments : list (option string)
}.

Record CbomComponent := {
  cb_algorithm : string; cb_type : string; cb_key_size : pyval; cb_quantum_safety : string;
  cb_source_systems : list string; cb_segment : option string
}.

Definition int_value (o : option Z) : pyval := match o with Some z => VInt z | None => VNone end.

Definition source_of (pe : pushed_endpoint) : string := host_of pe +:+ ":" +:+ pretty (ep_port (er_ep (pe_row pe))).

(** The entry of an algorithm, made on first use, with the row among its sources. *)
Definition use_algorithm (pe : pushed_endpoint) (qs : string) (key_size : pyval) (kind alg : string)
    (algo_map : list (string * algo_info)) : list (string * algo_info) :=
  let info := default {| ai_quantum_safety := qs; ai_key_size := key_size; ai_type := kind; ai_sources := []; ai_segments := [] |}
                (alookup alg algo_map) in
  aset alg {| ai_quantum_safety := ai_quantum_safety info; ai_key_size := ai_key_size info; ai_type := ai_type info;
              ai_sources := ai_sources info ++ [source_of pe];
              ai_segments := ai_segments info ++ [pe_segment pe] |} algo_map.

Definition use_certificate (pe : pushed_endpoint) (m : list (string * algo_info)) : list (string * algo_info) :=
  let ep := er_ep (pe_row pe) in
  if truthy_str (ep_cert_pubkey_alg ep) then
    let alg := str_or_empty (ep_cert_pubkey_alg ep) in
    use_algorithm pe (quantum_display alg) (int_value (ep_cert_pubkey_size ep)) "signature" alg m
  else m.

Definition use_tls_version (pe : pushed_endpoint) (m : list (string * algo_info)) : list (string * algo_info) :=
  let v := ep_tls_version (er_ep (pe_row pe)) in
  if truthy_str v then use_algorithm pe "Unknown" VNone "protocol" ("TLS-" +:+ str_or_empty v) m else m.

Definition SSH_TYPE : list (string * string) :=
  [("kex", "key-exchange"); ("key", "signature"); ("enc", "cipher"); ("mac", "hash")].

(** An algorithm that is no string ends in an exception: no key of the map, or none
    of the component's schema. *)
Definition use_ssh_entry (pe : pushed_endpoint) (alg_type : string) (m : list (string * algo_info)) (entry : pyval)
  : pyres (list (string * algo_info)) :=
  match entry with
  | VDict d =>
      match get_or d "algorithm" VNone with
      | VStr alg => if truthy_str (Some alg)
                    then Ok (use_algorithm pe (quantum_display alg) (get_or d "keysize" VNone) alg_type alg m) else Ok m
      | v => if truthy v then Raise (TypeError "algorithm is not a string") else Ok m
      end
  | _ => Ok m
  end.

Definition use_ssh_section (pe : pushed_endpoint) (ssh_data : pydict) (m : list (string * algo_info))
    (section : string * string) : pyres (list (string * algo_info)) :=
  match iterate (get_or ssh_data section.1 (VList [])) with
  | None => Raise (TypeError "object is not iterable")
  | Some entries => pfold (use_ssh_entry pe section.2) m entries
  end.

Definition use_ssh (pe : pushed_endpoint) (m : list (string * algo_info)) : pyres (list (string * algo_info)) :=
  let raw := er_text (pe_row pe) "ssh_audit_json" in
  if truthy_str raw then
    match loads (str_or_empty raw) with
    | None => Ok m
    | Some (VDict ssh_data) => pfold (use_ssh_section pe ssh_data) m SSH_TYPE
    | Some _ => Raise (AttributeError "get")
    end
  else Ok m.

(** A blob that does not parse, or is no dictionary, is skipped. *)
Definition use_blob (pe : pushed_endpoint) (m : list (string * algo_info)) (column : string)
  : pyres (list (string * algo_info)) :=
  let raw := er_text (pe_row pe) column in
  if truthy_str raw then
    match loads (str_or_empty raw) with
    | Some (VDict data) =>
        let first := get_or data "algorithm" VNone in
        match if truthy first then first else get_or data "alg" VNone with
        | VStr alg => if truthy_str (Some alg) then Ok (use_algorithm pe (quantum_display alg) VNone "signature" alg m) else Ok m
        | v => if truthy v then Raise (TypeError "algorithm is not a string") else Ok m
        end
    | _ => Ok m
    end
  else Ok m.

Definition use_row (m : list (string * algo_info)) (pe : pushed_endpoint) : pyres (list (string * algo_info)) :=
  let! m := use_ssh pe (use_tls_version pe (use_certificate pe m)) in
  pfold (use_blob pe) m ["jwt_scan_json"; "cloud_scan_json"].

(** The segment all sources share, if one only is named. *)
Definition shared_segment (segments : list (option string)) : option string :=
  match remove_dups (omap id segments) with [s] => Some s | _ => None end.

Definition cbom_component (entry : string * algo_info) : CbomComponent :=
  {| cb_algorithm := entry.1; cb_type := ai_type entry.2; cb_key_size := ai_key_size entry.2;
     cb_quantum_safety := ai_quantum_safety entry.2;
     cb_source_systems := sorted_strings (remove_dups (ai_sources entry.2));
     cb_segment := shared_segment (ai_segments entry.2) |}.

Definition derive_cbom (eps : list pushed_endpoint) : pyres (list CbomComponent) :=
  let! m := pfold use_row [] eps in
  Ok (map cbom_component (py_sorted (fun a b => str_leb a.1 b.1) m)).

(** ** Roadmap *)

Record RoadmapNode := {
  rn_id : string; rn_title : string; rn_timeframe : string; rn_why : string; rn_phase : string;
  rn_closure_state : option string; rn_slug : option string; rn_score_lift : option Z
}.

Record RoadmapData := { rd_nodes : list RoadmapNode; rd_edges : list (string * string) }.

Definition TIMEFRAMES : list (string * string) := [("NOW", "0-30 days"); ("NEXT", "31-90 days"); ("LATER", "90+ days")].

(** [{row.slug: row.state for row in rows if row.slug}] *)
Definition state_by_slug (d : view_db) (scan_run_id : string) : list (string * string) :=
  foldl (fun m i => if truthy_str (Some (it_slug i)) then aset (it_slug i) (it_state i) m else m) []
    (List.filter (fun i => str_eqb (it_scan i) scan_run_id) (vd_items d)).

Definition roadmap_node (states : list (string * string)) (lifts : list (string * Z)) (i : item) : RoadmapNode :=
  let slug := slug_for_title (Roadmap.it_title i) in
  {| rn_id := Roadmap.it_phase i +:+ "-" +:+ lower (replace " " "-" (str_take 20 (Roadmap.it_title i)));
     rn_title := Roadmap.it_title i;
     rn_timeframe := if truthy_str (Some (it_timeframe i)) then it_timeframe i
                     else default (Roadmap.it_phase i) (alookup (Roadmap.it_phase i) TIMEFRAMES);
     rn_why := it_why i; rn_phase := Roadmap.it_phase i;
     rn_closure_state := slug ≫= fun s => alookup s states; rn_slug := slug;
     rn_score_lift := slug ≫= fun s => alookup s lifts |}.

(** The last node of a phase leads to the first of the next. *)
Definition phase_edge (nodes : list RoadmapNode) (phases : string * string) : list (string * string) :=
  let nodes_of phase := List.filter (fun n => str_eqb (rn_phase n) phase) nodes in
  match last (nodes_of phases.1), nodes_of phases.2 with
  | Some a, b :: _ => [(rn_id a, rn_id b)]
  | _, _ => []
  end.

(** [compute_item_lifts], [{}] when it raises. *)
Definition lifts_or_none (evidence : pydict) (items : list item) (profile : option string) : list (string * Z) :=
  match compute_item_lifts profile [] evidence (map (fun i => Some (Roadmap.it_title i)) items) with Ok l => l | Raise _ => [] end.

Definition derive_roadmap (d : view_db) (evidence : pydict) (drivers : list (string * Z)) (scan_run_id : string)
    (profile : option string) : RoadmapData :=
  let items := rm_items (build_phased_roadmap evidence drivers 6 12) in
  let states := if truthy_str (Some scan_run_id) then state_by_slug d scan_run_id else [] in
  let nodes := map (roadmap_node states (lifts_or_none evidence items profile)) items in
  {| rd_nodes := nodes; rd_edges := List.flat_map (phase_edge nodes) [("NOW", "NEXT"); ("NEXT", "LATER")] |}.

(** The lifts of one scan, for the storyline. *)
Definition lift_context_for_scan (d : view_db) (stored_profile scan_run_id : option string) : list (string * Z) :=
  if negb (truthy_str scan_run_id) then []
  else match List.filter (in_run (str_or_empty scan_run_id)) (vd_endpoints d) with
       | [] => []
       | eps =>
           match derive_dashboard_scoring_findings loads clock clock eps with
           | Raise _ => []
           | Ok findings =>
               let evidence := evidence_of eps findings in
               match compute_readiness_score evidence stored_profile [] with
               | Raise _ => []
               | Ok score => lifts_or_none evidence (rm_items (build_phased_roadmap evidence (r_drivers score) 6 12)) stored_profile
               end
           end
       end.

(** ** Burndown *)

Record ClosureBurndown := { cbd_buckets : list (string * bucket); cbd_unavailable_reason : option string }.

Definition NOT_COMPUTED : string := "Closure state was not computed for this scan.".

(** [None] when the burndown raises. *)
Definition derive_closure_burndown (d : view_db) (scan_run_id : string) : option ClosureBurndown :=
  let unavailable := {| cbd_buckets := []; cbd_unavailable_reason := Some NOT_COMPUTED |} in
  if negb (truthy_str (Some scan_run_id)) then Some unavailable
  else match fps_of_scan scan_run_id (core_db d) with
       | [] => Some unavailable
       | _ => match compute_burndown (core_db d) scan_run_id with
              | Ok buckets => Some {| cbd_buckets := buckets; cbd_unavailable_reason := None |}
              | Raise _ => None
              end
       end.
End Scans.
