(* ===== verification/ScanPage.v ===== *)
(** The page of one scan ([GET /scan/latest] of [dashboard/api/routes/scan.py]): the
    hardware inventory's findings and components, the failures a run recorded, and
    the response put together from them and from [ScanView].

    [to_int] is the response schema's coercion of a JSON value to an integer
    ([None] where it refuses it); the other parameters are those of [ScanView]. *)
From Stdlib Require Import ZArith QArith Lia Ascii.
From stdpp Require Import base tactics strings list pretty.
From S2P Require Import Prelude PyFloat PyStr PyVal Model Hardware HwDrift Compliance Scoring Evidence Findings Confidence Remediation Roadmap ScoreLift Closure Burndown Bridge ExposureMap Trends Sensors Jobs Dashboard ScanView.

Local Open Scope Z_scope.
Local Open Scope quirk_scope.

(** * Hardware *)

Definition TIER_SEVERITY : list (string * string) :=
  [("Tier 1", "HIGH"); ("Tier 2", "MEDIUM"); ("Tier 3", "LOW"); ("Tier N/A", "INFO")].

Definition CNSA_DEADLINE : list (string * string) :=
  [("Tier 1", "Replace by 2030"); ("Tier 2", "Upgrade firmware 2030-2033");
   ("Tier 3", "Accept + monitor, re-evaluate 2033+"); ("Tier N/A", "EOL before PQC migration window")].

Definition METHOD_LABEL : list (string * string) := [("ssh_banner", "SSH Banner"); ("http_mgmt", "HTTP Mgmt")].

(** [isoformat()] of a date. *)
Definition iso_date (day : Z) : string := str_take 10 (isoformat (day * US_PER_DAY)).

Definition dev_of (v : hw_view) : HardwareDevice := hr_dev (hv_row v).

(** [o or dflt] *)
Definition or_text (o : option string) (dflt : string) : string := if truthy_str o then str_or_empty o else dflt.

(** The device of each address that answered last; ids are keys of the table. *)
Definition latest_devices (d : view_db) : list hw_view :=
  omap (fun dev => List.find (fun v => hd_id (dev_of v) =? hd_id dev) (vd_devices d))
    (latest_successful_hardware_devices (map dev_of (vd_devices d))).

(** The text columns of the protocol fingerprints, in the order of the schemas. *)
Definition OT_COLUMNS : list string :=
  ["modbus_vendor"; "modbus_model"; "modbus_firmware"; "modbus_probe_state";
   "bacnet_vendor"; "bacnet_model"; "bacnet_firmware"; "bacnet_probe_state"].

Definition read_columns (v : hw_view) (columns : list string) : list (string * option string) :=
  map (fun c => (c, hv_text v c)) columns.

Record cve_ref := { cr_id : string; cr_severity : string; cr_url : string }.

Record HardwareFinding := {
  hf_host : string; hf_port : Z; hf_severity : string; hf_title : string; hf_description : string;
  hf_remediation : string; hf_quantum_risk : string; hf_vendor : string; hf_model : option string;
  hf_pqc_status : string; hf_tier : string; hf_confidence : string; hf_method : string; hf_eol : option string;
  hf_snmp_version : option string; hf_bridge : option string; hf_ot : list (string * option string);
  hf_cves : option (list cve_ref); hf_cve_confidence : option string; hf_cve_attempted : option bool
}.

Record HardwareComponent := {
  hc_host : string; hc_port : Z; hc_vendor : string; hc_model : string; hc_pqc_status : string; hc_tier : string;
  hc_snmp : list (string * option string); hc_bridge : option string; hc_ot : list (string * option string)
}.

Definition tier_of (v : hw_view) : string := or_text (hr_tier (hv_row v)) "Tier N/A".
Definition vendor_of (v : hw_view) : string := or_text (hd_vendor (dev_of v)) "Unknown".
Definition pqc_of (v : hw_view) : string := or_text (hd_pqc_status (dev_of v)) "unknown".

Definition tier_rank (tier : string) : Z := default 99 (alookup tier TIER_ORDER).

Definition by_tier {A} (tier : A -> string) : list A -> list A :=
  py_sorted (fun a b => tier_rank (tier a) <=? tier_rank (tier b)).

Definition cve_ref_of (c : cve) : cve_ref := {| cr_id := cve_id c; cr_severity := cve_severity c; cr_url := nvd_url (cve_id c) |}.

(** A vendor nobody recognised is not correlated. *)
Definition correlated (v : hw_view) : option CveMatchResult :=
  if str_eqb (vendor_of v) "Unknown" then None
  else Some (correlate_device (Some (vendor_of v)) (or_none (hd_model (dev_of v))) (firmware_for_correlation (hv_row v))).

Definition hardware_finding (status : string -> option string) (v : hw_view) : HardwareFinding :=
  let dev := dev_of v in
  let model := or_none (hd_model dev) in
  let method := or_text (hv_text v "fingerprint_method") "unknown" in
  let confidence := or_text (hr_confidence (hv_row v)) "unknown" in
  let cves := correlated v in
  {| hf_host := hd_host dev; hf_port := hd_port dev; hf_severity := default "INFO" (alookup (tier_of v) TIER_SEVERITY);
     hf_title := vendor_of v +:+ " " +:+ default "Device" model +:+ " - Hardware PQC Advisory";
     hf_description := "PQC status: " +:+ pqc_of v +:+ ". Confidence: " +:+ confidence +:+ ". Method: "
                       +:+ default method (alookup method METHOD_LABEL) +:+ ".";
     hf_remediation := default "Review device PQC roadmap" (alookup (tier_of v) CNSA_DEADLINE);
     hf_quantum_risk := if str_eqb (pqc_of v) "supported" then "quantum-safe" else "quantum-vulnerable";
     hf_vendor := vendor_of v; hf_model := model; hf_pqc_status := pqc_of v; hf_tier := tier_of v;
     hf_confidence := confidence; hf_method := method; hf_eol := iso_date <$> hr_eol_date (hv_row v);
     hf_snmp_version := hv_text v "snmp_version"; hf_bridge := status (hd_host dev);
     hf_ot := read_columns v OT_COLUMNS; hf_cves := (fun c => map cve_ref_of (cm_matches c)) <$> cves;
     hf_cve_confidence := cves ≫= cm_confidence; hf_cve_attempted := cm_attempted <$> cves |}.

Definition hardware_component (status : string -> option string) (v : hw_view) : HardwareComponent :=
  let dev := dev_of v in
  {| hc_host := hd_host dev; hc_port := hd_port dev; hc_vendor := vendor_of v; hc_model := or_text (hd_model dev) "Unknown";
     hc_pqc_status := pqc_of v; hc_tier := tier_of v;
     hc_snmp := read_columns v ["snmp_version"; "snmp_auth_protocol"; "snmp_priv_protocol"];
     hc_bridge := status (hd_host dev); hc_ot := read_columns v OT_COLUMNS |}.

(** * Recorded failures *)

Record PartialFailureEntry := {
  pf_stage : string; pf_scanner : string; pf_category : string; pf_message : string; pf_endpoint_count : Z
}.

(** * The response *)

Definition SUBSCORES : list string :=
  ["hygiene"; "modern_tls"; "identity_trust"; "agility_signals"; "data_at_rest"; "data_in_motion"].

(** A subscore the schema names; one that is absent reads as one not assessed. *)
Definition subscores_of (subs : list (string * option Z)) : list (string * option Z) :=
  map (fun k => (k, mjoin (alookup k subs))) SUBSCORES.

Record ScoreData := {
  sd_score : option Z; sd_rating : option string; sd_cap_reason : option string; sd_subscores : list (string * option Z);
  sd_drivers : list (string * Z); sd_domains_assessed : option Z; sd_domains_total : option Z;
  sd_divisor : option Q; sd_disclosure : option string; sd_version : option string; sd_version_note : option string
}.

(** A score that could not be computed is a zero rated POOR. *)
Definition score_data (r : pyres score_result) : ScoreData :=
  match r with
  | Ok s =>
      {| sd_score := r_score s; sd_rating := Some (r_rating s); sd_cap_reason := r_rating_cap_reason s;
         sd_subscores := subscores_of (r_subscores s); sd_drivers := r_drivers s;
         sd_domains_assessed := Some (r_domains_assessed s); sd_domains_total := Some (r_domains_total s);
         sd_divisor := r_score_divisor s; sd_disclosure := Some (r_coverage_disclosure s);
         sd_version := Some (r_scoring_version s); sd_version_note := Some (r_scoring_version_note s) |}
  | Raise _ =>
      {| sd_score := Some 0; sd_rating := Some "POOR"; sd_cap_reason := None; sd_subscores := subscores_of [];
         sd_drivers := []; sd_domains_assessed := None; sd_domains_total := None; sd_divisor := None;
         sd_disclosure := None; sd_version := None; sd_version_note := None |}
  end.

Record ConfidenceData := {
  cd_score : Z; cd_rating : string; cd_version : option string; cd_breakdown : list (string * factor)
}.

Definition confidence_data (r : pyres confidence) : ConfidenceData :=
  match r with
  | Ok c => {| cd_score := cf_score c; cd_rating := cf_rating c; cd_version := Some (cf_version c); cd_breakdown := cf_breakdown c |}
  | Raise _ => {| cd_score := 0; cd_rating := "NO_DATA"; cd_version := None; cd_breakdown := [] |}
  end.

Record ScanLatestResponse := {
  lp_scan_id : string; lp_scanned_at : option datetime; lp_total_endpoints : Z; lp_total_findings : Z;
  lp_score : ScoreData; lp_confidence : ConfidenceData; lp_findings : list FindingItem;
  lp_certificates : list CertItem; lp_cbom : list CbomComponent; lp_roadmap : RoadmapData;
  lp_identity : list IdentityFinding; lp_motion : list MotionFinding; lp_dar : list DarFinding;
  lp_hardware : list HardwareFinding; lp_devices : list HardwareComponent; lp_failures : list PartialFailureEntry;
  lp_burndown : option ClosureBurndown; lp_excluded_certs : Z; lp_projected : option Z
}.

(** The last job completed within half an hour of the instant shown. *)
Definition CHECKPOINT_WINDOW : Z := 1800000000.

Definition completed_desc (a b : job_view) : bool :=
  default 0 (sj_completed_at (jv_row b)) <=? default 0 (sj_completed_at (jv_row a)).

Definition checkpoint_run (d : view_db) (latest : option datetime) : option string :=
  match latest with
  | None => None
  | Some t =>
      let ts := dt_wall t in
      let near j := str_eqb (sj_status (jv_row j)) "completed" && bool_decide (is_Some (sj_scan_run_id (jv_row j)))
                    && match sj_completed_at (jv_row j) with
                       | Some c => (ts - CHECKPOINT_WINDOW <=? c) && (c <=? ts + CHECKPOINT_WINDOW)
                       | None => false
                       end in
      match head (py_sorted completed_desc (List.filter near (vd_jobs d))) with
      | Some j => or_none (sj_scan_run_id (jv_row j))
      | None => None
      end
  end.

Section Page.
Context (loads : string -> option pyval) (repr : pyval -> string) (fromisoformat : string -> option datetime).
Context (now : Z) (to_int : pyval -> option Z) (stored_profile : option string).

(** ** Hardware *)

(** The bridge status of each host, the last one winning. *)
Definition bridge_statuses (devices : list hw_view) : pyres (string -> option string) :=
  let! detected := detect_crypto_bridges (map (fun v => bridge_dict (dev_of v)) devices) in
  let! confirmed := confirm_upstream_mitigation loads detected in
  Ok (fun host => by_host host confirmed ≫= hw_bridge).

(** Advisory: what raises leaves the list empty. *)
Definition on_devices {A} (make : (string -> option string) -> hw_view -> A) (tier : A -> string) (d : view_db) : list A :=
  match latest_devices d with
  | [] => []
  | devices => match bridge_statuses devices with
               | Ok status => by_tier tier (map (make status) devices)
               | Raise _ => []
               end
  end.

Definition derive_hardware_findings (d : view_db) : list HardwareFinding := on_devices hardware_finding hf_tier d.
Definition derive_hw_components (d : view_db) : list HardwareComponent := on_devices hardware_component hc_tier d.

(** ** Recorded failures *)

Definition text_entry (e : pydict) (key dflt : string) : option string :=
  match get_or e key (VStr dflt) with VStr s => Some s | _ => None end.

(** [None] where the schema refuses the entry. *)
Definition partial_entry (stage : string) (e : pydict) : option PartialFailureEntry :=
  scanner ← text_entry e "scanner" "unknown";
  category ← text_entry e "error_category" "exception";
  message ← text_entry e "error_message" EmptyString;
  count ← to_int (get_or e "endpoint_count" (VInt 0));
  Some {| pf_stage := stage; pf_scanner := scanner; pf_category := category; pf_message := message;
          pf_endpoint_count := count |}.

(** The entries of one checkpoint up to the first the schema refuses. *)
Fixpoint take_entries (stage : string) (result : list PartialFailureEntry) (entries : list pyval)
  : pyres (list PartialFailureEntry) :=
  match entries with
  | [] => Ok result
  | VDict e :: rest => match partial_entry stage e with
                       | Some p => take_entries stage (result ++ [p]) rest
                       | None => Ok result
                       end
  | _ :: _ => Raise (AttributeError "get")
  end.

Definition take_checkpoint (result : list PartialFailureEntry) (cp : ScanCheckpoint) : pyres (list PartialFailureEntry) :=
  if truthy_str (ck_error_summary cp) then
    match loads (str_or_empty (ck_error_summary cp)) with
    | None => Ok result
    | Some v => match iterate v with
                | Some entries => take_entries (ck_stage cp) result entries
                | None => Raise (TypeError "object is not iterable")
                end
    end
  else Ok result.

Definition load_partial_failures (d : view_db) (scan_run_id : string) : list PartialFailureEntry :=
  let cps := List.filter (fun cp => str_eqb (ck_scan cp) scan_run_id && ck_partial_failure cp) (vd_checkpoints d) in
  match pfold take_checkpoint [] cps with Ok l => l | Raise _ => [] end.

(** ** The response *)

Definition page_of_scan (d : view_db) (latest : option datetime) (eps : list pushed_endpoint) : pyres ScanLatestResponse :=
  let rows := map pe_row eps in
  let! findings := derive_dashboard_finding_items loads (clock now) (clock now) eps in
  let! identity := derive_identity_findings rows in
  let evidence := evidence_of eps (map item_as_finding findings) in
  let score := score_data (compute_readiness_score evidence stored_profile []) in
  let! cbom := derive_cbom loads eps in
  let! dar := derive_dar_findings loads repr rows in
  let scan_id := match latest with Some t => iso_datetime t | None => "None" end in
  let items := rm_items (build_phased_roadmap evidence (sd_drivers score) 6 12) in
  let projected := compute_projected_score stored_profile [] evidence (map (fun i => Some (Roadmap.it_title i)) items) in
  Ok {| lp_scan_id := scan_id; lp_scanned_at := latest; lp_total_endpoints := Z.of_nat (length eps);
        lp_total_findings := Z.of_nat (length findings); lp_score := score;
        lp_confidence := confidence_data (compute_confidence evidence []); lp_findings := findings;
        lp_certificates := (certificates_of eps).1; lp_cbom := cbom;
        lp_roadmap := derive_roadmap d evidence (sd_drivers score) scan_id stored_profile; lp_identity := identity;
        lp_motion := derive_motion_findings (map er_ep rows); lp_dar := dar;
        lp_hardware := derive_hardware_findings d; lp_devices := derive_hw_components d;
        lp_failures := match checkpoint_run d latest with Some run => load_partial_failures d run | None => [] end;
        lp_burndown := derive_closure_burndown d scan_id; lp_excluded_certs := (certificates_of eps).2;
        lp_projected := match projected with Ok p => p | Raise _ => None end |}.

(** [GET /scan/latest]; an exception that leaves the handler is a 500. *)
Definition get_latest_scan (d : view_db) (scan_id segment : option string) : route ScanLatestResponse :=
  match resolve_scan fromisoformat now d scan_id segment with
  | Status code => Status code
  | Reply (latest, eps) => match page_of_scan d latest eps with Ok page => Reply page | Raise _ => Status 500 end
  end.
End Page.
