(* ===== verification/Compare.v ===== *)
(** The comparison of two scans and the smaller read-only routes beside it: the drift
    of the hardware inventory ([dashboard/api/routes/hardware_drift.py]),
    [GET /compare] and a job's result summary ([dashboard/api/routes/scan.py]), and
    the phases a scan ran ([reports/coverage.py]).

    The events of equal instants that a query does not order come in table order. *)
From Stdlib Require Import ZArith QArith Lia Ascii.
From stdpp Require Import base tactics sets strings list pretty.
From S2P Require Import Prelude PyFloat PyStr PyVal Model Hardware HwDrift Scoring Evidence Findings Trends Sensors Jobs Dashboard ScanView ScanPage.

Local Open Scope Z_scope.
Local Open Scope quirk_scope.

(** * Hardware drift *)

Record HardwareDriftEventItem := {
  di_host : string; di_port : Z; di_type : string; di_old : option string; di_new : option string;
  di_direction : string; di_detected_at : option string; di_vendor : option string; di_model : option string;
  di_partial : bool
}.

Definition DRIFT_DIRECTIONS : list string := ["improved"; "worsened"; "neutral"].

(** [{(row.host, row.port): (row.vendor, row.model)}]; the addresses are distinct. *)
Definition build_device_lookup (d : view_db) : list (string * Z * (option string * option string)) :=
  map (fun dev => (hd_key dev, (hd_vendor dev, hd_model dev)))
    (latest_successful_hardware_devices (map dev_of (vd_devices d))).

Definition device_named (lookup : list (string * Z * (option string * option string))) (key : string * Z)
  : option string * option string :=
  match List.find (fun e => bool_decide (e.1 = key)) lookup with Some e => e.2 | None => (None, None) end.

Definition drift_direction (row : HardwareDriftEvent) : string :=
  if str_eqb (de_type row) "tier_crossing" then
    let raw := tier_direction (de_old row) (de_new row) in
    if str_in raw ["improved"; "worsened"] then raw else "neutral"
  else "neutral".

(** The schema refuses an event of no known type. *)
Definition serialize_drift_event (lookup : list (string * Z * (option string * option string)))
    (row : HardwareDriftEvent) : pyres HardwareDriftEventItem :=
  if str_in (de_type row) EVENT_TYPES then
    let '(vendor, model) := device_named lookup (de_host row, de_port row) in
    Ok {| di_host := de_host row; di_port := de_port row; di_type := de_type row; di_old := de_old row;
          di_new := de_new row; di_direction := drift_direction row;
          di_detected_at := stamp_utc_iso (Some (de_detected_at row)); di_vendor := vendor; di_model := model;
          di_partial := de_partial row |}
  else Raise (ValueError "event_type").

Definition serialize_events (d : view_db) (rows : list HardwareDriftEvent) : pyres (list HardwareDriftEventItem) :=
  ptraverse (serialize_drift_event (build_device_lookup d)) rows.

Record HardwareDriftResponse := {
  dr_has_prior_scan : bool; dr_latest_scan_at : option string; dr_latest : list HardwareDriftEventItem;
  dr_historical : list HardwareDriftEventItem; dr_truncated : bool
}.

(** [max(scanned_at)] of the successful rows. *)
Definition latest_probe (d : view_db) : option Z :=
  foldr max_opt None (map (fun v => hd_scanned_at (dev_of v))
                        (List.filter (fun v => succeeded (hv_row v)) (vd_devices d))).

Definition distinct_scans (d : view_db) : Z :=
  Z.of_nat (length (remove_dups (omap (fun v => hd_scanned_at (dev_of v)) (vd_devices d)))).

(** [ORDER BY host, port, event_type] *)
Definition event_leb (a b : HardwareDriftEvent) : bool :=
  if str_eqb (de_host a) (de_host b)
  then (de_port a <? de_port b) || ((de_port a =? de_port b) && str_leb (de_type a) (de_type b))
  else str_leb (de_host a) (de_host b).

Definition detected_desc (a b : HardwareDriftEvent) : bool := de_detected_at b <=? de_detected_at a.

(** [GET /hardware/drift]; [limit] is between 1 and 200. *)
Definition get_hardware_drift (d : view_db) (limit : nat) : pyres HardwareDriftResponse :=
  match latest_probe d with
  | None => Ok {| dr_has_prior_scan := false; dr_latest_scan_at := None; dr_latest := []; dr_historical := [];
                  dr_truncated := false |}
  | Some latest_ts =>
      let at_latest := py_sorted event_leb (List.filter (fun e => de_detected_at e =? latest_ts) (vd_drift d)) in
      let before := take (S limit) (py_sorted detected_desc (List.filter (fun e => de_detected_at e <? latest_ts) (vd_drift d))) in
      let! latest := serialize_events d at_latest in
      let! historical := serialize_events d (take limit before) in
      Ok {| dr_has_prior_scan := 2 <=? distinct_scans d; dr_latest_scan_at := stamp_utc_iso (Some latest_ts);
            dr_latest := latest; dr_historical := historical; dr_truncated := (limit <? length before)%nat |}
  end.

(** [GET /hardware/vendor-trends]: the newest [limit], and whether there are more. *)
Definition get_vendor_pqc_trends (events : list VendorPqcTrendEvent) (limit : nat) : list VendorPqcTrendEvent * bool :=
  let rows := take (S limit) (py_sorted later_vendor_event events) in
  (take limit rows, (limit <? length rows)%nat).

(** * Comparison *)

Record CompareFinding := { cp_host : string; cp_protocol : option string; cp_severity : string }.

Record CompareScanSummary := {
  cs_scan_id : string; cs_scanned_at : datetime; cs_score : option Z; cs_subscores : list (string * option Z);
  cs_rating : string; cs_cap_reason : option string
}.

Record CompareResponse := {
  cr_scan_a : CompareScanSummary; cr_scan_b : CompareScanSummary; cr_score_delta : option Z;
  cr_subscore_deltas : list (string * option Z); cr_added : list CompareFinding; cr_removed : list CompareFinding;
  cr_only_in_a : list string; cr_only_in_b : list string; cr_changed : list (string * string);
  cr_drift : list HardwareDriftEventItem
}.

(** [None] when either side was not assessed. *)
Definition delta (va vb : option Z) : option Z :=
  match va, vb with Some a, Some b => Some (a - b) | _, _ => None end.

Definition subscore_delta (sub_a sub_b : list (string * option Z)) (key : string) : option Z :=
  delta (mjoin (alookup key sub_a)) (mjoin (alookup key sub_b)).

Notation posture_key := (string * string * string)%type.

(** A row that failed ([scan_error] of some length) or has no severity has no key. *)
Definition posture_key_of (pe : pushed_endpoint) : option posture_key :=
  let ep := er_ep (pe_row pe) in
  if truthy_str (ep_scan_error ep) || negb (truthy_str (ep_severity ep)) then None
  else Some (ep_host ep, str_or_empty (ep_protocol ep), str_or_empty (ep_severity ep)).

Definition posture_keys (eps : list pushed_endpoint) : list posture_key := remove_dups (omap posture_key_of eps).

Definition posture_leb (a b : posture_key) : bool :=
  if str_eqb a.1.1 b.1.1 then
    if str_eqb a.1.2 b.1.2 then str_leb a.2 b.2 else str_leb a.1.2 b.1.2
  else str_leb a.1.1 b.1.1.

Definition key_to_finding (key : posture_key) : CompareFinding :=
  {| cp_host := key.1.1; cp_protocol := or_none (Some key.1.2); cp_severity := key.2 |}.

(** [sorted(a - b)] *)
Definition findings_only_in (keys_a keys_b : list posture_key) : list CompareFinding :=
  map key_to_finding (py_sorted posture_leb (List.filter (fun k => negb (bool_decide (k ∈ keys_b))) keys_a)).

(** The row a host stands for: its last one. *)
Definition row_of_host (eps : list pushed_endpoint) (host : string) : option CryptoEndpoint :=
  last (List.filter (fun ep => str_eqb (ep_host ep) host) (map (fun pe => er_ep (pe_row pe)) eps)).

Definition hosts_only_in (hosts_a hosts_b : list string) : list string :=
  List.filter (fun h => negb (str_in h hosts_b)) hosts_a.

Definition change_reasons (ea eb : CryptoEndpoint) : list string :=
  (if bool_decide (ep_tls_version ea = ep_tls_version eb) then [] else ["tls_version changed"])
  ++ (if bool_decide (ep_cipher_suite ea = ep_cipher_suite eb) then [] else ["cipher_suite changed"])
  ++ (if bool_decide (ep_cert_pubkey_alg ea = ep_cert_pubkey_alg eb) then [] else ["cert_pubkey_alg changed"]).

Definition changed_host (eps_a eps_b : list pushed_endpoint) (host : string) : option (string * string) :=
  match row_of_host eps_a host, row_of_host eps_b host with
  | Some ea, Some eb => match change_reasons ea eb with
                        | [] => None
                        | reasons => Some (host, str_join "; " reasons)
                        end
  | _, _ => None
  end.

(** [ORDER BY detected_at DESC, host] *)
Definition drift_leb (a b : HardwareDriftEvent) : bool :=
  (de_detected_at b <? de_detected_at a)
  || ((de_detected_at a =? de_detected_at b) && str_leb (de_host a) (de_host b)).

(** The events after B and up to A; advisory, empty when one cannot be shown. *)
Definition drift_between (d : view_db) (ts_a ts_b : Z) : list HardwareDriftEventItem :=
  match serialize_events d (py_sorted drift_leb
          (List.filter (fun e => (ts_b <? de_detected_at e) && (de_detected_at e <=? ts_a)) (vd_drift d))) with
  | Ok l => l
  | Raise _ => []
  end.

Section Compare.
Context (loads : string -> option pyval) (fromisoformat : string -> option datetime) (now : Z).

Definition summary_of (scan_id : string) (ts : datetime) (r : score_result) : CompareScanSummary :=
  {| cs_scan_id := scan_id; cs_scanned_at := ts; cs_score := r_score r; cs_subscores := subscores_of (r_subscores r);
     cs_rating := r_rating r; cs_cap_reason := r_rating_cap_reason r |}.

Definition compare_rows (d : view_db) (a b : string) (ts_a ts_b : datetime) (eps_a eps_b : list pushed_endpoint)
  : pyres CompareResponse :=
  let! sd_a := dashboard_score loads now eps_a None in
  let! sd_b := dashboard_score loads now eps_b None in
  let keys_a := posture_keys eps_a in
  let keys_b := posture_keys eps_b in
  let hosts_a := hosts_of eps_a in
  let hosts_b := hosts_of eps_b in
  Ok {| cr_scan_a := summary_of a ts_a sd_a; cr_scan_b := summary_of b ts_b sd_b;
        cr_score_delta := delta (r_score sd_a) (r_score sd_b);
        cr_subscore_deltas := map (fun k => (k, subscore_delta (r_subscores sd_a) (r_subscores sd_b) k)) SUBSCORES;
        cr_added := findings_only_in keys_a keys_b; cr_removed := findings_only_in keys_b keys_a;
        cr_only_in_a := hosts_only_in hosts_a hosts_b; cr_only_in_b := hosts_only_in hosts_b hosts_a;
        cr_changed := omap (changed_host eps_a eps_b) (List.filter (fun h => str_in h hosts_b) hosts_a);
        cr_drift := drift_between d (dt_wall ts_a) (dt_wall ts_b) |}.

(** [GET /compare] *)
Definition compare_scans (d : view_db) (a b : string) : route CompareResponse :=
  if str_eqb a b then Status 400
  else match fromisoformat a, fromisoformat b with
       | Some ts_a, Some ts_b =>
           match fetch_session_endpoints_by_id fromisoformat d a, fetch_session_endpoints_by_id fromisoformat d b with
           | [], _ | _, [] => Status 404
           | eps_a, eps_b => match compare_rows d a b ts_a ts_b eps_a eps_b with
                             | Ok r => Reply r
                             | Raise _ => Status 500
                             end
           end
       | _, _ => Status 400
       end.

(** [GET /jobs/{job_id}/result-summary] *)
Definition get_job_result_summary (d : view_db) (job_id : string) : route Z :=
  match List.find (fun j => str_eqb (sj_id (jv_row j)) job_id) (vd_jobs d) with
  | None => Status 404
  | Some j => match sj_started_at (jv_row j) with
              | None => Reply 0
              | Some started =>
                  Reply (Z.of_nat (length (List.filter (stamped_within started (default now (sj_completed_at (jv_row j))))
                                             (vd_endpoints d))))
              end
  end.
End Compare.

(** * Coverage *)

Record ScanPhaseRecord := {
  ph_scan : string; ph_name : string; ph_status : string; ph_reason : option string; ph_detail : option string;
  ph_duration : option Q
}.

Record coverage_phase := { cg_row : ScanPhaseRecord; cg_label : string }.
Record coverage := { cv_recorded : bool; cv_ran : Z; cv_skipped : Z; cv_phases : list coverage_phase }.

Definition not_recorded_payload : coverage := {| cv_recorded := false; cv_ran := 0; cv_skipped := 0; cv_phases := [] |}.

Definition PHASE_LABELS : list (string * string) :=
  [("ot_ics_supplemental", "OT/ICS"); ("tls_scanning", "TLS"); ("ssh_scanning", "SSH"); ("pqc_probe", "PQC Probe");
   ("jwt_scanning", "JWT"); ("container_scanning", "Container"); ("source_scanning", "Source Code");
   ("openapi_scanning", "OpenAPI"); ("fuzz_scanning", "Fuzzing"); ("aws_scanning", "AWS"); ("azure_scanning", "Azure");
   ("gcp_scanning", "GCP"); ("db_scanning", "Database"); ("s3_scanning", "S3"); ("blob_scanning", "Azure Blob");
   ("k8s_scanning", "Kubernetes"); ("dnssec_scanning", "DNSSEC"); ("saml_scanning", "SAML");
   ("kerberos_scanning", "Kerberos"); ("smime_scanning", "S/MIME"); ("adcs_scanning", "ADCS");
   ("codesign_scanning", "Code Signing"); ("vault_scanning", "Vault"); ("email_scanning", "Email");
   ("broker_scanning", "Broker")].

(** [str.title]: a letter is raised after a character that is none, and lowered after one. *)
Fixpoint title_from (after_letter : bool) (s : string) : string :=
  match s with
  | EmptyString => EmptyString
  | String c s' => String (if after_letter then ascii_lower c else ascii_upper c)
                     (title_from (is_upper c || is_lower c) s')
  end.

Definition label_for (phase_name : string) : string :=
  default (title_from false (replace "_" " " phase_name)) (alookup phase_name PHASE_LABELS).

Definition count_status (status : string) (rows : list ScanPhaseRecord) : Z :=
  Z.of_nat (length (List.filter (fun r => str_eqb (ph_status r) status) rows)).

Definition coverage_of (rows : list ScanPhaseRecord) : coverage :=
  match rows with
  | [] => not_recorded_payload
  | _ => {| cv_recorded := true; cv_ran := count_status "ran" rows; cv_skipped := count_status "skipped" rows;
            cv_phases := map (fun r => {| cg_row := r; cg_label := label_for (ph_name r) |}) rows |}
  end.

(** The table may be out of reach ([None]). *)
Definition load_scan_coverage (table : option (list ScanPhaseRecord)) (scan_run_id : option string) : coverage :=
  match table with
  | Some rows =>
      if truthy_str scan_run_id
      then coverage_of (py_sorted (fun a b => str_leb (ph_name a) (ph_name b))
                          (List.filter (fun r => bool_decide (Some (ph_scan r) = scan_run_id)) rows))
      else not_recorded_payload
  | None => not_recorded_payload
  end.

Definition format_skip_note (reason detail : option string) : string :=
  "Not assessed — skipped: " +:+ default "None" reason
  +:+ (if truthy_str detail then " (" +:+ str_or_empty detail +:+ ")" else EmptyString).

Definition get_phase_entry (c : coverage) (phase_name : string) : option coverage_phase :=
  if cv_recorded c then List.find (fun e => str_eqb (ph_name (cg_row e)) phase_name) (cv_phases c) else None.

(** [GET /jobs/{job_id}/coverage] *)
Definition get_job_coverage (d : view_db) (table : option (list ScanPhaseRecord)) (job_id : string) : route coverage :=
  match List.find (fun j => str_eqb (sj_id (jv_row j)) job_id) (vd_jobs d) with
  | None => Status 404
  | Some j => Reply (load_scan_coverage table (sj_scan_run_id (jv_row j)))
  end.
