(* ===== verification/ScanViewProps.v ===== *)
(** What the scan routes promise: whose rows a page shows, what a comparison says
    when its sides change places, which algorithms a bill of materials lists, and that
    the surfaces give one score. *)
From Stdlib Require Import ZArith QArith Lia Ascii.
From stdpp Require Import base tactics sets strings list pretty.
From S2P Require Import Prelude PyFloat PyStr PyVal Model Hardware HwDrift Scoring Evidence Findings Closure Trends Sensors Jobs Dashboard ScanView ScanPage Compare.

Local Open Scope Z_scope.
Local Open Scope quirk_scope.

(** * Rows *)

(** The rows of one run, or rows of none. *)
Definition of_run (run : string) (eps : list pushed_endpoint) : Prop := forall pe, pe ∈ eps -> run_id_of pe = Some run.
Definition of_no_run (eps : list pushed_endpoint) : Prop := forall pe, pe ∈ eps -> run_id_of pe = None.

Lemma in_run_spec run pe : in_run run pe = true <-> run_id_of pe = Some run.
Proof. apply bool_decide_eq_true. Qed.

Lemma unkeyed_spec pe : unkeyed pe = true <-> run_id_of pe = None.
Proof. apply bool_decide_eq_true. Qed.

Lemma in_segment_sub segment eps pe : pe ∈ in_segment segment eps -> pe ∈ eps.
Proof. destruct segment; [|done]. by intros [? _]%elem_of_filter_bool. Qed.

Lemma filter_run run rows : of_run run (List.filter (in_run run) rows).
Proof. by intros pe [_ ?%in_run_spec]%elem_of_filter_bool. Qed.

Lemma first_nonempty_cases {A} (l k : list A) :
  (l <> [] /\ first_nonempty l k = l) \/ (l = [] /\ first_nonempty l k = k).
Proof. destruct l; [right|left]; done. Qed.

Lemma rows_of_scan_runs now d id ts :
  let keyed := List.filter (in_run id) (vd_endpoints d) in
  (keyed <> [] /\ rows_of_scan now d id ts = keyed) \/ (keyed = [] /\ of_no_run (rows_of_scan now d id ts)).
Proof.
  intros keyed. unfold rows_of_scan. fold keyed.
  destruct (first_nonempty_cases keyed
    (first_nonempty (List.filter (fun pe => stamped_within (floor_s ts) (floor_s ts + 999999) pe && unkeyed pe) (vd_endpoints d))
       (job_window_rows now d id))) as [[? ->]|[? ->]]; [by left|right].
  split; [done|]. intros pe Hpe.
  destruct (first_nonempty_cases
    (List.filter (fun pe => stamped_within (floor_s ts) (floor_s ts + 999999) pe && unkeyed pe) (vd_endpoints d))
    (job_window_rows now d id)) as [[_ E]|[_ E]]; rewrite E in Hpe.
  - apply elem_of_filter_bool in Hpe as [_ Hpe]. apply andb_true_iff in Hpe as [_ Hpe]. by apply unkeyed_spec.
  - unfold job_window_rows in Hpe. destruct (List.find _ _) as [j|]; [|by apply elem_of_nil in Hpe].
    destruct (sj_started_at _); [|by apply elem_of_nil in Hpe].
    apply elem_of_filter_bool in Hpe as [_ Hpe]. apply andb_true_iff in Hpe as [_ Hpe]. by apply unkeyed_spec.
Qed.

(** C16: A page of a scan never mixes runs.  What the route answers for a [scan_id] is
    never empty and is one of two things: exactly the rows stored under that id (those of
    the segment asked for), or, when the table holds none, rows that carry no run id at
    all; no row of another run is ever among them.  Without a [scan_id], when the latest
    row carries a run id, the page is exactly that run's rows. *)
Theorem page_shows_one_run (fromisoformat : string -> option datetime) (now : Z) (d : view_db)
  (scan_id segment : option string) (ts : option datetime) (eps : list pushed_endpoint)
  (Hpage : resolve_scan fromisoformat now d scan_id segment = Reply (ts, eps)) :
  eps <> []
  /\ (forall id, scan_id = Some id ->
        let keyed := List.filter (in_run id) (vd_endpoints d) in
        (keyed <> [] /\ eps = in_segment segment keyed) \/ (keyed = [] /\ of_no_run eps))
  /\ (forall latest run, scan_id = None -> latest_row d = Some latest -> run_id_of latest = Some run ->
        eps = in_segment segment (List.filter (in_run run) (vd_endpoints d)) /\ of_run run eps).
Proof.
  assert (Hfin : forall t rows, match in_segment segment rows with [] => Status 404 | e => Reply (t, e) end = Reply (ts, eps) ->
                                eps <> [] /\ eps = in_segment segment rows).
  { intros t rows H. destruct (in_segment segment rows); [done|]. by injection H as _ <-. }
  unfold resolve_scan in Hpage. destruct scan_id as [id|].
  - destruct (fromisoformat id) as [t|]; [|done]. apply Hfin in Hpage as [Hne Heps]. split; [done|]. split; [|done].
    intros ? [= <-]. destruct (rows_of_scan_runs now d id (dt_wall t)) as [[Hk E]|[Hk Hno]].
    + left. by rewrite Heps, E.
    + right. split; [done|]. intros pe Hpe. rewrite Heps in Hpe. by eapply Hno, in_segment_sub.
  - destruct (latest_row d) as [latest|] eqn:El; [|done].
    destruct (latest_rows d latest) as [rows|] eqn:Er; [|done]. apply Hfin in Hpage as [Hne Heps].
    split; [done|]. split; [done|]. intros ? run _ [= <-] Hrun. unfold latest_rows in Er. rewrite Hrun in Er. injection Er as <-.
    split; [done|]. intros pe Hpe. rewrite Heps in Hpe. eapply filter_run, in_segment_sub, Hpe.
Qed.

(** * Comparison *)

(** A comparison with its sides exchanged. *)
Definition mirror (r : CompareResponse) (drift : list HardwareDriftEventItem) : CompareResponse :=
  {| cr_scan_a := cr_scan_b r; cr_scan_b := cr_scan_a r; cr_score_delta := Z.opp <$> cr_score_delta r;
     cr_subscore_deltas := map (fun kv => (kv.1, Z.opp <$> kv.2)) (cr_subscore_deltas r);
     cr_added := cr_removed r; cr_removed := cr_added r; cr_only_in_a := cr_only_in_b r; cr_only_in_b := cr_only_in_a r;
     cr_changed := cr_changed r; cr_drift := drift |}.

Lemma delta_opp va vb : delta vb va = Z.opp <$> delta va vb.
Proof. destruct va, vb; simpl; f_equal. lia. Qed.

Lemma bool_decide_sym {A} `{EqDecision A} (x y : A) : bool_decide (x = y) = bool_decide (y = x).
Proof. apply bool_decide_ext. split; congruence. Qed.

Lemma change_reasons_sym ea eb : change_reasons ea eb = change_reasons eb ea.
Proof.
  unfold change_reasons. by rewrite (bool_decide_sym (ep_tls_version ea)), (bool_decide_sym (ep_cipher_suite ea)),
    (bool_decide_sym (ep_cert_pubkey_alg ea)).
Qed.

Lemma changed_host_sym eps_a eps_b host : changed_host eps_a eps_b host = changed_host eps_b eps_a host.
Proof.
  unfold changed_host. destruct (row_of_host eps_a host), (row_of_host eps_b host); try done. by rewrite change_reasons_sym.
Qed.

(** The hosts two scans share come in one order. *)
Lemma common_hosts_sym eps_a eps_b :
  List.filter (fun h => str_in h (hosts_of eps_b)) (hosts_of eps_a)
  = List.filter (fun h => str_in h (hosts_of eps_a)) (hosts_of eps_b).
Proof.
  apply (all_above_unique str_leb str_leb_antisym).
  1,2: apply all_above_filter, py_sorted_above; [apply str_leb_total|apply str_leb_trans].
  assert (Hnd : forall eps, NoDup (hosts_of eps)).
  { intros eps. unfold hosts_of. rewrite sorted_strings_perm. apply NoDup_remove_dups. }
  apply NoDup_Permutation; [by apply nodup_filter..|]. intros h. rewrite !elem_of_filter_bool, !str_in_elem. tauto.
Qed.

Lemma omap_ext_all {A B} (f g : A -> option B) (l : list A) : (forall x, f x = g x) -> omap f l = omap g l.
Proof. intros H. induction l as [|x l IH]; [done|]. cbn. rewrite H. destruct (g x); [f_equal|]; exact IH. Qed.

Lemma drift_between_empty d ts_a ts_b : ts_a <= ts_b -> drift_between d ts_a ts_b = [].
Proof.
  intros H. unfold drift_between.
  assert (List.filter (fun e => (ts_b <? de_detected_at e) && (de_detected_at e <=? ts_a)) (vd_drift d) = []) as ->.
  { induction (vd_drift d) as [|e l IH]; [done|]. simpl. destruct (Z.ltb_spec ts_b (de_detected_at e)); [|done].
    destruct (Z.leb_spec (de_detected_at e) ts_a); [lia|done]. }
  done.
Qed.

Lemma compare_rows_mirror loads now d a b ts_a ts_b eps_a eps_b r :
  compare_rows loads now d a b ts_a ts_b eps_a eps_b = Ok r ->
  compare_rows loads now d b a ts_b ts_a eps_b eps_a
    = Ok (mirror r (drift_between d (dt_wall ts_b) (dt_wall ts_a))).
Proof.
  unfold compare_rows. intros (sa & Ha & H)%pbind_ok. apply pbind_ok in H as (sb & Hb & H). rewrite Ha, Hb. cbn [pbind].
  injection H as <-. f_equal. unfold mirror.
  cbn [cr_scan_a cr_scan_b cr_score_delta cr_subscore_deltas cr_added cr_removed cr_only_in_a cr_only_in_b cr_changed].
  f_equal.
  - apply delta_opp.
  - unfold SUBSCORES, subscore_delta. cbn [map fst snd]. repeat (apply (f_equal2 cons); [apply (f_equal (pair _)), delta_opp|]).
    done.
  - rewrite common_hosts_sym. apply omap_ext_all. intros h. apply changed_host_sym.
Qed.

(** What the difference of two key sets lists. *)
Lemma elem_of_findings_only keys_a keys_b f :
  f ∈ findings_only_in keys_a keys_b <-> exists k, k ∈ keys_a /\ k ∉ keys_b /\ f = key_to_finding k.
Proof.
  unfold findings_only_in. rewrite list_elem_of_fmap. split.
  - intros (k & -> & Hk). rewrite py_sorted_perm in Hk. apply elem_of_filter_bool in Hk as [Hk Hn].
    rewrite negb_true_iff, bool_decide_eq_false in Hn. eauto.
  - intros (k & Ha & Hb & ->). exists k. split; [done|]. rewrite py_sorted_perm. apply elem_of_filter_bool. split; [done|].
    by apply negb_true_iff, bool_decide_eq_false.
Qed.

(** C18: A comparison reads the same from both sides, and its findings are exact.  When
    [GET /compare?a&b] answers, so does [GET /compare?b&a], with the same content
    mirrored: the summaries, added and removed findings and the hosts of one side only
    exchanged, the score differences negated, the changed hosts the same.  A finding is
    listed as added exactly when a row of A that answered and is graded has its host,
    protocol and severity and no such row of B has; and the hardware events shown lie
    after B and up to A, so that one of the two directions shows none. *)
Theorem compare_mirrors (loads : string -> option pyval) (fromisoformat : string -> option datetime) (now : Z)
  (d : view_db) (a b : string) (r : CompareResponse)
  (Hr : compare_scans loads fromisoformat now d a b = Reply r) :
  (exists drift, compare_scans loads fromisoformat now d b a = Reply (mirror r drift) /\ (cr_drift r = [] \/ drift = []))
  /\ (forall f, f ∈ cr_added r <->
        exists pe k, pe ∈ fetch_session_endpoints_by_id fromisoformat d a /\ posture_key_of pe = Some k
          /\ f = key_to_finding k
          /\ (forall pe', pe' ∈ fetch_session_endpoints_by_id fromisoformat d b -> posture_key_of pe' <> Some k)).
Proof.
  unfold compare_scans in Hr |- *. destruct (str_eqb a b) eqn:Eab; [done|].
  assert (str_eqb b a = false) as -> by (apply str_eqb_neq in Eab; apply str_eqb_neq; congruence).
  destruct (fromisoformat a) as [ts_a|]; [|done]. destruct (fromisoformat b) as [ts_b|]; [|done].
  set (ea := fetch_session_endpoints_by_id fromisoformat d a) in *.
  set (eb := fetch_session_endpoints_by_id fromisoformat d b) in *.
  assert (Hc : compare_rows loads now d a b ts_a ts_b ea eb = Ok r /\ ea <> [] /\ eb <> []).
  { destruct ea, eb; try done. destruct (compare_rows _ _ _ _ _ _ _ _ _); [|done]. by injection Hr as <-. }
  destruct Hc as (Hc & Hna & Hnb). split.
  - exists (drift_between d (dt_wall ts_b) (dt_wall ts_a)). split.
    + destruct ea, eb; try done. by rewrite (compare_rows_mirror _ _ _ _ _ _ _ _ _ _ Hc).
    + assert (Hd : cr_drift r = drift_between d (dt_wall ts_a) (dt_wall ts_b)).
      { unfold compare_rows in Hc. apply pbind_ok in Hc as (? & _ & Hc). apply pbind_ok in Hc as (? & _ & Hc). by injection Hc as <-. }
      rewrite Hd. destruct (Z.le_ge_cases (dt_wall ts_a) (dt_wall ts_b)); [left|right]; by apply drift_between_empty.
  - intros f. assert (cr_added r = findings_only_in (posture_keys ea) (posture_keys eb)) as ->.
    { unfold compare_rows in Hc. apply pbind_ok in Hc as (? & _ & Hc). apply pbind_ok in Hc as (? & _ & Hc). by injection Hc as <-. }
    rewrite elem_of_findings_only. unfold posture_keys. setoid_rewrite elem_of_remove_dups. setoid_rewrite list_elem_of_omap.
    naive_solver.
Qed.

(** * Bill of materials *)

(** The map names the row's source among those of the algorithm. *)
Definition lists_source (m : list (string * algo_info)) (alg s : string) : Prop :=
  exists info, alookup alg m = Some info /\ s ∈ ai_sources info.

(** An entry is classified by its algorithm's name; a protocol version is not. *)
Definition well_labelled (alg : string) (info : algo_info) : Prop :=
  ai_quantum_safety info = quantum_display alg \/ (ai_type info = "protocol" /\ ai_quantum_safety info = "Unknown").

Definition entries_ok (m : list (string * algo_info)) : Prop :=
  NoDup (m.*1) /\ forall alg info, alookup alg m = Some info -> ai_sources info <> [] /\ well_labelled alg info.

(** What using a row does to the map. *)
Record uses (pe : pushed_endpoint) (m m' : list (string * algo_info)) : Prop := {
  us_ok : entries_ok m -> entries_ok m';
  us_keep : forall alg s, lists_source m alg s -> lists_source m' alg s;
  us_new : forall alg s, lists_source m' alg s -> lists_source m alg s \/ s = source_of pe
}.

Lemma uses_refl pe m : uses pe m m.
Proof. by constructor; auto. Qed.

Lemma uses_trans pe m1 m2 m3 : uses pe m1 m2 -> uses pe m2 m3 -> uses pe m1 m3.
Proof.
  intros [ok1 keep1 new1] [ok2 keep2 new2]. constructor; [by auto..|].
  intros alg s Hs. destruct (new2 _ _ Hs); auto.
Qed.

Lemma pfold_uses {A} pe (f : list (string * algo_info) -> A -> pyres (list (string * algo_info))) l m m' :
  (forall m x m', f m x = Ok m' -> uses pe m m') -> pfold f m l = Ok m' -> uses pe m m'.
Proof.
  intros Hf. revert m. induction l as [|x l IH]; intros m H; simpl in H; [injection H as <-; apply uses_refl|].
  destruct (f m x) as [m1|] eqn:E; [|done]. eapply uses_trans; [by eapply Hf|by apply IH].
Qed.

Lemma use_algorithm_uses pe qs size kind alg m :
  qs = quantum_display alg \/ (kind = "protocol" /\ qs = "Unknown") ->
  uses pe m (use_algorithm pe qs size kind alg m).
Proof.
  intros Hqs. unfold use_algorithm. constructor.
  - intros [Hnd Hok]. split; [by apply aset_keys_nodup|]. intros alg' info. rewrite alookup_aset.
    case_decide as E; [|by auto]. intros [= <-]. subst alg'. split; [by intros [_ ?]%app_nil|].
    unfold well_labelled. simpl. destruct (alookup alg m) as [info|] eqn:El; simpl; [|done]. exact (proj2 (Hok _ _ El)).
  - intros alg' s (info & Hl & Hs). unfold lists_source. rewrite alookup_aset. case_decide as E; [|eauto].
    subst alg'. rewrite Hl. eexists. split; [done|]. simpl. apply elem_of_app. by left.
  - intros alg' s (info & Hl & Hs). rewrite alookup_aset in Hl. case_decide as E; [|left; by exists info].
    injection Hl as <-. subst alg'. simpl in Hs. apply elem_of_app in Hs as [Hs|Hs].
    + left. destruct (alookup alg m) as [info|] eqn:El; simpl in Hs; [by exists info|by apply elem_of_nil in Hs].
    + right. by apply list_elem_of_singleton in Hs.
Qed.

Lemma use_algorithm_lists pe qs size kind alg m : lists_source (use_algorithm pe qs size kind alg m) alg (source_of pe).
Proof.
  unfold lists_source, use_algorithm. rewrite alookup_aset_eq. eexists. split; [done|]. apply elem_of_app. right. by left.
Qed.

Lemma use_certificate_uses pe m : uses pe m (use_certificate pe m).
Proof. unfold use_certificate. destruct (truthy_str _); [|apply uses_refl]. apply use_algorithm_uses. by left. Qed.

Lemma use_tls_version_uses pe m : uses pe m (use_tls_version pe m).
Proof. unfold use_tls_version. destruct (truthy_str _); [|apply uses_refl]. apply use_algorithm_uses. by right. Qed.

Section Cbom.
Context (loads : string -> option pyval).

Lemma use_ssh_entry_uses pe kind m x m' : use_ssh_entry pe kind m x = Ok m' -> uses pe m m'.
Proof.
  unfold use_ssh_entry. destruct x as [| | | | | |e]; try (intros [= <-]; apply uses_refl).
  destruct (get_or e "algorithm" VNone) as [| | | |alg| |]; try (destruct (truthy _)); try done;
    try (intros [= <-]; apply uses_refl).
  destruct (truthy_str _); intros [= <-]; [apply use_algorithm_uses; by left|apply uses_refl].
Qed.

Lemma use_ssh_uses pe m m' : use_ssh loads pe m = Ok m' -> uses pe m m'.
Proof.
  unfold use_ssh. destruct (truthy_str _); [|intros [= <-]; apply uses_refl].
  destruct (loads _) as [v|]; [|intros [= <-]; apply uses_refl]. destruct v; try done.
  apply pfold_uses. intros m1 sec m2. unfold use_ssh_section. destruct (iterate _); [|done].
  apply pfold_uses. intros ? ? ?. apply use_ssh_entry_uses.
Qed.

Lemma use_blob_uses pe m column m' : use_blob loads pe m column = Ok m' -> uses pe m m'.
Proof.
  unfold use_blob. destruct (truthy_str _); [|intros [= <-]; apply uses_refl].
  destruct (loads _) as [v|]; [|intros [= <-]; apply uses_refl]. destruct v; try (intros [= <-]; apply uses_refl).
  destruct (if truthy _ then _ else _) as [| | | |alg| |]; try (destruct (truthy _)); try done;
    try (intros [= <-]; apply uses_refl).
  destruct (truthy_str _); intros [= <-]; [apply use_algorithm_uses; by left|apply uses_refl].
Qed.

Lemma use_row_uses m pe m' :
  use_row loads m pe = Ok m' ->
  uses pe m m' /\ uses pe (use_tls_version pe (use_certificate pe m)) m'.
Proof.
  unfold use_row. intros (m1 & H1 & H2)%pbind_ok.
  assert (uses pe (use_tls_version pe (use_certificate pe m)) m').
  { eapply uses_trans; [by apply use_ssh_uses|]. eapply pfold_uses; [|exact H2]. intros ? ? ?. apply use_blob_uses. }
  split; [|done]. eapply uses_trans; [|done]. eapply uses_trans; [apply use_certificate_uses|apply use_tls_version_uses].
Qed.

(** The algorithms a row's certificate and handshake name. *)
Definition row_algorithms (pe : pushed_endpoint) : list string :=
  let ep := er_ep (pe_row pe) in
  (if truthy_str (ep_cert_pubkey_alg ep) then [str_or_empty (ep_cert_pubkey_alg ep)] else [])
  ++ (if truthy_str (ep_tls_version ep) then ["TLS-" +:+ str_or_empty (ep_tls_version ep)] else []).

Lemma use_row_lists m pe m' alg :
  use_row loads m pe = Ok m' -> alg ∈ row_algorithms pe -> lists_source m' alg (source_of pe).
Proof.
  intros [_ H]%use_row_uses Ha. apply (us_keep _ _ _ H). unfold row_algorithms in Ha.
  apply elem_of_app in Ha as [Ha|Ha].
  - apply (us_keep _ _ _ (use_tls_version_uses _ _)). unfold use_certificate.
    destruct (truthy_str _); [|by apply elem_of_nil in Ha]. apply list_elem_of_singleton in Ha as ->. apply use_algorithm_lists.
  - unfold use_tls_version. destruct (truthy_str _); [|by apply elem_of_nil in Ha].
    apply list_elem_of_singleton in Ha as ->. apply use_algorithm_lists.
Qed.

Lemma pfold_use_rows eps m m' :
  pfold (use_row loads) m eps = Ok m' ->
  (entries_ok m -> entries_ok m')
  /\ (forall alg s, lists_source m alg s -> lists_source m' alg s)
  /\ (forall alg s, lists_source m' alg s -> lists_source m alg s \/ exists pe, pe ∈ eps /\ s = source_of pe)
  /\ (forall pe alg, pe ∈ eps -> alg ∈ row_algorithms pe -> lists_source m' alg (source_of pe)).
Proof.
  revert m. induction eps as [|pe eps IH]; intros m H; simpl in H.
  { injection H as <-. split; [done|]. split; [done|]. split; [by left|]. by intros ? ? ?%elem_of_nil. }
  destruct (use_row loads m pe) as [m1|] eqn:E; [|done]. apply IH in H as (H1 & H2 & H3 & H4).
  pose proof (proj1 (use_row_uses _ _ _ E)) as [ok keep new].
  split; [by auto|]. split; [by auto|]. split.
  - intros alg s Hs. destruct (H3 _ _ Hs) as [Hs1|(p & Hp & ->)].
    + destruct (new _ _ Hs1) as [| ->]; [by left|]. right. exists pe. split; [by left|done].
    + right. exists p. split; [by right|done].
  - intros p alg [->|Hp]%elem_of_cons Ha; [|by eapply H4]. apply H2. by eapply use_row_lists.
Qed.

End Cbom.

(** * One score *)

#[local] Opaque compute_readiness_score build_evidence_summary derive_dashboard_scoring_findings.

Section Surfaces.
Context (loads : string -> option pyval) (repr : pyval -> string) (fromisoformat : string -> option datetime).
Context (now : Z) (to_int : pyval -> option Z).

Lemma reply_ok {A} (c : pyres A) (x : A) :
  match c with Ok y => Reply y | Raise _ => Status 500 end = Reply x -> c = Ok x.
Proof. destruct c; [intros H; injection H as ->; reflexivity|discriminate]. Qed.

Lemma ok_inj {A} (x y : A) : Ok x = Ok y -> x = y.
Proof. intros H. injection H as H. exact H. Qed.

Lemma keyed_session d run :
  let keyed := List.filter (in_run run) (vd_endpoints d) in
  keyed <> [] -> fetch_session_endpoints_by_id fromisoformat d run = keyed.
Proof. intros keyed. unfold fetch_session_endpoints_by_id. fold keyed. by destruct keyed. Qed.

Lemma session_view_score d run n ts s eps :
  fetch_session_endpoints_by_id fromisoformat d run = eps -> eps <> [] ->
  session_view loads fromisoformat now d (run, (n, ts)) = Ok s ->
  exists r, dashboard_score loads now eps (job_of_session run ts (vd_jobs d) ≫= jv_calibration) = Ok r
            /\ sv_score s = r_score r /\ sv_rating s = r_rating r /\ sv_cap_reason s = r_rating_cap_reason r.
Proof.
  intros He Hne. unfold session_view. rewrite He. destruct eps as [|e eps]; [done|].
  intros (r & Hr & Hs)%pbind_ok. injection Hs as <-. eauto.
Qed.

(** The page's score is the computed one; it would be a stand-in only if that raised. *)
Lemma page_score d latest eps profile p :
  page_of_scan loads repr now to_int profile d latest eps = Ok p ->
  exists fs, derive_dashboard_scoring_findings loads (clock now) (clock now) eps = Ok fs
             /\ lp_score p = score_data (compute_readiness_score (evidence_of eps fs) profile [])
             /\ lp_total_findings p = Z.of_nat (length fs).
Proof.
  unfold page_of_scan. intros (items & Hi & H)%pbind_ok. apply pbind_ok in H as (idf & _ & H).
  apply pbind_ok in H as (cbom & _ & H). apply pbind_ok in H as (dar & _ & H). apply ok_inj in H. rewrite <- H.
  exists (map item_as_finding items). split; [|split; [reflexivity|cbn [lp_total_findings]; by rewrite length_map]].
  with_strategy transparent [derive_dashboard_scoring_findings] unfold derive_dashboard_scoring_findings. by rewrite Hi.
Qed.

(** Side A of a comparison is summarised from its rows' own score. *)
Lemma compare_side_a d a b eps c :
  fetch_session_endpoints_by_id fromisoformat d a = eps -> eps <> [] ->
  compare_scans loads fromisoformat now d a b = Reply c ->
  exists ts_a r, dashboard_score loads now eps None = Ok r /\ cr_scan_a c = summary_of a ts_a r.
Proof.
  intros Hf Hne Hc. unfold compare_scans in Hc. destruct (str_eqb a b); [discriminate Hc|].
  destruct (fromisoformat a) as [ts_a|]; [|discriminate Hc]. destruct (fromisoformat b); [|discriminate Hc].
  rewrite Hf in Hc. destruct eps as [|e eps]; [contradiction|].
  destruct (fetch_session_endpoints_by_id fromisoformat d b); [discriminate Hc|].
  apply reply_ok in Hc. unfold compare_rows in Hc. apply pbind_ok in Hc as (r & Hr & Hc). apply pbind_ok in Hc as (r' & _ & Hc).
  exists ts_a, r. split; [exact Hr|]. apply ok_inj in Hc. rewrite <- Hc. reflexivity.
Qed.

End Surfaces.

(** * Samples *)

Definition run_row (id : Z) (host : string) (run : option string) (stamp : Z) (severity : string) (alg : string) (size : Z)
  : pushed_endpoint :=
  {| pe_id := id; pe_sensor := None; pe_segment := None; pe_push := None;
     pe_row := {| er_ep := {| ep_host := host; ep_port := 443; ep_protocol := Some "TLS"; ep_scanned_at := Some (naive stamp);
       ep_tls_version := Some "TLSv1.3"; ep_cipher_suite := None; ep_cert_subject := Some "CN=a"; ep_cert_issuer := Some "CN=ca";
       ep_cert_sig_alg := None; ep_cert_pubkey_alg := Some alg; ep_cert_pubkey_size := Some size;
       ep_cert_spki_fingerprint := None; ep_cert_not_after := Some (naive (21000 * US_PER_DAY)); ep_scan_error := None;
       ep_tls_blocker_reason := None; ep_service_detail := None; ep_tls_supported_versions := None;
       ep_severity := Some severity; ep_scan_run_id := run |}; er_text := fun _ => None; er_flag := fun _ => None |} |}.

Definition no_tables (eps : list pushed_endpoint) : view_db :=
  {| vd_endpoints := eps; vd_items := []; vd_fps := []; vd_jobs := []; vd_devices := []; vd_drift := []; vd_checkpoints := [] |}.

(** Two runs of the host [w], the later one with a second host, and a row of none. *)
Definition two_runs : view_db :=
  no_tables [run_row 1 "w" (Some "a") 100 "HIGH" "RSA" 1024; run_row 2 "w" (Some "b") 200000000 "HIGH" "ECDSA" 256;
             run_row 3 "x" (Some "b") 200000001 "MEDIUM" "RSA" 2048; run_row 4 "y" None 50 "LOW" "RSA" 2048].

Definition any_iso (s : string) : option datetime := if str_eqb s "a" then Some (naive 0) else Some (naive 1).
Definition at_noon : Z := 20000 * US_PER_DAY.
Definition no_loads (_ : string) : option pyval := None.
Definition show (_ : pyval) : string := EmptyString.
Definition same_int (v : pyval) : option Z := int_or_none v.

Lemma page_shows_one_run_witness : exists eps,
  resolve_scan any_iso at_noon two_runs (Some "b") None = Reply (Some (naive 1), eps)
  /\ map pe_id eps = [2; 3]
  /\ (List.filter (in_run "b") (vd_endpoints two_runs) <> [] /\ eps = List.filter (in_run "b") (vd_endpoints two_runs)
      \/ List.filter (in_run "b") (vd_endpoints two_runs) = [] /\ of_no_run eps).
Proof.
  destruct (resolve_scan any_iso at_noon two_runs (Some "b") None) as [[ts eps]|code] eqn:E; [|vm_compute in E; discriminate E].
  pose proof (proj1 (proj2 (page_shows_one_run any_iso at_noon two_runs (Some "b") None ts eps E)) "b" eq_refl) as H.
  vm_compute in E. injection E as Et Ee. exists eps. split; [rewrite <- Et; reflexivity|].
  split; [rewrite <- Ee; reflexivity|exact H].
Defined.

(** The same instants without a run id on the latest row: the window takes in a row of
    another run. *)
Example unkeyed_latest_merges_runs :
  match resolve_scan any_iso at_noon (no_tables [run_row 1 "w" (Some "a") 100 "HIGH" "RSA" 1024;
                                                 run_row 2 "x" None 200000000 "HIGH" "RSA" 1024]) None None with
  | Reply (_, eps) => map run_id_of eps = [Some "a"; None]
  | Status _ => False
  end.
Proof. vm_compute. reflexivity. Qed.

Lemma compare_mirrors_witness : exists r drift,
  compare_scans no_loads any_iso at_noon two_runs "b" "a" = Reply r
  /\ map cp_host (cr_added r) = ["x"] /\ cr_changed r = [("w", "cert_pubkey_alg changed")]
  /\ compare_scans no_loads any_iso at_noon two_runs "a" "b" = Reply (mirror r drift).
Proof.
  destruct (compare_scans no_loads any_iso at_noon two_runs "b" "a") as [r|code] eqn:E; [|vm_compute in E; discriminate E].
  destruct (compare_mirrors no_loads any_iso at_noon two_runs "b" "a" r E) as [(drift & Hm & _) _].
  exists r, drift. vm_compute in E. injection E as E. split; [rewrite <- E; vm_compute; reflexivity|].
  split; [rewrite <- E; reflexivity|]. split; [rewrite <- E; reflexivity|exact Hm].
Defined.



(** ** The closure state of the latest page *)

Definition RUN : string := "1970-01-01T00:00:00+00:00".

Definition closed_run : view_db :=
  {| vd_endpoints := [run_row 1 "w" (Some RUN) 5000000 "HIGH" "RSA" 1024]; vd_items := [];
     vd_fps := [{| fr_id := 1; fr_item := None; fr_slug := "s"; fr_scan := RUN; fr_fp := "f"; fr_host := Some "w";
                   fr_port := Some 443; fr_title := None; fr_state := "open"; fr_observed := None |}];
     vd_jobs := []; vd_devices := []; vd_drift := []; vd_checkpoints := [] |}.

(** A run has closure rows, and the latest page, which is that run's rows, looks them up
    under the instant of its last row. *)
Example latest_page_misses_closure :
  match resolve_scan any_iso at_noon closed_run None None with
  | Reply (Some ts, eps) =>
      map run_id_of eps = [Some RUN]
      /\ (cbd_unavailable_reason <$> derive_closure_burndown closed_run RUN) = Some None
      /\ (cbd_unavailable_reason <$> derive_closure_burndown closed_run (iso_datetime ts)) = Some (Some NOT_COMPUTED)
  | _ => False
  end.
Proof. vm_compute. repeat split. Qed.

(** ** One batch of devices *)

Definition device_at (id : Z) (host : string) (instant : Z) : hw_view :=
  {| hv_row := {| hr_dev := {| hd_id := id; hd_host := host; hd_port := 22; hd_vendor := Some "Cisco"; hd_model := None;
                               hd_pqc_status := Some "unknown"; hd_bridge_evidence_json := None;
                               hd_probe_status := Some "success"; hd_scanned_at := Some instant |};
                  hr_confidence := None; hr_eol_date := None; hr_tier := None; hr_bridge_confirmed_at := None;
                  hr_modbus_firmware := None; hr_bacnet_firmware := None; hr_is_partial_scan := None |};
     hv_text := fun _ => None |}.

Definition event_at (id : Z) (host : string) (instant : Z) : HardwareDriftEvent :=
  {| de_id := id; de_host := host; de_port := 22; de_type := "tier_crossing"; de_old := Some "Tier 2"; de_new := Some "Tier 1";
     de_detected_at := instant; de_confirmed_at := instant; de_partial := false |}.

(** Two devices of one scan, each stamped when it was probed: the first one's event is
    not in the latest slice, and the scan counts as two. *)
Example one_batch_reads_as_two_scans :
  let d := {| vd_endpoints := []; vd_items := []; vd_fps := []; vd_jobs := []; vd_checkpoints := [];
              vd_devices := [device_at 1 "w" 100; device_at 2 "x" 101]; vd_drift := [event_at 1 "w" 100; event_at 2 "x" 101] |} in
  match get_hardware_drift d 50 with
  | Ok r => dr_has_prior_scan r = true /\ map di_host (dr_latest r) = ["x"] /\ map di_host (dr_historical r) = ["w"]
  | Raise _ => False
  end.
Proof. vm_compute. repeat split. Qed.
