(* ===== verification/Notify.v ===== *)
(** What leaves the console after a scan: drift notifications ([notify/payload.py],
    [notify/config.py], [notify/dispatcher.py]), the syslog export ([siem/config.py],
    [siem/dispatcher.py], the checks of [siem/transport.py]) and tickets
    ([ticketing/base.py], the loop of [cli/ticket_cmd.py]).

    The transports are parameters that succeed or fail with the text [safe_str] gives of
    the exception.  A tracker of tickets is an interface, [TicketingChannel], with the
    laws a lookup by fingerprint must obey ([LawfulChannel]).  [repr] is [str] of values
    that are not text, numbers or booleans. *)
From Stdlib Require Import ZArith Lia Ascii.
From stdpp Require Import base tactics strings list pretty.
From S2P Require Import Prelude PyStr PyVal Model Bands Compliance Closure Trends HwDrift IpAddr UrlGuard Siem.

Local Open Scope Z_scope.
Local Open Scope quirk_scope.

(** * Content *)

Definition BAND_TO_NOTIFY_SEVERITY : list (string * string) :=
  [("EXCELLENT", "GOOD"); ("GOOD", "LOW"); ("MODERATE", "MEDIUM"); ("FAIR", "HIGH"); ("POOR", "CRITICAL")].

Definition score_to_band (score : option Z) : pyres string :=
  match score with
  | None => Ok "NOT_ASSESSED"
  | Some s => match alookup (band_for_score s) BAND_TO_NOTIFY_SEVERITY with
              | Some b => Ok b
              | None => Raise (KeyError (band_for_score s))
              end
  end.

Record DriftSummary := {
  ds_current_score : option Z; ds_previous_score : option Z; ds_score_delta : option Z; ds_score_band : string;
  ds_new : Z * Z * Z; ds_scan_id : string; ds_dashboard_url : option string }.

(** [base.rstrip("/")] and the route, of a base that is set. *)
Definition dashboard_link (base : pyval) (route : string) : pyres (option string) :=
  if negb (truthy base) then Ok None
  else match base with
       | VStr b => Ok (Some (rstrip_by (fun c => bool_decide (c = "/"%char)) b +:+ route))
       | _ => Raise (AttributeError "rstrip")
       end.

Definition build_drift_summary (report : TrendReport) (base : pyval) (scan_id : string) : pyres DriftSummary :=
  let! band := score_to_band (tr_current_score report) in
  let! url := dashboard_link base "/trends" in
  Ok {| ds_current_score := tr_current_score report; ds_previous_score := tr_previous_score report;
        ds_score_delta := tr_score_delta report; ds_score_band := band; ds_new := tr_new report;
        ds_scan_id := scan_id; ds_dashboard_url := url |}.

Definition int_or_null (o : option Z) : pyval := match o with Some z => VInt z | None => VNone end.
Definition text_or_null (o : option string) : pyval := match o with Some s => VStr s | None => VNone end.

(** The whitelist of aggregates; the instants are those of the two sessions. *)
Definition to_integration_payload (report : TrendReport) (current_ts previous_ts : option Z) : pydict :=
  let '(nh, nm, nl) := tr_new report in
  let '(rh, rm, rl) := tr_resolved report in
  [("current_score", int_or_null (tr_current_score report)); ("previous_score", int_or_null (tr_previous_score report));
   ("score_delta", int_or_null (tr_score_delta report)); ("new_high", VInt nh); ("new_medium", VInt nm); ("new_low", VInt nl);
   ("resolved_high", VInt rh); ("resolved_medium", VInt rm); ("resolved_low", VInt rl);
   ("scan_errors_new_count", VInt (tr_errors_new report));
   ("current_session_ts", text_or_null (isoformat <$> current_ts));
   ("previous_session_ts", text_or_null (isoformat <$> previous_ts))].

Record HardwareLifecycleSummary := { hl_event_count : Z; hl_events : list pydict; hl_dashboard_url : option string }.

Definition lifecycle_event (e : HardwareDriftEvent) : pydict :=
  [("host", VStr (de_host e)); ("port", VInt (de_port e)); ("event_type", VStr (de_type e));
   ("old_value", text_or_null (de_old e)); ("new_value", text_or_null (de_new e));
   ("detected_at", VStr (isoformat (de_detected_at e)))].

Definition build_hardware_lifecycle_summary (events : list HardwareDriftEvent) (base : pyval) : pyres HardwareLifecycleSummary :=
  let! url := dashboard_link base "/hardware" in
  Ok {| hl_event_count := Z.of_nat (length events); hl_events := map lifecycle_event events; hl_dashboard_url := url |}.

Definition to_hardware_lifecycle_payload (s : HardwareLifecycleSummary) : pydict :=
  [("event_type", VStr "hardware_lifecycle"); ("event_count", VInt (hl_event_count s));
   ("events", VList (map VDict (hl_events s))); ("dashboard_url", text_or_null (hl_dashboard_url s))].

(** * Configuration *)

Record SlackNotifyCfg := { sl_webhook_env : string; sl_dashboard_base_url : pyval }.
Record EmailNotifyCfg := {
  em_host : string; em_port : Z; em_from : string; em_recipients : list pyval; em_user : pyval; em_password_env : pyval;
  em_use_ssl : bool; em_timeout : Z }.
Record WebhookNotifyCfg := { wh_url_env : string; wh_hmac_key_env : pyval; wh_timeout : Z }.
Record NotifyCfg := {
  nc_trigger_score_floor : Z; nc_notify_on_hardware_lifecycle : bool; nc_slack : option SlackNotifyCfg;
  nc_email : option EmailNotifyCfg; nc_webhook : option WebhookNotifyCfg }.

Record SiemCfg := { si_host : string; si_port : Z; si_protocol : string; si_export_after_scan : bool; si_timeout : Z }.

Section Config.
Context (repr : pyval -> string).

(** The loaders swallow every exception: [None] is a failure of the whole block. *)
Definition as_dict (v : pyval) : option pydict := match v with VDict d => Some d | _ => None end.

(** [raw.get(k) or {}], as the mapping its parser gets; an empty one is [Some []]. *)
Definition notify_block (raw : pydict) (k : string) : option pydict := as_dict (py_or (get raw k) (VDict [])).

Definition or_nothing (v : pyval) : pyval := if truthy v then v else VNone.

Definition parse_slack (raw : pydict) : option (option SlackNotifyCfg) :=
  if negb (truthy (get raw "slack_webhook_env")) then Some None
  else Some (Some {| sl_webhook_env := py_str repr (get raw "slack_webhook_env");
                     sl_dashboard_base_url := or_nothing (get raw "dashboard_base_url") |}).

Definition recipients_of (v : pyval) : option (list pyval) :=
  match py_or v (VList []) with
  | VStr s => Some [VStr s]
  | VList l => Some l
  | VDict d => Some (map (fun e => VStr e.1) d)
  | _ => None
  end.

Definition parse_email (raw : pydict) : option (option EmailNotifyCfg) :=
  if negb (truthy (get raw "smtp_host")) then Some None
  else
    recipients ← recipients_of (get raw "recipients");
    port ← int_or_none (get_or raw "smtp_port" (VInt 587));
    timeout ← int_or_none (get_or raw "timeout_seconds" (VInt 10));
    Some (Some {| em_host := py_str repr (get raw "smtp_host"); em_port := port;
                  em_from := py_str repr (py_or (get_or raw "smtp_from" (VStr EmptyString)) (VStr EmptyString));
                  em_recipients := recipients; em_user := or_nothing (get raw "smtp_user");
                  em_password_env := or_nothing (get raw "smtp_password_env");
                  em_use_ssl := truthy (get_or raw "use_ssl" (VBool false)); em_timeout := timeout |}).

Definition parse_webhook (raw : pydict) : option (option WebhookNotifyCfg) :=
  if negb (truthy (get raw "url_env")) then Some None
  else timeout ← int_or_none (get_or raw "timeout_seconds" (VInt 10));
       Some (Some {| wh_url_env := py_str repr (get raw "url_env"); wh_hmac_key_env := or_nothing (get raw "hmac_key_env");
                     wh_timeout := timeout |}).

Definition parse_notify_cfg (raw : pydict) : option NotifyCfg :=
  floor ← int_or_none (get_or raw "trigger_score_floor" (VInt (-5)));
  slack_raw ← notify_block raw "slack"; slack ← parse_slack slack_raw;
  email_raw ← notify_block raw "email"; email ← parse_email email_raw;
  webhook_raw ← notify_block raw "webhook"; webhook ← parse_webhook webhook_raw;
  Some {| nc_trigger_score_floor := floor;
          nc_notify_on_hardware_lifecycle := truthy (get_or raw "notify_on_hardware_lifecycle" (VBool false));
          nc_slack := slack; nc_email := email; nc_webhook := webhook |}.

(** The block [key] of the document of a file, [None] when there is none to read. *)
Definition config_block (doc : option pyval) (key : string) : option pydict :=
  v ← doc; d ← as_dict (py_or v (VDict []));
  if truthy (get d key) then as_dict (get d key) else None.

Definition load_notifications_config (doc : option pyval) : option NotifyCfg :=
  raw ← config_block doc "notifications"; parse_notify_cfg raw.

Definition parse_siem_cfg (raw : pydict) : option SiemCfg :=
  port ← int_or_none (get_or raw "port" (VInt 514));
  timeout ← int_or_none (get_or raw "timeout_seconds" (VInt 5));
  Some {| si_host := py_str repr (get_or raw "host" (VStr EmptyString)); si_port := port;
          si_protocol := lower (py_str repr (get_or raw "protocol" (VStr "udp")));
          si_export_after_scan := truthy (get_or raw "export_after_scan" (VBool false)); si_timeout := timeout |}.

Definition load_siem_config (doc : option pyval) : option SiemCfg := raw ← config_block doc "siem"; parse_siem_cfg raw.
End Config.

(** * Deliveries *)

(** The columns of [IntegrationDelivery] these modules write. *)
Record delivery := {
  dl_scan_id : string; dl_destination : string; dl_finding_hash : option string; dl_status : string; dl_error : option string }.

(** The row of an attempt, by the error it ended with. *)
Definition attempt (scan_id destination : string) (hash : option string) (error : option string) : delivery :=
  {| dl_scan_id := scan_id; dl_destination := destination; dl_finding_hash := hash;
     dl_status := match error with Some _ => "failed" | None => "ok" end; dl_error := error |}.

Definition should_notify (report : TrendReport) (threshold : Z) : bool :=
  (0 <? (tr_new report).1.1) || match tr_score_delta report with Some d => d <? - threshold | None => false end.

Section Dispatch.
Context (set_order : list ep_key -> list ep_key) (findings_deriver : list endpoint_row -> pyres (list finding)).
Context (send_slack : SlackNotifyCfg -> DriftSummary -> option string)
  (send_email : EmailNotifyCfg -> DriftSummary -> option string)
  (send_webhook : WebhookNotifyCfg -> pydict -> option string).

Definition find_two_sessions (d : db) : option Z * option Z :=
  match list_session_timestamps d 2 with
  | [] => (None, None)
  | [c] => (Some c, None)
  | c :: p :: _ => (Some c, Some p)
  end.

(** The rows the fan-out writes, and the scan id the run gets if it has none; nothing
    when it is not configured, has no scan, or the trigger is not met.  An exception
    before the fan-out reaches the scheduler's handler. *)
Definition dispatch_notifications (cfg : option NotifyCfg) (d : db) (run_scan_id : option string)
    : pyres (list delivery * option string) :=
  match cfg, find_two_sessions d with
  | Some cfg, (Some current_ts, previous_ts) =>
      let! report := compute_trend_report set_order findings_deriver current_ts previous_ts d in
      if negb (should_notify report (Z.abs (nc_trigger_score_floor cfg))) then Ok ([], run_scan_id)
      else
        let scan_id := isoformat current_ts in
        let base := match nc_slack cfg with Some c => sl_dashboard_base_url c | None => VNone end in
        let! summary := build_drift_summary report base scan_id in
        let payload := to_integration_payload report (Some current_ts) previous_ts in
        let rows := match nc_slack cfg with Some c => [attempt scan_id "slack" None (send_slack c summary)] | None => [] end
                    ++ match nc_email cfg with Some c => [attempt scan_id "email" None (send_email c summary)] | None => [] end
                    ++ match nc_webhook cfg with Some c => [attempt scan_id "webhook" None (send_webhook c payload)] | None => [] end in
        Ok (rows, match run_scan_id with None => Some scan_id | r => r end)
  | _, _ => Ok ([], run_scan_id)
  end.
End Dispatch.

(** ** Hardware lifecycle *)

Definition qualifies (e : HardwareDriftEvent) : bool :=
  if str_eqb (de_type e) "tier_crossing" then str_eqb (tier_direction (de_old e) (de_new e)) "worsened"
  else str_eqb (de_type e) "eol_state_change".

Definition event_scan_id (e : HardwareDriftEvent) : string :=
  de_host e +:+ ":" +:+ pretty (de_port e) +:+ ":" +:+ de_type e +:+ ":" +:+ pretty (de_id e).

Definition dispatch_hardware_lifecycle_notifications (send_email : EmailNotifyCfg -> HardwareLifecycleSummary -> option string)
    (send_webhook : WebhookNotifyCfg -> pydict -> option string) (cfg : option NotifyCfg)
    (events : list HardwareDriftEvent) (base : pyval) : pyres (list delivery) :=
  match cfg, List.filter qualifies events with
  | Some cfg, (first :: _) as qualifying =>
      if negb (nc_notify_on_hardware_lifecycle cfg) then Ok []
      else
        let! summary := build_hardware_lifecycle_summary qualifying base in
        let id := event_scan_id first in
        Ok (match nc_email cfg with Some c => [attempt id "email" None (send_email c summary)] | None => [] end
            ++ match nc_webhook cfg with
               | Some c => [attempt id "webhook" None (send_webhook c (to_hardware_lifecycle_payload summary))]
               | None => []
               end)
  | _, _ => Ok []
  end.

(** * Syslog *)

Definition IPV4_LINK_LOCAL : ip_network := v4net 169 254 0 0 16.

(** What [send_syslog_raw] refuses before it opens a socket. *)
Definition syslog_refusal (env : string -> option string) (resolve : string -> option (list string)) (host : string) (port : Z)
    (protocol : string) : pyres unit :=
  if negb (truthy_str (Some host)) then Raise (ValueError "host must be a non-empty string")
  else if negb ((1 <=? port) && (port <=? 65535)) then Raise (ValueError "port must be an integer in range [1, 65535]")
  else
    let! r := validate_external_url env resolve ("http://" +:+ host) true in
    if negb (ok r) then Raise (ValueError ("Syslog host rejected: " +:+ reason r))
    else if match parse_ip host with Some (IPv4 n) => in_network (IPv4 n) IPV4_LINK_LOCAL | _ => false end then
      Raise (ValueError "Syslog host rejected: link-local address")
    else if str_in protocol ["udp"; "tcp"] then Ok tt
    else Raise (ValueError "protocol must be 'udp' or 'tcp'").

(** One event per finding; the errors joined in one row for the batch, and the number
    sent. *)
Definition export_findings (send : pydict -> option string) (findings : list pydict) (scan_id : string) : Z * delivery :=
  let errors := omap send findings in
  (Z.of_nat (length findings - length errors),
   attempt scan_id "siem" None (match errors with [] => None | _ => Some (str_join "; " errors) end)).

(** The hook after a scan: the export, where it is configured and the newest findings
    file of the run ([load]) is a list. *)
Definition export_after_scan_hook (send : pydict -> option string) (cfg : option SiemCfg) (output_path : option string)
    (load : string -> option (list pydict)) (run_scan_id : option string) : option (Z * delivery) :=
  c ← cfg;
  if negb (si_export_after_scan c) then None
  else match output_path with
       | Some (String _ _ as path) =>
           findings ← load path;
           Some (export_findings send findings
                   (if truthy_str run_scan_id then str_or_empty run_scan_id
                    else match rsplit_once "/"%char path with Some (_, b) => b | None => path end))
       | _ => None
       end.

(** * Tickets *)

(** What a ticketing backend offers: each call gives its result and the tracker after
    it, or the text of an exception. *)
Class TicketingChannel (T : Type) := {
  destination : string;
  find_by_fingerprint : T -> string -> string + option string;
  create_issue_from_finding : T -> pydict -> string -> string -> string + (T * string);
  add_rediscovery_comment : T -> string -> string -> string + T }.

(** The promise of a backend, over the fingerprints its issues carry: a lookup that
    answers is right about them, a creation adds one, a comment adds none. *)
Class LawfulChannel (T : Type) `{TicketingChannel T} (labels : T -> list string) : Prop := {
  find_key : forall t fp key, find_by_fingerprint t fp = inr (Some key) -> key <> EmptyString -> fp ∈ labels t;
  find_none : forall t fp k, find_by_fingerprint t fp = inr k -> truthy_str k = false -> fp ∉ labels t;
  create_labels : forall t f fp ev t' key, create_issue_from_finding t f fp ev = inr (t', key) -> labels t' = labels t ++ [fp];
  comment_labels : forall t key fp t', add_rediscovery_comment t key fp = inr t' -> labels t' = labels t }.

Section Tickets.
Context (repr : pyval -> string) (sha256 : string -> string).

Definition text_of (v : pyval) : string := py_str repr (py_or v (VStr EmptyString)).

Definition ticket_fingerprint (f : pydict) : string :=
  sha256 (text_of (get f "host") +:+ ":" +:+ text_of (get f "port") +:+ "::"
          +:+ normalize_finding_title (text_of (get f "title")) (Some FINGERPRINT_TITLE_ALIASES)).

Definition newline : string := str1 (chr 10).

Definition build_ticket_evidence (f : pydict) : string :=
  let field k dflt := py_str repr (get_or f k (VStr dflt)) in
  str_join newline
    (["**Finding:** " +:+ field "title" "Unknown"; "**Severity:** " +:+ field "severity" "LOW";
      "**Host:** " +:+ field "host" EmptyString +:+ ":" +:+ field "port" EmptyString; EmptyString;
      "**Description:** " +:+ field "description" EmptyString; EmptyString;
      "**Recommendation:** " +:+ field "recommendation" EmptyString]
     ++ if truthy (get f "quantum_risk") then [EmptyString; "**Quantum Risk:** " +:+ py_str repr (get f "quantum_risk")] else []).

Context {T : Type} `{TicketingChannel T}.

(** Comment on the issue of the fingerprint, or create one. *)
Definition deliver (t : T) (f : pydict) (fp : string) : string + T :=
  match find_by_fingerprint t fp with
  | inl e => inl e
  | inr key =>
      if truthy_str key then add_rediscovery_comment t (str_or_empty key) fp
      else match create_issue_from_finding t f fp (build_ticket_evidence f) with inl e => inl e | inr (t', _) => inr t' end
  end.

(** A failed delivery leaves the tracker as it was. *)
Definition dispatch_finding (scan_id : string) (f : pydict) (t : T) : T * delivery :=
  let fp := ticket_fingerprint f in
  match deliver t f fp with
  | inl e => (t, attempt scan_id destination (Some fp) (Some e))
  | inr t' => (t', attempt scan_id destination (Some fp) None)
  end.

Fixpoint dispatch_findings (scan_id : string) (findings : list pydict) (t : T) : T * list delivery :=
  match findings with
  | [] => (t, [])
  | f :: rest => let '(t, row) := dispatch_finding scan_id f t in
                 let '(t, rows) := dispatch_findings scan_id rest t in (t, row :: rows)
  end.
End Tickets.
