(* ===== verification/NotifyProps.v ===== *)
(** What the deliveries after a scan guarantee: one ticket per finding identity on any
    tracker that keeps its promise. *)
From Stdlib Require Import ZArith Lia Ascii.
From stdpp Require Import base tactics strings list pretty.
From S2P Require Import Prelude PyStr PyVal Model Trends HwDrift UrlGuard Siem Notify.

Local Open Scope Z_scope.
Local Open Scope quirk_scope.

(** * Tickets *)

Section Tickets.
Context (repr : pyval -> string) (sha256 : string -> string) (scan_id : string).
Context {T : Type} `{Hchannel : TicketingChannel T} {labels : T -> list string} `{Hlaw : !LawfulChannel T labels}.

Notation fp_of := (ticket_fingerprint repr sha256).
Notation dispatch_finding := (dispatch_finding repr sha256 scan_id).
Notation dispatch_findings := (dispatch_findings repr sha256 scan_id).

(** A delivery that succeeds finds the fingerprint or adds it. *)
Lemma deliver_labels t f fp t' : deliver repr t f fp = inr t' ->
  (fp ∈ labels t /\ labels t' = labels t) \/ (fp ∉ labels t /\ labels t' = labels t ++ [fp]).
Proof.
  unfold deliver. destruct (find_by_fingerprint t fp) as [e|k] eqn:Ef; [done|].
  destruct (truthy_str k) eqn:Ek.
  - destruct k as [[|c k]|]; try done. intros Hc. left.
    split; [by eapply find_key|by eapply comment_labels].
  - destruct (create_issue_from_finding _ _ _ _) as [e|[t1 key]] eqn:Ec; [done|]. intros [= <-].
    right. split; [by eapply find_none|by eapply create_labels].
Qed.

(** One finding, failed or not. *)
Lemma dispatch_one t f t' row : dispatch_finding f t = (t', row) -> NoDup (labels t) ->
  NoDup (labels t') /\ dl_finding_hash row = Some (fp_of f)
  /\ (labels t' = labels t \/ labels t' = labels t ++ [fp_of f])
  /\ (dl_status row = "ok" -> fp_of f ∈ labels t').
Proof.
  unfold Notify.dispatch_finding. intros H Hnd. destruct (deliver repr t f (fp_of f)) as [e|t1] eqn:E.
  - injection H as <- <-. split_and!; [done|done|by left|done].
  - injection H as <- <-. apply deliver_labels in E as [[Hin E]|[Hin E]].
    + split_and!; [by rewrite E|done|by left|by rewrite E].
    + split_and!; [rewrite E|done|by right|intros _; rewrite E; apply elem_of_app; right; left].
      apply NoDup_app. split; [done|]. split; [|apply NoDup_singleton]. by intros x Hx ->%list_elem_of_singleton.
Qed.

Lemma dispatch_all t findings t' rows : dispatch_findings findings t = (t', rows) -> NoDup (labels t) ->
  NoDup (labels t') /\ map dl_finding_hash rows = map (fun f => Some (fp_of f)) findings
  /\ labels t `prefix_of` labels t'
  /\ (forall fp, fp ∈ labels t' -> fp ∈ labels t \/ fp ∈ map fp_of findings)
  /\ (forall row, row ∈ rows -> dl_status row = "ok" -> exists fp, dl_finding_hash row = Some fp /\ fp ∈ labels t').
Proof.
  revert t t' rows. induction findings as [|f findings IH]; intros t t' rows H Hnd; simpl in H.
  - injection H as <- <-. split_and!; [done|done|done|auto|]. intros row Hr. by apply not_elem_of_nil in Hr.
  - destruct (Notify.dispatch_finding _ _ _ f t) as [t1 row1] eqn:E1.
    destruct (Notify.dispatch_findings _ _ _ findings t1) as [t2 rows2] eqn:E2. injection H as <- <-.
    destruct (dispatch_one _ _ _ _ E1 Hnd) as (Hnd1 & Hh & Hl & Hok).
    destruct (IH _ _ _ E2 Hnd1) as (Hnd2 & Hh2 & Hp & Hsub & Hok2).
    split_and!.
    + done.
    + simpl. by rewrite Hh, Hh2.
    + etrans; [|exact Hp]. destruct Hl as [El|El]; rewrite El; [done|by apply prefix_app_r].
    + intros fp Hfp. destruct (Hsub fp Hfp) as [Hin|Hin]; [|right; by right].
      destruct Hl as [El|El]; rewrite El in Hin; [by left|]. apply elem_of_app in Hin as [?| ->%list_elem_of_singleton]; [by left|right; left].
    + intros row [->|Hr]%elem_of_cons Hs; [|by apply Hok2]. exists (fp_of f). split; [done|].
      specialize (Hok Hs). destruct Hp as [k Ek]. rewrite Ek. apply elem_of_app. by left.
Qed.

(** C22: on a tracker that keeps its promise, sending the findings of a scan, whatever
    fails on the way, never leaves two issues for one fingerprint, touches no issue but
    those of the findings, records one attempt per finding in order, and every attempt
    recorded as delivered has its issue; sending the same findings again after a run
    without failures opens no new issue. *)
Theorem one_ticket_per_identity t findings t' rows :
  dispatch_findings findings t = (t', rows) -> NoDup (labels t) ->
  NoDup (labels t')
  /\ (forall fp, fp ∈ labels t' -> fp ∈ labels t \/ fp ∈ map fp_of findings)
  /\ map dl_finding_hash rows = map (fun f => Some (fp_of f)) findings
  /\ (forall row, row ∈ rows -> dl_status row = "ok" -> exists fp, dl_finding_hash row = Some fp /\ fp ∈ labels t')
  /\ ((forall row, row ∈ rows -> dl_status row = "ok") ->
      labels (dispatch_findings findings t').1 = labels t').
Proof.
  intros H Hnd. destruct (dispatch_all _ _ _ _ H Hnd) as (Hnd' & Hh & _ & Hsub & Hok).
  split_and!; [done|done|done|done|]. intros Hall.
  destruct (dispatch_findings findings t') as [t2 rows2] eqn:E2.
  destruct (dispatch_all _ _ _ _ E2 Hnd') as (Hnd2 & _ & [extra He] & Hsub2 & _). cbn [fst].
  rewrite He. destruct extra as [|fp extra]; [by rewrite app_nil_r|exfalso].
  rewrite He in Hnd2. apply NoDup_app in Hnd2 as (_ & Hdis & _).
  assert (Hin : fp ∈ labels t'); [|by apply (Hdis fp Hin); left].
  destruct (Hsub2 fp) as [?|Hm]; [rewrite He; apply elem_of_app; right; left|done|].
  apply list_elem_of_fmap in Hm as (f & -> & Hf).
  assert (Hf' : Some (fp_of f) ∈ map dl_finding_hash rows) by (rewrite Hh; apply list_elem_of_fmap; eauto).
  apply list_elem_of_fmap in Hf' as (row & Hrow & Hr). destruct (Hok row Hr (Hall row Hr)) as (fp' & Hfp' & Hin').
  congruence.
Qed.
End Tickets.

(** ** A tracker that keeps the promise: issues with a label and a count of comments *)

Module Tracker.
Record issue := { i_key : string; i_label : string; i_comments : nat }.

Definition key_at (n : nat) : string := "SEC-" +:+ pretty (Z.of_nat n).

Definition comment_on (key : string) (i : issue) : issue :=
  if str_eqb (i_key i) key then {| i_key := i_key i; i_label := i_label i; i_comments := S (i_comments i) |} else i.

#[global] Instance channel : TicketingChannel (list issue) := {
  destination := "jira";
  find_by_fingerprint t fp := inr (i_key <$> List.find (fun i => str_eqb (i_label i) fp && truthy_str (Some (i_key i))) t);
  create_issue_from_finding t f fp ev :=
    inr (t ++ [{| i_key := key_at (length t); i_label := fp; i_comments := 0 |}], key_at (length t));
  add_rediscovery_comment t key fp := inr (map (comment_on key) t) }.

(** The labels of the issues that have a key. *)
Definition labels (t : list issue) : list string := map i_label (List.filter (fun i => truthy_str (Some (i_key i))) t).

Lemma filter_comments key t :
  List.filter (fun i => truthy_str (Some (i_key i))) (map (comment_on key) t)
  = map (comment_on key) (List.filter (fun i => truthy_str (Some (i_key i))) t).
Proof.
  induction t as [|i t IH]; [done|]. cbn [map List.filter].
  replace (i_key (comment_on key i)) with (i_key i) by (unfold comment_on; by destruct (str_eqb _ _)).
  destruct (truthy_str _); cbn [map]; by rewrite IH.
Qed.

#[global] Instance lawful : LawfulChannel (list issue) labels.
Proof.
  split.
  - intros t fp key H _. cbn in H. injection H as H. destruct (List.find _ t) as [i|] eqn:E; [|done].
    apply find_some in E as [Hi Hl]. apply andb_true_iff in Hl as [Hl Hk]. apply str_eqb_eq in Hl as <-.
    apply list_elem_of_fmap. exists i. split; [done|]. apply elem_of_filter_bool. by apply list_elem_of_In in Hi.
  - intros t fp k H Hk Hin. cbn in H. injection H as H.
    apply list_elem_of_fmap in Hin as (i & -> & Hi). apply elem_of_filter_bool in Hi as [Hi Ht].
    destruct (List.find _ t) as [j|] eqn:E.
    + apply find_some in E as [_ Hj]. apply andb_true_iff in Hj as [_ Hj]. cbn in H. subst k. cbn in Hk, Hj. congruence.
    + apply list_elem_of_In in Hi. pose proof (List.find_none _ _ E _ Hi) as Hn. cbn beta in Hn.
      rewrite str_eqb_refl in Hn. cbn in Hn, Ht. congruence.
  - intros t f fp ev t' key H. cbn in H. injection H as <- _. unfold labels. by rewrite List.filter_app, map_app.
  - intros t key fp t' H. cbn in H. injection H as <-. unfold labels. rewrite filter_comments, map_map. apply map_ext. intros i.
    unfold comment_on. by destruct (str_eqb _ _).
Qed.

Definition finding (host title : string) : pydict := [("host", VStr host); ("port", VInt 443); ("title", VStr title)].
Definition findings : list pydict := [finding "a" "TLS certificate expired"; finding "b" "TLS certificate expired";
                                      finding "a" "TLS certificate expired"].
End Tracker.

Lemma one_ticket_per_identity_witness :
  exists t' rows,
    dispatch_findings (fun _ => "") (fun s => s) "findings-1" Tracker.findings [] = (t', rows)
    /\ map Tracker.i_comments t' = [1; 0]%nat /\ NoDup (Tracker.labels t')
    /\ Tracker.labels (dispatch_findings (fun _ => "") (fun s => s) "findings-1" Tracker.findings t').1 = Tracker.labels t'.
Proof.
  eexists _, _. split; [vm_compute; reflexivity|]. split; [reflexivity|].
  edestruct (one_ticket_per_identity (labels := Tracker.labels) (fun _ => "") (fun s => s) "findings-1" [] Tracker.findings)
    as (H1 & _ & _ & _ & H5).
  - vm_compute. reflexivity.
  - constructor.
  - split; [exact H1|]. apply H5. intros row Hr. repeat (apply elem_of_cons in Hr as [->|Hr]; [reflexivity|]).
    by apply not_elem_of_nil in Hr.
Defined.

(** * Notifications *)

(** A first scan never notifies, whatever it found: its report has no new findings. *)
Lemma first_scan_is_silent score threshold : should_notify (single_session score) threshold = false.
Proof. reflexivity. Qed.

(** A score band is found for every score. *)
Lemma score_to_band_total score : exists b, score_to_band score = Ok b.
Proof.
  destruct score as [s|]; [|by eexists]. unfold score_to_band, Bands.band_for_score.
  destruct (_ <=? s); [by eexists|]. destruct (_ <=? s); [by eexists|]. destruct (_ <=? s); [by eexists|].
  destruct (_ <=? s); by eexists.
Qed.

(** * Syslog *)

(** A name that resolves to a link-local address passes, although the range is to be
    blocked: the second check looks at literals only. *)
Example link_local_name_accepted :
  syslog_refusal (fun _ => None) (fun _ => Some ["169.254.0.7"]) "collector.example" 514 "udp" = Ok tt
  /\ is_ok (syslog_refusal (fun _ => None) (fun _ => None) "169.254.0.7" 514 "udp") = false.
Proof. vm_compute. split; reflexivity. Qed.
